(* ===== verification/_CoqProject ===== *)
-Q . S2P
Prelude.v
KMonad.v
Hoare.v
Spinlock.v
Ring.v
Sleeplock.v
Bio.v
BioSpec.v
BioAbs.v
Log.v
LogSpec.v
LogCrash.v
LogOps.v
Txn.v
CString.v
Riscv.v
Kalloc.v
Vm.v
VmSleep.v
PageTable.v
VmSpec.v
UvmSpec.v
FreeWalk.v
Reclaim.v
UCopy.v
VmThms.v
UvmCopy.v
Proc.v
ProcSpec.v
ProcInv.v
ProcThms.v
SleepRace.v
Reap.v
AllocProc.v
Fs.v
FsSpec.v
InodeSpec.v
PathSpec.v
FileSpec.v
WriteSpec.v
DirSpec.v
Pipe.v
PipeSpec.v
Uart.v
UartSpec.v
Console.v
ConsoleSpec.v
Printf.v
Ulib.v
Grep.v
Sh.v
ShPrint.v
ShRun.v
Utils.v
UtilsSpec.v
Find.v
FileUtils.v
Ls.v
Init.v
Umalloc.v
File.v
Fork.v
ForkSpec.v
Exec.v
Syscall.v
Sysfile.v
Virtio.v
VirtioSpec.v
Datetime.v
Sysproc.v
Trap.v
