(* ===== verification/Prelude.v ===== *)
(** * A verification development for the xv6 RISC-V system of this repository

    The repository is a teaching operating system for a multiprocessor RISC-V
    machine: a kernel (src/kernel) and the user programs that run on it
    (src/user), both in C.  This library is a shallow embedding of them: C
    functions are Rocq functions, and the theorems are about those functions.

    ** The program and how it is modelled

    A kernel routine is an action of the monad of KMonad.v: a function of the
    environment of the running thread (the process, the spinlocks its CPU
    holds, the wakeups it has issued) and of the state of its component.  It
    returns, panics, runs out of fuel, or sleeps; the outcome of sleep() holds
    the resumption, so one definition gives the routine alone and under any
    interleaving of other threads at the points where it sleeps.  acquire()
    and release() are entries of the list of held locks, with the panics of
    spinlock.c; what makes this view of a lock right, the mutual exclusion of
    the code of spinlock.c itself on several CPUs with interrupts, is proved
    in Spinlock.v instruction by instruction.  User programs are functions
    from what they read to what they write.

    Integers are [Z] with the wrap-around of their width written out (this
    file), memory is a map from addresses to bytes (CString.v), and undefined
    behaviour is a result of its own.  Hoare.v has the triples with which the
    kernel's invariants are proved, Ring.v what pipes, the console and the
    serial port share.

    Kernel, from the bottom up (source file: files here):
    - spinlock.c: Spinlock; sleeplock.c: Sleeplock; string.c: CString
    - kalloc.c: Kalloc.  The free list lies in the free pages themselves.
    - vm.c, riscv.h, memlayout.h: Riscv, Vm (definitions), VmSleep, PageTable
      (the tree invariant), VmSpec, UvmSpec, UCopy, VmThms, UvmCopy (theorems),
      FreeWalk, Reclaim (giving page tables and address spaces back)
    - bio.c: Bio, BioSpec (the cache list), BioAbs (the refinement to a store
      of blocks, as an instance of a type class that log.c is proved against)
    - log.c: Log, LogSpec, LogCrash, LogOps; Txn is what the log promises to
      the file system inside a transaction
    - fs.c: Fs, FsSpec (bitmap), InodeSpec (inodes), FileSpec (bmap, readi,
      dirlookup), WriteSpec (writei), DirSpec (dirlink), PathSpec (path names)
    - virtio_disk.c: Virtio, VirtioSpec (the driver, its interrupt handler and
      a device as one transition system)
    - uart.c, console.c: Uart, UartSpec, Console, ConsoleSpec; pipe.c: Pipe,
      PipeSpec; file.c: File; printf.c: Printf
    - proc.c: Proc, Fork (definitions), ProcSpec, ProcInv, ProcThms,
      SleepRace (sleep() and wakeup() statement by statement), Reap
      (freeproc, wait), AllocProc (allocproc), ForkSpec (fork); exec.c: Exec
    - syscall.c, sysfile.c, sysproc.c, sysutil.c, syscount.c, sysprocessid.c,
      sysptable.c: Syscall, Sysfile, Sysproc; datetime.c: Datetime
    - trap.c, plic.c: Trap

    User level:
    - ulib.c, printf.c, umalloc.c: Ulib, Printf, Umalloc
    - sh.c: Sh (the parser), ShPrint (its inverse), ShRun (running a line)
    - grep.c: Grep; find.c: Find; ls.c, echo.c: Ls; cat.c, wc.c, tail.c,
      diff.c, fact.c, add.c: Utils, UtilsSpec; mv.c, cp.c, ln.c, rm.c,
      mkdir.c, touch.c: FileUtils; init.c, kill.c, sleep.c, write.c and the
      generator of grind.c: Init

    The layers call each other as in the code: a system call of Sysfile.v
    uses Fs.v and File.v, these the log, the log the buffer cache; the state
    of a layer contains that of the layers below, and [zoom] of KMonad.v runs
    a routine of one on the state of another.

    ** What the theorems show

    - The disk.  A transaction is atomic under a crash at any point of
      commit(), and recovery restores it (LogCrash); the reservation of
      begin_op() keeps the log within LOGSIZE blocks for any interleaving of
      system calls, which is enough for log_write() in a log of LOGSIZE + 1
      blocks or more and not in one of LOGSIZE blocks (LogOps); the buffer
      cache keeps its list and never gives two buffers to a block (BioSpec)
      and implements a store of blocks (BioAbs).  The disk driver, under any
      interleaving of its callers, its interrupt handler and a device that
      follows the virtio protocol, has the device attempt only the transfers
      asked for, each at most once, and returns from a call only when its transfer is
      done; the interrupt handler panics exactly when the device has reported
      an error (VirtioSpec).
    - The file system.  Inside a transaction, reading it through a file
      view: balloc() and bfree(), the inode table and the round trip of an
      inode through its block, readi() to any destination against the bytes of
      the file, writei() of a range of the file and reading it back, dirlookup()
      against the entries of the directory, dirlink() into a free entry and
      looking it up, skipelem() against the elements of a path.
    - Memory.  The page allocator gives every page to one owner (Kalloc);
      mappages(), uvmalloc() and uvmdealloc() change the translation of an
      address space exactly as they should, on failure too; uvmcopy() gives a
      child pages of its own with the parent's bytes, or nothing; copyin(),
      copyout() and copyinstr() agree with reference definitions over the
      translation (VmThms); the string routines with list functions.
    - Processes.  The invariant of the process table under all of its
      operations; no lost wakeup, with the statements of sleep() and wakeup()
      interleaved in any way (SleepRace); what the three scheduling policies
      choose, and that the processes a CPU dispatches never go down in rank,
      so that none of the policies rotates; kill().
      fork() makes a runnable child with the parent's bytes, registers, files
      and directory in pages of its own, or gives every page back (AllocProc,
      ForkSpec); when there is memory enough for it is not stated.  wait()
      stores the status of an exited child and gives back its trapframe, its
      pages and its page table, each page once (FreeWalk, Reclaim, Reap).
    - Streams.  Pipes, the transmit ring of the serial port and the console's
      line buffer are bounded queues, across the wrap-around of counters;
      pipewrite() is followed through every sleep to its end.
    - Locks.  acquire() and release() exclude each other and restore the
      interrupt state.
    - User programs.  malloc() and free() refine an abstract allocator; the
      shell's parser is total and sound and a line of the shell runs the
      programs it names, wired as written; grep matches the language of the
      pattern; find, wc, tail, diff, add, cat, mv and ls print what they
      should within their limits; printf() prints numbers or overruns its
      buffer, and exactly when; init keeps one shell running; grind's
      generator is that of Park and Miller.
    - Dates.  The calendar loops of datetime.c against the closed form of the
      Gregorian calendar.

    ** Fuel and bounds

    Loops that follow data recurse on it.  The others take a number of
    iterations with a proof that it suffices: the loops of vm.c one per page
    of the range, those of fs.c one per block or entry, the walks over the
    buffer list NBUF, the calendar loops one per year or month, the parser of
    the shell four calls per character, the loops of the user programs one
    per byte of input, find() one per character of the longest path, malloc()
    twice the length of the free list.  [e_spin] of the environment bounds
    how often a loop around sleep() may be woken in vain; theorems about such
    loops hold for every value of it, and where a result is promised they
    state the number of wakeups that leads to it.  A routine that exceeds its
    fuel has the outcome [OutOfFuel] (or [None]), which no theorem counts as
    success.

    ** Not modelled

    - Assembly (entry.S, trampoline.S, kernelvec.S, swtch.S, initcode.S) and
      what only sets machine registers (start.c, kvminithart()): register
      moves between the C routines modelled here.  main.c calls the
      initialisation functions, which are modelled, in order.
    - Caches, TLBs and the memory ordering of the hardware; fences are no
      operations here.  Other threads run at the points where a routine
      sleeps; between them the locks it holds, whose mutual exclusion is
      proved in Spinlock.v, keep them off its data.  SleepRace.v does without
      this view for sleep() and wakeup() themselves.
    - The disk itself: bread() and bwrite() of Bio.v transfer a block in one
      step, in the order of the calls.  The driver of Virtio.v is a model of its
      own, over a device whose registers are given and whose reading and
      writing of the rings is a parameter; VirtioSpec.v states what of the
      virtio protocol it relies on.
    - The test programs (usertests.c, grind.c but for its generator, and the
      small ones): they check this system from outside and no other part
      uses them.
    - Theorems are still missing for exec(), exit(), the dispatch of
      system calls, the trap handlers, itrunc(), and the writes of writei()
      and dirlink() that make a file longer: they are defined, as parts of
      the whole, and nothing is proved of them yet. *)

From stdpp Require Export base list list_numbers gmap strings.
From Stdlib Require Export ZArith Lia.

Open Scope Z_scope.

(** ** Machine integers

    A w-bit integer is a [Z]; the wrap-around of C's unsigned arithmetic and
    the conversion to a signed type are written out. *)

Definition u8 (x : Z) : Z := x mod 2 ^ 8.
Definition u16 (x : Z) : Z := x mod 2 ^ 16.
Definition u32 (x : Z) : Z := x mod 2 ^ 32.
Definition u64 (x : Z) : Z := x mod 2 ^ 64.
Definition i32 (x : Z) : Z := (x + 2 ^ 31) mod 2 ^ 32 - 2 ^ 31.
Definition i16 (x : Z) : Z := (x + 2 ^ 15) mod 2 ^ 16 - 2 ^ 15.

(** C truth values. *)
Definition b2z (b : bool) : Z := if b then 1 else 0.

(** ** Tactics *)

(** [lia] after replacing [/] and [mod] by their defining equations. *)
Ltac zdm := Z.div_mod_to_equations; lia.

(** Split the conjunctions and existentials of the context. *)
Ltac deex :=
  repeat match goal with
  | H : ex _ |- _ => let x := fresh "x" in destruct H as [x H]
  | H : _ /\ _ |- _ => destruct H
  end.

(** Case analysis on the boolean comparison that drives an [if] of the goal. *)
Ltac case_bool :=
  match goal with
  | |- context [if ?x =? ?y then _ else _] => destruct (Z.eqb_spec x y)
  | |- context [if ?x <? ?y then _ else _] => destruct (Z.ltb_spec x y)
  | |- context [if ?x <=? ?y then _ else _] => destruct (Z.leb_spec x y)
  | |- context [if bool_decide ?P then _ else _] => case_bool_decide
  | |- context [if decide ?P then _ else _] => destruct (decide P)
  end.

Create HintDb xv6.

(** ** Bounds of the wrapped values *)

Lemma u8_range x : 0 <= u8 x < 2 ^ 8.
Proof. apply Z.mod_pos_bound. lia. Qed.

Lemma u32_range x : 0 <= u32 x < 2 ^ 32.
Proof. apply Z.mod_pos_bound. lia. Qed.

Lemma u64_range x : 0 <= u64 x < 2 ^ 64.
Proof. apply Z.mod_pos_bound. lia. Qed.

Lemma i32_range x : - 2 ^ 31 <= i32 x < 2 ^ 31.
Proof. unfold i32. pose proof (Z.mod_pos_bound (x + 2 ^ 31) (2 ^ 32)). lia. Qed.

Lemma u8_small x : 0 <= x < 2 ^ 8 -> u8 x = x.
Proof. apply Z.mod_small. Qed.

Lemma u32_small x : 0 <= x < 2 ^ 32 -> u32 x = x.
Proof. apply Z.mod_small. Qed.

Lemma u64_small x : 0 <= x < 2 ^ 64 -> u64 x = x.
Proof. apply Z.mod_small. Qed.

Lemma i32_small x : - 2 ^ 31 <= x < 2 ^ 31 -> i32 x = x.
Proof. intros. unfold i32. rewrite Z.mod_small; lia. Qed.

#[export] Hint Resolve u8_range u32_range u64_range i32_range : xv6.

(** ** Little-endian byte strings *)

Fixpoint le_bytes (n : nat) (x : Z) : list Z :=
  match n with
  | O => []
  | S n => x mod 256 :: le_bytes n (x / 256)
  end.

Fixpoint le_val (l : list Z) : Z :=
  match l with
  | [] => 0
  | b :: l => b + 256 * le_val l
  end.

Lemma length_le_bytes n x : length (le_bytes n x) = n.
Proof. revert x; induction n; intros; simpl; auto. Qed.

Lemma le_val_bytes n x : le_val (le_bytes n x) = x mod 256 ^ Z.of_nat n.
Proof.
  revert x; induction n as [|n IH]; intros x; simpl le_bytes; simpl le_val.
  - by rewrite Z.mod_1_r.
  - rewrite IH, Nat2Z.inj_succ, Z.pow_succ_r by lia.
    rewrite Z.rem_mul_r by lia. lia.
Qed.

Lemma le_bytes_val n l :
  length l = n -> Forall (fun b => 0 <= b < 256) l -> le_bytes n (le_val l) = l.
Proof.
  revert l; induction n as [|n IH]; intros [|b l] Hl HF; simplify_eq/=; auto.
  apply Forall_cons in HF as [Hb HF].
  replace ((b + 256 * le_val l) mod 256) with b by zdm.
  replace ((b + 256 * le_val l) / 256) with (le_val l) by zdm.
  by rewrite IH.
Qed.

Lemma le_bytes_range n x : Forall (fun b => 0 <= b < 256) (le_bytes n x).
Proof.
  revert x; induction n; intros; simpl; constructor; auto.
  apply Z.mod_pos_bound; lia.
Qed.

Lemma le_val_range l :
  Forall (fun b => 0 <= b < 256) l -> 0 <= le_val l < 256 ^ Z.of_nat (length l).
Proof.
  induction 1 as [|b l Hb _ IH]; cbn [le_val length].
  - simpl. lia.
  - rewrite Nat2Z.inj_succ, Z.pow_succ_r by lia. lia.
Qed.

Lemma elem_of_rev {A} (x : A) l : x ∈ rev l <-> x ∈ l.
Proof. rewrite !list_elem_of_In. symmetry. apply in_rev. Qed.

(** ** Lists updated in place *)

Lemma list_alter_id_at {A} (f : A -> A) (l : list A) i x :
  l !! i = Some x -> f x = x -> alter f i l = l.
Proof.
  intros Hi Hf. apply list_eq. intros j. destruct (decide (j = i)) as [->|Hne].
  - rewrite list_lookup_alter, Hi. simpl. by rewrite decide_True, Hf.
  - by rewrite list_lookup_alter_ne by done.
Qed.

Lemma list_alter_out {A} (f : A -> A) (l : list A) i : (length l <= i)%nat -> alter f i l = l.
Proof.
  revert i. induction l as [|x l IH]; intros [|i] Hi; simpl in *; try done; [lia|].
  change (x :: alter f i l = x :: l). f_equal. apply IH. lia.
Qed.

Lemma list_alter_twice {A} (f g : A -> A) (l : list A) i :
  alter f i (alter g i l) = alter (fun x => f (g x)) i l.
Proof. revert i. induction l as [|x l IH]; intros [|i]; try done. cbn. by f_equal. Qed.

(** Two updates that agree on the element are equal. *)
Lemma list_alter_ext {A} `{Inhabited A} (f g : A -> A) (l : list A) i :
  f (l !!! i) = g (l !!! i) -> alter f i l = alter g i l.
Proof.
  intros Hfg. destruct (decide (i < length l)%nat) as [Hi|Hi]; [|by rewrite !list_alter_out by lia].
  apply list_eq. intros j. destruct (decide (j = i)) as [->|Hne]; [|by rewrite !list_lookup_alter_ne].
  rewrite !list_lookup_alter, !decide_True by done. rewrite list_lookup_total_alt in Hfg.
  destruct (lookup_lt_is_Some_2 _ _ Hi) as [x Hx]. rewrite Hx in *. cbn in *. by rewrite Hfg.
Qed.

Lemma list_lookup_total_alter_eq {A} `{Inhabited A} (f : A -> A) (l : list A) i :
  (i < length l)%nat -> alter f i l !!! i = f (l !!! i).
Proof.
  intros Hi. destruct (lookup_lt_is_Some_2 _ _ Hi) as [x Hx].
  by rewrite !list_lookup_total_alt, list_lookup_alter, decide_True, Hx by done.
Qed.
