(* ===== verification/KMonad.v ===== *)
(** * The kernel monad

    A kernel routine is a function of the running thread's environment and of
    the state of the component it works on.  It returns a value, panics, runs
    out of fuel, or goes to [sleep]: then the outcome holds the channel and
    the resumption, so that the same definition gives both the sequential
    behaviour of the routine and its behaviour under interleaving.

    The environment carries what spinlock.c and proc.c keep for the running
    thread: which process it is, the spinlocks its CPU holds (so [acquire] of
    a held lock, [release] of a lock not held and [sleep] with another lock
    held panic as in the code) and the wakeups it has issued.  It also bounds
    how many times a [while(cond) sleep(...)] loop of the code may be woken in
    vain: the loops recurse on [e_spin] and run out of fuel beyond it. *)

From S2P Require Import Prelude.

(** ** Names of the sleep channels and of the spinlocks

    A channel is the address of a kernel object in the code; distinct objects
    have distinct addresses, so a channel is modelled by the object's name. *)

Inductive chan : Set :=
| ChProc (i : nat)        (* a struct proc: wait() *)
| ChTicks                 (* &ticks *)
| ChLog                   (* &log *)
| ChBufLock (i : nat)     (* the sleeplock of bcache.buf[i] *)
| ChBufIO (i : nat)       (* bcache.buf[i] itself: disk I/O *)
| ChInodeLock (i : nat)   (* the sleeplock of itable.inode[i] *)
| ChDiskFree              (* &disk.free[0] *)
| ChPipeRead (pi : Z)     (* &pi->nread *)
| ChPipeWrite (pi : Z)    (* &pi->nwrite *)
| ChCons                  (* &cons.r *)
| ChUartTx                (* &uart_tx_r *)
| ChSwtch.                (* no channel: the thread is inside swtch() *)

Inductive lockid : Set :=
| LkKmem | LkPid | LkWait | LkTicks | LkBcache | LkLog | LkItable | LkFtable
| LkCons | LkUartTx | LkVdisk | LkPr
| LkProc (i : nat)
| LkBuf (i : nat)         (* the spinlock inside buf[i].lock *)
| LkInode (i : nat)       (* the spinlock inside inode[i].lock *)
| LkPipe (pi : Z).

#[export] Instance chan_eq_dec : EqDecision chan.
Proof. solve_decision. Defined.

#[export] Instance lockid_eq_dec : EqDecision lockid.
Proof. solve_decision. Defined.

(** ** The environment of the running thread *)

Record env : Set := mkEnv {
  e_me : nat;               (* index of myproc() in proc[] *)
  e_pid : Z;                (* myproc()->pid *)
  e_killed : bool;          (* myproc()->killed *)
  e_held : list lockid;     (* spinlocks held by this CPU, latest first *)
  e_woken : list chan;      (* channels passed to wakeup(), latest first *)
  e_spin : nat              (* wake-ups a loop around sleep() may go through *)
}.

Definition set_held (h : list lockid) (e : env) : env :=
  mkEnv (e_me e) (e_pid e) (e_killed e) h (e_woken e) (e_spin e).

Definition add_woken (w : list chan) (e : env) : env :=
  mkEnv (e_me e) (e_pid e) (e_killed e) (e_held e) (w ++ e_woken e) (e_spin e).

(** ** Outcomes *)

Inductive res (S A : Type) : Type :=
| Ok (a : A) (e : env) (s : S)
| Panic (msg : string)
| OutOfFuel
| Sleep (ch : chan) (e : env) (s : S) (k : env -> S -> res S A).
Arguments Ok {S A} a e s.
Arguments Panic {S A} msg.
Arguments OutOfFuel {S A}.
Arguments Sleep {S A} ch e s k.

Definition K (S A : Type) : Type := env -> S -> res S A.

Definition ret {S A} (a : A) : K S A := fun e s => Ok a e s.

Fixpoint rbind {S A B} (r : res S A) (f : A -> K S B) : res S B :=
  match r with
  | Ok a e s => f a e s
  | Panic msg => Panic msg
  | OutOfFuel => OutOfFuel
  | Sleep ch e s k => Sleep ch e s (fun e' s' => rbind (k e' s') f)
  end.

Definition bind {S A B} (m : K S A) (f : A -> K S B) : K S B :=
  fun e s => rbind (m e s) f.

Definition panic {S A} (msg : string) : K S A := fun _ _ => Panic msg.
Definition out_of_fuel {S A} : K S A := fun _ _ => OutOfFuel.
Definition gets {S A} (f : S -> A) : K S A := fun e s => Ok (f s) e s.
Definition modify {S} (f : S -> S) : K S unit := fun e s => Ok tt e (f s).
Definition asks {S A} (f : env -> A) : K S A := fun e s => Ok (f e) e s.

Declare Scope kmonad_scope.
Delimit Scope kmonad_scope with kmonad.
Notation "x <- m ;; n" := (bind m (fun x => n))
  (at level 100, m at next level, right associativity) : kmonad_scope.
Notation "m ;;; n" := (bind m (fun _ => n))
  (at level 100, right associativity) : kmonad_scope.
Notation "'when' b 'do' m" := (if b then m else ret tt)
  (at level 99, b at level 98, m at level 99) : kmonad_scope.

(** ** Spinlocks, sleep and wakeup as seen by the running thread

    [acquire], [release] and [holding] are the projections of spinlock.c on
    the lock set of the running CPU; the lock word, the CPU's nesting counter
    and the interplay of several CPUs are modelled in Spinlock.v. *)

Definition holding (l : lockid) (e : env) : bool := bool_decide (l ∈ e_held e).

Definition acquire {S} (l : lockid) : K S unit := fun e s =>
  if holding l e then Panic "acquire" else Ok tt (set_held (l :: e_held e) e) s.

Fixpoint remove_lock (l : lockid) (h : list lockid) : list lockid :=
  match h with
  | [] => []
  | x :: h => if decide (x = l) then h else x :: remove_lock l h
  end.

Definition release {S} (l : lockid) : K S unit := fun e s =>
  if holding l e then Ok tt (set_held (remove_lock l (e_held e)) e) s
  else Panic "release".

Definition wakeup {S} (ch : chan) : K S unit := fun e s =>
  Ok tt (add_woken [ch] e) s.

(** sleep(): takes p->lock, gives up [lk], enters the scheduler (which
    requires that p->lock is the only lock held) and, once woken, takes [lk]
    back. *)
Definition sleep {S} (ch : chan) (lk : lockid) : K S unit := fun e s =>
  if holding (LkProc (e_me e)) e then Panic "acquire"
  else if negb (holding lk e) then Panic "release"
  else match remove_lock lk (e_held e) with
       | [] => Sleep ch (set_held [] e) s (acquire lk)
       | _ => Panic "sched locks"
       end.

(** killed(myproc()): p->lock is taken and released around the read. *)
Definition killed_me {S} : K S bool :=
  (i <- asks e_me ;;
   acquire (LkProc i) ;;;
   k <- asks e_killed ;;
   release (LkProc i) ;;;
   ret k)%kmonad.

(** ** Working on a part of a larger state *)

Section zoom.
Context {S T A : Type} (get : S -> T) (put : T -> S -> S).

Fixpoint rzoom (s0 : S) (r : res T A) : res S A :=
  match r with
  | Ok a e t => Ok a e (put t s0)
  | Panic msg => Panic msg
  | OutOfFuel => OutOfFuel
  | Sleep ch e t k => Sleep ch e (put t s0) (fun e' s' => rzoom s' (k e' (get s')))
  end.

Definition zoom (m : K T A) : K S A := fun e s => rzoom s (m e (get s)).
End zoom.

(** ** Total correctness

    [wp m e s Q]: from environment [e] and state [s], the routine returns
    (it neither panics, nor sleeps, nor runs out of fuel) and [Q] holds of
    its result. *)

Definition wp {S A} (m : K S A) (e : env) (s : S)
    (Q : A -> env -> S -> Prop) : Prop :=
  match m e s with
  | Ok a e' s' => Q a e' s'
  | _ => False
  end.

Section wp_rules.
Context {S : Type}.

Lemma wp_ret {A} (a : A) e (s : S) (Q : A -> env -> S -> Prop) :
  Q a e s -> wp (ret a) e s Q.
Proof. done. Qed.

Lemma wp_bind {A B} (m : K S A) (f : A -> K S B) e s Q :
  wp m e s (fun a e' s' => wp (f a) e' s' Q) -> wp (bind m f) e s Q.
Proof. unfold wp, bind. by destruct (m e s). Qed.

Lemma wp_mono {A} (m : K S A) e s (P Q : A -> env -> S -> Prop) :
  wp m e s P -> (forall a e' s', P a e' s' -> Q a e' s') -> wp m e s Q.
Proof. unfold wp. destruct (m e s); naive_solver. Qed.

Lemma wp_gets {A} (f : S -> A) e s Q : Q (f s) e s -> wp (gets f) e s Q.
Proof. done. Qed.

Lemma wp_asks {A} (f : env -> A) e (s : S) Q : Q (f e) e s -> wp (asks f) e s Q.
Proof. done. Qed.

Lemma wp_modify (f : S -> S) e s Q : Q tt e (f s) -> wp (modify f) e s Q.
Proof. done. Qed.

Lemma wp_acquire l e (s : S) Q :
  l ∉ e_held e -> Q tt (set_held (l :: e_held e) e) s -> wp (acquire l) e s Q.
Proof. intros Hl HQ. unfold wp, acquire, holding. by rewrite bool_decide_false. Qed.

Lemma wp_release l e (s : S) Q :
  l ∈ e_held e -> Q tt (set_held (remove_lock l (e_held e)) e) s ->
  wp (release l) e s Q.
Proof. intros Hl HQ. unfold wp, release, holding. by rewrite bool_decide_true. Qed.

Lemma wp_wakeup ch e (s : S) Q :
  Q tt (add_woken [ch] e) s -> wp (wakeup ch) e s Q.
Proof. done. Qed.

(** A proved outcome is a [wp]. *)
Lemma wp_eq {A} (m : K S A) e s a e' s' (Q : A -> env -> S -> Prop) :
  m e s = Ok a e' s' -> Q a e' s' -> wp m e s Q.
Proof. unfold wp. by intros ->. Qed.

Lemma wp_inv {A} (m : K S A) e s (Q : A -> env -> S -> Prop) :
  wp m e s Q -> exists a e' s', m e s = Ok a e' s' /\ Q a e' s'.
Proof. unfold wp. destruct (m e s); naive_solver. Qed.
End wp_rules.

Lemma wp_zoom {S T A} (get : S -> T) (put : T -> S -> S) (m : K T A) e s Q :
  wp m e (get s) (fun a e' t => Q a e' (put t s)) -> wp (zoom get put m) e s Q.
Proof. unfold wp, zoom. by destruct (m e (get s)). Qed.

(** ** Invariants under interleaving

    [rall P r]: [P] holds in every state the outcome [r] exposes to other
    threads, that is where it returns and where it sleeps; and it keeps holding
    when the routine resumes from any state in which [P] holds. *)
Fixpoint rall {S A} (P : S -> Prop) (r : res S A) : Prop :=
  match r with
  | Ok _ _ s => P s
  | Panic _ => True
  | OutOfFuel => True
  | Sleep _ _ s k => P s /\ forall e' s', P s' -> rall P (k e' s')
  end.

(** [keeps P m]: whatever the environment, [m] started in [P] exposes only
    states in [P]. *)
Definition keeps {S A} (P : S -> Prop) (m : K S A) : Prop :=
  forall e s, P s -> rall P (m e s).

Section keeps.
Context {S : Type} (P : S -> Prop).

Lemma rall_bind {A B} (r : res S A) (f : A -> K S B) :
  rall P r -> (forall a, keeps P (f a)) -> rall P (rbind r f).
Proof.
  intros Hr Hf. induction r as [a e s| | |ch e s k IH]; cbn [rbind rall] in *; auto.
  - by apply Hf.
  - destruct Hr as [HP Hk]. split; auto.
Qed.

Lemma keeps_bind {A B} (m : K S A) (f : A -> K S B) :
  keeps P m -> (forall a, keeps P (f a)) -> keeps P (bind m f).
Proof. intros Hm Hf e s HP. apply rall_bind; auto. Qed.

Lemma keeps_ret {A} (a : A) : keeps P (ret a).
Proof. by intros e s HP. Qed.

Lemma keeps_panic {A} msg : keeps P (@panic S A msg).
Proof. by intros e s HP. Qed.

Lemma keeps_fuel {A} : keeps P (@out_of_fuel S A).
Proof. by intros e s HP. Qed.

Lemma keeps_gets {A} (f : S -> A) : keeps P (gets f).
Proof. by intros e s HP. Qed.

Lemma keeps_asks {A} (f : env -> A) : keeps P (@asks S A f).
Proof. by intros e s HP. Qed.

Lemma keeps_modify f : (forall s, P s -> P (f s)) -> keeps P (modify f).
Proof. intros Hf e s HP. by apply Hf. Qed.

Lemma keeps_acquire l : keeps P (acquire l).
Proof. intros e s HP. unfold acquire. by destruct (holding l e). Qed.

Lemma keeps_release l : keeps P (release l).
Proof. intros e s HP. unfold release. by destruct (holding l e). Qed.

Lemma keeps_wakeup ch : keeps P (wakeup ch).
Proof. by intros e s HP. Qed.

Lemma keeps_sleep ch l : keeps P (sleep ch l).
Proof.
  intros e s HP. unfold sleep. destruct (holding _ e); [done|]. destruct (negb _); [done|].
  destruct (remove_lock l (e_held e)); [|done]. split; [done|]. apply keeps_acquire.
Qed.

Lemma keeps_when (b : bool) m : keeps P m -> keeps P (if b then m else ret tt).
Proof. intros Hm. destruct b; [done|apply keeps_ret]. Qed.
End keeps.

Lemma keeps_zoom {S T A} (get : S -> T) (put : T -> S -> S) (P : S -> Prop) (Q : T -> Prop)
    (m : K T A) :
  (forall s, P s -> Q (get s)) -> (forall s t, P s -> Q t -> P (put t s)) ->
  keeps Q m -> keeps P (zoom get put m).
Proof.
  intros Hg Hp Hm e s HP. unfold zoom. specialize (Hm e (get s) (Hg s HP)).
  enough (H : forall r s0, P s0 -> rall Q r -> rall P (rzoom get put s0 r)) by by apply H.
  clear - Hg Hp. intros r. induction r as [a e t| | |ch e t k IH]; intros s0 HP; cbn [rall rzoom]; auto.
  intros [HQ Hk]. split; [by apply Hp|]. intros e' s' HP'. apply IH; auto.
Qed.

Create HintDb keeps.
#[export] Hint Resolve keeps_bind keeps_ret keeps_panic keeps_fuel keeps_gets keeps_asks
  keeps_acquire keeps_release keeps_wakeup keeps_sleep : keeps.

(** The lock set is restored by a balanced pair. *)
Lemma set_held_id e : set_held (e_held e) e = e.
Proof. by destruct e. Qed.

Lemma set_held_set h1 h2 e : set_held h1 (set_held h2 e) = set_held h1 e.
Proof. done. Qed.

Lemma remove_lock_head l h : remove_lock l (l :: h) = h.
Proof. simpl. by rewrite decide_True. Qed.

Lemma set_held_balanced l e : set_held (remove_lock l (l :: e_held e)) (set_held (l :: e_held e) e) = e.
Proof. rewrite remove_lock_head, set_held_set. apply set_held_id. Qed.

(** ** Running a routine by rewriting *)

Lemma bind_eq {S A B} (m : K S A) (f : A -> K S B) e s :
  bind m f e s = rbind (m e s) f.
Proof. done. Qed.

(** A routine that returns went through its first half. *)
Lemma bind_ok {S A B} (m : K S A) (f : A -> K S B) e s b e2 s2 :
  bind m f e s = Ok b e2 s2 -> exists a e1 s1, m e s = Ok a e1 s1 /\ f a e1 s1 = Ok b e2 s2.
Proof. rewrite bind_eq. destruct (m e s); try done. eauto. Qed.

Lemma acquire_eq {S} l e (s : S) :
  l ∉ e_held e -> acquire l e s = Ok tt (set_held (l :: e_held e) e) s.
Proof. intros. unfold acquire, holding. by rewrite bool_decide_false. Qed.

Lemma release_eq {S} l e (s : S) :
  release l (set_held (l :: e_held e) e) s = Ok tt e s.
Proof.
  unfold release, holding. simpl. rewrite bool_decide_true by set_solver.
  rewrite decide_True by done. by rewrite set_held_set, set_held_id.
Qed.

(** A thread that holds just the condition lock goes to sleep. *)
Lemma sleep_eq {S} ch l e (s : S) :
  e_held e = [] -> l <> LkProc (e_me e) ->
  sleep ch l (set_held [l] e) s = Sleep ch e s (acquire l).
Proof.
  intros Hh Hl. unfold sleep, holding. cbn [set_held e_me e_held].
  rewrite bool_decide_false by (rewrite list_elem_of_singleton; congruence).
  rewrite bool_decide_true by (by apply list_elem_of_singleton). cbn [negb].
  rewrite remove_lock_head, set_held_set, <- Hh. by rewrite set_held_id.
Qed.

Lemma when_true {S} (m : K S unit) : (if true then m else ret tt) = m.
Proof. done. Qed.

(** Unfold the monad's own combinators, run balanced lock pairs. *)
Ltac kred := cbn [rbind ret gets modify asks wakeup panic out_of_fuel].
Ltac krun :=
  kred; repeat (first
    [ rewrite bind_eq
    | rewrite acquire_eq by (first [done | set_solver])
    | rewrite release_eq ]; kred).

(** One symbolic-execution step on a [wp] goal. *)
Ltac kstep :=
  first
    [ apply wp_ret
    | apply wp_bind
    | apply wp_gets
    | apply wp_asks
    | apply wp_modify
    | apply wp_wakeup
    | apply wp_acquire; [try done | cbn beta]
    | apply wp_release; [simpl; try set_solver | cbn [set_held e_held e_me e_pid e_killed e_woken]; rewrite ?set_held_balanced] ].
Ltac ksteps := repeat (kstep; cbn beta).
