(* ===== verification/Hoare.v ===== *)
(** * Partial-correctness triples for interleaved routines

    [hoare me I P m Q]: run by process [me] from a state in [P], the routine
    [m] exposes only states in [I] where it sleeps, may assume [I] (and
    nothing else) when it resumes, and returns a value and a state in [Q].
    The locks a routine holds are not constrained: what a held lock protects is
    expressed by what [I] says of other processes' steps.

    [nosleep m]: [m] never sleeps, so it can run with a spinlock held. *)

From S2P Require Import Prelude KMonad.
Open Scope kmonad_scope.

Fixpoint rpost {S A} (me : nat) (I : S -> Prop) (Q : A -> S -> Prop) (r : res S A) : Prop :=
  match r with
  | Ok a e s => e_me e = me /\ Q a s
  | Panic _ => True
  | OutOfFuel => True
  | Sleep _ e s k =>
      e_me e = me /\ I s /\ forall e' s', e_me e' = me -> I s' -> rpost me I Q (k e' s')
  end.

Definition hoare {S A} (me : nat) (I P : S -> Prop) (m : K S A) (Q : A -> S -> Prop) : Prop :=
  forall e s, e_me e = me -> P s -> rpost me I Q (m e s).

Definition nosleep {S A} (m : K S A) : Prop :=
  forall me, hoare me (fun _ => False) (fun _ => True) m (fun _ _ => True).

Section rules.
Context {S : Type} (me : nat) (I : S -> Prop).

Lemma rpost_bind {A B} (R : A -> S -> Prop) (r : res S A) (f : A -> K S B) Q :
  rpost me I R r -> (forall a, hoare me I (R a) (f a) Q) -> rpost me I Q (rbind r f).
Proof.
  intros Hr Hf. induction r as [a e s| | |ch e s k IH]; cbn [rbind rpost] in *; auto.
  - destruct Hr as [He HR]. by apply Hf.
  - destruct Hr as (He & HI & Hk). split; [done|]. split; [done|]. auto.
Qed.

Lemma hoare_bind {A B} (R : A -> S -> Prop) P (m : K S A) (f : A -> K S B) Q :
  hoare me I P m R -> (forall a, hoare me I (R a) (f a) Q) -> hoare me I P (bind m f) Q.
Proof. intros Hm Hf e s He HP. eapply rpost_bind; [by apply Hm|done]. Qed.

Lemma rpost_mono {A} (Q Q' : A -> S -> Prop) r :
  rpost me I Q r -> (forall a s, Q a s -> Q' a s) -> rpost me I Q' r.
Proof. intros Hr HQ. induction r; cbn [rpost] in *; naive_solver. Qed.

Lemma hoare_post {A} P (m : K S A) (Q Q' : A -> S -> Prop) :
  hoare me I P m Q -> (forall a s, Q a s -> Q' a s) -> hoare me I P m Q'.
Proof. intros Hm HQ e s He HP. eapply rpost_mono; [by apply Hm|done]. Qed.

Lemma hoare_pre {A} (P P' : S -> Prop) (m : K S A) Q :
  hoare me I P m Q -> (forall s, P' s -> P s) -> hoare me I P' m Q.
Proof. intros Hm HP e s He HP'. apply Hm; auto. Qed.

(** A routine that does not sleep keeps what does not depend on its effect. *)
Lemma hoare_ret {A} P (a : A) : hoare me I P (ret a) (fun x s => x = a /\ P s).
Proof. by intros e s He HP. Qed.

Lemma hoare_panic {A} P msg (Q : A -> S -> Prop) : hoare me I P (panic msg) Q.
Proof. by intros e s He HP. Qed.

Lemma hoare_fuel {A} P (Q : A -> S -> Prop) : hoare me I P out_of_fuel Q.
Proof. by intros e s He HP. Qed.

Lemma hoare_gets {A} P (f : S -> A) : hoare me I P (gets f) (fun a s => a = f s /\ P s).
Proof. by intros e s He HP. Qed.

Lemma hoare_asks {A} P (f : env -> A) : hoare me I P (asks f) (fun _ s => P s).
Proof. by intros e s He HP. Qed.

Lemma hoare_asks_me P : hoare me I P (asks e_me) (fun i s => i = me /\ P s).
Proof. by intros e s He HP. Qed.

Lemma hoare_modify P f (Q : S -> Prop) :
  (forall s, P s -> Q (f s)) -> hoare me I P (modify f) (fun _ s => Q s).
Proof. intros Hf e s He HP. split; [done|]. by apply Hf. Qed.

Lemma hoare_acquire P l : hoare me I P (acquire l) (fun _ s => P s).
Proof. intros e s He HP. unfold acquire. by destruct (holding l e). Qed.

Lemma hoare_release P l : hoare me I P (release l) (fun _ s => P s).
Proof. intros e s He HP. unfold release. by destruct (holding l e). Qed.

Lemma hoare_wakeup P ch : hoare me I P (wakeup ch) (fun _ s => P s).
Proof. by intros e s He HP. Qed.

Lemma hoare_sleep ch l : hoare me I I (sleep ch l) (fun _ s => I s).
Proof.
  intros e s He HI. unfold sleep. destruct (holding _ e); [done|]. destruct (negb _); [done|].
  destruct (remove_lock l (e_held e)); [|done]. cbn [rpost]. split; [done|]. split; [done|].
  intros e' s' He' HI'. by apply hoare_acquire.
Qed.

End rules.

(** ** Routines that do not sleep *)

Section nosleep.
Context {S : Type}.

Lemma nosleep_bind {A B} (m : K S A) (f : A -> K S B) :
  nosleep m -> (forall a, nosleep (f a)) -> nosleep (bind m f).
Proof. intros Hm Hf me. eapply hoare_bind; [apply Hm|]. intros a. apply Hf. Qed.

Lemma nosleep_ret {A} (a : A) : nosleep (@ret S A a).
Proof. by intros me e s He _. Qed.

Lemma nosleep_panic {A} msg : nosleep (@panic S A msg).
Proof. by intros me e s He _. Qed.

Lemma nosleep_fuel {A} : nosleep (@out_of_fuel S A).
Proof. by intros me e s He _. Qed.

Lemma nosleep_gets {A} (f : S -> A) : nosleep (gets f).
Proof. by intros me e s He _. Qed.

Lemma nosleep_asks {A} (f : env -> A) : nosleep (@asks S A f).
Proof. by intros me e s He _. Qed.

Lemma nosleep_modify f : nosleep (@modify S f).
Proof. by intros me e s He _. Qed.

Lemma nosleep_acquire l : nosleep (@acquire S l).
Proof. intros me e s He _. unfold acquire. by destruct (holding l e). Qed.

Lemma nosleep_release l : nosleep (@release S l).
Proof. intros me e s He _. unfold release. by destruct (holding l e). Qed.

Lemma nosleep_if {A} (b : bool) (m n : K S A) : nosleep m -> nosleep n -> nosleep (if b then m else n).
Proof. by destruct b. Qed.
End nosleep.

Create HintDb nosleep.
#[export] Hint Resolve nosleep_bind nosleep_ret nosleep_panic nosleep_fuel nosleep_gets
  nosleep_asks nosleep_modify nosleep_acquire nosleep_release nosleep_if : nosleep.

(** A routine on a part of the state that does not sleep keeps what does not
    depend on that part. *)
Lemma hoare_zoom_nosleep {S T A} me (I P : S -> Prop) (get : S -> T) (put : T -> S -> S) (m : K T A) :
  nosleep m -> (forall s t, P s -> P (put t s)) ->
  hoare me I P (zoom get put m) (fun _ s => P s).
Proof.
  intros Hm HP e s He Hs. unfold zoom. specialize (Hm me e (get s) He (@Logic.I)).
  destruct (m e (get s)) as [a e1 t| | |ch e1 t k]; cbn [rzoom rpost] in *; auto.
  - destruct Hm as [He1 _]. auto.
  - by destruct Hm as (_ & [] & _).
Qed.

(** What is exposed while sleeping is irrelevant to a routine that does not sleep. *)
Lemma hoare_nosleep {S A} me (I I' P : S -> Prop) (m : K S A) Q :
  nosleep m -> hoare me I P m Q -> hoare me I' P m Q.
Proof.
  intros Hn Hm e s He HP. specialize (Hm e s He HP). specialize (Hn me e s He Logic.I).
  destruct (m e s); cbn [rpost] in *; auto. by destruct Hn as (_ & [] & _).
Qed.

Lemma hoare_of_nosleep {S A} me (I P : S -> Prop) (m : K S A) :
  nosleep m -> hoare me I P m (fun _ _ => True).
Proof.
  intros Hm. eapply hoare_nosleep; [done|]. eapply hoare_pre; [apply Hm|done].
Qed.

Lemma nosleep_zoom {S T A} (get : S -> T) (put : T -> S -> S) (m : K T A) :
  nosleep m -> nosleep (zoom get put m).
Proof. intros Hm me. by apply hoare_zoom_nosleep. Qed.
#[export] Hint Resolve nosleep_zoom : nosleep.

(** One step of a nosleep proof: follow the structure of the routine. *)
Ltac nosleep_step :=
  first
    [ solve [auto with nosleep]
    | lazymatch goal with
      | |- nosleep (bind _ _) => apply nosleep_bind; [|intros ?]
      | |- nosleep (match _ with _ => _ end) => case_match
      | |- nosleep (let _ := _ in _) => cbv zeta
      end ].
Ltac nosleep_auto := repeat nosleep_step.
