(* ===== verification/Spinlock.v ===== *)
(** * kernel/spinlock.c: spinlocks under several CPUs and interrupts

    The other files see a spinlock from the thread that runs (KMonad.v:
    acquire, release, holding).  Here are the CPUs themselves.  Each CPU has
    its interrupt-enable bit and the two fields of struct cpu that push_off()
    and pop_off() use, and executes spinlock.c one shared-memory access or
    one control-register access at a time, in any interleaving with the
    other CPUs.  A device interrupt may arrive at every instruction at which
    interrupts are enabled; its handler is a further frame on the CPU's
    stack and may itself call acquire() and release().  Memory is
    sequentially consistent, which is what the fences of the source ask for.

    A switch between processes keeps the CPU, so ownership is per CPU as in
    the code (struct spinlock's [cpu]). *)

From stdpp Require Import functions.
From S2P Require Import Prelude.

Open Scope Z_scope.

(** struct spinlock; the name is not used by the code. *)
Record spinlock : Set := mkSpinlock { locked : Z; owner : option nat }.

Definition initlock : spinlock := mkSpinlock 0 None.

(** The next instruction of a frame.  [k] is the lock that acquire() is
    after, if push_off() was called by acquire(). *)
Inductive pc : Set :=
| Client                              (* code outside spinlock.c *)
| PushGet (k : option nat)            (* push_off: old = intr_get() *)
| PushOff (k : option nat) (old : bool)   (* push_off: intr_off() *)
| PushCount (k : option nat) (old : bool) (* push_off: noff, intena *)
| AcqLocked (l : nat)                 (* acquire: holding() reads locked *)
| AcqCpu (l : nat)                    (* acquire: holding() reads cpu *)
| AcqSwap (l : nat)                   (* acquire: amoswap *)
| AcqSetCpu (l : nat)                 (* acquire: lk->cpu = mycpu() *)
| RelLocked (l : nat)                 (* release: holding() reads locked *)
| RelCpu (l : nat)                    (* release: holding() reads cpu *)
| RelClear (l : nat)                  (* release: lk->cpu = 0 *)
| RelUnlock (l : nat)                 (* release: amoswap *)
| PopOff                              (* pop_off *)
| Panicked (msg : string).

(** A frame: kernel code or an interrupt handler.  The last two fields are
    not in the code; they record the locks the frame has acquired and not yet
    given back, and its push_off() calls not yet undone. *)
Record frame : Set := mkFrame { f_pc : pc; f_held : gset nat; f_pushes : nat }.

(** struct cpu and the hardware's SIE bit, with the frame that runs and the
    interrupted ones. *)
Record cpu : Set := mkCpu {
  noff : Z; intena : bool; sie : bool; top : frame; below : list frame
}.

Record machine : Set := mkMachine { locks : nat -> spinlock; cpus : nat -> cpu }.

Definition goto (p : pc) (f : frame) : frame := mkFrame p (f_held f) (f_pushes f).
Definition with_top (g : frame -> frame) (c : cpu) : cpu :=
  mkCpu (noff c) (intena c) (sie c) (g (top c)) (below c).
Definition with_sie (b : bool) (c : cpu) : cpu :=
  mkCpu (noff c) (intena c) b (top c) (below c).
Definition at_pc (p : pc) (c : cpu) : cpu := with_top (goto p) c.

(** ** push_off() and pop_off(): instructions on the CPU's own state *)

Definition push_off_step (c : cpu) : option cpu :=
  match f_pc (top c) with
  | PushGet k => Some (at_pc (PushOff k (sie c)) c)
  | PushOff k old => Some (at_pc (PushCount k old) (with_sie false c))
  | PushCount k old =>
      let intena' := if noff c =? 0 then old else intena c in
      let f := top c in
      Some (mkCpu (noff c + 1) intena' (sie c)
              match k with
              | Some l => goto (AcqLocked l) f
              | None => mkFrame Client (f_held f) (S (f_pushes f))
              end (below c))
  | _ => None
  end.

(** pop_off() runs with interrupts off, or panics. *)
Definition pop_off (c : cpu) : cpu :=
  if sie c then at_pc (Panicked "pop_off - interruptible") c
  else if noff c <? 1 then at_pc (Panicked "pop_off") c
  else
    let noff' := noff c - 1 in
    mkCpu noff' (intena c) ((noff' =? 0) && intena c) (goto Client (top c)) (below c).

(** ** acquire() and release(): instructions on the lock

    One access to the lock's memory per step; [me] is mycpu(). *)

Definition acquire_step (me : nat) (lks : nat -> spinlock) (f : frame) : option ((nat -> spinlock) * frame) :=
  match f_pc f with
  | AcqLocked l =>
      if locked (lks l) =? 0 then Some (lks, goto (AcqSwap l) f)
      else Some (lks, goto (AcqCpu l) f)
  | AcqCpu l =>
      if bool_decide (owner (lks l) = Some me) then Some (lks, goto (Panicked "acquire") f)
      else Some (lks, goto (AcqSwap l) f)
  | AcqSwap l =>
      let old := locked (lks l) in
      let lks' := <[l := mkSpinlock 1 (owner (lks l))]> lks in
      if old =? 0 then Some (lks', goto (AcqSetCpu l) f) else Some (lks', f)
  | AcqSetCpu l =>
      Some (<[l := mkSpinlock (locked (lks l)) (Some me)]> lks,
            mkFrame Client ({[l]} ∪ f_held f) (f_pushes f))
  | _ => None
  end.

Definition release_step (me : nat) (lks : nat -> spinlock) (f : frame) : option ((nat -> spinlock) * frame) :=
  match f_pc f with
  | RelLocked l =>
      if locked (lks l) =? 0 then Some (lks, goto (Panicked "release") f)
      else Some (lks, goto (RelCpu l) f)
  | RelCpu l =>
      if bool_decide (owner (lks l) = Some me) then Some (lks, goto (RelClear l) f)
      else Some (lks, goto (Panicked "release") f)
  | RelClear l =>
      Some (<[l := mkSpinlock (locked (lks l)) None]> lks, goto (RelUnlock l) f)
  | RelUnlock l =>
      Some (<[l := mkSpinlock 0 (owner (lks l))]> lks, mkFrame PopOff (f_held f ∖ {[l]}) (f_pushes f))
  | _ => None
  end.

(** ** The machine *)

(** What code outside spinlock.c may do: call the routines (acquire() and
    release() with any lock, pop_off() to undo a push_off() of its own), turn
    interrupts off, and turn them on outside any push_off(). *)
Inductive call : Set :=
| CAcquire (l : nat) | CRelease (l : nat) | CPush | CPop | CIntrOn | CIntrOff.

Definition client_step (a : call) (c : cpu) : option cpu :=
  match f_pc (top c), a with
  | Client, CAcquire l => Some (at_pc (PushGet (Some l)) c)
  | Client, CRelease l => Some (at_pc (RelLocked l) c)
  | Client, CPush => Some (at_pc (PushGet None) c)
  | Client, CPop =>
      match f_pushes (top c) with
      | S n => Some (with_top (fun f => mkFrame PopOff (f_held f) n) c)
      | O => None
      end
  | Client, CIntrOn => if noff c =? 0 then Some (with_sie true c) else None
  | Client, CIntrOff => Some (with_sie false c)
  | _, _ => None
  end.

(** An interrupt is taken when enabled: the hardware clears SIE and the
    handler starts; sret resumes the interrupted frame with SIE set again. *)
Definition interrupt (c : cpu) : option cpu :=
  if sie c then Some (mkCpu (noff c) (intena c) false (mkFrame Client ∅ 0) (top c :: below c))
  else None.

Definition sret (c : cpu) : option cpu :=
  match f_pc (top c), below c with
  | Client, f :: fs =>
      if bool_decide (f_held (top c) = ∅) && (f_pushes (top c) =? 0)%nat
      then Some (mkCpu (noff c) (intena c) true f fs) else None
  | _, _ => None
  end.

Definition on_cpu (i : nat) (c : cpu) (m : machine) : machine :=
  mkMachine (locks m) (<[i := c]> (cpus m)).

Inductive step (m : machine) : machine -> Prop :=
| step_push i c : push_off_step (cpus m i) = Some c -> step m (on_cpu i c m)
| step_pop i : f_pc (top (cpus m i)) = PopOff -> step m (on_cpu i (pop_off (cpus m i)) m)
| step_acquire i lks f :
    acquire_step i (locks m) (top (cpus m i)) = Some (lks, f) ->
    step m (on_cpu i (with_top (fun _ => f) (cpus m i)) (mkMachine lks (cpus m)))
| step_release i lks f :
    release_step i (locks m) (top (cpus m i)) = Some (lks, f) ->
    step m (on_cpu i (with_top (fun _ => f) (cpus m i)) (mkMachine lks (cpus m)))
| step_client i a c : client_step a (cpus m i) = Some c -> step m (on_cpu i c m)
| step_interrupt i c : interrupt (cpus m i) = Some c -> step m (on_cpu i c m)
| step_sret i c : sret (cpus m i) = Some c -> step m (on_cpu i c m).

(** At boot: all locks initialised, every CPU in start code, interrupts off. *)
Definition boot : machine :=
  mkMachine (fun _ => initlock) (fun _ => mkCpu 0 false false (mkFrame Client ∅ 0) []).

Inductive reachable : machine -> Prop :=
| reach_boot : reachable boot
| reach_step m m' : reachable m -> step m m' -> reachable m'.

(** The machine is executable: a schedule names the CPU of each step and, where
    its frame is outside spinlock.c, what that frame does; [None] is the
    frame's next instruction. *)
Definition instr (i : nat) (m : machine) : option machine :=
  let c := cpus m i in
  match push_off_step c, acquire_step i (locks m) (top c), release_step i (locks m) (top c) with
  | Some c', _, _ => Some (on_cpu i c' m)
  | _, Some (lks, f), _ | _, _, Some (lks, f) =>
      Some (on_cpu i (with_top (fun _ => f) c) (mkMachine lks (cpus m)))
  | _, _, _ => match f_pc (top c) with PopOff => Some (on_cpu i (pop_off c) m) | _ => None end
  end.

Fixpoint run (sched : list (nat * option call)) (m : machine) : option machine :=
  match sched with
  | [] => Some m
  | (i, Some a) :: sched => c ← client_step a (cpus m i); run sched (on_cpu i c m)
  | (i, None) :: sched => m' ← instr i m; run sched m'
  end.

(** One CPU calling push_off() ([true]) and pop_off() ([false]) in turn. *)
Definition push_off (c : cpu) : option cpu :=
  c ← client_step CPush c; c ← push_off_step c; c ← push_off_step c; push_off_step c.

Fixpoint push_pop (w : list bool) (c : cpu) : option cpu :=
  match w with
  | [] => Some c
  | true :: w => c ← push_off c; push_pop w c
  | false :: w => c ← client_step CPop c; push_pop w (pop_off c)
  end.

Inductive balanced : list bool -> Prop :=
| bal_nil : balanced []
| bal_nest w : balanced w -> balanced (true :: w ++ [false])
| bal_app w w' : balanced w -> balanced w' -> balanced (w ++ w').

(** The value of holding(lk) for CPU [i]. *)
Definition holding (i l : nat) (m : machine) : bool :=
  negb (locked (locks m l) =? 0) && bool_decide (owner (locks m l) = Some i).

(** ** Invariant *)

(** The frame is past its amoswap on [l] and before the one that gives [l] back. *)
Definition possesses (f : frame) (l : nat) : Prop := l ∈ f_held f \/ f_pc f = AcqSetCpu l.

(** The frame is between lk->cpu = mycpu() and lk->cpu = 0. *)
Definition owns (f : frame) (l : nat) : Prop := l ∈ f_held f /\ f_pc f <> RelUnlock l.

(** Instructions executed with interrupts off, the calls of push_off() not in
    the frame's ghost fields, and the facts each instruction relies on. *)
Definition pc_off (p : pc) : bool :=
  match p with
  | PushCount _ _ | AcqLocked _ | AcqCpu _ | AcqSwap _ | AcqSetCpu _ | PopOff => true
  | _ => false
  end.

Definition pc_depth (p : pc) : nat :=
  match p with AcqLocked _ | AcqCpu _ | AcqSwap _ | AcqSetCpu _ | PopOff => 1 | _ => 0 end.

Definition pc_ok (f : frame) : Prop :=
  match f_pc f with
  | AcqSetCpu l => l ∉ f_held f
  | RelClear l | RelUnlock l => l ∈ f_held f
  | Panicked msg => msg = "acquire"%string \/ msg = "release"%string
  | _ => True
  end.

Definition depth (f : frame) : Z := Z.of_nat (size (f_held f) + f_pushes f + pc_depth (f_pc f)).

(** A frame that can be interrupted. *)
Definition quiet (f : frame) : Prop := depth f = 0 /\ pc_off (f_pc f) = false /\ pc_ok f.

Record cpu_ok (c : cpu) : Prop := {
  ok_noff : depth (top c) <= noff c;
  ok_exact : (forall msg, f_pc (top c) <> Panicked msg) -> noff c = depth (top c);
  ok_sie : sie c = true -> noff c = 0 /\ pc_off (f_pc (top c)) = false;
  ok_pc : pc_ok (top c);
  ok_below : Forall quiet (below c)
}.

Record lock_ok (m : machine) (l : nat) : Prop := {
  ok_locked : locked (locks m l) <> 0 -> exists i, possesses (top (cpus m i)) l;
  ok_taken : forall i, possesses (top (cpus m i)) l -> locked (locks m l) = 1;
  ok_unique : forall i j, possesses (top (cpus m i)) l -> possesses (top (cpus m j)) l -> i = j;
  ok_owner : forall i, owner (locks m l) = Some i <-> owns (top (cpus m i)) l
}.

Definition machine_ok (m : machine) : Prop :=
  (forall i, cpu_ok (cpus m i)) /\ (forall l, lock_ok m l).

(** ** Preservation *)

Lemma cpu_at m i c : cpus (on_cpu i c m) i = c.
Proof. apply fn_lookup_insert. Qed.

Lemma cpu_other m i j c : i <> j -> cpus (on_cpu i c m) j = cpus m j.
Proof. apply fn_lookup_insert_ne. Qed.

(** A property of all CPUs after a step of CPU [i]. *)
Lemma all_cpus (P : nat -> cpu -> Prop) m i c :
  P i c -> (forall j, P j (cpus m j)) -> forall j, P j (cpus (on_cpu i c m) j).
Proof.
  intros Hi Ho j. destruct (decide (i = j)) as [<-|Hne]; [by rewrite cpu_at|by rewrite cpu_other].
Qed.

(** A lock the step does not change, and to which the frame's relation stays. *)
Lemma lock_frame m lks i c l :
  lks l = locks m l ->
  (possesses (top c) l <-> possesses (top (cpus m i)) l) ->
  (owns (top c) l <-> owns (top (cpus m i)) l) ->
  lock_ok m l -> lock_ok (on_cpu i c (mkMachine lks (cpus m))) l.
Proof.
  intros Hlk Hp Ho [H1 H2 H3 H4]. set (m' := on_cpu i c (mkMachine lks (cpus m))).
  assert (Hpos : forall j, possesses (top (cpus m' j)) l <-> possesses (top (cpus m j)) l).
  { intros j. unfold m'. destruct (decide (i = j)) as [<-|Hne]; [by rewrite cpu_at|by rewrite cpu_other]. }
  split; unfold m' at 1; cbn [on_cpu locks]; rewrite ?Hlk.
  - intros H. destruct (H1 H) as [j Hj]. exists j. by apply Hpos.
  - intros j Hj. cbn. rewrite Hlk. by apply (H2 j), Hpos.
  - intros j k Hj Hk. apply H3; by apply Hpos.
  - intros j. cbn. rewrite ?Hlk, H4.
    destruct (decide (i = j)) as [<-|Hne]; [by rewrite fn_lookup_insert|by rewrite fn_lookup_insert_ne].
Qed.

Lemma local_ok m i c :
  machine_ok m -> cpu_ok c ->
  (forall l, possesses (top c) l <-> possesses (top (cpus m i)) l) ->
  (forall l, owns (top c) l <-> owns (top (cpus m i)) l) ->
  machine_ok (on_cpu i c m).
Proof.
  intros [Hc Hl] Hok Hp Ho. split; [by apply (all_cpus (fun _ => cpu_ok))|].
  intros l. by apply (lock_frame m (locks m)).
Qed.

(** Open a CPU's state and the invariant, then decide by cases. *)
Ltac cpu_auto :=
  unfold depth, pc_ok, quiet, possesses, owns, at_pc, with_top, with_sie, goto in *; cbn in *;
  try lia; naive_solver (try lia; try discriminate).

Ltac cpu_open m i :=
  let E := fresh "E" in let n := fresh "n" in let en := fresh "en" in let si := fresh "si" in
  let p := fresh "p" in let h := fresh "h" in let u := fresh "u" in let bl := fresh "bl" in
  destruct (cpus m i) as [n en si [p h u] bl] eqn:E.

Lemma push_off_ok m i c :
  push_off_step (cpus m i) = Some c -> machine_ok m -> machine_ok (on_cpu i c m).
Proof.
  intros Hs Hm. destruct (proj1 Hm i) as [H1 H2 H3 H4 H5].
  destruct (cpus m i) as [n en si [p h u] bl] eqn:E.
  unfold push_off_step in Hs. cbn in Hs.
  destruct p as [|k|k old|k old| | | | | | | | | |]; try done; [| |destruct k]; injection Hs as <-;
    (apply local_ok; rewrite ?E; [done|split|..]); cpu_auto.
Qed.

Lemma pop_off_ok m i :
  f_pc (top (cpus m i)) = PopOff -> machine_ok m -> machine_ok (on_cpu i (pop_off (cpus m i)) m).
Proof.
  intros Hs Hm. destruct (proj1 Hm i) as [H1 H2 H3 H4 H5].
  destruct (cpus m i) as [n en si [p h u] bl] eqn:E. cbn in Hs. subst p.
  assert (si = false) as -> by (destruct si; [destruct (H3 eq_refl); done|done]).
  specialize (H2 ltac:(done)). unfold depth in H2. cbn in H2.
  unfold pop_off. cbn [sie noff intena top below]. destruct (Z.ltb_spec n 1); [lia|].
  apply local_ok; rewrite ?E; [done|split|..]; cpu_auto.
Qed.

Lemma client_ok m i a c :
  client_step a (cpus m i) = Some c -> machine_ok m -> machine_ok (on_cpu i c m).
Proof.
  intros Hs Hm. destruct (proj1 Hm i) as [H1 H2 H3 H4 H5].
  destruct (cpus m i) as [n en si [p h u] bl] eqn:E.
  unfold client_step in Hs. cbn in Hs. destruct p; try done.
  destruct a; [| | |destruct u; [done|]|destruct (Z.eqb_spec n 0); [|done]|]; injection Hs as <-;
    (apply local_ok; rewrite ?E; [done|split|..]); cpu_auto.
Qed.

(** A frame that interrupts may reach possesses and owns nothing. *)
Lemma quiet_idle f l : quiet f -> ~ possesses f l.
Proof.
  intros (Hd & Ho & Hok). unfold depth in Hd. intros [Hin|Hp]; [|by rewrite Hp in Ho].
  assert (Hz : size (f_held f) = 0%nat) by lia. apply size_empty_inv in Hz. set_solver.
Qed.

Lemma sie_quiet c : cpu_ok c -> sie c = true -> quiet (top c).
Proof.
  intros [H1 H2 H3 H4 H5] Hs. destruct (H3 Hs) as [Hn Ho]. split; [|done].
  unfold depth in *. lia.
Qed.

(** Frames without locks can be exchanged. *)
Lemma idle_ok m i c :
  machine_ok m -> cpu_ok c -> quiet (top c) -> quiet (top (cpus m i)) -> machine_ok (on_cpu i c m).
Proof.
  intros Hm Hc Hq Hq'. apply local_ok; [done..| |]; intros l; split; intros Hl.
  - by destruct (quiet_idle _ _ Hq Hl).
  - by destruct (quiet_idle _ _ Hq' Hl).
  - by destruct (quiet_idle _ _ Hq (or_introl (proj1 Hl))).
  - by destruct (quiet_idle _ _ Hq' (or_introl (proj1 Hl))).
Qed.

Lemma interrupt_ok m i c :
  interrupt (cpus m i) = Some c -> machine_ok m -> machine_ok (on_cpu i c m).
Proof.
  intros Hs Hm. unfold interrupt in Hs. destruct (sie (cpus m i)) eqn:Hsie; [|done].
  injection Hs as <-. pose proof (sie_quiet _ (proj1 Hm i) Hsie) as Hq.
  destruct (proj1 Hm i) as [H1 H2 H3 H4 H5]. destruct (H3 Hsie) as [Hn _].
  apply idle_ok; [done| |done|done]. rewrite Hn. split; [done..|by constructor].
Qed.

Lemma sret_ok m i c : sret (cpus m i) = Some c -> machine_ok m -> machine_ok (on_cpu i c m).
Proof.
  intros Hs Hm. destruct (proj1 Hm i) as [H1 H2 H3 H4 H5].
  unfold sret in Hs. destruct (f_pc (top (cpus m i))) eqn:Hp; try done.
  destruct (below (cpus m i)) as [|f fs]; [done|].
  case_bool_decide as Hh; [|done]. destruct (Nat.eqb_spec (f_pushes (top (cpus m i))) 0) as [Hu|]; [|done].
  injection Hs as <-. inversion H5 as [|? ? (Hd & Ho & Hok) Hfs]; subst.
  assert (Hdt : depth (top (cpus m i)) = 0) by (unfold depth; by rewrite Hh, Hu, Hp).
  specialize (H2 ltac:(done)). rewrite Hdt in H2.
  apply idle_ok; [done| |done|].
  - rewrite H2. split; cbn; [lia|done|done|done|done].
  - split; [done|]. split; [by rewrite Hp|done].
Qed.

(** ** Steps on a lock *)

Section lock_steps.
Context (m : machine) (i l : nat) (f : frame) (lk : spinlock).
Notation m' := (on_cpu i (with_top (fun _ => f) (cpus m i)) (mkMachine (<[l := lk]> (locks m)) (cpus m))).
Hypothesis Halone : forall j, j <> i -> ~ possesses (top (cpus m j)) l.

Lemma others_out j : possesses (top (cpus m' j)) l -> j = i /\ possesses f l.
Proof using Halone.
  destruct (decide (i = j)) as [<-|Hne]; [by rewrite cpu_at|].
  rewrite cpu_other by done. intros H. by destruct (Halone j).
Qed.

Lemma lock_at : locks m' l = lk.
Proof using. apply fn_lookup_insert. Qed.

Lemma lock_taken :
  locked lk = 1 -> possesses f l -> (owner lk = None \/ owner lk = Some i) ->
  (owner lk = Some i <-> owns f l) -> lock_ok m' l.
Proof using Halone.
  intros Hlk Hp Hw Ho. split.
  - intros _. exists i. by rewrite cpu_at.
  - intros. by rewrite lock_at.
  - intros j k [-> _]%others_out [-> _]%others_out. done.
  - intros j. rewrite lock_at. destruct (decide (i = j)) as [<-|Hne]; [by rewrite cpu_at|].
    rewrite cpu_other by done. split; [|intros [H _]; by destruct (Halone j (not_eq_sym Hne) (or_introl H))].
    destruct Hw as [-> | ->]; congruence.
Qed.

Lemma lock_freed : lk = mkSpinlock 0 None -> ~ possesses f l -> lock_ok m' l.
Proof using Halone.
  intros Hlk Hp. split.
  - by rewrite lock_at, Hlk.
  - by intros j [_ ?]%others_out.
  - by intros j k [_ ?]%others_out.
  - intros j. rewrite lock_at, Hlk. split; [done|].
    intros Ho. by destruct (others_out j (or_introl (proj1 Ho))).
Qed.

(** The frame's relation to the other locks stays. *)
Lemma lock_step_ok :
  machine_ok m -> cpu_ok (with_top (fun _ => f) (cpus m i)) ->
  (forall l', l' <> l -> (possesses f l' <-> possesses (top (cpus m i)) l') /\
                         (owns f l' <-> owns (top (cpus m i)) l')) ->
  lock_ok m' l -> machine_ok m'.
Proof.
  intros [Hc Hl] Hok Hother Hthis. split; [by apply (all_cpus (fun _ => cpu_ok))|].
  intros l'. destruct (decide (l = l')) as [<-|Hne]; [done|].
  destruct (Hother l' (not_eq_sym Hne)). apply lock_frame; [|done..]. by apply fn_lookup_insert_ne.
Qed.
End lock_steps.

(** A CPU that possesses the lock is alone in that. *)
Lemma alone m i l :
  machine_ok m -> possesses (top (cpus m i)) l -> forall j, j <> i -> ~ possesses (top (cpus m j)) l.
Proof. intros [_ Hl] Hi j Hne Hj. apply Hne. by apply (ok_unique _ _ (Hl l)). Qed.

(** Steps of acquire() and release() that only read. *)
Lemma read_ok m i f lks :
  lks = locks m -> machine_ok m -> cpu_ok (with_top (fun _ => f) (cpus m i)) ->
  (forall l, possesses f l <-> possesses (top (cpus m i)) l) ->
  (forall l, owns f l <-> owns (top (cpus m i)) l) ->
  machine_ok (on_cpu i (with_top (fun _ => f) (cpus m i)) (mkMachine lks (cpus m))).
Proof. intros -> ? ? ? ?. by apply (local_ok m). Qed.

Lemma swap_busy_ok m i l :
  machine_ok m -> locked (locks m l) <> 0 ->
  machine_ok (on_cpu i (with_top (fun _ => top (cpus m i)) (cpus m i))
                (mkMachine (<[l := mkSpinlock 1 (owner (locks m l))]> (locks m)) (cpus m))).
Proof.
  intros Hm Hlk. destruct (ok_locked _ _ (proj2 Hm l) Hlk) as [j Hj].
  apply lock_step_ok; [done| |done|].
  - destruct (cpus m i) eqn:E. rewrite <- E. unfold with_top. rewrite E. cbn. rewrite <- E. apply Hm.
  - apply lock_frame; [|done|done|apply Hm]. rewrite fn_lookup_insert.
    destruct (locks m l) as [v o] eqn:E. cbn.
    by rewrite <- (ok_taken _ _ (proj2 Hm l) j Hj), E.
Qed.

Lemma acquire_step_ok m i lks f :
  acquire_step i (locks m) (top (cpus m i)) = Some (lks, f) -> machine_ok m ->
  machine_ok (on_cpu i (with_top (fun _ => f) (cpus m i)) (mkMachine lks (cpus m))).
Proof.
  intros Hs Hm. pose proof (proj1 Hm i) as Hi. destruct (cpus m i) as [n en si [p h u] bl] eqn:E.
  assert (Et : top (cpus m i) = mkFrame p h u) by (by rewrite E).
  unfold acquire_step in Hs. cbn [f_pc top] in Hs. rewrite <- E.
  destruct p as [| | | |l|l|l|l| | | | | |]; try done.
  - destruct Hi, (locked _ =? 0); injection Hs as <- <-; 
      (apply read_ok; [done..| | |]; rewrite ?E; [split|..]; cpu_auto).
  - destruct Hi. case_bool_decide; injection Hs as <- <-;
      (apply read_ok; [done..| | |]; rewrite ?E; [split|..]; cpu_auto).
  - destruct (Z.eqb_spec (locked (locks m l)) 0) as [Hz|Hz]; injection Hs as <- <-;
      [|rewrite <- Et; by apply swap_busy_ok].
    assert (Hfree : forall j, ~ possesses (top (cpus m j)) l).
    { intros j Hj. by rewrite (ok_taken _ _ (proj2 Hm l) j Hj) in Hz. }
    assert (Hnl : l ∉ h) by (intros Hin; apply (Hfree i); rewrite Et; by left).
    assert (Hno : forall j, owner (locks m l) <> Some j).
    { intros j Hj. apply (ok_owner _ _ (proj2 Hm l)) in Hj. by apply (Hfree j); left; apply Hj. }
    destruct Hi. apply lock_step_ok; [done| | |apply lock_taken].
    + rewrite E. split; cpu_auto.
    + intros l' Hl'. rewrite Et. split; cpu_auto.
    + intros j _. apply Hfree.
    + done.
    + by right.
    + left. cbn. destruct (owner _) as [j|] eqn:Ho; [by destruct (Hno j)|done].
    + cbn. split; [intros Ho; by destruct (Hno i)|intros [Hin _]; done].
  - injection Hs as <- <-. assert (Hpos : possesses (top (cpus m i)) l) by (rewrite Et; by right).
    assert (Hsize : l ∉ h) by apply Hi.
    destruct Hi. apply lock_step_ok; [done| | |apply lock_taken].
    + rewrite E. split; cbn; unfold depth in *; cbn in *;
        rewrite ?size_union, ?size_singleton by set_solver; try cpu_auto.
    + intros l' Hl'. rewrite Et. unfold possesses, owns. cbn. split; set_solver.
    + by apply alone.
    + by apply (ok_taken _ _ (proj2 Hm l) i).
    + left. cbn. set_solver.
    + by right.
    + cbn. unfold owns. cbn. set_solver.
Qed.

Lemma release_step_ok m i lks f :
  release_step i (locks m) (top (cpus m i)) = Some (lks, f) -> machine_ok m ->
  machine_ok (on_cpu i (with_top (fun _ => f) (cpus m i)) (mkMachine lks (cpus m))).
Proof.
  intros Hs Hm. pose proof (proj1 Hm i) as Hi. destruct (cpus m i) as [n en si [p h u] bl] eqn:E.
  assert (Et : top (cpus m i) = mkFrame p h u) by (by rewrite E).
  unfold release_step in Hs. cbn [f_pc top] in Hs. rewrite <- E.
  destruct p as [| | | | | | | |l|l|l|l| |]; try done.
  - destruct Hi, (locked _ =? 0); injection Hs as <- <-; 
      (apply read_ok; [done..| | |]; rewrite ?E; [split|..]; cpu_auto).
  - case_bool_decide as Ho; injection Hs as <- <-;
      [apply (ok_owner _ _ (proj2 Hm l)) in Ho; rewrite Et in Ho|]; destruct Hi;
      (apply read_ok; [done..| | |]; rewrite ?E; [split|..]; cpu_auto).
  - injection Hs as <- <-. assert (Hin : l ∈ h) by apply Hi.
    assert (Hpos : possesses (top (cpus m i)) l) by (rewrite Et; by left).
    destruct Hi. apply lock_step_ok; [done| | |apply lock_taken].
    + rewrite E. split; cpu_auto.
    + intros l' Hl'. rewrite Et. split; cpu_auto.
    + by apply alone.
    + by apply (ok_taken _ _ (proj2 Hm l) i).
    + by left.
    + by left.
    + cbn. unfold owns. cbn. naive_solver.
  - injection Hs as <- <-. assert (Hin : l ∈ h) by apply Hi.
    assert (Hpos : possesses (top (cpus m i)) l) by (rewrite Et; by left).
    assert (Hsz : size h = S (size (h ∖ {[l]}))).
    { rewrite size_difference by set_solver. rewrite size_singleton.
      assert (size h <> 0%nat) by (intros Hz%size_empty_inv; set_solver). lia. }
    destruct Hi. apply lock_step_ok; [done| | |apply lock_freed].
    + rewrite E. split; cpu_auto.
    + intros l' Hl'. rewrite Et. unfold possesses, owns. cbn. split; set_solver.
    + by apply alone.
    + f_equal. destruct (owner (locks m l)) as [j|] eqn:Ho; [exfalso|done].
      apply (ok_owner _ _ (proj2 Hm l)) in Ho.
      assert (j = i) as -> by (apply (ok_unique _ _ (proj2 Hm l)); [left; apply Ho|done]).
      rewrite Et in Ho. by destruct Ho.
    + unfold possesses. cbn. set_solver.
Qed.

Lemma step_ok m m' : step m m' -> machine_ok m -> machine_ok m'.
Proof.
  destruct 1; [by apply push_off_ok|by apply pop_off_ok|by apply acquire_step_ok|by apply release_step_ok|
    by eapply client_ok|by apply interrupt_ok|by apply sret_ok].
Qed.

Lemma reachable_ok m : reachable m -> machine_ok m.
Proof.
  induction 1 as [|m m' _ IH Hs]; [|by apply (step_ok m)].
  split; [intros i; by split|]. intros l. split; [done|..].
  - by intros i [?|?].
  - by intros i j [?|?].
  - intros i. split; [done|]. by intros [? _].
Qed.

(** C8: spinlock.c gives mutual exclusion and keeps interrupt handlers out of
    critical sections.  In every state that several CPUs reach by executing
    acquire(), release(), push_off() and pop_off() one memory access at a
    time, with interrupts arriving wherever they are enabled: (1) a lock is
    in the possession of at most one CPU, and it is locked exactly when it is
    in the possession of one; (2) holding() is true exactly for the CPU whose
    acquire() of the lock has returned; (3) a CPU that possesses a lock has
    interrupts off, and (4) no interrupted code possesses a lock, so a handler
    cannot wait for a lock of the code it interrupted; (5) pop_off() never
    panics when every pop_off() outside spinlock.c undoes a push_off(). *)
Theorem spinlock_correct m :
  reachable m ->
  (forall l i j, possesses (top (cpus m i)) l -> possesses (top (cpus m j)) l -> i = j) /\
  (forall l, locked (locks m l) <> 0 <-> exists i, possesses (top (cpus m i)) l) /\
  (forall l i, f_pc (top (cpus m i)) = Client ->
     (holding i l m = true <-> l ∈ f_held (top (cpus m i)))) /\
  (forall l i, possesses (top (cpus m i)) l -> sie (cpus m i) = false) /\
  (forall l i f, f ∈ below (cpus m i) -> ~ possesses f l) /\
  (forall i msg, f_pc (top (cpus m i)) = Panicked msg ->
     msg = "acquire"%string \/ msg = "release"%string).
Proof.
  intros Hm%reachable_ok. destruct Hm as [Hc Hl]. repeat split.
  - intros l i j. apply (ok_unique _ _ (Hl l)).
  - apply (ok_locked _ _ (Hl l)).
  - intros [i Hi]. by rewrite (ok_taken _ _ (Hl l) i Hi).
  - unfold holding. intros [_ Ho%bool_decide_eq_true]%andb_prop. by apply (ok_owner _ _ (Hl l)) in Ho as [? _].
  - intros Hin. unfold holding. rewrite (ok_taken _ _ (Hl l) i (or_introl Hin)).
    rewrite bool_decide_true; [done|]. apply (ok_owner _ _ (Hl l)). split; congruence.
  - intros l i Hp. destruct (sie (cpus m i)) eqn:Hs; [|done].
    by destruct (quiet_idle _ _ (sie_quiet _ (Hc i) Hs) Hp).
  - intros l i f Hf. apply quiet_idle. destruct (Hc i) as [_ _ _ _ Hb].
    by apply (proj1 (Forall_forall _ _) Hb).
  - intros i msg Hp. pose proof (ok_pc _ (Hc i)) as Hok. unfold pc_ok in Hok. by rewrite Hp in Hok.
Qed.

(** The two checks of spinlock.c are exact in every reachable state,
    although they read the lock without owning it while other CPUs change
    it.  acquire() panics exactly when the calling CPU holds the lock
    already, and release() exactly when it does not hold it. *)
Theorem lock_checks_exact m i l lks f :
  reachable m ->
  (f_pc (top (cpus m i)) = AcqCpu l -> acquire_step i (locks m) (top (cpus m i)) = Some (lks, f) ->
     f_pc f = if bool_decide (l ∈ f_held (top (cpus m i))) then Panicked "acquire" else AcqSwap l) /\
  (f_pc (top (cpus m i)) = AcqLocked l -> acquire_step i (locks m) (top (cpus m i)) = Some (lks, f) ->
     l ∈ f_held (top (cpus m i)) -> f_pc f = AcqCpu l) /\
  (f_pc (top (cpus m i)) = RelCpu l -> release_step i (locks m) (top (cpus m i)) = Some (lks, f) ->
     f_pc f = if bool_decide (l ∈ f_held (top (cpus m i))) then RelClear l else Panicked "release") /\
  (f_pc (top (cpus m i)) = RelLocked l -> release_step i (locks m) (top (cpus m i)) = Some (lks, f) ->
     l ∈ f_held (top (cpus m i)) -> f_pc f = RelCpu l).
Proof.
  intros [_ Hl]%reachable_ok.
  assert (Hown : (forall l', f_pc (top (cpus m i)) <> RelUnlock l') ->
    bool_decide (owner (locks m l) = Some i) = bool_decide (l ∈ f_held (top (cpus m i)))).
  { intros Hp. apply bool_decide_ext. rewrite (ok_owner _ _ (Hl l)). unfold owns. naive_solver. }
  assert (Hlk : l ∈ f_held (top (cpus m i)) -> locked (locks m l) =? 0 = false).
  { intros Hin. by rewrite (ok_taken _ _ (Hl l) i (or_introl Hin)). }
  repeat split; intros Hp; unfold acquire_step, release_step; rewrite Hp.
  - rewrite Hown by (by rewrite Hp). clear Hown. case_bool_decide; intros Hs; by inversion Hs.
  - intros Hs Hin. rewrite Hlk in Hs by done. by inversion Hs.
  - rewrite Hown by (by rewrite Hp). clear Hown. case_bool_decide; intros Hs; by inversion Hs.
  - intros Hs Hin. rewrite Hlk in Hs by done. by inversion Hs.
Qed.

Lemma push_pop_app w w' c : push_pop (w ++ w') c = c ← push_pop w c; push_pop w' c.
Proof.
  revert c. induction w as [|[|] w IH]; intros c; cbn [push_pop app]; [done| |].
  - destruct (push_off c); [cbn; apply IH|done].
  - destruct (client_step CPop c); [cbn; apply IH|done].
Qed.

Lemma push_pop_spec w c :
  balanced w -> f_pc (top c) = Client -> 0 <= noff c -> (0 < noff c -> sie c = false) ->
  exists en, push_pop w c = Some (mkCpu (noff c) en (sie c) (top c) (below c)) /\ (0 < noff c -> en = intena c).
Proof.
  intros Hw. revert c. induction Hw as [|w Hw IH|w w' Hw IH Hw' IH']; intros [n en si [p h u] bl];
    cbn [f_pc top noff sie intena below]; intros -> Hn Hsi.
  - by exists en.
  - set (c1 := mkCpu (n + 1) (if n =? 0 then si else en) false (mkFrame Client h (S u)) bl).
    change (push_pop (true :: w ++ [false]) _) with (push_pop (w ++ [false]) c1).
    rewrite push_pop_app. destruct (IH c1) as (en' & -> & He); [done|cbn; lia|done|]. rewrite (He ltac:(cbn; lia)). cbn.
    unfold pop_off. cbn. destruct (Z.ltb_spec (n + 1) 1); [lia|]. replace (n + 1 - 1) with n by lia.
    exists (if n =? 0 then si else en). split; [|by intros Hp; destruct (Z.eqb_spec n 0); [lia|]].
    destruct (Z.eqb_spec n 0); [done|]. by rewrite Hsi by lia.
  - rewrite push_pop_app. destruct (IH (mkCpu n en si (mkFrame Client h u) bl)) as (en' & -> & He); [done..|].
    cbn. destruct (IH' (mkCpu n en' si (mkFrame Client h u) bl)) as (en'' & -> & He'); [done..|].
    exists en''. split; [done|]. intros Hp. by rewrite He', He.
Qed.

(** push_off() and pop_off() are matched, as their comment says: from any
    state in which interrupts are off whenever noff is positive, a CPU that
    executes a balanced sequence of them never panics and ends with noff and
    the interrupt bit as they were, whether interrupts were on or off. *)
Theorem push_pop_restores w c :
  balanced w -> f_pc (top c) = Client -> 0 <= noff c -> (0 < noff c -> sie c = false) ->
  exists c', push_pop w c = Some c' /\ noff c' = noff c /\ sie c' = sie c /\ top c' = top c.
Proof. intros Hw H1 H2 H3. destruct (push_pop_spec w c) as (en & -> & _); [done..|]. by eexists. Qed.

(** ** Witnesses *)

Lemma instr_step i m m' : instr i m = Some m' -> step m m'.
Proof.
  unfold instr. destruct (push_off_step (cpus m i)) eqn:H1.
  { intros [= <-]. by apply step_push. }
  destruct (acquire_step i (locks m) (top (cpus m i))) as [[lks f]|] eqn:H2.
  { intros [= <-]. by apply step_acquire. }
  destruct (release_step i (locks m) (top (cpus m i))) as [[lks f]|] eqn:H3.
  { intros [= <-]. by apply step_release. }
  destruct (f_pc (top (cpus m i))) eqn:H4; try done. intros [= <-]. by apply step_pop.
Qed.

Lemma run_reachable sched m m' : reachable m -> run sched m = Some m' -> reachable m'.
Proof.
  revert m. induction sched as [|[i [a|]] sched IH]; intros m Hm; cbn [run].
  - by intros [= <-].
  - intros (c & Hc & Hr)%bind_Some. eapply IH; [|exact Hr]. by eapply reach_step, step_client.
  - intros (m1 & H1 & Hr)%bind_Some. eapply IH; [|exact Hr]. by eapply reach_step, instr_step.
Qed.

(** CPU 0 has acquired lock 7 and calls acquire() on it once more, while CPU 1
    spins on it. *)
Definition contended : machine :=
  default boot (run ([(0, Some (CAcquire 7))] ++ replicate 6 (0, None) ++
                     [(1, Some (CAcquire 7))] ++ replicate 7 (1, None) ++
                     [(0, Some (CAcquire 7))] ++ replicate 4 (0, None))%nat boot).

Lemma contended_reachable : reachable contended.
Proof.
  unfold contended. destruct (run _ boot) as [m|] eqn:E; [|apply reach_boot].
  exact (run_reachable _ boot m reach_boot E).
Qed.

Lemma spinlock_correct_witness :
  possesses (top (cpus contended 0)) 7 /\ f_pc (top (cpus contended 1)) = AcqSwap 7 /\
  ~ possesses (top (cpus contended 1)) 7 /\ sie (cpus contended 0) = false.
Proof.
  destruct (spinlock_correct contended contended_reachable) as (H1 & _ & _ & H4 & _).
  assert (H0 : possesses (top (cpus contended 0)) 7).
  { left. apply (proj1 (bool_decide_eq_true _)). by vm_compute. }
  split; [exact H0|]. split; [by vm_compute|]. split; [|exact (H4 _ _ H0)].
  intros H. by discriminate (H1 _ _ _ H0 H).
Defined.

Lemma lock_checks_exact_witness :
  exists lks f, acquire_step 0 (locks contended) (top (cpus contended 0)) = Some (lks, f) /\
                f_pc f = Panicked "acquire".
Proof.
  destruct (acquire_step 0 (locks contended) (top (cpus contended 0))) as [[lks f]|] eqn:E;
    [|revert E; by vm_compute].
  exists lks, f. split; [done|].
  destruct (lock_checks_exact contended 0 7 lks f contended_reachable) as [H _].
  rewrite H; [|by vm_compute|exact E]. rewrite bool_decide_true; [done|].
  apply (proj1 (bool_decide_eq_true _)). by vm_compute.
Defined.

Lemma push_pop_restores_witness :
  exists c', push_pop [true; true; false; false; true; false]
               (mkCpu 0 false true (mkFrame Client ∅ 0) []) = Some c' /\ sie c' = true.
Proof.
  destruct (push_pop_restores [true; true; false; false; true; false]
              (mkCpu 0 false true (mkFrame Client ∅ 0) [])) as (c' & H1 & _ & H2 & _); [|done|done|done|].
  - apply (bal_app [true; true; false; false] [true; false]).
    + apply (bal_nest [true; false]), (bal_nest []), bal_nil.
    + apply (bal_nest []), bal_nil.
  - exists c'. exact (conj H1 H2).
Defined.
