(* ===== verification/Ring.v ===== *)
(** * Ring buffers with free-running counters

    The pipe, the console's input line and the serial port's output are
    arrays of N bytes indexed by counters that run on and wrap around at
    their width, a multiple of N.  [ring N buf r n] is the list of the [n]
    bytes from counter [r]. *)

From S2P Require Import Prelude.

Definition cell (N : Z) (buf : list Z) (i : Z) : Z := default 0 (buf !! Z.to_nat (i mod N)).

Definition ring (N : Z) (buf : list Z) (r : Z) (n : nat) : list Z :=
  map (fun k => cell N buf (r + Z.of_nat k)) (seq 0 n).

Section ring.
Context (N : Z) (HN : 0 < N).

Lemma length_ring buf r n : length (ring N buf r n) = n.
Proof. unfold ring. by rewrite length_map, length_seq. Qed.

Lemma cell_mod buf i j : i mod N = j mod N -> cell N buf i = cell N buf j.
Proof. unfold cell. by intros ->. Qed.

Lemma ring_mod buf r r' n : r mod N = r' mod N -> ring N buf r n = ring N buf r' n.
Proof.
  intros Hr. apply map_ext. intros k. apply cell_mod.
  by rewrite Z.add_mod, Hr, <- Z.add_mod by lia.
Qed.

(** Wrapping the counter at its width changes nothing. *)
Lemma ring_wrap M buf r n : M mod N = 0 -> 0 < M -> ring N buf (r mod M) n = ring N buf r n.
Proof. intros HM Hp. apply ring_mod, Z.mod_mod_divide. apply Z.mod_divide; lia. Qed.

Lemma ring_app buf r n k : ring N buf r (n + k) = ring N buf r n ++ ring N buf (r + Z.of_nat n) k.
Proof.
  unfold ring. rewrite seq_app, map_app. f_equal. rewrite Nat.add_0_l, <- (Nat.add_0_r n) at 1.
  rewrite <- fmap_add_seq. change (Nat.add n <$> seq 0 k) with (map (Nat.add n) (seq 0 k)).
  rewrite map_map. apply map_ext. intros j. f_equal. lia.
Qed.

Lemma ring_S buf r n : ring N buf r (S n) = cell N buf r :: ring N buf (r + 1) n.
Proof. change (S n) with (1 + n)%nat. rewrite ring_app. unfold ring at 1. cbn. by rewrite Z.add_0_r. Qed.

Lemma ring_snoc buf r n : ring N buf r (S n) = ring N buf r n ++ [cell N buf (r + Z.of_nat n)].
Proof.
  replace (S n) with (n + 1)%nat by lia. rewrite ring_app. unfold ring at 2. cbn. by rewrite Z.add_0_r.
Qed.

(** Storing behind the last byte appends it. *)
Lemma ring_push buf r n w c :
  length buf = Z.to_nat N -> Z.of_nat n < N -> w mod N = (r + Z.of_nat n) mod N ->
  ring N (<[Z.to_nat (w mod N) := c]> buf) r (S n) = ring N buf r n ++ [c].
Proof using HN.
  intros Hl Hn Hw. rewrite ring_snoc, Hw. pose proof (Z.mod_pos_bound (r + Z.of_nat n) N HN) as Hb. f_equal.
  - apply map_ext_in. intros k Hk. apply in_seq in Hk. unfold cell. rewrite list_lookup_insert_ne; [done|].
    intros He. apply Z2Nat.inj in He; [|lia|by apply Z.mod_pos_bound].
    assert (Hd : (Z.of_nat n - Z.of_nat k) mod N = 0).
    { replace (Z.of_nat n - Z.of_nat k) with ((r + Z.of_nat n) - (r + Z.of_nat k)) by lia.
      rewrite Zminus_mod, He, Z.sub_diag. by apply Z.mod_0_l; lia. }
    rewrite Z.mod_small in Hd; lia.
  - unfold cell. rewrite list_lookup_insert, decide_True; [done|]. split; [done|]. rewrite Hl. lia.
Qed.
End ring.
