(* ===== verification/Sleeplock.v ===== *)
(** * Sleep locks (kernel/sleeplock.c)

    A sleep lock lives inside a larger object: the routines take the channel
    and the spinlock that stand for it and the accessors of its two fields. *)

From S2P Require Import Prelude KMonad.
Open Scope kmonad_scope.

Record sleeplock : Set := mkSleeplock { sl_locked : bool; sl_pid : Z }.

(** initsleeplock() leaves the lock free. *)
Definition initsleeplock : sleeplock := mkSleeplock false 0.

Section sleeplock.
Context {S : Type} (ch : chan) (lk : lockid).
Context (get : S -> sleeplock) (put : sleeplock -> S -> S).

Definition set_locked (b : bool) (s : S) : S := put (mkSleeplock b (sl_pid (get s))) s.
Definition set_pid (p : Z) (s : S) : S := put (mkSleeplock (sl_locked (get s)) p) s.

(** while (lk->locked) sleep(lk, &lk->lk); *)
Fixpoint acquiresleep_loop (fuel : nat) : K S unit :=
  b <- gets (fun s => sl_locked (get s)) ;;
  if b : bool then
    match fuel with
    | O => out_of_fuel
    | Datatypes.S fuel => sleep ch lk ;;; acquiresleep_loop fuel
    end
  else ret tt.

Definition acquiresleep : K S unit :=
  acquire lk ;;;
  n <- asks e_spin ;;
  acquiresleep_loop n ;;;
  modify (set_locked true) ;;;
  pid <- asks e_pid ;;
  modify (set_pid pid) ;;;
  release lk.

Definition releasesleep : K S unit :=
  acquire lk ;;;
  modify (set_locked false) ;;;
  modify (set_pid 0) ;;;
  wakeup ch ;;;
  release lk.

Definition holdingsleep : K S bool :=
  acquire lk ;;;
  pid <- asks e_pid ;;
  r <- gets (fun s => sl_locked (get s) && (sl_pid (get s) =? pid)) ;;
  release lk ;;;
  ret r.

(** The accessors address the lock in the state [s]. *)
Definition lens_at (s : S) : Prop :=
  (forall x, get (put x s) = x) /\ (forall x y, put x (put y s) = put x s).

Lemma acquiresleep_free e s :
  lens_at s -> lk ∉ e_held e -> sl_locked (get s) = false ->
  acquiresleep e s = Ok tt e (put (mkSleeplock true (e_pid e)) s).
Proof.
  intros [get_put put_put] Hl Hf. unfold acquiresleep. krun.
  replace (acquiresleep_loop (e_spin (set_held (lk :: e_held e) e)) (set_held (lk :: e_held e) e) s)
    with (@Ok S unit tt (set_held (lk :: e_held e) e) s)
    by (destruct (e_spin _); cbn [acquiresleep_loop]; rewrite bind_eq; kred; by rewrite Hf).
  krun. unfold set_pid, set_locked. rewrite get_put, put_put. done.
Qed.

Lemma releasesleep_eq e s :
  lens_at s -> lk ∉ e_held e ->
  releasesleep e s = Ok tt (add_woken [ch] e) (put (mkSleeplock false 0) s).
Proof.
  intros [get_put put_put] Hl. unfold releasesleep. krun.
  change (add_woken [ch] (set_held (lk :: e_held e) e))
    with (set_held (lk :: e_held (add_woken [ch] e)) (add_woken [ch] e)).
  rewrite release_eq. unfold set_pid, set_locked. by rewrite get_put, put_put.
Qed.

Lemma holdingsleep_eq e s :
  lk ∉ e_held e ->
  holdingsleep e s = Ok (sl_locked (get s) && (sl_pid (get s) =? e_pid e)) e s.
Proof. intros Hl. unfold holdingsleep. by krun. Qed.

(** A waiter goes to sleep with the state as it was and no lock held. *)
Lemma acquiresleep_sleeps e s n :
  e_held e = [] -> lk <> LkProc (e_me e) -> sl_locked (get s) = true ->
  e_spin e = Datatypes.S n ->
  exists k, acquiresleep e s = Sleep ch e s k.
Proof.
  intros Hh Hl Hf Hn. unfold acquiresleep. rewrite bind_eq, acquire_eq by (rewrite Hh; apply not_elem_of_nil).
  kred. rewrite bind_eq. kred. cbn [set_held e_spin]. rewrite Hn, bind_eq, Hh.
  cbn [acquiresleep_loop]. rewrite bind_eq. kred. rewrite Hf, bind_eq, sleep_eq by done.
  by eexists.
Qed.

Lemma keeps_acquiresleep (P : S -> Prop) :
  (forall x s, P s -> P (put x s)) -> keeps P acquiresleep.
Proof.
  intros HP. unfold acquiresleep.
  assert (Hloop : forall n, keeps P (acquiresleep_loop n)).
  { induction n; cbn [acquiresleep_loop]; apply keeps_bind; auto with keeps;
      intros []; auto with keeps. }
  unfold set_locked, set_pid.
  repeat first [apply keeps_bind; [|intros ?] | apply Hloop | apply keeps_modify; auto
               | solve [auto with keeps]].
Qed.

Lemma keeps_releasesleep (P : S -> Prop) :
  (forall x s, P s -> P (put x s)) -> keeps P releasesleep.
Proof.
  intros HP. unfold releasesleep, set_locked, set_pid.
  repeat first [apply keeps_bind; [|intros ?] | apply keeps_modify; auto | solve [auto with keeps]].
Qed.

Lemma keeps_holdingsleep (P : S -> Prop) : keeps P holdingsleep.
Proof. unfold holdingsleep. repeat first [apply keeps_bind; [|intros ?] | solve [auto with keeps]]. Qed.
End sleeplock.
