(* ===== verification/Bio.v ===== *)
(** * The buffer cache (kernel/bio.c)

    The cache is an array of NBUF buffers and a list head, doubly linked by
    indices: index [HEAD] is bcache.head.  [bstate] also holds the disk, as the
    contents of its blocks and the sequence of the writes made to it, which is
    what a crash can observe.

    [disk_rw] is the effect of a completed transfer by virtio_disk_rw(); the
    driver itself, its queue and its interrupts are in Virtio.v. *)

From S2P Require Import Prelude KMonad Sleeplock.
Open Scope kmonad_scope.

(** ** Data *)

Definition NBUF : nat := 30.
Definition HEAD : nat := NBUF.
Definition BSIZE : nat := 1024.

Record buf : Set := mkBuf {
  b_valid : bool;
  b_dev : Z;
  b_blockno : Z;
  b_lock : sleeplock;
  b_refcnt : Z;
  b_prev : nat;
  b_next : nat;
  b_data : list Z
}.

Definition buf0 : buf := mkBuf false 0 0 initsleeplock 0 0 0 [].
#[export] Instance buf_inhabited : Inhabited buf := populate buf0.

Definition set_valid v b := mkBuf v (b_dev b) (b_blockno b) (b_lock b) (b_refcnt b) (b_prev b) (b_next b) (b_data b).
Definition set_dev d b := mkBuf (b_valid b) d (b_blockno b) (b_lock b) (b_refcnt b) (b_prev b) (b_next b) (b_data b).
Definition set_blockno n b := mkBuf (b_valid b) (b_dev b) n (b_lock b) (b_refcnt b) (b_prev b) (b_next b) (b_data b).
Definition set_lock l b := mkBuf (b_valid b) (b_dev b) (b_blockno b) l (b_refcnt b) (b_prev b) (b_next b) (b_data b).
Definition set_refcnt r b := mkBuf (b_valid b) (b_dev b) (b_blockno b) (b_lock b) r (b_prev b) (b_next b) (b_data b).
Definition set_prev p b := mkBuf (b_valid b) (b_dev b) (b_blockno b) (b_lock b) (b_refcnt b) p (b_next b) (b_data b).
Definition set_next n b := mkBuf (b_valid b) (b_dev b) (b_blockno b) (b_lock b) (b_refcnt b) (b_prev b) n (b_data b).
Definition set_data d b := mkBuf (b_valid b) (b_dev b) (b_blockno b) (b_lock b) (b_refcnt b) (b_prev b) (b_next b) d.

Record disk : Set := mkDisk {
  d_blocks : gmap Z (list Z);
  d_writes : list (Z * list Z)      (* latest first *)
}.

Definition disk_read (d : disk) (bn : Z) : list Z := default (replicate BSIZE 0) (d_blocks d !! bn).
Definition disk_write (bn : Z) (data : list Z) (d : disk) : disk :=
  mkDisk (<[bn := data]> (d_blocks d)) ((bn, data) :: d_writes d).

Record bstate : Set := mkBstate { bufs : list buf; dsk : disk }.

Definition nth_buf (i : nat) (s : bstate) : buf := bufs s !!! i.
Definition upd_buf (i : nat) (f : buf -> buf) (s : bstate) : bstate :=
  mkBstate (alter f i (bufs s)) (dsk s).
Definition upd_disk (f : disk -> disk) (s : bstate) : bstate := mkBstate (bufs s) (f (dsk s)).

Definition getb (i : nat) : K bstate buf := gets (nth_buf i).
Definition modb (i : nat) (f : buf -> buf) : K bstate unit := modify (upd_buf i f).

(** ** The sleep lock of a buffer *)

Definition buf_lock (i : nat) (s : bstate) : sleeplock := b_lock (nth_buf i s).
Definition put_lock (i : nat) (l : sleeplock) : bstate -> bstate := upd_buf i (set_lock l).
Definition lock_buf (i : nat) : K bstate unit :=
  acquiresleep (ChBufLock i) (LkBuf i) (buf_lock i) (put_lock i).
Definition unlock_buf (i : nat) : K bstate unit :=
  releasesleep (ChBufLock i) (LkBuf i) (buf_lock i) (put_lock i).
Definition holding_buf (i : nat) : K bstate bool := holdingsleep (LkBuf i) (buf_lock i).

(** ** Transfers *)

Definition disk_rw (i : nat) (write : bool) : K bstate unit :=
  b <- getb i ;;
  if write then modify (upd_disk (disk_write (b_blockno b) (b_data b)))
  else d <- gets dsk ;; modb i (set_data (disk_read d (b_blockno b))).

(** ** Operations *)

Fixpoint binit_loop (n : nat) (b : nat) : K bstate unit :=
  match n with
  | O => ret tt
  | S n =>
      h <- getb HEAD ;;
      modb b (set_next (b_next h)) ;;;
      modb b (set_prev HEAD) ;;;
      modb b (set_lock initsleeplock) ;;;
      h <- getb HEAD ;;
      modb (b_next h) (set_prev b) ;;;
      modb HEAD (set_next b) ;;;
      binit_loop n (S b)
  end.

Definition binit : K bstate unit :=
  modb HEAD (set_prev HEAD) ;;;
  modb HEAD (set_next HEAD) ;;;
  binit_loop NBUF 0.

(** Is the block already cached? *)
Fixpoint bget_cached (fuel : nat) (b : nat) (dev blockno : Z) : K bstate (option nat) :=
  if decide (b = HEAD) then ret None
  else match fuel with
       | O => out_of_fuel
       | S fuel =>
           x <- getb b ;;
           if (b_dev x =? dev) && (b_blockno x =? blockno) then ret (Some b)
           else bget_cached fuel (b_next x) dev blockno
       end.

(** The least recently used unused buffer. *)
Fixpoint bget_unused (fuel : nat) (b : nat) : K bstate (option nat) :=
  if decide (b = HEAD) then ret None
  else match fuel with
       | O => out_of_fuel
       | S fuel =>
           x <- getb b ;;
           if b_refcnt x =? 0 then ret (Some b) else bget_unused fuel (b_prev x)
       end.

Definition bget (dev blockno : Z) : K bstate nat :=
  acquire LkBcache ;;;
  h <- getb HEAD ;;
  r <- bget_cached NBUF (b_next h) dev blockno ;;
  match r with
  | Some b =>
      x <- getb b ;;
      modb b (set_refcnt (u32 (b_refcnt x + 1))) ;;;
      release LkBcache ;;;
      lock_buf b ;;;
      ret b
  | None =>
      h <- getb HEAD ;;
      r <- bget_unused NBUF (b_prev h) ;;
      match r with
      | Some b =>
          modb b (set_dev dev) ;;;
          modb b (set_blockno blockno) ;;;
          modb b (set_valid false) ;;;
          modb b (set_refcnt 1) ;;;
          release LkBcache ;;;
          lock_buf b ;;;
          ret b
      | None => panic "bget: no buffers"
      end
  end.

Definition bread (dev blockno : Z) : K bstate nat :=
  b <- bget dev blockno ;;
  x <- getb b ;;
  (when negb (b_valid x) do (disk_rw b false ;;; modb b (set_valid true))) ;;;
  ret b.

Definition bwrite (b : nat) : K bstate unit :=
  h <- holding_buf b ;;
  if negb h then panic "bwrite" else disk_rw b true.

(** Unlink [b] and put it at the front of the list. *)
Definition move_front (b : nat) : K bstate unit :=
  x <- getb b ;;
  modb (b_next x) (set_prev (b_prev x)) ;;;
  x <- getb b ;;
  modb (b_prev x) (set_next (b_next x)) ;;;
  h <- getb HEAD ;;
  modb b (set_next (b_next h)) ;;;
  modb b (set_prev HEAD) ;;;
  h <- getb HEAD ;;
  modb (b_next h) (set_prev b) ;;;
  modb HEAD (set_next b).

Definition brelse (b : nat) : K bstate unit :=
  h <- holding_buf b ;;
  if negb h then panic "brelse"
  else
    unlock_buf b ;;;
    acquire LkBcache ;;;
    x <- getb b ;;
    modb b (set_refcnt (u32 (b_refcnt x - 1))) ;;;
    x <- getb b ;;
    (when b_refcnt x =? 0 do move_front b) ;;;
    release LkBcache.

Definition bpin (b : nat) : K bstate unit :=
  acquire LkBcache ;;;
  x <- getb b ;;
  modb b (set_refcnt (u32 (b_refcnt x + 1))) ;;;
  release LkBcache.

Definition bunpin (b : nat) : K bstate unit :=
  acquire LkBcache ;;;
  x <- getb b ;;
  modb b (set_refcnt (u32 (b_refcnt x - 1))) ;;;
  release LkBcache.

(** The state of a booting kernel: everything zero. *)
Definition bstate0 (d : disk) : bstate := mkBstate (replicate (S NBUF) buf0) d.

(** ** Rings

    [links nx pv xs]: consecutive elements of [xs] are linked both ways. *)

Fixpoint links (nx pv : nat -> nat) (xs : list nat) : Prop :=
  match xs with
  | x :: ((y :: _) as t) => nx x = y /\ pv y = x /\ links nx pv t
  | _ => True
  end.

Definition fupd (f : nat -> nat) (i v : nat) : nat -> nat := fun j => if decide (j = i) then v else f j.

Definition ring (h : nat) (nx pv : nat -> nat) (l : list nat) : Prop :=
  NoDup (h :: l) /\ links nx pv (h :: l ++ [h]).

Lemma links_cons nx pv x y t :
  links nx pv (x :: y :: t) <-> nx x = y /\ pv y = x /\ links nx pv (y :: t).
Proof. done. Qed.

Lemma links_app nx pv xs y ys :
  links nx pv (xs ++ y :: ys) <-> links nx pv (xs ++ [y]) /\ links nx pv (y :: ys).
Proof.
  induction xs as [|x xs IH]; [simpl; tauto|].
  destruct xs as [|x' xs]; [simpl; tauto|]. cbn [app] in *. cbn [links]. rewrite IH. tauto.
Qed.

(** Links depend on the next of all but the last and the prev of all but the
    first. *)
Lemma links_frame nx pv nx' pv' xs :
  (forall x ys, xs = ys ++ [x] -> forall y, y ∈ ys -> nx' y = nx y) ->
  (forall x ys, xs = x :: ys -> forall y, y ∈ ys -> pv' y = pv y) ->
  links nx pv xs -> links nx' pv' xs.
Proof.
  induction xs as [|x [|y t] IH]; [done..|]. intros Hn Hp (H1 & H2 & H3).
  destruct (exists_last (l := y :: t)) as (ys & z & E); [done|].
  cbn [links]. split; [|split].
  - rewrite (Hn z (x :: ys)); [done|by rewrite E|constructor].
  - rewrite (Hp x (y :: t)); [done..|constructor].
  - apply IH; [| |done].
    + intros x0 ys0 E0 y0 Hy0. apply (Hn x0 (x :: ys0)); [by rewrite E0|by constructor].
    + intros x0 ys0 [= <- <-] y0 Hy0. apply (Hp x (y :: t)); [done|by constructor].
Qed.

Lemma fupd_eq f i v : fupd f i v i = v.
Proof. unfold fupd. by rewrite decide_True. Qed.

Lemma fupd_ne f i v j : j <> i -> fupd f i v j = f j.
Proof. intros. unfold fupd. by rewrite decide_False. Qed.

Lemma app_last_inj {A} (xs ys : list A) (x y : A) : xs ++ [x] = ys ++ [y] -> xs = ys /\ x = y.
Proof. intros H. by apply app_inj_tail in H. Qed.

(** The neighbours of an element of a ring. *)
Lemma ring_neighbours h nx pv l1 b l2 :
  ring h nx pv (l1 ++ b :: l2) ->
  exists xs p q ys, h :: l1 = xs ++ [p] /\ l2 ++ [h] = q :: ys /\
    nx p = b /\ pv b = p /\ nx b = q /\ pv q = b.
Proof.
  intros [_ Hl]. destruct (exists_last (l := h :: l1)) as (xs & p & E1); [done|].
  destruct (l2 ++ [h]) as [|q ys] eqn:E2; [by destruct l2|].
  exists xs, p, q, ys. split; [done|]. split; [done|].
  rewrite <- app_assoc in Hl. cbn [app] in Hl. rewrite E2 in Hl.
  change (h :: l1 ++ b :: q :: ys) with ((h :: l1) ++ b :: q :: ys) in Hl.
  rewrite E1, <- app_assoc in Hl. cbn [app] in Hl.
  apply links_app in Hl as [_ Hl]. cbn [links] in Hl. tauto.
Qed.

(** The elements of a ring around [b], by position. *)
Lemma ring_parts h l1 (b : nat) l2 :
  NoDup (h :: l1 ++ b :: l2) ->
  (h ∉ l1) /\ (h ∉ l2) /\ h <> b /\ (b ∉ l1) /\ (b ∉ l2) /\ NoDup l1 /\ NoDup l2 /\
  (forall x, x ∈ l1 -> x ∉ l2).
Proof.
  intros [Hh Hnd]%NoDup_cons. rewrite elem_of_app, elem_of_cons in Hh.
  apply NoDup_app in Hnd as (Ha & Hb & [Hbl Hc]%NoDup_cons).
  repeat split; auto.
  - intros Hx. apply (Hb b Hx). constructor.
  - intros x Hx Hx2. apply (Hb x Hx). by constructor.
Qed.

Lemma ring_first (h : nat) l1 xs p :
  h :: l1 = xs ++ [p] -> h ∉ l1 -> NoDup l1 -> (p = h \/ p ∈ l1) /\ p ∉ xs.
Proof.
  intros E Hh Hn. assert (Hd : NoDup (xs ++ [p])) by (rewrite <- E; by apply NoDup_cons).
  split.
  - assert (p ∈ h :: l1) by (rewrite E; apply elem_of_app; right; constructor). set_solver.
  - apply NoDup_app in Hd as (_ & Hd & _). intros Hx. apply (Hd p Hx). constructor.
Qed.

Lemma ring_last (h : nat) l2 q ys :
  l2 ++ [h] = q :: ys -> h ∉ l2 -> NoDup l2 -> (q = h \/ q ∈ l2) /\ q ∉ ys.
Proof.
  intros E Hh Hn. assert (Hd : NoDup (q :: ys)).
  { rewrite <- E. apply NoDup_app. split; [done|]. split; [set_solver|apply NoDup_singleton]. }
  split; [|by apply NoDup_cons in Hd as [? _]].
  assert (q ∈ l2 ++ [h]) as [?|?%list_elem_of_singleton]%elem_of_app by (rewrite E; constructor); auto.
Qed.

Lemma ring_unlink h nx pv l1 b l2 :
  ring h nx pv (l1 ++ b :: l2) ->
  ring h (fupd nx (pv b) (nx b)) (fupd pv (nx b) (pv b)) (l1 ++ l2).
Proof.
  intros Hr. destruct (ring_neighbours _ _ _ _ _ _ Hr) as (xs & p & q & ys & E1 & E2 & H1 & H2 & H3 & H4).
  destruct Hr as [Hnd Hl]. rewrite H2, H3.
  apply ring_parts in Hnd as (Hh1 & Hh2 & Hhb & Hb1 & Hb2 & Hn1 & Hn2 & Hdis).
  destruct (ring_first _ _ _ _ E1 Hh1 Hn1) as [Hp Hpx].
  destruct (ring_last _ _ _ _ E2 Hh2 Hn2) as [Hq Hqy].
  split.
  { apply NoDup_cons. rewrite elem_of_app. split; [tauto|]. apply NoDup_app; auto. }
  rewrite <- app_assoc, E2. rewrite <- app_assoc in Hl. cbn [app] in Hl. rewrite E2 in Hl.
  change (h :: l1 ++ q :: ys) with ((h :: l1) ++ q :: ys).
  change (h :: l1 ++ b :: q :: ys) with ((h :: l1) ++ b :: q :: ys) in Hl.
  rewrite E1, <- app_assoc in *. cbn [app] in *.
  apply links_app in Hl as [Hl1 (_ & _ & _ & _ & Hl2)]. apply links_app. split.
  - apply (links_frame nx pv); [| |done].
    + intros x zs [-> ->]%app_last_inj y Hy. apply fupd_ne. by intros ->.
    + intros x zs E y Hy. rewrite <- E1 in E. injection E as <- <-. apply fupd_ne.
      intros ->. destruct Hq as [->|Hq]; [done|]. by apply (Hdis q).
  - rewrite links_cons, !fupd_eq. split; [done|]. split; [done|].
    apply (links_frame nx pv); [| |done].
    + intros x zs E y Hy. rewrite <- E2 in E. apply app_last_inj in E as [<- <-].
      apply fupd_ne. intros ->. destruct Hp as [->|Hp]; [done|]. by apply (Hdis p).
    + intros x zs [= <- <-] y Hy. apply fupd_ne. by intros ->.
Qed.

Lemma ring_insert_head h nx pv b l :
  ring h nx pv l -> b <> h -> b ∉ l ->
  ring h (fupd (fupd nx b (nx h)) h b) (fupd (fupd pv b h) (nx h) b) (b :: l).
Proof.
  intros [Hnd Hl] Hbh Hbl. apply NoDup_cons in Hnd as [Hh Hn]. split.
  { apply NoDup_cons. rewrite elem_of_cons. split; [intros [?|?]; congruence|by apply NoDup_cons]. }
  destruct (l ++ [h]) as [|q ys] eqn:E; [by destruct l|].
  destruct (ring_last _ _ _ _ E Hh Hn) as [Hq Hqy].
  cbn [app]. rewrite E. rewrite !links_cons in *. destruct Hl as (H1 & H2 & Hl). rewrite H1.
  assert (Hbq : b <> q) by (intros ->; destruct Hq; congruence).
  rewrite fupd_eq. split; [done|]. rewrite (fupd_ne _ q) by done. rewrite !fupd_eq. split; [done|].
  rewrite fupd_ne, fupd_eq by done. split; [done|]. split; [done|].
  apply (links_frame nx pv); [| |done].
  - intros x zs E' y Hy. rewrite <- E in E'. apply app_last_inj in E' as [<- <-].
    rewrite !fupd_ne; [done|congruence..].
  - intros x zs [= <- <-] y Hy.
    assert (y ∈ l ++ [h]) as [Hyl|Hyh%list_elem_of_singleton]%elem_of_app by (rewrite E; by constructor);
      rewrite !fupd_ne; congruence.
Qed.

Lemma ring_closed h nx pv l b :
  ring h nx pv l -> b ∈ h :: l -> nx b ∈ h :: l /\ pv b ∈ h :: l.
Proof.
  intros Hr [->|Hb]%elem_of_cons.
  - destruct Hr as [_ Hl]. split.
    + destruct (l ++ [h]) as [|q ys] eqn:E; [by destruct l|].
      destruct Hl as (-> & _). assert (q ∈ l ++ [h]) by (rewrite E; constructor). set_solver.
    + destruct (exists_last (l := h :: l)) as (xs & p & E); [done|].
      change (h :: l ++ [h]) with ((h :: l) ++ [h]) in Hl. rewrite E, <- app_assoc in Hl.
      apply links_app in Hl as [_ (_ & -> & _)]. rewrite E. set_solver.
  - apply list_elem_of_split in Hb as (l1 & l2 & ->).
    destruct (ring_neighbours _ _ _ _ _ _ Hr) as (xs & p & q & ys & E1 & E2 & _ & -> & -> & _).
    assert (p ∈ h :: l1) by (rewrite E1; set_solver).
    assert (q ∈ l2 ++ [h]) by (rewrite E2; set_solver). set_solver.
Qed.
