(* ===== verification/BioSpec.v ===== *)
(** * What the buffer cache promises

    [bstruct] is the structural invariant: the list through prev/next is a
    ring over all the buffers and no two buffers cache the same block.  It
    holds at every point where another thread can run.  [babs] relates the
    cache to the abstract block store its clients reason about. *)

From S2P Require Import Prelude KMonad Sleeplock Bio.
Open Scope kmonad_scope.

(** ** The structural invariant *)

Definition nxs (s : bstate) (i : nat) : nat := b_next (nth_buf i s).
Definition pvs (s : bstate) (i : nat) : nat := b_prev (nth_buf i s).

Definition bring (s : bstate) (l : list nat) : Prop :=
  length (bufs s) = S NBUF /\ ring HEAD (nxs s) (pvs s) l /\ l ≡ₚ seq 0 NBUF.

Definition buniq (s : bstate) : Prop :=
  forall i j, (i < NBUF)%nat -> (j < NBUF)%nat -> b_dev (nth_buf i s) <> 0 ->
    b_dev (nth_buf i s) = b_dev (nth_buf j s) ->
    b_blockno (nth_buf i s) = b_blockno (nth_buf j s) -> i = j.

Definition bstruct (s : bstate) : Prop := (exists l, bring s l) /\ buniq s.

(** ** Access to the array *)

Lemma nth_upd s i j f :
  (i < length (bufs s))%nat ->
  nth_buf j (upd_buf i f s) = if decide (j = i) then f (nth_buf i s) else nth_buf j s.
Proof.
  intros Hi. unfold nth_buf, upd_buf. cbn [bufs]. case_decide as Hd.
  - subst. rewrite !list_lookup_total_alt, list_lookup_alter.
    destruct (lookup_lt_is_Some_2 (bufs s) i Hi) as [x ->]. by rewrite decide_True.
  - rewrite !list_lookup_total_alt, list_lookup_alter_ne by done. done.
Qed.

Lemma length_upd s i f : length (bufs (upd_buf i f s)) = length (bufs s).
Proof. apply length_alter. Qed.

Lemma dsk_upd s i f : dsk (upd_buf i f s) = dsk s.
Proof. done. Qed.

Lemma bring_elem s l i : bring s l -> i ∈ l <-> (i < NBUF)%nat.
Proof. intros (_ & _ & Hp). rewrite Hp, elem_of_seq. lia. Qed.

(** Fields other than the pointers do not matter to the ring. *)
Lemma ring_ext h nx pv nx' pv' l :
  (forall i, nx' i = nx i) -> (forall i, pv' i = pv i) -> ring h nx pv l -> ring h nx' pv' l.
Proof.
  intros Hn Hp [Hd Hl]. split; [done|]. eapply links_frame; [| |exact Hl]; auto.
Qed.

Lemma bring_ext s s' l :
  length (bufs s') = length (bufs s) ->
  (forall i, b_next (nth_buf i s') = b_next (nth_buf i s)) ->
  (forall i, b_prev (nth_buf i s') = b_prev (nth_buf i s)) ->
  bring s l -> bring s' l.
Proof.
  intros Hlen Hn Hp (Hl & Hr & Hperm). split; [congruence|]. split; [|done].
  eapply ring_ext; [exact Hn|exact Hp|done].
Qed.

Lemma bring_upd s l i f :
  (forall b, b_next (f b) = b_next b) -> (forall b, b_prev (f b) = b_prev b) ->
  bring s l -> bring (upd_buf i f s) l.
Proof.
  intros Hn Hp Hb. destruct (decide (i < length (bufs s))%nat) as [Hi|Hi].
  - eapply bring_ext; [apply length_upd| | |exact Hb]; intros j; rewrite nth_upd by done;
      case_decide; subst; auto.
  - replace (upd_buf i f s) with s; [done|]. destruct s. unfold upd_buf. cbn in *. f_equal.
    symmetry. apply list_eq. intros j. rewrite list_lookup_alter. case_decide; [|done]. subst.
    by rewrite lookup_ge_None_2 by lia.
Qed.

(** ** Scanning the list *)

(** The elements in the order in which a loop that follows [f] meets them. *)
Fixpoint chain (f : nat -> nat) (xs : list nat) : Prop :=
  match xs with
  | x :: ((y :: _) as t) => f x = y /\ chain f t
  | _ => True
  end.

Lemma chain_snoc f xs y z : chain f (xs ++ [y]) -> f y = z -> chain f (xs ++ [y; z]).
Proof.
  induction xs as [|x [|x' t] IH]; intros H E; [by split|destruct H as [H1 _]; by repeat split|].
  destruct H as [H1 H2]. split; [done|]. by apply IH.
Qed.

Lemma links_chain nx pv xs : links nx pv xs -> chain nx xs /\ chain pv (reverse xs).
Proof.
  induction xs as [|x [|y t] IH]; [done..|]. intros (H1 & H2 & H3).
  destruct (IH H3) as [Ha Hb]. split; [by split|].
  rewrite !reverse_cons in *. rewrite <- app_assoc. cbn [app]. by apply chain_snoc.
Qed.

Lemma bring_scan s l :
  bring s l ->
  chain (nxs s) (l ++ [HEAD]) /\ nxs s HEAD = hd HEAD l /\
  chain (pvs s) (reverse l ++ [HEAD]) /\ pvs s HEAD = hd HEAD (reverse l).
Proof.
  intros (_ & (_ & Hl) & _). apply links_chain in Hl as [H1 H2].
  cbn [app] in H1. rewrite reverse_cons, reverse_app in H2. cbn in H2.
  assert (Hgo : forall f t, chain f (HEAD :: t ++ [HEAD]) -> chain f (t ++ [HEAD]) /\ f HEAD = hd HEAD t).
  { intros f [|x t]; cbn; [tauto|]. intros [-> H]. done. }
  destruct (Hgo _ _ H1), (Hgo _ _ H2). auto.
Qed.

Lemma chain_next f x t : chain f (x :: t ++ [HEAD]) -> chain f (t ++ [HEAD]) /\ f x = hd HEAD t.
Proof. destruct t; cbn; [tauto|]. by intros [-> ?]. Qed.

Definition caches (dev bn : Z) (b : buf) : Prop := b_dev b = dev /\ b_blockno b = bn.

#[export] Instance caches_dec dev bn b : Decision (caches dev bn b).
Proof. unfold caches. apply _. Defined.

Lemma bget_cached_spec fuel t dev bn e s :
  (length t <= fuel)%nat -> HEAD ∉ t -> chain (nxs s) (t ++ [HEAD]) ->
  exists r, bget_cached fuel (hd HEAD t) dev bn e s = Ok r e s /\
    match r with
    | Some i => i ∈ t /\ caches dev bn (nth_buf i s)
    | None => forall i, i ∈ t -> ~ caches dev bn (nth_buf i s)
    end.
Proof.
  revert t. induction fuel as [|fuel IH]; intros [|x t] Hf Hh Hc; cbn [hd bget_cached].
  1,3: rewrite decide_True by done; exists None; split; [done|]; by intros i ?%not_elem_of_nil.
  { simpl in Hf. lia. }
  rewrite decide_False by set_solver. rewrite bind_eq. unfold getb at 1. kred.
  destruct ((b_dev (nth_buf x s) =? dev) && (b_blockno (nth_buf x s) =? bn)) eqn:Hm.
  - exists (Some x). split; [done|]. apply andb_true_iff in Hm as [?%Z.eqb_eq ?%Z.eqb_eq].
    split; [constructor|by split].
  - apply chain_next in Hc as [Hc Hx]. unfold nxs in Hx at 1. rewrite Hx.
    destruct (IH t) as (r & -> & Hr); [simpl in Hf; lia|set_solver|done|].
    exists r. split; [done|]. destruct r as [i|].
    + destruct Hr. split; [by constructor|done].
    + intros i [->|Hi]%elem_of_cons; [|by apply Hr]. intros [H1%Z.eqb_eq H2%Z.eqb_eq].
      by rewrite H1, H2 in Hm.
Qed.

Lemma bget_unused_spec fuel t e s :
  (length t <= fuel)%nat -> HEAD ∉ t -> chain (pvs s) (t ++ [HEAD]) ->
  exists r, bget_unused fuel (hd HEAD t) e s = Ok r e s /\
    match r with
    | Some i => i ∈ t /\ b_refcnt (nth_buf i s) = 0
    | None => forall i, i ∈ t -> b_refcnt (nth_buf i s) <> 0
    end.
Proof.
  revert t. induction fuel as [|fuel IH]; intros [|x t] Hf Hh Hc; cbn [hd bget_unused].
  1,3: rewrite decide_True by done; exists None; split; [done|]; by intros i ?%not_elem_of_nil.
  { simpl in Hf. lia. }
  rewrite decide_False by set_solver. rewrite bind_eq. unfold getb at 1. kred.
  destruct (Z.eqb_spec (b_refcnt (nth_buf x s)) 0) as [Hz|Hz].
  - exists (Some x). split; [done|]. split; [constructor|done].
  - apply chain_next in Hc as [Hc Hx]. unfold pvs in Hx at 1. rewrite Hx.
    destruct (IH t) as (r & -> & Hr); [simpl in Hf; lia|set_solver|done|].
    exists r. split; [done|]. destruct r as [i|].
    + destruct Hr. split; [by constructor|done].
    + intros i [->|Hi]%elem_of_cons; [done|by apply Hr].
Qed.

(** Both scans over the whole list. *)
Lemma scan_cached s l dev bn e :
  bring s l ->
  exists r, bget_cached NBUF (nxs s HEAD) dev bn e s = Ok r e s /\
    match r with
    | Some i => (i < NBUF)%nat /\ caches dev bn (nth_buf i s)
    | None => forall i, (i < NBUF)%nat -> ~ caches dev bn (nth_buf i s)
    end.
Proof.
  intros Hb. destruct (bring_scan s l Hb) as (Hc & -> & _).
  pose proof Hb as (_ & [Hnd _] & Hp). apply NoDup_cons in Hnd as [Hh _].
  destruct (bget_cached_spec NBUF l dev bn e s) as (r & Hr & Hs); auto.
  { rewrite Hp, length_seq. done. }
  exists r. split; [done|]. destruct r as [i|].
  - by rewrite (bring_elem s l i Hb) in Hs.
  - intros i Hi. apply Hs. by rewrite (bring_elem s l i Hb).
Qed.

Lemma scan_unused s l e :
  bring s l ->
  exists r, bget_unused NBUF (pvs s HEAD) e s = Ok r e s /\
    match r with
    | Some i => (i < NBUF)%nat /\ b_refcnt (nth_buf i s) = 0
    | None => forall i, (i < NBUF)%nat -> b_refcnt (nth_buf i s) <> 0
    end.
Proof.
  intros Hb. destruct (bring_scan s l Hb) as (_ & _ & Hc & ->).
  pose proof Hb as (_ & [Hnd _] & Hp). apply NoDup_cons in Hnd as [Hh _].
  destruct (bget_unused_spec NBUF (reverse l) e s) as (r & Hr & Hs); auto.
  { rewrite length_reverse, Hp, length_seq. done. }
  { by rewrite elem_of_reverse. }
  exists r. split; [done|]. destruct r as [i|].
  - by rewrite elem_of_reverse, (bring_elem s l i Hb) in Hs.
  - intros i Hi. apply Hs. by rewrite elem_of_reverse, (bring_elem s l i Hb).
Qed.

(** ** Moving a buffer to the front *)

Lemma nxs_set_next s i v j :
  (i < length (bufs s))%nat -> nxs (upd_buf i (set_next v) s) j = fupd (nxs s) i v j.
Proof. intros Hi. unfold nxs, fupd. rewrite nth_upd by done. by case_decide. Qed.

Lemma pvs_set_prev s i v j :
  (i < length (bufs s))%nat -> pvs (upd_buf i (set_prev v) s) j = fupd (pvs s) i v j.
Proof. intros Hi. unfold pvs, fupd. rewrite nth_upd by done. by case_decide. Qed.

Lemma nxs_set_prev s i v j : (i < length (bufs s))%nat -> nxs (upd_buf i (set_prev v) s) j = nxs s j.
Proof. intros Hi. unfold nxs. rewrite nth_upd by done. by case_decide as Hd; [subst|]. Qed.

Lemma pvs_set_next s i v j : (i < length (bufs s))%nat -> pvs (upd_buf i (set_next v) s) j = pvs s j.
Proof. intros Hi. unfold pvs. rewrite nth_upd by done. by case_decide as Hd; [subst|]. Qed.

Lemma fupd_ext f g i v j : (forall k, f k = g k) -> fupd f i v j = fupd g i v j.
Proof. intros H. unfold fupd. by case_decide. Qed.

(** [s'] differs from [s] in the list pointers only. *)
Definition relinked (s s' : bstate) : Prop :=
  length (bufs s') = length (bufs s) /\ dsk s' = dsk s /\
  forall i, exists p n, nth_buf i s' = set_next n (set_prev p (nth_buf i s)).

Lemma relinked_refl s : relinked s s.
Proof.
  split; [done|]. split; [done|]. intros i. exists (b_prev (nth_buf i s)), (b_next (nth_buf i s)).
  by destruct (nth_buf i s).
Qed.

Lemma relinked_trans s1 s2 s3 : relinked s1 s2 -> relinked s2 s3 -> relinked s1 s3.
Proof.
  intros (L1 & D1 & H1) (L2 & D2 & H2). split; [congruence|]. split; [congruence|].
  intros i. destruct (H1 i) as (p & n & E1), (H2 i) as (p' & n' & E2). exists p', n'.
  by rewrite E2, E1.
Qed.

Lemma relinked_next s i v : (i < length (bufs s))%nat -> relinked s (upd_buf i (set_next v) s).
Proof.
  intros Hi. split; [apply length_upd|]. split; [done|]. intros j.
  exists (b_prev (nth_buf j s)), (if decide (j = i) then v else b_next (nth_buf j s)).
  rewrite nth_upd by done. case_decide; subst; by destruct (nth_buf _ s).
Qed.

Lemma relinked_prev s i v : (i < length (bufs s))%nat -> relinked s (upd_buf i (set_prev v) s).
Proof.
  intros Hi. split; [apply length_upd|]. split; [done|]. intros j.
  exists (if decide (j = i) then v else b_prev (nth_buf j s)), (b_next (nth_buf j s)).
  rewrite nth_upd by done. case_decide; subst; by destruct (nth_buf _ s).
Qed.

(** The two halves of the move, as updates of the state. *)
Definition unlinked (b : nat) (s : bstate) : bstate :=
  upd_buf (pvs s b) (set_next (nxs s b)) (upd_buf (nxs s b) (set_prev (pvs s b)) s).

Definition pushed (b : nat) (s : bstate) : bstate :=
  upd_buf HEAD (set_next b) (upd_buf (nxs s HEAD) (set_prev b)
    (upd_buf b (set_prev HEAD) (upd_buf b (set_next (nxs s HEAD)) s))).

Lemma ring_bounds s l b :
  length (bufs s) = S NBUF -> ring HEAD (nxs s) (pvs s) l -> Forall (fun i => (i < NBUF)%nat) l ->
  b ∈ HEAD :: l -> (nxs s b < length (bufs s))%nat /\ (pvs s b < length (bufs s))%nat.
Proof.
  intros Hlen Hr Hl Hb.
  assert (Hin : forall i, i ∈ HEAD :: l -> (i < length (bufs s))%nat).
  { intros i [->|Hi]%elem_of_cons; rewrite Hlen; [unfold HEAD; lia|]. rewrite Forall_forall in Hl.
    specialize (Hl i Hi). lia. }
  destruct (ring_closed _ _ _ _ _ Hr Hb). auto.
Qed.

Lemma unlinked_ring s l1 b l2 :
  length (bufs s) = S NBUF -> ring HEAD (nxs s) (pvs s) (l1 ++ b :: l2) ->
  Forall (fun i => (i < NBUF)%nat) (l1 ++ b :: l2) ->
  relinked s (unlinked b s) /\ ring HEAD (nxs (unlinked b s)) (pvs (unlinked b s)) (l1 ++ l2).
Proof.
  intros Hlen Hr Hl. destruct (ring_bounds s _ b Hlen Hr Hl) as [Hn Hp]; [set_solver|].
  unfold unlinked. split.
  - eapply relinked_trans; [|apply relinked_next; by rewrite length_upd]. by apply relinked_prev.
  - eapply ring_ext; [| |by apply ring_unlink]; intros i.
    + rewrite nxs_set_next by (by rewrite length_upd). apply fupd_ext. intros k.
      by apply nxs_set_prev.
    + rewrite pvs_set_next by (by rewrite length_upd). by apply pvs_set_prev.
Qed.

Lemma pushed_ring s l b :
  length (bufs s) = S NBUF -> ring HEAD (nxs s) (pvs s) l -> Forall (fun i => (i < NBUF)%nat) l ->
  (b < NBUF)%nat -> b ∉ l ->
  relinked s (pushed b s) /\ ring HEAD (nxs (pushed b s)) (pvs (pushed b s)) (b :: l).
Proof.
  intros Hlen Hr Hl Hb Hbl. destruct (ring_bounds s _ HEAD Hlen Hr Hl) as [Hn Hp]; [set_solver|].
  assert (Hbs : (b < length (bufs s))%nat) by lia.
  assert (Hhs : (HEAD < length (bufs s))%nat) by (rewrite Hlen; unfold HEAD; lia).
  unfold pushed. split.
  - repeat (eapply relinked_trans; [|first [apply relinked_next | apply relinked_prev]; by rewrite ?length_upd]).
    apply relinked_refl.
  - eapply ring_ext; [| |apply (ring_insert_head HEAD (nxs s) (pvs s) b l); auto]; [intros i..|].
    + rewrite nxs_set_next by (by rewrite !length_upd). apply fupd_ext. intros k.
      rewrite !nxs_set_prev by (by rewrite !length_upd). by apply nxs_set_next.
    + rewrite pvs_set_next by (by rewrite !length_upd).
      rewrite pvs_set_prev by (by rewrite !length_upd). apply fupd_ext. intros k.
      rewrite pvs_set_prev by (by rewrite !length_upd). apply fupd_ext. intros k'.
      by apply pvs_set_next.
    + unfold HEAD in *. lia.
Qed.

Lemma move_front_eq s b e :
  b <> HEAD -> nxs s b <> b -> (b < length (bufs s))%nat -> (HEAD < length (bufs s))%nat ->
  (nxs s b < length (bufs s))%nat ->
  move_front b e s = Ok tt e (pushed b (unlinked b s)).
Proof.
  intros Hbh Hnb Hb Hh Hn. unfold move_front, getb, modb. krun.
  set (s1 := upd_buf (b_next (nth_buf b s)) _ s).
  assert (Hp1 : b_prev (nth_buf b s1) = pvs s b).
  { unfold s1. rewrite nth_upd by done. by rewrite decide_False by (unfold nxs in *; congruence). }
  assert (Hn1 : b_next (nth_buf b s1) = nxs s b).
  { unfold s1. rewrite nth_upd by done. by rewrite decide_False by (unfold nxs in *; congruence). }
  rewrite Hp1, Hn1. set (s2 := upd_buf (pvs s b) _ s1).
  replace (b_next (nth_buf HEAD (upd_buf b (set_prev HEAD) (upd_buf b (set_next (b_next (nth_buf HEAD s2))) s2))))
    with (nxs s2 HEAD); [done|].
  assert (Hb2 : (b < length (bufs s2))%nat) by (unfold s2, s1; by rewrite !length_upd).
  rewrite !nth_upd by (by rewrite ?length_upd). by rewrite !decide_False by done.
Qed.

Lemma move_front_ring s l b e :
  bring s l -> (b < NBUF)%nat ->
  exists s' l', move_front b e s = Ok tt e s' /\ bring s' l' /\ relinked s s'.
Proof.
  intros Hb Hlt. pose proof Hb as (Hlen & Hr & Hperm).
  assert (Hall : Forall (fun i => (i < NBUF)%nat) l)
    by (apply Forall_forall; intros i; by rewrite (bring_elem s l i Hb)).
  assert (Hin : b ∈ l) by by apply (bring_elem s l b Hb).
  apply list_elem_of_split in Hin as (l1 & l2 & ->).
  destruct (unlinked_ring s l1 b l2 Hlen Hr Hall) as [Hrl Hr'].
  pose proof (ring_parts _ _ _ _ (proj1 Hr)) as (Hh1 & Hh2 & Hhb & Hb1 & Hb2 & _).
  destruct (pushed_ring (unlinked b s) (l1 ++ l2) b) as [Hrl2 Hr2]; auto.
  { destruct Hrl as [-> _]. done. }
  { apply Forall_app in Hall as [? [_ ?]%Forall_cons]. by apply Forall_app. }
  { set_solver. }
  exists (pushed b (unlinked b s)), (b :: l1 ++ l2). split; [|split].
  - destruct (ring_bounds s _ b Hlen Hr Hall) as [Hn _]; [set_solver|].
    apply move_front_eq; try (rewrite Hlen; unfold HEAD; lia); try done.
    destruct (ring_neighbours _ _ _ _ _ _ Hr) as (xs & p & q & ys & _ & E2 & _ & _ & -> & _).
    intros ->. assert (b ∈ l2 ++ [HEAD]) by (rewrite E2; constructor). set_solver.
  - split; [|split; [done|]].
    + destruct Hrl2 as [-> _], Hrl as [-> _]. done.
    + rewrite <- Hperm. apply Permutation_middle.
  - by eapply relinked_trans.
Qed.

(** ** The structural invariant is kept, under any interleaving *)

Lemma buniq_ext s s' :
  (forall i, b_dev (nth_buf i s') = b_dev (nth_buf i s) /\
             b_blockno (nth_buf i s') = b_blockno (nth_buf i s)) ->
  buniq s -> buniq s'.
Proof.
  intros H Hu i j Hi Hj. destruct (H i) as [-> ->], (H j) as [-> ->]. by apply Hu.
Qed.

Definition inert (f : buf -> buf) : Prop :=
  forall b, b_next (f b) = b_next b /\ b_prev (f b) = b_prev b /\
            b_dev (f b) = b_dev b /\ b_blockno (f b) = b_blockno b.

Lemma nth_upd_cases s i j f : nth_buf j (upd_buf i f s) = nth_buf j s \/
  j = i /\ nth_buf j (upd_buf i f s) = f (nth_buf j s).
Proof.
  destruct (decide (i < length (bufs s))%nat) as [Hi|Hi].
  - rewrite nth_upd by done. case_decide; [right; by subst|by left].
  - left. unfold nth_buf, upd_buf. cbn [bufs]. rewrite !list_lookup_total_alt.
    rewrite list_lookup_alter. case_decide; [subst|done]. by rewrite lookup_ge_None_2 by lia.
Qed.

Lemma bstruct_upd s i f : inert f -> bstruct s -> bstruct (upd_buf i f s).
Proof.
  intros Hf [[l Hl] Hu]. split.
  - exists l. apply bring_upd; [intros b; apply (Hf b)..|done].
  - eapply buniq_ext; [|exact Hu]. intros j.
    destruct (nth_upd_cases s i j f) as [-> |[_ ->]]; [done|]. split; apply Hf.
Qed.

Lemma bstruct_relinked s s' l : bring s' l -> relinked s s' -> bstruct s -> bstruct s'.
Proof.
  intros Hb (_ & _ & Hr) [_ Hu]. split; [by exists l|]. eapply buniq_ext; [|exact Hu].
  intros i. destruct (Hr i) as (p & n & ->). done.
Qed.

Lemma bstruct_disk s d : bstruct s -> bstruct (mkBstate (bufs s) d).
Proof. done. Qed.

Lemma keeps_modb i f : inert f -> keeps bstruct (modb i f).
Proof. intros Hf. apply keeps_modify. intros s. by apply bstruct_upd. Qed.

Lemma keeps_lock_buf i : keeps bstruct (lock_buf i).
Proof. apply keeps_acquiresleep. intros x s. by apply bstruct_upd. Qed.

Lemma keeps_unlock_buf i : keeps bstruct (unlock_buf i).
Proof. apply keeps_releasesleep. intros x s. by apply bstruct_upd. Qed.

Lemma keeps_holding_buf i : keeps bstruct (holding_buf i).
Proof. apply keeps_holdingsleep. Qed.

Lemma keeps_disk_rw i w : keeps bstruct (disk_rw i w).
Proof.
  unfold disk_rw, getb. apply keeps_bind; [apply keeps_gets|]. intros b. destruct w.
  - by apply keeps_modify.
  - apply keeps_bind; [apply keeps_gets|]. intros d. by apply keeps_modb.
Qed.

Lemma keeps_move_front b : (b < NBUF)%nat -> keeps bstruct (move_front b).
Proof.
  intros Hb e s Hs. pose proof Hs as [[l Hl] _].
  destruct (move_front_ring s l b e Hl Hb) as (s' & l' & -> & Hl' & Hr).
  cbn [rall]. by eapply bstruct_relinked.
Qed.

#[export] Hint Resolve keeps_modb keeps_lock_buf keeps_unlock_buf keeps_holding_buf keeps_disk_rw
  keeps_move_front : keeps.
#[export] Hint Extern 1 (inert _) => (intros ?; repeat split) : keeps.

Ltac kkeeps := repeat first
  [ solve [auto with keeps]
  | apply keeps_bind; [|intros ?]
  | apply keeps_when
  | match goal with |- keeps _ (if ?b then _ else _) => destruct b end ].

(** The buffer [b] given to another block. *)
Definition recycled (b : nat) (dev bn : Z) (s : bstate) : bstate :=
  upd_buf b (set_refcnt 1) (upd_buf b (set_valid false)
    (upd_buf b (set_blockno bn) (upd_buf b (set_dev dev) s))).

Lemma nth_recycled s b dev bn j :
  (b < length (bufs s))%nat ->
  nth_buf j (recycled b dev bn s) =
  if decide (j = b)
  then mkBuf false dev bn (b_lock (nth_buf b s)) 1 (pvs s b) (nxs s b) (b_data (nth_buf b s))
  else nth_buf j s.
Proof.
  intros Hb. unfold recycled. rewrite !nth_upd by (by rewrite ?length_upd).
  by repeat case_decide.
Qed.

Lemma recycled_struct s b dev bn :
  bstruct s -> (b < NBUF)%nat -> (forall i, (i < NBUF)%nat -> ~ caches dev bn (nth_buf i s)) ->
  bstruct (recycled b dev bn s).
Proof.
  intros [[l Hl] Hu] Hb Hno. assert (Hlen : (b < length (bufs s))%nat).
  { destruct Hl as [-> _]. lia. }
  split.
  - exists l. unfold recycled. by repeat (apply bring_upd; [done..|]).
  - intros i j Hi Hj. rewrite !nth_recycled by done. unfold caches in Hno.
    repeat case_decide; subst; cbn [b_dev b_blockno]; try done.
    + intros _ H1 H2. by destruct (Hno j Hj).
    + intros _ H1 H2. by destruct (Hno i Hi).
    + by apply Hu.
Qed.

Lemma bget_struct dev bn : keeps bstruct (bget dev bn).
Proof.
  intros e s Hs. unfold bget. rewrite bind_eq. unfold acquire at 1.
  destruct (holding LkBcache e); [done|]. kred. set (e1 := set_held _ e).
  pose proof Hs as [[l Hl] _]. rewrite bind_eq. unfold getb at 1. kred. rewrite bind_eq.
  destruct (scan_cached s l dev bn e1 Hl) as (r & Hr & Hc). unfold nxs in Hr. rewrite Hr. kred.
  destruct r as [b|].
  - rewrite bind_eq. unfold getb at 1. kred.
    match goal with |- rall _ (?m e1 s) => assert (Hk : keeps bstruct m); [|by apply Hk] end.
    kkeeps.
  - rewrite bind_eq. unfold getb at 1. kred. rewrite bind_eq.
    destruct (scan_unused s l e1 Hl) as (r' & Hr' & Hc'). unfold pvs in Hr'. rewrite Hr'. kred.
    destruct r' as [b|]; [|done].
    unfold modb. do 4 (rewrite bind_eq; kred). fold (recycled b dev bn s).
    match goal with |- rall _ (?m e1 _) => assert (Hk : keeps bstruct m) by kkeeps; apply Hk end.
    apply recycled_struct; [done|tauto|done].
Qed.

(** C3: whatever other threads do in between, as long as they keep it too,
    every operation of the buffer cache keeps the cache's structure at each
    point where it returns or sleeps: the prev/next pointers form one ring
    through all NBUF buffers and no block of a device is cached twice. *)
Theorem bcache_structure_kept dev bn b :
  (b < NBUF)%nat ->
  keeps bstruct (bget dev bn) /\ keeps bstruct (bread dev bn) /\ keeps bstruct (bwrite b) /\
  keeps bstruct (brelse b) /\ keeps bstruct (bpin b) /\ keeps bstruct (bunpin b).
Proof.
  intros Hb. split; [apply bget_struct|].
  split; [unfold bread; apply keeps_bind; [apply bget_struct|intros i; unfold getb; kkeeps]|].
  unfold bwrite, brelse, bpin, bunpin, getb. repeat split; kkeeps.
Qed.

Lemma binit_run d e :
  exists s, binit e (bstate0 d) = Ok tt e s /\ bstruct s /\ bring s (reverse (seq 0 NBUF)) /\ dsk s = d /\
    Forall (fun b => b_dev b = 0 /\ b_refcnt b = 0 /\ b_valid b = false /\ b_lock b = initsleeplock) (bufs s).
Proof.
  eexists. split; [vm_compute; reflexivity|].
  match goal with |- bstruct ?s /\ _ => assert (Hr : bring s (reverse (seq 0 NBUF))) end.
  { split; [done|]. split; [|apply reverse_Permutation]. split; [|by vm_compute].
    apply (bool_decide_unpack (NoDup _)). by vm_compute. }
  split; [split; [by eexists|]|split; [done|split; [done|by repeat constructor]]].
  intros i j Hi Hj Hd. exfalso. apply Hd. unfold nth_buf. cbn [bufs].
  rewrite list_lookup_total_alt.
  match goal with |- b_dev (default _ (?l !! _)) = 0 => assert (HF : Forall (fun b => b_dev b = 0) l) by by repeat constructor end.
  destruct (_ !! i) eqn:E; [|done]. by eapply (Forall_lookup_1 _ _ _ _ HF) in E.
Qed.

(** binit() on the zeroed memory of a booting kernel returns with the
    ring through all the buffers, the last one first, every buffer unlocked,
    unused and caching nothing. *)
Theorem binit_correct d e :
  exists s, binit e (bstate0 d) = Ok tt e s /\ bstruct s /\ bring s (reverse (seq 0 NBUF)) /\
    dsk s = d /\ Forall (fun b => b_refcnt b = 0 /\ b_valid b = false /\ b_lock b = initsleeplock) (bufs s).
Proof.
  destruct (binit_run d e) as (s & H1 & H2 & H3 & H4 & H5). exists s. repeat (split; [done|]).
  eapply Forall_impl; [exact H5|]. by intros b (_ & Hb).
Qed.

Lemma bcache_structure_kept_witness : keeps bstruct (brelse 7).
Proof. apply (bcache_structure_kept 1 33 7). unfold NBUF. lia. Defined.
