(* ===== verification/BioAbs.v ===== *)
(** * The block store the buffer cache implements

    A thread that uses the cache alone sees an abstract store: the contents
    of every block as bread() returns it, the disk below, the buffers it
    holds locked and the blocks it has pinned.  The class [BlockCache] is the
    interface the log is verified against; the code of bio.c discharges it at
    the end of the file. *)

From S2P Require Import Prelude KMonad Sleeplock Bio BioSpec.
Open Scope kmonad_scope.

(** ** The abstract store *)

Record cabs : Type := mkCabs {
  ca_view : Z -> list Z;
  ca_disk : disk;
  ca_held : gmap nat Z;        (* locked buffer -> its block *)
  ca_pins : Z -> nat
}.

Definition hold (i : nat) (bn : Z) (a : cabs) : cabs :=
  mkCabs (ca_view a) (ca_disk a) (<[i := bn]> (ca_held a)) (ca_pins a).
Definition unhold (i : nat) (a : cabs) : cabs :=
  mkCabs (ca_view a) (ca_disk a) (delete i (ca_held a)) (ca_pins a).
Definition set_view (bn : Z) (d : list Z) (a : cabs) : cabs :=
  mkCabs (fun x => if decide (x = bn) then d else ca_view a x) (ca_disk a) (ca_held a) (ca_pins a).
Definition flush (bn : Z) (a : cabs) : cabs :=
  mkCabs (ca_view a) (disk_write bn (ca_view a bn) (ca_disk a)) (ca_held a) (ca_pins a).
Definition set_pins (bn : Z) (n : nat) (a : cabs) : cabs :=
  mkCabs (ca_view a) (ca_disk a) (ca_held a) (fun x => if decide (x = bn) then n else ca_pins a x).

(** Stores are compared block by block. *)
#[export] Instance cabs_equiv : Equiv cabs := fun a a' =>
  (forall bn, ca_view a bn = ca_view a' bn) /\ ca_disk a = ca_disk a' /\ ca_held a = ca_held a' /\
  (forall bn, ca_pins a bn = ca_pins a' bn).

#[export] Instance cabs_equivalence : Equivalence (≡@{cabs}).
Proof.
  split.
  - by intros a.
  - intros a a' (H1 & H2 & H3 & H4). by repeat split.
  - intros a1 a2 a3 (H1 & H2 & H3 & H4) (K1 & K2 & K3 & K4).
    repeat split; try congruence; intros bn; by rewrite ?H1, ?H4.
Qed.

(** The blocks held or pinned leave a buffer free. *)
Definition room (a : cabs) : Prop :=
  exists B : gset Z, (forall i bn, ca_held a !! i = Some bn -> bn ∈ B) /\
    (forall bn, ca_pins a bn <> 0%nat -> bn ∈ B) /\ (size B < NBUF)%nat.

(** The spinlocks the cache takes are free. *)
Definition bio_free (e : env) : Prop := (LkBcache ∉ e_held e) /\ forall i, LkBuf i ∉ e_held e.

(** ** The representation relation *)

Definition bufok (dev pid : Z) (a : cabs) (i : nat) (b : buf) : Prop :=
  (b_dev b = dev \/ b_dev b = 0 /\ b_refcnt b = 0) /\
  match ca_held a !! i with
  | Some bn => b_lock b = mkSleeplock true pid /\ caches dev bn b /\ b_valid b = true
  | None => sl_locked (b_lock b) = false
  end /\
  (b_dev b = dev ->
     b_refcnt b = Z.of_nat (ca_pins a (b_blockno b)) + b2z (bool_decide (is_Some (ca_held a !! i)))) /\
  (b_dev b = dev -> b_valid b = true ->
     b_data b = ca_view a (b_blockno b) /\
     (ca_pins a (b_blockno b) = 0%nat -> ca_held a !! i = None ->
        ca_view a (b_blockno b) = disk_read (ca_disk a) (b_blockno b))).

Record babs (dev pid : Z) (s : bstate) (a : cabs) : Prop := {
  ab_struct : bstruct s;
  ab_disk : dsk s = ca_disk a;
  ab_bufs : forall i, (i < NBUF)%nat -> bufok dev pid a i (nth_buf i s);
  ab_held : forall i bn, ca_held a !! i = Some bn -> (i < NBUF)%nat;
  ab_pins : forall bn, ca_pins a bn <> 0%nat -> exists i, (i < NBUF)%nat /\
              caches dev bn (nth_buf i s) /\ b_valid (nth_buf i s) = true;
  ab_small : forall bn, Z.of_nat (ca_pins a bn) < 2 ^ 31;
  ab_view : forall bn,
    (forall i, (i < NBUF)%nat -> caches dev bn (nth_buf i s) -> b_valid (nth_buf i s) = false) ->
    ca_view a bn = disk_read (ca_disk a) bn
}.

#[export] Instance bufok_proper dev pid :
  Proper ((≡) ==> (=) ==> (=) ==> iff) (bufok dev pid).
Proof.
  intros a a' (H1 & H2 & H3 & H4) i ? <- b ? <-. unfold bufok. by rewrite H3, !H4, !H1, H2.
Qed.

#[export] Instance babs_proper dev pid s : Proper ((≡) ==> iff) (babs dev pid s).
Proof.
  assert (Hgo : forall a a', a ≡ a' -> babs dev pid s a -> babs dev pid s a').
  { intros a a' Ha Hb. pose proof Ha as (H1 & H2 & H3 & H4). split.
    - apply Hb.
    - rewrite <- H2. apply Hb.
    - intros i Hi. rewrite <- Ha. by apply Hb.
    - rewrite <- H3. apply Hb.
    - intros bn. rewrite <- H4. apply Hb.
    - intros bn. rewrite <- H4. apply Hb.
    - intros bn. rewrite <- H1, <- H2. apply Hb. }
  intros a a' Ha. split; apply Hgo; [done|by symmetry].
Qed.

Section bioabs.
Variables (dev : Z) (e : env).
Hypothesis Hdev : dev <> 0.
Hypothesis Hfree : bio_free e.
Abbreviation rep := (babs dev (e_pid e)).

Lemma bufs_len s a : rep s a -> length (bufs s) = S NBUF.
Proof. intros H. destruct (ab_struct _ _ _ _ H) as [[l [Hl _]] _]. done. Qed.

(** Two buffers never cache the same block. *)
Lemma rep_uniq s a i j bn :
  rep s a -> (i < NBUF)%nat -> (j < NBUF)%nat ->
  caches dev bn (nth_buf i s) -> caches dev bn (nth_buf j s) -> i = j.
Proof.
  intros H Hi Hj [H1 H2] [H3 H4]. destruct (ab_struct _ _ _ _ H) as [_ Hu].
  apply (Hu i j); auto; congruence.
Qed.

(** The locks of the cache as its routines use them. *)
Lemma upd_upd i f g s : upd_buf i f (upd_buf i g s) = upd_buf i (fun b => f (g b)) s.
Proof.
  unfold upd_buf. cbn [bufs dsk]. f_equal. apply list_eq. intros j.
  rewrite !list_lookup_alter. case_decide; [subst|done]. rewrite decide_True by done. by destruct (bufs s !! j).
Qed.

Lemma lock_lens i s : (i < length (bufs s))%nat -> lens_at (buf_lock i) (put_lock i) s.
Proof.
  intros Hi. split; unfold buf_lock, put_lock.
  - intros x. rewrite nth_upd by done. by rewrite decide_True.
  - intros x y. by rewrite upd_upd.
Qed.

Lemma lock_buf_eq i s :
  (i < length (bufs s))%nat -> sl_locked (b_lock (nth_buf i s)) = false ->
  lock_buf i e s = Ok tt e (upd_buf i (set_lock (mkSleeplock true (e_pid e))) s).
Proof. intros Hi Hl. apply acquiresleep_free; [by apply lock_lens|apply Hfree|done]. Qed.

Lemma unlock_buf_eq i s :
  (i < length (bufs s))%nat ->
  unlock_buf i e s = Ok tt (add_woken [ChBufLock i] e) (upd_buf i (set_lock initsleeplock) s).
Proof. intros Hi. apply releasesleep_eq; [by apply lock_lens|apply Hfree]. Qed.

Lemma holding_buf_eq i s :
  holding_buf i e s = Ok (sl_locked (b_lock (nth_buf i s)) && (sl_pid (b_lock (nth_buf i s)) =? e_pid e)) e s.
Proof. apply (holdingsleep_eq (LkBuf i) (buf_lock i)). apply Hfree. Qed.

(** ** bget *)

(** The cached branch: one more reference, and the lock. *)
Lemma bget_hit s i bn :
  bstruct s -> (i < NBUF)%nat -> caches dev bn (nth_buf i s) ->
  sl_locked (b_lock (nth_buf i s)) = false ->
  bget dev bn e s =
  Ok i e (upd_buf i (fun b => set_lock (mkSleeplock true (e_pid e)) (set_refcnt (u32 (b_refcnt (nth_buf i s) + 1)) b)) s).
Proof.
  intros [[l Hl] Hu] Hi Hc Hlk. pose proof Hl as [Hlen _]. unfold bget.
  rewrite bind_eq, acquire_eq by apply Hfree. kred. unfold getb. rewrite bind_eq. kred. rewrite bind_eq.
  destruct (scan_cached s l dev bn (set_held (LkBcache :: e_held e) e) Hl) as (r & Hr & Hs).
  unfold nxs in Hr. rewrite Hr. kred. destruct r as [j|]; [|by exfalso; apply (Hs i Hi)].
  assert (j = i) as ->.
  { destruct Hs as [Hj [H1 H2]], Hc as [H3 H4]. apply Hu; auto; congruence. }
  unfold modb. do 2 (rewrite bind_eq; kred). rewrite bind_eq, release_eq. kred.
  rewrite bind_eq, lock_buf_eq.
  - kred. by rewrite upd_upd.
  - rewrite length_upd. lia.
  - rewrite nth_upd by lia. by rewrite decide_True.
Qed.

(** The other branch: an unused buffer is recycled. *)
Lemma bget_miss s bn :
  bstruct s -> (forall i, (i < NBUF)%nat -> ~ caches dev bn (nth_buf i s)) ->
  (exists i, (i < NBUF)%nat /\ b_refcnt (nth_buf i s) = 0) ->
  (forall i, (i < NBUF)%nat -> b_refcnt (nth_buf i s) = 0 -> sl_locked (b_lock (nth_buf i s)) = false) ->
  exists i, (i < NBUF)%nat /\ b_refcnt (nth_buf i s) = 0 /\
    bget dev bn e s = Ok i e (upd_buf i (set_lock (mkSleeplock true (e_pid e))) (recycled i dev bn s)).
Proof.
  intros [[l Hl] Hu] Hno (i0 & Hi0 & Hz0) Hlk. pose proof Hl as [Hlen _]. unfold bget.
  rewrite bind_eq, acquire_eq by apply Hfree. kred. unfold getb. rewrite bind_eq. kred. rewrite bind_eq.
  destruct (scan_cached s l dev bn (set_held (LkBcache :: e_held e) e) Hl) as (r & Hr & Hs).
  unfold nxs in Hr. rewrite Hr. kred. destruct r as [j|].
  { destruct Hs as [Hj Hc]. by apply Hno in Hc. }
  rewrite bind_eq. kred. rewrite bind_eq.
  destruct (scan_unused s l (set_held (LkBcache :: e_held e) e) Hl) as (r & Hr' & Hs').
  unfold pvs in Hr'. rewrite Hr'. kred. destruct r as [i|]; [|by apply Hs' in Hz0].
  destruct Hs' as [Hi Hz]. exists i. split; [done|]. split; [done|].
  unfold modb. do 4 (rewrite bind_eq; kred). fold (recycled i dev bn s).
  rewrite bind_eq, release_eq. kred. rewrite bind_eq, lock_buf_eq; [done| |].
  - unfold recycled. rewrite !length_upd. lia.
  - rewrite nth_recycled by lia. rewrite decide_True by done. cbn [b_lock]. by apply Hlk.
Qed.

(** ** bread *)

(** A buffer is free when held and pinned blocks leave room. *)
Lemma room_unused s a :
  rep s a -> room a -> exists i, (i < NBUF)%nat /\ b_refcnt (nth_buf i s) = 0.
Proof.
  intros Hrep (B & HB1 & HB2 & Hsz).
  destruct (decide (Exists (fun i => b_refcnt (nth_buf i s) = 0) (seq 0 NBUF))) as [He|He].
  { apply Exists_exists in He as (i & Hi & Hz). exists i. split; [|done].
    apply elem_of_seq in Hi. lia. }
  exfalso. apply not_Exists_Forall in He; [|intros i; apply _]. rewrite Forall_forall in He.
  set (f := fun i => b_blockno (nth_buf i s)).
  assert (Hbusy : forall i, (i < NBUF)%nat -> b_dev (nth_buf i s) = dev /\ f i ∈ B).
  { intros i Hi. assert (Hnz : b_refcnt (nth_buf i s) <> 0) by (apply He, elem_of_seq; lia).
    destruct (ab_bufs _ _ _ _ Hrep i Hi) as ([Hd|[_ Hd]] & Hh & Hr & _); [|done].
    split; [done|]. specialize (Hr Hd). destruct (ca_held a !! i) as [bn|] eqn:E.
    - destruct Hh as (_ & [_ Hc] & _). unfold f. rewrite Hc. by eapply HB1.
    - apply HB2. intros Hz. unfold f in Hz. rewrite Hz, bool_decide_false in Hr by (by intros [? ?]). done. }
  assert (Hnd : NoDup (f <$> seq 0 NBUF)).
  { apply NoDup_fmap_2_strong; [|apply NoDup_seq]. intros x y Hx Hy Hxy.
    apply elem_of_seq in Hx, Hy.
    apply (rep_uniq s a x y (f x)); auto; try lia; split; try (apply Hbusy; lia); done. }
  assert (Hsub : list_to_set (f <$> seq 0 NBUF) ⊆ B).
  { intros b Hb. apply elem_of_list_to_set, list_elem_of_fmap in Hb as (i & -> & Hi).
    apply elem_of_seq in Hi. apply Hbusy. lia. }
  apply subseteq_size in Hsub. rewrite size_list_to_set, length_fmap, length_seq in Hsub by done. lia.
Qed.

Record bread_post (s : bstate) (a : cabs) (bn : Z) (i : nat) (s' : bstate) : Prop := {
  bp_lt : (i < NBUF)%nat;
  bp_free : ca_held a !! i = None;
  bp_struct : bstruct s';
  bp_disk : dsk s' = dsk s;
  bp_buf : exists p n, nth_buf i s' =
    mkBuf true dev bn (mkSleeplock true (e_pid e)) (Z.of_nat (ca_pins a bn) + 1) p n (ca_view a bn);
  bp_other : forall j, j <> i -> nth_buf j s' = nth_buf j s;
  bp_old : caches dev bn (nth_buf i s) \/
    b_refcnt (nth_buf i s) = 0 /\ forall j, (j < NBUF)%nat -> ~ caches dev bn (nth_buf j s)
}.

Lemma bread_struct bn s i s' : bstruct s -> bread dev bn e s = Ok i e s' -> bstruct s'.
Proof.
  intros Hs Hr. assert (Hk : keeps bstruct (bread dev bn)).
  { unfold bread, getb. apply keeps_bind; [apply bget_struct|intros j]. kkeeps. }
  specialize (Hk e s Hs). by rewrite Hr in Hk.
Qed.

Lemma cached_dec s bn :
  {i | (i < NBUF)%nat /\ caches dev bn (nth_buf i s)} +
  {forall i, (i < NBUF)%nat -> ~ caches dev bn (nth_buf i s)}.
Proof.
  destruct (list_find (fun i => caches dev bn (nth_buf i s)) (seq 0 NBUF)) as [[k i]|] eqn:E.
  - left. exists i. apply list_find_Some in E as (H & Hc & _).
    apply list_elem_of_lookup_2, elem_of_seq in H. split; [lia|done].
  - right. intros i Hi. apply list_find_None in E. rewrite Forall_forall in E.
    apply E, elem_of_seq. lia.
Qed.

(** What follows bget() in bread(). *)
Lemma bread_fill i s v bn lk rc p n d :
  (i < length (bufs s))%nat -> nth_buf i s = mkBuf v dev bn lk rc p n d ->
  exists s', (x <- getb i ;;
     (when negb (b_valid x) do (disk_rw i false ;;; modb i (set_valid true))) ;;; ret i) e s = Ok i e s' /\
    dsk s' = dsk s /\ (forall j, j <> i -> nth_buf j s' = nth_buf j s) /\
    nth_buf i s' = mkBuf true dev bn lk rc p n (if v then d else disk_read (dsk s) bn).
Proof.
  intros Hi Hb. unfold getb, modb. rewrite bind_eq. kred. rewrite Hb. cbn [b_valid].
  destruct v; cbn [negb].
  - exists s. split; [done|]. split; [done|]. split; [done|]. done.
  - unfold disk_rw, getb, modb. rewrite bind_eq, bind_eq, bind_eq. kred. rewrite bind_eq. kred.
    rewrite Hb. cbn [b_blockno]. eexists. split; [done|]. split; [done|]. split.
    + intros j Hj. rewrite !nth_upd by (by rewrite ?length_upd). by rewrite !decide_False.
    + rewrite !nth_upd by (by rewrite ?length_upd). rewrite !decide_True by done. by rewrite Hb.
Qed.

Lemma bread_hit s a bn i :
  rep s a -> (forall j, ca_held a !! j <> Some bn) -> (i < NBUF)%nat -> caches dev bn (nth_buf i s) ->
  exists s', bread dev bn e s = Ok i e s' /\ bread_post s a bn i s'.
Proof.
  intros Hrep Hnh Hi Hc. pose proof (bufs_len s a Hrep) as Hlen.
  destruct (ab_bufs _ _ _ _ Hrep i Hi) as (Hd & Hl & Hr & Hv).
  assert (Hfi : ca_held a !! i = None).
  { destruct (ca_held a !! i) as [bn'|] eqn:E; [|done]. destruct Hl as (_ & [_ H1] & _), Hc as [_ H2].
    by destruct (Hnh i); congruence. }
  rewrite Hfi in Hl, Hr. rewrite bool_decide_false in Hr by (by intros [? ?]). cbn in Hr.
  destruct Hc as [Hcd Hcb]. rewrite Hcb in *. specialize (Hr Hcd). pose proof (ab_small _ _ _ _ Hrep bn).
  assert (Hget := bget_hit s i bn (ab_struct _ _ _ _ Hrep) Hi (conj Hcd Hcb) Hl).
  set (s1 := upd_buf i _ s) in Hget.
  assert (Hs1 : nth_buf i s1 = mkBuf (b_valid (nth_buf i s)) dev bn (mkSleeplock true (e_pid e))
                  (Z.of_nat (ca_pins a bn) + 1) (pvs s i) (nxs s i) (b_data (nth_buf i s))).
  { unfold s1. rewrite nth_upd, decide_True by (done || lia). unfold set_lock, set_refcnt.
    cbn [b_valid b_dev b_blockno b_data b_prev b_next b_refcnt b_lock].
    rewrite Hcd, Hcb, Hr, u32_small by lia. f_equal. lia. }
  destruct (bread_fill i s1 _ _ _ _ _ _ _ ltac:(unfold s1; rewrite length_upd; lia) Hs1)
    as (s' & Hrun & Hdk & Ho & Hb).
  assert (Hrd : bread dev bn e s = Ok i e s') by (unfold bread; by rewrite bind_eq, Hget).
  exists s'. split; [done|]. split; auto.
  - by eapply bread_struct; [apply Hrep|].
  - do 2 eexists. rewrite Hb. f_equal. destruct (b_valid (nth_buf i s)) eqn:Ev.
    + by apply Hv.
    + symmetry. unfold s1. rewrite dsk_upd, (ab_disk _ _ _ _ Hrep). apply (ab_view _ _ _ _ Hrep).
      intros j Hj Hcj. by rewrite (rep_uniq s a j i bn Hrep Hj Hi Hcj (conj Hcd Hcb)).
  - intros j Hj. rewrite Ho by done. unfold s1. rewrite nth_upd by lia. by rewrite decide_False.
  - left. by split.
Qed.

Lemma unused_unlocked s a i :
  rep s a -> (i < NBUF)%nat -> b_refcnt (nth_buf i s) = 0 ->
  ca_held a !! i = None /\ sl_locked (b_lock (nth_buf i s)) = false.
Proof.
  intros Hrep Hi Hz. destruct (ab_bufs _ _ _ _ Hrep i Hi) as (Hd & Hl & Hr & Hv).
  destruct (ca_held a !! i) as [bn'|] eqn:E; [|done].
  destruct Hl as (_ & [Hcd _] & _). specialize (Hr Hcd).
  rewrite bool_decide_true in Hr by (by eexists). cbn in Hr. lia.
Qed.

Lemma bread_miss s a bn :
  rep s a -> room a -> (forall i, (i < NBUF)%nat -> ~ caches dev bn (nth_buf i s)) ->
  exists i s', bread dev bn e s = Ok i e s' /\ bread_post s a bn i s'.
Proof.
  intros Hrep Hroom Hno. pose proof (bufs_len s a Hrep) as Hlen.
  destruct (bget_miss s bn (ab_struct _ _ _ _ Hrep) Hno) as (i & Hi & Hz & Hget).
  { by eapply room_unused. }
  { intros j Hj Hz. by eapply unused_unlocked. }
  destruct (unused_unlocked s a i Hrep Hi Hz) as [Hfi _].
  assert (Hpn : ca_pins a bn = 0%nat).
  { destruct (decide (ca_pins a bn = 0%nat)) as [|Hn]; [done|].
    destruct (ab_pins _ _ _ _ Hrep bn Hn) as (j & Hj & Hcj & _). by apply Hno in Hcj. }
  set (s1 := upd_buf i _ _) in Hget.
  assert (Hl1 : (i < length (bufs (recycled i dev bn s)))%nat)
    by (unfold recycled; rewrite !length_upd; lia).
  assert (Hs1 : nth_buf i s1 = mkBuf false dev bn (mkSleeplock true (e_pid e))
                  (Z.of_nat (ca_pins a bn) + 1) (pvs s i) (nxs s i) (b_data (nth_buf i s))).
  { unfold s1. rewrite nth_upd, decide_True by done. rewrite nth_recycled, decide_True by (done || lia).
    by rewrite Hpn. }
  destruct (bread_fill i s1 _ _ _ _ _ _ _ ltac:(unfold s1; by rewrite length_upd) Hs1)
    as (s' & Hrun & Hdk & Ho & Hb).
  assert (Hrd : bread dev bn e s = Ok i e s') by (unfold bread; by rewrite bind_eq, Hget).
  exists i, s'. split; [done|]. split; auto.
  - by eapply bread_struct; [apply Hrep|].
  - do 2 eexists. rewrite Hb. f_equal. symmetry. unfold s1. rewrite dsk_upd.
    change (dsk (recycled i dev bn s)) with (dsk s). rewrite (ab_disk _ _ _ _ Hrep).
    apply (ab_view _ _ _ _ Hrep). intros j Hj Hcj. by apply Hno in Hcj.
  - intros j Hj. rewrite Ho by done. unfold s1. rewrite nth_upd, decide_False by done.
    rewrite nth_recycled by lia. by rewrite decide_False.
Qed.

Lemma bread_run s a bn :
  rep s a -> (forall i, ca_held a !! i <> Some bn) -> room a ->
  exists i s', bread dev bn e s = Ok i e s' /\ bread_post s a bn i s'.
Proof.
  intros Hrep Hnh Hroom. destruct (cached_dec s bn) as [(i & Hi & Hc)|Hno].
  - exists i. by apply bread_hit.
  - by apply bread_miss.
Qed.

(** The result represents the store with the block held. *)
Lemma bread_rep s a bn i s' :
  rep s a -> (forall j, ca_held a !! j <> Some bn) -> bread_post s a bn i s' -> rep s' (hold i bn a).
Proof.
  intros Hrep Hnh [Hi Hfi Hst Hdk (p & n & Hb) Ho Hold].
  assert (Hc : caches dev bn (nth_buf i s')) by (rewrite Hb; by split).
  split; cbn [hold ca_view ca_disk ca_held ca_pins].
  - done.
  - by rewrite Hdk, (ab_disk _ _ _ _ Hrep).
  - intros j Hj. destruct (decide (j = i)) as [->|Hne].
    + rewrite Hb. split; [by left|]. cbn [ca_held hold]. rewrite lookup_insert_eq.
      split; [by repeat split|]. split; [intros _; by rewrite bool_decide_true by (by eexists)|].
      by intros _ _.
    + rewrite Ho by done. pose proof (ab_bufs _ _ _ _ Hrep j Hj) as H. unfold bufok in *.
      cbn [hold ca_view ca_disk ca_held ca_pins]. by rewrite lookup_insert_ne by done.
  - intros j bn'. rewrite lookup_insert. case_decide; [by subst|]. by apply (ab_held _ _ _ _ Hrep).
  - intros bn' Hn. destruct (ab_pins _ _ _ _ Hrep bn' Hn) as (j & Hj & Hcj & Hvj).
    destruct (decide (j = i)) as [->|Hne]; [|exists j; by rewrite Ho].
    destruct Hold as [[H1 H2]|[Hz Hno]].
    + exists i. destruct Hcj as [_ <-]. rewrite Hb. by split; [|rewrite H2].
    + destruct (ab_bufs _ _ _ _ Hrep i Hi) as (_ & _ & Hr & _). destruct Hcj as [H1 H2].
      specialize (Hr H1). rewrite H2 in Hr. unfold b2z in Hr. case_match; lia.
  - apply Hrep.
  - intros bn' Hall. destruct (decide (bn' = bn)) as [->|Hne].
    { specialize (Hall i Hi Hc). by rewrite Hb in Hall. }
    destruct (decide (caches dev bn' (nth_buf i s) /\ b_valid (nth_buf i s) = true)) as [[Hco Hvo]|Hnc].
    + destruct Hold as [[H1 H2]|[Hz Hno]]; [destruct Hco; congruence|].
      destruct (ab_bufs _ _ _ _ Hrep i Hi) as (_ & _ & Hr & Hv). destruct Hco as [H1 H2].
      specialize (Hr H1). destruct (Hv H1 Hvo) as [_ Hcl]. rewrite H2 in *. apply Hcl; [|done].
      rewrite Hz in Hr. unfold b2z in Hr. case_match; lia.
    + apply (ab_view _ _ _ _ Hrep). intros j Hj Hcj. destruct (decide (j = i)) as [->|Hji].
      * destruct (b_valid (nth_buf i s)); [|done]. exfalso. by apply Hnc.
      * rewrite <- (Ho j Hji) in *. by apply Hall.
Qed.

(** ** The operations on a held buffer *)

Lemma held_buf s a i bn :
  rep s a -> ca_held a !! i = Some bn ->
  (i < NBUF)%nat /\ (i < length (bufs s))%nat /\ caches dev bn (nth_buf i s) /\
  b_valid (nth_buf i s) = true /\ b_lock (nth_buf i s) = mkSleeplock true (e_pid e) /\
  b_refcnt (nth_buf i s) = Z.of_nat (ca_pins a bn) + 1 /\ b_data (nth_buf i s) = ca_view a bn.
Proof.
  intros Hrep Hh. pose proof (ab_held _ _ _ _ Hrep i bn Hh) as Hi.
  destruct (ab_bufs _ _ _ _ Hrep i Hi) as (_ & Hl & Hr & Hv). rewrite Hh in Hl, Hr, Hv.
  destruct Hl as (Hlk & [Hd Hb] & Hval). specialize (Hr Hd). destruct (Hv Hd Hval) as [Hdat _].
  rewrite Hb, bool_decide_true in Hr by (by eexists). rewrite Hb in Hdat.
  repeat split; auto. rewrite (bufs_len s a Hrep). lia.
Qed.

(** Two handles on the same block are the same. *)
Lemma held_inj s a i j bn :
  rep s a -> ca_held a !! i = Some bn -> ca_held a !! j = Some bn -> i = j.
Proof.
  intros Hrep Hi Hj. destruct (held_buf s a i bn Hrep Hi) as (Hi1 & _ & Hi2 & _).
  destruct (held_buf s a j bn Hrep Hj) as (Hj1 & _ & Hj2 & _). by apply (rep_uniq s a i j bn).
Qed.

(** An update of one held buffer and of what is known of its block. *)
Lemma held_update s a i bn f a' :
  rep s a -> ca_held a !! i = Some bn -> inert f ->
  ca_disk a' = ca_disk a -> (forall bn', bn' <> bn -> ca_view a' bn' = ca_view a bn' /\ ca_pins a' bn' = ca_pins a bn') ->
  (forall j, j <> i -> ca_held a' !! j = ca_held a !! j) -> (forall bn', Z.of_nat (ca_pins a' bn') < 2 ^ 31) ->
  b_valid (f (nth_buf i s)) = true -> bufok dev (e_pid e) a' i (f (nth_buf i s)) ->
  rep (upd_buf i f s) a'.
Proof.
  intros Hrep Hh Hf Hdk Hview Hheld Hsm Hval Hok.
  destruct (held_buf s a i bn Hrep Hh) as (Hi & Hlen & [Hcd Hcb] & Hv & _).
  assert (Hoth : forall j, (j < NBUF)%nat -> j <> i -> b_dev (nth_buf j s) = dev -> b_blockno (nth_buf j s) <> bn).
  { intros j Hj Hne Hd Hb. apply Hne. by apply (rep_uniq s a j i bn Hrep Hj Hi). }
  destruct (Hf (nth_buf i s)) as (_ & _ & Hfd & Hfb).
  split.
  - by apply bstruct_upd; [|apply Hrep].
  - rewrite Hdk. apply Hrep.
  - intros j Hj. rewrite nth_upd by done. case_decide as Hd; [by subst|].
    destruct (ab_bufs _ _ _ _ Hrep j Hj) as (H1 & H2 & H3 & H4). unfold bufok.
    rewrite Hheld, Hdk by done.
    split; [done|]. split; [done|]. split.
    + intros Hjd. destruct (Hview _ (Hoth j Hj Hd Hjd)) as [_ ->]. auto.
    + intros Hjd. destruct (Hview _ (Hoth j Hj Hd Hjd)) as [-> ->]. auto.
  - intros j bn'. destruct (decide (j = i)) as [->|Hne]; [done|]. rewrite Hheld by done. apply Hrep.
  - intros bn' Hn. destruct (decide (bn' = bn)) as [->|Hne].
    + exists i. rewrite nth_upd, decide_True by done. split; [done|]. split; [|done].
      split; congruence.
    + destruct (Hview bn' Hne) as [_ Hp]. rewrite Hp in Hn.
      destruct (ab_pins _ _ _ _ Hrep bn' Hn) as (j & Hj & [Hjd Hjb] & Hjv). exists j.
      rewrite nth_upd, decide_False; [done| |done]. intros ->. congruence.
  - done.
  - intros bn' Hall. rewrite Hdk. destruct (decide (bn' = bn)) as [->|Hne].
    + specialize (Hall i Hi). rewrite nth_upd, decide_True in Hall by done. exfalso.
      rewrite Hval in Hall. discriminate Hall. split; congruence.
    + destruct (Hview bn' Hne) as [-> _]. apply (ab_view _ _ _ _ Hrep). intros j Hj Hc.
      destruct (decide (j = i)) as [->|Hji]; [destruct Hc; congruence|].
      specialize (Hall j Hj). rewrite nth_upd, decide_False in Hall by done. auto.
Qed.

Lemma set_data_rep s a i bn d :
  rep s a -> ca_held a !! i = Some bn -> rep (upd_buf i (set_data d) s) (set_view bn d a).
Proof.
  intros Hrep Hh. destruct (held_buf s a i bn Hrep Hh) as (Hi & Hlen & [Hcd Hcb] & Hv & Hlk & Hrc & _).
  apply (held_update s a i bn); auto; cbn [set_view ca_view ca_pins ca_held ca_disk].
  - by intros b.
  - intros bn' Hne. by rewrite decide_False.
  - apply Hrep.
  - split; [by left|]. cbn [set_view ca_held ca_view ca_pins ca_disk]. rewrite Hh. split; [by repeat split|]. split.
    + intros _. cbn [set_data b_refcnt b_blockno]. rewrite Hcb, Hrc. by rewrite bool_decide_true by (by eexists).
    + intros _ _. cbn [set_data b_data b_blockno]. rewrite Hcb, decide_True by done. done.
Qed.

Lemma set_pins_rep s a i bn k :
  rep s a -> ca_held a !! i = Some bn -> Z.of_nat k < 2 ^ 31 ->
  rep (upd_buf i (set_refcnt (Z.of_nat k + 1)) s) (set_pins bn k a).
Proof.
  intros Hrep Hh Hk. destruct (held_buf s a i bn Hrep Hh) as (Hi & Hlen & [Hcd Hcb] & Hv & Hlk & Hrc & Hdat).
  apply (held_update s a i bn); auto; cbn [set_pins ca_view ca_pins ca_held ca_disk].
  - by intros b.
  - intros bn' Hne. by rewrite decide_False.
  - intros bn'. case_decide; [done|apply Hrep].
  - split; [by left|]. cbn [set_pins ca_held ca_view ca_pins ca_disk]. rewrite Hh. split; [by repeat split|]. split.
    + intros _. cbn [set_refcnt b_refcnt b_blockno]. rewrite Hcb, decide_True by done.
      by rewrite bool_decide_true by (by eexists).
    + intros _ _. cbn [set_refcnt b_data b_blockno]. by rewrite Hcb.
Qed.

(** ** The laws of the interface *)

Lemma bwrite_rep s a i bn :
  rep s a -> ca_held a !! i = Some bn ->
  exists s', bwrite i e s = Ok tt e s' /\ rep s' (flush bn a).
Proof.
  intros Hrep Hh. destruct (held_buf s a i bn Hrep Hh) as (Hi & Hlen & [Hcd Hcb] & Hv & Hlk & Hrc & Hdat).
  unfold bwrite. rewrite bind_eq, holding_buf_eq. kred. rewrite Hlk. cbn [sl_locked sl_pid].
  rewrite Z.eqb_refl. cbn [andb negb]. unfold disk_rw, getb. rewrite bind_eq. kred.
  eexists. split; [done|]. rewrite Hcb, Hdat.
  split; cbn [flush ca_view ca_disk ca_held ca_pins]; try apply Hrep.
  - unfold upd_disk. cbn [dsk]. by rewrite (ab_disk _ _ _ _ Hrep).
  - intros j Hj. change (nth_buf j (upd_disk _ s)) with (nth_buf j s).
    destruct (ab_bufs _ _ _ _ Hrep j Hj) as (H1 & H2 & H3 & H4). unfold bufok.
    cbn [flush ca_view ca_disk ca_held ca_pins]. split; [done|]. split; [done|]. split; [done|].
    intros Hjd Hjv. destruct (H4 Hjd Hjv) as [H5 H6]. split; [done|]. intros Hp Hn.
    unfold disk_read, disk_write. cbn [d_blocks]. rewrite lookup_insert.
    case_decide as Hd; [|by apply H6]. by rewrite Hd.
  - intros bn' Hall. unfold disk_read, disk_write. cbn [d_blocks]. rewrite lookup_insert.
    case_decide as Hd; [by rewrite Hd|]. by apply (ab_view _ _ _ _ Hrep).
Qed.

(** What the write-back of [bpin], [bunpin] does to the count. *)
Lemma bpin_rep s a i bn :
  rep s a -> ca_held a !! i = Some bn -> Z.of_nat (S (ca_pins a bn)) < 2 ^ 31 ->
  exists s', bpin i e s = Ok tt e s' /\ rep s' (set_pins bn (S (ca_pins a bn)) a).
Proof.
  intros Hrep Hh Hk. destruct (held_buf s a i bn Hrep Hh) as (Hi & Hlen & [Hcd Hcb] & Hv & Hlk & Hrc & Hdat).
  unfold bpin, getb, modb. rewrite bind_eq, acquire_eq by apply Hfree. kred.
  do 2 (rewrite bind_eq; kred). rewrite release_eq, Hrc. eexists. split; [done|].
  replace (u32 (Z.of_nat (ca_pins a bn) + 1 + 1)) with (Z.of_nat (S (ca_pins a bn)) + 1)
    by (rewrite u32_small; lia).
  by apply set_pins_rep.
Qed.

Lemma bunpin_rep s a i bn k :
  rep s a -> ca_held a !! i = Some bn -> ca_pins a bn = S k ->
  exists s', bunpin i e s = Ok tt e s' /\ rep s' (set_pins bn k a).
Proof.
  intros Hrep Hh Hk. destruct (held_buf s a i bn Hrep Hh) as (Hi & Hlen & [Hcd Hcb] & Hv & Hlk & Hrc & Hdat).
  pose proof (ab_small _ _ _ _ Hrep bn). rewrite Hk in *.
  unfold bunpin, getb, modb. rewrite bind_eq, acquire_eq by apply Hfree. kred.
  do 2 (rewrite bind_eq; kred). rewrite release_eq, Hrc. eexists. split; [done|].
  replace (u32 (Z.of_nat (S k) + 1 - 1)) with (Z.of_nat k + 1) by (rewrite u32_small; lia).
  apply set_pins_rep; auto. lia.
Qed.

(** Letting go of a held buffer whose block is clean or pinned. *)
Lemma unhold_rep s a i bn :
  rep s a -> ca_held a !! i = Some bn ->
  ca_pins a bn <> 0%nat \/ ca_view a bn = disk_read (ca_disk a) bn ->
  rep (upd_buf i (fun b => set_refcnt (Z.of_nat (ca_pins a bn)) (set_lock initsleeplock b)) s) (unhold i a).
Proof.
  intros Hrep Hh Hcl. destruct (held_buf s a i bn Hrep Hh) as (Hi & Hlen & [Hcd Hcb] & Hv & Hlk & Hrc & Hdat).
  apply (held_update s a i bn); auto; cbn [unhold ca_view ca_pins ca_held ca_disk].
  - by intros b.
  - intros j Hj. by rewrite lookup_delete_ne.
  - apply Hrep.
  - split; [by left|]. cbn [unhold ca_held ca_view ca_pins ca_disk]. rewrite lookup_delete_eq.
    split; [done|]. split.
    + intros _. cbn [set_refcnt set_lock b_refcnt b_blockno]. rewrite Hcb.
      rewrite bool_decide_false by (by intros [? ?]). cbn. lia.
    + intros _ _. cbn [set_refcnt set_lock b_data b_blockno]. rewrite Hcb. split; [done|].
      intros Hp _. by destruct Hcl.
Qed.

(** List pointers are no part of the store. *)
Lemma relinked_rep s s' l a : bring s' l -> relinked s s' -> rep s a -> rep s' a.
Proof.
  intros Hb Hr Hrep. pose proof Hr as (Hlen & Hd & Hn).
  assert (Hf : forall i, exists p n, nth_buf i s' = set_next n (set_prev p (nth_buf i s))) by done.
  split; try apply Hrep.
  - by eapply bstruct_relinked; [..|apply Hrep].
  - rewrite Hd. apply Hrep.
  - intros i Hi. destruct (Hf i) as (p & n & ->). apply (ab_bufs _ _ _ _ Hrep i Hi).
  - intros bn Hp. destruct (ab_pins _ _ _ _ Hrep bn Hp) as (i & Hi & Hc). exists i.
    destruct (Hf i) as (p & n & ->). done.
  - intros bn Hall. apply (ab_view _ _ _ _ Hrep). intros i Hi. specialize (Hall i Hi).
    destruct (Hf i) as (p & n & E). rewrite E in Hall. apply Hall.
Qed.

Lemma brelse_rep s a i bn :
  rep s a -> ca_held a !! i = Some bn ->
  ca_pins a bn <> 0%nat \/ ca_view a bn = disk_read (ca_disk a) bn ->
  exists s', brelse i e s = Ok tt (add_woken [ChBufLock i] e) s' /\ rep s' (unhold i a).
Proof.
  intros Hrep Hh Hcl. pose proof (ab_small _ _ _ _ Hrep bn) as Hsm.
  destruct (held_buf s a i bn Hrep Hh) as (Hi & Hlen & [Hcd Hcb] & Hv & Hlk & Hrc & Hdat).
  unfold brelse. rewrite bind_eq, holding_buf_eq. kred. rewrite Hlk. cbn [sl_locked sl_pid].
  rewrite Z.eqb_refl. cbn [andb negb]. rewrite bind_eq, unlock_buf_eq by done. kred.
  set (e1 := add_woken [ChBufLock i] e).
  rewrite bind_eq, (acquire_eq LkBcache e1) by apply Hfree. kred. unfold getb, modb at 1.
  do 2 (rewrite bind_eq; kred). rewrite nth_upd, decide_True by done.
  cbn [set_lock b_refcnt]. rewrite Hrc, upd_upd.
  replace (u32 (Z.of_nat (ca_pins a bn) + 1 - 1)) with (Z.of_nat (ca_pins a bn)) by (rewrite u32_small; lia).
  pose proof (unhold_rep s a i bn Hrep Hh Hcl) as Hrep'. set (s1 := upd_buf i _ s) in *.
  rewrite bind_eq. kred. rewrite bind_eq. destruct (b_refcnt (nth_buf i s1) =? 0).
  - destruct (ab_struct _ _ _ _ Hrep') as [[l Hl] _].
    destruct (move_front_ring s1 l i (set_held (LkBcache :: e_held e1) e1) Hl Hi) as (s' & l' & -> & Hl' & Hr).
    kred. rewrite release_eq. exists s'. split; [done|]. by eapply relinked_rep.
  - kred. rewrite release_eq. by exists s1.
Qed.
End bioabs.

(** ** The interface *)

(** A pinned block is cached, so reading it needs no free buffer. *)
Lemma bread_pinned dev e s a bn :
  dev <> 0 -> bio_free e -> babs dev (e_pid e) s a -> (forall i, ca_held a !! i <> Some bn) ->
  room a \/ ca_pins a bn <> 0%nat ->
  exists i s', bread dev bn e s = Ok i e s' /\ ca_held a !! i = None /\
    babs dev (e_pid e) s' (hold i bn a).
Proof.
  intros Hd Hf Hrep Hnh Hroom.
  assert (Hb : exists i s', bread dev bn e s = Ok i e s' /\ bread_post dev e s a bn i s').
  { destruct Hroom as [Hr|Hp]; [by apply bread_run|].
    destruct (ab_pins _ _ _ _ Hrep bn Hp) as (i & Hi & Hc & _). exists i. by apply bread_hit. }
  destruct Hb as (i & s' & Hrun & Hpost). exists i, s'. split; [done|]. split; [apply Hpost|].
  by eapply bread_rep.
Qed.

(** Blocks neither held nor pinned are as on the disk. *)
Lemma clean_view dev pid s a bn :
  dev <> 0 -> babs dev pid s a -> ca_pins a bn = 0%nat -> (forall i, ca_held a !! i <> Some bn) ->
  ca_view a bn = disk_read (ca_disk a) bn.
Proof.
  intros Hd Hrep Hp Hnh. destruct (cached_dec dev s bn) as [(i & Hi & Hc)|Hno].
  - destruct (b_valid (nth_buf i s)) eqn:Hv.
    + destruct (ab_bufs _ _ _ _ Hrep i Hi) as (_ & Hl & _ & H4). destruct Hc as [Hcd Hcb].
      destruct (H4 Hcd Hv) as [_ H5]. rewrite Hcb in H5. apply H5; [done|].
      destruct (ca_held a !! i) as [bn'|] eqn:E; [|done]. destruct Hl as (_ & [_ Hb] & _).
      by destruct (Hnh i); congruence.
    + apply (ab_view _ _ _ _ Hrep). intros j Hj Hcj. destruct (ab_struct _ _ _ _ Hrep) as [_ Hu].
      destruct (decide (j = i)) as [->|Hne]; [done|]. exfalso. apply Hne.
      destruct Hc, Hcj. apply Hu; congruence.
  - apply (ab_view _ _ _ _ Hrep). intros j Hj Hcj. by apply Hno in Hcj.
Qed.

(** What the cache promises to the thread with the environment [e], for the
    device [dev]: [rep] relates its states to the abstract store. *)
Class BlockCache (dev : Z) (rep : Z -> bstate -> cabs -> Prop) : Prop := {
  bc_bread e s a bn :
    bio_free e -> rep (e_pid e) s a -> (forall i, ca_held a !! i <> Some bn) ->
    room a \/ ca_pins a bn <> 0%nat ->
    exists i s', bread dev bn e s = Ok i e s' /\ ca_held a !! i = None /\ rep (e_pid e) s' (hold i bn a);
  bc_buf pid s a i bn :
    rep pid s a -> ca_held a !! i = Some bn ->
    b_data (nth_buf i s) = ca_view a bn /\ b_blockno (nth_buf i s) = bn;
  bc_set_data pid s a i bn d :
    rep pid s a -> ca_held a !! i = Some bn -> rep pid (upd_buf i (set_data d) s) (set_view bn d a);
  bc_bwrite e s a i bn :
    bio_free e -> rep (e_pid e) s a -> ca_held a !! i = Some bn ->
    exists s', bwrite i e s = Ok tt e s' /\ rep (e_pid e) s' (flush bn a);
  bc_brelse e s a i bn :
    bio_free e -> rep (e_pid e) s a -> ca_held a !! i = Some bn ->
    ca_pins a bn <> 0%nat \/ ca_view a bn = disk_read (ca_disk a) bn ->
    exists s', brelse i e s = Ok tt (add_woken [ChBufLock i] e) s' /\ rep (e_pid e) s' (unhold i a);
  bc_bpin e s a i bn :
    bio_free e -> rep (e_pid e) s a -> ca_held a !! i = Some bn -> Z.of_nat (S (ca_pins a bn)) < 2 ^ 31 ->
    exists s', bpin i e s = Ok tt e s' /\ rep (e_pid e) s' (set_pins bn (S (ca_pins a bn)) a);
  bc_bunpin e s a i bn k :
    bio_free e -> rep (e_pid e) s a -> ca_held a !! i = Some bn -> ca_pins a bn = S k ->
    exists s', bunpin i e s = Ok tt e s' /\ rep (e_pid e) s' (set_pins bn k a);
  bc_clean pid s a bn :
    rep pid s a -> ca_pins a bn = 0%nat -> (forall i, ca_held a !! i <> Some bn) ->
    ca_view a bn = disk_read (ca_disk a) bn;
  bc_inj pid s a i j bn :
    rep pid s a -> ca_held a !! i = Some bn -> ca_held a !! j = Some bn -> i = j;
  bc_proper pid s :: Proper ((≡) ==> iff) (rep pid s)
}.

(** bio.c keeps its promises. *)
#[export] Instance bio_cache dev (Hd : dev <> 0) : BlockCache dev (babs dev).
Proof.
  split.
  - intros. by apply bread_pinned.
  - intros pid s a i bn Hrep Hh. pose (e := mkEnv 0 pid false [] [] 0).
    destruct (held_buf dev e s a i bn Hrep Hh) as (_ & _ & [_ ?] & _ & _ & _ & ?). done.
  - intros pid s a i bn d. apply (set_data_rep dev (mkEnv 0 pid false [] [] 0) Hd).
  - intros. by apply bwrite_rep.
  - intros. by eapply brelse_rep.
  - intros. by apply bpin_rep.
  - intros. by apply bunpin_rep.
  - intros pid s a bn. by apply clean_view.
  - intros pid s a i j bn. apply (held_inj dev (mkEnv 0 pid false [] [] 0) Hd).
  - apply _.
Qed.
