(* ===== verification/Log.v ===== *)
(** * The log (kernel/log.c)

    The log's in-memory state sits on top of the buffer cache; the routines of
    bio.c run on that part of the state ([bio]). *)

From S2P Require Import Prelude KMonad Sleeplock Bio.
Open Scope kmonad_scope.

Definition MAXOPBLOCKS : Z := 10.
Definition LOGSIZE : Z := MAXOPBLOCKS * 3.

Record log : Set := mkLog {
  lg_start : Z;
  lg_size : Z;
  lg_outstanding : Z;
  lg_committing : bool;
  lg_dev : Z;
  lh_n : Z;
  lh_block : list Z          (* LOGSIZE entries *)
}.

Definition log0 : log := mkLog 0 0 0 false 0 0 (replicate (Z.to_nat LOGSIZE) 0).

Definition set_start v l := mkLog v (lg_size l) (lg_outstanding l) (lg_committing l) (lg_dev l) (lh_n l) (lh_block l).
Definition set_size v l := mkLog (lg_start l) v (lg_outstanding l) (lg_committing l) (lg_dev l) (lh_n l) (lh_block l).
Definition set_outstanding v l := mkLog (lg_start l) (lg_size l) v (lg_committing l) (lg_dev l) (lh_n l) (lh_block l).
Definition set_committing v l := mkLog (lg_start l) (lg_size l) (lg_outstanding l) v (lg_dev l) (lh_n l) (lh_block l).
Definition set_ldev v l := mkLog (lg_start l) (lg_size l) (lg_outstanding l) (lg_committing l) v (lh_n l) (lh_block l).
Definition set_lh_n v l := mkLog (lg_start l) (lg_size l) (lg_outstanding l) (lg_committing l) (lg_dev l) v (lh_block l).
Definition set_lh_block v l := mkLog (lg_start l) (lg_size l) (lg_outstanding l) (lg_committing l) (lg_dev l) (lh_n l) v.

Record lstate : Set := mkLstate { l_bio : bstate; l_log : log }.

Definition put_bio (b : bstate) (s : lstate) : lstate := mkLstate b (l_log s).
Definition bio {A} (m : K bstate A) : K lstate A := zoom l_bio put_bio m.
Definition getl {A} (f : log -> A) : K lstate A := gets (fun s => f (l_log s)).
Definition modl (f : log -> log) : K lstate unit := modify (fun s => mkLstate (l_bio s) (f (l_log s))).

(** lh.block[i], and the store to it.  An index outside the array is undefined
    behaviour of C, which the model reports as a panic of its own. *)
Definition get_block (i : Z) : K lstate Z :=
  bs <- getl lh_block ;;
  match bs !! Z.to_nat i with
  | Some v => if i <? 0 then panic "undefined: lh.block" else ret v
  | None => panic "undefined: lh.block"
  end.

Definition put_block (i v : Z) : K lstate unit :=
  if (0 <=? i) && (i <? LOGSIZE) then modl (fun l => set_lh_block (<[Z.to_nat i := v]> (lh_block l)) l)
  else panic "undefined: lh.block".

(** ** The header block: n and block[] as 32-bit integers *)

Definition get_int (data : list Z) (off : Z) : Z := i32 (le_val (take 4 (drop (Z.to_nat off) data))).
Definition put_int (data : list Z) (off v : Z) : list Z :=
  take (Z.to_nat off) data ++ le_bytes 4 (u32 v) ++ drop (Z.to_nat off + 4) data.

Definition hdr_n (data : list Z) : Z := get_int data 0.
Definition hdr_block (data : list Z) (i : Z) : Z := get_int data (4 + 4 * i).

(** memmove(dst->data, src->data, BSIZE) *)
Definition copy_data (dst src : nat) : K lstate unit :=
  b <- bio (getb src) ;;
  bio (modb dst (set_data (b_data b))).

(** for (tail = 0; tail < log.lh.n; tail++), [k] iterations left. *)
Fixpoint install_loop (k : nat) (tail : Z) (recovering : bool) : K lstate unit :=
  match k with
  | O => ret tt
  | S k =>
      dev <- getl lg_dev ;;
      start <- getl lg_start ;;
      lbuf <- bio (bread dev (start + tail + 1)) ;;
      bn <- get_block tail ;;
      dbuf <- bio (bread dev (u32 bn)) ;;
      copy_data dbuf lbuf ;;;
      bio (bwrite dbuf) ;;;
      (when negb recovering do bio (bunpin dbuf)) ;;;
      bio (brelse lbuf) ;;;
      bio (brelse dbuf) ;;;
      install_loop k (tail + 1) recovering
  end.

Definition install_trans (recovering : bool) : K lstate unit :=
  n <- getl lh_n ;;
  install_loop (Z.to_nat n) 0 recovering.

Fixpoint read_head_loop (k : nat) (i : Z) (data : list Z) : K lstate unit :=
  match k with
  | O => ret tt
  | S k => put_block i (hdr_block data i) ;;; read_head_loop k (i + 1) data
  end.

Definition read_head : K lstate unit :=
  dev <- getl lg_dev ;;
  start <- getl lg_start ;;
  b <- bio (bread dev start) ;;
  x <- bio (getb b) ;;
  modl (set_lh_n (hdr_n (b_data x))) ;;;
  read_head_loop (Z.to_nat (hdr_n (b_data x))) 0 (b_data x) ;;;
  bio (brelse b).

Fixpoint write_head_loop (k : nat) (i : Z) (b : nat) : K lstate unit :=
  match k with
  | O => ret tt
  | S k =>
      bn <- get_block i ;;
      bio (x <- getb b ;; modb b (set_data (put_int (b_data x) (4 + 4 * i) bn))) ;;;
      write_head_loop k (i + 1) b
  end.

Definition write_head : K lstate unit :=
  dev <- getl lg_dev ;;
  start <- getl lg_start ;;
  b <- bio (bread dev start) ;;
  n <- getl lh_n ;;
  bio (x <- getb b ;; modb b (set_data (put_int (b_data x) 0 n))) ;;;
  write_head_loop (Z.to_nat n) 0 b ;;;
  bio (bwrite b) ;;;
  bio (brelse b).

Definition recover_from_log : K lstate unit :=
  read_head ;;;
  install_trans true ;;;
  modl (set_lh_n 0) ;;;
  write_head.

(** sizeof(struct logheader) *)
Definition sizeof_logheader : Z := 4 + 4 * LOGSIZE.

(** initlog(dev, sb), of which it uses sb->logstart and sb->nlog. *)
Definition initlog (dev logstart nlog : Z) : K lstate unit :=
  if Z.of_nat BSIZE <=? sizeof_logheader then panic "initlog: too big logheader"
  else
    modl (set_start logstart) ;;;
    modl (set_size nlog) ;;;
    modl (set_ldev dev) ;;;
    recover_from_log.

Fixpoint begin_op_loop (fuel : nat) : K lstate unit :=
  l <- getl (fun l => l) ;;
  if lg_committing l || (LOGSIZE <? lh_n l + (lg_outstanding l + 1) * MAXOPBLOCKS) then
    match fuel with
    | O => out_of_fuel
    | S fuel => sleep ChLog LkLog ;;; begin_op_loop fuel
    end
  else
    modl (set_outstanding (lg_outstanding l + 1)) ;;;
    release LkLog.

Definition begin_op : K lstate unit :=
  acquire LkLog ;;;
  n <- asks e_spin ;;
  begin_op_loop n.

Fixpoint write_log_loop (k : nat) (tail : Z) : K lstate unit :=
  match k with
  | O => ret tt
  | S k =>
      dev <- getl lg_dev ;;
      start <- getl lg_start ;;
      to <- bio (bread dev (start + tail + 1)) ;;
      bn <- get_block tail ;;
      from <- bio (bread dev (u32 bn)) ;;
      copy_data to from ;;;
      bio (bwrite to) ;;;
      bio (brelse from) ;;;
      bio (brelse to) ;;;
      write_log_loop k (tail + 1)
  end.

Definition write_log : K lstate unit :=
  n <- getl lh_n ;;
  write_log_loop (Z.to_nat n) 0.

Definition commit : K lstate unit :=
  n <- getl lh_n ;;
  when 0 <? n do
    (write_log ;;;
     write_head ;;;
     install_trans false ;;;
     modl (set_lh_n 0) ;;;
     write_head).

Definition end_op : K lstate unit :=
  acquire LkLog ;;;
  o <- getl lg_outstanding ;;
  modl (set_outstanding (o - 1)) ;;;
  l <- getl (fun l => l) ;;
  if lg_committing l then panic "log.committing"
  else
    let do_commit := lg_outstanding l =? 0 in
    (if do_commit then modl (set_committing true) else wakeup ChLog) ;;;
    release LkLog ;;;
    when do_commit do
      (commit ;;;
       acquire LkLog ;;;
       modl (set_committing false) ;;;
       wakeup ChLog ;;;
       release LkLog).

(** The absorption scan: the first i with lh.block[i] == blockno, else lh.n. *)
Fixpoint absorb_loop (k : nat) (i blockno : Z) : K lstate Z :=
  match k with
  | O => ret i
  | S k =>
      bn <- get_block i ;;
      if u32 bn =? blockno then ret i else absorb_loop k (i + 1) blockno
  end.

Definition log_write (b : nat) : K lstate unit :=
  acquire LkLog ;;;
  l <- getl (fun l => l) ;;
  if (LOGSIZE <=? lh_n l) || (lg_size l - 1 <=? lh_n l) then panic "too big a transaction"
  else if lg_outstanding l <? 1 then panic "log_write outside of trans"
  else
    x <- bio (getb b) ;;
    i <- absorb_loop (Z.to_nat (lh_n l)) 0 (b_blockno x) ;;
    put_block i (i32 (b_blockno x)) ;;;
    (when i =? lh_n l do
       (bio (bpin b) ;;;
        modl (set_lh_n (lh_n l + 1)))) ;;;
    release LkLog.
