(* ===== verification/LogSpec.v ===== *)
(** * What the log's routines do to the block store

    Each routine of log.c, run by a thread alone, is a transformation of the
    abstract store of BioAbs.v.  The proofs use the cache only through the
    class [BlockCache]. *)

From S2P Require Import Prelude KMonad Sleeplock Bio BioSpec BioAbs Log.
Open Scope kmonad_scope.

(** ** The environment after some wakeups *)

Definition later (e e' : env) : Prop := exists w, e' = add_woken w e.

Lemma later_refl e : later e e.
Proof. exists []. by destruct e. Qed.

Lemma later_woken e w : later e (add_woken w e).
Proof. by exists w. Qed.

Lemma later_trans e1 e2 e3 : later e1 e2 -> later e2 e3 -> later e1 e3.
Proof.
  intros [w1 ->] [w2 ->]. exists (w2 ++ w1). unfold add_woken. cbn [e_woken e_me e_pid e_killed e_held e_spin].
  by rewrite app_assoc.
Qed.

Lemma later_free e e' : later e e' -> bio_free e -> bio_free e'.
Proof. intros [w ->] H. exact H. Qed.

Lemma later_pid e e' : later e e' -> e_pid e' = e_pid e.
Proof. by intros [w ->]. Qed.

Lemma later_held e e' : later e e' -> e_held e' = e_held e.
Proof. by intros [w ->]. Qed.

#[export] Hint Resolve later_refl later_woken later_trans later_free : xv6.

(** ** Running the cache's routines inside the log's *)

Lemma bio_eq {A} (m : K bstate A) e s a e' t :
  m e (l_bio s) = Ok a e' t -> bio m e s = Ok a e' (put_bio t s).
Proof. intros H. unfold bio, zoom. by rewrite H. Qed.

Lemma bio_getb i e s : bio (getb i) e s = Ok (nth_buf i (l_bio s)) e s.
Proof. by destruct s. Qed.

Lemma bio_modb i f e s : bio (modb i f) e s = Ok tt e (put_bio (upd_buf i f (l_bio s)) s).
Proof. done. Qed.

Lemma disk_read_write bn d dk : disk_read (disk_write bn d dk) bn = d.
Proof. unfold disk_read, disk_write. cbn [d_blocks]. by rewrite lookup_insert_eq. Qed.

Lemma disk_read_write_ne bn bn' d dk :
  bn' <> bn -> disk_read (disk_write bn d dk) bn' = disk_read dk bn'.
Proof. intros. unfold disk_read, disk_write. cbn [d_blocks]. by rewrite lookup_insert_ne. Qed.

(** The abstract effect of copying block [src] to block [dst] through the cache
    to the disk. *)
Definition ab_copy (dst src : Z) (a : cabs) : cabs := flush dst (set_view dst (ca_view a src) a).

Lemma held_two (i j : nat) (x y : Z) : i <> j ->
  delete i (delete j (<[j := y]> (<[i := x]> (∅ : gmap nat Z)))) = ∅ /\
  delete j (delete i (<[j := y]> (<[i := x]> (∅ : gmap nat Z)))) = ∅.
Proof.
  intros Hne. split; apply map_eq; intros k;
    rewrite !lookup_delete, !lookup_insert, lookup_empty; repeat case_decide; congruence.
Qed.

Fixpoint ab_write_log (start tail : Z) (bs : list Z) (a : cabs) : cabs :=
  match bs with
  | [] => a
  | b :: bs => ab_write_log start (tail + 1) bs (ab_copy (start + tail + 1) b a)
  end.

Fixpoint ab_install (start tail : Z) (recovering : bool) (bs : list Z) (a : cabs) : cabs :=
  match bs with
  | [] => a
  | b :: bs =>
      let a1 := ab_copy b (start + tail + 1) a in
      ab_install start (tail + 1) recovering bs (if recovering then a1 else set_pins b 0 a1)
  end.

(** The in-memory header of the log on [dev] at [start] lists [bs]. *)
Definition lists (dev start tail : Z) (bs : list Z) (s : lstate) : Prop :=
  lg_dev (l_log s) = dev /\ lg_start (l_log s) = start /\ 0 <= tail /\
  forall i b, bs !! i = Some b -> lh_block (l_log s) !! (Z.to_nat tail + i)%nat = Some b.

Lemma lists_next dev start tail b bs s :
  lists dev start tail (b :: bs) s ->
  lists dev start (tail + 1) bs s /\ forall e t, get_block tail e (put_bio t s) = Ok b e (put_bio t s).
Proof.
  intros (Hd & Hs & Ht & Hb). split.
  - split; [done|]. split; [done|]. split; [lia|]. intros i x Hx.
    replace (Z.to_nat (tail + 1) + i)%nat with (Z.to_nat tail + S i)%nat by lia. by apply Hb.
  - intros e t. unfold get_block, getl. rewrite bind_eq. kred.
    specialize (Hb 0%nat b eq_refl). rewrite Nat.add_0_r in Hb. cbn [put_bio l_log]. rewrite Hb.
    destruct (Z.ltb_spec tail 0); [lia|done].
Qed.

Lemma lists_bio dev start tail bs s t : lists dev start tail bs s -> lists dev start tail bs (put_bio t s).
Proof. done. Qed.

(** ** The header block *)

Lemma length_put_int data off v :
  0 <= off -> off + 4 <= Z.of_nat (length data) -> length (put_int data off v) = length data.
Proof.
  intros H1 H2. unfold put_int. rewrite !length_app, length_take, length_drop, length_le_bytes. lia.
Qed.

Lemma get_put_int data off v :
  0 <= off -> off + 4 <= Z.of_nat (length data) -> - 2 ^ 31 <= v < 2 ^ 31 ->
  get_int (put_int data off v) off = v.
Proof.
  intros H1 H2 Hv. unfold get_int, put_int.
  rewrite drop_app_length' by (rewrite length_take; lia).
  rewrite take_app_length' by (by rewrite length_le_bytes).
  rewrite le_val_bytes. unfold i32, u32. change (256 ^ Z.of_nat 4) with (2 ^ 32). zdm.
Qed.

Lemma lookup_put_int data off v i :
  0 <= off -> off + 4 <= Z.of_nat (length data) ->
  (Z.of_nat i < off \/ off + 4 <= Z.of_nat i) -> put_int data off v !! i = data !! i.
Proof.
  intros H1 H2 Hi. unfold put_int. destruct (decide (i < Z.to_nat off)%nat) as [Hl|Hl].
  - rewrite lookup_app_l by (rewrite length_take; lia). by rewrite lookup_take, decide_True.
  - rewrite lookup_app_r by (rewrite length_take; lia). rewrite length_take.
    rewrite lookup_app_r by (rewrite length_le_bytes; lia). rewrite length_le_bytes, lookup_drop.
    f_equal. lia.
Qed.

Lemma get_put_int_ne data off off' v :
  0 <= off -> 0 <= off' -> off + 4 <= Z.of_nat (length data) ->
  off' + 4 <= off \/ off + 4 <= off' ->
  get_int (put_int data off v) off' = get_int data off'.
Proof.
  intros H1 H2 H3 Hd. unfold get_int. do 2 f_equal. apply list_eq. intros i.
  destruct (decide (i < 4)%nat) as [Hi|Hi].
  - rewrite !lookup_take, !decide_True, !lookup_drop by done. apply lookup_put_int; lia.
  - by rewrite !lookup_take, !decide_False by lia.
Qed.

(** Storing a list of block numbers from entry [i] on. *)
Fixpoint put_blocks (data : list Z) (i : Z) (bs : list Z) : list Z :=
  match bs with
  | [] => data
  | b :: bs => put_blocks (put_int data (4 + 4 * i) b) (i + 1) bs
  end.

(** The header block as write_head() makes it out of the old one. *)
Definition hdr_enc (data bs : list Z) : list Z := put_blocks (put_int data 0 (Z.of_nat (length bs))) 0 bs.

Lemma put_blocks_spec bs data i :
  0 <= i -> 4 + 4 * (i + Z.of_nat (length bs)) <= Z.of_nat (length data) ->
  Forall (fun b => 0 <= b < 2 ^ 31) bs ->
  length (put_blocks data i bs) = length data /\
  (forall off, 0 <= off -> off + 4 <= 4 + 4 * i -> get_int (put_blocks data i bs) off = get_int data off) /\
  (forall k b, bs !! k = Some b -> hdr_block (put_blocks data i bs) (i + Z.of_nat k) = b).
Proof.
  revert data i. induction bs as [|b bs IH]; intros data i Hi Hlen Hbs; cbn [put_blocks].
  { split; [done|]. split; [done|]. intros k b. by rewrite lookup_nil. }
  apply Forall_cons in Hbs as [Hb Hbs]. cbn [length] in Hlen.
  assert (Hlp : length (put_int data (4 + 4 * i) b) = length data) by (apply length_put_int; lia).
  destruct (IH (put_int data (4 + 4 * i) b) (i + 1)) as (H1 & H2 & H3); [lia|rewrite Hlp; lia|done|].
  split; [congruence|]. split.
  - intros off Ho1 Ho2. rewrite H2 by lia. apply get_put_int_ne; lia.
  - intros [|k] x; cbn [lookup list_lookup].
    + intros [= ->]. rewrite Z.add_0_r. unfold hdr_block. rewrite H2 by lia. apply get_put_int; lia.
    + intros Hx. rewrite <- (H3 k x Hx). f_equal. lia.
Qed.

(** What write_head() encodes, read_head() decodes. *)
Lemma hdr_enc_spec data bs :
  (length bs <= Z.to_nat LOGSIZE)%nat -> length data = BSIZE -> Forall (fun b => 0 <= b < 2 ^ 31) bs ->
  length (hdr_enc data bs) = BSIZE /\ hdr_n (hdr_enc data bs) = Z.of_nat (length bs) /\
  (forall k b, bs !! k = Some b -> hdr_block (hdr_enc data bs) (Z.of_nat k) = b).
Proof.
  unfold LOGSIZE, MAXOPBLOCKS, BSIZE. intros Hn Hlen Hbs. unfold hdr_enc.
  assert (Hlp : length (put_int data 0 (Z.of_nat (length bs))) = length data) by (apply length_put_int; lia).
  destruct (put_blocks_spec bs (put_int data 0 (Z.of_nat (length bs))) 0) as (H1 & H2 & H3);
    [lia|rewrite Hlp; lia|done|].
  split; [congruence|]. split; [|done].
  unfold hdr_n. rewrite H2 by lia. apply get_put_int; lia.
Qed.

Section logspec.
Context {dev : Z} {rep : Z -> bstate -> cabs -> Prop} `{HBC : !BlockCache dev rep}.

(** Two blocks read one after the other. *)
Lemma bread_two e s a b1 b2 :
  bio_free e -> rep (e_pid e) (l_bio s) a -> ca_held a = ∅ -> b1 <> b2 ->
  room a \/ ca_pins a b1 <> 0%nat -> room (hold 0 b1 a) \/ ca_pins a b2 <> 0%nat ->
  exists i j t1 t2, i <> j /\
    bio (bread dev b1) e s = Ok i e (put_bio t1 s) /\
    bio (bread dev b2) e (put_bio t1 s) = Ok j e (put_bio t2 s) /\
    rep (e_pid e) t2 (hold j b2 (hold i b1 a)).
Proof.
  intros Hf Hrep He Hne Hr1 Hr2.
  destruct (bc_bread (dev := dev) (rep := rep) e (l_bio s) a b1) as (i & t1 & Hb1 & Hi & Hrep1); auto.
  { intros i. by rewrite He, lookup_empty. }
  destruct (bc_bread (dev := dev) (rep := rep) e t1 (hold i b1 a) b2) as (j & t2 & Hb2 & Hj & Hrep2); auto.
  { intros j. cbn [hold ca_held]. rewrite He, lookup_insert, lookup_empty. case_decide; congruence. }
  { destruct Hr2 as [(B & HB1 & HB2 & HB)|Hp]; [left|by right]. exists B. split; [|done].
    intros k bn. cbn [hold ca_held]. rewrite He, lookup_insert, lookup_empty.
    case_decide; intros [= <-]. apply (HB1 0%nat). cbn [hold ca_held]. by rewrite lookup_insert_eq. }
  exists i, j, t1, t2. split.
  { intros ->. cbn [hold ca_held] in Hj. by rewrite lookup_insert_eq in Hj. }
  split; [exact (bio_eq _ _ _ _ _ _ Hb1)|]. split; [|done].
  exact (bio_eq _ _ (put_bio t1 s) _ _ _ Hb2).
Qed.

(** Copy, write and release two held buffers. *)
Lemma copy_out e s a i j src dst t :
  bio_free e -> i <> j -> rep (e_pid e) t a -> ca_held a !! i = Some src -> ca_held a !! j = Some dst ->
  exists t1 t2, copy_data j i e (put_bio t s) = Ok tt e (put_bio t1 s) /\
    bio (bwrite j) e (put_bio t1 s) = Ok tt e (put_bio t2 s) /\ rep (e_pid e) t2 (ab_copy dst src a).
Proof.
  intros Hf Hne Hrep Hi Hj. unfold copy_data. rewrite bind_eq, bio_getb. kred.
  rewrite bio_modb. destruct (bc_buf (e_pid e) t a i src Hrep Hi) as [Hd _].
  cbn [put_bio l_bio] in *. rewrite Hd.
  pose proof (bc_set_data (dev := dev) (rep := rep) _ _ _ _ _ (ca_view a src) Hrep Hj) as Hrep1.
  destruct (bc_bwrite (dev := dev) (rep := rep) e _ _ j dst Hf Hrep1 Hj) as (t2 & Hw & Hrep2).
  eexists _, t2. split; [done|]. split; [|done]. exact (bio_eq _ _ (put_bio _ s) _ _ _ Hw).
Qed.

Lemma release_buf e s t a i bn :
  bio_free e -> rep (e_pid e) t a -> ca_held a !! i = Some bn ->
  ca_pins a bn <> 0%nat \/ ca_view a bn = disk_read (ca_disk a) bn ->
  exists e' t', bio (brelse i) e (put_bio t s) = Ok tt e' (put_bio t' s) /\ later e e' /\
    rep (e_pid e') t' (unhold i a).
Proof.
  intros Hf Hrep Hi Hc. destruct (bc_brelse (dev := dev) (rep := rep) e t a i bn Hf Hrep Hi Hc) as (t' & Hr & Hrep').
  eexists _, t'. split; [exact (bio_eq _ _ (put_bio t s) _ _ _ Hr)|]. split; [apply later_woken|done].
Qed.

(** A home block that may be logged: not one of the [n] log blocks from
    [start + tail], and a block number an int can hold. *)
Definition home_ok (start tail : Z) (n : nat) (b : Z) : Prop :=
  0 <= b < 2 ^ 31 /\ forall j, tail <= j < tail + Z.of_nat n -> b <> start + j + 1.

Lemma ab_copy_fields dst src a :
  ca_held (ab_copy dst src a) = ca_held a /\ ca_pins (ab_copy dst src a) = ca_pins a.
Proof. done. Qed.

Lemma room_ext a a' : ca_held a' = ca_held a -> ca_pins a' = ca_pins a -> room a -> room a'.
Proof. intros Hh Hp (B & H1 & H2 & H3). exists B. by rewrite Hh, Hp. Qed.

Lemma write_log_iter e s a start tail b bs :
  bio_free e -> rep (e_pid e) (l_bio s) a -> ca_held a = ∅ -> lists dev start tail (b :: bs) s ->
  0 <= b < 2 ^ 31 -> b <> start + tail + 1 -> ca_pins a b <> 0%nat -> room a ->
  exists e' t', later e e' /\ rep (e_pid e') t' (ab_copy (start + tail + 1) b a) /\
    forall k, write_log_loop (S k) tail e s = write_log_loop k (tail + 1) e' (put_bio t' s).
Proof.
  intros Hf Hrep Hheld Hl Hb Hne Hp Hroom. set (lb := start + tail + 1) in *.
  destruct (lists_next _ _ _ _ _ _ Hl) as [_ Hget]. destruct Hl as (Hdev & Hstart & Ht & _).
  destruct (bread_two e s a lb b) as (i & j & t1 & t2 & Hij & Hr1 & Hr2 & Hrep2); auto.
  assert (Hhi : ca_held (hold j b (hold i lb a)) !! i = Some lb)
    by (cbn [hold ca_held]; by rewrite lookup_insert_ne, lookup_insert_eq).
  assert (Hhj : ca_held (hold j b (hold i lb a)) !! j = Some b)
    by (cbn [hold ca_held]; by rewrite lookup_insert_eq).
  destruct (copy_out e s _ j i b lb t2 Hf ltac:(congruence) Hrep2 Hhj Hhi) as (t2' & t3 & Hc & Hw & Hrep3).
  destruct (release_buf e s t3 _ j b Hf Hrep3) as (e4 & t4 & Hr4 & Hlat4 & Hrep4); [done|by left|].
  destruct (release_buf e4 s t4 _ i lb (later_free _ _ Hlat4 Hf) Hrep4) as (e5 & t5 & Hr5 & Hlat5 & Hrep5).
  { cbn [unhold ca_held]. by rewrite lookup_delete_ne. }
  { right. cbn [unhold ab_copy flush set_view ca_view ca_disk]. rewrite disk_read_write.
    by rewrite decide_True. }
  exists e5, t5. split; [by eapply later_trans|]. split.
  { replace (ab_copy lb b a) with (unhold i (unhold j (ab_copy lb b (hold j b (hold i lb a))))); [done|].
    unfold ab_copy, flush, set_view, unhold, hold. cbn [ca_view ca_disk ca_held ca_pins].
    rewrite Hheld. by rewrite (proj1 (held_two i j lb b Hij)). }
  intros k. cbn [write_log_loop]. unfold getl. do 2 (rewrite bind_eq; kred).
  rewrite Hdev, Hstart. fold lb. rewrite bind_eq, Hr1. kred.
  rewrite bind_eq, Hget. kred. rewrite u32_small by lia. rewrite bind_eq, Hr2. kred.
  rewrite bind_eq, Hc. kred. rewrite bind_eq, Hw. kred. rewrite bind_eq, Hr4. kred.
  rewrite bind_eq, Hr5. done.
Qed.

Lemma write_log_loop_spec bs e s a start tail :
  bio_free e -> rep (e_pid e) (l_bio s) a -> ca_held a = ∅ -> lists dev start tail bs s ->
  Forall (fun b => home_ok start tail (length bs) b /\ ca_pins a b <> 0%nat) bs -> room a ->
  exists e' t', write_log_loop (length bs) tail e s = Ok tt e' (put_bio t' s) /\ later e e' /\
    rep (e_pid e') t' (ab_write_log start tail bs a).
Proof.
  revert e s a tail. induction bs as [|b bs IH]; intros e s a tail Hf Hrep Hh Hl Hok Hroom.
  { exists e, (l_bio s). split; [by destruct s|]. split; [apply later_refl|done]. }
  apply Forall_cons in Hok as [[Hb Hp] Hok]. cbn [length].
  destruct (write_log_iter e s a start tail b bs) as (e1 & t1 & Hlat1 & Hrep1 & Hrun); auto.
  { apply Hb. } { apply Hb. cbn [length]. lia. }
  rewrite Hrun. destruct (lists_next _ _ _ _ _ _ Hl) as [Hl' _].
  destruct (IH e1 (put_bio t1 s) (ab_copy (start + tail + 1) b a) (tail + 1))
    as (e2 & t2 & Hrun2 & Hlat2 & Hrep2); eauto with xv6.
  - eapply Forall_impl; [exact Hok|]. intros x [[H1 H2] H3]. split; [|done]. split; [done|].
    intros j Hj. apply H2. cbn [length]. lia.
  - exists e2, t2. split; [done|]. split; [by eapply later_trans|done].
Qed.

Lemma room_unpin b a : room a -> room (set_pins b 0 a).
Proof.
  intros (B & H1 & H2 & H3). exists B. split; [done|]. split; [|done].
  intros bn. cbn [set_pins ca_pins]. case_decide; [done|apply H2].
Qed.

(** A home block in install_trans(): pinned once by the transaction, or, in
    recovery, unknown to the cache's users. *)
Definition pinned_for (recovering : bool) (a : cabs) (b : Z) : Prop :=
  ca_pins a b = if recovering then 0%nat else 1%nat.

Lemma install_iter e s a start tail recovering b bs :
  bio_free e -> rep (e_pid e) (l_bio s) a -> ca_held a = ∅ -> lists dev start tail (b :: bs) s ->
  0 <= b < 2 ^ 31 -> b <> start + tail + 1 -> ca_pins a (start + tail + 1) = 0%nat ->
  pinned_for recovering a b -> room a -> (recovering = true -> room (hold 0 (start + tail + 1) a)) ->
  exists e' t', later e e' /\
    rep (e_pid e') t' (let a1 := ab_copy b (start + tail + 1) a in if recovering then a1 else set_pins b 0 a1) /\
    forall k, install_loop (S k) tail recovering e s = install_loop k (tail + 1) recovering e' (put_bio t' s).
Proof.
  intros Hf Hrep Hheld Hl Hb Hne Hlp Hp Hroom Hroom2. set (lb := start + tail + 1) in *.
  assert (Hclean : ca_view a lb = disk_read (ca_disk a) lb).
  { apply (bc_clean (dev := dev) (rep := rep) (e_pid e) (l_bio s)); auto.
    intros i. by rewrite Hheld, lookup_empty. }
  destruct (lists_next _ _ _ _ _ _ Hl) as [_ Hget]. destruct Hl as (Hdev & Hstart & Ht & _).
  destruct (bread_two e s a lb b) as (i & j & t1 & t2 & Hij & Hr1 & Hr2 & Hrep2); auto.
  { unfold pinned_for in Hp. destruct recovering; [left; auto|right; lia]. }
  assert (Hhi : ca_held (hold j b (hold i lb a)) !! i = Some lb)
    by (cbn [hold ca_held]; by rewrite lookup_insert_ne, lookup_insert_eq).
  assert (Hhj : ca_held (hold j b (hold i lb a)) !! j = Some b)
    by (cbn [hold ca_held]; by rewrite lookup_insert_eq).
  destruct (copy_out e s _ i j lb b t2 Hf Hij Hrep2 Hhi Hhj) as (t2' & t3 & Hc & Hw & Hrep3).
  set (a3 := ab_copy b lb _) in Hrep3.
  assert (Hu : exists t4, (when negb recovering do bio (bunpin j)) e (put_bio t3 s) = Ok tt e (put_bio t4 s) /\
            rep (e_pid e) t4 (if recovering then a3 else set_pins b 0 a3)).
  { destruct recovering; [by exists t3|]. 
    destruct (bc_bunpin (dev := dev) (rep := rep) e t3 a3 j b 0 Hf Hrep3 Hhj Hp) as (t4 & Hu & Hrep4).
    exists t4. split; [exact (bio_eq _ _ (put_bio t3 s) _ _ _ Hu)|done]. }
  destruct Hu as (t4 & Hu & Hrep4). set (a4 := if recovering then _ else _) in Hrep4.
  assert (H4 : ca_held a4 = ca_held a3 /\ ca_view a4 = ca_view a3 /\ ca_disk a4 = ca_disk a3)
    by (unfold a4; by destruct recovering).
  destruct H4 as (H4h & H4v & H4d).
  destruct (release_buf e s t4 a4 i lb Hf Hrep4) as (e5 & t5 & Hr5 & Hlat5 & Hrep5).
  { by rewrite H4h. }
  { right. rewrite H4v, H4d. cbn [a3 ab_copy flush set_view ca_view ca_disk hold].
    rewrite decide_False by congruence. by rewrite disk_read_write_ne by congruence. }
  destruct (release_buf e5 s t5 _ j b (later_free _ _ Hlat5 Hf) Hrep5) as (e6 & t6 & Hr6 & Hlat6 & Hrep6).
  { cbn [unhold ca_held]. by rewrite H4h, lookup_delete_ne. }
  { right. cbn [unhold ca_view ca_disk]. rewrite H4v, H4d. cbn [a3 ab_copy flush set_view ca_view ca_disk hold].
    by rewrite disk_read_write, decide_True. }
  exists e6, t6. split; [by eapply later_trans|]. split.
  { cbn zeta. replace (if recovering then _ else _) with (unhold j (unhold i a4)); [done|].
    unfold a4, a3, ab_copy, flush, set_view, unhold, hold, set_pins.
    destruct recovering; cbn [ca_view ca_disk ca_held ca_pins]; rewrite Hheld;
      by rewrite (proj2 (held_two i j lb b Hij)). }
  intros k. cbn [install_loop]. unfold getl. do 2 (rewrite bind_eq; kred).
  rewrite Hdev, Hstart. fold lb. rewrite bind_eq, Hr1. kred.
  rewrite bind_eq, Hget. kred. rewrite u32_small by lia. rewrite bind_eq, Hr2. kred.
  rewrite bind_eq, Hc. kred. rewrite bind_eq, Hw. kred. rewrite bind_eq, Hu. kred.
  rewrite bind_eq, Hr5. kred. rewrite bind_eq, Hr6. done.
Qed.

Lemma install_loop_spec bs e s a start tail recovering :
  bio_free e -> rep (e_pid e) (l_bio s) a -> ca_held a = ∅ -> lists dev start tail bs s -> NoDup bs ->
  Forall (fun b => home_ok start tail (length bs) b /\ pinned_for recovering a b) bs ->
  (forall j, tail <= j < tail + Z.of_nat (length bs) -> ca_pins a (start + j + 1) = 0%nat) ->
  room a -> (recovering = true -> forall lb, room (hold 0 lb a)) ->
  exists e' t', install_loop (length bs) tail recovering e s = Ok tt e' (put_bio t' s) /\ later e e' /\
    rep (e_pid e') t' (ab_install start tail recovering bs a).
Proof.
  revert e s a tail. induction bs as [|b bs IH]; intros e s a tail Hf Hrep Hh Hl Hnd Hok Hlog Hroom Hroom2.
  { exists e, (l_bio s). split; [by destruct s|]. split; [apply later_refl|done]. }
  apply Forall_cons in Hok as [[Hb Hp] Hok]. apply NoDup_cons in Hnd as [Hbn Hnd]. cbn [length] in *.
  destruct (install_iter e s a start tail recovering b bs) as (e1 & t1 & Hlat1 & Hrep1 & Hrun); auto.
  { apply Hb. } { apply Hb. cbn [length]. lia. } { apply Hlog. lia. }
  rewrite Hrun. destruct (lists_next _ _ _ _ _ _ Hl) as [Hl' _]. cbn [ab_install].
  set (a1 := if recovering then _ else _) in Hrep1 |- *.
  assert (Ha1 : ca_held a1 = ∅ /\ (forall x, x <> b -> ca_pins a1 x = ca_pins a x) /\ room a1 /\
                (recovering = true -> forall lb, room (hold 0 lb a1))).
  { unfold a1. destruct recovering; [by repeat split|]. split; [done|].
    split; [intros x Hx; cbn [set_pins ca_pins]; by rewrite decide_False|]. split; [|done].
    by apply room_unpin. }
  destruct Ha1 as (Ha1 & Ha2 & Ha3 & Ha4).
  destruct (IH e1 (put_bio t1 s) a1 (tail + 1)) as (e2 & t2 & Hrun2 & Hlat2 & Hrep2); eauto with xv6.
  - apply Forall_forall. intros x Hx. rewrite Forall_forall in Hok. destruct (Hok x Hx) as [[H1 H2] H3].
    split; [split; [done|]|].
    + intros j Hj. apply H2. lia.
    + unfold pinned_for in *. rewrite Ha2; [done|]. by intros ->.
  - intros j Hj. rewrite Ha2; [apply Hlog; lia|]. destruct Hb as [_ Hb]. specialize (Hb j).
    intros E. symmetry in E. revert E. apply Hb. lia.
  - exists e2, t2. split; [done|]. split; [by eapply later_trans|done].
Qed.


(** Writing to a held block twice keeps the second. *)
Lemma set_view_twice bn d1 d2 a : set_view bn d2 (set_view bn d1 a) ≡ set_view bn d2 a.
Proof. repeat split. intros x. cbn [set_view ca_view]. by case_decide. Qed.

Lemma set_held_data e s t a i bn (f : list Z -> list Z) :
  rep (e_pid e) t a -> ca_held a !! i = Some bn ->
  exists t', bio (x <- getb i ;; modb i (set_data (f (b_data x)))) e (put_bio t s) = Ok tt e (put_bio t' s) /\
    rep (e_pid e) t' (set_view bn (f (ca_view a bn)) a).
Proof.
  intros Hrep Hi. destruct (bc_buf (dev := dev) (rep := rep) _ _ _ _ _ Hrep Hi) as [Hd _].
  eexists. split; [unfold bio, zoom, getb, modb; rewrite bind_eq; cbn; done|].
  rewrite <- Hd. apply (bc_set_data (dev := dev) (rep := rep) (e_pid e)); [done|]. done.
Qed.

Lemma write_head_loop_spec bs e s t a i start k data :
  0 <= k -> rep (e_pid e) t (set_view start data a) -> ca_held a !! i = Some start ->
  lists dev start k bs s ->
  exists t', write_head_loop (length bs) k i e (put_bio t s) = Ok tt e (put_bio t' s) /\
    rep (e_pid e) t' (set_view start (put_blocks data k bs) a).
Proof.
  revert t k data. induction bs as [|b bs IH]; intros t k data Hk Hrep Hi Hl.
  { exists t. by split. }
  destruct (lists_next _ _ _ _ _ _ Hl) as [Hl' Hget].
  cbn [length write_head_loop put_blocks]. rewrite bind_eq, Hget. kred.
  destruct (set_held_data e s t (set_view start data a) i start (fun d => put_int d (4 + 4 * k) b) Hrep Hi)
    as (t1 & Hrun & Hrep1).
  rewrite bind_eq, Hrun. kred. apply IH; [lia| |done|done].
  rewrite set_view_twice in Hrep1. cbn [set_view ca_view] in Hrep1. by rewrite decide_True in Hrep1.
Qed.

Lemma write_head_spec e s a start bs :
  bio_free e -> rep (e_pid e) (l_bio s) a -> ca_held a = ∅ -> lists dev start 0 bs s ->
  lh_n (l_log s) = Z.of_nat (length bs) -> room a ->
  exists e' t', write_head e s = Ok tt e' (put_bio t' s) /\ later e e' /\
    rep (e_pid e') t' (flush start (set_view start (hdr_enc (ca_view a start) bs) a)).
Proof.
  intros Hf Hrep Hh Hl Hn Hroom.
  destruct (bc_bread (dev := dev) (rep := rep) e (l_bio s) a start) as (i & t1 & Hr1 & Hi & Hrep1); auto.
  { intros i. by rewrite Hh, lookup_empty. }
  assert (Hhi : ca_held (hold i start a) !! i = Some start) by apply lookup_insert_eq.
  destruct (set_held_data e s t1 _ i start (fun d => put_int d 0 (Z.of_nat (length bs))) Hrep1 Hhi)
    as (t2 & Hr2 & Hrep2).
  destruct (write_head_loop_spec bs e s t2 (hold i start a) i start 0 _ ltac:(lia) Hrep2 Hhi Hl)
    as (t3 & Hr3 & Hrep3).
  destruct (bc_bwrite (dev := dev) (rep := rep) e t3 _ i start Hf Hrep3 Hhi) as (t4 & Hr4 & Hrep4).
  destruct (release_buf e s t4 _ i start Hf Hrep4) as (e5 & t5 & Hr5 & Hlat & Hrep5); [done| |].
  { right. cbn [flush set_view ca_view ca_disk]. by rewrite disk_read_write, decide_True. }
  exists e5, t5. split; [|split; [done|]].
  - destruct Hl as (Hdev & Hstart & _). unfold write_head, getl. do 2 (rewrite bind_eq; kred).
    rewrite Hdev, Hstart, bind_eq. rewrite (bio_eq _ _ _ _ _ _ Hr1). kred. rewrite bind_eq. kred.
    cbn [put_bio l_log]. rewrite Hn. rewrite bind_eq, Hr2. kred. rewrite Nat2Z.id.
    rewrite bind_eq, Hr3. kred. rewrite bind_eq.
    rewrite (bio_eq _ _ (put_bio t3 s) _ _ _ Hr4). kred. exact Hr5.
  - replace (flush start (set_view start (hdr_enc (ca_view a start) bs) a))
      with (unhold i (flush start (set_view start (hdr_enc (ca_view a start) bs) (hold i start a)))); [done|].
    unfold unhold, flush, set_view, hold. cbn [ca_view ca_disk ca_held ca_pins]. rewrite Hh.
    by rewrite delete_insert_id by apply lookup_empty.
Qed.

(** read_head() loads what the header block encodes. *)
Lemma read_head_loop_spec bs e s data k :
  0 <= k -> k + Z.of_nat (length bs) <= LOGSIZE -> length (lh_block (l_log s)) = Z.to_nat LOGSIZE ->
  (forall i b, bs !! i = Some b -> hdr_block data (k + Z.of_nat i) = b) ->
  exists blk, read_head_loop (length bs) k data e s =
      Ok tt e (mkLstate (l_bio s) (set_lh_block blk (l_log s))) /\
    length blk = Z.to_nat LOGSIZE /\
    (forall i, (i < Z.to_nat k)%nat -> blk !! i = lh_block (l_log s) !! i) /\
    (forall i b, bs !! i = Some b -> blk !! (Z.to_nat k + i)%nat = Some b).
Proof.
  revert s k. induction bs as [|b bs IH]; intros s k Hk Hlen Hl Hbs.
  { exists (lh_block (l_log s)). split; [by destruct s as [? []]|]. split; [done|]. split; [done|].
    intros i b. by rewrite lookup_nil. }
  cbn [length read_head_loop] in *. rewrite bind_eq. unfold put_block.
  destruct (Z.leb_spec 0 k); [|lia]. destruct (Z.ltb_spec k LOGSIZE); [|lia]. cbn [andb]. unfold modl.
  kred. pose proof (Hbs 0%nat b eq_refl) as Hb0. rewrite Z.add_0_r in Hb0. rewrite Hb0.
  set (s1 := mkLstate _ _).
  destruct (IH s1 (k + 1)) as (blk & Hrun & Hlb & Hold & Hnew); [lia|lia| | |].
  { unfold s1. cbn [l_log set_lh_block lh_block]. by rewrite length_insert. }
  { intros i x Hx. rewrite <- (Hbs (S i) x Hx). f_equal. lia. }
  exists blk. split; [exact Hrun|]. split; [done|]. unfold s1 in Hold. cbn [l_log set_lh_block lh_block] in Hold. split.
  - intros i Hi. rewrite Hold by lia. by rewrite list_lookup_insert_ne by lia.
  - intros [|i] x; cbn [lookup list_lookup].
    + intros [= ->]. rewrite Nat.add_0_r, Hold by lia. apply list_lookup_insert_eq. lia.
    + intros Hx. replace (Z.to_nat k + S i)%nat with (Z.to_nat (k + 1) + i)%nat by lia. by apply Hnew.
Qed.

Lemma read_head_spec e s a start bs :
  bio_free e -> rep (e_pid e) (l_bio s) a -> ca_held a = ∅ ->
  lg_dev (l_log s) = dev -> lg_start (l_log s) = start -> length (lh_block (l_log s)) = Z.to_nat LOGSIZE ->
  room a -> ca_pins a start = 0%nat -> Z.of_nat (length bs) <= LOGSIZE ->
  hdr_n (ca_view a start) = Z.of_nat (length bs) ->
  (forall i b, bs !! i = Some b -> hdr_block (ca_view a start) (Z.of_nat i) = b) ->
  exists e' s', read_head e s = Ok tt e' s' /\ later e e' /\ rep (e_pid e') (l_bio s') a /\
    lists dev start 0 bs s' /\ lh_n (l_log s') = Z.of_nat (length bs).
Proof.
  intros Hf Hrep Hh Hdev Hstart Hlen Hroom Hpin Hsz Hn Hb.
  assert (Hclean : ca_view a start = disk_read (ca_disk a) start).
  { apply (bc_clean (dev := dev) (rep := rep) (e_pid e) (l_bio s)); auto.
    intros i. by rewrite Hh, lookup_empty. }
  destruct (bc_bread (dev := dev) (rep := rep) e (l_bio s) a start) as (i & t1 & Hr1 & Hi & Hrep1); auto.
  { intros i. by rewrite Hh, lookup_empty. }
  assert (Hhi : ca_held (hold i start a) !! i = Some start) by apply lookup_insert_eq.
  destruct (bc_buf (dev := dev) (rep := rep) _ _ _ _ _ Hrep1 Hhi) as [Hd _]. cbn [hold ca_view] in Hd.
  unfold read_head, getl. do 2 (rewrite bind_eq; kred). rewrite Hdev, Hstart, bind_eq.
  rewrite (bio_eq _ _ _ _ _ _ Hr1). kred. rewrite bind_eq, bio_getb. kred. cbn [put_bio l_bio].
  rewrite Hd, Hn, Nat2Z.id. rewrite bind_eq. unfold modl. kred. cbn [put_bio l_log l_bio].
  set (s2 := mkLstate t1 _).
  destruct (read_head_loop_spec bs e s2 (ca_view a start) 0) as (blk & Hr2 & Hlb & _ & Hnew);
    [lia|lia|done|done|].
  rewrite bind_eq, Hr2. kred.
  destruct (release_buf e (mkLstate t1 (set_lh_block blk (l_log s2))) t1 _ i start Hf Hrep1 Hhi)
    as (e5 & t5 & Hr5 & Hlat & Hrep5); [by right|].
  eexists e5, _. split; [exact Hr5|]. split; [done|]. split; [|split; [|done]].
  - replace a with (unhold i (hold i start a)); [done|].
    unfold unhold, hold. destruct a as [va da ha pa]. cbn [ca_view ca_disk ca_held ca_pins] in *. subst.
    by rewrite delete_insert_id by apply lookup_empty.
  - split; [done|]. split; [done|]. split; [lia|]. done.
Qed.
End logspec.
