(* ===== verification/LogCrash.v ===== *)
(** * Crash safety of the log

    A crash leaves on the disk the effect of some prefix of the writes made
    so far.  Recovery is what a booting kernel runs: binit() and initlog() on
    that disk.  The theorem at the end of the file: whenever the machine
    stops during commit(), recovery yields either all the updates of the
    transaction or none of them. *)

From S2P Require Import Prelude KMonad Sleeplock Bio BioSpec BioAbs Log LogSpec.
Open Scope kmonad_scope.

(** ** Sequences of disk writes *)

Definition disk_apply (ws : list (Z * list Z)) (d : disk) : disk :=
  foldl (fun d w => disk_write w.1 w.2 d) d ws.

Lemma disk_apply_app ws1 ws2 d : disk_apply (ws1 ++ ws2) d = disk_apply ws2 (disk_apply ws1 d).
Proof. apply foldl_app. Qed.

Lemma disk_apply_writes ws d : d_writes (disk_apply ws d) = rev ws ++ d_writes d.
Proof.
  revert d. induction ws as [|w ws IH]; intros d; cbn; [done|].
  fold (disk_apply ws (disk_write w.1 w.2 d)). rewrite IH. destruct w. by rewrite <- app_assoc.
Qed.

(** The last write to a block wins. *)
Lemma disk_apply_other ws d x :
  (forall w, w ∈ ws -> w.1 <> x) -> disk_read (disk_apply ws d) x = disk_read d x.
Proof.
  revert d. induction ws as [|w ws IH]; intros d H; [done|]. cbn.
  fold (disk_apply ws (disk_write w.1 w.2 d)). rewrite IH by (intros w' Hw'; apply H; by constructor).
  apply disk_read_write_ne. apply not_eq_sym, H. constructor.
Qed.

(** When all the writes to [x] agree with [V], so does the disk. *)
Lemma disk_apply_value ws d x v :
  (forall w, w ∈ ws -> w.1 = x -> w.2 = v) -> (exists w, w ∈ ws /\ w.1 = x) ->
  disk_read (disk_apply ws d) x = v.
Proof.
  intros Hv (w0 & Hw0 & Hx0). apply list_elem_of_split in Hw0 as (l1 & l2 & ->).
  rewrite disk_apply_app. cbn. fold (disk_apply l2 (disk_write w0.1 w0.2 (disk_apply l1 d))).
  assert (Hw : w0.2 = v) by (apply Hv; [set_solver|done]). rewrite Hx0, Hw.
  assert (Hl2 : forall w, w ∈ l2 -> w.1 = x -> w.2 = v) by (intros w Hw'; apply Hv; set_solver).
  clear -Hl2. generalize (disk_apply l1 d) as d0. intros d0.
  enough (H : forall ws d, (forall w, w ∈ ws -> w.1 = x -> w.2 = v) -> disk_read d x = v ->
            disk_read (disk_apply ws d) x = v) by (apply H; [done|apply disk_read_write]).
  clear. intros ws. induction ws as [|w ws IH]; intros d Hv Hd; [done|]. cbn.
  fold (disk_apply ws (disk_write w.1 w.2 d)). apply IH; [intros w' Hw'; apply Hv; by constructor|].
  destruct (decide (w.1 = x)) as [E|E].
  - rewrite E, disk_read_write. apply Hv; [constructor|done].
  - by rewrite disk_read_write_ne by congruence.
Qed.

(** ** The writes of the loops *)

Fixpoint log_writes (start tail : Z) (bs : list Z) (V : Z -> list Z) : list (Z * list Z) :=
  match bs with
  | [] => []
  | b :: bs => (start + tail + 1, V b) :: log_writes start (tail + 1) bs V
  end.

Fixpoint install_writes (start tail : Z) (bs : list Z) (V : Z -> list Z) : list (Z * list Z) :=
  match bs with
  | [] => []
  | b :: bs => (b, V (start + tail + 1)) :: install_writes start (tail + 1) bs V
  end.

Lemma log_writes_elem start tail bs V w :
  w ∈ log_writes start tail bs V <->
  exists i b, bs !! i = Some b /\ w = (start + tail + Z.of_nat i + 1, V b).
Proof.
  revert tail. induction bs as [|b bs IH]; intros tail; cbn [log_writes].
  - split; [by intros ?%elem_of_nil|]. intros (i & b & H & _). by rewrite lookup_nil in H.
  - rewrite elem_of_cons, IH. split.
    + intros [->|(i & x & Hx & ->)]; [exists 0%nat, b|exists (S i), x]; (split; [done|]); f_equal; lia.
    + intros ([|i] & x & Hx & ->); cbn in Hx; [left|right; exists i, x; split; [done|]];
        simplify_eq; f_equal; lia.
Qed.

Lemma install_writes_elem start tail bs V w :
  w ∈ install_writes start tail bs V <->
  exists i b, bs !! i = Some b /\ w = (b, V (start + tail + Z.of_nat i + 1)).
Proof.
  revert tail. induction bs as [|b bs IH]; intros tail; cbn [install_writes].
  - split; [by intros ?%elem_of_nil|]. intros (i & b & H & _). by rewrite lookup_nil in H.
  - rewrite elem_of_cons, IH. split.
    + intros [->|(i & x & Hx & ->)]; [exists 0%nat, b|exists (S i), x]; (split; [done|]); do 2 f_equal; lia.
    + intros ([|i] & x & Hx & ->); cbn in Hx; [left|right; exists i, x; split; [done|]];
        simplify_eq; do 2 f_equal; lia.
Qed.

(** Blocks of the log area that hold the copies of [n] blocks from [tail]. *)
Definition outside_log (start tail : Z) (n : nat) (b : Z) : Prop :=
  forall j, tail <= j < tail + Z.of_nat n -> b <> start + j + 1.

Lemma install_writes_ext start tail bs V V' :
  (forall j, tail <= j < tail + Z.of_nat (length bs) -> V (start + j + 1) = V' (start + j + 1)) ->
  install_writes start tail bs V = install_writes start tail bs V'.
Proof.
  revert tail. induction bs as [|b bs IH]; intros tail H; cbn [install_writes length] in *; [done|].
  rewrite H by lia. f_equal. apply IH. intros j Hj. apply H. lia.
Qed.

Lemma log_writes_ext start tail bs V V' :
  (forall b, b ∈ bs -> V b = V' b) -> log_writes start tail bs V = log_writes start tail bs V'.
Proof.
  revert tail. induction bs as [|b bs IH]; intros tail H; cbn [log_writes]; [done|].
  rewrite H by constructor. f_equal. apply IH. intros x Hx. apply H. by constructor.
Qed.

Lemma outside_next start tail n b : outside_log start tail (S n) b -> outside_log start (tail + 1) n b.
Proof. intros H j Hj. apply H. lia. Qed.

Lemma ab_write_log_spec bs a start tail :
  Forall (outside_log start tail (length bs)) bs ->
  let a' := ab_write_log start tail bs a in
  ca_disk a' = disk_apply (log_writes start tail bs (ca_view a)) (ca_disk a) /\
  ca_held a' = ca_held a /\ ca_pins a' = ca_pins a /\
  (forall x, outside_log start tail (length bs) x -> ca_view a' x = ca_view a x) /\
  (forall i b, bs !! i = Some b -> ca_view a' (start + tail + Z.of_nat i + 1) = ca_view a b).
Proof.
  revert a tail. induction bs as [|b bs IH]; intros a tail Hok; cbn [ab_write_log length log_writes] in *.
  { repeat (split; [done|]). intros i x. by rewrite lookup_nil. }
  apply Forall_cons in Hok as [Hb Hok]. set (a1 := ab_copy (start + tail + 1) b a).
  assert (Hok' : Forall (outside_log start (tail + 1) (length bs)) bs)
    by (eapply Forall_impl; [exact Hok|]; intros x; apply outside_next).
  assert (Hv1 : forall x, x <> start + tail + 1 -> ca_view a1 x = ca_view a x)
    by (intros x Hx; unfold a1; cbn [ab_copy flush set_view ca_view]; by rewrite decide_False).
  assert (Hv2 : ca_view a1 (start + tail + 1) = ca_view a b)
    by (unfold a1; cbn [ab_copy flush set_view ca_view]; by rewrite decide_True).
  assert (Hne : forall x, x ∈ bs -> x <> start + tail + 1).
  { intros x Hx. rewrite Forall_forall in Hok. apply Hok; [done|lia]. }
  destruct (IH a1 (tail + 1) Hok') as (H1 & H2 & H3 & H4 & H5). cbn zeta in *.
  split; [|split; [done|split; [done|split]]].
  - rewrite H1. rewrite (log_writes_ext _ _ _ (ca_view a1) (ca_view a)) by (intros x Hx; auto).
    cbn [disk_apply foldl fst snd]. unfold a1 at 1. cbn [ab_copy flush set_view ca_view ca_disk].
    by rewrite decide_True.
  - intros x Hx. rewrite H4 by by apply outside_next. apply Hv1. apply Hx. lia.
  - intros [|i] x; cbn [lookup list_lookup].
    + intros [= <-]. rewrite <- Hv2. replace (start + tail + Z.of_nat 0 + 1) with (start + tail + 1) by lia.
      apply H4. intros j Hj. lia.
    + intros Hx. rewrite <- (Hv1 x) by (apply Hne; by eapply list_elem_of_lookup_2).
      rewrite <- (H5 i x Hx). f_equal. lia.
Qed.

Lemma ab_install_spec bs a start tail recovering :
  Forall (outside_log start tail (length bs)) bs ->
  let a' := ab_install start tail recovering bs a in
  ca_disk a' = disk_apply (install_writes start tail bs (ca_view a)) (ca_disk a) /\
  ca_held a' = ca_held a /\
  (forall x, x ∉ bs -> ca_view a' x = ca_view a x /\ ca_pins a' x = ca_pins a x) /\
  (forall x, ca_pins a' x = if recovering then ca_pins a x else if decide (x ∈ bs) then 0%nat else ca_pins a x).
Proof.
  revert a tail. induction bs as [|b bs IH]; intros a tail Hok; cbn [ab_install length install_writes] in *.
  { repeat (split; [done|]). intros x. rewrite decide_False by apply not_elem_of_nil. by destruct recovering. }
  apply Forall_cons in Hok as [Hb Hok]. set (a1 := if recovering then _ else _).
  assert (Hok' : Forall (outside_log start (tail + 1) (length bs)) bs)
    by (eapply Forall_impl; [exact Hok|]; intros x; apply outside_next).
  assert (Hv1 : forall x, x <> b -> ca_view a1 x = ca_view a x /\ ca_pins a1 x = ca_pins a x).
  { intros x Hx. unfold a1. destruct recovering; cbn [set_pins ab_copy flush set_view ca_view ca_pins];
      by rewrite ?decide_False. }
  assert (Hd1 : ca_disk a1 = disk_write b (ca_view a (start + tail + 1)) (ca_disk a)).
  { unfold a1. destruct recovering; cbn [set_pins ab_copy flush set_view ca_view ca_disk];
      by rewrite decide_True. }
  assert (Hh1 : ca_held a1 = ca_held a) by (unfold a1; by destruct recovering).
  destruct (IH a1 (tail + 1) Hok') as (H1 & H2 & H3 & H4). cbn zeta in *.
  split; [|split; [congruence|split]].
  - rewrite H1, Hd1. cbn [disk_apply foldl fst snd]. fold (disk_apply (install_writes start (tail + 1) bs (ca_view a1))).
    erewrite install_writes_ext; [done|]. intros j Hj. apply Hv1. apply not_eq_sym, Hb. lia.
  - intros x Hx. apply not_elem_of_cons in Hx as [Hxb Hx]. destruct (H3 x Hx) as [-> ->]. by apply Hv1.
  - intros x. rewrite H4. destruct (decide (x = b)) as [->|Hne].
    + unfold a1. destruct recovering; cbn [set_pins ab_copy flush set_view ca_pins]; [done|].
      rewrite (decide_True (P := b ∈ b :: bs)) by constructor. case_decide; [done|by rewrite decide_True].
    + rewrite (proj2 (Hv1 x Hne)). destruct recovering; [done|].
      repeat case_decide; try done; exfalso; set_solver.
Qed.

(** ** commit() and recovery as transformations of the store *)

(** A block of the file system proper: not the header nor a log block. *)
Definition data_block (start b : Z) : Prop := b < start \/ start + LOGSIZE <= b.

Lemma data_outside start b n :
  data_block start b -> Z.of_nat n < LOGSIZE -> outside_log start 0 n b.
Proof. intros Hb Hn j Hj. destruct Hb; lia. Qed.

Lemma header_outside start n : outside_log start 0 n start.
Proof. intros j Hj. lia. Qed.

(** Installing a transaction whose log blocks hold the contents [V]. *)
Lemma install_writes_home start bs (V W : Z -> list Z) :
  (forall i b, bs !! i = Some b -> W (start + Z.of_nat i + 1) = V b) ->
  install_writes start 0 bs W = map (fun b => (b, V b)) bs.
Proof.
  enough (H : forall tail, (forall i b, bs !! i = Some b -> W (start + tail + Z.of_nat i + 1) = V b) ->
            install_writes start tail bs W = map (fun b => (b, V b)) bs).
  { intros HW. apply H. intros i b Hb. rewrite <- (HW i b Hb). f_equal. lia. }
  induction bs as [|b bs IH]; intros tail H; cbn [install_writes map]; [done|].
  f_equal.
  - f_equal. rewrite <- (H 0%nat b eq_refl). f_equal. lia.
  - apply IH. intros i x Hx. rewrite <- (H (S i) x Hx). f_equal. lia.
Qed.

Definition commit_writes (start : Z) (bs : list Z) (V : Z -> list Z) : list (Z * list Z) :=
  log_writes start 0 bs V ++ [(start, hdr_enc (V start) bs)] ++
  map (fun b => (b, V b)) bs ++ [(start, hdr_enc (hdr_enc (V start) bs) [])].

Section transformations.
Context {dev : Z} {rep : Z -> bstate -> cabs -> Prop} `{HBC : !BlockCache dev rep}.

(** What the transaction [bs] on the log at [start] looks like before commit. *)
Record logged (s : lstate) (a : cabs) (start : Z) (bs : list Z) : Prop := {
  lo_held : ca_held a = ∅;
  lo_lists : lists dev start 0 bs s;
  lo_n : lh_n (l_log s) = Z.of_nat (length bs);
  lo_nodup : NoDup bs;
  lo_blocks : Forall (fun b => 0 <= b < 2 ^ 31 /\ data_block start b) bs;
  lo_pins : forall b, ca_pins a b = if decide (b ∈ bs) then 1%nat else 0%nat;
  lo_size : (length bs < NBUF)%nat
}.

Lemma logged_room s a start bs : logged s a start bs -> room a.
Proof.
  intros H. exists (list_to_set bs). split; [|split].
  - intros i bn. by rewrite (lo_held _ _ _ _ H), lookup_empty.
  - intros bn Hp. rewrite (lo_pins _ _ _ _ H) in Hp. case_decide; [|done]. by apply elem_of_list_to_set.
  - rewrite size_list_to_set by apply H. apply H.
Qed.

Lemma logged_small s a start bs : logged s a start bs -> Z.of_nat (length bs) < LOGSIZE.
Proof. intros H. pose proof (lo_size _ _ _ _ H). unfold NBUF, LOGSIZE, MAXOPBLOCKS in *. lia. Qed.

Lemma logged_outside s a start bs :
  logged s a start bs -> Forall (outside_log start 0 (length bs)) bs.
Proof.
  intros H. eapply Forall_impl; [apply H|]. intros b [_ Hb]. cbn beta.
  eapply data_outside; [done|]. by eapply logged_small.
Qed.

Lemma logged_home s a start bs :
  logged s a start bs -> Forall (home_ok start 0 (length bs)) bs.
Proof.
  intros H. apply Forall_forall. intros b Hb. pose proof (logged_outside _ _ _ _ H) as Ho.
  rewrite Forall_forall in Ho. pose proof (lo_blocks _ _ _ _ H) as Hbl. rewrite Forall_forall in Hbl.
  split; [by apply Hbl|by apply Ho].
Qed.

(** The first half of commit(): log blocks and header reach the disk. *)
Lemma commit_logs e s a start bs :
  bio_free e -> rep (e_pid e) (l_bio s) a -> logged s a start bs ->
  exists e1 t1 e2 t2 a2, write_log e s = Ok tt e1 (put_bio t1 s) /\
    write_head e1 (put_bio t1 s) = Ok tt e2 (put_bio t2 s) /\ later e e2 /\
    rep (e_pid e2) t2 a2 /\ ca_held a2 = ∅ /\ ca_pins a2 = ca_pins a /\
    ca_view a2 start = hdr_enc (ca_view a start) bs /\
    (forall i b, bs !! i = Some b -> ca_view a2 (start + Z.of_nat i + 1) = ca_view a b) /\
    ca_disk a2 = disk_apply (log_writes start 0 bs (ca_view a) ++ [(start, hdr_enc (ca_view a start) bs)])
                   (ca_disk a).
Proof.
  intros Hf Hrep Hlo. pose proof (logged_room _ _ _ _ Hlo) as Hroom.
  pose proof (logged_outside _ _ _ _ Hlo) as Hout. pose proof (logged_home _ _ _ _ Hlo) as Hhome.
  pose proof Hlo as [Hheld Hlists Hn Hnd Hbl Hpins Hsz].
  destruct (write_log_loop_spec bs e s a start 0) as (e1 & t1 & Hr1 & Hlat1 & Hrep1); auto.
  { apply Forall_forall. intros b Hb. rewrite Forall_forall in Hhome. split; [by apply Hhome|].
    rewrite Hpins, decide_True by done. done. }
  destruct (ab_write_log_spec bs a start 0 Hout) as (Hd1 & Hh1 & Hp1 & Hv1 & Hv1').
  set (a1 := ab_write_log start 0 bs a) in *. cbn zeta in *.
  destruct (write_head_spec e1 (put_bio t1 s) a1 start bs) as (e2 & t2 & Hr2 & Hlat2 & Hrep2); auto.
  { by eapply later_free. } { congruence. } { by eapply room_ext. }
  rewrite (Hv1 start) in Hrep2 by apply header_outside.
  eexists e1, t1, e2, t2, _. split; [unfold write_log, getl; rewrite bind_eq; kred; by rewrite Hn, Nat2Z.id|].
  split; [exact Hr2|]. split; [by eapply later_trans|]. split; [exact Hrep2|].
  cbn [flush set_view ca_view ca_disk ca_held ca_pins]. rewrite decide_True by done.
  split; [congruence|]. split; [done|]. split; [done|]. split.
  - intros i b Hb. rewrite decide_False by lia. rewrite <- (Hv1' i b Hb). f_equal. lia.
  - by rewrite Hd1, disk_apply_app.
Qed.

Lemma all_zero_room a : ca_held a = ∅ -> (forall b, ca_pins a b = 0%nat) -> room a /\ forall lb, room (hold 0 lb a).
Proof.
  intros Hh Hp. split; [exists ∅|intros lb; exists {[lb]}]; (split; [|split]); cbn [hold ca_held ca_pins].
  - intros i bn. by rewrite Hh, lookup_empty.
  - intros bn Hn. by rewrite Hp in Hn.
  - rewrite size_empty. unfold NBUF. lia.
  - intros i bn. rewrite Hh, lookup_insert, lookup_empty. case_decide; [|done]. intros [= ->]. set_solver.
  - intros bn Hn. by rewrite Hp in Hn.
  - rewrite size_singleton. unfold NBUF. lia.
Qed.

(** The second half, also the body of recovery: install and clear the header. *)
Lemma install_and_clear e s a start bs (recovering : bool) (V : Z -> list Z) :
  bio_free e -> rep (e_pid e) (l_bio s) a -> ca_held a = ∅ -> lists dev start 0 bs s ->
  lh_n (l_log s) = Z.of_nat (length bs) -> NoDup bs ->
  Forall (fun b => 0 <= b < 2 ^ 31 /\ data_block start b) bs -> Z.of_nat (length bs) < LOGSIZE ->
  (forall b, ca_pins a b = if recovering then 0%nat else if decide (b ∈ bs) then 1%nat else 0%nat) ->
  room a -> (forall i b, bs !! i = Some b -> ca_view a (start + Z.of_nat i + 1) = V b) ->
  exists e' s' a', (install_trans recovering ;;; modl (set_lh_n 0) ;;; write_head) e s = Ok tt e' s' /\
    later e e' /\ rep (e_pid e') (l_bio s') a' /\ ca_held a' = ∅ /\ (forall b, ca_pins a' b = 0%nat) /\
    l_log s' = set_lh_n 0 (l_log s) /\
    ca_disk a' = disk_apply (map (fun b => (b, V b)) bs ++ [(start, hdr_enc (ca_view a start) [])]) (ca_disk a).
Proof.
  intros Hf Hrep Hheld Hlists Hn Hnd Hbl Hsz Hpins Hroom HV.
  assert (Hdat : forall b, b ∈ bs -> data_block start b)
    by (intros b Hb; rewrite Forall_forall in Hbl; by apply Hbl).
  assert (Hout : Forall (outside_log start 0 (length bs)) bs)
    by (apply Forall_forall; intros b Hb; eapply data_outside; eauto).
  assert (Hlogpin : forall j, 0 <= j < 0 + Z.of_nat (length bs) -> ca_pins a (start + j + 1) = 0%nat).
  { intros j Hj. rewrite Hpins. destruct recovering; [done|]. rewrite decide_False; [done|].
    intros Hb. apply Hdat in Hb. destruct Hb; lia. }
  destruct (install_loop_spec bs e s a start 0 recovering) as (e1 & t1 & Hr1 & Hlat1 & Hrep1); auto.
  { apply Forall_forall. intros b Hb. rewrite Forall_forall in Hbl, Hout. split; [split; [by apply Hbl|by apply Hout]|].
    unfold pinned_for. rewrite Hpins. destruct recovering; [done|]. by rewrite decide_True. }
  { intros ->. by apply all_zero_room. }
  destruct (ab_install_spec bs a start 0 recovering Hout) as (Hd1 & Hh1 & Hv1 & Hp1).
  set (a1 := ab_install start 0 recovering bs a) in *. cbn zeta in *.
  assert (Hp0 : forall b, ca_pins a1 b = 0%nat).
  { intros b. rewrite Hp1, Hpins. destruct recovering; [done|]. by case_decide. }
  set (s1 := mkLstate t1 (set_lh_n 0 (l_log s))).
  destruct (write_head_spec e1 s1 a1 start []) as (e2 & t2 & Hr2 & Hlat2 & Hrep2); auto.
  { by eapply later_free. } { congruence. }
  { destruct Hlists as (H1 & H2 & _). split; [done|]. split; [done|]. split; [lia|]. intros i b. by rewrite lookup_nil. }
  { apply all_zero_room; [congruence|done]. }
  eexists e2, (put_bio t2 s1), _. split; [|split; [by eapply later_trans|split; [exact Hrep2|]]].
  - rewrite bind_eq. unfold install_trans, getl. rewrite bind_eq. kred. rewrite Hn, Nat2Z.id, Hr1. kred.
    rewrite bind_eq. unfold modl. kred. exact Hr2.
  - cbn [flush set_view ca_view ca_disk ca_held ca_pins]. rewrite decide_True by done.
    split; [congruence|]. split; [done|]. split; [done|]. rewrite disk_apply_app, Hd1.
    rewrite (install_writes_home start bs V) by done.
    destruct (Hv1 start) as [-> _]; [|done]. intros Hb. apply Hdat in Hb. destruct Hb; [lia|]. unfold LOGSIZE, MAXOPBLOCKS in *. lia.
Qed.

Lemma commit_spec e s a start bs :
  bio_free e -> rep (e_pid e) (l_bio s) a -> logged s a start bs -> bs <> [] ->
  exists e' s' a', commit e s = Ok tt e' s' /\ later e e' /\ rep (e_pid e') (l_bio s') a' /\
    ca_held a' = ∅ /\ (forall b, ca_pins a' b = 0%nat) /\ l_log s' = set_lh_n 0 (l_log s) /\
    ca_disk a' = disk_apply (commit_writes start bs (ca_view a)) (ca_disk a).
Proof.
  intros Hf Hrep Hlo Hne.
  destruct (commit_logs e s a start bs Hf Hrep Hlo) as
    (e1 & t1 & e2 & t2 & a2 & Hr1 & Hr2 & Hlat & Hrep2 & Hh2 & Hp2 & Hvs & Hvl & Hd2).
  pose proof (logged_small _ _ _ _ Hlo) as Hsm. pose proof (logged_room _ _ _ _ Hlo) as Hroom.
  pose proof Hlo as [Hheld Hlists Hn Hnd Hbl Hpins Hsz].
  destruct (install_and_clear e2 (put_bio t2 s) a2 start bs false (ca_view a))
    as (e3 & s3 & a3 & Hr3 & Hlat3 & Hrep3 & Hh3 & Hp3 & Hlog3 & Hd3); auto.
  { by eapply later_free. } { intros b. by rewrite Hp2. } { by eapply room_ext; [| |exact Hroom]; [congruence|]. }
  exists e3, s3, a3. split; [|split; [by eapply later_trans|]].
  - unfold commit, getl. rewrite bind_eq. kred. rewrite Hn.
    destruct (Z.ltb_spec 0 (Z.of_nat (length bs))); [|destruct bs; simpl in *; [done|lia]].
    rewrite bind_eq, Hr1. kred. rewrite bind_eq, Hr2. kred. exact Hr3.
  - repeat (split; [done|]). rewrite Hd3, Hvs, Hd2, <- disk_apply_app. unfold commit_writes.
    by rewrite <- !app_assoc.
Qed.
End transformations.

(** ** Recovery *)

(** The store of a cache that holds nothing yet. *)
Definition fresh (d : disk) : cabs := mkCabs (disk_read d) d ∅ (fun _ => 0%nat).

Lemma fresh_rep dev pid s d :
  dev <> 0 -> bstruct s -> dsk s = d ->
  Forall (fun b => b_dev b = 0 /\ b_refcnt b = 0 /\ b_valid b = false /\ b_lock b = initsleeplock) (bufs s) ->
  babs dev pid s (fresh d).
Proof.
  intros Hd Hs Hdk HF.
  assert (Hb : forall i, (i < NBUF)%nat -> b_dev (nth_buf i s) = 0 /\ b_refcnt (nth_buf i s) = 0 /\
                b_valid (nth_buf i s) = false /\ b_lock (nth_buf i s) = initsleeplock).
  { intros i Hi. unfold nth_buf. destruct Hs as [[l [Hlen _]] _].
    destruct (lookup_lt_is_Some_2 (bufs s) i) as [b Hb]; [lia|].
    rewrite (list_lookup_total_correct _ _ _ Hb). by eapply (Forall_lookup_1 _ _ _ _ HF). }
  split; cbn [fresh ca_view ca_disk ca_held ca_pins]; try done.
  intros i Hi. destruct (Hb i Hi) as (H1 & H2 & H3 & H4). split; [by right|].
  cbn [fresh ca_held]. rewrite lookup_empty. split; [by rewrite H4|]. split; intros E; congruence.
Qed.

(** What main() and the first process run on the way up: binit(), initlog(). *)
Definition boot_log (dev logstart nlog : Z) : K lstate unit :=
  bio binit ;;; initlog dev logstart nlog.

(** The header of the disk [d] describes a transaction [bs] with contents [V]. *)
Record committed (d : disk) (start : Z) (bs : list Z) (V : Z -> list Z) : Prop := {
  co_n : hdr_n (disk_read d start) = Z.of_nat (length bs);
  co_block : forall i b, bs !! i = Some b -> hdr_block (disk_read d start) (Z.of_nat i) = b;
  co_nodup : NoDup bs;
  co_blocks : Forall (fun b => 0 <= b < 2 ^ 31 /\ data_block start b) bs;
  co_size : Z.of_nat (length bs) < LOGSIZE;
  co_log : forall i b, bs !! i = Some b -> disk_read d (start + Z.of_nat i + 1) = V b
}.

Lemma boot_log_spec dev start nlog e d bs V :
  dev <> 0 -> bio_free e -> committed d start bs V ->
  exists e' s', boot_log dev start nlog e (mkLstate (bstate0 d) log0) = Ok tt e' s' /\
    dsk (l_bio s') = disk_apply (map (fun b => (b, V b)) bs ++ [(start, hdr_enc (disk_read d start) [])]) d.
Proof.
  intros Hdev Hf [Hn Hb Hnd Hbl Hsz HV].
  destruct (binit_run d e) as (t & Hr0 & Hst & _ & Hdk & HF).
  pose proof (fresh_rep dev (e_pid e) t d Hdev Hst Hdk HF) as Hrep.
  pose proof (bio_cache dev Hdev) as HBC.
  set (s1 := mkLstate t (set_ldev dev (set_size nlog (set_start start log0)))).
  destruct (all_zero_room (fresh d)) as [Hroom _]; [done|done|].
  destruct (read_head_spec e s1 (fresh d) start bs) as (e1 & s2 & Hr1 & Hlat1 & Hrep1 & Hl1 & Hn1); auto with lia.
  destruct (install_and_clear e1 s2 (fresh d) start bs true V)
    as (e2 & s3 & a3 & Hr2 & Hlat2 & Hrep2 & _ & _ & _ & Hd3); auto.
  { by eapply later_free. }
  exists e2, s3. split.
  - unfold boot_log. rewrite bind_eq, (bio_eq _ _ (mkLstate (bstate0 d) log0) _ _ _ Hr0). kred. unfold initlog, modl.
    change (Z.of_nat BSIZE <=? sizeof_logheader) with false. cbn iota.
    do 3 (rewrite bind_eq; kred). unfold recover_from_log.
    change (mkLstate _ _) with s1. rewrite bind_eq, Hr1. kred. exact Hr2.
  - by rewrite (ab_disk _ _ _ _ Hrep2), Hd3.
Qed.

(** ** Crashing during commit *)

(** After recovery the file system's blocks hold what [W] says. *)
Definition recovers (dev start nlog : Z) (d : disk) (W : Z -> list Z) : Prop :=
  forall e, bio_free e -> exists e' s',
    boot_log dev start nlog e (mkLstate (bstate0 d) log0) = Ok tt e' s' /\
    forall x, data_block start x -> disk_read (dsk (l_bio s')) x = W x.

Lemma recovers_intro dev start nlog d bs V W :
  dev <> 0 -> committed d start bs V ->
  (forall x, data_block start x -> x ∈ bs -> V x = W x) ->
  (forall x, data_block start x -> x ∉ bs -> disk_read d x = W x) ->
  recovers dev start nlog d W.
Proof.
  intros Hdev Hc Hin Hout e Hf.
  destruct (boot_log_spec dev start nlog e d bs V Hdev Hf Hc) as (e' & s' & Hrun & Hd).
  exists e', s'. split; [exact Hrun|]. clear Hrun. intros x Hx. rewrite Hd, disk_apply_app. cbn.
  rewrite disk_read_write_ne by (destruct Hx; unfold LOGSIZE, MAXOPBLOCKS in *; lia).
  destruct (decide (x ∈ bs)) as [Hb|Hb].
  - rewrite <- Hin by done. apply disk_apply_value.
    + intros w Hw Hwx. apply list_elem_of_In, in_map_iff in Hw as (b & <- & _). simpl in *. by subst.
    + exists (x, V x). split; [|done]. apply list_elem_of_In, in_map_iff. exists x.
      split; [done|]. by apply list_elem_of_In.
  - rewrite <- Hout by done. apply disk_apply_other. intros w Hw Hwx.
    apply list_elem_of_In, in_map_iff in Hw as (b & <- & Hb'%list_elem_of_In). simpl in *. by subst.
Qed.

Section crash.
Variables (dev start nlog : Z) (d0 : disk) (bs : list Z) (V : Z -> list Z).
Hypothesis Hdev : dev <> 0.
Hypothesis Hnd : NoDup bs.
Hypothesis Hbl : Forall (fun b => 0 <= b < 2 ^ 31 /\ data_block start b) bs.
Hypothesis Hsz : Z.of_nat (length bs) < LOGSIZE.
Hypothesis Hlen : length (V start) = BSIZE.
Hypothesis Hclear : hdr_n (disk_read d0 start) = 0.
Hypothesis Hclean : forall x, x ∉ bs -> V x = disk_read d0 x.

Lemma home_data b : b ∈ bs -> data_block start b.
Proof. intros Hb. rewrite Forall_forall in Hbl. by apply Hbl. Qed.

Lemma committed_nil d : hdr_n (disk_read d start) = 0 -> committed d start [] V.
Proof.
  intros H. split; [done|intros i b; by rewrite lookup_nil|constructor|constructor|by vm_compute|].
  intros i b. by rewrite lookup_nil.
Qed.

Lemma log_writes_at w : w ∈ log_writes start 0 bs V -> start < w.1 < start + LOGSIZE.
Proof.
  intros (i & b & Hb & ->)%log_writes_elem. apply lookup_lt_Some in Hb. simpl. lia.
Qed.

(** While the log blocks are being written the transaction is not there. *)
Lemma crash_before ws1 A2 :
  log_writes start 0 bs V = ws1 ++ A2 -> recovers dev start nlog (disk_apply ws1 d0) (disk_read d0).
Proof.
  intros HA. assert (Hw : forall w, w ∈ ws1 -> start < w.1 < start + LOGSIZE).
  { intros w Hw. apply log_writes_at. rewrite HA. apply elem_of_app. by left. }
  apply (recovers_intro _ _ _ _ [] V); auto.
  - apply committed_nil. rewrite disk_apply_other; [done|]. intros w Hw'. apply Hw in Hw'. lia.
  - by intros x _ ?%elem_of_nil.
  - intros x Hx _. apply disk_apply_other. intros w Hw' <-. apply Hw in Hw'. destruct Hx; lia.
Qed.

Lemma home_writes I1 I2 w :
  map (fun b => (b, V b)) bs = I1 ++ I2 -> w ∈ I1 -> w.1 ∈ bs /\ w.2 = V w.1.
Proof.
  intros HI Hw. assert (Hin : w ∈ map (fun b => (b, V b)) bs) by (rewrite HI; apply elem_of_app; by left).
  apply list_elem_of_In, in_map_iff in Hin as (b & <- & Hb). split; [by apply list_elem_of_In|done].
Qed.

(** From the header write on it is there, whatever has been installed. *)
Lemma crash_after I1 I2 :
  map (fun b => (b, V b)) bs = I1 ++ I2 ->
  recovers dev start nlog
    (disk_apply (log_writes start 0 bs V ++ [(start, hdr_enc (V start) bs)] ++ I1) d0) V.
Proof.
  intros HI. set (ws1 := _ ++ _ ++ I1).
  assert (Hel : forall w, w ∈ ws1 -> w ∈ log_writes start 0 bs V \/ w = (start, hdr_enc (V start) bs) \/
                  w.1 ∈ bs /\ w.2 = V w.1).
  { intros w. unfold ws1. rewrite !elem_of_app, list_elem_of_singleton.
    intros [?|[?|?]]; auto. right; right. by eapply home_writes. }
  destruct (hdr_enc_spec (V start) bs) as (_ & Hn & Hb); [lia|done| |].
  { eapply Forall_impl; [exact Hbl|]. by intros b [? _]. }
  assert (Hst : disk_read (disk_apply ws1 d0) start = hdr_enc (V start) bs).
  { apply disk_apply_value.
    - intros w [Hw|[->|[Hw _]]]%Hel Hw1; [|done|].
      + apply log_writes_at in Hw. lia.
      + apply home_data in Hw. rewrite Hw1 in Hw. destruct Hw; unfold LOGSIZE, MAXOPBLOCKS in *; lia.
    - exists (start, hdr_enc (V start) bs). split; [|done]. unfold ws1. rewrite !elem_of_app. right; left. constructor. }
  apply (recovers_intro _ _ _ _ bs V); auto.
  - split; rewrite ?Hst; auto. intros i b Hi.
    apply disk_apply_value.
    + intros w [Hw|[->|[Hw _]]]%Hel Hw1.
      * apply log_writes_elem in Hw as (i' & b' & Hi' & ->). simpl in *.
        assert (i' = i) by lia. subst. congruence.
      * simpl in Hw1. lia.
      * apply home_data in Hw. rewrite Hw1 in Hw. apply lookup_lt_Some in Hi. destruct Hw; lia.
    + exists (start + 0 + Z.of_nat i + 1, V b). split; [|simpl; lia]. unfold ws1. apply elem_of_app. left.
      apply log_writes_elem. by exists i, b.
  - intros x Hx Hxb. rewrite (Hclean x) by done. apply disk_apply_other.
    intros w [Hw|[->|[Hw _]]]%Hel <-; [|destruct Hx; unfold LOGSIZE, MAXOPBLOCKS in *; simpl in *; lia|done].
    apply log_writes_at in Hw. destruct Hx; lia.
Qed.

(** The disk after the whole commit. *)
Lemma commit_disk x :
  data_block start x -> disk_read (disk_apply (commit_writes start bs V) d0) x = V x.
Proof.
  intros Hx. unfold commit_writes. rewrite !app_assoc, disk_apply_app. cbn.
  rewrite disk_read_write_ne by (destruct Hx; unfold LOGSIZE, MAXOPBLOCKS in *; lia).
  rewrite disk_apply_app. destruct (decide (x ∈ bs)) as [Hb|Hb].
  - apply disk_apply_value.
    + intros w Hw <-. by eapply (home_writes _ []); [by rewrite app_nil_r|].
    + exists (x, V x). split; [|done]. apply list_elem_of_In, in_map_iff. exists x.
      split; [done|]. by apply list_elem_of_In.
  - rewrite (Hclean x) by done. rewrite <- disk_apply_app. apply disk_apply_other.
    intros w [[Hw|Hw%list_elem_of_singleton]%elem_of_app|Hw]%elem_of_app <-.
    + apply log_writes_at in Hw. destruct Hx; lia.
    + subst. destruct Hx; unfold LOGSIZE, MAXOPBLOCKS in *; simpl in *; lia.
    + apply Hb. by eapply (home_writes _ []); [by rewrite app_nil_r|].
Qed.

Lemma crash_done : recovers dev start nlog (disk_apply (commit_writes start bs V) d0) V.
Proof.
  apply (recovers_intro _ _ _ _ [] V); auto.
  - apply committed_nil. unfold commit_writes. rewrite !app_assoc, disk_apply_app. cbn.
    rewrite disk_read_write.
    destruct (hdr_enc_spec (V start) bs) as (Hl & _); [lia|done| |].
    { eapply Forall_impl; [exact Hbl|]. by intros b [? _]. }
    destruct (hdr_enc_spec (hdr_enc (V start) bs) []) as (_ & Hn & _); [simpl; lia|done|constructor|done].
  - intros x Hx _. by apply commit_disk.
Qed.

(** Every prefix of the writes of a commit recovers to old or to new. *)
Lemma crash_prefix ws1 ws2 :
  commit_writes start bs V = ws1 ++ ws2 ->
  recovers dev start nlog (disk_apply ws1 d0) (disk_read d0) \/
  recovers dev start nlog (disk_apply ws1 d0) V.
Proof.
  intros H. unfold commit_writes in H. apply app_eq_inv in H as [(A2 & HA & H)|(k & -> & H)].
  { left. by eapply crash_before. }
  destruct k as [|h k].
  { left. rewrite app_nil_r. eapply (crash_before _ []). by rewrite app_nil_r. }
  right. injection H as <- H. apply app_eq_inv in H as [(I2 & HI & _)|(k' & -> & H)].
  { by eapply crash_after. }
  destruct k' as [|c k'].
  { rewrite app_nil_r. eapply (crash_after _ []). by rewrite app_nil_r. }
  injection H as <- H. symmetry in H. apply app_nil in H as [-> ->]. apply crash_done.
Qed.
End crash.

(** C1: commit() is atomic with respect to crashes.  For a transaction of
    fewer than NBUF blocks of the file system, run by a thread alone on a disk
    with a clear log header, commit() returns with every block of the file
    system on disk as the cache had it; and if the machine stops after any
    prefix of the disk writes it makes, booting from that disk (binit() and
    initlog()) returns with the blocks of the file system either all as they
    were before the commit or all as they are after it. *)
Theorem commit_crash_safe dev start nlog e s a bs :
  dev <> 0 -> bio_free e -> babs dev (e_pid e) (l_bio s) a -> logged (dev := dev) s a start bs ->
  bs <> [] -> length (ca_view a start) = BSIZE -> hdr_n (ca_view a start) = 0 ->
  exists e' s' ws, commit e s = Ok tt e' s' /\
    dsk (l_bio s') = disk_apply ws (dsk (l_bio s)) /\
    (forall x, data_block start x -> disk_read (dsk (l_bio s')) x = ca_view a x) /\
    (forall ws1 ws2, ws = ws1 ++ ws2 ->
       recovers dev start nlog (disk_apply ws1 (dsk (l_bio s))) (disk_read (dsk (l_bio s))) \/
       recovers dev start nlog (disk_apply ws1 (dsk (l_bio s))) (ca_view a)).
Proof.
  intros Hdev Hf Hrep Hlo Hne Hlen Hhdr. pose proof (bio_cache dev Hdev) as HBC.
  destruct (commit_spec e s a start bs Hf Hrep Hlo Hne)
    as (e' & s' & a' & Hrun & _ & Hrep' & _ & _ & _ & Hd').
  pose proof (ab_disk _ _ _ _ Hrep) as Hd. pose proof (ab_disk _ _ _ _ Hrep') as Hds'.
  assert (Hclean : forall x, x ∉ bs -> ca_view a x = disk_read (dsk (l_bio s)) x).
  { intros x Hx. rewrite Hd. apply (clean_view dev (e_pid e) (l_bio s)); auto.
    - rewrite (lo_pins _ _ _ _ Hlo). by rewrite decide_False.
    - intros i. by rewrite (lo_held _ _ _ _ Hlo), lookup_empty. }
  pose proof (logged_small _ _ _ _ Hlo) as Hsm. destruct Hlo as [_ _ _ Hnd Hbl _ _].
  assert (Hst : start ∉ bs).
  { intros Hb. rewrite Forall_forall in Hbl. destruct (Hbl start Hb) as [_ []]; unfold LOGSIZE, MAXOPBLOCKS in *; lia. }
  exists e', s', (commit_writes start bs (ca_view a)).
  split; [exact Hrun|]. clear Hrun. rewrite <- Hd in Hd'. split; [congruence|]. split.
  - intros x Hx. rewrite Hds', Hd'. by apply commit_disk.
  - intros ws1 ws2 Hws. eapply crash_prefix; eauto. by rewrite <- Hclean.
Qed.

(** A transaction that changes one block, on an empty disk. *)
Lemma one_block_logged :
  exists s a, babs 1 7 (l_bio s) a /\ logged (dev := 1) s a 2 [100] /\
    length (ca_view a 2) = BSIZE /\ hdr_n (ca_view a 2) = 0 /\ ca_view a 100 = replicate BSIZE 1.
Proof.
  set (e := mkEnv 0 7 false [] [] 0). assert (Hf : bio_free e) by (split; intros; apply not_elem_of_nil).
  set (d := mkDisk ∅ []). destruct (binit_run d e) as (t & _ & Hst & _ & Hdk & HF).
  pose proof (fresh_rep 1 7 t d ltac:(done) Hst Hdk HF) as Hrep.
  pose proof (bio_cache 1 ltac:(done)) as HBC.
  destruct (all_zero_room (fresh d)) as [Hroom _]; [done|done|].
  destruct (bread_pinned 1 e t (fresh d) 100) as (i & t1 & _ & _ & Hrep1);
    [done|done|exact Hrep|intros j; cbn [fresh ca_held]; by rewrite lookup_empty|by left|].
  assert (Hi : ca_held (hold i 100 (fresh d)) !! i = Some 100) by apply lookup_insert_eq.
  pose proof (set_data_rep 1 e ltac:(done) t1 _ i 100 (replicate BSIZE 1) Hrep1 Hi) as Hrep2.
  destruct (bpin_rep 1 e ltac:(done) Hf _ _ i 100 Hrep2 Hi) as (t3 & _ & Hrep3); [cbn; lia|].
  destruct (brelse_rep 1 e ltac:(done) Hf _ _ i 100 Hrep3 Hi) as (t4 & _ & Hrep4); [by left|].
  eexists (mkLstate t4 (mkLog 2 31 0 true 1 1 (<[0%nat := 100]> (replicate 30 0)))), _.
  split; [exact Hrep4|]. cbn [unhold set_pins set_view hold fresh ca_view ca_held ca_pins ca_disk].
  split; [|split; [|split]].
  - split; cbn [unhold set_pins set_view hold fresh ca_view ca_held ca_pins ca_disk l_log lh_n length].
    + by rewrite delete_insert_id by apply lookup_empty.
    + split; [done|]. split; [done|]. split; [lia|]. intros [|k] b; [by intros [= <-]|done].
    + done.
    + apply NoDup_singleton.
    + apply Forall_singleton. unfold data_block, LOGSIZE, MAXOPBLOCKS. lia.
    + intros b. cbn [unhold set_pins ca_pins]. clear. pose proof (list_elem_of_singleton b 100).
      destruct (decide (b = 100)), (decide (b ∈ [100])); tauto.
    + unfold NBUF. lia.
  - by rewrite decide_False by done.
  - rewrite decide_False by done. by vm_compute.
  - by rewrite decide_True by done.
Qed.

Lemma commit_crash_safe_witness :
  exists s a e' s' ws, commit (mkEnv 0 7 false [] [] 0) s = Ok tt e' s' /\
    disk_read (dsk (l_bio s')) 100 = replicate BSIZE 1 /\
    forall ws1 ws2, ws = ws1 ++ ws2 ->
      recovers 1 2 31 (disk_apply ws1 (dsk (l_bio s))) (disk_read (dsk (l_bio s))) \/
      recovers 1 2 31 (disk_apply ws1 (dsk (l_bio s))) (ca_view a).
Proof.
  destruct one_block_logged as (s & a & Hrep & Hlo & Hlen & Hn & Hv).
  destruct (commit_crash_safe 1 2 31 (mkEnv 0 7 false [] [] 0) s a [100])
    as (e' & s' & ws & Hrun & _ & Hnew & Hall).
  - done.
  - split; intros; apply not_elem_of_nil.
  - exact Hrep.
  - exact Hlo.
  - done.
  - exact Hlen.
  - exact Hn.
  - exists s, a, e', s', ws. split; [exact Hrun|]. split; [|exact Hall].
    rewrite <- Hv. apply Hnew. unfold data_block, LOGSIZE, MAXOPBLOCKS. lia.
Defined.
