(* ===== verification/LogOps.v ===== *)
(** * Log space reservation

    System calls bracket their writes with begin_op() and end_op(), and each
    may call log_write() at most MAXOPBLOCKS times.  The steps below
    interleave such calls of any number of threads; the invariant shows that
    begin_op()'s admission test reserves room for all of them in a log of
    LOGSIZE + 1 blocks, and that in a shorter one log_write() may panic. *)

From S2P Require Import Prelude KMonad Sleeplock Bio BioSpec BioAbs Log LogSpec.
Open Scope kmonad_scope.

(** ** What the routines leave alone *)

(** [m] never changes the log's in-memory record when it returns. *)
Definition log_kept {A} (m : K lstate A) : Prop :=
  forall e s a e' s', m e s = Ok a e' s' -> l_log s' = l_log s.

Lemma log_kept_bind {A B} (m : K lstate A) (f : A -> K lstate B) :
  log_kept m -> (forall a, log_kept (f a)) -> log_kept (bind m f).
Proof.
  intros Hm Hf e s b e2 s2 (a & e1 & s1 & H1 & H2)%bind_ok. apply Hm in H1. apply Hf in H2. congruence.
Qed.

Lemma log_kept_bio {A} (m : K bstate A) : log_kept (bio m).
Proof.
  intros e s a e' s'. unfold bio, zoom. destruct (m e (l_bio s)); cbn [rzoom]; try done. by intros [= _ _ <-].
Qed.

Lemma log_kept_ret {A} (a : A) : log_kept (ret a).
Proof. by intros e s b e' s' [= _ _ <-]. Qed.

Lemma log_kept_getl {A} (f : log -> A) : log_kept (getl f).
Proof. by intros e s b e' s' [= _ _ <-]. Qed.

Lemma log_kept_panic {A} msg : log_kept (@panic lstate A msg).
Proof. by intros e s b e' s'. Qed.

Lemma log_kept_get_block i : log_kept (get_block i).
Proof.
  apply log_kept_bind; [apply log_kept_getl|]. intros bs. destruct (bs !! _); [|apply log_kept_panic].
  destruct (i <? 0); [apply log_kept_panic|apply log_kept_ret].
Qed.

Create HintDb log_kept.
#[export] Hint Resolve log_kept_bio log_kept_ret log_kept_getl log_kept_panic log_kept_get_block : log_kept.
Ltac lkept := repeat first [solve [auto with log_kept] | apply log_kept_bind; [|intros ?]
                           | match goal with |- log_kept (if ?b then _ else _) => destruct b end].

Lemma log_kept_write_log_loop k tail : log_kept (write_log_loop k tail).
Proof. revert tail. induction k; intros tail; cbn [write_log_loop]; unfold copy_data; lkept. Qed.

Lemma log_kept_install_loop k tail r : log_kept (install_loop k tail r).
Proof. revert tail. induction k; intros tail; cbn [install_loop]; unfold copy_data; lkept. Qed.

Lemma log_kept_write_head_loop k i b : log_kept (write_head_loop k i b).
Proof. revert i. induction k; intros i; cbn [write_head_loop]; lkept. Qed.

#[export] Hint Resolve log_kept_write_log_loop log_kept_install_loop log_kept_write_head_loop : log_kept.

Lemma log_kept_write_head : log_kept write_head.
Proof. unfold write_head. lkept. Qed.

(** commit() empties the log and changes nothing else of its record. *)
Lemma commit_log e s e' s' :
  commit e s = Ok tt e' s' -> 0 <= lh_n (l_log s) -> l_log s' = set_lh_n 0 (l_log s).
Proof.
  unfold commit. intros (n & e1 & s1 & H1 & H)%bind_ok Hn. injection H1 as <- <- <-.
  destruct (Z.ltb_spec 0 (lh_n (l_log s))) as [Hp|Hp].
  - apply bind_ok in H as (u1 & e2 & s2 & H2 & H).
    assert (l_log s2 = l_log s) by (revert H2; unfold write_log; apply log_kept_bind; lkept).
    apply bind_ok in H as (u2 & e3 & s3 & H3 & H). apply log_kept_write_head in H3.
    apply bind_ok in H as (u3 & e4 & s4 & H4 & H).
    assert (l_log s4 = l_log s3) by (revert H4; unfold install_trans; apply log_kept_bind; lkept).
    apply bind_ok in H as (u4 & e5 & s5 & H5 & H). injection H5 as <- <- <-.
    apply log_kept_write_head in H. rewrite H. cbn [l_log]. congruence.
  - injection H as <- <-. destruct (l_log s). cbn in *. unfold set_lh_n. cbn. f_equal. lia.
Qed.

(** ** Interleaved system calls *)

(** The log record and, for each outstanding system call, how many
    log_write()s it may still make. *)
Inductive op_step : lstate * list nat -> lstate * list nat -> Prop :=
| st_begin e e' s s' ops :
    begin_op e s = Ok tt e' s' -> op_step (s, ops) (s', Z.to_nat MAXOPBLOCKS :: ops)
| st_log_write e e' s s' b ops1 n ops2 :
    log_write b e s = Ok tt e' s' -> op_step (s, ops1 ++ S n :: ops2) (s', ops1 ++ n :: ops2)
| st_end e e' s s' ops1 n ops2 :
    end_op e s = Ok tt e' s' -> op_step (s, ops1 ++ n :: ops2) (s', ops1 ++ ops2)
| st_cache {A} (m : K bstate A) e e' s s' a ops :
    bio m e s = Ok a e' s' -> op_step (s, ops) (s', ops).

Definition total (ops : list nat) : Z := Z.of_nat (sum_list ops).

Record linv (l : log) (ops : list nat) : Prop := {
  li_n : 0 <= lh_n l;
  li_room : lh_n l + total ops <= LOGSIZE;
  li_out : lg_outstanding l = Z.of_nat (length ops);
  li_ops : Forall (fun n => Z.of_nat n <= MAXOPBLOCKS) ops;
  li_blocks : length (lh_block l) = Z.to_nat LOGSIZE;
  li_commit : lg_committing l = false
}.

Lemma total_app ops1 ops2 : total (ops1 ++ ops2) = total ops1 + total ops2.
Proof. unfold total. rewrite sum_list_with_app. lia. Qed.

Lemma total_cons n ops : total (n :: ops) = Z.of_nat n + total ops.
Proof. unfold total. simpl. lia. Qed.

Lemma total_bound ops :
  Forall (fun n => Z.of_nat n <= MAXOPBLOCKS) ops -> total ops <= Z.of_nat (length ops) * MAXOPBLOCKS.
Proof.
  induction 1 as [|n ops Hn H IH]; [done|]. rewrite total_cons. simpl length. lia.
Qed.

Lemma begin_op_ok e s e' s' :
  begin_op e s = Ok tt e' s' ->
  lh_n (l_log s) + (lg_outstanding (l_log s) + 1) * MAXOPBLOCKS <= LOGSIZE /\
  l_log s' = set_outstanding (lg_outstanding (l_log s) + 1) (l_log s).
Proof.
  unfold begin_op. intros (u & e1 & s1 & Ha & H)%bind_ok. unfold acquire in Ha.
  destruct (holding LkLog e); [done|]. injection Ha as <- <- <-.
  apply bind_ok in H as (n & e2 & s2 & Hn & H). injection Hn as <- <- <-.
  destruct (e_spin _) as [|k]; cbn [begin_op_loop] in H;
    apply bind_ok in H as (l & e3 & s3 & Hl & H); injection Hl as <- <- <-.
  all: destruct (lg_committing (l_log s)); cbn [orb] in H.
  2,4: destruct (Z.ltb_spec LOGSIZE (lh_n (l_log s) + (lg_outstanding (l_log s) + 1) * MAXOPBLOCKS)) as [|Hle].
  all: try (by cbn in H).
  all: try (apply bind_ok in H as (u' & e4 & s4 & Hs & _); unfold sleep in Hs;
            repeat (case_match; try done); fail).
  all: apply bind_ok in H as (u' & e4 & s4 & Hm & Hr); injection Hm as <- <- <-;
    unfold release in Hr; destruct (holding LkLog _); [|done]; injection Hr as <- <-; done.
Qed.

(** The only effect of log_write() on the record: at most one more block. *)
Lemma log_write_ok b e s e' s' :
  log_write b e s = Ok tt e' s' ->
  exists n blk, l_log s' = set_lh_n n (set_lh_block blk (l_log s)) /\
    length blk = length (lh_block (l_log s)) /\ lh_n (l_log s) <= n <= lh_n (l_log s) + 1.
Proof.
  unfold log_write. intros (u & e1 & s1 & Ha & H)%bind_ok. unfold acquire in Ha.
  destruct (holding LkLog e); [done|]. injection Ha as <- <- <-.
  apply bind_ok in H as (l & e2 & s2 & Hl & H). injection Hl as <- <- <-.
  destruct (_ || _); [done|]. destruct (_ <? 1); [done|].
  apply bind_ok in H as (x & e3 & s3 & Hx & H). rewrite bio_getb in Hx. injection Hx as <- <- <-.
  apply bind_ok in H as (i & e4 & s4 & Hi & H).
  assert (Hs4 : l_log s4 = l_log s).
  { revert Hi. enough (Hk : forall k i bn, log_kept (absorb_loop k i bn)) by apply Hk. clear.
    induction k; intros i bn; cbn [absorb_loop]; lkept. }
  apply bind_ok in H as (u5 & e5 & s5 & Hp & H). unfold put_block in Hp.
  destruct (_ && _); [|done]. injection Hp as <- <- <-. rewrite Hs4 in H.
  apply bind_ok in H as (u6 & e6 & s6 & Hw & Hr).
  assert (Hs' : s' = s6) by (unfold release in Hr; by destruct (holding LkLog e6); simplify_eq).
  subst s'. destruct (i =? lh_n (l_log s)).
  - apply bind_ok in Hw as (u7 & e7 & s7 & Hb & Hm). apply log_kept_bio in Hb. injection Hm as <- <- <-.
    cbn [l_log]. rewrite Hb. cbn [l_log]. eexists _, _. split; [reflexivity|].
    cbn [lh_n lh_block]. rewrite length_insert. split; [done|lia].
  - injection Hw as <- <- <-. cbn [l_log]. exists (lh_n (l_log s)).
    exists (<[Z.to_nat i := i32 (b_blockno (nth_buf b (l_bio s)))]> (lh_block (l_log s))).
    split; [by destruct (l_log s)|].
    rewrite length_insert. split; [done|lia].
Qed.

Lemma absorb_run k i bn e s :
  0 <= i -> (Z.to_nat i + k <= length (lh_block (l_log s)))%nat ->
  exists r, absorb_loop k i bn e s = Ok r e s /\ i <= r <= i + Z.of_nat k.
Proof.
  revert i. induction k as [|k IH]; intros i Hi Hk; cbn [absorb_loop].
  { exists i. split; [done|lia]. }
  rewrite bind_eq. unfold get_block, getl. rewrite bind_eq. kred.
  destruct (lookup_lt_is_Some_2 (lh_block (l_log s)) (Z.to_nat i)) as [v ->]; [lia|].
  destruct (Z.ltb_spec i 0); [lia|]. kred. destruct (u32 v =? bn).
  - exists i. split; [done|lia].
  - destruct (IH (i + 1)) as (r & -> & Hr); [lia|lia|]. exists r. split; [done|lia].
Qed.

Lemma bpin_run b e s : LkBcache ∉ e_held e -> exists s', bpin b e s = Ok tt e s'.
Proof. intros Hl. unfold bpin, getb, modb. krun. by eexists. Qed.

(** With budget left, log_write() returns, unless the log on disk is full. *)
Lemma log_write_run b e s ops1 n ops2 :
  linv (l_log s) (ops1 ++ S n :: ops2) -> LkLog ∉ e_held e -> LkBcache ∉ e_held e ->
  if decide (lh_n (l_log s) < lg_size (l_log s) - 1)
  then exists s', log_write b e s = Ok tt e s'
  else log_write b e s = Panic "too big a transaction".
Proof.
  intros [Hn Hroom Hout Hops Hblk Hc] Hl Hb. rewrite total_app, total_cons in Hroom.
  rewrite length_app in Hout. simpl length in Hout.
  assert (Ht : 0 <= total ops1 /\ 0 <= total ops2) by (unfold total; lia).
  unfold log_write. rewrite bind_eq, acquire_eq by done. kred. unfold getl. rewrite bind_eq. kred.
  destruct (Z.leb_spec LOGSIZE (lh_n (l_log s))); [lia|]. cbn [orb].
  destruct (Z.leb_spec (lg_size (l_log s) - 1) (lh_n (l_log s))); [by rewrite decide_False by lia|rewrite decide_True by lia].
  destruct (Z.ltb_spec (lg_outstanding (l_log s)) 1); [lia|].
  set (e1 := set_held _ e). rewrite bind_eq, bio_getb. kred. rewrite bind_eq.
  destruct (absorb_run (Z.to_nat (lh_n (l_log s))) 0 (b_blockno (nth_buf b (l_bio s))) e1 s)
    as (r & -> & Hr); [lia|lia|]. kred.
  rewrite bind_eq. unfold put_block.
  destruct (Z.leb_spec 0 r); [|lia]. destruct (Z.ltb_spec r LOGSIZE); [|lia]. cbn [andb]. unfold modl.
  kred. rewrite bind_eq. destruct (r =? lh_n (l_log s)).
  - rewrite bind_eq. destruct (bpin_run b e1 (l_bio s)) as [t Ht'].
    { unfold e1. cbn [set_held e_held]. set_solver. }
    rewrite (bio_eq _ e1 (mkLstate (l_bio s) _) _ _ _ Ht'). kred. unfold e1. rewrite release_eq. by eexists.
  - kred. unfold e1. rewrite release_eq. by eexists.
Qed.

Lemma end_op_ok e s e' s' :
  end_op e s = Ok tt e' s' -> 0 <= lh_n (l_log s) ->
  lg_committing (l_log s) = false /\
  exists n, l_log s' = set_lh_n n (set_outstanding (lg_outstanding (l_log s) - 1) (l_log s)) /\
    0 <= n <= lh_n (l_log s).
Proof.
  unfold end_op. intros (u & e1 & s1 & Ha & H)%bind_ok Hn. unfold acquire in Ha.
  destruct (holding LkLog e); [done|]. injection Ha as <- <- <-.
  apply bind_ok in H as (o & e2 & s2 & Ho & H). injection Ho as <- <- <-.
  apply bind_ok in H as (u3 & e3 & s3 & Hm & H). injection Hm as <- <- <-.
  apply bind_ok in H as (l & e4 & s4 & Hl & H). injection Hl as <- <- <-. cbn [l_log] in H.
  set (l1 := set_outstanding _ (l_log s)) in *.
  destruct (lg_committing l1) eqn:Hc; [done|]. split; [done|].
  apply bind_ok in H as (u5 & e5 & s5 & Hw & H). apply bind_ok in H as (u6 & e6 & s6 & Hr & H).
  assert (s6 = s5) as -> by (unfold release in Hr; by destruct (holding LkLog e5); simplify_eq).
  destruct (lg_outstanding l1 =? 0).
  - injection Hw as <- <- <-. apply bind_ok in H as (u7 & e7 & s7 & Hcm & H).
    destruct u7. apply commit_log in Hcm; [|done]. cbn [l_log] in Hcm.
    apply bind_ok in H as (u8 & e8 & s8 & Ha & H). unfold acquire in Ha.
    destruct (holding LkLog e7); [done|]. injection Ha as <- <- <-.
    apply bind_ok in H as (u9 & e9 & s9 & Hm & H). injection Hm as <- <- <-.
    apply bind_ok in H as (u10 & e10 & s10 & Hk & H). injection Hk as <- <- <-.
    exists 0. split; [|lia]. unfold release in H. destruct (holding LkLog _); [|done].
    injection H as <- <-. cbn [l_log]. rewrite Hcm. unfold l1 in *. destruct (l_log s). cbn in *. by rewrite Hc.
  - injection Hw as <- <- <-. injection H as <- <-. cbn [l_log]. exists (lh_n (l_log s)).
    split; [by destruct (l_log s)|lia].
Qed.

Lemma op_step_inv s ops s' ops' :
  op_step (s, ops) (s', ops') -> linv (l_log s) ops ->
  linv (l_log s') ops' /\ lg_size (l_log s') = lg_size (l_log s).
Proof.
  intros Hst Hi. pose proof Hi as [Hn Hroom Hout Hops Hblk Hc].
  inversion Hst as [e e' ? ? ? H|e e' ? ? b ops1 n ops2 H|e e' ? ? ops1 n ops2 H|A m e e' ? ? a ? H]; subst.
  - apply begin_op_ok in H as [Hg Hl]. rewrite Hl. split; [|done].
    pose proof (total_bound ops Hops). split; cbn [set_outstanding lh_n lg_outstanding lh_block lg_committing]; auto.
    + rewrite total_cons. unfold MAXOPBLOCKS, LOGSIZE in *. lia.
    + simpl length. lia.
    + constructor; [done|done].
  - apply log_write_ok in H as (m & blk & Hl & Hlen & Hm). rewrite Hl. split; [|done].
    rewrite total_app, total_cons in Hroom. rewrite length_app in Hout. simpl length in Hout.
    split; cbn [set_lh_n set_lh_block lh_n lg_outstanding lh_block lg_committing]; auto.
    + lia.
    + rewrite total_app, total_cons. lia.
    + rewrite length_app. simpl length. lia.
    + apply Forall_app in Hops as [H1 [H2 H3]%Forall_cons]. apply Forall_app. split; [done|].
      constructor; [lia|done].
    + congruence.
  - apply end_op_ok in H as (_ & m & Hl & Hm); [|done]. rewrite Hl. split; [|done].
    rewrite total_app, total_cons in Hroom. rewrite length_app in Hout. simpl length in Hout.
    split; cbn [set_lh_n set_outstanding lh_n lg_outstanding lh_block lg_committing]; auto.
    + lia.
    + rewrite total_app. lia.
    + rewrite length_app. lia.
    + apply Forall_app in Hops as [H1 [H2 H3]%Forall_cons]. by apply Forall_app.
  - apply log_kept_bio in H. by rewrite H.
Qed.

Lemma op_steps_inv s ops s' ops' :
  rtc op_step (s, ops) (s', ops') -> linv (l_log s) ops ->
  linv (l_log s') ops' /\ lg_size (l_log s') = lg_size (l_log s).
Proof.
  intros Hr. remember (s, ops) as c eqn:E. remember (s', ops') as c' eqn:E'. revert s ops E.
  induction Hr as [c|c [s1 o1] c2 H12 H23 IH]; intros s ops -> Hi; [by simplify_eq|].
  destruct (op_step_inv _ _ _ _ H12 Hi) as [Hi' Hs']. destruct (IH E' s1 o1 eq_refl Hi') as [Hi2 Hs2]. split; [done|congruence].
Qed.

(** C2: begin_op() reserves log space.  Starting from an empty log, in every
    state reachable by any interleaving of begin_op(), end_op(), cache
    operations and at most MAXOPBLOCKS log_write()s per system call, the
    blocks logged and the writes still allowed to the outstanding calls fit in
    LOGSIZE.  A log_write() by a call with writes left returns if fewer than
    log.size - 1 blocks are logged, and otherwise panics with "too big a
    transaction".  So in a log of LOGSIZE + 1 blocks or more it always
    returns; in one of LOGSIZE blocks, which begin_op() fills as well, it
    does not. *)
Theorem log_space_reserved s0 s ops :
  linv (l_log s0) [] -> rtc op_step (s0, []) (s, ops) ->
  lh_n (l_log s) + total ops <= LOGSIZE /\ lg_outstanding (l_log s) = Z.of_nat (length ops) /\
  (forall e b ops1 n ops2, ops = ops1 ++ S n :: ops2 -> LkLog ∉ e_held e -> LkBcache ∉ e_held e ->
     (if decide (lh_n (l_log s) < lg_size (l_log s0) - 1)
      then exists s', log_write b e s = Ok tt e s'
      else log_write b e s = Panic "too big a transaction") /\
     (LOGSIZE + 1 <= lg_size (l_log s0) -> exists s', log_write b e s = Ok tt e s')).
Proof.
  intros H0 Hr. destruct (op_steps_inv _ _ _ _ Hr H0) as [Hi Hs]. split; [apply Hi|]. split; [apply Hi|].
  intros e b ops1 n ops2 -> Hl Hb. pose proof (log_write_run b e s ops1 n ops2 Hi Hl Hb) as Hw. rewrite Hs in Hw.
  split; [done|]. intros Hsz. rewrite decide_True in Hw; [done|].
  pose proof (li_room _ _ Hi) as Hroom. rewrite total_app, total_cons in Hroom. unfold total in Hroom. lia.
Qed.

(** ** Witness: logs of 31 and of 30 blocks *)

Definition demo_log_env : env := mkEnv 0 1 false [] [] 1.
Definition demo_log (size : Z) : lstate :=
  mkLstate (mkBstate ((fun i => mkBuf true 1 (100 + i) initsleeplock 1 0 0 []) <$> seqZ 0 30) (mkDisk ∅ [])) (set_size size log0).

(** log_write() of the buffers [bs]. *)
Fixpoint write_all (bs : list nat) (s : lstate) : option lstate :=
  match bs with
  | [] => Some s
  | b :: bs => match log_write b demo_log_env s with Ok _ _ s' => write_all bs s' | _ => None end
  end.

Lemma write_all_steps bs s s' ops1 n ops2 :
  write_all bs s = Some s' -> rtc op_step (s, ops1 ++ (length bs + n)%nat :: ops2) (s', ops1 ++ n :: ops2).
Proof.
  revert s. induction bs as [|b bs IH]; intros s H; cbn [write_all length Nat.add] in *; [by simplify_eq|].
  destruct (log_write b demo_log_env s) as [[] e s1| | |] eqn:E; [|done..]. eapply rtc_l; [by eapply st_log_write|]. by apply IH.
Qed.

Definition begun (s : lstate) : lstate := match begin_op demo_log_env s with Ok _ _ s' => s' | _ => s end.
Definition demo_begun (size : Z) : lstate := begun (begun (begun (demo_log size))).
Definition demo_full (size : Z) : lstate := default (demo_begun size) (write_all (seq 0 29) (demo_begun size)).

Lemma begun_step s ops :
  match begin_op demo_log_env s with Ok _ _ _ => true | _ => false end = true -> op_step (s, ops) (begun s, 10%nat :: ops).
Proof. unfold begun. destruct (begin_op demo_log_env s) as [[] e s'| | |] eqn:E; try done. intros _. by eapply (st_begin demo_log_env). Qed.

Lemma write_all_app bs bs' s s' :
  write_all (bs ++ bs') s = Some s' -> exists t, write_all bs s = Some t /\ write_all bs' t = Some s'.
Proof.
  revert s. induction bs as [|b bs IH]; intros s H; cbn [write_all app] in *; [by exists s|].
  destruct (log_write b demo_log_env s); [by apply IH|done..].
Qed.

Lemma demo_full_written size : size = 30 \/ size = 31 -> write_all (seq 0 29) (demo_begun size) = Some (demo_full size).
Proof.
  intros Hs. assert (H : match write_all (seq 0 29) (demo_begun size) with Some _ => true | None => false end = true).
  { destruct Hs as [-> | ->]; vm_compute; reflexivity. }
  unfold demo_full. by destruct (write_all (seq 0 29) (demo_begun size)).
Qed.

(** Three calls have logged 29 blocks, and one of them may log another. *)
Lemma demo_full_steps size : size = 30 \/ size = 31 -> rtc op_step (demo_log size, []) (demo_full size, [0; 0; 1]%nat).
Proof.
  intros Hs. trans (demo_begun size, [10; 10; 10]%nat).
  - do 3 (eapply rtc_l; [apply begun_step; destruct Hs as [-> | ->]; vm_compute; reflexivity|]). done.
  - destruct (write_all_app (seq 0 10) (seq 10 19) _ _ (demo_full_written size Hs)) as (t1 & H1 & H23).
    destruct (write_all_app (seq 10 10) (seq 20 9) _ _ H23) as (t2 & H2 & H3).
    etrans; [apply (write_all_steps _ _ _ [] 0 [10; 10]%nat H1)|].
    etrans; [apply (write_all_steps _ _ _ [0]%nat 0 [10]%nat H2)|].
    apply (write_all_steps _ _ _ [0; 0]%nat 1 [] H3).
Qed.

Lemma demo_linv size : linv (l_log (demo_log size)) [].
Proof. by split. Qed.

Lemma demo_full_n : lh_n (l_log (demo_full 30)) = 29.
Proof. vm_compute. reflexivity. Qed.

Lemma log_space_reserved_witness :
  (exists s', log_write 29 demo_log_env (demo_full 31) = Ok tt demo_log_env s') /\
  log_write 29 demo_log_env (demo_full 30) = Panic "too big a transaction".
Proof.
  assert (Hno : forall l, l ∉ e_held demo_log_env) by (intros l; apply not_elem_of_nil). split.
  - destruct (log_space_reserved _ _ _ (demo_linv 31) (demo_full_steps 31 (or_intror eq_refl))) as (_ & _ & Hw).
    apply (Hw demo_log_env 29%nat [0; 0]%nat 0%nat [] eq_refl (Hno _) (Hno _)). by vm_compute.
  - destruct (log_space_reserved _ _ _ (demo_linv 30) (demo_full_steps 30 (or_introl eq_refl))) as (_ & _ & Hw).
    destruct (Hw demo_log_env 29%nat [0; 0]%nat 0%nat [] eq_refl (Hno _) (Hno _)) as [H _].
    rewrite decide_False in H; [exact H|]. clear. rewrite demo_full_n. apply Z.lt_irrefl.
Defined.
