(* ===== verification/Txn.v ===== *)
(** * Inside a transaction

    What fs.c sees between begin_op() and end_op(): the contents of the
    blocks as a function [V], the buffers it holds, and a number of blocks it
    may still change.  bread(), a store into a buffer followed by
    log_write(), and brelse() are steps on that view; nothing reaches the
    home blocks on the disk before commit(). *)

From S2P Require Import Prelude KMonad Sleeplock Bio BioSpec BioAbs Log LogSpec LogCrash LogOps.
Open Scope kmonad_scope.

Definition vset (bn : Z) (d : list Z) (V : Z -> list Z) : Z -> list Z :=
  fun x => if decide (x = bn) then d else V x.

Lemma vset_same bn d V : vset bn d V bn = d.
Proof. unfold vset. by rewrite decide_True. Qed.

Lemma vset_other bn d V x : x <> bn -> vset bn d V x = V x.
Proof. intros. unfold vset. by rewrite decide_False. Qed.

Lemma size_list_to_set_le (l : list Z) : (size (list_to_set l : gset Z) <= length l)%nat.
Proof.
  induction l as [|x l IH]; [done|]. rewrite list_to_set_cons, size_union_alt, size_singleton. cbn [length].
  assert ((size (list_to_set l ∖ {[x]} : gset Z) <= size (list_to_set l : gset Z))%nat)
    by (apply subseteq_size; set_solver). lia.
Qed.

Section txn.
Context {dev : Z} {rep : Z -> bstate -> cabs -> Prop} `{HBC : !BlockCache dev rep} (start : Z).

(** The store below the view: [bs] are the blocks logged so far; a buffer that
    is held is either logged or as on the disk. *)
Record tx_store (pid : Z) (s : lstate) (V : Z -> list Z) (H : gmap nat Z) (bs : list Z) (a : cabs) : Prop := {
  ts_rep : rep pid (l_bio s) a;
  ts_view : forall b, ca_view a b = V b;
  ts_held : ca_held a = H;
  ts_pins : forall b, ca_pins a b = if decide (b ∈ bs) then 1%nat else 0%nat;
  ts_clean : forall i b, H !! i = Some b -> b ∈ bs \/ V b = disk_read (ca_disk a) b
}.

(** The log of a transaction that may still change [n] blocks while it holds
    up to four buffers. *)
Record tx_log (s : lstate) (bs : list Z) (n : nat) : Prop := {
  tl_lists : lists dev start 0 bs s;
  tl_n : lh_n (l_log s) = Z.of_nat (length bs);
  tl_nodup : NoDup bs;
  tl_blocks : Forall (fun b => 0 <= b < 2 ^ 31 /\ data_block start b) bs;
  tl_len : length (lh_block (l_log s)) = Z.to_nat LOGSIZE;
  tl_out : 1 <= lg_outstanding (l_log s);
  tl_size : LOGSIZE <= lg_size (l_log s);
  tl_room : (length bs + n + 4 <= NBUF)%nat
}.

Definition txn (pid : Z) (s : lstate) (V : Z -> list Z) (H : gmap nat Z) (n : nat) : Prop :=
  exists bs a, tx_store pid s V H bs a /\ tx_log s bs n.

(** ** The steps *)

Lemma tx_room pid s V H bs a n :
  tx_store pid s V H bs a -> tx_log s bs n -> (size H <= 3)%nat -> room a.
Proof using.
  intros Hst Hl Hs. exists (list_to_set (bs ++ (map_to_list H).*2)). split; [|split].
  - intros i bn Hi. rewrite (ts_held _ _ _ _ _ _ Hst) in Hi. apply elem_of_list_to_set, elem_of_app. right.
    apply list_elem_of_fmap. exists (i, bn). split; [done|]. by apply elem_of_map_to_list.
  - intros bn Hn. rewrite (ts_pins _ _ _ _ _ _ Hst) in Hn. case_decide; [|done].
    apply elem_of_list_to_set, elem_of_app. by left.
  - pose proof (size_list_to_set_le (bs ++ (map_to_list H).*2)) as Hsz.
    rewrite length_app, length_fmap, length_map_to_list in Hsz. pose proof (tl_room _ _ _ Hl). lia.
Qed.

Lemma tx_bread e s V H n bn :
  bio_free e -> txn (e_pid e) s V H n -> (forall i, H !! i <> Some bn) -> (size H <= 3)%nat ->
  exists i t, bio (bread dev bn) e s = Ok i e (put_bio t s) /\ H !! i = None /\
    txn (e_pid e) (put_bio t s) V (<[i := bn]> H) n.
Proof using HBC.
  intros Hf (bs & a & Hst & Hl) Hn Hs. pose proof (tx_room _ _ _ _ _ _ _ Hst Hl Hs) as Hroom.
  destruct Hst as [Hrep Hv Hh Hp Hc].
  destruct (bc_bread (dev := dev) (rep := rep) e (l_bio s) a bn) as (i & t & Hb & Hi & Hrep'); auto.
  { by rewrite Hh. }
  exists i, t. split; [by apply bio_eq|]. rewrite Hh in Hi. split; [done|].
  exists bs, (hold i bn a). split; [|by destruct Hl]. split; cbn [hold ca_view ca_disk ca_held ca_pins]; auto.
  - by rewrite Hh.
  - intros j b. rewrite lookup_insert. case_decide; [intros [= <-]|apply Hc].
    destruct (decide (bn ∈ bs)); [by left|right]. rewrite <- Hv.
    apply (bc_clean (dev := dev) (rep := rep) (e_pid e) (l_bio s)); [done| |by rewrite Hh].
    by rewrite Hp, decide_False.
Qed.

Lemma tx_data e s V H n i bn :
  txn (e_pid e) s V H n -> H !! i = Some bn ->
  bio (x <- getb i ;; ret (b_data x)) e s = Ok (V bn) e s.
Proof using HBC.
  intros (bs & a & [Hrep Hv Hh Hp Hc] & Hl) Hi. rewrite <- Hv, <- Hh in *.
  destruct (bc_buf (dev := dev) (rep := rep) _ _ _ _ _ Hrep Hi) as [Hd _].
  unfold bio, zoom. rewrite bind_eq. unfold getb. kred. cbn [rzoom]. rewrite Hd. by destruct s.
Qed.

Lemma tx_brelse e s V H n i bn :
  bio_free e -> txn (e_pid e) s V H n -> H !! i = Some bn ->
  exists t, bio (brelse i) e s = Ok tt (add_woken [ChBufLock i] e) (put_bio t s) /\
    txn (e_pid e) (put_bio t s) V (delete i H) n.
Proof using HBC.
  intros Hf (bs & a & [Hrep Hv Hh Hp Hc] & Hl) Hi. rewrite <- Hh in Hi.
  destruct (bc_brelse (dev := dev) (rep := rep) e (l_bio s) a i bn) as (t & Hb & Hrep'); auto.
  { rewrite Hp, Hv. rewrite Hh in Hi. destruct (Hc i bn Hi) as [Hin|Heq]; [left; by rewrite decide_True|by right]. }
  exists t. split; [by apply bio_eq|]. exists bs, (unhold i a). split; [|by destruct Hl].
  split; cbn [unhold ca_view ca_disk ca_held ca_pins]; auto.
  - by rewrite Hh.
  - intros j b. rewrite lookup_delete_Some. intros [_ Hj]. by eapply Hc.
Qed.

(** The search of log_write() for a block that is logged already. *)
Lemma absorb_spec k i bs bn e s :
  lists dev start 0 bs s -> Forall (fun b => 0 <= b < 2 ^ 31) bs -> 0 <= i ->
  (Z.to_nat i + k = length bs)%nat -> (forall j, (j < Z.to_nat i)%nat -> bs !! j <> Some bn) ->
  exists r, absorb_loop k i bn e s = Ok r e s /\
    (bs !! Z.to_nat r = Some bn /\ 0 <= r < Z.of_nat (length bs) \/ bn ∉ bs /\ r = Z.of_nat (length bs)).
Proof using.
  intros (_ & _ & _ & Hb) Hsm. revert i. induction k as [|k IH]; intros i Hi Hk Hno; cbn [absorb_loop].
  - exists i. split; [done|]. right. split; [|lia]. intros (j & Hj)%list_elem_of_lookup.
    apply (Hno j); [|done]. apply lookup_lt_Some in Hj. lia.
  - destruct (lookup_lt_is_Some_2 bs (Z.to_nat i)) as [b Hbi]; [lia|].
    rewrite bind_eq. unfold get_block, getl. rewrite bind_eq. kred.
    specialize (Hb _ _ Hbi). change (Z.to_nat 0 + Z.to_nat i)%nat with (Z.to_nat i) in Hb. rewrite Hb. destruct (Z.ltb_spec i 0); [lia|]. kred.
    assert (Hr : 0 <= b < 2 ^ 31) by (by eapply (Forall_lookup_1 _ _ _ _ Hsm)).
    rewrite u32_small by lia. destruct (Z.eqb_spec b bn) as [->|Hne].
    + exists i. split; [done|]. left. split; [done|lia].
    + apply IH; [lia|lia|]. intros j Hj. destruct (decide (j = Z.to_nat i)) as [->|]; [|apply Hno; lia].
      rewrite Hbi. congruence.
Qed.

(** The header after the entry [r] has been set to [bn]. *)
Lemma lists_put bs bn r s t :
  lists dev start 0 bs s -> length (lh_block (l_log s)) = Z.to_nat LOGSIZE ->
  (length bs < Z.to_nat LOGSIZE)%nat ->
  (bs !! Z.to_nat r = Some bn /\ 0 <= r < Z.of_nat (length bs) -> 
     lists dev start 0 bs (mkLstate t (set_lh_block (<[Z.to_nat r := bn]> (lh_block (l_log s))) (l_log s)))) /\
  (r = Z.of_nat (length bs) -> forall n,
     lists dev start 0 (bs ++ [bn])
       (mkLstate t (set_lh_n n (set_lh_block (<[Z.to_nat r := bn]> (lh_block (l_log s))) (l_log s))))).
Proof using.
  intros (Hd & Hs & Ht & Hb) Hlen Hlt. split.
  - intros [Hr Hrl]. split; [done|]. split; [done|]. split; [done|]. intros i b Hi. cbn [l_log lh_block set_lh_block].
    change (Z.to_nat 0 + i)%nat with i. rewrite list_lookup_insert. case_decide as Hc; [|by apply Hb].
    destruct Hc as [<- _]. congruence.
  - intros -> n. split; [done|]. split; [done|]. split; [done|]. intros i b Hi.
    cbn [l_log lh_block set_lh_block set_lh_n]. change (Z.to_nat 0 + i)%nat with i. rewrite Nat2Z.id.
    rewrite list_lookup_insert. case_decide as Hc.
    + destruct Hc as [<- _]. rewrite lookup_app_r, Nat.sub_diag in Hi by lia. by injection Hi as ->.
    + apply Hb. rewrite lookup_app in Hi. destruct (bs !! i) eqn:E; [done|]. exfalso.
      apply lookup_ge_None in E. destruct (i - length bs)%nat eqn:En; [|done]. apply Hc. split; [lia|].
      rewrite Hlen. lia.
Qed.

Lemma log_write_eq e s bs n i bn :
  LkLog ∉ e_held e -> tx_log s bs (S n) -> b_blockno (nth_buf i (l_bio s)) = bn -> 0 <= bn < 2 ^ 31 ->
  (bn ∈ bs -> exists r, log_write i e s =
     Ok tt e (mkLstate (l_bio s) (set_lh_block (<[r := bn]> (lh_block (l_log s))) (l_log s))) /\
     tx_log (mkLstate (l_bio s) (set_lh_block (<[r := bn]> (lh_block (l_log s))) (l_log s))) bs n) /\
  (bn ∉ bs -> data_block start bn -> forall t,
     bpin i (set_held (LkLog :: e_held e) e) (l_bio s) = Ok tt (set_held (LkLog :: e_held e) e) t ->
     exists s', log_write i e s = Ok tt e s' /\ l_bio s' = t /\ tx_log s' (bs ++ [bn]) n).
Proof using.
  intros Hlk Hl Hbn Hr. pose proof Hl as [L1 L2 L3 L4 L5 L6 L7 L8].
  assert (Hlt : (length bs < Z.to_nat LOGSIZE)%nat) by (unfold NBUF, LOGSIZE, MAXOPBLOCKS in *; lia).
  assert (Hsm : Forall (fun b => 0 <= b < 2 ^ 31) bs) by (eapply Forall_impl; [exact L4|]; naive_solver).
  set (e1 := set_held (LkLog :: e_held e) e).
  destruct (absorb_spec (length bs) 0 bs bn e1 s L1 Hsm) as (r & Hab & Hr'); [done|done|intros j ?; lia|].
  assert (Hrun : log_write i e s = rbind ((when r =? lh_n (l_log s) do
     (bio (bpin i) ;;; modl (set_lh_n (lh_n (l_log s) + 1)))) e1
       (mkLstate (l_bio s) (set_lh_block (<[Z.to_nat r := bn]> (lh_block (l_log s))) (l_log s))))
     (fun _ => release LkLog)).
  { unfold log_write. rewrite bind_eq, acquire_eq by done. kred. unfold getl. rewrite bind_eq. kred. fold e1.
    destruct (Z.leb_spec LOGSIZE (lh_n (l_log s))); [lia|].
    destruct (Z.leb_spec (lg_size (l_log s) - 1) (lh_n (l_log s))); [unfold LOGSIZE, MAXOPBLOCKS, NBUF in *; lia|]. cbn [orb].
    destruct (Z.ltb_spec (lg_outstanding (l_log s)) 1); [lia|].
    rewrite bind_eq, bio_getb. kred. rewrite Hbn, bind_eq, L2, Nat2Z.id, Hab. kred.
    rewrite bind_eq. unfold put_block. rewrite i32_small by lia.
    destruct (Z.leb_spec 0 r); [|lia]. destruct (Z.ltb_spec r LOGSIZE); [|unfold LOGSIZE in *; lia].
    unfold modl. cbn [andb]. kred. by rewrite bind_eq. }
  destruct (lists_put bs bn r s (l_bio s) L1 L5 Hlt) as [P1 P2]. split.
  - intros Hin. destruct Hr' as [Hr'|[Hni _]]; [|done].
    exists (Z.to_nat r). rewrite Hrun. destruct (Z.eqb_spec r (lh_n (l_log s))); [lia|]. kred.
    unfold e1. rewrite release_eq. split; [done|].
    split; [by apply P1|done..|cbn; by rewrite length_insert|done|done|lia].
  - intros Hni Hdb t Ht. destruct Hr' as [[Hin _]|[_ Hre]]; [by apply list_elem_of_lookup_2 in Hin|].
    eexists. rewrite Hrun. destruct (Z.eqb_spec r (lh_n (l_log s))); [|lia].
    rewrite bind_eq. erewrite bio_eq by exact Ht. kred. unfold modl. kred. unfold e1. rewrite release_eq.
    split; [done|]. split; [done|]. split.
    + by apply (lists_put bs bn r s t).
    + cbn [l_log lh_n set_lh_n]. rewrite length_app. cbn [length]. lia.
    + apply NoDup_app. split; [done|]. split; [|apply NoDup_singleton].
      intros y Hy ->%list_elem_of_singleton. done.
    + apply Forall_app. split; [done|]. by apply Forall_singleton.
    + cbn. by rewrite length_insert.
    + done.
    + done.
    + rewrite length_app. cbn [length]. lia.
Qed.

(** A store into a held buffer, logged. *)
Lemma tx_write e s V H n i bn d :
  bio_free e -> LkLog ∉ e_held e -> txn (e_pid e) s V H (S n) -> H !! i = Some bn ->
  0 <= bn < 2 ^ 31 -> data_block start bn ->
  exists s', (bio (modb i (set_data d)) ;;; log_write i) e s = Ok tt e s' /\
    txn (e_pid e) s' (vset bn d V) H n.
Proof using HBC.
  intros Hf Hlk (bs & a & [Hrep Hv Hh Hp Hc] & Hl) Hi Hr Hdb. rewrite bind_eq, bio_modb. cbn [rbind].
  set (s1 := put_bio (upd_buf i (set_data d) (l_bio s)) s).
  assert (Hi' : ca_held a !! i = Some bn) by (by rewrite Hh).
  pose proof (bc_set_data (dev := dev) (rep := rep) _ _ _ _ _ d Hrep Hi') as Hrep1.
  assert (Hi1 : ca_held (set_view bn d a) !! i = Some bn) by done.
  destruct (bc_buf (dev := dev) (rep := rep) _ _ _ _ _ Hrep1 Hi1) as [_ Hbn].
  assert (Hl1 : tx_log s1 bs (S n)) by (by destruct Hl).
  destruct (log_write_eq e s1 bs n i bn Hlk Hl1 Hbn Hr) as [W1 W2].
  assert (Hview : forall b, ca_view (set_view bn d a) b = vset bn d V b).
  { intros b. cbn [set_view ca_view]. unfold vset. by rewrite Hv. }
  destruct (decide (bn ∈ bs)) as [Hin|Hni].
  - destruct (W1 Hin) as (r & Hw & Hl2). eexists. split; [exact Hw|]. exists bs, (set_view bn d a).
    split; [|done]. split; auto. intros j b Hj. destruct (decide (b = bn)) as [->|Hne]; [by left|].
    rewrite vset_other by done. by eapply Hc.
  - destruct (bc_bpin (dev := dev) (rep := rep) (set_held (LkLog :: e_held e) e) (l_bio s1) (set_view bn d a) i bn)
      as (t & Hpin & Hrep2); [|exact Hrep1|done|cbn; rewrite Hp, decide_False by done; lia|].
    { destruct Hf as [F1 F2]. split; cbn; [|intros j]; rewrite not_elem_of_cons; by split. }
    destruct (W2 Hni Hdb t Hpin) as (s' & Hw & Ht & Hl2). exists s'. split; [done|].
    exists (bs ++ [bn]), (set_pins bn (S (ca_pins (set_view bn d a) bn)) (set_view bn d a)).
    split; [|done]. split; cbn [set_pins set_view ca_view ca_disk ca_held ca_pins]; auto.
    + by rewrite Ht.
    + intros b. rewrite !Hp. rewrite (decide_False _ _ Hni).
      destruct (decide (b = bn)) as [->|Hne]; [rewrite decide_True; [done|]; apply elem_of_app; right; by left|].
      apply decide_ext. rewrite elem_of_app, list_elem_of_singleton. tauto.
    + intros j b Hj. destruct (decide (b = bn)) as [->|Hne].
      * left. apply elem_of_app. right. by left.
      * rewrite vset_other by done. destruct (Hc j b Hj) as [Hb|Hb]; [left|by right].
        apply elem_of_app. by left.
Qed.
End txn.
