(* ===== verification/CString.v ===== *)
(** * Byte memory and kernel/string.c

    Memory is a finite map from byte addresses to byte values; an address
    that was never written reads as 0.  The routines of string.c are loops
    over this memory, and each has a specification against the block reads
    and writes [mread] and [mwrite]. *)

From S2P Require Import Prelude.

(** ** Memory *)

Abbreviation mem := (gmap Z Z).

Definition mget (m : mem) (a : Z) : Z := default 0 (m !! a).

Fixpoint mread (m : mem) (a : Z) (n : nat) : list Z :=
  match n with
  | O => []
  | S n => mget m a :: mread m (a + 1) n
  end.

Fixpoint mwrite (m : mem) (a : Z) (l : list Z) : mem :=
  match l with
  | [] => m
  | b :: l => mwrite (<[a := b]> m) (a + 1) l
  end.

(** 8-byte loads and stores, little-endian. *)
Definition load64 (m : mem) (a : Z) : Z := le_val (mread m a 8).
Definition store64 (m : mem) (a v : Z) : mem := mwrite m a (le_bytes 8 v).

(** Every byte of the memory is a byte. *)
Definition mem_ok (m : mem) : Prop := forall a b, m !! a = Some b -> 0 <= b < 256.

(** ** string.c *)

Fixpoint memset_loop (m : mem) (cdst c i : Z) (k : nat) : mem :=
  match k with
  | O => m
  | S k => memset_loop (<[cdst + i := u8 c]> m) cdst c (i + 1) k
  end.

Definition memset (m : mem) (dst c n : Z) : mem :=
  memset_loop m dst c 0 (Z.to_nat n).

Fixpoint memcmp_loop (m : mem) (s1 s2 : Z) (k : nat) : Z :=
  match k with
  | O => 0
  | S k =>
      if mget m s1 =? mget m s2 then memcmp_loop m (s1 + 1) (s2 + 1) k
      else mget m s1 - mget m s2
  end.

Definition memcmp (m : mem) (v1 v2 n : Z) : Z := memcmp_loop m v1 v2 (Z.to_nat n).

(** while(n-- > 0) *--d = *--s; *)
Fixpoint copy_down (m : mem) (d s : Z) (k : nat) : mem :=
  match k with
  | O => m
  | S k => copy_down (<[d - 1 := mget m (s - 1)]> m) (d - 1) (s - 1) k
  end.

(** while(n-- > 0) *d++ = *s++; *)
Fixpoint copy_up (m : mem) (d s : Z) (k : nat) : mem :=
  match k with
  | O => m
  | S k => copy_up (<[d := mget m s]> m) (d + 1) (s + 1) k
  end.

Definition memmove (m : mem) (dst src n : Z) : mem :=
  if n =? 0 then m
  else if (src <? dst) && (dst <? src + n)
       then copy_down m (dst + n) (src + n) (Z.to_nat n)
       else copy_up m dst src (Z.to_nat n).

Definition memcpy (m : mem) (dst src n : Z) : mem := memmove m dst src n.

Fixpoint strncmp_loop (m : mem) (p q : Z) (k : nat) : Z :=
  match k with
  | O => 0
  | S k =>
      if negb (mget m p =? 0) && (mget m p =? mget m q)
      then strncmp_loop m (p + 1) (q + 1) k
      else u8 (mget m p) - u8 (mget m q)
  end.

Definition strncmp (m : mem) (p q n : Z) : Z := strncmp_loop m p q (Z.to_nat n).

(** while(n-- > 0) *s++ = 0; *)
Fixpoint zero_fill (m : mem) (s : Z) (k : nat) : mem :=
  match k with
  | O => m
  | S k => zero_fill (<[s := 0]> m) (s + 1) k
  end.

(** while(n-- > 0 && ( *s++ = *t++ ) != 0); followed by the zero fill of what
    is left of n. *)
Fixpoint strncpy_loop (m : mem) (s t : Z) (k : nat) : mem :=
  match k with
  | O => m
  | S k =>
      let m' := <[s := mget m t]> m in
      if mget m t =? 0 then zero_fill m' (s + 1) k
      else strncpy_loop m' (s + 1) (t + 1) k
  end.

Definition strncpy (m : mem) (s t n : Z) : mem := strncpy_loop m s t (Z.to_nat n).

(** while(--n > 0 && ( *s++ = *t++ ) != 0); *s = 0; with k = n - 1. *)
Fixpoint safestrcpy_loop (m : mem) (s t : Z) (k : nat) : mem :=
  match k with
  | O => <[s := 0]> m
  | S k =>
      let m' := <[s := mget m t]> m in
      if mget m t =? 0 then <[s + 1 := 0]> m'
      else safestrcpy_loop m' (s + 1) (t + 1) k
  end.

Definition safestrcpy (m : mem) (s t n : Z) : mem :=
  if n <=? 0 then m else safestrcpy_loop m s t (Z.to_nat (n - 1)).

(** for(n = 0; s[n]; n++); with fuel, [None] when no NUL is met. *)
Fixpoint strlen_loop (m : mem) (s n : Z) (fuel : nat) : option Z :=
  match fuel with
  | O => None
  | S fuel => if mget m (s + n) =? 0 then Some n else strlen_loop m s (n + 1) fuel
  end.

Definition strlen (m : mem) (s : Z) (fuel : nat) : option Z := strlen_loop m s 0 fuel.

#[global] Arguments memset : simpl never.
#[global] Arguments memmove : simpl never.
#[global] Arguments load64 : simpl never.
#[global] Arguments store64 : simpl never.

(** ** Reference: C strings bounded by a length *)

(** The bytes up to the first NUL. *)
Fixpoint until_nul (l : list Z) : list Z :=
  match l with
  | [] => []
  | b :: l => if b =? 0 then [] else b :: until_nul l
  end.

(** The C string at [a], cut at [n] bytes. *)
Definition bstr (m : mem) (a : Z) (n : nat) : list Z := until_nul (mread m a n).

(** ** Block reads and writes *)

Lemma length_mread m a n : length (mread m a n) = n.
Proof. revert a; induction n; intros; simpl; auto. Qed.

Lemma mread_lookup m a n (i : nat) :
  (i < n)%nat -> mread m a n !! i = Some (mget m (a + Z.of_nat i)).
Proof.
  revert a i; induction n as [|n IH]; intros a [|i] Hi; simpl; try lia.
  - by rewrite Z.add_0_r.
  - rewrite IH by lia. do 2 f_equal. lia.
Qed.

Lemma mread_ext m m' a a' n :
  (forall i, 0 <= i < Z.of_nat n -> mget m (a + i) = mget m' (a' + i)) ->
  mread m a n = mread m' a' n.
Proof.
  revert a a'; induction n as [|n IH]; intros a a' H; simpl; [done|]. f_equal.
  - rewrite <- (Z.add_0_r a), <- (Z.add_0_r a'). apply H. lia.
  - apply IH. intros i Hi.
    replace (a + 1 + i) with (a + (1 + i)) by lia.
    replace (a' + 1 + i) with (a' + (1 + i)) by lia.
    apply H. lia.
Qed.

Lemma mread_app m a n1 n2 :
  mread m a (n1 + n2) = mread m a n1 ++ mread m (a + Z.of_nat n1) n2.
Proof.
  revert a; induction n1 as [|n1 IH]; intros a; simpl.
  - by rewrite Z.add_0_r.
  - rewrite IH. do 3 f_equal. lia.
Qed.

Lemma lookup_mwrite m a l x :
  mwrite m a l !! x =
  if decide (a <= x < a + Z.of_nat (length l))
  then l !! Z.to_nat (x - a) else m !! x.
Proof.
  revert m a; induction l as [|b l IH]; intros m a; simpl.
  - rewrite decide_False by lia. done.
  - rewrite IH. destruct (decide (x = a)) as [->|Hne].
    + rewrite decide_False, decide_True by lia.
      rewrite lookup_insert_eq, Z.sub_diag. done.
    + rewrite lookup_insert_ne by done.
      destruct (decide (a + 1 <= x < _)).
      * rewrite decide_True by lia.
        replace (Z.to_nat (x - a)) with (S (Z.to_nat (x - (a + 1)))) by lia. done.
      * by rewrite decide_False by lia.
Qed.

Lemma mget_mwrite_ne m a l x :
  ~ (a <= x < a + Z.of_nat (length l)) -> mget (mwrite m a l) x = mget m x.
Proof. intros. unfold mget. by rewrite lookup_mwrite, decide_False. Qed.

Lemma mget_mwrite_in m a l (i : nat) b :
  l !! i = Some b -> mget (mwrite m a l) (a + Z.of_nat i) = b.
Proof.
  intros Hb. pose proof (lookup_lt_Some _ _ _ Hb).
  unfold mget. rewrite lookup_mwrite, decide_True by lia.
  replace (Z.to_nat (a + Z.of_nat i - a)) with i by lia. by rewrite Hb.
Qed.

Lemma mread_mwrite_same m a l : mread (mwrite m a l) a (length l) = l.
Proof.
  apply list_eq; intros i. destruct (decide (i < length l)%nat) as [Hi|Hi].
  - rewrite mread_lookup by done.
    destruct (lookup_lt_is_Some_2 l i Hi) as [b Hb].
    by rewrite (mget_mwrite_in m a l i b), Hb.
  - rewrite !lookup_ge_None_2; [done|lia|rewrite length_mread; lia].
Qed.

Lemma mread_mwrite_disj m a l b n :
  a + Z.of_nat (length l) <= b \/ b + Z.of_nat n <= a ->
  mread (mwrite m a l) b n = mread m b n.
Proof. intros. apply mread_ext. intros i Hi. apply mget_mwrite_ne. lia. Qed.

Lemma load_store_same m a v : 0 <= v < 2 ^ 64 -> load64 (store64 m a v) a = v.
Proof.
  intros Hv. unfold load64, store64.
  replace 8%nat with (length (le_bytes 8 v)) at 2 by apply length_le_bytes.
  rewrite mread_mwrite_same, le_val_bytes. apply Z.mod_small. done.
Qed.

Lemma load_mwrite_disj m a l b :
  a + Z.of_nat (length l) <= b \/ b + 8 <= a ->
  load64 (mwrite m a l) b = load64 m b.
Proof. intros. unfold load64. rewrite mread_mwrite_disj; [done|lia]. Qed.

Lemma load_store_disj m a v b :
  a + 8 <= b \/ b + 8 <= a -> load64 (store64 m a v) b = load64 m b.
Proof. intros. unfold store64. apply load_mwrite_disj. rewrite length_le_bytes. lia. Qed.

Lemma load64_ext m m' a a' :
  (forall i, 0 <= i < 8 -> mget m (a + i) = mget m' (a' + i)) ->
  load64 m a = load64 m' a'.
Proof. intros H. unfold load64. f_equal. by apply mread_ext. Qed.

(** ** Specifications *)

Lemma memset_loop_mwrite m cdst c i k :
  memset_loop m cdst c i k = mwrite m (cdst + i) (replicate k (u8 c)).
Proof.
  revert m i; induction k as [|k IH]; intros m i; simpl; [done|].
  rewrite IH. f_equal. lia.
Qed.

Lemma memset_mwrite m dst c n :
  memset m dst c n = mwrite m dst (replicate (Z.to_nat n) (u8 c)).
Proof. unfold memset. by rewrite memset_loop_mwrite, Z.add_0_r. Qed.

Lemma lookup_copy_up m d s k x :
  (s < d -> s + Z.of_nat k <= d) ->
  copy_up m d s k !! x =
  if decide (d <= x < d + Z.of_nat k) then Some (mget m (s + (x - d))) else m !! x.
Proof.
  revert m d s; induction k as [|k IH]; intros m d s Hov; simpl.
  - by rewrite decide_False by lia.
  - rewrite IH by lia. destruct (decide (x = d)) as [->|Hne].
    + rewrite decide_False, decide_True by lia.
      rewrite lookup_insert_eq. do 2 f_equal. lia.
    + rewrite lookup_insert_ne by done.
      destruct (decide (d + 1 <= x < _)).
      * rewrite decide_True by lia. f_equal.
        unfold mget. rewrite lookup_insert_ne by lia. do 2 f_equal. lia.
      * by rewrite decide_False by lia.
Qed.

Lemma lookup_copy_down m d s k x :
  s <= d ->
  copy_down m d s k !! x =
  if decide (d - Z.of_nat k <= x < d) then Some (mget m (s + (x - d))) else m !! x.
Proof.
  intros Hsd; revert m d s Hsd; induction k as [|k IH]; intros m d s Hsd.
  - simpl. by rewrite decide_False by lia.
  - cbn [copy_down]. rewrite IH by lia. destruct (decide (x = d - 1)) as [->|Hne].
    + rewrite decide_False, decide_True by lia.
      rewrite lookup_insert_eq. do 2 f_equal. lia.
    + rewrite lookup_insert_ne by done.
      destruct (decide (d - 1 - Z.of_nat k <= x < d - 1)).
      * rewrite decide_True by lia. f_equal.
        unfold mget. rewrite lookup_insert_ne by lia. do 2 f_equal. lia.
      * by rewrite decide_False by lia.
Qed.

(** memmove() is correct for every overlap of source and destination: it
    writes at [dst] the bytes that were at [src] before the call. *)
Lemma memmove_mwrite m dst src n :
  0 <= n -> memmove m dst src n = mwrite m dst (mread m src (Z.to_nat n)).
Proof.
  intros Hn. apply map_eq. intros x.
  rewrite lookup_mwrite, length_mread. unfold memmove.
  destruct (Z.eqb_spec n 0) as [->|Hne].
  { by rewrite decide_False by lia. }
  destruct (Z.ltb_spec src dst), (Z.ltb_spec dst (src + n)); simpl;
    rewrite ?lookup_copy_up, ?lookup_copy_down by lia;
    repeat case_decide; try lia; try done;
    rewrite mread_lookup by lia; do 2 f_equal; lia.
Qed.

Lemma until_nul_cons b l : until_nul (b :: l) = if b =? 0 then [] else b :: until_nul l.
Proof. done. Qed.

Lemma bstr_S m a n :
  bstr m a (S n) = if mget m a =? 0 then [] else mget m a :: bstr m (a + 1) n.
Proof. done. Qed.

Lemma mget_range m a : mem_ok m -> 0 <= mget m a < 256.
Proof. intros Hm. unfold mget. destruct (m !! a) eqn:E; simpl; [by eapply Hm|lia]. Qed.

(** strncmp() tells equality of the two strings, each cut at n bytes. *)
Lemma strncmp_loop_eq m p q k :
  mem_ok m -> strncmp_loop m p q k = 0 <-> bstr m p k = bstr m q k.
Proof.
  intros Hm; revert p q; induction k as [|k IH]; intros p q; [done|].
  cbn [strncmp_loop]. rewrite !bstr_S.
  pose proof (mget_range m p Hm). pose proof (mget_range m q Hm).
  rewrite !u8_small by lia.
  destruct (Z.eqb_spec (mget m p) 0), (Z.eqb_spec (mget m q) 0),
    (Z.eqb_spec (mget m p) (mget m q)); simpl; try lia; rewrite ?IH;
    split; intros; simplify_eq; try done; try lia; congruence.
Qed.

Lemma mget_insert m a b x : mget (<[a := b]> m) x = if decide (x = a) then b else mget m x.
Proof.
  unfold mget. destruct (decide (x = a)) as [->|].
  - by rewrite lookup_insert_eq.
  - by rewrite lookup_insert_ne.
Qed.

Lemma bstr_ext m m' a a' n :
  (forall i, 0 <= i < Z.of_nat n -> mget m (a + i) = mget m' (a' + i)) ->
  bstr m a n = bstr m' a' n.
Proof. intros H. unfold bstr. f_equal. by apply mread_ext. Qed.

Lemma zero_fill_mwrite m s k : zero_fill m s k = mwrite m s (replicate k 0).
Proof. revert m s; induction k as [|k IH]; intros; simpl; [done|]. by rewrite IH. Qed.

(** strncpy() copies the string, pads it with NULs up to n bytes and writes
    nothing else. *)
Lemma strncpy_loop_mwrite m s t k :
  s + Z.of_nat k <= t \/ t + Z.of_nat k <= s ->
  strncpy_loop m s t k =
  mwrite m s (bstr m t k ++ replicate (k - length (bstr m t k)) 0).
Proof.
  revert m s t; induction k as [|k IH]; intros m s t Hov; [done|].
  cbn [strncpy_loop]. rewrite bstr_S. destruct (Z.eqb_spec (mget m t) 0) as [Hz|Hz].
  - rewrite zero_fill_mwrite, Hz. simpl. done.
  - rewrite IH by lia. simpl.
    assert (E : bstr (<[s := mget m t]> m) (t + 1) k = bstr m (t + 1) k).
    { apply bstr_ext. intros i Hi. rewrite mget_insert, decide_False; [done|lia]. }
    by rewrite E.
Qed.

Lemma length_until_nul l : (length (until_nul l) <= length l)%nat.
Proof. induction l as [|b l IH]; simpl; [lia|]. destruct (b =? 0); simpl; lia. Qed.

Lemma length_bstr m a n : (length (bstr m a n) <= n)%nat.
Proof. unfold bstr. etrans; [apply length_until_nul|]. by rewrite length_mread. Qed.

(** safestrcpy() leaves at [s] the source string cut at n-1 bytes, always
    terminated within the n bytes of the destination. *)
Lemma safestrcpy_loop_spec m s t k :
  s + Z.of_nat k < t \/ t + Z.of_nat k <= s ->
  bstr (safestrcpy_loop m s t k) s (S k) = bstr m t k /\
  mget (safestrcpy_loop m s t k) (s + Z.of_nat (length (bstr m t k))) = 0 /\
  (forall x, ~ (s <= x <= s + Z.of_nat k) -> mget (safestrcpy_loop m s t k) x = mget m x).
Proof.
  revert m s t; induction k as [|k IH]; intros m s t Hov.
  - cbn [safestrcpy_loop]. rewrite bstr_S. cbn [bstr until_nul mread length].
    rewrite !mget_insert, !decide_True by lia. simpl. repeat split; try done.
    intros x Hx. rewrite mget_insert, decide_False; [done|lia].
  - cbn [safestrcpy_loop]. rewrite (bstr_S m t).
    destruct (Z.eqb_spec (mget m t) 0) as [Hz|Hz].
    + assert (Hg : forall x, mget (<[s + 1 := 0]> (<[s := mget m t]> m)) x =
                if decide (x = s \/ x = s + 1) then 0 else mget m x).
      { intros x. rewrite !mget_insert, Hz. repeat case_decide; first [done | lia | (exfalso; intuition lia)]. }
      repeat split.
      * by rewrite bstr_S, Hg, decide_True by lia.
      * by rewrite Hg, decide_True by (simpl; lia).
      * intros x Hx. by rewrite Hg, decide_False by lia.
    + set (m' := <[s := mget m t]> m).
      assert (E : bstr m' (t + 1) k = bstr m (t + 1) k).
      { apply bstr_ext. intros i Hi. unfold m'. rewrite mget_insert, decide_False; [done|lia]. }
      destruct (IH m' (s + 1) (t + 1)) as (IH1 & IH2 & IH3); [lia|].
      rewrite E in IH1, IH2.
      assert (Hs : mget (safestrcpy_loop m' (s + 1) (t + 1) k) s = mget m t).
      { rewrite IH3 by lia. unfold m'. by rewrite mget_insert, decide_True. }
      rewrite bstr_S, Hs. rewrite (proj2 (Z.eqb_neq _ _)) by done.
      rewrite IH1. simpl length. repeat split; auto.
      * rewrite <- IH2. f_equal. lia.
      * intros x Hx. rewrite IH3 by lia. unfold m'.
        rewrite mget_insert, decide_False; [done|lia].
Qed.

Lemma strlen_loop_spec m s n fuel :
  (forall i, 0 <= i < Z.of_nat n -> mget m (s + i) <> 0) ->
  mget m (s + Z.of_nat n) = 0 -> (n < fuel)%nat ->
  forall k, (k <= n)%nat ->
  strlen_loop m s (Z.of_nat k) (fuel - k) = Some (Z.of_nat n).
Proof.
  intros Hnz Hz Hf k Hk.
  remember (n - k)%nat as d eqn:Hd. revert k Hk Hd.
  induction d as [|d IH]; intros k Hk Hd.
  - assert (k = n) as -> by lia.
    destruct (fuel - n)%nat eqn:E; [lia|]. simpl. by rewrite Hz.
  - destruct (fuel - k)%nat eqn:E; [lia|]. simpl.
    rewrite (proj2 (Z.eqb_neq _ _)) by (apply Hnz; lia).
    replace (Z.of_nat k + 1) with (Z.of_nat (S k)) by lia.
    replace n0 with (fuel - S k)%nat by lia. apply IH; lia.
Qed.

Lemma mget_store64_ne m a v x : ~ (a <= x < a + 8) -> mget (store64 m a v) x = mget m x.
Proof. intros. unfold store64. apply mget_mwrite_ne. rewrite length_le_bytes. lia. Qed.

Lemma mget_memset m dst c n x :
  0 <= n -> mget (memset m dst c n) x = if decide (dst <= x < dst + n) then u8 c else mget m x.
Proof.
  intros Hn. rewrite memset_mwrite. case_decide as Hd.
  - replace x with (dst + Z.of_nat (Z.to_nat (x - dst))) at 1 by lia.
    apply mget_mwrite_in, lookup_replicate_2. lia.
  - apply mget_mwrite_ne. rewrite length_replicate. lia.
Qed.

Lemma load64_memset_zero m dst n a :
  dst <= a -> a + 8 <= dst + n -> load64 (memset m dst 0 n) a = 0.
Proof.
  intros. unfold load64. rewrite (mread_ext _ ∅ _ 0); [done|].
  intros i Hi. rewrite mget_memset, decide_True by lia. done.
Qed.

(** The proofs of the other files use the lemmas above, never the loops. *)
Lemma load64_empty a : load64 ∅ a = 0.
Proof. unfold load64. cbn [mread]. unfold mget. by rewrite !lookup_empty. Qed.

(** ** What the callers rely on *)

(** C15: memmove() copies correctly also when the ranges overlap, in either
    direction: the destination ends up with the bytes the source had before
    the call, and nothing outside the destination changes. *)
Theorem memmove_correct m dst src n :
  0 <= n ->
  mread (memmove m dst src n) dst (Z.to_nat n) = mread m src (Z.to_nat n) /\
  (forall x, ~ (dst <= x < dst + n) -> mget (memmove m dst src n) x = mget m x).
Proof.
  intros Hn. rewrite memmove_mwrite by done. split.
  - rewrite <- (length_mread m src (Z.to_nat n)) at 2. apply mread_mwrite_same.
  - intros x Hx. apply mget_mwrite_ne. rewrite length_mread. lia.
Qed.

Lemma memmove_correct_witness :
  mread (memmove (mwrite ∅ 100 [1; 2; 3; 4; 5]) 102 100 5) 102 5 = [1; 2; 3; 4; 5].
Proof.
  rewrite (proj1 (memmove_correct (mwrite ∅ 100 [1; 2; 3; 4; 5]) 102 100 5 ltac:(lia))).
  by vm_compute.
Defined.

(** safestrcpy() into a buffer of [n] bytes that does not overlap the
    source always leaves a NUL-terminated string, the source cut at [n - 1]
    bytes, and writes nothing outside the buffer. *)
Theorem safestrcpy_correct m s t n :
  0 < n -> s + n <= t \/ t + n <= s ->
  bstr (safestrcpy m s t n) s (Z.to_nat n) = bstr m t (Z.to_nat (n - 1)) /\
  (exists i, 0 <= i < n /\ mget (safestrcpy m s t n) (s + i) = 0) /\
  (forall x, ~ (s <= x < s + n) -> mget (safestrcpy m s t n) x = mget m x).
Proof.
  intros Hn Hov. unfold safestrcpy. destruct (Z.leb_spec n 0); [lia|].
  destruct (safestrcpy_loop_spec m s t (Z.to_nat (n - 1))) as (H1 & H2 & H3); [lia|].
  replace (Z.to_nat n) with (S (Z.to_nat (n - 1))) by lia. split; [done|]. split.
  - eexists. split; [|exact H2]. pose proof (length_bstr m t (Z.to_nat (n - 1))). lia.
  - intros x Hx. apply H3. lia.
Qed.

Lemma safestrcpy_correct_witness :
  bstr (safestrcpy (mwrite ∅ 100 [97; 98; 99; 100; 0]) 200 100 4) 200 4 = [97; 98; 99].
Proof.
  rewrite (proj1 (safestrcpy_correct (mwrite ∅ 100 [97; 98; 99; 100; 0]) 200 100 4
    ltac:(lia) ltac:(lia))). by vm_compute.
Defined.

#[global] Opaque memset memmove load64 store64.
