(* ===== verification/Riscv.v ===== *)
(** * riscv.h and memlayout.h

    The constants and macros of the Sv39 paging scheme and of the physical
    and virtual memory layout, with the arithmetic facts the page-table code
    relies on. *)

From S2P Require Import Prelude.

(** ** riscv.h *)

Definition PGSIZE : Z := 4096.
Definition PGSHIFT : Z := 12.

Definition PGROUNDUP (sz : Z) : Z := Z.land (u64 (sz + PGSIZE - 1)) (Z.lnot (PGSIZE - 1)).
Definition PGROUNDDOWN (a : Z) : Z := Z.land a (Z.lnot (PGSIZE - 1)).

Definition PTE_V : Z := Z.shiftl 1 0.
Definition PTE_R : Z := Z.shiftl 1 1.
Definition PTE_W : Z := Z.shiftl 1 2.
Definition PTE_X : Z := Z.shiftl 1 3.
Definition PTE_U : Z := Z.shiftl 1 4.

Definition PA2PTE (pa : Z) : Z := u64 (Z.shiftl (Z.shiftr pa 12) 10).
Definition PTE2PA (pte : Z) : Z := u64 (Z.shiftl (Z.shiftr pte 10) 12).
Definition PTE_FLAGS (pte : Z) : Z := Z.land pte 0x3FF.

Definition PXMASK : Z := 0x1FF.
Definition PXSHIFT (level : Z) : Z := PGSHIFT + 9 * level.
Definition PX (level va : Z) : Z := Z.land (Z.shiftr va (PXSHIFT level)) PXMASK.

Definition MAXVA : Z := Z.shiftl 1 (9 + 9 + 9 + 12 - 1).

Definition SATP_SV39 : Z := Z.shiftl 8 60.
Definition MAKE_SATP (pagetable : Z) : Z := Z.lor SATP_SV39 (Z.shiftr pagetable 12).

(** ** memlayout.h *)

Definition UART0 : Z := 0x10000000.
Definition UART0_IRQ : Z := 10.
Definition VIRTIO0 : Z := 0x10001000.
Definition VIRTIO0_IRQ : Z := 1.
Definition PLIC : Z := 0x0c000000.
Definition PLIC_SENABLE (hart : Z) : Z := PLIC + 0x2080 + hart * 0x100.
Definition PLIC_SPRIORITY (hart : Z) : Z := PLIC + 0x201000 + hart * 0x2000.
Definition PLIC_SCLAIM (hart : Z) : Z := PLIC + 0x201004 + hart * 0x2000.
Definition CLINT : Z := 0x2000000.
Definition CLINT_MTIME : Z := CLINT + 0xBFF8.
Definition KERNBASE : Z := 0x80000000.
Definition PHYSTOP : Z := KERNBASE + 128 * 1024 * 1024.
Definition TRAMPOLINE : Z := MAXVA - PGSIZE.
Definition KSTACK (p : Z) : Z := TRAMPOLINE - (p + 1) * 2 * PGSIZE.
Definition TRAPFRAME : Z := TRAMPOLINE - PGSIZE.

(** ** Page rounding *)

Lemma land_pgmask a : Z.land a (Z.lnot (PGSIZE - 1)) = a / PGSIZE * PGSIZE.
Proof.
  change (PGSIZE - 1) with (Z.ones 12).
  rewrite <- Z.ldiff_land, Z.ldiff_ones_r by lia.
  rewrite Z.shiftl_mul_pow2, Z.shiftr_div_pow2 by lia. done.
Qed.

Lemma PGROUNDDOWN_eq a : PGROUNDDOWN a = a / PGSIZE * PGSIZE.
Proof. apply land_pgmask. Qed.

Lemma PGROUNDUP_eq sz :
  0 <= sz <= 2 ^ 64 - PGSIZE -> PGROUNDUP sz = (sz + PGSIZE - 1) / PGSIZE * PGSIZE.
Proof.
  intros H. unfold PGROUNDUP. rewrite u64_small; [apply land_pgmask|].
  unfold PGSIZE in *. lia.
Qed.

Definition pg_aligned (a : Z) : Prop := a mod PGSIZE = 0.

Lemma PGROUNDDOWN_aligned a : pg_aligned (PGROUNDDOWN a).
Proof. rewrite PGROUNDDOWN_eq. unfold pg_aligned. by rewrite Z.mod_mul. Qed.

Lemma PGROUNDDOWN_bounds a : PGROUNDDOWN a <= a < PGROUNDDOWN a + PGSIZE.
Proof. rewrite PGROUNDDOWN_eq. unfold PGSIZE. zdm. Qed.

Lemma PGROUNDUP_aligned a : pg_aligned (PGROUNDUP a).
Proof. unfold PGROUNDUP. rewrite land_pgmask. unfold pg_aligned. by rewrite Z.mod_mul. Qed.

Lemma PGROUNDUP_bounds a :
  0 <= a <= 2 ^ 64 - PGSIZE -> a <= PGROUNDUP a < a + PGSIZE.
Proof. intros. rewrite PGROUNDUP_eq by done. unfold PGSIZE in *. zdm. Qed.

(** A rounded address is a fixed point of both macros. *)
Lemma PGROUNDDOWN_id a : pg_aligned a -> PGROUNDDOWN a = a.
Proof. rewrite PGROUNDDOWN_eq. unfold pg_aligned, PGSIZE. intros. zdm. Qed.

Lemma PGROUNDUP_id a : 0 <= a <= 2 ^ 64 - PGSIZE -> pg_aligned a -> PGROUNDUP a = a.
Proof. intros. rewrite PGROUNDUP_eq by done. unfold pg_aligned, PGSIZE in *. zdm. Qed.

(** ** Page-table indices *)

Lemma PX_eq level va :
  0 <= level -> PX level va = va / 2 ^ (12 + 9 * level) mod 512.
Proof.
  intros Hl. unfold PX, PXSHIFT, PGSHIFT, PXMASK.
  change 0x1FF with (Z.ones 9). rewrite Z.land_ones, Z.shiftr_div_pow2 by lia. done.
Qed.

Lemma PX_range level va : 0 <= level -> 0 <= PX level va < 512.
Proof. intros. rewrite PX_eq by done. apply Z.mod_pos_bound. lia. Qed.

(** The page number of a virtual address is its three indices. *)
Lemma PX_decompose va :
  0 <= va < 2 ^ 39 -> va / PGSIZE = (PX 2 va * 512 + PX 1 va) * 512 + PX 0 va.
Proof.
  intros Hva. rewrite !PX_eq by lia. unfold PGSIZE.
  change (2 ^ (12 + 9 * 2)) with 1073741824.
  change (2 ^ (12 + 9 * 1)) with 2097152.
  change (2 ^ (12 + 9 * 0)) with 4096. zdm.
Qed.

Lemma PX_pages va va' :
  0 <= va < 2 ^ 39 -> 0 <= va' < 2 ^ 39 ->
  PX 2 va = PX 2 va' -> PX 1 va = PX 1 va' -> PX 0 va = PX 0 va' ->
  va / PGSIZE = va' / PGSIZE.
Proof. intros. rewrite !PX_decompose by done. congruence. Qed.

(** ** Page-table entries *)

Lemma PA2PTE_eq pa : 0 <= pa < 2 ^ 64 -> PA2PTE pa = pa / 4096 * 1024.
Proof.
  intros. unfold PA2PTE. rewrite Z.shiftl_mul_pow2, Z.shiftr_div_pow2 by lia.
  change (2 ^ 12) with 4096. change (2 ^ 10) with 1024.
  apply u64_small. zdm.
Qed.

(** Flags occupy the ten low bits, which PA2PTE leaves clear. *)
Lemma lor_pte_flags pa fl :
  0 <= pa < 2 ^ 64 -> 0 <= fl < 1024 -> Z.lor (PA2PTE pa) fl = pa / 4096 * 1024 + fl.
Proof.
  intros Hpa Hfl. rewrite PA2PTE_eq by done.
  change 1024 with (2 ^ 10) in *. rewrite <- Z.shiftl_mul_pow2 by lia.
  rewrite Z.add_nocarry_lxor, <- Z.lxor_lor; [done|..].
  all: apply Z.bits_inj'; intros n Hn; rewrite Z.land_spec, Z.bits_0.
  all: destruct (Z.ltb_spec n 10).
  all: first [rewrite Z.shiftl_spec_low by lia; done
             | rewrite (Z.bits_above_log2 fl n), ?andb_false_r; try done; try lia].
  all: destruct (Z.eq_dec fl 0) as [->|]; [simpl; lia|].
  all: apply Z.lt_le_trans with 10; [apply Z.log2_lt_pow2|]; lia.
Qed.

Definition pa_page_ok (pa : Z) : Prop := pg_aligned pa /\ 0 <= pa < 2 ^ 56.

(** Encoding a page address and its flags in a PTE loses neither. *)
Lemma pte_roundtrip pa fl :
  pa_page_ok pa -> 0 <= fl < 1024 ->
  PTE2PA (Z.lor (PA2PTE pa) fl) = pa /\ PTE_FLAGS (Z.lor (PA2PTE pa) fl) = fl /\
  0 <= Z.lor (PA2PTE pa) fl < 2 ^ 64.
Proof.
  intros [Ha Hpa] Hfl. unfold pg_aligned, PGSIZE in Ha.
  rewrite lor_pte_flags by lia. unfold PTE2PA, PTE_FLAGS.
  rewrite Z.shiftl_mul_pow2, Z.shiftr_div_pow2 by lia.
  change 0x3FF with (Z.ones 10). rewrite Z.land_ones by lia.
  change (2 ^ 12) with 4096. change (2 ^ 10) with 1024.
  split; [|split].
  - rewrite u64_small; zdm.
  - zdm.
  - zdm.
Qed.

Lemma PTE2PA_aligned pte : pg_aligned (PTE2PA pte).
Proof.
  unfold PTE2PA, pg_aligned, PGSIZE, u64.
  rewrite Z.shiftl_mul_pow2 by lia. change (2 ^ 12) with 4096.
  change (2 ^ 64) with (4096 * 4503599627370496). zdm.
Qed.

Lemma lor_perm_range a b : 0 <= a < 1024 -> 0 <= b < 1024 -> 0 <= Z.lor a b < 1024.
Proof.
  intros Ha Hb. split; [apply Z.lor_nonneg; lia|].
  destruct (Z.eq_dec (Z.lor a b) 0) as [->|Hn]; [lia|].
  assert (0 < Z.lor a b) by (pose proof (proj2 (Z.lor_nonneg a b)); lia).
  change 1024 with (2 ^ 10). apply Z.log2_lt_pow2; [done|].
  rewrite Z.log2_lor by lia.
  assert (forall c, 0 <= c < 1024 -> Z.log2 c < 10) as Hlog.
  { intros c Hc. destruct (Z.eq_dec c 0) as [->|]; [simpl; lia|].
    apply Z.log2_lt_pow2; lia. }
  pose proof (Hlog a Ha). pose proof (Hlog b Hb). lia.
Qed.
