(* ===== verification/Kalloc.v ===== *)
(** * kernel/kalloc.c: the physical page allocator

    The free list is threaded through the free pages themselves, so it lives
    in the byte memory: [freelist] is the head pointer and the first eight
    bytes of a free page hold the next pointer.  [kmem_inv s l] says that the
    pointers spell out the list [l] of distinct, well-formed pages. *)

From S2P Require Import Prelude KMonad CString Riscv.

Open Scope kmonad_scope.

(** struct kmem and the memory it allocates. *)
Record kmem := mkKmem { freelist : Z; kmem_mem : mem }.

Definition set_freelist (r : Z) (s : kmem) : kmem := mkKmem r (kmem_mem s).
Definition on_mem (f : mem -> mem) (s : kmem) : kmem := mkKmem (freelist s) (f (kmem_mem s)).

Section kalloc.
(** [kend] is the linker's symbol [end], the first address after the kernel. *)
Variable kend : Z.

Definition kfree (pa : Z) : K kmem unit :=
  if negb (pa mod PGSIZE =? 0) || (pa <? kend) || (PHYSTOP <=? pa)
  then panic "kfree"
  else
    modify (on_mem (fun m => memset m pa 1 PGSIZE)) ;;;
    acquire LkKmem ;;;
    fl <- gets freelist ;;
    modify (on_mem (fun m => store64 m pa fl)) ;;;
    modify (set_freelist pa) ;;;
    release LkKmem.

Definition kalloc : K kmem Z :=
  acquire LkKmem ;;;
  r <- gets freelist ;;
  (when negb (r =? 0) do
     (nx <- gets (fun s => load64 (kmem_mem s) r) ;;
      modify (set_freelist nx))) ;;;
  release LkKmem ;;;
  (when negb (r =? 0) do modify (on_mem (fun m => memset m r 5 PGSIZE))) ;;;
  ret r.

(** for(; p + PGSIZE <= pa_end; p += PGSIZE) kfree(p); *)
Fixpoint freerange_loop (fuel : nat) (p pa_end : Z) : K kmem unit :=
  if p + PGSIZE <=? pa_end then
    match fuel with
    | O => out_of_fuel
    | S fuel => kfree p ;;; freerange_loop fuel (p + PGSIZE) pa_end
    end
  else ret tt.

Definition freerange (pa_start pa_end : Z) : K kmem unit :=
  let p := PGROUNDUP pa_start in
  freerange_loop (Z.to_nat ((pa_end - p) / PGSIZE)) p pa_end.

(** initlock() leaves the lock free, which is how every thread starts. *)
Definition kinit : K kmem unit := freerange kend PHYSTOP.

(** ** The invariant *)

(** A page the allocator may hand out. *)
Definition page_ok (p : Z) : Prop := pg_aligned p /\ kend <= p < PHYSTOP.

(** The list spelled out by the next pointers from [r]. *)
Inductive flist (m : mem) : Z -> list Z -> Prop :=
| flist_nil : flist m 0 []
| flist_cons p l : p <> 0 -> flist m (load64 m p) l -> flist m p (p :: l).

Record kmem_inv (s : kmem) (l : list Z) : Prop := {
  inv_list : flist (kmem_mem s) (freelist s) l;
  inv_nodup : NoDup l;
  inv_pages : Forall page_ok l
}.

(** Two memories agree outside the page at [p]. *)
Definition same_outside (p : Z) (m m' : mem) : Prop :=
  forall a, ~ (p <= a < p + PGSIZE) -> mget m' a = mget m a.

(** Pages that differ are disjoint. *)
Lemma pages_disjoint p q :
  pg_aligned p -> pg_aligned q -> p <> q -> p + PGSIZE <= q \/ q + PGSIZE <= p.
Proof. unfold pg_aligned, PGSIZE. intros. zdm. Qed.

Lemma flist_ext m m' r l :
  (forall p, p ∈ l -> load64 m' p = load64 m p) -> flist m r l -> flist m' r l.
Proof.
  intros Hext Hfl. revert Hext. induction Hfl as [|p l Hp Hfl IH]; intros Hext.
  - constructor.
  - constructor; [done|]. rewrite Hext by set_solver. apply IH. set_solver.
Qed.

Lemma load64_same_outside p m m' q :
  same_outside p m m' -> pg_aligned p -> pg_aligned q -> p <> q ->
  load64 m' q = load64 m q.
Proof.
  intros Ho Hp Hq Hne. apply load64_ext. intros i Hi. apply Ho.
  destruct (pages_disjoint p q Hp Hq Hne); unfold PGSIZE in *; lia.
Qed.

Lemma flist_same_outside p m m' r l :
  same_outside p m m' -> pg_aligned p -> Forall page_ok l -> p ∉ l ->
  flist m r l -> flist m' r l.
Proof.
  intros Ho Hp Hl Hnp. apply flist_ext. intros q Hq.
  rewrite Forall_forall in Hl. destruct (Hl q Hq) as [Hqa _].
  eapply load64_same_outside; eauto. set_solver.
Qed.

Lemma memset_same_outside p c m : same_outside p m (memset m p c PGSIZE).
Proof.
  intros a Ha. rewrite mget_memset, decide_False; unfold PGSIZE in *; [done|lia..].
Qed.

Lemma store64_same_outside p i v m :
  0 <= i <= PGSIZE - 8 -> same_outside p m (store64 m (p + i) v).
Proof.
  intros Hi a Ha. apply mget_store64_ne. unfold PGSIZE in *. lia.
Qed.

Lemma same_outside_trans p m1 m2 m3 :
  same_outside p m1 m2 -> same_outside p m2 m3 -> same_outside p m1 m3.
Proof. intros H1 H2 a Ha. by rewrite H2, H1. Qed.

(** ** Behaviour of the operations *)

Lemma kfree_panics pa e s : ~ page_ok pa -> kfree pa e s = Panic "kfree".
Proof.
  intros Hn. unfold kfree, page_ok, pg_aligned in *.
  destruct (Z.eqb_spec (pa mod PGSIZE) 0), (Z.ltb_spec pa kend),
    (Z.leb_spec PHYSTOP pa); simpl; try done. exfalso; apply Hn; lia.
Qed.

(** The memory after kfree: junk everywhere but the next pointer. *)
Definition freed_mem (m : mem) (pa fl : Z) : mem :=
  store64 (memset m pa 1 PGSIZE) pa fl.

Lemma kfree_eq pa e s :
  page_ok pa -> LkKmem ∉ e_held e ->
  kfree pa e s = Ok tt e (mkKmem pa (freed_mem (kmem_mem s) pa (freelist s))).
Proof.
  intros [Ha Hb] Hl. unfold kfree.
  unfold pg_aligned in Ha. rewrite Ha. simpl.
  destruct (Z.ltb_spec pa kend); [lia|]. destruct (Z.leb_spec PHYSTOP pa); [lia|]. simpl.
  krun. unfold freed_mem, set_freelist, on_mem. cbn [freelist kmem_mem]. reflexivity.
Qed.

Lemma freed_same_outside m pa fl : same_outside pa m (freed_mem m pa fl).
Proof.
  apply (same_outside_trans _ _ (memset m pa 1 PGSIZE)); [apply memset_same_outside|].
  unfold freed_mem. rewrite <- (Z.add_0_r pa) at 4.
  apply store64_same_outside. unfold PGSIZE. lia.
Qed.

Lemma flist_head_range m r l :
  flist m r l -> Forall page_ok l -> 0 <= kend -> 0 <= r < 2 ^ 64.
Proof.
  intros Hf Hl Hk. destruct Hf as [|p l Hp Hf]; [lia|].
  apply Forall_cons in Hl as [[_ Hb] _]. unfold PHYSTOP, KERNBASE in Hb. lia.
Qed.

Lemma kfree_inv s l pa :
  0 < kend -> kmem_inv s l -> page_ok pa -> pa ∉ l ->
  kmem_inv (mkKmem pa (freed_mem (kmem_mem s) pa (freelist s))) (pa :: l).
Proof.
  intros Hk [Hf Hnd Hp] Hpa Hni. split; simpl.
  - constructor; [destruct Hpa; lia|].
    unfold freed_mem at 2. rewrite load_store_same.
    + eapply flist_same_outside; eauto using freed_same_outside. apply Hpa.
    + eapply flist_head_range; eauto. lia.
  - by constructor.
  - by constructor.
Qed.

Lemma kmem_head_nonzero s p l : kmem_inv s (p :: l) -> p <> 0.
Proof. intros [Hf _ _]. by inversion Hf. Qed.

Lemma kalloc_empty e s :
  kmem_inv s [] -> LkKmem ∉ e_held e -> kalloc e s = Ok 0 e s.
Proof.
  intros [Hf _ _] Hl. inversion Hf as [Hr|]; subst.
  unfold kalloc. krun. rewrite <- Hr. cbn [negb Z.eqb]. krun. done.
Qed.

Lemma kalloc_eq p l e s :
  kmem_inv s (p :: l) -> LkKmem ∉ e_held e ->
  kalloc e s = Ok p e (mkKmem (load64 (kmem_mem s) p) (memset (kmem_mem s) p 5 PGSIZE)).
Proof.
  intros [Hf _ _] Hl. inversion Hf as [|p' l' Hp Hf' Hr]; subst.
  unfold kalloc. krun. rewrite (proj2 (Z.eqb_neq _ _)) by done. cbn [negb]. krun. done.
Qed.

Lemma kalloc_inv p l s :
  kmem_inv s (p :: l) ->
  kmem_inv (mkKmem (load64 (kmem_mem s) p) (memset (kmem_mem s) p 5 PGSIZE)) l.
Proof.
  intros [Hf Hnd Hp]. inversion Hf; subst.
  apply NoDup_cons in Hnd as [Hni Hnd]. apply Forall_cons in Hp as [Hpa Hp].
  split; cbn [freelist kmem_mem]; auto.
  eapply flist_same_outside; eauto using memset_same_outside. apply Hpa.
Qed.

(** ** The free pages after boot *)

(** The [n] consecutive pages from [p], last one first. *)
Fixpoint page_range_rev (p : Z) (n : nat) : list Z :=
  match n with
  | O => []
  | S n => page_range_rev (p + PGSIZE) n ++ [p]
  end.

Lemma elem_of_page_range_rev p n q :
  q ∈ page_range_rev p n <-> exists i, 0 <= i < Z.of_nat n /\ q = p + i * PGSIZE.
Proof.
  revert p; induction n as [|n IH]; intros p; cbn [page_range_rev].
  - split; [set_solver|]. intros (i & Hi & _). lia.
  - rewrite elem_of_app, IH, list_elem_of_singleton. split.
    + intros [(i & Hi & ->)| ->].
      * exists (i + 1). split; lia.
      * exists 0. split; lia.
    + intros (i & Hi & ->). destruct (Z.eq_dec i 0) as [->|].
      * right. lia.
      * left. exists (i - 1). split; lia.
Qed.

Lemma freerange_loop_spec fuel p s l e :
  0 < kend -> LkKmem ∉ e_held e -> kmem_inv s l ->
  pg_aligned p -> kend <= p ->
  Forall (fun q => q < p) l ->
  (Z.to_nat ((PHYSTOP - p) / PGSIZE) <= fuel)%nat ->
  exists s', freerange_loop fuel p PHYSTOP e s = Ok tt e s' /\
    kmem_inv s' (page_range_rev p (Z.to_nat ((PHYSTOP - p) / PGSIZE)) ++ l).
Proof.
  intros Hk Hl. revert p s l. induction fuel as [|fuel IH]; intros p s l Hinv Ha Hb Hlt Hf;
    cbn [freerange_loop]; destruct (Z.leb_spec (p + PGSIZE) PHYSTOP) as [Hle|Hgt].
  - exfalso. unfold PGSIZE in *. zdm.
  - replace (Z.to_nat ((PHYSTOP - p) / PGSIZE)) with 0%nat by (unfold PGSIZE in *; zdm).
    exists s. by split.
  - assert (Hpok : page_ok p) by (split; [done|unfold PGSIZE in *; lia]).
    rewrite bind_eq, kfree_eq by done. kred.
    destruct (IH (p + PGSIZE) (mkKmem p (freed_mem (kmem_mem s) p (freelist s))) (p :: l))
      as (s' & Hrun & Hinv').
    + apply kfree_inv; auto. intros Hin. rewrite Forall_forall in Hlt.
      specialize (Hlt p Hin). lia.
    + unfold pg_aligned, PGSIZE in *. zdm.
    + unfold PGSIZE. lia.
    + constructor; [unfold PGSIZE; lia|].
      eapply Forall_impl; [exact Hlt|]. intros q Hq; simpl in Hq. unfold PGSIZE. lia.
    + unfold PGSIZE in *. zdm.
    + exists s'. split; [done|].
      replace (Z.to_nat ((PHYSTOP - p) / PGSIZE))
        with (S (Z.to_nat ((PHYSTOP - (p + PGSIZE)) / PGSIZE))) by (unfold PGSIZE in *; zdm).
      cbn [page_range_rev]. by rewrite <- app_assoc.
  - replace (Z.to_nat ((PHYSTOP - p) / PGSIZE)) with 0%nat by (unfold PGSIZE in *; zdm).
    exists s. by split.
Qed.

Lemma page_range_all q :
  0 < kend <= 2 ^ 64 - PGSIZE ->
  q ∈ page_range_rev (PGROUNDUP kend) (Z.to_nat ((PHYSTOP - PGROUNDUP kend) / PGSIZE)) <-> page_ok q.
Proof.
  intros Hk. rewrite elem_of_page_range_rev.
  pose proof (PGROUNDUP_bounds kend ltac:(lia)) as Hb.
  pose proof (PGROUNDUP_aligned kend) as Ha. unfold page_ok, pg_aligned in *.
  change PHYSTOP with (557056 * 4096) in *. unfold PGSIZE in *. split.
  - intros (i & Hi & ->). split; zdm.
  - intros [Hq Hr]. exists ((q - PGROUNDUP kend) / 4096). zdm.
Qed.

(** kinit() on the zeroed allocator of a booting kernel puts every whole
    page between [end] and PHYSTOP on the free list, each once, and nothing
    else. *)
Theorem kinit_all_pages e s :
  0 < kend <= PHYSTOP -> LkKmem ∉ e_held e -> freelist s = 0 ->
  exists s' l, kinit e s = Ok tt e s' /\ kmem_inv s' l /\ forall q, q ∈ l <-> page_ok q.
Proof.
  intros Hk Hl Hf0. assert (Hk64 : 0 < kend <= 2 ^ 64 - PGSIZE)
    by (unfold PHYSTOP, KERNBASE, PGSIZE in *; lia).
  pose proof (PGROUNDUP_bounds kend ltac:(lia)) as Hb.
  destruct (freerange_loop_spec (Z.to_nat ((PHYSTOP - PGROUNDUP kend) / PGSIZE)) (PGROUNDUP kend) s [] e)
    as (s' & Hrun & Hinv); auto using PGROUNDUP_aligned; [lia| |lia|].
  - split; [rewrite Hf0|..]; constructor.
  - rewrite app_nil_r in Hinv. eexists s', _. split; [exact Hrun|]. split; [exact Hinv|].
    intros q. by apply page_range_all.
Qed.

(** ** Clients of the allocator *)

(** A client owns the pages [kalloc] returned to it and it has not freed; it
    may write them, call [kalloc], and free what it owns. *)
Inductive alloc_step (e : env) : kmem * list Z -> kmem * list Z -> Prop :=
| step_kalloc s s' O p :
    kalloc e s = Ok p e s' -> p <> 0 -> alloc_step e (s, O) (s', p :: O)
| step_kalloc_none s s' O :
    kalloc e s = Ok 0 e s' -> alloc_step e (s, O) (s', O)
| step_kfree s s' O1 p O2 :
    kfree p e s = Ok tt e s' -> alloc_step e (s, O1 ++ p :: O2) (s', O1 ++ O2)
| step_write s O p a b :
    p ∈ O -> p <= a < p + PGSIZE -> alloc_step e (s, O) (on_mem (<[a := b]>) s, O).

(** The pages owned and the pages free are always those the allocator
    started with. *)
Definition alloc_state (l0 : list Z) (st : kmem * list Z) : Prop :=
  exists l, kmem_inv st.1 l /\ st.2 ++ l ≡ₚ l0.

Lemma alloc_step_state e l0 st st' :
  0 < kend -> LkKmem ∉ e_held e -> NoDup l0 -> Forall page_ok l0 ->
  alloc_state l0 st -> alloc_step e st st' -> alloc_state l0 st'.
Proof.
  intros Hk Hl Hnd Hok (l & Hinv & Hperm) Hstep.
  destruct Hstep as [s s' O p Hrun Hp|s s' O Hrun|s s' O1 p O2 Hrun|s O p a b Hp Ha];
    cbn [fst snd] in *.
  - destruct l as [|q l]; [rewrite kalloc_empty in Hrun by done; congruence|].
    rewrite (kalloc_eq q l) in Hrun by done. injection Hrun as <- <-.
    exists l. split; [by apply kalloc_inv|]. rewrite <- Hperm. cbn [snd]. simpl. by rewrite Permutation_middle.
  - destruct l as [|q l]; [rewrite kalloc_empty in Hrun by done; injection Hrun as <-; by exists []|].
    rewrite (kalloc_eq q l) in Hrun by done. injection Hrun as -> _.
    by apply kmem_head_nonzero in Hinv.
  - assert (Hin : NoDup ((O1 ++ p :: O2) ++ l)) by (by rewrite Hperm).
    assert (Hpok : page_ok p).
    { rewrite Forall_forall in Hok. apply Hok. rewrite <- Hperm, !elem_of_app. set_solver. }
    rewrite kfree_eq in Hrun by done. injection Hrun as <-.
    exists (p :: l). split.
    + apply kfree_inv; auto. apply NoDup_app in Hin as (_ & Hd & _). apply Hd, elem_of_app. set_solver.
    + cbn [snd]. rewrite <- Hperm, <- !app_assoc. apply Permutation_app_head. symmetry. apply (Permutation_middle O2 l p).
  - assert (Hin : NoDup (O ++ l)) by (by rewrite Hperm).
    assert (Hpok : page_ok p).
    { rewrite Forall_forall in Hok. apply Hok. rewrite <- Hperm, elem_of_app. by left. }
    exists l. split; [|done]. destruct Hinv as [Hf Hn Hpg]. split; [|done..].
    cbn [fst on_mem freelist kmem_mem]. apply (flist_same_outside p (kmem_mem s)); auto.
    + intros x Hx. rewrite mget_insert, decide_False; [done|]. intros ->. by apply Hx.
    + apply Hpok.
    + apply NoDup_app in Hin as (_ & Hd & _). by apply Hd.
Qed.

(** C7: in every state clients can reach from an allocator with the pages
    [l0], by any sequence of kalloc(), kfree() of a page they own and writes
    to pages they own, the owned and the free pages are together a permutation
    of [l0] (no page is owned twice, both owned and free, or lost), the free
    list in memory is intact, a further kalloc() returns (0 only when nothing
    is free) and a kfree() of any owned page succeeds. *)
Theorem allocator_exclusive e s0 l0 s O :
  0 < kend -> LkKmem ∉ e_held e -> kmem_inv s0 l0 -> rtc (alloc_step e) (s0, []) (s, O) ->
  exists l, kmem_inv s l /\ O ++ l ≡ₚ l0 /\ NoDup (O ++ l) /\
    (exists p s', kalloc e s = Ok p e s' /\ (p = 0 <-> l = [])) /\
    (forall p, p ∈ O -> exists s', kfree p e s = Ok tt e s').
Proof.
  intros Hk Hl Hinv0 Hsteps.
  assert (Hst : alloc_state l0 (s, O)).
  { remember (s0, @nil Z) as st0 eqn:E0. remember (s, O) as st eqn:E1.
    clear E1. assert (H0 : alloc_state l0 st0) by (subst; by exists l0).
    clear E0. induction Hsteps as [|st1 st2 st3 H12 H23 IH]; [done|].
    apply IH. eapply alloc_step_state; eauto; apply Hinv0. }
  destruct Hst as (l & Hinv & Hperm). exists l. cbn [fst snd] in *.
  split; [done|]. split; [done|]. split; [rewrite Hperm; apply Hinv0|]. split.
  - destruct l as [|q l].
    + exists 0, s. by rewrite kalloc_empty.
    + rewrite (kalloc_eq q l) by done. eexists q, _. split; [done|].
      apply kmem_head_nonzero in Hinv. by split.
  - intros p Hp. rewrite kfree_eq; [by eexists| |done].
    pose proof (inv_pages _ _ Hinv0) as Hok. rewrite Forall_forall in Hok. apply Hok.
    rewrite <- Hperm, elem_of_app. by left.
Qed.

End kalloc.

Lemma kinit_all_pages_witness :
  exists s' l, kinit 0x80030000 (mkEnv 0 1 false [] [] 8) (mkKmem 0 ∅) =
      Ok tt (mkEnv 0 1 false [] [] 8) s' /\
    kmem_inv 0x80030000 s' l /\ forall q, q ∈ l <-> page_ok 0x80030000 q.
Proof.
  apply (kinit_all_pages 0x80030000 (mkEnv 0 1 false [] [] 8) (mkKmem 0 ∅));
    [unfold PHYSTOP, KERNBASE; lia|apply not_elem_of_nil|done].
Defined.

Lemma one_page_inv : kmem_inv 0x80030000 (mkKmem 0x80041000 ∅) [0x80041000].
Proof.
  split.
  - constructor; [done|]. cbn [kmem_mem]. rewrite load64_empty. constructor.
  - apply NoDup_singleton.
  - apply Forall_singleton. vm_compute. repeat split; congruence.
Qed.

Lemma allocator_exclusive_witness :
  exists s l, rtc (alloc_step 0x80030000 (mkEnv 0 1 false [] [] 8))
      (mkKmem 0x80041000 ∅, []) (s, [0x80041000]) /\
    kmem_inv 0x80030000 s l /\ [0x80041000] ++ l ≡ₚ [0x80041000].
Proof.
  assert (Hsteps : rtc (alloc_step 0x80030000 (mkEnv 0 1 false [] [] 8)) (mkKmem 0x80041000 ∅, [])
    (mkKmem (load64 ∅ 0x80041000) (memset ∅ 0x80041000 5 PGSIZE), [0x80041000])).
  { apply rtc_once, step_kalloc; [|done].
    apply (kalloc_eq 0x80030000 0x80041000 []); [apply one_page_inv|apply not_elem_of_nil]. }
  destruct (allocator_exclusive 0x80030000 (mkEnv 0 1 false [] [] 8) (mkKmem 0x80041000 ∅) [0x80041000]
    (mkKmem (load64 ∅ 0x80041000) (memset ∅ 0x80041000 5 PGSIZE)) [0x80041000]) as (l & H1 & H2 & _).
  - lia.
  - apply not_elem_of_nil.
  - apply one_page_inv.
  - exact Hsteps.
  - eexists _, l. exact (conj Hsteps (conj H1 H2)).
Defined.
