(* ===== verification/Vm.v ===== *)
(** * kernel/vm.c: Sv39 page tables and user memory

    The routines of vm.c on the allocator state: page tables are pages of the
    byte memory holding 512 little-endian PTEs.  A [pte_t *] is the address
    of the entry, 0 standing for the null pointer.  Kernel buffers passed to
    copyout() are given by their bytes; copyin() and copyinstr() return the
    bytes they wrote to the kernel buffer together with their result. *)

From S2P Require Import Prelude KMonad CString Riscv Kalloc.

Open Scope kmonad_scope.

(** Loads and stores of the kernel on physical memory. *)
Definition read64 (a : Z) : K kmem Z := gets (fun s => load64 (kmem_mem s) a).
Definition write64 (a v : Z) : K kmem unit := modify (on_mem (fun m => store64 m a v)).
Definition do_memset (dst c n : Z) : K kmem unit := modify (on_mem (fun m => memset m dst c n)).
Definition do_memmove (dst src n : Z) : K kmem unit :=
  modify (on_mem (fun m => memmove m dst src n)).

(** memmove() of a kernel buffer, given by its bytes, to physical memory. *)
Definition put_bytes (dst : Z) (src : list Z) : K kmem unit :=
  modify (on_mem (fun m => mwrite m dst src)).

(** [flag v f]: the C test [v & f]. *)
Definition flag (v f : Z) : bool := negb (Z.land v f =? 0).

Section vm.
Variable kend : Z.

(** ** walk *)

(** The loop over levels 2 and 1 and the final &pagetable[PX(0, va)]. *)
Fixpoint walk_loop (level : nat) (pagetable va : Z) (alloc : bool) : K kmem Z :=
  match level with
  | O => ret (pagetable + 8 * PX 0 va)
  | S level' =>
      let pte := pagetable + 8 * PX (Z.of_nat level) va in
      v <- read64 pte ;;
      if flag v PTE_V then walk_loop level' (PTE2PA v) va alloc
      else if negb alloc then ret 0
      else
        pt <- kalloc ;;
        if pt =? 0 then ret 0
        else
          do_memset pt 0 PGSIZE ;;;
          write64 pte (Z.lor (PA2PTE pt) PTE_V) ;;;
          walk_loop level' pt va alloc
  end.

Definition walk (pagetable va : Z) (alloc : bool) : K kmem Z :=
  if MAXVA <=? va then panic "walk" else walk_loop 2 pagetable va alloc.

Definition walkaddr (pagetable va : Z) : K kmem Z :=
  if MAXVA <=? va then ret 0
  else
    pte <- walk pagetable va false ;;
    if pte =? 0 then ret 0
    else
      v <- read64 pte ;;
      if negb (flag v PTE_V) then ret 0
      else if negb (flag v PTE_U) then ret 0
      else ret (PTE2PA v).

(** ** mappages, uvmunmap *)

Fixpoint mappages_loop (fuel : nat) (pagetable a last pa perm : Z) : K kmem Z :=
  match fuel with
  | O => out_of_fuel
  | S fuel =>
      pte <- walk pagetable a true ;;
      if pte =? 0 then ret (-1)
      else
        v <- read64 pte ;;
        if flag v PTE_V then panic "mappages: remap"
        else
          write64 pte (Z.lor (Z.lor (PA2PTE pa) perm) PTE_V) ;;;
          if a =? last then ret 0
          else mappages_loop fuel pagetable (u64 (a + PGSIZE)) last (u64 (pa + PGSIZE)) perm
  end.

Definition mappages (pagetable va size pa perm : Z) : K kmem Z :=
  if negb (va mod PGSIZE =? 0) then panic "mappages: va not aligned"
  else if negb (size mod PGSIZE =? 0) then panic "mappages: size not aligned"
  else if size =? 0 then panic "mappages: size"
  else mappages_loop (Z.to_nat (size / PGSIZE)) pagetable va
         (u64 (va + size - PGSIZE)) pa perm.

Definition kvmmap (kpgtbl va pa sz perm : Z) : K kmem unit :=
  r <- mappages kpgtbl va sz pa perm ;;
  if negb (r =? 0) then panic "kvmmap" else ret tt.

Fixpoint uvmunmap_loop (fuel : nat) (pagetable a stop : Z) (do_free : bool) : K kmem unit :=
  if a <? stop then
    match fuel with
    | O => out_of_fuel
    | S fuel =>
        pte <- walk pagetable a false ;;
        if pte =? 0 then panic "uvmunmap: walk"
        else
          v <- read64 pte ;;
          if negb (flag v PTE_V) then panic "uvmunmap: not mapped"
          else if PTE_FLAGS v =? PTE_V then panic "uvmunmap: not a leaf"
          else
            (when do_free do kfree kend (PTE2PA v)) ;;;
            write64 pte 0 ;;;
            uvmunmap_loop fuel pagetable (u64 (a + PGSIZE)) stop do_free
    end
  else ret tt.

Definition uvmunmap (pagetable va npages : Z) (do_free : bool) : K kmem unit :=
  if negb (va mod PGSIZE =? 0) then panic "uvmunmap: not aligned"
  else uvmunmap_loop (Z.to_nat npages) pagetable va (u64 (va + npages * PGSIZE)) do_free.

(** ** Creation, growth and release of a user address space *)

Definition uvmcreate : K kmem Z :=
  pagetable <- kalloc ;;
  if pagetable =? 0 then ret 0
  else do_memset pagetable 0 PGSIZE ;;; ret pagetable.

Definition uvmfirst (pagetable : Z) (src : list Z) (sz : Z) : K kmem unit :=
  if PGSIZE <=? sz then panic "uvmfirst: more than a page"
  else
    m <- kalloc ;;
    do_memset m 0 PGSIZE ;;;
    mappages pagetable 0 PGSIZE m (Z.lor (Z.lor (Z.lor PTE_W PTE_R) PTE_X) PTE_U) ;;;
    put_bytes m (take (Z.to_nat sz) src).

Definition uvmdealloc (pagetable oldsz newsz : Z) : K kmem Z :=
  if oldsz <=? newsz then ret oldsz
  else
    (when PGROUNDUP newsz <? PGROUNDUP oldsz do
       (let npages := i32 ((PGROUNDUP oldsz - PGROUNDUP newsz) / PGSIZE) in
        uvmunmap pagetable (PGROUNDUP newsz) npages true)) ;;;
    ret newsz.

Fixpoint uvmalloc_loop (fuel : nat) (pagetable a oldsz newsz xperm : Z) : K kmem Z :=
  if a <? newsz then
    match fuel with
    | O => out_of_fuel
    | S fuel =>
        m <- kalloc ;;
        if m =? 0 then
          uvmdealloc pagetable a oldsz ;;; ret 0
        else
          do_memset m 0 PGSIZE ;;;
          r <- mappages pagetable a PGSIZE m (Z.lor (Z.lor PTE_R PTE_U) xperm) ;;
          if negb (r =? 0) then
            kfree kend m ;;;
            uvmdealloc pagetable a oldsz ;;;
            ret 0
          else uvmalloc_loop fuel pagetable (u64 (a + PGSIZE)) oldsz newsz xperm
    end
  else ret newsz.

Definition uvmalloc (pagetable oldsz newsz xperm : Z) : K kmem Z :=
  if newsz <? oldsz then ret oldsz
  else
    let oldsz := PGROUNDUP oldsz in
    uvmalloc_loop (Z.to_nat ((newsz - oldsz + PGSIZE - 1) / PGSIZE))
      pagetable oldsz oldsz newsz xperm.

(** The loop of freewalk() over the entries [i .. 511] of one table, [n] of
    them left; [rec] is the recursive call on a lower-level table. *)
Fixpoint freewalk_entries (rec : Z -> K kmem unit) (pagetable : Z) (n : nat) (i : Z)
    : K kmem unit :=
  match n with
  | O => kfree kend pagetable
  | S n =>
      pte <- read64 (pagetable + 8 * i) ;;
      if flag pte PTE_V && negb (flag pte (Z.lor (Z.lor PTE_R PTE_W) PTE_X)) then
        rec (PTE2PA pte) ;;;
        write64 (pagetable + 8 * i) 0 ;;;
        freewalk_entries rec pagetable n (i + 1)
      else if flag pte PTE_V then panic "freewalk: leaf"
      else freewalk_entries rec pagetable n (i + 1)
  end.

(** [depth] bounds the recursion; 3 is the number of levels of Sv39. *)
Fixpoint freewalk (depth : nat) (pagetable : Z) : K kmem unit :=
  match depth with
  | O => out_of_fuel
  | S depth => freewalk_entries (freewalk depth) pagetable 512 0
  end.

Definition uvmfree (pagetable sz : Z) : K kmem unit :=
  (when 0 <? sz do uvmunmap pagetable 0 (PGROUNDUP sz / PGSIZE) true) ;;;
  freewalk 3 pagetable.

(** ** Copying an address space *)

Fixpoint uvmcopy_loop (fuel : nat) (old new i sz : Z) : K kmem Z :=
  if i <? sz then
    match fuel with
    | O => out_of_fuel
    | S fuel =>
        pte <- walk old i false ;;
        if pte =? 0 then panic "uvmcopy: pte should exist"
        else
          v <- read64 pte ;;
          if negb (flag v PTE_V) then panic "uvmcopy: page not present"
          else
            let pa := PTE2PA v in
            let flags := PTE_FLAGS v in
            m <- kalloc ;;
            if m =? 0 then
              uvmunmap new 0 (i / PGSIZE) true ;;; ret (-1)
            else
              do_memmove m pa PGSIZE ;;;
              r <- mappages new i PGSIZE m flags ;;
              if negb (r =? 0) then
                kfree kend m ;;;
                uvmunmap new 0 (i / PGSIZE) true ;;;
                ret (-1)
              else uvmcopy_loop fuel old new (u64 (i + PGSIZE)) sz
    end
  else ret 0.

Definition uvmcopy (old new sz : Z) : K kmem Z :=
  uvmcopy_loop (Z.to_nat ((sz + PGSIZE - 1) / PGSIZE)) old new 0 sz.

Definition uvmclear (pagetable va : Z) : K kmem unit :=
  pte <- walk pagetable va false ;;
  if pte =? 0 then panic "uvmclear"
  else
    v <- read64 pte ;;
    write64 pte (Z.land v (Z.lnot PTE_U)).

(** ** Copying between kernel and user *)

Fixpoint copyout_loop (fuel : nat) (pagetable dstva : Z) (src : list Z) : K kmem Z :=
  match src with
  | [] => ret 0
  | _ =>
    match fuel with
    | O => out_of_fuel
    | S fuel =>
        let va0 := PGROUNDDOWN dstva in
        if MAXVA <=? va0 then ret (-1)
        else
          pte <- walk pagetable va0 false ;;
          if pte =? 0 then ret (-1)
          else
            v <- read64 pte ;;
            if negb (flag v PTE_V) || negb (flag v PTE_U) || negb (flag v PTE_W)
            then ret (-1)
            else
              let pa0 := PTE2PA v in
              let n0 := PGSIZE - (dstva - va0) in
              let n := if Z.of_nat (length src) <? n0 then Z.of_nat (length src) else n0 in
              put_bytes (pa0 + (dstva - va0)) (take (Z.to_nat n) src) ;;;
              copyout_loop fuel pagetable (u64 (va0 + PGSIZE)) (drop (Z.to_nat n) src)
    end
  end.

Definition copyout (pagetable dstva : Z) (src : list Z) : K kmem Z :=
  copyout_loop (length src) pagetable dstva src.

Fixpoint copyin_loop (fuel : nat) (pagetable srcva len : Z) : K kmem (Z * list Z) :=
  if 0 <? len then
    match fuel with
    | O => out_of_fuel
    | S fuel =>
        let va0 := PGROUNDDOWN srcva in
        pa0 <- walkaddr pagetable va0 ;;
        if pa0 =? 0 then ret (-1, [])
        else
          let n0 := PGSIZE - (srcva - va0) in
          let n := if len <? n0 then len else n0 in
          bs <- gets (fun s => mread (kmem_mem s) (pa0 + (srcva - va0)) (Z.to_nat n)) ;;
          r <- copyin_loop fuel pagetable (u64 (va0 + PGSIZE)) (len - n) ;;
          ret (r.1, bs ++ r.2)
    end
  else ret (0, []).

Definition copyin (pagetable srcva len : Z) : K kmem (Z * list Z) :=
  copyin_loop (Z.to_nat len) pagetable srcva len.

(** The inner loop of copyinstr(): up to [n] bytes from [p], stopping after a
    NUL; returns the bytes stored to dst and got_null. *)
Fixpoint copyinstr_page (m : mem) (p : Z) (n : nat) : list Z * bool :=
  match n with
  | O => ([], false)
  | S n =>
      if mget m p =? 0 then ([0], true)
      else let r := copyinstr_page m (p + 1) n in (mget m p :: r.1, r.2)
  end.

Fixpoint copyinstr_loop (fuel : nat) (pagetable srcva max : Z) : K kmem (Z * list Z) :=
  if 0 <? max then
    match fuel with
    | O => out_of_fuel
    | S fuel =>
        let va0 := PGROUNDDOWN srcva in
        pa0 <- walkaddr pagetable va0 ;;
        if pa0 =? 0 then ret (-1, [])
        else
          let n0 := PGSIZE - (srcva - va0) in
          let n := if max <? n0 then max else n0 in
          pg <- gets (fun s => copyinstr_page (kmem_mem s) (pa0 + (srcva - va0)) (Z.to_nat n)) ;;
          if pg.2 then ret (0, pg.1)
          else
            r <- copyinstr_loop fuel pagetable (u64 (va0 + PGSIZE)) (max - n) ;;
            ret (r.1, pg.1 ++ r.2)
    end
  else ret (-1, []).

Definition copyinstr (pagetable srcva max : Z) : K kmem (Z * list Z) :=
  copyinstr_loop (Z.to_nat max) pagetable srcva max.

(** ** The kernel page table *)

Section kvm.
(** Linker symbols: the end of the kernel text and the trampoline page. *)
Variables etext trampoline : Z.

(** proc.c: one kernel stack per process slot, [NPROC] of them. *)
Fixpoint proc_mapstacks_loop (n : nat) (p : Z) (kpgtbl : Z) : K kmem unit :=
  match n with
  | O => ret tt
  | S n =>
      pa <- kalloc ;;
      if pa =? 0 then panic "kalloc"
      else
        kvmmap kpgtbl (KSTACK p) pa PGSIZE (Z.lor PTE_R PTE_W) ;;;
        proc_mapstacks_loop n (p + 1) kpgtbl
  end.

Definition proc_mapstacks (kpgtbl : Z) : K kmem unit := proc_mapstacks_loop 64 0 kpgtbl.

Definition kvmmake : K kmem Z :=
  kpgtbl <- kalloc ;;
  do_memset kpgtbl 0 PGSIZE ;;;
  kvmmap kpgtbl UART0 UART0 PGSIZE (Z.lor PTE_R PTE_W) ;;;
  kvmmap kpgtbl VIRTIO0 VIRTIO0 PGSIZE (Z.lor PTE_R PTE_W) ;;;
  kvmmap kpgtbl PLIC PLIC 0x4000000 (Z.lor PTE_R PTE_W) ;;;
  kvmmap kpgtbl CLINT CLINT 0x10000 (Z.lor PTE_R PTE_W) ;;;
  kvmmap kpgtbl KERNBASE KERNBASE (etext - KERNBASE) (Z.lor PTE_R PTE_X) ;;;
  kvmmap kpgtbl etext etext (PHYSTOP - etext) (Z.lor PTE_R PTE_W) ;;;
  kvmmap kpgtbl TRAMPOLINE trampoline PGSIZE (Z.lor PTE_R PTE_X) ;;;
  proc_mapstacks kpgtbl ;;;
  ret kpgtbl.

End kvm.
End vm.
