(* ===== verification/VmSleep.v ===== *)
(** * The memory routines never sleep

    kalloc.c and vm.c are called with spinlocks held (wait_lock and a p->lock
    in wait(), a pipe's lock in pipewrite()), where going to sleep would be a
    panic of sched().  None of their routines sleeps. *)

From S2P Require Import Prelude KMonad Hoare CString Riscv Kalloc Vm.
Open Scope kmonad_scope.

Section vmsleep.
Variable kend : Z.

Lemma kalloc_nosleep : nosleep kalloc.
Proof. unfold kalloc. nosleep_auto. Qed.

Lemma kfree_nosleep pa : nosleep (kfree kend pa).
Proof. unfold kfree. nosleep_auto. Qed.

Lemma read64_nosleep a : nosleep (read64 a).
Proof. apply nosleep_gets. Qed.

Lemma write64_nosleep a v : nosleep (write64 a v).
Proof. apply nosleep_modify. Qed.

Lemma memset_nosleep d c n : nosleep (do_memset d c n).
Proof. apply nosleep_modify. Qed.

Lemma memmove_nosleep d c n : nosleep (do_memmove d c n).
Proof. apply nosleep_modify. Qed.

Lemma put_bytes_nosleep d l : nosleep (put_bytes d l).
Proof. apply nosleep_modify. Qed.
Hint Resolve kalloc_nosleep kfree_nosleep read64_nosleep write64_nosleep memset_nosleep
  memmove_nosleep put_bytes_nosleep : nosleep.

Lemma walk_nosleep pt va alloc : nosleep (walk pt va alloc).
Proof.
  assert (Hl : forall n pt, nosleep (walk_loop n pt va alloc)).
  { induction n as [|n IH]; intros p; cbn [walk_loop]; nosleep_auto; apply IH. }
  unfold walk. nosleep_auto; apply Hl.
Qed.
Hint Resolve walk_nosleep : nosleep.

Lemma walkaddr_nosleep pt va : nosleep (walkaddr pt va).
Proof. unfold walkaddr. nosleep_auto. Qed.

Lemma mappages_nosleep pt va size pa perm : nosleep (mappages pt va size pa perm).
Proof.
  assert (Hl : forall n a l p, nosleep (mappages_loop n pt a l p perm)).
  { induction n as [|n IH]; intros; cbn [mappages_loop]; nosleep_auto; apply IH. }
  unfold mappages. nosleep_auto; apply Hl.
Qed.

Lemma uvmunmap_nosleep pt va n f : nosleep (uvmunmap kend pt va n f).
Proof.
  assert (Hl : forall n a stop, nosleep (uvmunmap_loop kend n pt a stop f)).
  { induction n0 as [|n0 IH]; intros; cbn [uvmunmap_loop]; nosleep_auto; apply IH. }
  unfold uvmunmap. nosleep_auto; apply Hl.
Qed.
Hint Resolve walkaddr_nosleep mappages_nosleep uvmunmap_nosleep : nosleep.

Lemma uvmcreate_nosleep : nosleep uvmcreate.
Proof. unfold uvmcreate. nosleep_auto. Qed.

Lemma uvmdealloc_nosleep pt o n : nosleep (uvmdealloc kend pt o n).
Proof. unfold uvmdealloc. nosleep_auto. Qed.
Hint Resolve uvmcreate_nosleep uvmdealloc_nosleep : nosleep.

Lemma uvmalloc_nosleep pt o n x : nosleep (uvmalloc kend pt o n x).
Proof.
  assert (Hl : forall f a o', nosleep (uvmalloc_loop kend f pt a o' n x)).
  { induction f as [|f IH]; intros; cbn [uvmalloc_loop]; nosleep_auto; apply IH. }
  unfold uvmalloc. nosleep_auto; apply Hl.
Qed.

Lemma freewalk_nosleep d pt : nosleep (freewalk kend d pt).
Proof.
  revert pt. induction d as [|d IH]; intros pt; cbn [freewalk]; [apply nosleep_fuel|].
  generalize 512%nat 0. intros n. induction n as [|n IHn]; intros i; cbn [freewalk_entries];
    nosleep_auto; auto.
Qed.
Hint Resolve freewalk_nosleep : nosleep.

Lemma uvmfree_nosleep pt sz : nosleep (uvmfree kend pt sz).
Proof. unfold uvmfree. nosleep_auto. Qed.

Lemma uvmcopy_nosleep old new sz : nosleep (uvmcopy kend old new sz).
Proof.
  assert (Hl : forall f i, nosleep (uvmcopy_loop kend f old new i sz)).
  { induction f as [|f IH]; intros; cbn [uvmcopy_loop]; nosleep_auto; apply IH. }
  unfold uvmcopy. apply Hl.
Qed.

Lemma copyout_nosleep pt va src : nosleep (copyout pt va src).
Proof.
  assert (Hl : forall f va src, nosleep (copyout_loop f pt va src)).
  { induction f as [|f IH]; intros v [|b l]; cbn [copyout_loop]; nosleep_auto; apply IH. }
  unfold copyout. apply Hl.
Qed.

Lemma copyin_nosleep pt va len : nosleep (copyin pt va len).
Proof.
  assert (Hl : forall f va len, nosleep (copyin_loop f pt va len)).
  { induction f as [|f IH]; intros; cbn [copyin_loop]; nosleep_auto; apply IH. }
  unfold copyin. apply Hl.
Qed.
End vmsleep.

#[export] Hint Resolve kalloc_nosleep kfree_nosleep read64_nosleep write64_nosleep memset_nosleep
  memmove_nosleep put_bytes_nosleep walk_nosleep walkaddr_nosleep mappages_nosleep
  uvmunmap_nosleep uvmcreate_nosleep uvmdealloc_nosleep uvmalloc_nosleep freewalk_nosleep
  uvmfree_nosleep uvmcopy_nosleep copyout_nosleep copyin_nosleep : nosleep.
