(* ===== verification/PageTable.v ===== *)
(** * Page tables: the tree invariant and the translation they define

    The page-table pages of an address space are labelled with their level
    and the prefix of the virtual page numbers they serve.  Since a page has
    one label, no table is shared between two prefixes, and the effect of a
    store to an entry on the translation of every other address follows. *)

From S2P Require Import Prelude KMonad CString Riscv Kalloc Vm.

Open Scope kmonad_scope.

(** ** The translation *)

Definition slot (p i : Z) : Z := p + 8 * i.

(** The leaf table reached from [pt] at level [lev]. *)
Fixpoint pt_leaf (m : mem) (lev : nat) (pt va : Z) : option Z :=
  match lev with
  | O => Some pt
  | S lev' =>
      let v := load64 m (slot pt (PX (Z.of_nat lev) va)) in
      if flag v PTE_V then pt_leaf m lev' (PTE2PA v) va else None
  end.

(** The leaf entry for [va], 0 when no leaf table covers it. *)
Definition pte_from (m : mem) (lev : nat) (pt va : Z) : Z :=
  match pt_leaf m lev pt va with
  | Some p => load64 m (slot p (PX 0 va))
  | None => 0
  end.

Definition pte_of (m : mem) (root va : Z) : Z := pte_from m 2 root va.

(** ** The invariant *)

Definition table_page (p : Z) : Prop := pg_aligned p /\ 0 < p < PHYSTOP.

(** The prefix served by a level-[lev] table on the path to [va]. *)
Definition vprefix (lev : nat) (va : Z) : Z := va / 2 ^ (12 + 9 * (Z.of_nat lev + 1)).

Record pt_wf (m : mem) (T : gmap Z (nat * Z)) : Prop := {
  wf_page : forall p l pre, T !! p = Some (l, pre) -> table_page p;
  wf_child : forall p l pre i, T !! p = Some (S l, pre) -> 0 <= i < 512 ->
    flag (load64 m (slot p i)) PTE_V = true ->
    T !! PTE2PA (load64 m (slot p i)) = Some (l, pre * 512 + i) /\
    PTE_FLAGS (load64 m (slot p i)) = PTE_V
}.

(** ** Arithmetic of slots and prefixes *)

Lemma vprefix_child lev va :
  0 <= va -> vprefix lev va = vprefix (S lev) va * 512 + PX (Z.of_nat (S lev)) va.
Proof.
  intros Hva. unfold vprefix. rewrite PX_eq by lia.
  set (k := Z.of_nat (S lev)). replace (Z.of_nat lev + 1) with k by lia.
  replace (2 ^ (12 + 9 * (k + 1))) with (2 ^ (12 + 9 * k) * 512)
    by (change 512 with (2 ^ 9); rewrite <- Z.pow_add_r by lia; f_equal; lia).
  rewrite <- Z.div_div by lia.
  pose proof (Z.div_mod (va / 2 ^ (12 + 9 * k)) 512). lia.
Qed.

Lemma vprefix_root va : 0 <= va < MAXVA -> vprefix 2 va = 0.
Proof.
  intros. unfold vprefix. change MAXVA with 274877906944 in *.
  change (2 ^ (12 + 9 * (Z.of_nat 2 + 1))) with 549755813888.
  apply Z.div_small. lia.
Qed.

Lemma vpn_prefix va : 0 <= va -> va / PGSIZE = vprefix 0 va * 512 + PX 0 va.
Proof.
  intros. unfold vprefix, PGSIZE. rewrite PX_eq by lia.
  change (2 ^ (12 + 9 * (Z.of_nat 0 + 1))) with 2097152.
  change (2 ^ (12 + 9 * 0)) with 4096. zdm.
Qed.

Lemma slot_inj p q i j :
  pg_aligned p -> pg_aligned q -> 0 <= i < 512 -> 0 <= j < 512 ->
  slot p i + 8 <= slot q j \/ slot q j + 8 <= slot p i \/ (p = q /\ i = j).
Proof.
  unfold slot. intros Hp Hq Hi Hj. destruct (Z.eq_dec p q) as [->|Hne]; [lia|].
  destruct (pages_disjoint p q Hp Hq Hne); unfold PGSIZE in *; lia.
Qed.

Lemma slot_in_page p i : 0 <= i < 512 -> p <= slot p i /\ slot p i + 8 <= p + PGSIZE.
Proof. unfold slot, PGSIZE. lia. Qed.

(** ** Flags *)

Lemma flag_of_flags v f : Z.land 0x3FF f = f -> flag v f = flag (PTE_FLAGS v) f.
Proof. intros Hf. unfold flag, PTE_FLAGS. by rewrite <- Z.land_assoc, Hf. Qed.

Lemma table_pte q :
  table_page q ->
  let v := Z.lor (PA2PTE q) PTE_V in
  flag v PTE_V = true /\ PTE2PA v = q /\ PTE_FLAGS v = PTE_V /\ 0 <= v < 2 ^ 64.
Proof.
  intros [Ha Hb] v. destruct (pte_roundtrip q PTE_V) as (H1 & H2 & H3).
  - split; [done|]. unfold PHYSTOP, KERNBASE in Hb. lia.
  - change PTE_V with 1. lia.
  - split; [|done]. rewrite flag_of_flags by done. unfold v. by rewrite H2.
Qed.

Lemma flag_0 f : flag 0 f = false.
Proof. done. Qed.

(** ** Linking in an empty table *)

Section extend.
Context (m m' : mem) (T : gmap Z (nat * Z)) (p : Z) (lev : nat) (pre i q : Z).
Hypothesis Hwf : pt_wf m T.
Hypothesis Hp : T !! p = Some (S lev, pre).
Hypothesis Hi : 0 <= i < 512.
Hypothesis Hinv : flag (load64 m (slot p i)) PTE_V = false.
Hypothesis Hq : T !! q = None.
Hypothesis Hqp : table_page q.
Hypothesis Hnew : load64 m' (slot p i) = Z.lor (PA2PTE q) PTE_V.
Hypothesis Hzero : forall j, 0 <= j < 512 -> load64 m' (slot q j) = 0.
Hypothesis Hold : forall p' j, is_Some (T !! p') -> 0 <= j < 512 -> (p', j) <> (p, i) ->
  load64 m' (slot p' j) = load64 m (slot p' j).

Let T' := <[q := (lev, pre * 512 + i)]> T.

Lemma extend_wf : pt_wf m' T'.
Proof.
  destruct (table_pte q Hqp) as (Hv & Hpa & Hfl & _). split.
  - intros p' l pr. unfold T'. rewrite lookup_insert. case_decide; [by subst|].
    apply Hwf.
  - intros p' l pr j. unfold T'. rewrite lookup_insert. case_decide as Hd.
    + intros [= -> ->] Hj. subst p'. rewrite Hzero by done. done.
    + intros Hp' Hj Hf. destruct (decide ((p', j) = (p, i))) as [[= -> ->]|Hne].
      * rewrite Hnew in *. rewrite Hpa, lookup_insert_eq. simplify_eq. done.
      * rewrite Hold in * by eauto. destruct (wf_child _ _ Hwf _ _ _ _ Hp' Hj Hf) as [Hc Hcf].
        split; [|done]. rewrite lookup_insert_ne; [done|congruence].
Qed.

Lemma extend_empty l va : pte_from m' l q va = 0.
Proof.
  unfold pte_from. destruct l as [|l]; cbn [pt_leaf].
  - apply Hzero, PX_range. lia.
  - rewrite Hzero by (apply PX_range; lia). done.
Qed.

Lemma extend_pte l r pr va :
  T !! r = Some (l, pr) -> pte_from m' l r va = pte_from m l r va.
Proof.
  revert r pr. induction l as [|l IH]; intros r pr Hr.
  - unfold pte_from. cbn [pt_leaf]. apply Hold; [eauto|apply PX_range; lia|].
    intros [= -> _]. congruence.
  - unfold pte_from. cbn [pt_leaf].
    assert (HPX : 0 <= PX (Z.of_nat (S l)) va < 512) by (apply PX_range; lia).
    destruct (decide ((r, PX (Z.of_nat (S l)) va) = (p, i))) as [[= -> Heq]|Hne].
    + rewrite Heq in *. rewrite Hnew, Hinv.
      destruct (table_pte q Hqp) as (-> & -> & _). apply extend_empty.
    + rewrite Hold by eauto.
      destruct (flag (load64 m (slot r (PX (Z.of_nat (S l)) va))) PTE_V) eqn:Hf; [|done].
      destruct (wf_child _ _ Hwf _ _ _ _ Hr HPX Hf) as [Hc _]. by apply (IH _ _ Hc).
Qed.
End extend.

(** ** Addresses of one page have one entry *)

Lemma same_page_PX va va' lev :
  0 <= va -> 0 <= va' -> va' / PGSIZE = va / PGSIZE ->
  vprefix lev va' = vprefix lev va /\ PX (Z.of_nat lev) va' = PX (Z.of_nat lev) va.
Proof.
  intros Hva Hva' Hpg. induction lev as [|lev [IH1 IH2]].
  - rewrite !vpn_prefix in Hpg by done.
    pose proof (PX_range 0 va). pose proof (PX_range 0 va'). change (Z.of_nat 0) with 0. lia.
  - pose proof (vprefix_child lev va Hva). pose proof (vprefix_child lev va' Hva').
    pose proof (PX_range (Z.of_nat (S lev)) va). pose proof (PX_range (Z.of_nat (S lev)) va').
    lia.
Qed.

Lemma same_page_leaf m lev pt va va' :
  0 <= va -> 0 <= va' -> va' / PGSIZE = va / PGSIZE ->
  pt_leaf m lev pt va' = pt_leaf m lev pt va /\ PX 0 va' = PX 0 va.
Proof.
  intros Hva Hva' Hpg. split; [|by apply (same_page_PX va va' 0)].
  revert pt. induction lev as [|lev IH]; intros pt; cbn [pt_leaf]; [done|].
  destruct (same_page_PX va va' (S lev) Hva Hva' Hpg) as [_ ->].
  destruct (flag _ _); [apply IH|done].
Qed.

Lemma same_page_pte m root va va' :
  0 <= va -> 0 <= va' -> va' / PGSIZE = va / PGSIZE -> pte_of m root va' = pte_of m root va.
Proof.
  intros Hva Hva' Hpg. unfold pte_of, pte_from.
  by destruct (same_page_leaf m 2 root va va' Hva Hva' Hpg) as [-> ->].
Qed.

(** ** Storing to a leaf entry *)

Lemma pt_leaf_label m T lev pt va p :
  pt_wf m T -> 0 <= va -> T !! pt = Some (lev, vprefix lev va) ->
  pt_leaf m lev pt va = Some p -> T !! p = Some (0%nat, vprefix 0 va).
Proof.
  intros Hwf Hva. revert pt. induction lev as [|lev IH]; intros pt Hpt; cbn [pt_leaf].
  - intros [= <-]. done.
  - destruct (flag _ _) eqn:Hf; [|done]. intros Hl.
    apply (IH (PTE2PA (load64 m (slot pt (PX (Z.of_nat (S lev)) va))))); [|done].
    rewrite vprefix_child by lia. eapply wf_child; eauto. apply PX_range. lia.
Qed.

Section leaf_store.
Context (m m' : mem) (T : gmap Z (nat * Z)) (p pre i v : Z).
Hypothesis Hwf : pt_wf m T.
Hypothesis Hp : T !! p = Some (0%nat, pre).
Hypothesis Hi : 0 <= i < 512.
Hypothesis Hnew : load64 m' (slot p i) = v.
Hypothesis Hold : forall p' j, is_Some (T !! p') -> 0 <= j < 512 -> (p', j) <> (p, i) ->
  load64 m' (slot p' j) = load64 m (slot p' j).

Lemma leaf_store_wf : pt_wf m' T.
Proof.
  split; [apply Hwf|]. intros p' l pr j Hp' Hj.
  rewrite Hold; [by eapply wf_child|eauto|done|]. intros [= -> ->]. congruence.
Qed.

Lemma leaf_store_leaf l r pr va :
  T !! r = Some (l, pr) -> pt_leaf m' l r va = pt_leaf m l r va.
Proof.
  revert r pr. induction l as [|l IH]; intros r pr Hr; cbn [pt_leaf]; [done|].
  assert (HPX : 0 <= PX (Z.of_nat (S l)) va < 512) by (apply PX_range; lia).
  rewrite Hold; [|eauto|done|intros [= -> _]; congruence].
  destruct (flag (load64 m (slot r (PX (Z.of_nat (S l)) va))) PTE_V) eqn:Hf; [|done].
  destruct (wf_child _ _ Hwf _ _ _ _ Hr HPX Hf) as [Hc _]. by apply (IH _ _ Hc).
Qed.

(** Only the virtual page served by the entry changes its translation. *)
Lemma leaf_store_pte r va :
  T !! r = Some (2%nat, 0) -> 0 <= va < MAXVA -> va / PGSIZE <> pre * 512 + i ->
  pte_of m' r va = pte_of m r va.
Proof.
  intros Hr Hva Hne. unfold pte_of, pte_from. rewrite (leaf_store_leaf 2 r 0) by done.
  destruct (pt_leaf m 2 r va) as [p'|] eqn:Hl; [|done].
  assert (Hp' : T !! p' = Some (0%nat, vprefix 0 va)).
  { eapply (pt_leaf_label m T 2 r); eauto; [lia|]. by rewrite vprefix_root. }
  apply Hold; [eauto|apply PX_range; lia|]. intros [= -> HP].
  apply Hne. rewrite vpn_prefix by lia. rewrite HP. congruence.
Qed.
End leaf_store.

(** ** Reachability

    [reach m lev pt p]: the table [p] is in the tree below the table [pt] of
    level [lev]. *)
Inductive reach (m : mem) : nat -> Z -> Z -> Prop :=
| reach_here lev pt : reach m lev pt pt
| reach_below lev pt i p :
    0 <= i < 512 -> flag (load64 m (slot pt i)) PTE_V = true ->
    reach m lev (PTE2PA (load64 m (slot pt i))) p -> reach m (S lev) pt p.

(** Every labelled table is in the tree of [root]. *)
Definition rooted (m : mem) (T : gmap Z (nat * Z)) (root : Z) : Prop :=
  forall p, is_Some (T !! p) -> reach m 2 root p.

(** No table serves addresses from MAXVA on. *)
Definition low (T : gmap Z (nat * Z)) : Prop := forall p pre, T !! p = Some (1%nat, pre) -> pre < 256.

(** Entries that lead to a table stay. *)
Definition entries_stay (T : gmap Z (nat * Z)) (m m' : mem) : Prop :=
  forall p lev pre i, T !! p = Some (S lev, pre) -> 0 <= i < 512 ->
    flag (load64 m (slot p i)) PTE_V = true -> load64 m' (slot p i) = load64 m (slot p i).

Lemma reach_mono m m' T lev pt pre p :
  pt_wf m T -> entries_stay T m m' -> T !! pt = Some (lev, pre) -> reach m lev pt p -> reach m' lev pt p.
Proof.
  intros Hwf Hst Hpt Hr. revert pre Hpt. induction Hr as [|lev pt i p Hi Hf Hr IH]; intros pre Hpt; [constructor|].
  destruct (wf_child _ _ Hwf _ _ _ _ Hpt Hi Hf) as [Hc _]. pose proof (Hst _ _ _ _ Hpt Hi Hf) as He.
  apply (reach_below _ _ _ i); [done|by rewrite He|]. rewrite He. by eapply IH.
Qed.

Lemma reach_snoc m T lev pt pre p k pre' i :
  pt_wf m T -> T !! pt = Some (lev, pre) -> reach m lev pt p -> T !! p = Some (S k, pre') -> 0 <= i < 512 ->
  flag (load64 m (slot p i)) PTE_V = true -> reach m lev pt (PTE2PA (load64 m (slot p i))).
Proof.
  intros Hwf Hpt Hr. revert pre Hpt. induction Hr as [lev pt|lev pt j p Hj Hfj Hr IH]; intros pre Hpt Hp Hi Hf.
  - rewrite Hpt in Hp. injection Hp as -> _. apply (reach_below _ _ _ i); [done|done|constructor].
  - destruct (wf_child _ _ Hwf _ _ _ _ Hpt Hj Hfj) as [Hc _]. apply (reach_below _ _ _ j); [done|done|]. by eapply IH.
Qed.

(** The tree of a root grows with the labels. *)
Definition keeps_tree (m : mem) (T : gmap Z (nat * Z)) (m' : mem) (T' : gmap Z (nat * Z)) : Prop :=
  (forall root, T !! root = Some (2%nat, 0) -> rooted m T root -> rooted m' T' root) /\ (low T -> low T').

Lemma keeps_tree_trans m1 T1 m2 T2 m3 T3 :
  keeps_tree m1 T1 m2 T2 -> T1 ⊆ T2 -> keeps_tree m2 T2 m3 T3 -> keeps_tree m1 T1 m3 T3.
Proof.
  intros [A1 A2] HT [B1 B2]. split; [|auto]. intros root Hr H. apply B1; [by eapply lookup_weaken|auto].
Qed.

Lemma stay_keeps_tree m T m' : pt_wf m T -> entries_stay T m m' -> keeps_tree m T m' T.
Proof. intros Hwf Hst. split; [|done]. intros root Hr Hro p Hp. eapply reach_mono; eauto. Qed.
