(* ===== verification/VmSpec.v ===== *)
(** * What the routines of vm.c do to an address space

    [vmi s l T]: the allocator's free list is [l], the page-table pages are
    labelled by [T], and no table is free.  The routines are shown to
    preserve it and to change the translation [pte_of] as documented. *)

From S2P Require Import Prelude KMonad CString Riscv Kalloc Vm PageTable.

Open Scope kmonad_scope.

(** Two memories agree outside the pages of [P]. *)
Definition same_off (P : Z -> Prop) (m m' : mem) : Prop :=
  forall a, (forall p, P p -> ~ (p <= a < p + PGSIZE)) -> mget m' a = mget m a.

Lemma same_off_refl P m : same_off P m m.
Proof. by intros a _. Qed.

Lemma same_off_trans P Q m1 m2 m3 :
  same_off P m1 m2 -> same_off Q m2 m3 -> same_off (fun p => P p \/ Q p) m1 m3.
Proof. intros H1 H2 a Ha. rewrite H2, H1; eauto. Qed.

Lemma same_off_mono (P Q : Z -> Prop) m m' :
  (forall p, P p -> Q p) -> same_off P m m' -> same_off Q m m'.
Proof. intros HPQ H a Ha. apply H. eauto. Qed.

Lemma same_outside_off p m m' : same_outside p m m' -> same_off (fun q => q = p) m m'.
Proof. intros H a Ha. apply H. by apply Ha. Qed.

(** The pure walk is what walk() computes when it may not allocate. *)
Lemma walk_loop_false lev pt va e s :
  walk_loop lev pt va false e s =
  Ok (match pt_leaf (kmem_mem s) lev pt va with
      | Some p => slot p (PX 0 va)
      | None => 0
      end) e s.
Proof.
  revert pt. induction lev as [|lev IH]; intros pt; cbn [walk_loop pt_leaf]; [done|].
  unfold read64. krun. fold (slot pt (PX (Z.of_nat (S lev)) va)).
  destruct (flag _ _); [apply IH|done].
Qed.

(** The entry mappages() installs. *)
Definition map_pte (pa perm : Z) : Z := Z.lor (Z.lor (PA2PTE pa) perm) PTE_V.

Lemma map_pte_spec pa perm :
  pa_page_ok pa -> 0 <= perm < 1024 ->
  PTE2PA (map_pte pa perm) = pa /\ PTE_FLAGS (map_pte pa perm) = Z.lor perm PTE_V /\
  0 <= map_pte pa perm < 2 ^ 64.
Proof.
  intros Hpa Hp. unfold map_pte. rewrite <- Z.lor_assoc.
  apply pte_roundtrip; [done|]. apply lor_perm_range; [done|]. change PTE_V with 1. lia.
Qed.

(** [n] pages from [va] are mapped to the pages from [pa]; every other
    address is translated as before. *)
Definition mapped_range (m m' : mem) (root va n pa perm : Z) : Prop :=
  forall a, 0 <= a < MAXVA ->
    pte_of m' root a =
    if decide (va <= a < va + n * PGSIZE)
    then map_pte (pa + (a / PGSIZE * PGSIZE - va)) perm
    else pte_of m root a.

Section vmspec.
Context (kend : Z) (Hkend : 0 < kend).

Record vmi (s : kmem) (l : list Z) (T : gmap Z (nat * Z)) : Prop := {
  vmi_kmem : kmem_inv kend s l;
  vmi_wf : pt_wf (kmem_mem s) T;
  vmi_free : forall p, p ∈ l -> T !! p = None
}.

Lemma vmi_table s l T p lab : vmi s l T -> T !! p = Some lab -> table_page p.
Proof. intros Hv. destruct lab. apply Hv. Qed.

Lemma vmi_not_free s l T p lab : vmi s l T -> T !! p = Some lab -> p ∉ l.
Proof. intros Hv Hp Hin. rewrite (vmi_free _ _ _ Hv p Hin) in Hp. done. Qed.

Lemma page_ok_table p : page_ok kend p -> table_page p.
Proof. intros [Ha Hb]. split; [done|lia]. Qed.

(** ** Growing the set of tables

    What walk() with [alloc] may do: take pages [used] from the free list
    and link them in as empty tables. *)
Record grows (s : kmem) (l : list Z) (T : gmap Z (nat * Z))
             (s' : kmem) (l' : list Z) (T' : gmap Z (nat * Z)) (used : list Z) : Prop := {
  gr_used : l = used ++ l';
  gr_vmi : vmi s' l' T';
  gr_sub : T ⊆ T';
  gr_dom : forall p, is_Some (T' !! p) -> is_Some (T !! p) \/ p ∈ used;
  gr_tab : forall p, p ∈ used -> is_Some (T' !! p);
  gr_pte : forall lr r pr va, T !! r = Some (lr, pr) ->
    pte_from (kmem_mem s') lr r va = pte_from (kmem_mem s) lr r va;
  gr_entry : forall p l0 pre i, T !! p = Some (S l0, pre) -> 0 <= i < 512 ->
    flag (load64 (kmem_mem s) (slot p i)) PTE_V = true ->
    load64 (kmem_mem s') (slot p i) = load64 (kmem_mem s) (slot p i);
  gr_off : same_off (fun p => is_Some (T !! p) \/ p ∈ used) (kmem_mem s) (kmem_mem s');
  gr_tree : keeps_tree (kmem_mem s) T (kmem_mem s') T'
}.

Lemma grows_refl s l T : vmi s l T -> grows s l T s l T [].
Proof. intros Hv. split; auto using same_off_refl; [by intros p ?%elem_of_nil|by split; auto]. Qed.

Lemma grows_trans s1 l1 T1 s2 l2 T2 u1 s3 l3 T3 u2 :
  grows s1 l1 T1 s2 l2 T2 u1 -> grows s2 l2 T2 s3 l3 T3 u2 ->
  grows s1 l1 T1 s3 l3 T3 (u1 ++ u2).
Proof.
  intros [Hu1 Hv1 Hs1 Hd1 Ht1 Hp1 He1 Ho1 Hk1] [Hu2 Hv2 Hs2 Hd2 Ht2 Hp2 He2 Ho2 Hk2]. split; auto.
  - subst. by rewrite app_assoc.
  - by etrans.
  - intros p Hp. destruct (Hd2 p Hp) as [H|H]; [|set_solver].
    destruct (Hd1 p H); set_solver.
  - intros p [Hp|Hp]%elem_of_app; [|by apply Ht2].
    destruct (Ht1 p Hp) as [lab Hlab]. exists lab. by eapply lookup_weaken.
  - intros lr r pr va Hr. rewrite (Hp2 lr r pr), (Hp1 lr r pr); auto.
    by eapply lookup_weaken.
  - intros p l0 pre i Hp Hi Hf. rewrite (He2 p l0 pre); [by eapply He1| |done|].
    + by eapply lookup_weaken.
    + by rewrite (He1 p l0 pre).
  - eapply same_off_mono; [|eapply same_off_trans; [exact Ho1|exact Ho2]].
    simpl. intros p [[|]|[H|]]; auto; [set_solver| |set_solver].
    destruct (Hd1 p H); set_solver.
  - by eapply keeps_tree_trans.
Qed.

(** A store inside a page that is not free leaves the free list alone. *)
Lemma kmem_inv_outside s l p m' :
  kmem_inv kend s l -> pg_aligned p -> p ∉ l -> same_outside p (kmem_mem s) m' ->
  kmem_inv kend (mkKmem (freelist s) m') l.
Proof.
  intros [Hf Hn Hp] Ha Hni Ho. split; auto. cbn [freelist kmem_mem].
  eapply flist_same_outside; eauto.
Qed.

Lemma load64_outside_slot q m m' p j :
  same_outside q m m' -> pg_aligned q -> pg_aligned p -> p <> q -> 0 <= j < 512 ->
  load64 m' (slot p j) = load64 m (slot p j).
Proof.
  intros Ho Hq Hp Hne Hj. apply load64_ext. intros i Hi. apply Ho.
  destruct (pages_disjoint p q Hp Hq Hne), (slot_in_page p j Hj); unfold PGSIZE in *; lia.
Qed.

Lemma load64_zeroed m q j :
  0 <= j < 512 -> load64 (memset m q 0 PGSIZE) (slot q j) = 0.
Proof.
  intros Hj. destruct (slot_in_page q j Hj). by apply load64_memset_zero.
Qed.

(** The state after walk() has allocated and linked the table [q]. *)
Definition linked (s : kmem) (q a : Z) : kmem :=
  mkKmem (load64 (kmem_mem s) q)
    (store64 (memset (memset (kmem_mem s) q 5 PGSIZE) q 0 PGSIZE) a
       (Z.lor (PA2PTE q) PTE_V)).

(** The new table is in the tree of its parent. *)
Lemma link_tree m m' T p lev pre i q :
  let T' := <[q := (lev, pre * 512 + i)]> T in
  pt_wf m T -> pt_wf m' T' -> entries_stay T m m' -> T !! p = Some (S lev, pre) -> T !! q = None -> 0 <= i < 512 -> table_page q ->
  load64 m' (slot p i) = Z.lor (PA2PTE q) PTE_V -> (lev = 1%nat -> pre * 512 + i < 256) -> keeps_tree m T m' T'.
Proof.
  intros T' Hwf Hwf' Hst Hp Hq Hi Hqt Hnew Hlow. destruct (table_pte q Hqt) as (Hfq & Hpa & _). split.
  - intros root Hr Hro r. unfold T'. rewrite lookup_insert. case_decide as Hd; intros Hrr.
    + subst r. rewrite <- Hpa, <- Hnew. eapply (reach_snoc m' T' 2 root 0 p lev pre); [done| | | |done|by rewrite Hnew].
      * unfold T'. rewrite lookup_insert_ne by congruence. done.
      * apply (reach_mono m m' T 2 root 0 p Hwf Hst Hr). apply Hro. by eexists.
      * unfold T'. rewrite lookup_insert_ne by congruence. done.
    + apply (reach_mono m m' T 2 root 0 r Hwf Hst Hr). by apply Hro.
  - intros HL r pr. unfold T'. rewrite lookup_insert. case_decide; [|apply HL]. intros [= Hl Hpr]. specialize (Hlow Hl). lia.
Qed.

Lemma link_grows s l T p lev pre i q :
  vmi s (q :: l) T -> T !! p = Some (S lev, pre) -> 0 <= i < 512 ->
  flag (load64 (kmem_mem s) (slot p i)) PTE_V = false -> (lev = 1%nat -> pre * 512 + i < 256) ->
  let T' := <[q := (lev, pre * 512 + i)]> T in
  grows s (q :: l) T (linked s q (slot p i)) l T' [q].
Proof.
  intros Hv Hp Hi Hinv Hlow T'. pose proof Hv as [Hk Hwf Hfree].
  assert (Hq : T !! q = None) by (apply Hfree; constructor).
  pose proof (inv_pages _ _ _ Hk) as HF. apply Forall_cons in HF as [Hqok _].
  pose proof (inv_nodup _ _ _ Hk) as Hnd. apply NoDup_cons in Hnd as [Hql _].
  pose proof (page_ok_table q Hqok) as Hqt.
  pose proof (vmi_table _ _ _ _ _ Hv Hp) as [Hpa _].
  pose proof (vmi_not_free _ _ _ _ _ Hv Hp) as Hpl. apply not_elem_of_cons in Hpl as [Hpq Hpl].
  unfold linked.
  set (m1 := memset (memset (kmem_mem s) q 5 PGSIZE) q 0 PGSIZE).
  set (v := Z.lor (PA2PTE q) PTE_V).
  assert (Ho1 : same_outside q (kmem_mem s) m1).
  { eapply same_outside_trans; apply memset_same_outside. }
  assert (Hk2 : kmem_inv kend (mkKmem (load64 (kmem_mem s) q) m1) l).
  { apply (kmem_inv_outside _ _ q m1 (kalloc_inv kend q l s Hk) (proj1 Hqt) Hql).
    apply memset_same_outside. }
  assert (Ho2 : same_outside p m1 (store64 m1 (slot p i) v)).
  { apply store64_same_outside. unfold PGSIZE. lia. }
  destruct (table_pte q Hqt) as (_ & _ & _ & Hvr).
  assert (Hold : forall p' j, is_Some (T !! p') -> 0 <= j < 512 -> (p', j) <> (p, i) ->
    load64 (store64 m1 (slot p i) v) (slot p' j) = load64 (kmem_mem s) (slot p' j)).
  { intros p' j [lab' Hp'] Hj Hne. pose proof (vmi_table _ _ _ _ _ Hv Hp') as [Hp'a _].
    rewrite load_store_disj.
    - apply (load64_outside_slot q); auto; [apply Hqt|congruence].
    - destruct (slot_inj p p' i j Hpa Hp'a Hi Hj) as [|[|[-> ->]]]; auto. done. }
  assert (Hzero : forall j, 0 <= j < 512 -> load64 (store64 m1 (slot p i) v) (slot q j) = 0).
  { intros j Hj. rewrite load_store_disj; [by apply load64_zeroed|].
    destruct (slot_inj p q i j Hpa (proj1 Hqt) Hi Hj) as [|[|[-> ->]]]; auto. done. }
  assert (Hnew : load64 (store64 m1 (slot p i) v) (slot p i) = v) by by apply load_store_same.
  unfold v in *. clear v. clearbody m1.
  assert (Hwf' : pt_wf (store64 m1 (slot p i) (Z.lor (PA2PTE q) PTE_V)) T') by (by apply (extend_wf (kmem_mem s) _ T p)).
  assert (Hstay : entries_stay T (kmem_mem s) (store64 m1 (slot p i) (Z.lor (PA2PTE q) PTE_V))).
  { intros p' l0 pre' j Hp' Hj Hf. apply Hold; eauto. intros [= -> ->]. congruence. }
  split; cbn [kmem_mem].
  - done.
  - split; cbn [kmem_mem].
    + by apply (kmem_inv_outside _ _ p _ Hk2).
    + done.
    + intros r Hr. unfold T'. rewrite lookup_insert_ne; [apply Hfree; by constructor|].
      by intros ->.
  - by apply insert_subseteq.
  - intros r. unfold T'. rewrite lookup_insert. case_decide as Hd; [|by left].
    right. rewrite Hd. constructor.
  - intros r ->%list_elem_of_singleton. unfold T'. rewrite lookup_insert_eq. eauto.
  - intros lr r pr va Hr. by apply (extend_pte (kmem_mem s) _ T p lev pre i q) with (pr := pr).
  - done.
  - intros a Ha. rewrite Ho2; [rewrite Ho1; [done|]|]; apply Ha; [right; constructor|left; eauto].
  - by apply (link_tree (kmem_mem s) _ T p lev pre i q).
Qed.

(** ** walk *)

(** walk() with [alloc]: it fails only when the free list is exhausted,
    otherwise it returns the leaf entry of [va]; no translation changes. *)
Lemma walk_loop_true lev pt va s l T e :
  LkKmem ∉ e_held e -> 0 <= va < MAXVA -> vmi s l T ->
  T !! pt = Some (lev, vprefix lev va) ->
  exists a s' l' T' used,
    walk_loop lev pt va true e s = Ok a e s' /\
    grows s l T s' l' T' used /\
    (a = 0 /\ l' = [] \/
     exists p, pt_leaf (kmem_mem s') lev pt va = Some p /\ a = slot p (PX 0 va)).
Proof.
  intros Hl [Hva HvM]. revert pt s l T. induction lev as [|lev IH]; intros pt s l T Hv Hpt;
    cbn [walk_loop].
  { exists (slot pt (PX 0 va)), s, l, T, []. split; [done|].
    split; [by apply grows_refl|]. right. by exists pt. }
  unfold read64. krun. fold (slot pt (PX (Z.of_nat (S lev)) va)).
  assert (HPX : 0 <= PX (Z.of_nat (S lev)) va < 512) by (apply PX_range; lia).
  destruct (flag _ _) eqn:Hf.
  - destruct (wf_child _ _ (vmi_wf _ _ _ Hv) _ _ _ _ Hpt HPX Hf) as [Hc _].
    rewrite <- vprefix_child in Hc by done.
    destruct (IH _ _ _ _ Hv Hc) as (a & s' & l' & T' & used & Hrun & Hg & Hres).
    exists a, s', l', T', used. split; [done|]. split; [done|].
    destruct Hres as [Hres|(p & Hp & ->)]; [by left|]. right. exists p. split; [|done].
    cbn [pt_leaf]. rewrite (gr_entry _ _ _ _ _ _ _ Hg _ _ _ _ Hpt HPX Hf), Hf. done.
  - cbn [negb]. destruct l as [|q l].
    { rewrite bind_eq, (kalloc_empty kend) by (try done; apply Hv). kred.
      exists 0, s, [], T, []. split; [done|]. split; [by apply grows_refl|]. by left. }
    rewrite bind_eq, (kalloc_eq kend q l) by (try done; apply Hv). kred.
    assert (Hlow : lev = 1%nat -> vprefix (S lev) va * 512 + PX (Z.of_nat (S lev)) va < 256).
    { intros ->. rewrite <- vprefix_child by done. unfold vprefix. change (2 ^ (12 + 9 * (Z.of_nat 1 + 1))) with 1073741824.
      change MAXVA with 274877906944 in HvM. zdm. }
    pose proof (link_grows _ _ _ _ _ _ _ _ Hv Hpt HPX Hf Hlow) as Hg.
    assert (Hq : q <> 0).
    { pose proof (inv_list _ _ _ (vmi_kmem _ _ _ Hv)) as HF. by inversion HF. }
    rewrite (proj2 (Z.eqb_neq _ _)) by done. unfold do_memset, write64. krun.
    unfold on_mem. cbn [freelist kmem_mem].
    fold (linked s q (slot pt (PX (Z.of_nat (S lev)) va))).
    set (s1 := linked s q (slot pt (PX (Z.of_nat (S lev)) va))) in *.
    set (T1 := <[q:=_]> T) in *.
    assert (HT1 : T1 !! q = Some (lev, vprefix lev va)).
    { unfold T1. by rewrite lookup_insert_eq, <- vprefix_child. }
    destruct (IH q s1 l T1 (gr_vmi _ _ _ _ _ _ _ Hg) HT1)
      as (a & s' & l' & T' & used & Hrun & Hg' & Hres).
    exists a, s', l', T', ([q] ++ used). split; [done|].
    split; [by eapply grows_trans|].
    destruct Hres as [Hres|(p & Hp & ->)]; [by left|]. right. exists p. split; [|done].
    assert (Hpt1 : T1 !! pt = Some (S lev, vprefix (S lev) va)).
    { eapply lookup_weaken; [exact Hpt|apply Hg]. }
    pose proof (inv_pages _ _ _ (vmi_kmem _ _ _ Hv)) as HF.
    apply Forall_cons in HF as [Hqok%page_ok_table _].
    destruct (table_pte q Hqok) as (Hfq & Hpa & _ & Hvr).
    assert (Hld : load64 (kmem_mem s1) (slot pt (PX (Z.of_nat (S lev)) va)) =
                  Z.lor (PA2PTE q) PTE_V).
    { unfold s1, linked. cbn [kmem_mem]. by apply load_store_same. }
    cbn [pt_leaf]. rewrite (gr_entry _ _ _ _ _ _ _ Hg' _ _ _ _ Hpt1 HPX); rewrite Hld; [|done].
    by rewrite Hfq, Hpa.
Qed.
Lemma walk_true root va s l T e :
  LkKmem ∉ e_held e -> 0 <= va < MAXVA -> vmi s l T -> T !! root = Some (2%nat, 0) ->
  exists a s' l' T' used,
    walk root va true e s = Ok a e s' /\
    grows s l T s' l' T' used /\
    (a = 0 /\ l' = [] \/
     exists p, pt_leaf (kmem_mem s') 2 root va = Some p /\ a = slot p (PX 0 va)).
Proof.
  intros Hl Hva Hv Hr. unfold walk. destruct (Z.leb_spec MAXVA va); [lia|].
  apply walk_loop_true; auto. by rewrite vprefix_root.
Qed.

Lemma walk_false root va e s :
  0 <= va < MAXVA ->
  walk root va false e s =
  Ok (match pt_leaf (kmem_mem s) 2 root va with
      | Some p => slot p (PX 0 va)
      | None => 0
      end) e s.
Proof.
  intros Hva. unfold walk. destruct (Z.leb_spec MAXVA va); [lia|]. apply walk_loop_false.
Qed.

(** ** Storing a leaf entry *)

Lemma root_leaf s l T root va p :
  vmi s l T -> T !! root = Some (2%nat, 0) -> 0 <= va < MAXVA ->
  pt_leaf (kmem_mem s) 2 root va = Some p -> T !! p = Some (0%nat, vprefix 0 va).
Proof.
  intros Hv Hr Hva Hp. eapply (pt_leaf_label (kmem_mem s) T 2 root); [apply Hv|lia| |done].
  by rewrite vprefix_root.
Qed.

Lemma set_leaf s l T root va p v :
  vmi s l T -> T !! root = Some (2%nat, 0) -> 0 <= va < MAXVA ->
  pt_leaf (kmem_mem s) 2 root va = Some p -> 0 <= v < 2 ^ 64 ->
  let s' := on_mem (fun m => store64 m (slot p (PX 0 va)) v) s in
  vmi s' l T /\
  (forall va', 0 <= va' < MAXVA ->
     pte_of (kmem_mem s') root va' =
     if decide (va' / PGSIZE = va / PGSIZE) then v else pte_of (kmem_mem s) root va') /\
  same_off (fun q => q = p) (kmem_mem s) (kmem_mem s').
Proof.
  intros Hv Hr Hva Hp Hvr s'. pose proof (root_leaf _ _ _ _ _ _ Hv Hr Hva Hp) as HTp.
  pose proof (vmi_table _ _ _ _ _ Hv HTp) as [Hpa _].
  pose proof (vmi_not_free _ _ _ _ _ Hv HTp) as Hpl.
  assert (HPX : 0 <= PX 0 va < 512) by (apply PX_range; lia).
  assert (Ho : same_outside p (kmem_mem s) (kmem_mem s')).
  { apply store64_same_outside. unfold PGSIZE. lia. }
  assert (Hnew : load64 (kmem_mem s') (slot p (PX 0 va)) = v) by by apply load_store_same.
  assert (Hold : forall p' j, is_Some (T !! p') -> 0 <= j < 512 -> (p', j) <> (p, PX 0 va) ->
    load64 (kmem_mem s') (slot p' j) = load64 (kmem_mem s) (slot p' j)).
  { intros p' j [lab Hp'] Hj Hne. pose proof (vmi_table _ _ _ _ _ Hv Hp') as [Hp'a _].
    apply load_store_disj.
    destruct (slot_inj p p' _ j Hpa Hp'a HPX Hj) as [|[|[? ?]]]; auto. congruence. }
  split; [|split].
  - split.
    + apply (kmem_inv_outside _ _ p _ (vmi_kmem _ _ _ Hv)); auto.
    + eapply leaf_store_wf; [apply Hv|exact HTp|exact Hold].
    + apply Hv.
  - intros va' Hva'. case_decide as Hd.
    + unfold pte_of, pte_from.
      rewrite (leaf_store_leaf (kmem_mem s) _ T p _ _ (vmi_wf _ _ _ Hv) HTp Hold 2 root 0) by done.
      destruct (same_page_leaf (kmem_mem s) 2 root va va') as [Hl HP0]; [lia..|].
      by rewrite Hl, Hp, HP0.
    + apply (leaf_store_pte (kmem_mem s) _ T p _ _ (vmi_wf _ _ _ Hv) HTp Hold); auto.
      by rewrite <- vpn_prefix by lia.
  - by apply same_outside_off.
Qed.
(** The entries of the inner tables are the same. *)
Definition same_tree (T : gmap Z (nat * Z)) (m m' : mem) : Prop :=
  forall p lev pre i, T !! p = Some (S lev, pre) -> 0 <= i < 512 -> load64 m' (slot p i) = load64 m (slot p i).

Lemma same_tree_trans T m1 m2 m3 : same_tree T m1 m2 -> same_tree T m2 m3 -> same_tree T m1 m3.
Proof. intros H1 H2 p lev pre i Hp Hi. by rewrite (H2 p lev pre), (H1 p lev pre). Qed.

Lemma same_tree_stay T m m' : same_tree T m m' -> entries_stay T m m'.
Proof. intros H p lev pre i Hp Hi _. by eapply H. Qed.

Lemma same_off_tree (P : Z -> Prop) m m' T :
  pt_wf m T -> same_off P m m' -> (forall p, P p -> pg_aligned p /\ forall lev pre, T !! p <> Some (S lev, pre)) ->
  same_tree T m m'.
Proof.
  intros Hwf Ho HP p lev pre j Hp Hj. destruct (wf_page _ _ Hwf _ _ _ Hp) as [Hpa _].
  apply load64_ext. intros i Hi. apply Ho. intros q Hq. destruct (HP q Hq) as [Hqa Hqn].
  assert (Hne : p <> q) by (intros ->; by apply (Hqn lev pre)).
  destruct (pages_disjoint p q Hpa Hqa Hne), (slot_in_page p j Hj); unfold PGSIZE in *; lia.
Qed.

(** ** mappages *)

(** The tables may grow and translations may change. *)
Record evolves (s : kmem) (l : list Z) (T : gmap Z (nat * Z))
             (s' : kmem) (l' : list Z) (T' : gmap Z (nat * Z)) (used : list Z) : Prop := {
  ev_used : l = used ++ l';
  ev_vmi : vmi s' l' T';
  ev_sub : T ⊆ T';
  ev_dom : forall p, is_Some (T' !! p) -> is_Some (T !! p) \/ p ∈ used;
  ev_off : same_off (fun p => is_Some (T !! p) \/ p ∈ used) (kmem_mem s) (kmem_mem s');
  ev_tree : keeps_tree (kmem_mem s) T (kmem_mem s') T'
}.

Lemma grows_evolves s l T s' l' T' used :
  grows s l T s' l' T' used -> evolves s l T s' l' T' used.
Proof. by intros []. Qed.

Lemma evolves_trans s1 l1 T1 s2 l2 T2 u1 s3 l3 T3 u2 :
  evolves s1 l1 T1 s2 l2 T2 u1 -> evolves s2 l2 T2 s3 l3 T3 u2 ->
  evolves s1 l1 T1 s3 l3 T3 (u1 ++ u2).
Proof.
  intros [Hu1 Hv1 Hs1 Hd1 Ho1 Hk1] [Hu2 Hv2 Hs2 Hd2 Ho2 Hk2]. split; auto.
  - subst. by rewrite app_assoc.
  - by etrans.
  - intros p Hp. destruct (Hd2 p Hp) as [H|H]; [|set_solver].
    destruct (Hd1 p H); set_solver.
  - eapply same_off_mono; [|eapply same_off_trans; [exact Ho1|exact Ho2]].
    simpl. intros p [[|]|[H|]]; auto; [set_solver| |set_solver].
    destruct (Hd1 p H); set_solver.
  - by eapply keeps_tree_trans.
Qed.

(** Storing the leaf entry of [va] is an evolution. *)
Lemma set_leaf_evolves s l T root va p v :
  vmi s l T -> T !! root = Some (2%nat, 0) -> 0 <= va < MAXVA ->
  pt_leaf (kmem_mem s) 2 root va = Some p -> 0 <= v < 2 ^ 64 ->
  evolves s l T (on_mem (fun m => store64 m (slot p (PX 0 va)) v) s) l T [].
Proof.
  intros Hv Hr Hva Hp Hvr.
  pose proof (root_leaf _ _ _ _ _ _ Hv Hr Hva Hp) as HTp.
  destruct (set_leaf s l T root va p v Hv Hr Hva Hp Hvr) as (Hv' & _ & Ho).
  split; auto.
  - eapply same_off_mono; [|exact Ho]. simpl. intros q ->. left. eauto.
  - apply stay_keeps_tree; [apply Hv|]. apply same_tree_stay. eapply same_off_tree; [apply Hv|exact Ho|].
    intros q ->. split; [by apply (vmi_table _ _ _ _ _ Hv HTp)|]. by rewrite HTp.
Qed.

Lemma mappages_loop_spec fuel root s l T e a pa perm :
  LkKmem ∉ e_held e -> 0 <= perm < 1024 -> (0 < fuel)%nat ->
  vmi s l T -> T !! root = Some (2%nat, 0) ->
  pg_aligned a -> 0 <= a -> a + Z.of_nat fuel * PGSIZE <= MAXVA ->
  pg_aligned pa -> 0 <= pa -> pa + Z.of_nat fuel * PGSIZE <= 2 ^ 56 ->
  (forall x, a <= x < a + Z.of_nat fuel * PGSIZE ->
     flag (pte_of (kmem_mem s) root x) PTE_V = false) ->
  exists r s' l' T' used k,
    mappages_loop fuel root a (a + (Z.of_nat fuel - 1) * PGSIZE) pa perm e s = Ok r e s' /\
    evolves s l T s' l' T' used /\
    (forall p, p ∈ used -> is_Some (T' !! p)) /\
    mapped_range (kmem_mem s) (kmem_mem s') root a k pa perm /\
    (r = 0 /\ k = Z.of_nat fuel \/ r = -1 /\ l' = [] /\ 0 <= k < Z.of_nat fuel).
Proof.
  intros Hl Hperm. revert s l T a pa. induction fuel as [|fuel IH]; intros s l T a pa;
    [lia|]. intros _ Hv Hr Ha Ha0 Hab Hpa Hpa0 Hpab Hun. cbn [mappages_loop].
  assert (HaM : 0 <= a < MAXVA) by (unfold PGSIZE in *; lia).
  destruct (walk_true root a s l T e Hl HaM Hv Hr)
    as (pte & s1 & l1 & T1 & u1 & Hrun & Hg & Hres).
  rewrite bind_eq, Hrun. kred.
  pose proof (grows_evolves _ _ _ _ _ _ _ Hg) as Hev.
  assert (Hsame : forall x, pte_of (kmem_mem s1) root x = pte_of (kmem_mem s) root x)
    by (intros x; by eapply gr_pte).
  destruct Hres as [[-> ->]|(p & Hp & ->)].
  { exists (-1), s1, [], T1, u1, 0. split; [done|]. split; [done|]. split; [apply Hg|]. split; [|right; repeat split; lia].
    intros x Hx. rewrite decide_False by lia. apply Hsame. }
  pose proof (gr_vmi _ _ _ _ _ _ _ Hg) as Hv1.
  assert (Hr1 : T1 !! root = Some (2%nat, 0)) by (eapply lookup_weaken; [exact Hr|apply Hg]).
  pose proof (root_leaf _ _ _ _ _ _ Hv1 Hr1 HaM Hp) as HTp.
  pose proof (vmi_table _ _ _ _ _ Hv1 HTp) as [_ Hp0].
  assert (HPX : 0 <= PX 0 a < 512) by (apply PX_range; lia).
  rewrite (proj2 (Z.eqb_neq _ _)) by (unfold slot; lia).
  unfold read64. krun.
  assert (Hinv : flag (load64 (kmem_mem s1) (slot p (PX 0 a))) PTE_V = false).
  { transitivity (flag (pte_of (kmem_mem s1) root a) PTE_V).
    - unfold pte_of, pte_from. by rewrite Hp.
    - rewrite Hsame. apply Hun. unfold PGSIZE. lia. }
  rewrite Hinv. unfold write64. krun. fold (map_pte pa perm).
  assert (Hpaok : pa_page_ok pa) by (split; [done|unfold PGSIZE in *; lia]).
  destruct (map_pte_spec pa perm Hpaok Hperm) as (_ & _ & Hvr).
  pose proof (set_leaf_evolves _ _ _ _ _ _ _ Hv1 Hr1 HaM Hp Hvr) as Hev2.
  destruct (set_leaf _ _ _ _ _ _ _ Hv1 Hr1 HaM Hp Hvr) as (Hv2 & Hpte2 & _).
  set (s2 := on_mem _ s1) in *.
  pose proof (evolves_trans _ _ _ _ _ _ _ _ _ _ _ Hev Hev2) as Hev12.
  assert (Hm1 : mapped_range (kmem_mem s) (kmem_mem s2) root a 1 pa perm).
  { intros x Hx. rewrite Hpte2 by done. unfold pg_aligned, PGSIZE in *.
    destruct (decide (x / 4096 = a / 4096)), (decide (a <= x < a + 1 * 4096));
      try (exfalso; zdm); auto. f_equal. zdm. }
  destruct (Z.eqb_spec a (a + (Z.of_nat (S fuel) - 1) * PGSIZE)) as [Heq|Hne].
  { exists 0, s2, l1, T1, (u1 ++ []), 1. split; [done|]. split; [done|].
    split; [rewrite app_nil_r; apply Hg|]. split; [done|].
    left. unfold PGSIZE in Heq. lia. }
  rewrite !u64_small by (unfold PGSIZE in *; change MAXVA with 274877906944 in *; lia).
  destruct (IH s2 l1 T1 (a + PGSIZE) (pa + PGSIZE)) as
    (r & s' & l' & T' & used & k & Hrun2 & Hev3 & Ht3 & Hm2 & Hk);
    try done; try (unfold pg_aligned, PGSIZE in *; first [lia | zdm]).
  { intros x Hx. rewrite (Hm1 x) by (unfold PGSIZE in *; lia).
    rewrite decide_False by (unfold PGSIZE in *; lia). apply Hun. unfold PGSIZE in *. lia. }
  exists r, s', l', T', ((u1 ++ []) ++ used), (k + 1). split; [|split; [|split; [|split]]].
  - rewrite <- Hrun2. f_equal. lia.
  - by eapply evolves_trans.
  - rewrite app_nil_r. intros q [Hq|Hq]%elem_of_app; [|by apply Ht3].
    destruct (gr_tab _ _ _ _ _ _ _ Hg q Hq) as [lab Hlab].
    exists lab. eapply lookup_weaken; [exact Hlab|apply Hev3].
  - intros x Hx. rewrite (Hm2 x Hx), (Hm1 x Hx). unfold PGSIZE in *.
    repeat case_decide; try lia; try done. f_equal. lia.
  - destruct Hk as [[-> ->]|(-> & -> & Hk)]; [left; lia|right; repeat split; lia].
Qed.
Lemma mappages_one root s l T e a pa perm :
  LkKmem ∉ e_held e -> 0 <= perm < 1024 -> vmi s l T -> T !! root = Some (2%nat, 0) ->
  pg_aligned a -> 0 <= a -> a + PGSIZE <= MAXVA -> pa_page_ok pa -> pa + PGSIZE <= 2 ^ 56 ->
  pte_of (kmem_mem s) root a = 0 ->
  exists r s' l' T' used,
    mappages root a PGSIZE pa perm e s = Ok r e s' /\ evolves s l T s' l' T' used /\
    (forall p, p ∈ used -> is_Some (T' !! p)) /\
    (r = 0 /\ mapped_range (kmem_mem s) (kmem_mem s') root a 1 pa perm \/
     r = -1 /\ l' = [] /\
     forall x, 0 <= x < MAXVA -> pte_of (kmem_mem s') root x = pte_of (kmem_mem s) root x).
Proof.
  intros Hl Hp Hv Hr Ha Ha0 Hab [Hpa Hpa0] Hpb Hz. unfold mappages.
  unfold pg_aligned in Ha. rewrite Ha. cbn [negb Z.eqb].
  change (negb (PGSIZE mod PGSIZE =? 0)) with false. change (PGSIZE =? 0) with false.
  change (Z.to_nat (PGSIZE / PGSIZE)) with 1%nat. cbn iota.
  rewrite u64_small by (change MAXVA with 274877906944 in *; unfold PGSIZE in *; lia).
  destruct (mappages_loop_spec 1 root s l T e a pa perm) as
    (r & s' & l' & T' & used & k & Hrun & Hev & Ht & Hm & Hk); auto; try lia.
  { intros x Hx. rewrite (same_page_pte _ _ a); [by rewrite Hz|lia|lia|].
    unfold PGSIZE in *. zdm. }
  replace (a + (Z.of_nat 1 - 1) * PGSIZE) with (a + PGSIZE - PGSIZE) in Hrun by lia.
  exists r, s', l', T', used. split; [done|]. split; [done|]. split; [done|].
  destruct Hk as [[-> ->]|(-> & -> & Hk)]; [left; by split|right].
  split; [done|]. split; [done|]. intros x Hx. rewrite (Hm x Hx).
  by rewrite decide_False by (unfold PGSIZE; lia).
Qed.

(** ** uvmunmap *)

(** The physical pages of [n] consecutive virtual pages from [a]. *)
Fixpoint pages_of (m : mem) (root a : Z) (n : nat) : list Z :=
  match n with
  | O => []
  | S n => PTE2PA (pte_of m root a) :: pages_of m root (a + PGSIZE) n
  end.

(** [n] pages from [a] carry leaf mappings. *)
Definition leaves (m : mem) (root a n : Z) : Prop :=
  forall x, a <= x < a + n * PGSIZE ->
    flag (pte_of m root x) PTE_V = true /\ PTE_FLAGS (pte_of m root x) <> PTE_V.

(** Pages that may be given back: allocatable, distinct, neither free nor
    page tables. *)
Definition freeable (l : list Z) (T : gmap Z (nat * Z)) (ps : list Z) : Prop :=
  NoDup ps /\ Forall (page_ok kend) ps /\
  Forall (fun q => (q ∉ l) /\ T !! q = None) ps.

Lemma pages_of_ext m m' root a n :
  (forall x, a <= x < a + Z.of_nat n * PGSIZE -> pte_of m' root x = pte_of m root x) ->
  pages_of m' root a n = pages_of m root a n.
Proof.
  revert a. induction n as [|n IH]; intros a H; cbn [pages_of]; [done|].
  rewrite H by (unfold PGSIZE; lia). f_equal. apply IH. intros x Hx.
  apply H. unfold PGSIZE in *. lia.
Qed.

(** The tables are untouched by a change of a page that is not a table. *)
Lemma pt_frame m m' T P :
  pt_wf m T -> same_off P m m' -> (forall p, P p -> pg_aligned p /\ T !! p = None) ->
  pt_wf m' T /\
  (forall lev r pr va, T !! r = Some (lev, pr) ->
     pt_leaf m' lev r va = pt_leaf m lev r va /\
     pte_from m' lev r va = pte_from m lev r va).
Proof.
  intros Hwf Ho HP.
  assert (Hld : forall p j, is_Some (T !! p) -> 0 <= j < 512 ->
            load64 m' (slot p j) = load64 m (slot p j)).
  { intros p j [[lv pr] Hp] Hj. destruct (wf_page _ _ Hwf _ _ _ Hp) as [Hpa _].
    apply load64_ext. intros i Hi. apply Ho. intros q Hq.
    destruct (HP q Hq) as [Hqa Hqn]. assert (Hne : p <> q) by congruence.
    destruct (pages_disjoint p q Hpa Hqa Hne), (slot_in_page p j Hj);
      unfold PGSIZE in *; lia. }
  split.
  - split; [apply Hwf|]. intros p lv pr i Hp Hi. rewrite Hld by eauto. by eapply wf_child.
  - intros lev r pr va. unfold pte_from. revert r pr.
    induction lev as [|lev IH]; intros r pr Hr; cbn [pt_leaf].
    + split; [done|]. apply Hld; [eauto|apply PX_range; lia].
    + assert (HPX : 0 <= PX (Z.of_nat (S lev)) va < 512) by (apply PX_range; lia).
      rewrite Hld by eauto.
      destruct (flag (load64 m (slot r (PX (Z.of_nat (S lev)) va))) PTE_V) eqn:Hf; [|done].
      destruct (wf_child _ _ Hwf _ _ _ _ Hr HPX Hf) as [Hc _]. by apply (IH _ _ Hc).
Qed.

Lemma free_page_vmi s l T q :
  vmi s l T -> page_ok kend q -> q ∉ l -> T !! q = None ->
  let s' := mkKmem q (freed_mem (kmem_mem s) q (freelist s)) in
  vmi s' (q :: l) T /\
  (forall lev r pr va, T !! r = Some (lev, pr) ->
     pt_leaf (kmem_mem s') lev r va = pt_leaf (kmem_mem s) lev r va /\
     pte_from (kmem_mem s') lev r va = pte_from (kmem_mem s) lev r va).
Proof.
  intros Hv Hq Hl HT s'.
  destruct (pt_frame (kmem_mem s) (kmem_mem s') T (fun p => p = q)) as [Hwf Hpte].
  - apply Hv.
  - apply same_outside_off, freed_same_outside.
  - intros p ->. split; [apply Hq|done].
  - split; [|done]. split; [apply kfree_inv; auto; apply Hv|done|].
    intros p. rewrite elem_of_cons. intros [->|Hp]; [done|by apply Hv].
Qed.

(** The pages that uvmunmap() gives back. *)
Definition released (do_free : bool) (ps : list Z) : list Z := if do_free then ps else [].

(** The step of the loop at one page. *)
Lemma uvmunmap_step do_free fuel root s l T e a stop :
  let q := PTE2PA (pte_of (kmem_mem s) root a) in
  LkKmem ∉ e_held e -> vmi s l T -> T !! root = Some (2%nat, 0) -> 0 <= a < MAXVA -> a < stop ->
  flag (pte_of (kmem_mem s) root a) PTE_V = true -> PTE_FLAGS (pte_of (kmem_mem s) root a) <> PTE_V ->
  freeable l T (released do_free [q]) ->
  exists s2,
    uvmunmap_loop kend (S fuel) root a stop do_free e s = uvmunmap_loop kend fuel root (a + PGSIZE) stop do_free e s2 /\
    vmi s2 (released do_free [q] ++ l) T /\
    (forall x, 0 <= x < MAXVA -> pte_of (kmem_mem s2) root x =
       if decide (x / PGSIZE = a / PGSIZE) then 0 else pte_of (kmem_mem s) root x) /\
    same_off (fun p => is_Some (T !! p) \/ p ∈ released do_free [q]) (kmem_mem s) (kmem_mem s2) /\
    same_tree T (kmem_mem s) (kmem_mem s2).
Proof.
  intros q Hl Hv Hr HaM Hst HV HnV Hfr. cbn [uvmunmap_loop]. rewrite (proj2 (Z.ltb_lt a stop)) by done.
  rewrite bind_eq, walk_false by done. kred.
  destruct (pt_leaf (kmem_mem s) 2 root a) as [p|] eqn:Hp.
  2: { unfold pte_of, pte_from in HV. by rewrite Hp in HV. }
  assert (Hpte : pte_of (kmem_mem s) root a = load64 (kmem_mem s) (slot p (PX 0 a))).
  { unfold pte_of, pte_from. by rewrite Hp. }
  pose proof (root_leaf _ _ _ _ _ _ Hv Hr HaM Hp) as HTp.
  pose proof (vmi_table _ _ _ _ _ Hv HTp) as [Hpa Hp0].
  assert (HPX : 0 <= PX 0 a < 512) by (apply PX_range; lia).
  rewrite (proj2 (Z.eqb_neq _ _)) by (unfold slot; lia).
  unfold read64. krun. rewrite <- Hpte, HV. cbn [negb].
  rewrite (proj2 (Z.eqb_neq _ _)) by done. fold q.
  assert (H1 : exists s1, (when do_free do kfree kend q) e s = Ok tt e s1 /\ vmi s1 (released do_free [q] ++ l) T /\
            (forall lev r pr va, T !! r = Some (lev, pr) ->
               pt_leaf (kmem_mem s1) lev r va = pt_leaf (kmem_mem s) lev r va /\
               pte_from (kmem_mem s1) lev r va = pte_from (kmem_mem s) lev r va) /\
            same_off (fun p => p ∈ released do_free [q]) (kmem_mem s) (kmem_mem s1)).
  { destruct do_free; [|exists s; split; [done|]; split; [done|]; split; [done|apply same_off_refl]].
    destruct Hfr as (_ & Hok & Hf). apply Forall_cons in Hok as [Hok _]. apply Forall_cons in Hf as [[Hql HqT] _].
    destruct (free_page_vmi s l T q Hv Hok Hql HqT) as [Hv1 Hpte1].
    exists (mkKmem q (freed_mem (kmem_mem s) q (freelist s))). split; [by apply kfree_eq|]. split; [done|]. split; [done|].
    apply (same_off_mono (fun p => p = q)); [intros ? ->; by apply list_elem_of_singleton|].
    apply same_outside_off, freed_same_outside. }
  destruct H1 as (s1 & E1 & Hv1 & Hpte1 & Ho1). rewrite bind_eq, E1. kred.
  assert (Hleaf1 : pt_leaf (kmem_mem s1) 2 root a = Some p) by (rewrite <- Hp; by eapply Hpte1).
  unfold write64. krun.
  destruct (set_leaf s1 (released do_free [q] ++ l) T root a p 0 Hv1 Hr HaM Hleaf1 ltac:(lia)) as (Hv2 & Hpte2 & Ho2).
  rewrite u64_small by (change MAXVA with 274877906944 in *; unfold PGSIZE in *; lia).
  eexists. split; [reflexivity|]. split; [done|]. split; [|split].
  - intros x Hx. rewrite Hpte2 by done. case_decide; [done|]. by eapply (Hpte1 2%nat).
  - eapply same_off_mono; [|eapply same_off_trans; [exact Ho1|exact Ho2]]. cbn beta. intros y [Hy|Hy]; [by right|].
    left. rewrite Hy. by eexists.
  - apply (same_tree_trans _ _ (kmem_mem s1)).
    + eapply same_off_tree; [apply Hv|exact Ho1|]. intros y Hy. cbn beta in Hy. destruct Hfr as (_ & Hok & Hf).
      rewrite Forall_forall in Hok, Hf. split; [by apply Hok|]. destruct (Hf y Hy) as [_ ->]. done.
    + eapply same_off_tree; [apply Hv1|exact Ho2|]. intros y ->. split; [done|]. by rewrite HTp.
Qed.

(** Unmapping: only the range changes its translation, and with [do_free] the
    pages go back to the allocator, last one first. *)
Lemma uvmunmap_loop_spec do_free n root s l T e a :
  LkKmem ∉ e_held e -> vmi s l T -> T !! root = Some (2%nat, 0) ->
  pg_aligned a -> 0 <= a -> a + Z.of_nat n * PGSIZE <= MAXVA ->
  leaves (kmem_mem s) root a (Z.of_nat n) ->
  freeable l T (released do_free (pages_of (kmem_mem s) root a n)) ->
  exists s',
    uvmunmap_loop kend n root a (a + Z.of_nat n * PGSIZE) do_free e s = Ok tt e s' /\
    vmi s' (rev (released do_free (pages_of (kmem_mem s) root a n)) ++ l) T /\
    (forall x, 0 <= x < MAXVA ->
       pte_of (kmem_mem s') root x =
       if decide (a <= x < a + Z.of_nat n * PGSIZE) then 0 else pte_of (kmem_mem s) root x) /\
    same_off (fun p => is_Some (T !! p) \/ p ∈ released do_free (pages_of (kmem_mem s) root a n))
      (kmem_mem s) (kmem_mem s') /\
    same_tree T (kmem_mem s) (kmem_mem s').
Proof.
  intros Hl. revert s l a. induction n as [|n IH]; intros s l a Hv Hr Ha Ha0 Hab Hlv Hfr.
  { cbn [uvmunmap_loop]. destruct (Z.ltb_spec a (a + Z.of_nat 0 * PGSIZE)); [lia|].
    exists s. split; [done|]. split; [by destruct do_free|]. split; [|split; [apply same_off_refl|done]].
    intros x Hx. by rewrite decide_False by lia. }
  assert (HaM : 0 <= a < MAXVA) by (unfold PGSIZE in *; lia).
  destruct (Hlv a ltac:(unfold PGSIZE; lia)) as [HV HnV].
  set (ps := pages_of (kmem_mem s) root (a + PGSIZE) n).
  change (pages_of (kmem_mem s) root a (S n)) with (PTE2PA (pte_of (kmem_mem s) root a) :: ps) in *.
  set (q := PTE2PA (pte_of (kmem_mem s) root a)) in *.
  assert (Hsplit : released do_free (q :: ps) = released do_free [q] ++ released do_free ps) by by destruct do_free.
  rewrite Hsplit in *. destruct Hfr as (Hnd & Hok & Hfr). apply NoDup_app in Hnd as (Hnd1 & Hnd2 & Hnd3).
  apply Forall_app in Hok as [Hok1 Hok2]. apply Forall_app in Hfr as [Hfr1 Hfr2].
  destruct (uvmunmap_step do_free n root s l T e a (a + Z.of_nat (S n) * PGSIZE)) as (s2 & Hstep & Hv2 & Hpte2 & Ho2 & Ht2);
    try done; [unfold PGSIZE; lia|]. fold q in Hv2, Ho2.
  assert (Hpo : pages_of (kmem_mem s2) root (a + PGSIZE) n = ps).
  { apply pages_of_ext. intros x Hx.
    rewrite Hpte2, decide_False; unfold pg_aligned, PGSIZE in *; [done|zdm|lia]. }
  destruct (IH s2 (released do_free [q] ++ l) (a + PGSIZE)) as (s' & Hrun & Hv' & Hpte' & Ho' & Ht'); auto.
  { unfold pg_aligned, PGSIZE in *. zdm. }
  { unfold PGSIZE. lia. }
  { unfold PGSIZE in *. lia. }
  { intros x Hx. rewrite Hpte2 by (unfold PGSIZE in *; lia).
    rewrite decide_False by (unfold pg_aligned, PGSIZE in *; zdm).
    apply Hlv. unfold PGSIZE in *. lia. }
  { rewrite Hpo. split; [done|]. split; [done|]. apply Forall_forall. intros y Hy. rewrite Forall_forall in Hfr2.
    destruct (Hfr2 y Hy) as [Hy1 Hy2]. split; [|done]. intros [Hq|]%elem_of_app; [by apply (Hnd2 y)|done]. }
  rewrite Hpo in Hv', Ho'. exists s'. split; [|split; [|split; [|split; [|by eapply same_tree_trans]]]].
  - rewrite Hstep, <- Hrun. f_equal. lia.
  - rewrite rev_app_distr, <- app_assoc. by destruct do_free.
  - intros x Hx. rewrite Hpte' by done. unfold pg_aligned, PGSIZE in *.
    repeat case_decide; try lia; try done; rewrite Hpte2 by done.
    + rewrite decide_True; [done|]. unfold PGSIZE. zdm.
    + rewrite decide_False; [done|]. unfold PGSIZE. zdm.
  - eapply same_off_mono; [|eapply same_off_trans; [exact Ho2|exact Ho']]. cbn beta.
    intros y. rewrite elem_of_app. tauto.
Qed.
End vmspec.
