(* ===== verification/UvmSpec.v ===== *)
(** * Adding pages to an address space: uvmalloc() and what uvmcopy() shares

    [filled] describes the address space after some pages have been added:
    the new pages are distinct, taken from the allocator, hold given bytes
    and are mapped with given permissions; every other translation is as
    before.  [grown] is the case of zero-filled pages. *)

From S2P Require Import Prelude KMonad CString Riscv Kalloc Vm PageTable VmSpec.

Open Scope kmonad_scope.

(** The page [p] holds the bytes [c 0], [c 1], ... *)
Definition page_holds (m : mem) (p : Z) (c : Z -> Z) : Prop :=
  forall o, 0 <= o < PGSIZE -> mget m (p + o) = c o.

Definition pages_hold (m : mem) (ps : list Z) (cont : nat -> Z -> Z) : Prop :=
  forall i p, ps !! i = Some p -> page_holds m p (cont i).

Section uvmspec.
Context (kend : Z) (Hkend : 0 < kend).

(** [ps] are mapped at [a0], [a0 + PGSIZE], ..., the [i]-th with permissions
    [perm i]; elsewhere the translation is that of the memory [m0]. *)
Record spans (m0 : mem) (root a0 : Z) (perm : nat -> Z)
    (s : kmem) (l : list Z) (T : gmap Z (nat * Z)) (ps : list Z) : Prop := {
  sp_vmi : vmi kend s l T;
  sp_root : T !! root = Some (2%nat, 0);
  sp_pte : forall x, 0 <= x < MAXVA ->
    pte_of (kmem_mem s) root x =
    if decide (a0 <= x < a0 + Z.of_nat (length ps) * PGSIZE)
    then map_pte (ps !!! Z.to_nat ((x - a0) / PGSIZE)) (perm (Z.to_nat ((x - a0) / PGSIZE)))
    else pte_of m0 root x;
  sp_pages : freeable kend l T ps
}.

(** The pages [ps] have been added, the [i]-th with contents [cont i]; what
    else was taken from the allocator are page tables. *)
Record filled (s0 : kmem) (l0 : list Z) (T0 : gmap Z (nat * Z)) (root a0 : Z)
    (perm : nat -> Z) (cont : nat -> Z -> Z)
    (s : kmem) (l : list Z) (T : gmap Z (nat * Z)) (ps : list Z) : Prop := {
  gn_spans : spans (kmem_mem s0) root a0 perm s l T ps;
  gn_ev : exists used, evolves kend s0 l0 T0 s l T used /\
            (forall p, p ∈ used -> p ∈ ps \/ is_Some (T !! p)) /\ (forall p, p ∈ ps -> p ∈ used);
  gn_data : pages_hold (kmem_mem s) ps cont
}.

(** Zero-filled pages with the same permissions. *)
Definition grown (s0 : kmem) (l0 : list Z) (T0 : gmap Z (nat * Z)) (root a0 perm : Z) :=
  filled s0 l0 T0 root a0 (fun _ => perm) (fun _ _ => 0).

Lemma freeable_page_ok l T ps p : freeable kend l T ps -> p ∈ ps -> page_ok kend p.
Proof. intros (_ & H & _) Hp. rewrite Forall_forall in H. by apply H. Qed.

Lemma page_ok_pa p : page_ok kend p -> pa_page_ok p.
Proof. intros [Ha Hb]. split; [done|]. unfold PHYSTOP, KERNBASE in Hb. lia. Qed.

(** A mapping with a permission is a leaf. *)
Lemma map_pte_leaf pa perm :
  pa_page_ok pa -> 0 <= perm < 1024 -> Z.lor perm PTE_V <> PTE_V ->
  flag (map_pte pa perm) PTE_V = true /\ PTE_FLAGS (map_pte pa perm) <> PTE_V.
Proof.
  intros Hpa Hp HR. destruct (map_pte_spec pa perm Hpa Hp) as (_ & Hfl & _).
  split.
  - rewrite flag_of_flags, Hfl by done. unfold flag.
    rewrite Z.land_lor_distr_l. change (Z.land PTE_V PTE_V) with 1.
    destruct (Z.eqb_spec (Z.lor (Z.land perm PTE_V) 1) 0) as [E|]; [|done].
    apply Z.lor_eq_0_iff in E as [_ E]. done.
  - by rewrite Hfl.
Qed.

Lemma readable_leaf perm : flag perm PTE_R = true -> Z.lor perm PTE_V <> PTE_V.
Proof.
  unfold flag. intros HR E.
  assert (E2 : Z.land (Z.lor perm PTE_V) PTE_R = Z.land PTE_V PTE_R) by by rewrite E.
  rewrite Z.land_lor_distr_l in E2. change (Z.land PTE_V PTE_R) with 0 in E2.
  rewrite Z.lor_0_r in E2. rewrite E2 in HR. done.
Qed.

Lemma pages_of_lookup m root a n (i : nat) :
  (i < n)%nat -> pages_of m root a n !! i = Some (PTE2PA (pte_of m root (a + Z.of_nat i * PGSIZE))).
Proof.
  revert a i. induction n as [|n IH]; intros a [|i] Hi; cbn [pages_of]; try lia.
  - change (Z.of_nat 0 * PGSIZE) with 0. by rewrite Z.add_0_r.
  - cbn [lookup list_lookup]. rewrite IH by lia. do 3 f_equal. unfold PGSIZE. lia.
Qed.

Lemma length_pages_of m root a n : length (pages_of m root a n) = n.
Proof. revert a. induction n; intros; simpl; auto. Qed.

Lemma freeable_evolves l T ps s s' l' T' used :
  evolves kend s l T s' l' T' used -> freeable kend l T ps -> freeable kend l' T' ps.
Proof.
  intros [Hu _ _ Hd _] (Hnd & Hok & Hfr). split; [done|]. split; [done|].
  apply Forall_forall. intros q Hq. rewrite Forall_forall in Hfr.
  destruct (Hfr q Hq) as [Hl HT]. rewrite Hu in Hl. split; [set_solver|].
  destruct (T' !! q) as [lab|] eqn:E; [|done]. exfalso.
  destruct (Hd q ltac:(eauto)) as [[? ?]|]; [congruence|set_solver].
Qed.

Lemma holds_same_off (P : Z -> Prop) m m' p c :
  same_off P m m' -> pg_aligned p -> (forall q, P q -> pg_aligned q /\ q <> p) ->
  page_holds m p c -> page_holds m' p c.
Proof.
  intros Ho Hp HP Hz a Ha. rewrite Ho; [by apply Hz|]. intros q Hq Hqa.
  destruct (HP q Hq) as [Hqal Hne].
  destruct (pages_disjoint p q Hp Hqal ltac:(congruence)); unfold PGSIZE in *; lia.
Qed.

(** Pages that are neither tables nor free keep their contents. *)
Lemma page_evolves l T p s s' l' T' used c :
  vmi kend s l T -> evolves kend s l T s' l' T' used -> pg_aligned p -> p ∉ l -> T !! p = None ->
  page_holds (kmem_mem s) p c -> page_holds (kmem_mem s') p c.
Proof.
  intros Hv [Hu _ _ _ Ho] Hp Hpl HpT Hc. eapply holds_same_off; [exact Ho|done| |done]. intros q [[lab Hq]|Hq].
  - split; [by eapply vmi_table|congruence].
  - assert (q ∈ l) by (rewrite Hu; set_solver). split; [|congruence].
    pose proof (inv_pages _ _ _ (vmi_kmem _ _ _ _ Hv)) as HF.
    rewrite Forall_forall in HF. by apply HF.
Qed.

Lemma pages_evolve l T ps s s' l' T' used cont :
  vmi kend s l T -> evolves kend s l T s' l' T' used -> freeable kend l T ps ->
  pages_hold (kmem_mem s) ps cont -> pages_hold (kmem_mem s') ps cont.
Proof.
  intros Hv Hev (_ & Hok & Hfr) Hc i p Hi. rewrite Forall_forall in Hok, Hfr.
  pose proof (list_elem_of_lookup_2 _ _ _ Hi) as Hp. destruct (Hfr p Hp) as [Hpl HpT].
  eapply page_evolves; eauto. by apply Hok.
Qed.

(** ** A fresh page *)

(** kalloc() has returned [p], and the memory is [m1] after it was filled. *)
Definition alloc_state (s : kmem) (p : Z) (m1 : mem) : kmem := mkKmem (load64 (kmem_mem s) p) m1.

Lemma alloc_evolves s p m1 l T :
  vmi kend s (p :: l) T -> same_outside p (memset (kmem_mem s) p 5 PGSIZE) m1 ->
  evolves kend s (p :: l) T (alloc_state s p m1) l T [p] /\
  (forall lev r pr va, T !! r = Some (lev, pr) -> pte_from m1 lev r va = pte_from (kmem_mem s) lev r va).
Proof.
  intros Hv Hm. unfold alloc_state.
  assert (Ho : same_outside p (kmem_mem s) m1)
    by (eapply same_outside_trans; [apply memset_same_outside|done]).
  pose proof Hv as [Hk Hwf Hfree].
  pose proof (inv_pages _ _ _ Hk) as HF. apply Forall_cons in HF as [Hpok _].
  pose proof (inv_nodup _ _ _ Hk) as Hnd. apply NoDup_cons in Hnd as [Hpl _].
  assert (HpT : T !! p = None) by (apply Hfree; constructor).
  assert (Hk1 : kmem_inv kend (mkKmem (load64 (kmem_mem s) p) m1) l).
  { apply (kmem_inv_outside kend _ _ p m1 (kalloc_inv kend p l s Hk) (proj1 Hpok) Hpl Hm). }
  destruct (pt_frame (kmem_mem s) m1 T (fun q => q = p) Hwf) as [Hwf1 Hpte1].
  { by apply same_outside_off. }
  { intros q ->. split; [apply Hpok|done]. }
  split.
  - split; auto.
    + split; auto. intros q Hq. apply Hfree. by constructor.
    + intros a Ha. apply Ho. apply Ha. right. constructor.
    + apply stay_keeps_tree; [done|]. apply same_tree_stay.
      eapply same_off_tree; [done|by apply same_outside_off|]. intros q ->. split; [apply Hpok|]. by rewrite HpT.
  - intros lev r pr va Hr. by eapply Hpte1.
Qed.

Section with_filled.
Context (s0 : kmem) (l0 : list Z) (T0 : gmap Z (nat * Z)) (root a0 : Z) (perm : nat -> Z) (cont : nat -> Z -> Z).
Hypothesis Hroot : T0 !! root = Some (2%nat, 0).
Hypothesis Ha0 : pg_aligned a0.
Hypothesis Ha00 : 0 <= a0.
Variable lim : Z.
Hypothesis Hlim : pg_aligned lim /\ lim <= MAXVA.
Hypothesis Hperm : forall i, a0 + Z.of_nat i * PGSIZE < lim -> 0 <= perm i < 1024.
Hypothesis HpermR : forall i, a0 + Z.of_nat i * PGSIZE < lim -> Z.lor (perm i) PTE_V <> PTE_V.

Lemma spans_pages_of s l T ps :
  spans (kmem_mem s0) root a0 perm s l T ps ->
  a0 + Z.of_nat (length ps) * PGSIZE <= lim ->
  pages_of (kmem_mem s) root a0 (length ps) = ps.
Proof.
  intros Hg Hb. apply list_eq. intros i.
  destruct (decide (i < length ps)%nat) as [Hi|Hi].
  - rewrite pages_of_lookup by done.
    rewrite (sp_pte _ _ _ _ _ _ _ _ Hg) by (unfold PGSIZE in *; lia).
    rewrite decide_True by (unfold PGSIZE; lia).
    replace (Z.to_nat ((a0 + Z.of_nat i * PGSIZE - a0) / PGSIZE)) with i
      by (unfold PGSIZE; zdm).
    destruct (lookup_lt_is_Some_2 ps i Hi) as [p Hp].
    rewrite (list_lookup_total_correct _ _ _ Hp), Hp. f_equal.
    apply map_pte_spec; [|apply Hperm; unfold PGSIZE in *; lia]. apply page_ok_pa.
    eapply freeable_page_ok; [apply Hg|]. by eapply list_elem_of_lookup_2.
  - rewrite !lookup_ge_None_2; [done|lia|rewrite length_pages_of; lia].
Qed.

Lemma spans_leaves s l T ps :
  spans (kmem_mem s0) root a0 perm s l T ps ->
  a0 + Z.of_nat (length ps) * PGSIZE <= lim ->
  leaves (kmem_mem s) root a0 (Z.of_nat (length ps)).
Proof.
  intros Hg Hb x Hx. rewrite (sp_pte _ _ _ _ _ _ _ _ Hg) by lia.
  rewrite decide_True by done.
  assert (Hi : a0 + Z.of_nat (Z.to_nat ((x - a0) / PGSIZE)) * PGSIZE < lim) by (unfold PGSIZE in *; zdm).
  apply map_pte_leaf; auto. apply page_ok_pa. eapply freeable_page_ok; [apply Hg|].
  apply list_elem_of_lookup_total. exists (Z.to_nat ((x - a0) / PGSIZE)).
  split; [|done]. unfold PGSIZE in *. zdm.
Qed.

(** Nothing is mapped between the end of the range and [lim]. *)
Hypothesis Hempty : forall x, a0 <= x < lim -> pte_of (kmem_mem s0) root x = 0.

(** uvmunmap() undoes it: the translations are those of the start and the
    pages are back in the allocator. *)
Lemma spans_unmap s l T ps e :
  LkKmem ∉ e_held e -> spans (kmem_mem s0) root a0 perm s l T ps ->
  a0 + Z.of_nat (length ps) * PGSIZE <= lim ->
  exists s',
    uvmunmap kend root a0 (Z.of_nat (length ps)) true e s = Ok tt e s' /\
    vmi kend s' (rev ps ++ l) T /\
    (forall x, 0 <= x < MAXVA -> pte_of (kmem_mem s') root x = pte_of (kmem_mem s0) root x) /\
    same_off (fun p => is_Some (T !! p) \/ p ∈ ps) (kmem_mem s) (kmem_mem s') /\ same_tree T (kmem_mem s) (kmem_mem s').
Proof.
  intros Hl Hg Hb0. assert (Hb : a0 + Z.of_nat (length ps) * PGSIZE <= MAXVA) by lia.
  assert (HM : MAXVA = 274877906944) by reflexivity.
  unfold uvmunmap. pose proof Ha0 as Ha0'. unfold pg_aligned in Ha0'.
  rewrite Ha0'. cbn [negb Z.eqb]. rewrite Nat2Z.id.
  rewrite u64_small by (unfold PGSIZE in *; lia).
  pose proof (spans_pages_of s l T ps Hg Hb0) as Hpo.
  destruct (uvmunmap_loop_spec kend Hkend true (length ps) root s l T e a0)
    as (s' & Hrun & Hv' & Hpte' & Ho' & Ht'); auto.
  - apply Hg.
  - apply Hg.
  - by eapply spans_leaves.
  - rewrite Hpo. apply Hg.
  - exists s'. rewrite Hpo in Hv', Ho'. cbn [released] in Hv', Ho'. split; [done|]. split; [done|]. split; [|by split].
    intros x Hx. rewrite Hpte' by done. case_decide; [symmetry; apply Hempty; lia|].
    rewrite (sp_pte _ _ _ _ _ _ _ _ Hg) by done. by rewrite decide_False.
Qed.

(** So does uvmdealloc(). *)
Lemma spans_undo s l T ps e :
  LkKmem ∉ e_held e -> spans (kmem_mem s0) root a0 perm s l T ps ->
  a0 + Z.of_nat (length ps) * PGSIZE <= lim ->
  exists s' r,
    uvmdealloc kend root (a0 + Z.of_nat (length ps) * PGSIZE) a0 e s = Ok r e s' /\
    vmi kend s' (rev ps ++ l) T /\
    (forall x, 0 <= x < MAXVA -> pte_of (kmem_mem s') root x = pte_of (kmem_mem s0) root x) /\
    same_off (fun p => is_Some (T !! p) \/ p ∈ ps) (kmem_mem s) (kmem_mem s') /\ same_tree T (kmem_mem s) (kmem_mem s').
Proof.
  intros Hl Hg Hb0. unfold uvmdealloc.
  assert (HM : MAXVA = 274877906944) by reflexivity.
  destruct (Z.leb_spec (a0 + Z.of_nat (length ps) * PGSIZE) a0) as [Hle|Hgt].
  - assert (length ps = 0%nat) as Hz%nil_length_inv by (unfold PGSIZE in *; lia). subst ps.
    exists s, (a0 + Z.of_nat (length (@nil Z)) * PGSIZE). split; [done|]. split; [apply Hg|].
    split; [|split; [apply same_off_refl|done]]. intros x Hx. rewrite (sp_pte _ _ _ _ _ _ _ _ Hg) by done. simpl length.
    by rewrite decide_False by lia.
  - rewrite !PGROUNDUP_id by (unfold pg_aligned, PGSIZE in *; first [lia | zdm]).
    destruct (Z.ltb_spec a0 (a0 + Z.of_nat (length ps) * PGSIZE)); [|lia].
    replace ((a0 + Z.of_nat (length ps) * PGSIZE - a0) / PGSIZE) with (Z.of_nat (length ps))
      by (unfold PGSIZE; zdm).
    rewrite i32_small by (unfold PGSIZE in *; lia).
    destruct (spans_unmap s l T ps e Hl Hg Hb0) as (s' & Hrun & Hv' & Hpte' & Ho' & Ht').
    rewrite bind_eq, Hrun. kred. exists s', a0. done.
Qed.

Lemma filled_refl : vmi kend s0 l0 T0 -> filled s0 l0 T0 root a0 perm cont s0 l0 T0 [].
Proof.
  intros Hv. split.
  - split; auto.
    + intros x Hx. simpl length. by rewrite decide_False by lia.
    + split; [constructor|]. split; constructor.
  - exists []. split; [|by split; intros p ?%elem_of_nil].
    split; auto; [apply same_off_refl|by split].
  - intros i p Hi. done.
Qed.

Lemma pages_hold_snoc m ps p :
  pages_hold m ps cont -> page_holds m p (cont (length ps)) -> pages_hold m (ps ++ [p]) cont.
Proof.
  intros Hps Hp i q Hi. apply lookup_app_Some in Hi as [Hi|[Hle Hi]]; [by apply Hps|].
  destruct (i - length ps)%nat as [|k] eqn:E; [|done]. injection Hi as <-. by replace i with (length ps) by lia.
Qed.

(** A freshly allocated page, not mapped yet. *)
Lemma filled_alloc s p m1 l T ps :
  filled s0 l0 T0 root a0 perm cont s (p :: l) T ps ->
  same_outside p (memset (kmem_mem s) p 5 PGSIZE) m1 -> page_holds m1 p (cont (length ps)) ->
  let s1 := alloc_state s p m1 in
  vmi kend s1 l T /\ freeable kend l T (ps ++ [p]) /\
  pages_hold m1 (ps ++ [p]) cont /\
  (forall x, pte_of m1 root x = pte_of (kmem_mem s) root x) /\
  exists used, evolves kend s0 l0 T0 s1 l T (used ++ [p]) /\
    (forall q, q ∈ used -> q ∈ ps \/ is_Some (T !! q)) /\ (forall q, q ∈ ps -> q ∈ used).
Proof.
  intros [[Hv Hr _ Hf] (used & Hev0 & Hu) Hz] Hm Hc s1.
  destruct (alloc_evolves s p m1 l T Hv Hm) as (Hev & Hpte).
  pose proof (freeable_evolves _ _ _ _ _ _ _ _ Hev Hf) as Hf1.
  pose proof (pages_evolve _ _ _ _ _ _ _ _ _ Hv Hev Hf Hz) as Hz1.
  pose proof (inv_pages _ _ _ (vmi_kmem _ _ _ _ Hv)) as HF.
  pose proof (inv_nodup _ _ _ (vmi_kmem _ _ _ _ Hv)) as Hnd.
  apply Forall_cons in HF as [Hpok _]. apply NoDup_cons in Hnd as [Hpl _].
  assert (HpT : T !! p = None) by (apply (vmi_free _ _ _ _ Hv); constructor).
  split; [apply Hev|]. split; [|split; [|split]].
  - destruct Hf1 as (Hn & Hok & Hfr), Hf as (_ & _ & Hfr0).
    split; [|split; apply Forall_app_2; auto].
    apply NoDup_app. split; [done|]. split; [|apply NoDup_singleton].
    intros q Hq Hqp%list_elem_of_singleton. subst q. rewrite Forall_forall in Hfr0.
    destruct (Hfr0 p Hq) as [Hbad _]. apply Hbad. constructor.
  - by apply pages_hold_snoc.
  - intros x. by eapply Hpte.
  - exists used. split; [by eapply evolves_trans|done].
Qed.

(** What belongs neither to the page tables nor to the free list of the
    start is as it was. *)
Definition confined (s : kmem) : Prop :=
  same_off (fun q => is_Some (T0 !! q) \/ q ∈ l0) (kmem_mem s0) (kmem_mem s).

Lemma evolves_confined s l T used : evolves kend s0 l0 T0 s l T used -> confined s.
Proof using.
  intros [Hu _ _ _ Ho _]. eapply same_off_mono; [|exact Ho]. cbn. intros q [?|?]; [by left|right].
  rewrite Hu. apply elem_of_app. by left.
Qed.

Lemma confined_off (P : Z -> Prop) s s' :
  confined s -> same_off P (kmem_mem s) (kmem_mem s') -> (forall q, P q -> is_Some (T0 !! q) \/ q ∈ l0) ->
  confined s'.
Proof using.
  intros Hc Ho HP. eapply same_off_mono; [|eapply same_off_trans; [exact Hc|exact Ho]]. cbn. intros q [?|?]; auto.
Qed.

(** The tables and the new pages come from the tables and the free list of
    the start. *)
Definition tracked (T : gmap Z (nat * Z)) (ps : list Z) : Prop :=
  forall q, is_Some (T !! q) \/ q ∈ ps -> is_Some (T0 !! q) \/ q ∈ l0.

Lemma evolves_tracked s l T used ps :
  evolves kend s0 l0 T0 s l T used -> (forall q, q ∈ ps -> q ∈ used) -> tracked T ps.
Proof using.
  intros [Hu _ _ Hd _ _] Hps q [Hq|Hq]; [destruct (Hd q Hq); [by left|]|]; right; rewrite Hu; apply elem_of_app; left; [done|by apply Hps].
Qed.

(** The state of a growth that is about to be undone: besides the pages [ps]
    that are mapped, only page tables are missing from the free list. *)
Record recoverable (s : kmem) (l : list Z) (T : gmap Z (nat * Z)) (ps : list Z) : Prop := {
  rv_spans : spans (kmem_mem s0) root a0 perm s l T ps;
  rv_sub : T0 ⊆ T;
  rv_conf : confined s;
  rv_track : tracked T ps;
  rv_from : forall q, q ∈ l -> q ∈ l0;
  rv_all : forall q, q ∈ l0 -> q ∈ rev ps ++ l \/ is_Some (T !! q);
  rv_tree : keeps_tree (kmem_mem s0) T0 (kmem_mem s) T
}.

(** The page that could not be mapped goes back. *)
Lemma filled_giveback s1 l T ps p s2 T2 u1 u2 e :
  LkKmem ∉ e_held e -> page_ok kend p -> spans (kmem_mem s0) root a0 perm s1 l T ps ->
  evolves kend s0 l0 T0 s2 [] T2 (u1 ++ u2) -> freeable kend [] T2 (ps ++ [p]) ->
  (forall x, 0 <= x < MAXVA -> pte_of (kmem_mem s2) root x = pte_of (kmem_mem s1) root x) ->
  T2 !! root = Some (2%nat, 0) -> p ∈ u1 ++ u2 ->
  exists s3, kfree kend p e s2 = Ok tt e s3 /\ spans (kmem_mem s0) root a0 perm s3 [p] T2 ps /\ confined s3 /\
    keeps_tree (kmem_mem s0) T0 (kmem_mem s3) T2.
Proof.
  intros Hl Hpok [_ _ Hpte0 _] Hev12 (Hn2 & Hok2 & Hfr2) Hsame Hr2 Hpu.
  apply NoDup_app in Hn2 as (Hn2 & Hnp & _).
  apply Forall_app in Hok2 as [Hok2 _]. apply Forall_app in Hfr2 as [Hfr2 HfrP].
  apply Forall_cons in HfrP as [[Hpl2 HpT2] _].
  rewrite kfree_eq by done. eexists. split; [done|].
  destruct (free_page_vmi kend Hkend s2 [] T2 p (ev_vmi _ _ _ _ _ _ _ _ Hev12) Hpok Hpl2 HpT2)
    as [Hv3 Hpte3].
  assert (Ho3 : same_off (fun q => q = p) (kmem_mem s2) (freed_mem (kmem_mem s2) p (freelist s2)))
    by apply same_outside_off, freed_same_outside.
  split; [split; [done|done| |]|split].
  - intros x Hx. transitivity (pte_of (kmem_mem s2) root x); [by eapply Hpte3|].
    rewrite Hsame by done. by apply Hpte0.
  - split; [done|]. split; [done|]. apply Forall_forall. intros q Hq.
    rewrite Forall_forall in Hfr2. destruct (Hfr2 q Hq) as [_ HqT]. split; [|done].
    intros Hqp. by apply (Hnp q).
  - eapply (confined_off (fun q => q = p)); [by eapply evolves_confined|done|].
    intros q ->. right. rewrite (ev_used _ _ _ _ _ _ _ _ Hev12). set_solver.
  - eapply keeps_tree_trans; [apply Hev12|apply Hev12|]. apply stay_keeps_tree; [apply Hev12|]. apply same_tree_stay.
    eapply same_off_tree; [apply Hev12|exact Ho3|]. intros q ->. split; [apply Hpok|]. by rewrite HpT2.
Qed.

(** Mapping it at the end of the range extends the growth; when the
    mapping fails and the page is freed, the range is as it was and
    nothing but page tables is missing from the free list. *)
Lemma filled_step s p m1 l T ps e :
  LkKmem ∉ e_held e -> filled s0 l0 T0 root a0 perm cont s (p :: l) T ps ->
  same_outside p (memset (kmem_mem s) p 5 PGSIZE) m1 -> page_holds m1 p (cont (length ps)) ->
  let a := a0 + Z.of_nat (length ps) * PGSIZE in
  a + PGSIZE <= lim ->
  exists r s2 l2 T2,
    mappages root a PGSIZE p (perm (length ps)) e (alloc_state s p m1) = Ok r e s2 /\
    (r = 0 /\ filled s0 l0 T0 root a0 perm cont s2 l2 T2 (ps ++ [p]) \/
     r = -1 /\ exists s3, kfree kend p e s2 = Ok tt e s3 /\ recoverable s3 [p] T2 ps).
Proof.
  intros Hl Hg Hm1 Hc a Hb. assert (HbM : a + PGSIZE <= MAXVA) by lia.
  pose proof (gn_spans _ _ _ _ _ _ _ _ _ _ _ Hg) as [_ Hr Hpte0 _].
  destruct (filled_alloc _ _ _ _ _ _ Hg Hm1 Hc)
    as (Hv1 & Hf1 & Hz1 & Hpte1 & used & Hev1 & Hu1 & Hu1').
  assert (Hpok : page_ok kend p) by (eapply freeable_page_ok; [exact Hf1|set_solver]).
  destruct (mappages_one kend Hkend root (alloc_state s p m1) l T e a p (perm (length ps)))
    as (r & s2 & l2 & T2 & u2 & Hrun & Hev2 & Ht2 & Hres); auto.
  { apply Hperm. unfold a, PGSIZE in *. lia. }
  { unfold a, pg_aligned, PGSIZE in *. zdm. }
  { unfold a, PGSIZE. lia. }
  { by apply page_ok_pa. }
  { destruct Hpok as [_ Hp]. unfold PHYSTOP, KERNBASE, PGSIZE in *. lia. }
  { cbn [kmem_mem alloc_state]. rewrite Hpte1, Hpte0 by (unfold a, PGSIZE in *; lia).
    rewrite decide_False by (unfold a, PGSIZE in *; lia).
    apply Hempty. unfold a, PGSIZE in *. lia. }
  exists r, s2, l2, T2. split; [done|].
  pose proof (freeable_evolves _ _ _ _ _ _ _ _ Hev2 Hf1) as Hf2.
  pose proof (pages_evolve _ _ _ _ _ _ _ _ _ Hv1 Hev2 Hf1 Hz1) as Hz2.
  pose proof (evolves_trans kend Hkend _ _ _ _ _ _ _ _ _ _ _ Hev1 Hev2) as Hev12.
  assert (Hr2 : T2 !! root = Some (2%nat, 0)) by (eapply lookup_weaken; [exact Hr|apply Hev2]).
  assert (Hu12 : forall q, q ∈ (used ++ [p]) ++ u2 -> q ∈ ps ++ [p] \/ is_Some (T2 !! q)).
  { intros q [[Hq|Hq]%elem_of_app|Hq]%elem_of_app; [|set_solver|auto].
    destruct (Hu1 q Hq) as [|[lab Hlab]]; [set_solver|]. right. exists lab.
    eapply lookup_weaken; [exact Hlab|apply Hev2]. }
  destruct Hres as [[-> Hm]|(-> & -> & Hsame)]; [left|right]; (split; [done|]).
  - split; [|exists ((used ++ [p]) ++ u2); split; [done|split; [done|set_solver]]|done]. split; [apply Hev2|done| |done].
    intros x Hx. rewrite (Hm x Hx), Hpte1, Hpte0 by done.
    rewrite length_app. simpl (length [p]).
    unfold a, PGSIZE in *. repeat case_decide; try lia; try done.
    + assert (Hi : Z.to_nat ((x - a0) / 4096) = length ps) by zdm.
      rewrite Hi, lookup_total_app_r, Nat.sub_diag by lia. f_equal. simpl. unfold pg_aligned, PGSIZE in Ha0. zdm.
    + f_equal. rewrite lookup_total_app_l by zdm. done.
  - destruct (filled_giveback s (p :: l) T ps p s2 T2 (used ++ [p]) u2 e) as (s3 & Hk & Hs3 & Hc3 & Htr3); auto.
    { apply Hg. }
    { intros x Hx. by rewrite Hsame, Hpte1. }
    { set_solver. }
    exists s3. split; [done|]. split; [done|apply Hev12|done|by eapply evolves_tracked; [exact Hev12|set_solver]| | |done].
    { intros q ->%list_elem_of_singleton. rewrite (ev_used _ _ _ _ _ _ _ _ Hev12). set_solver. }
    intros q Hq. rewrite (ev_used _ _ _ _ _ _ _ _ Hev12), app_nil_r in Hq.
    destruct (Hu12 q Hq) as [[H|H]%elem_of_app|]; [left..|by right];
      apply elem_of_app; [left; by apply elem_of_rev|by right].
Qed.

(** What is left behind when there is no memory: the translations of the
    start, no page lost from the allocator but to page tables, and nothing
    else changed. *)
Record shrunk_back (s : kmem) (l : list Z) (T : gmap Z (nat * Z)) : Prop := {
  sb_vmi : vmi kend s l T;
  sb_sub : T0 ⊆ T;
  sb_conf : confined s;
  sb_pte : forall x, 0 <= x < MAXVA -> pte_of (kmem_mem s) root x = pte_of (kmem_mem s0) root x;
  sb_track : forall q, is_Some (T !! q) -> is_Some (T0 !! q) \/ q ∈ l0;
  sb_from : forall q, q ∈ l -> q ∈ l0;
  sb_all : forall q, q ∈ l0 -> q ∈ l \/ is_Some (T !! q);
  sb_tree : keeps_tree (kmem_mem s0) T0 (kmem_mem s) T
}.

Lemma undo_shrunk s l T ps s' :
  recoverable s l T ps -> vmi kend s' (rev ps ++ l) T ->
  (forall x, 0 <= x < MAXVA -> pte_of (kmem_mem s') root x = pte_of (kmem_mem s0) root x) ->
  same_off (fun p => is_Some (T !! p) \/ p ∈ ps) (kmem_mem s) (kmem_mem s') -> same_tree T (kmem_mem s) (kmem_mem s') ->
  shrunk_back s' (rev ps ++ l) T.
Proof using.
  intros [Hs HT Hc Ht Hf Ha Hk] Hv Hp Ho Hst. split; try done.
  - by eapply confined_off.
  - intros q Hq. apply Ht. by left.
  - intros q [Hq|Hq]%elem_of_app; [|by apply Hf]. rewrite elem_of_rev in Hq. destruct (Ht q (or_intror Hq)) as [[lab Hl]|]; [|done].
    destruct (sp_pages _ _ _ _ _ _ _ _ Hs) as (_ & _ & Hfr). rewrite Forall_forall in Hfr. destruct (Hfr q Hq) as [_ HqT].
    by rewrite (lookup_weaken _ _ _ _ Hl HT) in HqT.
  - eapply keeps_tree_trans; [exact Hk|done|]. apply stay_keeps_tree; [apply Hs|]. by apply same_tree_stay.
Qed.

(** Undoing after the free list is exhausted. *)
Lemma filled_exhausted s T ps :
  filled s0 l0 T0 root a0 perm cont s [] T ps -> recoverable s [] T ps.
Proof using.
  intros [Hs (used & Hev & Hu & Hu') _]. split; [done|apply Hev|by eapply evolves_confined|by eapply evolves_tracked| | |apply Hev].
  - by intros q ?%elem_of_nil.
  - intros q Hq. rewrite (ev_used _ _ _ _ _ _ _ _ Hev), app_nil_r in Hq.
    destruct (Hu q Hq); [left|by right]. rewrite app_nil_r. by apply elem_of_rev.
Qed.

End with_filled.

(** ** uvmalloc *)

Section with_grown.
Context (s0 : kmem) (l0 : list Z) (T0 : gmap Z (nat * Z)) (root a0 perm : Z).
Hypothesis Hperm : 0 <= perm < 1024.
Hypothesis HpermR : flag perm PTE_R = true.
Hypothesis Hroot : T0 !! root = Some (2%nat, 0).
Hypothesis Ha0 : pg_aligned a0.
Hypothesis Ha00 : 0 <= a0.
Variable lim : Z.
Hypothesis Hlim : pg_aligned lim /\ lim <= MAXVA.
Hypothesis Hempty : forall x, a0 <= x < lim -> pte_of (kmem_mem s0) root x = 0.

Lemma uvmalloc_loop_spec fuel s l T ps e newsz xperm :
  perm = Z.lor (Z.lor PTE_R PTE_U) xperm ->
  LkKmem ∉ e_held e -> grown s0 l0 T0 root a0 perm s l T ps ->
  let a := a0 + Z.of_nat (length ps) * PGSIZE in
  newsz <= a + Z.of_nat fuel * PGSIZE -> a < newsz + PGSIZE -> newsz <= lim ->
  exists r s' l' T',
    uvmalloc_loop kend fuel root a a0 newsz xperm e s = Ok r e s' /\
    (r = newsz /\ (exists ps', grown s0 l0 T0 root a0 perm s' l' T' ps' /\
        newsz <= a0 + Z.of_nat (length ps') * PGSIZE < newsz + PGSIZE) \/
     r = 0 /\ shrunk_back s0 l0 T0 root s' l' T').
Proof.
  intros Hperm' Hl. pose proof (readable_leaf perm HpermR) as HpL.
  pose proof (spans_undo s0 root a0 (fun _ => perm) (fun _ _ => 0) Ha0 Ha00 lim Hlim (fun _ _ => Hperm) (fun _ _ => HpL) Hempty) as Hundo.
  revert s l T ps. induction fuel as [|fuel IH]; intros s l T ps Hg a Hf Ha Hn.
  all: cbn [uvmalloc_loop]; destruct (Z.ltb_spec a newsz) as [Hlt|Hge];
    [|eexists _, s, l, T; split; [done|]; left; eauto].
  { unfold PGSIZE in *. lia. }
  assert (Hb : a + PGSIZE <= lim)
    by (subst a; destruct Hlim; unfold pg_aligned, PGSIZE in *; zdm).
  assert (Hb' : a <= lim) by (unfold PGSIZE in *; lia).
  rewrite bind_eq. destruct l as [|p l].
  { rewrite (kalloc_empty kend) by (try apply Hg; done). kred. cbn [Z.eqb].
    pose proof (filled_exhausted _ _ _ _ _ _ _ _ _ _ Hg) as Hrv.
    destruct (Hundo _ _ _ _ e Hl (rv_spans _ _ _ _ _ _ _ _ _ _ Hrv) Hb') as (s' & r & Hrun & Hv & Hpte & Ho & Ht).
    fold a in Hrun. rewrite bind_eq, Hrun. kred. exists 0, s', (rev ps ++ []), T. split; [done|]. right.
    split; [done|]. eapply undo_shrunk; eauto. }
  pose proof (gn_spans _ _ _ _ _ _ _ _ _ _ _ Hg) as Hs.
  rewrite (kalloc_eq kend p l) by (done || apply Hs). kred.
  rewrite (proj2 (Z.eqb_neq p 0)) by (eapply kmem_head_nonzero, vmi_kmem; apply Hs).
  unfold do_memset. rewrite bind_eq. unfold modify at 1. kred.
  set (m1 := memset (memset (kmem_mem s) p 5 PGSIZE) p 0 PGSIZE).
  destruct (filled_step s0 l0 T0 root a0 (fun _ => perm) (fun _ _ => 0) Hroot Ha0 Ha00 lim Hlim (fun _ _ => Hperm) (fun _ _ => HpL) Hempty
    s p m1 l T ps e Hl Hg) as (r & s2 & l2 & T2 & Hrun & Hres); [apply memset_same_outside| |done|].
  { intros o Ho. unfold m1. rewrite mget_memset, decide_True; unfold PGSIZE in *; [done|lia..]. }
  unfold alloc_state in Hrun. rewrite bind_eq, <- Hperm'. fold a in Hrun.
  unfold on_mem. cbn [freelist kmem_mem]. fold m1. rewrite Hrun. kred.
  destruct Hres as [[-> Hg2]|(-> & s3 & Hfree & Hrv)].
  - cbn [negb Z.eqb].
    rewrite u64_small by (unfold a, PGSIZE in *; change MAXVA with 274877906944 in *; lia).
    replace (a + PGSIZE) with (a0 + Z.of_nat (length (ps ++ [p])) * PGSIZE) in *
      by (rewrite length_app; simpl length; unfold a, PGSIZE; lia).
    apply (IH s2 l2 T2 (ps ++ [p]) Hg2); unfold a, PGSIZE in *; rewrite ?length_app in *; simpl length in *; lia.
  - cbn [negb Z.eqb]. rewrite bind_eq, Hfree. kred.
    destruct (Hundo s3 [p] T2 ps e Hl (rv_spans _ _ _ _ _ _ _ _ _ _ Hrv) Hb') as (s' & r & Hrun' & Hv' & Hpte' & Ho' & Ht').
    fold a in Hrun'. rewrite bind_eq, Hrun'. kred.
    exists 0, s', (rev ps ++ [p]), T2. split; [done|]. right. split; [done|]. eapply undo_shrunk; eauto.
Qed.
End with_grown.
End uvmspec.
