(* ===== verification/FreeWalk.v ===== *)
(** * freewalk(): giving back the tables of an address space

    [tables m lev pt] are the page-table pages of the tree below [pt], in the
    order in which freewalk() frees them.  A tree without leaves is freed
    completely, and nothing else of the memory changes. *)

From S2P Require Import Prelude KMonad CString Riscv Kalloc Vm PageTable VmSpec.

Open Scope kmonad_scope.

(** ** The tables of a tree *)

Fixpoint tables (m : mem) (lev : nat) (pt : Z) : list Z :=
  match lev with
  | O => [pt]
  | S lev =>
      concat (map (fun i => let v := load64 m (slot pt i) in
                            if flag v PTE_V then tables m lev (PTE2PA v) else []) (seqZ 0 512)) ++ [pt]
  end.

(** The tables below the entry [i] of a table of level [S lev]. *)
Definition subtables (m : mem) (lev : nat) (pt i : Z) : list Z :=
  let v := load64 m (slot pt i) in if flag v PTE_V then tables m lev (PTE2PA v) else [].

Definition below (m : mem) (lev : nat) (pt i : Z) (n : nat) : list Z :=
  concat (map (subtables m lev pt) (seqZ i (Z.of_nat n))).

Lemma tables_S m lev pt : tables m (S lev) pt = below m lev pt 0 512 ++ [pt].
Proof. done. Qed.

Lemma below_S m lev pt i n : below m lev pt i (S n) = subtables m lev pt i ++ below m lev pt (i + 1) n.
Proof.
  unfold below. rewrite seqZ_cons by lia. cbn [map concat]. do 4 f_equal; lia.
Qed.

Lemma elem_of_below m lev pt i n p :
  p ∈ below m lev pt i n <-> exists j, i <= j < i + Z.of_nat n /\ p ∈ subtables m lev pt j.
Proof.
  revert i. induction n as [|n IH]; intros i.
  - split; [by intros ?%elem_of_nil|]. intros (j & Hj & _). lia.
  - rewrite below_S, elem_of_app, IH. split.
    + intros [Hp|(j & Hj & Hp)]; [exists i|exists j]; (split; [lia|done]).
    + intros (j & Hj & Hp). destruct (decide (j = i)) as [->|]; [by left|right; exists j; split; [lia|done]].
Qed.

Lemma root_in_tables m lev pt : pt ∈ tables m lev pt.
Proof. destruct lev; [by left|]. rewrite tables_S, elem_of_app. right. by left. Qed.

Lemma reach_tables m lev pt p : reach m lev pt p -> p ∈ tables m lev pt.
Proof.
  induction 1 as [|lev pt i p Hi Hf _ IH]; [apply root_in_tables|]. rewrite tables_S. apply elem_of_app. left.
  apply elem_of_below. exists i. split; [lia|]. unfold subtables. by rewrite Hf.
Qed.

(** An empty table is a tree of its own. *)
Lemma tables_empty m lev pt : (forall i, 0 <= i < 512 -> load64 m (slot pt i) = 0) -> tables m lev pt = [pt].
Proof.
  intros Hz. destruct lev as [|lev]; [done|]. rewrite tables_S.
  enough (Hb : forall n i, 0 <= i -> i + Z.of_nat n <= 512 -> below m lev pt i n = []) by (by rewrite Hb).
  induction n as [|n IH]; intros i Hi Hn; [done|]. rewrite below_S, IH by lia. unfold subtables. by rewrite Hz by lia.
Qed.

(** No entry of the tree is a leaf mapping. *)
Fixpoint no_leaf (m : mem) (lev : nat) (pt : Z) : Prop :=
  match lev with
  | O => forall i, 0 <= i < 512 -> flag (load64 m (slot pt i)) PTE_V = false
  | S lev => forall i, 0 <= i < 512 -> flag (load64 m (slot pt i)) PTE_V = true ->
      PTE_FLAGS (load64 m (slot pt i)) = PTE_V /\ no_leaf m lev (PTE2PA (load64 m (slot pt i)))
  end.

(** ** The tree is in its own pages *)

Definition agree (m m' : mem) (p : Z) : Prop := forall a, p <= a < p + PGSIZE -> mget m' a = mget m a.

Lemma agree_slot m m' p i : agree m m' p -> 0 <= i < 512 -> load64 m' (slot p i) = load64 m (slot p i).
Proof. intros H Hi. apply load64_ext. intros j Hj. apply H. destruct (slot_in_page p i Hi). lia. Qed.

Lemma same_off_agree (P : Z -> Prop) m m' p :
  same_off P m m' -> pg_aligned p -> (forall q, P q -> pg_aligned q /\ q <> p) -> agree m m' p.
Proof.
  intros Ho Hp HP a Ha. apply Ho. intros q Hq. destruct (HP q Hq) as [Hqa Hne].
  destruct (pages_disjoint q p Hqa Hp Hne); lia.
Qed.

Lemma tables_frame m m' lev pt :
  (forall p, p ∈ tables m lev pt -> agree m m' p) ->
  tables m' lev pt = tables m lev pt /\ (no_leaf m lev pt -> no_leaf m' lev pt).
Proof.
  revert pt. induction lev as [|lev IH]; intros pt Ha.
  - split; [done|]. intros Hn i Hi. rewrite (agree_slot m); [by apply Hn| |done]. apply Ha, root_in_tables.
  - assert (Hs : forall i, 0 <= i < 512 -> load64 m' (slot pt i) = load64 m (slot pt i))
      by (intros; apply agree_slot; [apply Ha, root_in_tables|done]).
    assert (Hc : forall i, 0 <= i < 512 -> flag (load64 m (slot pt i)) PTE_V = true ->
      tables m' lev (PTE2PA (load64 m (slot pt i))) = tables m lev (PTE2PA (load64 m (slot pt i))) /\
      (no_leaf m lev (PTE2PA (load64 m (slot pt i))) -> no_leaf m' lev (PTE2PA (load64 m (slot pt i))))).
    { intros i Hi Hf. apply IH. intros p Hp. apply Ha. rewrite tables_S. apply elem_of_app. left.
      apply elem_of_below. exists i. split; [lia|]. unfold subtables. by rewrite Hf. }
    split.
    + rewrite !tables_S. f_equal. unfold below. f_equal. apply map_ext_in. intros i Hi%list_elem_of_In%elem_of_seqZ.
      unfold subtables. rewrite Hs by lia. destruct (flag _ _) eqn:Hf; [|done]. apply Hc; [lia|done].
    + intros Hn i Hi. rewrite Hs by done. intros Hf. destruct (Hn i Hi Hf) as [H1 H2]. split; [done|]. by apply Hc.
Qed.

(** ** freewalk *)

Section freewalk.
Context (kend : Z) (Hkend : 0 < kend).

(** Pages that freewalk() may give back. *)
Definition reclaimable (l ts : list Z) : Prop := NoDup ts /\ Forall (page_ok kend) ts /\ forall p, p ∈ ts -> p ∉ l.

Lemma reclaimable_app l ts us :
  reclaimable l (ts ++ us) -> reclaimable l ts /\ reclaimable (rev ts ++ l) us /\ forall p, p ∈ ts -> p ∉ us.
Proof.
  intros (Hn & Hok & Hl). apply NoDup_app in Hn as (N1 & N2 & N3). apply Forall_app in Hok as [O1 O2].
  split; [|split; [|done]].
  - split; [done|]. split; [done|]. intros p Hp. apply Hl, elem_of_app. by left.
  - split; [done|]. split; [done|]. intros p Hp [Hq|Hq]%elem_of_app.
    + rewrite elem_of_rev in Hq. by apply (N2 p).
    + apply (Hl p); [apply elem_of_app; by right|done].
Qed.

(** The last step: the table itself. *)
Lemma free_table pt e s l :
  LkKmem ∉ e_held e -> kmem_inv kend s l -> reclaimable l [pt] ->
  exists s', kfree kend pt e s = Ok tt e s' /\ kmem_inv kend s' (pt :: l) /\
    same_off (fun p => p ∈ [pt]) (kmem_mem s) (kmem_mem s').
Proof.
  intros Hl Hk (_ & Hok & Hn). apply Forall_cons in Hok as [Hok _].
  exists (mkKmem pt (freed_mem (kmem_mem s) pt (freelist s))). split; [by apply kfree_eq|]. split.
  - apply kfree_inv; try done. apply Hn. by left.
  - apply (same_off_mono (fun p => p = pt)); [intros ? ->; by left|]. apply same_outside_off, freed_same_outside.
Qed.

(** Entries that are not valid are skipped. *)
Lemma freewalk_entries_skip rec pt n i e s :
  (forall j, i <= j < i + Z.of_nat n -> flag (load64 (kmem_mem s) (slot pt j)) PTE_V = false) ->
  freewalk_entries kend rec pt n i e s = kfree kend pt e s.
Proof.
  revert i. induction n as [|n IH]; intros i H; cbn [freewalk_entries]; [done|].
  unfold read64. krun. fold (slot pt i). rewrite H by lia. cbn [andb]. apply IH. intros j Hj. apply H. lia.
Qed.

(** What the loop needs to know of an entry of a table of level [S lev]. *)
Definition sub_ok (m : mem) (lev : nat) (pt i : Z) : Prop :=
  flag (load64 m (slot pt i)) PTE_V = true ->
  PTE_FLAGS (load64 m (slot pt i)) = PTE_V /\ no_leaf m lev (PTE2PA (load64 m (slot pt i))).

Lemma sub_frame m m' lev pt i :
  load64 m' (slot pt i) = load64 m (slot pt i) -> (forall p, p ∈ subtables m lev pt i -> agree m m' p) ->
  subtables m' lev pt i = subtables m lev pt i /\ (sub_ok m lev pt i -> sub_ok m' lev pt i).
Proof.
  intros Hs Ha. unfold subtables, sub_ok in *. rewrite Hs. destruct (flag _ _); [|done].
  destruct (tables_frame m m' lev (PTE2PA (load64 m (slot pt i))) Ha) as [-> Hn]. split; [done|].
  intros H _. destruct (H eq_refl) as [H1 H2]. split; [done|by apply Hn].
Qed.

(** The entries after [i] are not affected by freeing what is below [i] and
    clearing the entry. *)
Lemma below_frame m m1 lev pt i n :
  let ts := subtables m lev pt i in
  let m2 := store64 m1 (slot pt i) 0 in
  same_off (fun p => p ∈ ts) m m1 -> reclaimable [] (ts ++ below m lev pt (i + 1) n ++ [pt]) ->
  0 <= i -> i + 1 + Z.of_nat n <= 512 ->
  below m2 lev pt (i + 1) n = below m lev pt (i + 1) n /\
  ((forall j, i < j < i + 1 + Z.of_nat n -> sub_ok m lev pt j) -> forall j, i < j < i + 1 + Z.of_nat n -> sub_ok m2 lev pt j).
Proof using.
  intros ts m2 Ho Hr Hi Hn. apply reclaimable_app in Hr as (Hr1 & Hr2 & Hd).
  destruct Hr2 as (N2 & O2 & _). destruct Hr1 as (_ & O1 & _). apply Forall_app in O2 as [O2 O3].
  apply Forall_cons in O3 as [[Hpt _] _]. rewrite Forall_forall in O1, O2. apply NoDup_app in N2 as (_ & N2 & _).
  assert (Ho2 : same_off (fun p => p = pt) m1 m2).
  { apply same_outside_off, store64_same_outside. unfold PGSIZE. lia. }
  assert (Hts : forall q, q ∈ ts -> pg_aligned q /\ q <> pt).
  { intros q Hq. split; [by apply O1|]. intros ->. apply (Hd pt Hq), elem_of_app. right. by left. }
  assert (Hf : forall j, i < j < i + 1 + Z.of_nat n ->
    subtables m2 lev pt j = subtables m lev pt j /\ (sub_ok m lev pt j -> sub_ok m2 lev pt j)).
  { intros j Hj. apply sub_frame.
    - unfold m2. rewrite load_store_disj by (unfold slot; lia). apply agree_slot; [|lia].
      apply (same_off_agree _ _ _ _ Ho Hpt). exact Hts.
    - intros p Hp. assert (Hb : p ∈ below m lev pt (i + 1) n) by (apply elem_of_below; exists j; split; [lia|done]).
      assert (Hpa : pg_aligned p) by (by apply O2).
      assert (Hp1 : agree m m1 p).
      { apply (same_off_agree _ _ _ _ Ho Hpa). intros q Hq. split; [by apply O1|]. intros ->.
        apply (Hd p Hq), elem_of_app. by left. }
      assert (Hp2 : agree m1 m2 p).
      { apply (same_off_agree _ _ _ _ Ho2 Hpa). intros q ->. split; [done|]. intros ->. apply (N2 p Hb). by left. }
      intros a Ha. by rewrite Hp2, Hp1. }
  split.
  - unfold below. f_equal. apply map_ext_in. intros j Hj%list_elem_of_In%elem_of_seqZ. apply Hf. lia.
  - intros H j Hj. apply Hf; [done|]. by apply H.
Qed.

(** The whole loop, given the recursive call. *)
Lemma freewalk_entries_spec rec lev e pt :
  LkKmem ∉ e_held e ->
  (forall q s l, kmem_inv kend s l -> reclaimable l (tables (kmem_mem s) lev q) -> no_leaf (kmem_mem s) lev q ->
     exists s', rec q e s = Ok tt e s' /\ kmem_inv kend s' (rev (tables (kmem_mem s) lev q) ++ l) /\
       same_off (fun p => p ∈ tables (kmem_mem s) lev q) (kmem_mem s) (kmem_mem s')) ->
  forall n i s l, 0 <= i -> i + Z.of_nat n = 512 -> kmem_inv kend s l ->
  let ts := below (kmem_mem s) lev pt i n ++ [pt] in
  reclaimable l ts -> (forall j, i <= j < 512 -> sub_ok (kmem_mem s) lev pt j) ->
  exists s', freewalk_entries kend rec pt n i e s = Ok tt e s' /\ kmem_inv kend s' (rev ts ++ l) /\
    same_off (fun p => p ∈ ts) (kmem_mem s) (kmem_mem s').
Proof using Hkend.
  intros Hl Hrec n. induction n as [|n IH]; intros i s l Hi0 Hi Hk ts Hr Hok.
  { destruct (free_table pt e s l) as (s' & H1 & H2 & H3); try done. by exists s'. }
  unfold ts in *. rewrite below_S, <- app_assoc in *. clear ts.
  set (ts := subtables (kmem_mem s) lev pt i) in *. set (us := below (kmem_mem s) lev pt (i + 1) n ++ [pt]) in *.
  pose proof (reclaimable_app _ _ _ Hr) as (Hr1 & Hr2 & Hd).
  cbn [freewalk_entries]. unfold read64. krun. fold (slot pt i).
  destruct (flag (load64 (kmem_mem s) (slot pt i)) PTE_V) eqn:Hf; cbn [andb].
  2: { assert (Hts : ts = []) by (unfold ts, subtables; by rewrite Hf). rewrite Hts in *. cbn [app] in *.
       apply (IH (i + 1) s l); [lia|lia|done|done|]. intros j Hj. apply Hok. lia. }
  assert (Ets : tables (kmem_mem s) lev (PTE2PA (load64 (kmem_mem s) (slot pt i))) = ts)
    by (unfold ts, subtables; by rewrite Hf).
  destruct (Hok i ltac:(lia) Hf) as [Hfl Hnl].
  rewrite (flag_of_flags _ (Z.lor (Z.lor PTE_R PTE_W) PTE_X)), Hfl by done. change (flag PTE_V _) with false. cbn [negb].
  destruct (Hrec (PTE2PA (load64 (kmem_mem s) (slot pt i))) s l Hk) as (s1 & E1 & Hk1 & Ho1); [by rewrite Ets|done|].
  rewrite Ets in *. rewrite bind_eq, E1. kred. unfold write64. krun. fold (slot pt i).
  assert (Hpt : pg_aligned pt /\ pt ∉ rev ts ++ l).
  { destruct Hr2 as (_ & O & N). unfold us in *. split; [|apply N; apply elem_of_app; right; by left].
    apply Forall_app in O as [_ O]. apply Forall_cons in O as [[? _] _]. done. }
  set (s2 := on_mem (fun m => store64 m (slot pt i) 0) s1).
  assert (Hso : same_outside pt (kmem_mem s1) (kmem_mem s2)) by (apply store64_same_outside; unfold PGSIZE; lia).
  assert (Hk2 : kmem_inv kend s2 (rev ts ++ l)) by (destruct Hpt; by apply (kmem_inv_outside kend s1 _ pt)).
  destruct (below_frame (kmem_mem s) (kmem_mem s1) lev pt i n Ho1) as [Hb Hsub]; [|lia|lia|].
  { destruct Hr as (A & B & _). split; [done|]. split; [done|]. intros p _. apply not_elem_of_nil. }
  change (store64 (kmem_mem s1) (slot pt i) 0) with (kmem_mem s2) in Hb, Hsub.
  destruct (IH (i + 1) s2 (rev ts ++ l)) as (s' & E' & Hk' & Ho'); [lia|lia|done|by rewrite Hb| |].
  { intros j Hj. apply Hsub; [intros; apply Hok; lia|lia]. }
  rewrite Hb in Hk', Ho'. fold us in Hk', Ho'. exists s'. split; [exact E'|]. split.
  - rewrite rev_app_distr, <- app_assoc. exact Hk'.
  - apply same_outside_off in Hso. intros a Ha. rewrite Ho', Hso, Ho1; [done|..]; intros p Hp; apply Ha; apply elem_of_app.
    + by left.
    + subst p. right. unfold us. apply elem_of_app. right. by left.
    + by right.
Qed.

Lemma freewalk_S d pt : freewalk kend (S d) pt = freewalk_entries kend (freewalk kend d) pt 512 0.
Proof using. cbn [freewalk]. reflexivity. Qed.

Lemma freewalk_spec lev pt e s l :
  LkKmem ∉ e_held e -> kmem_inv kend s l -> reclaimable l (tables (kmem_mem s) lev pt) -> no_leaf (kmem_mem s) lev pt ->
  exists s', freewalk kend (S lev) pt e s = Ok tt e s' /\ kmem_inv kend s' (rev (tables (kmem_mem s) lev pt) ++ l) /\
    same_off (fun p => p ∈ tables (kmem_mem s) lev pt) (kmem_mem s) (kmem_mem s').
Proof using Hkend.
  intros Hl. revert pt s l. induction lev as [|lev IH]; intros pt s l Hk Hr Hn.
  - rewrite freewalk_S, freewalk_entries_skip by (intros j Hj; apply Hn; lia). by apply free_table.
  - pose proof (freewalk_entries_spec (freewalk kend (S lev)) lev e pt Hl IH 512 0 s l) as H.
    cbv zeta in H. rewrite <- tables_S in H.
    rewrite freewalk_S. apply H; [lia|lia|exact Hk|exact Hr|].
    intros j Hj Hf. by apply Hn.
Qed.
End freewalk.

(** ** The tables of a labelled tree *)

Lemma NoDup_concat_map {A B} (f : A -> list B) l :
  NoDup l -> (forall i, i ∈ l -> NoDup (f i)) ->
  (forall i j x, i ∈ l -> j ∈ l -> x ∈ f i -> x ∈ f j -> i = j) -> NoDup (concat (map f l)).
Proof.
  induction 1 as [|i l Hi Hl IH]; intros Hf Hd; cbn [map concat]; [constructor|].
  apply NoDup_app. split; [apply Hf; by left|]. split.
  - intros x Hx Hc. apply list_elem_of_In, in_concat in Hc as (k & Hk & Hxk). apply in_map_iff in Hk as (j & <- & Hj).
    apply list_elem_of_In in Hj, Hxk. apply Hi. rewrite (Hd i j x); [done|by left|by right|done|done].
  - apply IH; [intros j Hj; apply Hf; by right|]. intros j k x Hj Hk. apply Hd; by right.
Qed.

Section labelled.
Context (m : mem) (T : gmap Z (nat * Z)) (Hwf : pt_wf m T).

Lemma tables_label lev pt pre p :
  T !! pt = Some (lev, pre) -> p ∈ tables m lev pt ->
  exists k pre', T !! p = Some (k, pre') /\ (k <= lev)%nat /\ pre' / 512 ^ Z.of_nat (lev - k) = pre.
Proof using Hwf.
  revert pt pre. induction lev as [|lev IH]; intros pt pre Hpt Hp.
  - apply list_elem_of_singleton in Hp as ->. exists 0%nat, pre. split; [done|]. split; [done|]. by rewrite Z.div_1_r.
  - rewrite tables_S in Hp. apply elem_of_app in Hp as [Hp|Hp].
    + apply elem_of_below in Hp as (i & Hi & Hp). unfold subtables in Hp. destruct (flag _ _) eqn:Hf; [|by apply elem_of_nil in Hp].
      assert (Hi' : 0 <= i < 512) by lia. destruct (wf_child _ _ Hwf _ _ _ _ Hpt Hi' Hf) as [Hc _].
      destruct (IH _ _ Hc Hp) as (k & pre' & H1 & H2 & H3). exists k, pre'. split; [done|]. split; [lia|].
      replace (S lev - k)%nat with (S (lev - k)) by lia. rewrite Nat2Z.inj_succ, Z.pow_succ_r, Z.mul_comm by lia.
      rewrite <- Z.div_div, H3 by lia. zdm.
    + apply list_elem_of_singleton in Hp as ->. exists (S lev), pre. split; [done|]. split; [done|].
      rewrite Nat.sub_diag. by rewrite Z.div_1_r.
Qed.

Lemma tables_NoDup lev pt pre : T !! pt = Some (lev, pre) -> NoDup (tables m lev pt).
Proof using Hwf.
  revert pt pre. induction lev as [|lev IH]; intros pt pre Hpt; [apply NoDup_singleton|].
  assert (Hsub : forall i p, 0 <= i < 512 -> p ∈ subtables m lev pt i ->
    exists k pre', T !! p = Some (k, pre') /\ (k <= lev)%nat /\ pre' / 512 ^ Z.of_nat (lev - k) = pre * 512 + i).
  { intros i p Hi Hp. unfold subtables in Hp. destruct (flag _ _) eqn:Hf; [|by apply elem_of_nil in Hp].
    destruct (wf_child _ _ Hwf _ _ _ _ Hpt Hi Hf) as [Hc _]. by apply (tables_label lev _ _ p Hc). }
  rewrite tables_S. apply NoDup_app. split; [|split; [|apply NoDup_singleton]].
  - apply NoDup_concat_map; [apply NoDup_seqZ| |].
    + intros i Hi%elem_of_seqZ. unfold subtables. destruct (flag _ _) eqn:Hf; [|constructor].
      assert (Hi' : 0 <= i < 512) by lia. destruct (wf_child _ _ Hwf _ _ _ _ Hpt Hi' Hf) as [Hc _]. by eapply IH.
    + intros i j p Hi%elem_of_seqZ Hj%elem_of_seqZ Hpi Hpj.
      destruct (Hsub i p ltac:(lia) Hpi) as (k & q & H1 & _ & H2), (Hsub j p ltac:(lia) Hpj) as (k' & q' & H1' & _ & H2').
      rewrite H1 in H1'. injection H1' as <- <-. lia.
  - intros p Hp%elem_of_below Hq%list_elem_of_singleton. subst p. destruct Hp as (i & Hi & Hp).
    destruct (Hsub i pt ltac:(lia) Hp) as (k & q & H1 & H2 & _). rewrite Hpt in H1. injection H1 as <- _. lia.
Qed.

(** A tree that translates nothing has no leaf. *)
Lemma no_leaf_pte lev pt pre :
  T !! pt = Some (lev, pre) -> 0 <= pre ->
  (forall va, 0 <= va -> vprefix lev va = pre -> flag (pte_from m lev pt va) PTE_V = false) -> no_leaf m lev pt.
Proof using Hwf.
  revert pt pre. induction lev as [|lev IH]; intros pt pre Hpt Hpre Hn; cbn [no_leaf]; intros i Hi.
  - set (va := pre * 2097152 + i * 4096). assert (Hva : 0 <= va) by (unfold va; lia).
    assert (Hv : vprefix 0 va = pre) by (unfold vprefix; change (2 ^ (12 + 9 * (Z.of_nat 0 + 1))) with 2097152; unfold va; zdm).
    pose proof (vpn_prefix va Hva) as Hvp. rewrite Hv in Hvp. specialize (Hn va Hva Hv). unfold pte_from in Hn. cbn [pt_leaf] in Hn.
    replace (PX 0 va) with i in Hn; [done|].
    assert (va / PGSIZE = pre * 512 + i) by (unfold va, PGSIZE; zdm). lia.
  - intros Hf. destruct (wf_child _ _ Hwf _ _ _ _ Hpt Hi Hf) as [Hc Hfl]. split; [done|].
    apply (IH _ _ Hc); [lia|]. intros va Hva Hv.
    pose proof (vprefix_child lev va Hva) as Hch. pose proof (PX_range (Z.of_nat (S lev)) va ltac:(lia)) as Hpx.
    assert (vprefix (S lev) va = pre /\ PX (Z.of_nat (S lev)) va = i) as [H1 H2] by lia.
    specialize (Hn va Hva H1). unfold pte_from in *. cbn [pt_leaf] in Hn. by rewrite H2, Hf in Hn.
Qed.

Lemma tables_same_tree m' lev pt pre :
  same_tree T m m' -> T !! pt = Some (lev, pre) -> tables m' lev pt = tables m lev pt.
Proof using Hwf.
  intros Hs. revert pt pre. induction lev as [|lev IH]; intros pt pre Hpt; [done|].
  rewrite !tables_S. f_equal. unfold below. f_equal. apply map_ext_in. intros i Hi%list_elem_of_In%elem_of_seqZ.
  unfold subtables. rewrite (Hs pt lev pre) by (done || lia). destruct (flag _ _) eqn:Hf; [|done].
  assert (Hi' : 0 <= i < 512) by lia. destruct (wf_child _ _ Hwf _ _ _ _ Hpt Hi' Hf) as [Hc _]. by eapply IH.
Qed.
End labelled.
