(* ===== verification/Reclaim.v ===== *)
(** * Giving an address space back: uvmfree() and what proc_freepagetable() does

    The pages of a process's memory and the pages of its page table are free
    again, each of them once, and no other page is; the pages of the
    trampoline and the trapframe are unmapped and kept. *)

From S2P Require Import Prelude KMonad CString Riscv Kalloc Vm PageTable VmSpec FreeWalk.

Open Scope kmonad_scope.

(** ** Reference *)

(** The pages of a user memory of [sz] bytes. *)
Definition user_pages (m : mem) (root sz : Z) : list Z := pages_of m root 0 (Z.to_nat (PGROUNDUP sz / PGSIZE)).

(** The address space of a process: [sz] bytes from 0, and the two pages at the
    top, the trapframe and the trampoline. *)
Record aspace (m : mem) (T : gmap Z (nat * Z)) (root sz : Z) : Prop := {
  as_root : T !! root = Some (2%nat, 0);
  as_low : low T;
  as_size : 0 <= sz <= TRAPFRAME;
  as_user : leaves m root 0 (PGROUNDUP sz / PGSIZE);
  as_top : leaves m root TRAPFRAME 2;
  as_rest : forall x, PGROUNDUP sz <= x < TRAPFRAME -> flag (pte_of m root x) PTE_V = false
}.

(** It is not affected by what happens in pages that are not its tables. *)
Lemma aspace_frame (P : Z -> Prop) m m' T root sz :
  pt_wf m T -> same_off P m m' -> (forall q, P q -> pg_aligned q /\ T !! q = None) -> aspace m T root sz ->
  aspace m' T root sz /\ user_pages m' root sz = user_pages m root sz /\ tables m' 2 root = tables m 2 root.
Proof.
  intros Hwf Ho HP [Hr Hlow Hsz Hu Htop Hrest]. destruct (pt_frame m m' T P Hwf Ho HP) as [_ Hpt].
  assert (Hp : forall x, pte_of m' root x = pte_of m root x) by (intros x; by eapply Hpt). split; [|split].
  - split; try done; intros x Hx; rewrite Hp; [by apply Hu|by apply Htop|by apply Hrest].
  - apply pages_of_ext. intros x _. apply Hp.
  - apply (tables_same_tree m T Hwf m' 2 root 0); [|done]. eapply same_off_tree; [done|exact Ho|].
    intros q Hq. destruct (HP q Hq) as [? ->]. done.
Qed.

Section reclaim.
Context (kend : Z) (Hkend : 0 < kend).
Local Abbreviation vmi := (vmi kend).
Local Abbreviation freeable := (freeable kend).

(** ** The address space *)

Lemma uvmunmap_spec do_free n root s l T e a :
  LkKmem ∉ e_held e -> vmi s l T -> T !! root = Some (2%nat, 0) ->
  pg_aligned a -> 0 <= a -> a + Z.of_nat n * PGSIZE <= MAXVA ->
  leaves (kmem_mem s) root a (Z.of_nat n) ->
  freeable l T (released do_free (pages_of (kmem_mem s) root a n)) ->
  exists s',
    uvmunmap kend root a (Z.of_nat n) do_free e s = Ok tt e s' /\
    vmi s' (rev (released do_free (pages_of (kmem_mem s) root a n)) ++ l) T /\
    (forall x, 0 <= x < MAXVA ->
       pte_of (kmem_mem s') root x =
       if decide (a <= x < a + Z.of_nat n * PGSIZE) then 0 else pte_of (kmem_mem s) root x) /\
    same_off (fun p => is_Some (T !! p) \/ p ∈ released do_free (pages_of (kmem_mem s) root a n))
      (kmem_mem s) (kmem_mem s') /\
    same_tree T (kmem_mem s) (kmem_mem s').
Proof using Hkend.
  intros Hl Hv Hr Ha Ha0 Hb Hlv Hfr. unfold uvmunmap. pose proof Ha as Ha'. unfold pg_aligned in Ha'. rewrite Ha'. cbn [negb Z.eqb].
  rewrite Nat2Z.id, u64_small by (change MAXVA with 274877906944 in Hb; unfold PGSIZE in *; lia).
  by apply uvmunmap_loop_spec.
Qed.

(** Without leaves below MAXVA the tree has none at all. *)
Lemma unmapped_no_leaf s l T root :
  vmi s l T -> T !! root = Some (2%nat, 0) -> low T ->
  (forall x, 0 <= x < MAXVA -> flag (pte_of (kmem_mem s) root x) PTE_V = false) -> no_leaf (kmem_mem s) 2 root.
Proof using.
  intros Hv Hr Hlow Hn. apply (no_leaf_pte _ T (vmi_wf _ _ _ _ Hv) 2 root 0 Hr); [done|]. intros va Hva Hpre.
  destruct (Z.lt_ge_cases va MAXVA) as [Hlt|Hge]; [by apply Hn|].
  unfold pte_from. cbn [pt_leaf]. change (Z.of_nat 2) with 2.
  destruct (flag (load64 (kmem_mem s) (slot root (PX 2 va))) PTE_V) eqn:Hf; [|done].
  destruct (wf_child _ _ (vmi_wf _ _ _ _ Hv) _ _ _ _ Hr (PX_range 2 va ltac:(lia)) Hf) as [Hc _].
  apply Hlow in Hc. rewrite PX_eq in Hc by lia. unfold vprefix in Hpre.
  change (2 ^ (12 + 9 * (Z.of_nat 2 + 1))) with 549755813888 in Hpre. change (2 ^ (12 + 9 * 2)) with 1073741824 in Hc.
  change MAXVA with 274877906944 in Hge. zdm.
Qed.

(** What uvmfree() does before freewalk(). *)
Lemma user_unmap root sz s l T e :
  let m := kmem_mem s in
  LkKmem ∉ e_held e -> vmi s l T -> T !! root = Some (2%nat, 0) -> 0 <= sz <= MAXVA ->
  leaves m root 0 (PGROUNDUP sz / PGSIZE) -> freeable l T (user_pages m root sz) ->
  (forall x, PGROUNDUP sz <= x < MAXVA -> flag (pte_of m root x) PTE_V = false) ->
  exists s1, (when 0 <? sz do uvmunmap kend root 0 (PGROUNDUP sz / PGSIZE) true) e s = Ok tt e s1 /\
    vmi s1 (rev (user_pages m root sz) ++ l) T /\ (forall x, 0 <= x < MAXVA -> flag (pte_of (kmem_mem s1) root x) PTE_V = false) /\
    same_off (fun p => is_Some (T !! p) \/ p ∈ user_pages m root sz) m (kmem_mem s1) /\ same_tree T m (kmem_mem s1).
Proof using Hkend.
  intros m Hl Hv Hr Hsz Hlv Hfr Hrest. assert (HM : MAXVA = 274877906944) by done.
  destruct (Z.ltb_spec 0 sz) as [Hp|Hp].
  - pose proof (PGROUNDUP_bounds sz) as Hb. pose proof (PGROUNDUP_aligned sz) as Ha. unfold pg_aligned, PGSIZE in Hb, Ha.
    set (n := Z.to_nat (PGROUNDUP sz / PGSIZE)).
    assert (Hn : Z.of_nat n = PGROUNDUP sz / PGSIZE) by (unfold n, PGSIZE; zdm).
    assert (Hup : PGROUNDUP sz = Z.of_nat n * PGSIZE) by (rewrite Hn; unfold PGSIZE; zdm).
    destruct (uvmunmap_spec true n root s l T e 0) as (s1 & E & Hv1 & Hpte & Ho & Ht); try done;
      [unfold PGSIZE in *; zdm|by rewrite Hn|].
    rewrite Hn in E. exists s1. split; [done|]. split; [done|]. split; [|done]. intros x Hx. rewrite Hpte by done.
    case_decide as Hd; [done|]. apply Hrest. lia.
  - assert (sz = 0) as -> by lia. exists s. split; [done|]. split; [done|]. split; [|split; [apply same_off_refl|done]].
    intros x Hx. by apply Hrest.
Qed.

Lemma uvmfree_spec root sz s l T e :
  let m := kmem_mem s in
  LkKmem ∉ e_held e -> vmi s l T -> T !! root = Some (2%nat, 0) ->
  low T -> (forall p, is_Some (T !! p) -> page_ok kend p) ->
  0 <= sz <= MAXVA -> leaves m root 0 (PGROUNDUP sz / PGSIZE) -> freeable l T (user_pages m root sz) ->
  (forall x, PGROUNDUP sz <= x < MAXVA -> flag (pte_of m root x) PTE_V = false) ->
  exists s', uvmfree kend root sz e s = Ok tt e s' /\
    kmem_inv kend s' (rev (tables m 2 root) ++ rev (user_pages m root sz) ++ l) /\
    same_off (fun p => is_Some (T !! p) \/ p ∈ user_pages m root sz) m (kmem_mem s').
Proof using Hkend.
  intros m Hl Hv Hr Hlow Hok Hsz Hlv Hfr Hrest.
  destruct (user_unmap root sz s l T e) as (s1 & E1 & Hv1 & Hp1 & Ho1 & Ht1); try done. fold m in Hv1, Ho1, Ht1.
  pose proof (tables_same_tree m T (vmi_wf _ _ _ _ Hv) (kmem_mem s1) 2 root 0 Ht1 Hr) as Htab.
  assert (Hin : forall p, p ∈ tables m 2 root -> is_Some (T !! p)).
  { intros p Hp. destruct (tables_label m T (vmi_wf _ _ _ _ Hv) 2 root 0 p Hr Hp) as (k & pre & H & _). by eexists. }
  destruct (freewalk_spec kend Hkend 2 root e s1 (rev (user_pages m root sz) ++ l) Hl) as (s' & E' & Hk' & Ho').
  - apply Hv1.
  - rewrite Htab. split; [by apply (tables_NoDup m T (vmi_wf _ _ _ _ Hv) 2 root 0)|]. split.
    + apply Forall_forall. intros p Hp. by apply Hok, Hin.
    + intros p Hp Hf. apply (vmi_free _ _ _ _ Hv1) in Hf. destruct (Hin p Hp) as [? Hs]. by rewrite Hf in Hs.
  - by apply (unmapped_no_leaf s1 _ T root Hv1).
  - rewrite Htab in Hk', Ho'. exists s'. unfold uvmfree. rewrite bind_eq, E1. kred. split; [exact E'|]. split; [done|].
    eapply same_off_mono; [|eapply same_off_trans; [exact Ho1|exact Ho']]. cbn beta. intros p [?|Hp]; [done|]. left. by apply Hin.
Qed.

(** One page is unmapped and kept. *)
Lemma unmap_kept root s l T e a :
  LkKmem ∉ e_held e -> vmi s l T -> T !! root = Some (2%nat, 0) -> pg_aligned a -> 0 <= a < MAXVA ->
  leaves (kmem_mem s) root a 1 ->
  exists s', uvmunmap kend root a 1 false e s = Ok tt e s' /\ vmi s' l T /\
    (forall x, 0 <= x < MAXVA ->
       pte_of (kmem_mem s') root x = if decide (a <= x < a + PGSIZE) then 0 else pte_of (kmem_mem s) root x) /\
    same_off (fun p => is_Some (T !! p)) (kmem_mem s) (kmem_mem s') /\ same_tree T (kmem_mem s) (kmem_mem s').
Proof using Hkend.
  intros Hl Hv Hr Ha Hb Hlv.
  destruct (uvmunmap_spec false 1 root s l T e a) as (s' & E & Hv' & Hp & Ho & Ht); try done; try lia.
  { change MAXVA with 274877906944 in *. unfold pg_aligned, PGSIZE in *. zdm. }
  { split; [constructor|]. split; constructor. }
  exists s'. split; [done|]. split; [done|]. split; [|split; [|done]].
  - intros x Hx. rewrite Hp by done. by replace (a + Z.of_nat 1 * PGSIZE) with (a + PGSIZE) by lia.
  - eapply same_off_mono; [|exact Ho]. cbn beta. intros p [?|Hn]; [done|]. by apply elem_of_nil in Hn.
Qed.

Lemma aspace_roundup m T root sz : aspace m T root sz -> sz <= PGROUNDUP sz <= TRAPFRAME.
Proof using.
  intros []. pose proof (PGROUNDUP_bounds sz) as Hb. pose proof (PGROUNDUP_aligned sz) as Ha.
  change TRAPFRAME with 274877898752 in *. unfold pg_aligned, PGSIZE in *. zdm.
Qed.

(** proc_freepagetable() *)
Lemma freepagetable_spec root sz s l T e :
  let m := kmem_mem s in
  LkKmem ∉ e_held e -> vmi s l T -> aspace m T root sz -> (forall p, is_Some (T !! p) -> page_ok kend p) ->
  freeable l T (user_pages m root sz) ->
  exists s1 s2 s', uvmunmap kend root TRAMPOLINE 1 false e s = Ok tt e s1 /\ uvmunmap kend root TRAPFRAME 1 false e s1 = Ok tt e s2 /\
    uvmfree kend root sz e s2 = Ok tt e s' /\
    kmem_inv kend s' (rev (tables m 2 root) ++ rev (user_pages m root sz) ++ l) /\
    same_off (fun p => is_Some (T !! p) \/ p ∈ user_pages m root sz) m (kmem_mem s').
Proof using Hkend.
  intros m Hl Hv Has Hok Hfr. pose proof (aspace_roundup _ _ _ _ Has) as Hup. destruct Has as [Hr Hlow Hsz Hu Htop Hrest].
  assert (HM : MAXVA = 274877906944) by done. assert (HT : TRAPFRAME = 274877898752) by done.
  assert (HA : TRAMPOLINE = 274877902848) by done. assert (HP : PGSIZE = 4096) by done.
  destruct (unmap_kept root s l T e TRAMPOLINE) as (s1 & E1 & Hv1 & Hp1 & Ho1 & Ht1); try done; try lia.
  { intros x Hx. apply Htop. lia. }
  destruct (unmap_kept root s1 l T e TRAPFRAME) as (s2 & E2 & Hv2 & Hp2 & Ho2 & Ht2); try done; try lia.
  { intros x Hx. rewrite Hp1 by lia. rewrite decide_False by lia. apply Htop. lia. }
  assert (Hp : forall x, 0 <= x < TRAPFRAME -> pte_of (kmem_mem s2) root x = pte_of m root x).
  { intros x Hx. rewrite Hp2, decide_False, Hp1, decide_False by lia. done. }
  assert (Hup' : Z.of_nat (Z.to_nat (PGROUNDUP sz / PGSIZE)) * PGSIZE = PGROUNDUP sz).
  { pose proof (PGROUNDUP_aligned sz) as Ha. unfold pg_aligned in Ha. rewrite HP in *. zdm. }
  assert (Hpg : user_pages (kmem_mem s2) root sz = user_pages m root sz).
  { apply pages_of_ext. intros x Hx. apply Hp. lia. }
  assert (Htab : tables (kmem_mem s2) 2 root = tables m 2 root).
  { apply (tables_same_tree m T (vmi_wf _ _ _ _ Hv) _ 2 root 0); [|done]. by eapply same_tree_trans. }
  destruct (uvmfree_spec root sz s2 l T e) as (s' & E' & Hk' & Ho'); try done; try lia.
  { intros x Hx. rewrite Hp by (rewrite HP in *; zdm). by apply Hu. }
  { by rewrite Hpg. }
  { intros x Hx. rewrite Hp2 by lia. case_decide; [done|]. rewrite Hp1 by lia. case_decide; [done|]. apply Hrest. lia. }
  rewrite Hpg, Htab in *. exists s1, s2, s'. do 3 (split; [done|]). split; [done|].
  eapply same_off_mono; [|eapply same_off_trans; [eapply same_off_trans; [exact Ho1|exact Ho2]|exact Ho']].
  cbn beta. intros p. tauto.
Qed.
End reclaim.
