(* ===== verification/UCopy.v ===== *)
(** * User memory: copyin, copyout, copyinstr and walkaddr of kernel/vm.c

    Reference definitions that read and write user memory one byte at a
    time, translating every byte, and the proofs that the page-at-a-time
    loops of vm.c compute the same thing. *)

From S2P Require Import Prelude KMonad CString Riscv Kalloc Vm PageTable VmSpec.
Open Scope kmonad_scope.

(** ** Reference definitions *)

(** The page walkaddr() finds for [va]; 0 when the address is not user memory. *)
Definition user_page (m : mem) (root va : Z) : Z :=
  if MAXVA <=? va then 0
  else let v := pte_of m root va in
       if flag v PTE_V && flag v PTE_U then PTE2PA v else 0.

(** The physical address of the user byte at [va]. *)
Definition uaddr (m : mem) (root va : Z) : option Z :=
  if user_page m root va =? 0 then None
  else Some (user_page m root va + va mod PGSIZE).

(** The same for a byte the user may write. *)
Definition uwaddr (m : mem) (root va : Z) : option Z :=
  if MAXVA <=? va then None
  else let v := pte_of m root va in
       if flag v PTE_V && flag v PTE_U && flag v PTE_W
       then Some (PTE2PA v + va mod PGSIZE) else None.

Fixpoint uread (m : mem) (root va : Z) (n : nat) : Z * list Z :=
  match n with
  | O => (0, [])
  | S n =>
      match uaddr m root va with
      | None => (-1, [])
      | Some pa => let r := uread m root (va + 1) n in (r.1, mget m pa :: r.2)
      end
  end.

Fixpoint ureadstr (m : mem) (root va : Z) (n : nat) : Z * list Z :=
  match n with
  | O => (-1, [])
  | S n =>
      match uaddr m root va with
      | None => (-1, [])
      | Some pa =>
          if mget m pa =? 0 then (0, [0])
          else let r := ureadstr m root (va + 1) n in (r.1, mget m pa :: r.2)
      end
  end.

Fixpoint uwrite (m : mem) (root va : Z) (src : list Z) : Z * mem :=
  match src with
  | [] => (0, m)
  | b :: src =>
      match uwaddr m root va with
      | None => (-1, m)
      | Some pa => uwrite (<[pa := b]> m) root (va + 1) src
      end
  end.

(** The bytes the user may write are in no page-table page. *)
Definition user_safe (m : mem) (root : Z) (T : gmap Z (nat * Z)) : Prop :=
  forall va pa, 0 <= va -> uwaddr m root va = Some pa -> T !! PGROUNDDOWN pa = None.

(** ** walkaddr *)

Lemma walk_leaf m T root va :
  pt_wf m T -> T !! root = Some (2%nat, 0) -> 0 <= va < MAXVA ->
  match pt_leaf m 2 root va with
  | Some p => slot p (PX 0 va) <> 0 /\ load64 m (slot p (PX 0 va)) = pte_of m root va
  | None => pte_of m root va = 0
  end.
Proof.
  intros Hwf Hr Hva. unfold pte_of, pte_from.
  destruct (pt_leaf m 2 root va) as [p|] eqn:Hp; [|done]. split; [|done].
  pose proof (pt_leaf_label m T 2 root va p Hwf) as Hlab.
  destruct (wf_page _ _ Hwf p 0%nat (vprefix 0 va)) as [_ ?].
  - apply Hlab; [lia| |done]. by rewrite vprefix_root.
  - unfold slot. pose proof (PX_range 0 va). lia.
Qed.

(** walk() followed by the load of the entry it returns, as the callers that
    do not allocate use it: [None] when there is no table. *)
Lemma walk_load {A} T root va e s (no : K kmem A) (yes : Z -> Z -> K kmem A) r :
  pt_wf (kmem_mem s) T -> T !! root = Some (2%nat, 0) -> 0 <= va < MAXVA ->
  (pte_of (kmem_mem s) root va = 0 -> no e s = r) ->
  (forall p, p <> 0 -> yes p (pte_of (kmem_mem s) root va) e s = r) ->
  (pte <- walk root va false ;;
   if pte =? 0 then no else v <- read64 pte ;; yes pte v) e s = r.
Proof.
  intros Hwf Hr Hva Hno Hyes. rewrite bind_eq, walk_false by done. kred.
  pose proof (walk_leaf _ _ _ _ Hwf Hr Hva) as Hl.
  destruct (pt_leaf _ _ _ _) as [p|].
  - destruct Hl as [Hnz Hld]. rewrite (proj2 (Z.eqb_neq _ _)) by done.
    unfold read64. rewrite bind_eq. unfold gets. kred. rewrite Hld. by apply Hyes.
  - by apply Hno.
Qed.

Lemma walkaddr_eq T root va e s :
  pt_wf (kmem_mem s) T -> T !! root = Some (2%nat, 0) -> 0 <= va ->
  walkaddr root va e s = Ok (user_page (kmem_mem s) root va) e s.
Proof.
  intros Hwf Hr Hva. unfold walkaddr, user_page.
  destruct (Z.leb_spec MAXVA va); [done|].
  eapply walk_load; [done..| |].
  - intros ->. done.
  - intros p _. destruct (flag _ PTE_V), (flag _ PTE_U); done.
Qed.

Lemma user_page_same m root va va' :
  0 <= va -> 0 <= va' -> va' / PGSIZE = va / PGSIZE ->
  user_page m root va' = user_page m root va.
Proof.
  intros Hva Hva' Hpg. unfold user_page. rewrite (same_page_pte m root va va') by done.
  change MAXVA with 274877906944. unfold PGSIZE in *.
  destruct (Z.leb_spec 274877906944 va'), (Z.leb_spec 274877906944 va); try done; exfalso; zdm.
Qed.

(** ** Reading within one page *)

Section page_read.
Variables (m : mem) (root : Z).

Lemma uaddr_in_page va i :
  0 <= va -> 0 <= i -> va mod PGSIZE + i < PGSIZE -> user_page m root va <> 0 ->
  uaddr m root (va + i) = Some (user_page m root va + va mod PGSIZE + i).
Proof.
  intros Hva Hi Hb Hu. unfold uaddr.
  rewrite (user_page_same m root va (va + i)) by (unfold PGSIZE in *; zdm).
  rewrite (proj2 (Z.eqb_neq _ _)) by done. f_equal. unfold PGSIZE in *. zdm.
Qed.

Lemma uread_page va (k n : nat) :
  0 <= va -> va mod PGSIZE + Z.of_nat k <= PGSIZE -> user_page m root va <> 0 ->
  uread m root va (k + n) =
    let r := uread m root (va + Z.of_nat k) n in
    (r.1, mread m (user_page m root va + va mod PGSIZE) k ++ r.2).
Proof.
  intros Hva Hk Hu.
  enough (H : forall j i, 0 <= i -> va mod PGSIZE + i + Z.of_nat j <= PGSIZE ->
    uread m root (va + i) (j + n) =
      let r := uread m root (va + i + Z.of_nat j) n in
      (r.1, mread m (user_page m root va + va mod PGSIZE + i) j ++ r.2)).
  { specialize (H k 0). rewrite !Z.add_0_r in H. apply H; lia. }
  induction j as [|j IH]; intros i Hi Hj; cbn [uread mread Nat.add].
  - rewrite Z.add_0_r. cbn zeta. by destruct (uread _ _ _ _).
  - rewrite uaddr_in_page by (done || lia). rewrite <- !Z.add_assoc, IH by lia.
    cbn zeta. rewrite <- !Z.add_assoc.
    replace (i + Z.of_nat (S j)) with (i + (1 + Z.of_nat j)) by lia. done.
Qed.

Lemma ureadstr_page va (k n : nat) :
  0 <= va -> va mod PGSIZE + Z.of_nat k <= PGSIZE -> user_page m root va <> 0 ->
  ureadstr m root va (k + n) =
    let pg := copyinstr_page m (user_page m root va + va mod PGSIZE) k in
    if pg.2 then (0, pg.1)
    else let r := ureadstr m root (va + Z.of_nat k) n in (r.1, pg.1 ++ r.2).
Proof.
  intros Hva Hk Hu.
  enough (H : forall j i, 0 <= i -> va mod PGSIZE + i + Z.of_nat j <= PGSIZE ->
    ureadstr m root (va + i) (j + n) =
      let pg := copyinstr_page m (user_page m root va + va mod PGSIZE + i) j in
      if pg.2 then (0, pg.1)
      else let r := ureadstr m root (va + i + Z.of_nat j) n in (r.1, pg.1 ++ r.2)).
  { specialize (H k 0). rewrite !Z.add_0_r in H. apply H; lia. }
  induction j as [|j IH]; intros i Hi Hj; cbn [ureadstr copyinstr_page Nat.add].
  - rewrite Z.add_0_r. cbn. by destruct (ureadstr _ _ _ _).
  - rewrite uaddr_in_page by (done || lia). destruct (_ =? 0); [done|].
    rewrite <- !Z.add_assoc, IH by lia. cbn zeta. rewrite <- !Z.add_assoc.
    destruct (copyinstr_page _ _ j) as [bs []]; cbn [fst snd]; [done|].
    replace (i + Z.of_nat (S j)) with (i + (1 + Z.of_nat j)) by lia. done.
Qed.
End page_read.

(** ** copyin and copyinstr *)

(** The chunk one iteration handles: up to the end of the page. *)
Lemma chunk_bounds va len :
  0 <= va -> 0 < len ->
  let n0 := PGSIZE - (va - PGROUNDDOWN va) in
  let n := if len <? n0 then len else n0 in
  0 < n <= len /\ va mod PGSIZE + n <= PGSIZE /\ va - PGROUNDDOWN va = va mod PGSIZE /\
  (len - n = 0 \/ PGROUNDDOWN va + PGSIZE = va + n).
Proof.
  intros Hva Hlen. cbn zeta. rewrite PGROUNDDOWN_eq by lia.
  destruct (Z.ltb_spec len (PGSIZE - (va - va / PGSIZE * PGSIZE))); unfold PGSIZE in *; zdm.
Qed.

Lemma user_page_round m root va :
  0 <= va -> user_page m root (PGROUNDDOWN va) = user_page m root va.
Proof.
  intros Hva. rewrite PGROUNDDOWN_eq by lia.
  apply user_page_same; [done|unfold PGSIZE; zdm..].
Qed.

Lemma next_page_small m root va :
  0 <= va -> user_page m root va <> 0 ->
  u64 (PGROUNDDOWN va + PGSIZE) = PGROUNDDOWN va + PGSIZE.
Proof.
  intros Hva Hu. apply u64_small. unfold user_page in Hu.
  destruct (Z.leb_spec MAXVA va); [done|]. change MAXVA with 274877906944 in *.
  rewrite PGROUNDDOWN_eq by lia. unfold PGSIZE. zdm.
Qed.

Section copyin.
Variables (T : gmap Z (nat * Z)) (root : Z) (e : env) (s : kmem).
Hypothesis Hwf : pt_wf (kmem_mem s) T.
Hypothesis Hroot : T !! root = Some (2%nat, 0).

Lemma copyin_loop_eq fuel va len :
  0 <= len <= Z.of_nat fuel -> 0 <= va ->
  copyin_loop fuel root va len e s = Ok (uread (kmem_mem s) root va (Z.to_nat len)) e s.
Proof.
  revert va len. induction fuel as [|fuel IH]; intros va len Hlen Hva; cbn [copyin_loop].
  { by replace len with 0 by lia. }
  destruct (Z.ltb_spec 0 len) as [Hpos|]; [|by replace len with 0 by lia].
  destruct (chunk_bounds va len Hva Hpos) as (Hn & Hpg & Hoff & Hnext). cbn zeta in *.
  set (n := if len <? _ then len else _) in *. cbn zeta.
  rewrite bind_eq, (walkaddr_eq T), user_page_round by (done || (rewrite PGROUNDDOWN_eq by lia; unfold PGSIZE; zdm)).
  kred. destruct (Z.eqb_spec (user_page (kmem_mem s) root va) 0) as [Hz|Hnz].
  - replace (Z.to_nat len) with (S (Z.to_nat (len - 1))) by lia. cbn [uread].
    unfold uaddr. by rewrite Hz.
  - rewrite bind_eq. unfold gets at 1. kred. rewrite Hoff, (next_page_small (kmem_mem s) root) by done.
    rewrite bind_eq, IH by (rewrite ?PGROUNDDOWN_eq by lia; unfold PGSIZE in *; first [lia|zdm]).
    kred. replace (Z.to_nat len) with (Z.to_nat n + Z.to_nat (len - n))%nat by lia.
    rewrite uread_page by (rewrite ?Z2Nat.id by lia; done). cbn zeta.
    destruct Hnext as [->|Hnx]; [done|]. by rewrite Hnx, Z2Nat.id by lia.
Qed.

Lemma copyinstr_loop_eq fuel va max :
  0 <= max <= Z.of_nat fuel -> 0 <= va ->
  copyinstr_loop fuel root va max e s = Ok (ureadstr (kmem_mem s) root va (Z.to_nat max)) e s.
Proof.
  revert va max. induction fuel as [|fuel IH]; intros va max Hlen Hva; cbn [copyinstr_loop].
  { by replace max with 0 by lia. }
  destruct (Z.ltb_spec 0 max) as [Hpos|]; [|by replace max with 0 by lia].
  destruct (chunk_bounds va max Hva Hpos) as (Hn & Hpg & Hoff & Hnext). cbn zeta in *.
  set (n := if max <? _ then max else _) in *. cbn zeta.
  rewrite bind_eq, (walkaddr_eq T), user_page_round by (done || (rewrite PGROUNDDOWN_eq by lia; unfold PGSIZE; zdm)).
  kred. destruct (Z.eqb_spec (user_page (kmem_mem s) root va) 0) as [Hz|Hnz].
  - replace (Z.to_nat max) with (S (Z.to_nat (max - 1))) by lia. cbn [ureadstr].
    unfold uaddr. by rewrite Hz.
  - rewrite bind_eq. unfold gets at 1. kred. rewrite Hoff.
    replace (Z.to_nat max) with (Z.to_nat n + Z.to_nat (max - n))%nat by lia.
    rewrite ureadstr_page by (rewrite ?Z2Nat.id by lia; done). cbn zeta.
    destruct (copyinstr_page _ _ _) as [bs []]; cbn [fst snd]; [done|].
    rewrite (next_page_small (kmem_mem s) root) by done.
    rewrite bind_eq, IH by (rewrite ?PGROUNDDOWN_eq by lia; unfold PGSIZE in *; first [lia|zdm]).
    kred. destruct Hnext as [->|Hnx]; [done|]. by rewrite Hnx, Z2Nat.id by lia.
Qed.
End copyin.

(** ** copyout *)

Lemma uwaddr_same m root va i pa :
  0 <= va -> 0 <= i -> va mod PGSIZE + i < PGSIZE -> uwaddr m root va = Some pa ->
  uwaddr m root (va + i) = Some (pa + i).
Proof.
  intros Hva Hi Hb. unfold uwaddr.
  rewrite (same_page_pte m root va (va + i)) by (unfold PGSIZE in *; zdm).
  change MAXVA with 274877906944. unfold PGSIZE in *.
  destruct (Z.leb_spec 274877906944 (va + i)), (Z.leb_spec 274877906944 va); try done;
    try (exfalso; zdm).
  destruct (_ && _); [|done]. intros [= <-]. f_equal. zdm.
Qed.

Lemma uwaddr_ext m m' root va :
  pte_of m' root va = pte_of m root va -> uwaddr m' root va = uwaddr m root va.
Proof. intros H. unfold uwaddr. by rewrite H. Qed.

(** A store to user memory leaves the tables as they are. *)
Lemma ustore_frame m T root va pa b :
  pt_wf m T -> T !! root = Some (2%nat, 0) -> user_safe m root T -> 0 <= va ->
  uwaddr m root va = Some pa ->
  pt_wf (<[pa := b]> m) T /\ user_safe (<[pa := b]> m) root T /\
  forall x, pte_of (<[pa := b]> m) root x = pte_of m root x.
Proof.
  intros Hwf Hr Hs Hva Hpa.
  destruct (pt_frame m (<[pa := b]> m) T (fun p => p = PGROUNDDOWN pa)) as [Hwf' Hpte].
  - done.
  - intros a Ha. rewrite mget_insert, decide_False; [done|]. intros ->.
    apply (Ha _ eq_refl), PGROUNDDOWN_bounds.
  - intros p ->. split; [apply PGROUNDDOWN_aligned|by eapply Hs].
  - assert (Hx : forall x, pte_of (<[pa := b]> m) root x = pte_of m root x)
      by (intros x; by eapply Hpte).
    split; [done|]. split; [|done]. intros v p Hv. rewrite (uwaddr_ext m) by done. by apply Hs.
Qed.

Lemma uwrite_page m T root va pa l1 l2 :
  pt_wf m T -> T !! root = Some (2%nat, 0) -> user_safe m root T -> 0 <= va ->
  uwaddr m root va = Some pa -> va mod PGSIZE + Z.of_nat (length l1) <= PGSIZE ->
  let m' := mwrite m pa l1 in
  uwrite m root va (l1 ++ l2) = uwrite m' root (va + Z.of_nat (length l1)) l2 /\
  pt_wf m' T /\ user_safe m' root T.
Proof.
  intros Hwf Hr Hs Hva Hpa Hb.
  enough (H : forall l1 m i, pt_wf m T -> user_safe m root T -> uwaddr m root va = Some pa ->
    0 <= i -> va mod PGSIZE + i + Z.of_nat (length l1) <= PGSIZE ->
    let m' := mwrite m (pa + i) l1 in
    uwrite m root (va + i) (l1 ++ l2) = uwrite m' root (va + i + Z.of_nat (length l1)) l2 /\
    pt_wf m' T /\ user_safe m' root T).
  { specialize (H l1 m 0). rewrite !Z.add_0_r in H. apply H; auto; lia. }
  clear - Hr Hva. intros l1. induction l1 as [|b l1 IH]; intros m i Hwf Hs Hpa Hi Hb;
    cbn [mwrite app uwrite length] in *.
  { by rewrite Z.add_0_r. }
  rewrite (uwaddr_same m root va i pa) by (done || lia).
  destruct (ustore_frame m T root (va + i) (pa + i) b) as (Hwf' & Hs' & Hpte); auto; [lia| |].
  { apply uwaddr_same; auto; lia. }
  destruct (IH (<[pa + i := b]> m) (i + 1)) as (H1 & H2 & H3); auto; try lia.
  { by rewrite (uwaddr_ext m). }
  rewrite <- !Z.add_assoc in *. replace (i + Z.of_nat (S (length l1))) with (i + (1 + Z.of_nat (length l1))) by lia.
  done.
Qed.

Lemma MAXVA_round va : (MAXVA <=? PGROUNDDOWN va) = (MAXVA <=? va).
Proof.
  rewrite PGROUNDDOWN_eq. change MAXVA with (67108864 * PGSIZE). unfold PGSIZE.
  destruct (Z.leb_spec (67108864 * 4096) (va / 4096 * 4096)), (Z.leb_spec (67108864 * 4096) va);
    try done; exfalso; zdm.
Qed.

Lemma uwaddr_next_small m root va pa :
  0 <= va -> uwaddr m root va = Some pa -> 0 <= PGROUNDDOWN va + PGSIZE < 2 ^ 64.
Proof.
  intros Hva. unfold uwaddr. destruct (Z.leb_spec MAXVA va); [done|]. intros _.
  pose proof (PGROUNDDOWN_bounds va). change MAXVA with 274877906944 in *. unfold PGSIZE in *. lia.
Qed.

(** The checks copyout() makes on a page are those of [uwaddr]. *)
Lemma copyout_access T root va e s (k : Z -> K kmem Z) :
  0 <= va -> pt_wf (kmem_mem s) T -> T !! root = Some (2%nat, 0) ->
  (if MAXVA <=? PGROUNDDOWN va then ret (-1)
   else
     pte <- walk root (PGROUNDDOWN va) false ;;
     if pte =? 0 then ret (-1)
     else
       v <- read64 pte ;;
       if negb (flag v PTE_V) || negb (flag v PTE_U) || negb (flag v PTE_W) then ret (-1)
       else k (PTE2PA v + (va - PGROUNDDOWN va))) e s =
  match uwaddr (kmem_mem s) root va with
  | None => Ok (-1) e s
  | Some pa => k pa e s
  end.
Proof.
  intros Hva Hwf Hr. rewrite MAXVA_round. unfold uwaddr.
  destruct (Z.leb_spec MAXVA va) as [Hge|Hlt]; [done|].
  pose proof (PGROUNDDOWN_bounds va) as Hrb. pose proof (PGROUNDDOWN_eq va) as Hre.
  assert (Hoff : va - PGROUNDDOWN va = va mod PGSIZE) by (unfold PGSIZE in *; zdm).
  assert (Hpte : pte_of (kmem_mem s) root (PGROUNDDOWN va) = pte_of (kmem_mem s) root va)
    by (apply same_page_pte; rewrite ?Hre; unfold PGSIZE; zdm).
  eapply walk_load; [done|done|unfold PGSIZE in *; zdm| |].
  - rewrite Hpte. by intros ->.
  - intros p _. rewrite Hpte, Hoff. by destruct (flag _ PTE_V), (flag _ PTE_U), (flag _ PTE_W).
Qed.

Lemma copyout_loop_eq fuel T root va src e s :
  (length src <= fuel)%nat -> 0 <= va -> pt_wf (kmem_mem s) T -> T !! root = Some (2%nat, 0) ->
  user_safe (kmem_mem s) root T ->
  let r := uwrite (kmem_mem s) root va src in
  copyout_loop fuel root va src e s = Ok r.1 e (mkKmem (freelist s) r.2).
Proof.
  revert va src s. induction fuel as [|fuel IH]; intros va src s Hf Hva Hwf Hr Hs;
    (destruct src as [|b src]; [by destruct s|]); [simpl in Hf; lia|].
  cbn [copyout_loop]. cbn zeta.
  destruct (chunk_bounds va (Z.of_nat (length (b :: src)))) as (Hn & Hpg & Hoff & Hnext);
    [done|simpl; lia|]. cbn zeta in *.
  set (n := if Z.of_nat (length (b :: src)) <? _ then _ else _) in *.
  rewrite (copyout_access T root va e s (fun pa => put_bytes pa (take (Z.to_nat n) (b :: src)) ;;;
    copyout_loop fuel root (u64 (PGROUNDDOWN va + PGSIZE)) (drop (Z.to_nat n) (b :: src)))) by done.
  destruct (uwaddr (kmem_mem s) root va) as [pa|] eqn:Hpa;
    [|cbn [uwrite]; rewrite Hpa; by destruct s].
  destruct (uwrite_page (kmem_mem s) T root va pa (take (Z.to_nat n) (b :: src))
    (drop (Z.to_nat n) (b :: src))) as (Hw & Hwf' & Hs'); auto.
  { rewrite length_take. lia. }
  rewrite take_drop, length_take, Nat.min_l, Z2Nat.id in Hw by lia.
  set (l := b :: src) in *. clearbody l.
  unfold put_bytes. rewrite bind_eq. unfold modify at 1. kred.
  rewrite u64_small by (by eapply uwaddr_next_small).
  pose proof (PGROUNDDOWN_bounds va). rewrite IH; auto; [|rewrite length_drop; lia|lia].
  cbn [on_mem kmem_mem freelist]. rewrite Hw. destruct Hnext as [Hz|Hz]; [|by rewrite Hz].
  rewrite drop_ge by lia. done.
Qed.

(** ** What a completed write leaves in memory *)

(** The [n] bytes from [va] are writable, at distinct physical addresses. *)
Definition uwritable (m : mem) (root va : Z) (n : nat) : Prop :=
  (forall i, 0 <= i < Z.of_nat n -> is_Some (uwaddr m root (va + i))) /\
  (forall i j, 0 <= i < j -> j < Z.of_nat n -> uwaddr m root (va + i) <> uwaddr m root (va + j)).

Lemma uwrite_spec T m root va src :
  pt_wf m T -> T !! root = Some (2%nat, 0) -> user_safe m root T -> 0 <= va ->
  uwritable m root va (length src) ->
  exists m', uwrite m root va src = (0, m') /\
    (forall x, pte_of m' root x = pte_of m root x) /\
    (forall i b, src !! i = Some b -> exists pa,
       uwaddr m root (va + Z.of_nat i) = Some pa /\ mget m' pa = b) /\
    (forall a, (forall i, 0 <= i < Z.of_nat (length src) -> uwaddr m root (va + i) <> Some a) ->
       mget m' a = mget m a).
Proof.
  intros Hwf Hr. revert m va Hwf. induction src as [|b src IH]; intros m va Hwf Hs Hva [Hw Hd].
  { exists m. split; [done|]. split; [done|]. split; [|done]. intros i b. by rewrite lookup_nil. }
  cbn [uwrite length] in *. destruct (Hw 0 ltac:(lia)) as [pa Hpa]. rewrite Z.add_0_r in Hpa.
  rewrite Hpa. destruct (ustore_frame m T root va pa b) as (Hwf' & Hs' & Hpte); auto.
  assert (He : forall x, uwaddr (<[pa := b]> m) root x = uwaddr m root x)
    by (intros x; by apply uwaddr_ext).
  destruct (IH (<[pa := b]> m) (va + 1)) as (m' & Hrun & Hpte' & Hin & Hout); auto; [lia| |].
  { split; intros i.
    - intros Hi. rewrite He, <- Z.add_assoc. apply Hw. lia.
    - intros j Hi Hj. rewrite !He, <- !Z.add_assoc. apply Hd; lia. }
  exists m'. split; [done|]. split; [intros x; by rewrite Hpte', Hpte|]. split.
  - intros [|i] c; cbn [lookup list_lookup].
    + intros [= ->]. exists pa. rewrite Z.add_0_r. split; [done|].
      rewrite Hout, mget_insert, decide_True; [done..|]. intros i Hi.
      rewrite He, <- Z.add_assoc, <- Hpa. pose proof (Hd 0 (1 + i)) as Hne.
      rewrite Z.add_0_r in Hne. apply not_eq_sym, Hne; lia.
    + intros Hc. destruct (Hin i c Hc) as (pa' & Hpa' & Hm). exists pa'. split; [|done].
      rewrite He in Hpa'. by replace (va + Z.of_nat (S i)) with (va + 1 + Z.of_nat i) by lia.
  - intros a Ha. rewrite Hout, mget_insert, decide_False; [done| |].
    + intros ->. apply (Ha 0); [lia|]. by rewrite Z.add_0_r.
    + intros i Hi. rewrite He, <- Z.add_assoc. apply Ha. lia.
Qed.

(** Writing to user memory, whether it completes or not, keeps the tables. *)
Lemma uwrite_wf T m root va src :
  pt_wf m T -> T !! root = Some (2%nat, 0) -> user_safe m root T -> 0 <= va ->
  pt_wf (uwrite m root va src).2 T /\ user_safe (uwrite m root va src).2 root T.
Proof.
  intros Hwf Hr. revert m va Hwf. induction src as [|b src IH]; intros m va Hwf Hs Hva;
    cbn [uwrite]; [done|].
  destruct (uwaddr m root va) as [pa|] eqn:Hpa; [|done].
  destruct (ustore_frame m T root va pa b) as (Hwf' & Hs' & _); auto. apply IH; auto. lia.
Qed.

Lemma uread_length m root va n : (length (uread m root va n).2 <= n)%nat.
Proof.
  revert va. induction n as [|n IH]; intros va; cbn [uread]; [done|].
  destruct (uaddr m root va); cbn [snd length]; [specialize (IH (va + 1)); lia|lia].
Qed.

(** A write in two parts: the second follows if the first completes. *)
Lemma uwrite_app m root va l1 l2 :
  uwrite m root va (l1 ++ l2) =
    let r := uwrite m root va l1 in
    if r.1 =? -1 then r else uwrite r.2 root (va + Z.of_nat (length l1)) l2.
Proof.
  revert m va. induction l1 as [|b l1 IH]; intros m va; cbn [uwrite app length].
  - cbn. by rewrite Z.add_0_r.
  - destruct (uwaddr m root va) as [pa|]; [|done]. rewrite IH. cbv zeta.
    by replace (va + 1 + Z.of_nat (length l1)) with (va + Z.of_nat (S (length l1))) by lia.
Qed.

Lemma uwrite_code m root va l : (uwrite m root va l).1 = 0 \/ (uwrite m root va l).1 = -1.
Proof. revert m va. induction l as [|b l IH]; intros m va; cbn [uwrite]; [by left|]. destruct (uwaddr m root va); [apply IH|by right]. Qed.

Lemma uwaddr_uaddr m m' root va pa :
  (forall x, pte_of m' root x = pte_of m root x) ->
  uwaddr m root va = Some pa -> PTE2PA (pte_of m root va) <> 0 -> uaddr m' root va = Some pa.
Proof.
  intros He. unfold uwaddr, uaddr, user_page. rewrite He.
  destruct (MAXVA <=? va); [done|]. destruct (flag _ PTE_V), (flag _ PTE_U); try done.
  destruct (flag _ PTE_W); [|done]. intros [= <-] Hnz. cbn [andb].
  by rewrite (proj2 (Z.eqb_neq _ _)) by done.
Qed.

Lemma uread_list m root va bs :
  (forall i b, bs !! i = Some b -> exists pa,
     uaddr m root (va + Z.of_nat i) = Some pa /\ mget m pa = b) ->
  uread m root va (length bs) = (0, bs).
Proof.
  revert va. induction bs as [|b bs IH]; intros va H; cbn [uread length]; [done|].
  destruct (H 0%nat b eq_refl) as (pa & Hpa & <-). rewrite Z.add_0_r in Hpa. rewrite Hpa.
  rewrite IH; [done|]. intros i c Hc. destruct (H (S i) c Hc) as (pa' & Hpa' & Hm).
  exists pa'. split; [|done]. by replace (va + 1 + Z.of_nat i) with (va + Z.of_nat (S i)) by lia.
Qed.

(** What a string read returns: the bytes up to and including the first NUL
    within [n], or an error. *)
Lemma ureadstr_spec m root va n r bs :
  ureadstr m root va n = (r, bs) ->
  (length bs <= n)%nat /\
  (r = 0 /\ (exists p, bs = p ++ [0] /\ Forall (fun b => b <> 0) p) \/
   r = -1 /\ Forall (fun b => b <> 0) bs).
Proof.
  revert va r bs. induction n as [|n IH]; intros va r bs; cbn [ureadstr].
  { intros [= <- <-]. split; [done|]. by right. }
  destruct (uaddr m root va) as [pa|]; [|intros [= <- <-]; split; [simpl; lia|by right]].
  destruct (Z.eqb_spec (mget m pa) 0) as [Hz|Hnz].
  { intros [= <- <-]. split; [simpl; lia|]. left. split; [done|]. by exists []. }
  destruct (ureadstr m root (va + 1) n) as [r' bs'] eqn:Hr. cbn [fst snd]. intros [= <- <-].
  destruct (IH _ _ _ Hr) as (Hlen & [(-> & p & -> & Hp)|(-> & Hp)]).
  - split; [simpl in *; lia|]. left. split; [done|]. exists (mget m pa :: p). auto.
  - split; [simpl in *; lia|]. right. auto.
Qed.

(** ** copyin and copyout as a whole *)

Lemma copyin_eq T root va len e s :
  pt_wf (kmem_mem s) T -> T !! root = Some (2%nat, 0) -> 0 <= va -> 0 <= len ->
  copyin root va len e s = Ok (uread (kmem_mem s) root va (Z.to_nat len)) e s.
Proof. intros. unfold copyin. eapply copyin_loop_eq; eauto. lia. Qed.

Lemma copyout_eq T root va src e s :
  pt_wf (kmem_mem s) T -> T !! root = Some (2%nat, 0) -> user_safe (kmem_mem s) root T -> 0 <= va ->
  copyout root va src e s =
    let r := uwrite (kmem_mem s) root va src in Ok r.1 e (mkKmem (freelist s) r.2).
Proof. intros. unfold copyout. eapply copyout_loop_eq; eauto. Qed.
