(* ===== verification/VmThms.v ===== *)
(** * The address-space theorems of kernel/vm.c

    What the callers of vm.c rely on, stated for whole calls of mappages(),
    uvmalloc(), copyout(), copyin() and copyinstr(), and applied to concrete
    memories: one with an empty root table and three free pages, one with a
    user page mapped at address 0. *)

From S2P Require Import Prelude KMonad CString Riscv Kalloc Vm PageTable VmSpec UvmSpec UCopy.
Open Scope kmonad_scope.

(** ** Concrete machines *)

Definition demo_end : Z := 0x80030000.
Definition demo_root : Z := 0x80040000.
Definition demo_free : list Z := [0x80041000; 0x80042000; 0x80043000].
Definition demo_kmem : kmem :=
  mkKmem 0x80041000 (store64 (store64 ∅ 0x80041000 0x80042000) 0x80042000 0x80043000).
Definition demo_tables : gmap Z (nat * Z) := {[ demo_root := (2%nat, 0) ]}.
Definition demo_env : env := mkEnv 0 1 false [] [] 8.

(** Tables at 0x80050000 and 0x80051000 lead from the root to the page
    0x80060000, mapped at 0 with all user permissions. *)
Definition demo_user : kmem :=
  mkKmem 0 (store64 (store64 (store64 ∅ demo_root (Z.lor (PA2PTE 0x80050000) PTE_V))
    0x80050000 (Z.lor (PA2PTE 0x80051000) PTE_V))
    0x80051000 (map_pte 0x80060000 (Z.lor PTE_U (Z.lor PTE_R PTE_W)))).
Definition demo_user_tables : gmap Z (nat * Z) :=
  <[0x80051000 := (0%nat, 0)]> (<[0x80050000 := (1%nat, 0)]> demo_tables).

Lemma demo_vmi : vmi demo_end demo_kmem demo_free demo_tables.
Proof.
  unfold demo_tables. split.
  - split.
    + do 3 (constructor; [done|]; vm_compute load64). constructor.
    + apply (bool_decide_unpack (NoDup demo_free)). by vm_compute.
    + repeat (apply Forall_cons; split); try apply Forall_nil; vm_compute; repeat split; congruence.
  - split.
    + intros p l pre [<- _]%lookup_singleton_Some. vm_compute. repeat split; congruence.
    + intros p l pre i [<- _]%lookup_singleton_Some Hi Hf. exfalso. revert Hf.
      unfold demo_kmem, slot, demo_root. cbn [kmem_mem].
      rewrite !load_store_disj by lia. by rewrite load64_empty.
  - intros p Hp. apply lookup_singleton_None. intros <-. revert Hp.
    apply (bool_decide_unpack (demo_root ∉ demo_free)). by vm_compute.
Qed.

Lemma demo_unmapped x : 0 <= x < MAXVA -> pte_of (kmem_mem demo_kmem) demo_root x = 0.
Proof.
  intros Hx. unfold pte_of, pte_from. cbn [pt_leaf].
  pose proof (PX_range 2 x). unfold demo_kmem, slot, demo_root at 1. cbn [kmem_mem].
  change (Z.of_nat 2) with 2. rewrite !load_store_disj by lia. by rewrite load64_empty.
Qed.

(** Only entry 0 of the two upper tables is set. *)
Lemma demo_user_entry p i :
  p = demo_root \/ p = 0x80050000 \/ p = 0x80051000 -> 0 < i < 512 -> load64 (kmem_mem demo_user) (slot p i) = 0.
Proof.
  intros Hp Hi. unfold demo_user, slot, demo_root in *. cbn [kmem_mem].
  destruct Hp as [-> | [-> | ->]]; rewrite !load_store_disj by lia; apply load64_empty.
Qed.

Lemma demo_user_wf : pt_wf (kmem_mem demo_user) demo_user_tables.
Proof.
  unfold demo_user_tables, demo_tables. split.
  - intros p l pre. rewrite !lookup_insert, lookup_singleton.
    repeat case_decide; intros ?; simplify_eq; vm_compute; repeat split; congruence.
  - intros p l pre i H Hi. revert H. rewrite !(lookup_insert _ _ p), lookup_singleton.
    assert (Hi0 : i = 0 \/ 0 < i < 512) by lia.
    repeat case_decide; intros ?; simplify_eq; destruct Hi0 as [->|Hi0];
      try (rewrite demo_user_entry by auto; done); intros _; by vm_compute.
Qed.

(** The user page is the only one mapped. *)
Lemma demo_user_pte x :
  0 <= x < MAXVA ->
  pte_of (kmem_mem demo_user) demo_root x =
  if decide (x < PGSIZE) then map_pte 0x80060000 (Z.lor PTE_U (Z.lor PTE_R PTE_W)) else 0.
Proof.
  intros Hx. change MAXVA with 274877906944 in Hx.
  assert (H0 : pte_of (kmem_mem demo_user) demo_root 0 =
               map_pte 0x80060000 (Z.lor PTE_U (Z.lor PTE_R PTE_W))) by by vm_compute.
  case_decide as Hd.
  { rewrite <- H0. apply same_page_pte; unfold PGSIZE in *; zdm. }
  pose proof (PX_decompose x ltac:(lia)) as Hdec.
  pose proof (PX_range 0 x). pose proof (PX_range 1 x). pose proof (PX_range 2 x).
  unfold pte_of, pte_from. cbn [pt_leaf]. change (Z.of_nat 2) with 2. change (Z.of_nat 1) with 1.
  destruct (Z.eq_dec (PX 2 x) 0) as [E2|]; [rewrite E2 in *|by rewrite demo_user_entry by (auto; lia)].
  replace (load64 (kmem_mem demo_user) (slot demo_root 0)) with (Z.lor (PA2PTE 0x80050000) PTE_V)
    by by vm_compute.
  change (flag _ PTE_V) with true at 1. cbn iota.
  change (PTE2PA (Z.lor (PA2PTE 0x80050000) PTE_V)) with 0x80050000.
  destruct (Z.eq_dec (PX 1 x) 0) as [E1|]; [rewrite E1 in *|by rewrite demo_user_entry by (auto; lia)].
  replace (load64 (kmem_mem demo_user) (slot 0x80050000 0)) with (Z.lor (PA2PTE 0x80051000) PTE_V)
    by by vm_compute.
  change (flag _ PTE_V) with true at 1. cbn iota.
  change (PTE2PA (Z.lor (PA2PTE 0x80051000) PTE_V)) with 0x80051000.
  apply demo_user_entry; [auto|]. unfold PGSIZE in *. zdm.
Qed.

Lemma demo_user_addr x pa :
  0 <= x -> uwaddr (kmem_mem demo_user) demo_root x = Some pa -> x < PGSIZE /\ pa = 0x80060000 + x.
Proof.
  intros Hx. unfold uwaddr. destruct (Z.leb_spec MAXVA x); [done|].
  rewrite demo_user_pte by lia. case_decide as Hd; [|done].
  replace (map_pte 0x80060000 (Z.lor PTE_U (Z.lor PTE_R PTE_W))) with 0x20018017 by by vm_compute.
  replace (flag _ PTE_V && flag _ PTE_U && flag _ PTE_W) with true by by vm_compute.
  replace (PTE2PA 0x20018017) with 0x80060000 by by vm_compute.
  intros H'. apply (inj Some) in H'. unfold PGSIZE in *. rewrite Z.mod_small in H' by lia.
  split; [done|congruence].
Qed.

Lemma demo_user_safe : user_safe (kmem_mem demo_user) demo_root demo_user_tables.
Proof.
  intros x pa Hx [Hlt ->]%demo_user_addr; [|done].
  replace (PGROUNDDOWN (0x80060000 + x)) with 0x80060000; [by vm_compute|].
  rewrite PGROUNDDOWN_eq. unfold PGSIZE in *. zdm.
Qed.

Lemma demo_user_writable (n : nat) :
  (n <= 4096)%nat -> uwritable (kmem_mem demo_user) demo_root 0 n.
Proof.
  intros Hn.
  assert (Ha : forall i, 0 <= i < Z.of_nat n ->
    uwaddr (kmem_mem demo_user) demo_root (0 + i) = Some (0x80060000 + i)).
  { intros i Hi. apply (uwaddr_same _ _ 0); [done|lia|unfold PGSIZE; rewrite Zmod_0_l; lia|by vm_compute]. }
  split.
  - intros i Hi. rewrite Ha by done. by eexists.
  - intros i j Hij Hj. rewrite !Ha by lia. intros [= ?]. lia.
Qed.

(** ** mappages *)

Lemma flag_RU x : flag (Z.lor (Z.lor PTE_R PTE_U) x) PTE_R = true.
Proof.
  unfold flag. apply negb_true_iff, Z.eqb_neq. intros H.
  assert (Hb : Z.testbit (Z.land (Z.lor (Z.lor PTE_R PTE_U) x) PTE_R) 1 = true)
    by by rewrite Z.land_spec, !Z.lor_spec.
  by rewrite H in Hb.
Qed.

Section vmthms.
Variables (kend : Z) (root : Z) (e : env) (s : kmem) (l : list Z) (T : gmap Z (nat * Z)).
Hypothesis Hkend : 0 < kend.
Hypothesis Hlock : LkKmem ∉ e_held e.
Hypothesis Hvmi : vmi kend s l T.
Hypothesis Hroot : T !! root = Some (2%nat, 0).

(** C9: mappages() of an aligned, unmapped range keeps the page tables and
    the free list well-formed, and maps the first [k] pages of the range to
    consecutive physical pages with the requested permissions, leaving every
    other translation as it was; it returns 0 with the whole range mapped, or
    -1 with a proper prefix mapped, and then only when no page was free to
    hold a table. *)
Theorem mappages_correct va size pa perm :
  0 <= perm < 1024 -> pg_aligned va -> 0 <= va -> 0 < size -> pg_aligned size ->
  va + size <= MAXVA -> pg_aligned pa -> 0 <= pa -> pa + size <= 2 ^ 56 ->
  (forall x, va <= x < va + size -> flag (pte_of (kmem_mem s) root x) PTE_V = false) ->
  exists r s' l' T' used k,
    mappages root va size pa perm e s = Ok r e s' /\
    vmi kend s' l' T' /\ T ⊆ T' /\ l = used ++ l' /\ (forall p, p ∈ used -> is_Some (T' !! p)) /\
    mapped_range (kmem_mem s) (kmem_mem s') root va k pa perm /\
    (r = 0 /\ k * PGSIZE = size \/ r = -1 /\ l' = [] /\ 0 <= k * PGSIZE < size).
Proof.
  intros Hp Ha Ha0 Hs Hsa Hb Hpa Hpa0 Hpb Hun.
  unfold mappages. rewrite (proj2 (Z.eqb_eq _ 0) Ha), (proj2 (Z.eqb_eq _ 0) Hsa). cbn [negb].
  rewrite (proj2 (Z.eqb_neq size 0)) by lia.
  set (n := Z.to_nat (size / PGSIZE)).
  assert (Hn : Z.of_nat n * PGSIZE = size) by (unfold n, pg_aligned, PGSIZE in *; zdm).
  rewrite u64_small by (change MAXVA with 274877906944 in *; unfold pg_aligned, PGSIZE in *; zdm).
  destruct (mappages_loop_spec kend Hkend n root s l T e va pa perm)
    as (r & s' & l' & T' & used & k & Hrun & Hev & Ht & Hm & Hk); auto; try (unfold PGSIZE in *; lia).
  { intros x Hx. apply Hun. unfold PGSIZE in *. lia. }
  replace (va + (Z.of_nat n - 1) * PGSIZE) with (va + size - PGSIZE) in Hrun
    by (unfold PGSIZE in *; lia).
  exists r, s', l', T', used, k. destruct Hev. repeat (split; [done|]).
  unfold PGSIZE in *. destruct Hk as [[? ?]|(? & ? & ?)]; [left|right]; repeat split; try done; lia.
Qed.

(** C5: uvmalloc() from [oldsz] to [newsz] succeeds or undoes itself.  On
    success it returns [newsz] and every new page up to [newsz] is mapped to
    its own fresh zero-filled page of memory with the permissions R, U and
    [xperm]; when memory runs out it returns 0, every address translates as
    before the call, and every page that was free still is, or is one of the
    page tables. *)
Theorem uvmalloc_correct oldsz newsz xperm lim :
  0 <= xperm < 1024 -> 0 <= oldsz <= newsz -> newsz <= lim -> pg_aligned lim -> lim <= MAXVA ->
  (forall x, PGROUNDUP oldsz <= x < lim -> pte_of (kmem_mem s) root x = 0) ->
  exists r s' l' T',
    uvmalloc kend root oldsz newsz xperm e s = Ok r e s' /\
    (r = newsz /\
     (exists ps, grown kend s l T root (PGROUNDUP oldsz) (Z.lor (Z.lor PTE_R PTE_U) xperm)
                   s' l' T' ps /\
        newsz <= PGROUNDUP oldsz + Z.of_nat (length ps) * PGSIZE < newsz + PGSIZE) \/
     r = 0 /\ shrunk_back kend s l T root s' l' T').
Proof.
  intros Hp Ho Hn Hla Hlim Hempty. unfold uvmalloc. rewrite (proj2 (Z.ltb_ge _ _)) by lia.
  assert (Hsz : 0 <= oldsz <= 2 ^ 64 - PGSIZE)
    by (change MAXVA with 274877906944 in *; unfold PGSIZE; lia).
  pose proof (PGROUNDUP_bounds oldsz Hsz) as Hub. pose proof (PGROUNDUP_aligned oldsz) as Hua.
  set (perm := Z.lor (Z.lor PTE_R PTE_U) xperm) in *.
  assert (HpR : 0 <= perm < 1024) by (apply lor_perm_range; [by vm_compute|done]).
  destruct (uvmalloc_loop_spec kend Hkend s l T root (PGROUNDUP oldsz) perm HpR (flag_RU xperm)
    Hroot Hua ltac:(lia) lim (conj Hla Hlim) Hempty
    (Z.to_nat ((newsz - PGROUNDUP oldsz + PGSIZE - 1) / PGSIZE)) s l T [] e newsz xperm)
    as (r & s' & l' & T' & Hrun & Hres); auto.
  - by apply filled_refl.
  - unfold PGSIZE in *. simpl length. zdm.
  - simpl length. lia.
  - simpl length in Hrun. rewrite Z.mul_0_l, Z.add_0_r in Hrun. eauto 10.
Qed.
End vmthms.

Lemma mappages_correct_witness :
  exists r s' l' T' used k,
    mappages demo_root 0x1000 0x2000 0x80100000 PTE_R demo_env demo_kmem = Ok r demo_env s' /\
    vmi demo_end s' l' T' /\ demo_tables ⊆ T' /\ demo_free = used ++ l' /\
    (forall p, p ∈ used -> is_Some (T' !! p)) /\
    mapped_range (kmem_mem demo_kmem) (kmem_mem s') demo_root 0x1000 k 0x80100000 PTE_R /\
    (r = 0 /\ k * PGSIZE = 0x2000 \/ r = -1 /\ l' = [] /\ 0 <= k * PGSIZE < 0x2000).
Proof.
  apply (mappages_correct demo_end demo_root demo_env demo_kmem demo_free demo_tables
    ltac:(by vm_compute) ltac:(apply not_elem_of_nil) demo_vmi eq_refl); [by vm_compute..|].
  intros x Hx. rewrite demo_unmapped; [done|]. change MAXVA with 274877906944. lia.
Defined.

Lemma uvmalloc_correct_witness :
  exists r s' l' T',
    uvmalloc demo_end demo_root 0 5000 PTE_W demo_env demo_kmem = Ok r demo_env s' /\
    (r = 5000 /\
     (exists ps, grown demo_end demo_kmem demo_free demo_tables demo_root (PGROUNDUP 0)
                   (Z.lor (Z.lor PTE_R PTE_U) PTE_W) s' l' T' ps /\
        5000 <= PGROUNDUP 0 + Z.of_nat (length ps) * PGSIZE < 5000 + PGSIZE) \/
     r = 0 /\ shrunk_back demo_end demo_kmem demo_free demo_tables demo_root s' l' T').
Proof.
  apply (uvmalloc_correct demo_end demo_root demo_env demo_kmem demo_free demo_tables
    ltac:(by vm_compute) ltac:(apply not_elem_of_nil) demo_vmi eq_refl 0 5000 PTE_W TRAPFRAME);
    [by vm_compute..|].
  intros x Hx. apply demo_unmapped. change (PGROUNDUP 0) with 0 in Hx.
  change TRAPFRAME with 274877898752 in Hx. change MAXVA with 274877906944. lia.
Defined.

(** ** Copying to and from user memory *)

(** copyin() reads exactly what translating and reading the user bytes
    one at a time gives: it returns 0 and the [len] bytes when every one of
    them is in a valid user page, and -1 after the readable prefix otherwise;
    memory is unchanged. *)
Theorem copyin_refines T root va len e s :
  pt_wf (kmem_mem s) T -> T !! root = Some (2%nat, 0) -> 0 <= va -> 0 <= len ->
  copyin root va len e s = Ok (uread (kmem_mem s) root va (Z.to_nat len)) e s.
Proof. intros. unfold copyin. eapply copyin_loop_eq; eauto. lia. Qed.

(** C14: copyout() writes exactly what storing the bytes one at a time, each
    at its own translation, writes: -1 at the first byte that is not in a
    valid, user-accessible, writable page, and 0 when all are stored. *)
Theorem copyout_refines T root va src e s :
  pt_wf (kmem_mem s) T -> T !! root = Some (2%nat, 0) -> user_safe (kmem_mem s) root T -> 0 <= va ->
  copyout root va src e s =
    let r := uwrite (kmem_mem s) root va src in Ok r.1 e (mkKmem (freelist s) r.2).
Proof. intros. unfold copyout. eapply copyout_loop_eq; eauto. Qed.

(** C13: what copyout() stores, copyin() reads back: after a copyout() of
    [src] to a writable range whose bytes have distinct physical addresses,
    copyin() of that range returns [src], no translation has changed and no
    byte outside the range has. *)
Theorem copyout_copyin_roundtrip T root va src e s :
  pt_wf (kmem_mem s) T -> T !! root = Some (2%nat, 0) -> user_safe (kmem_mem s) root T -> 0 <= va ->
  uwritable (kmem_mem s) root va (length src) ->
  (forall x, va <= x < va + Z.of_nat (length src) -> PTE2PA (pte_of (kmem_mem s) root x) <> 0) ->
  exists s',
    copyout root va src e s = Ok 0 e s' /\
    copyin root va (Z.of_nat (length src)) e s' = Ok (0, src) e s' /\
    (forall x, pte_of (kmem_mem s') root x = pte_of (kmem_mem s) root x) /\
    (forall a, (forall i, 0 <= i < Z.of_nat (length src) ->
                  uwaddr (kmem_mem s) root (va + i) <> Some a) ->
       mget (kmem_mem s') a = mget (kmem_mem s) a).
Proof.
  intros Hwf Hr Hs Hva Hw Hnz.
  destruct (uwrite_spec T (kmem_mem s) root va src) as (m' & Hrun & Hpte & Hin & Hout); auto.
  destruct (uwrite_wf T (kmem_mem s) root va src) as [Hwf' _]; auto. rewrite Hrun in Hwf'.
  exists (mkKmem (freelist s) m'). split; [|split; [|done]].
  - unfold copyout. erewrite copyout_loop_eq by eauto. by rewrite Hrun.
  - unfold copyin. erewrite copyin_loop_eq by (eauto || lia). cbn [kmem_mem].
    rewrite Nat2Z.id, uread_list; [done|]. intros i b Hb.
    destruct (Hin i b Hb) as (pa & Hpa & Hm). exists pa. split; [|done].
    eapply uwaddr_uaddr; eauto. apply Hnz. apply lookup_lt_Some in Hb. lia.
Qed.

(** copyinstr() never stores more than [max] bytes; when it returns 0
    the bytes stored are a string ended by its only NUL, and when it returns
    -1 no NUL was found among the bytes read. *)
Theorem copyinstr_bounded T root va max e s :
  pt_wf (kmem_mem s) T -> T !! root = Some (2%nat, 0) -> 0 <= va -> 0 <= max ->
  exists r bs,
  copyinstr root va max e s = Ok (r, bs) e s /\
  (r, bs) = ureadstr (kmem_mem s) root va (Z.to_nat max) /\ Z.of_nat (length bs) <= max /\
  (r = 0 /\ (exists p, bs = p ++ [0] /\ Forall (fun b => b <> 0) p) \/
   r = -1 /\ Forall (fun b => b <> 0) bs).
Proof.
  intros Hwf Hr Hva Hmax.
  destruct (ureadstr (kmem_mem s) root va (Z.to_nat max)) as [r bs] eqn:Hrd.
  destruct (ureadstr_spec _ _ _ _ _ _ Hrd) as [Hlen Hres]. exists r, bs.
  split; [|split; [done|split; [lia|done]]].
  unfold copyinstr. erewrite copyinstr_loop_eq by (eauto || lia). by rewrite Hrd.
Qed.

Lemma copyin_refines_witness :
  copyin demo_root 4000 200 demo_env demo_user =
    Ok (uread (kmem_mem demo_user) demo_root 4000 (Z.to_nat 200)) demo_env demo_user.
Proof.
  apply (copyin_refines demo_user_tables); [apply demo_user_wf|by vm_compute|lia..].
Defined.

Lemma copyout_refines_witness :
  copyout demo_root 4094 [1; 2; 3] demo_env demo_user =
    let r := uwrite (kmem_mem demo_user) demo_root 4094 [1; 2; 3] in
    Ok r.1 demo_env (mkKmem (freelist demo_user) r.2).
Proof.
  apply (copyout_refines demo_user_tables);
    [apply demo_user_wf|by vm_compute|apply demo_user_safe|lia].
Defined.

Lemma copyout_copyin_roundtrip_witness :
  exists s',
    copyout demo_root 0 [10; 20; 30] demo_env demo_user = Ok 0 demo_env s' /\
    copyin demo_root 0 3 demo_env s' = Ok (0, [10; 20; 30]) demo_env s'.
Proof.
  destruct (copyout_copyin_roundtrip demo_user_tables demo_root 0 [10; 20; 30] demo_env demo_user)
    as (s' & H1 & H2 & _).
  - apply demo_user_wf.
  - by vm_compute.
  - apply demo_user_safe.
  - lia.
  - apply demo_user_writable. simpl. lia.
  - intros x Hx. simpl length in Hx. rewrite demo_user_pte by (change MAXVA with 274877906944; lia).
    rewrite decide_True by (unfold PGSIZE; lia). by vm_compute.
  - exists s'. exact (conj H1 H2).
Defined.

Lemma copyinstr_bounded_witness :
  exists r bs,
    copyinstr demo_root 0 16 demo_env demo_user = Ok (r, bs) demo_env demo_user /\
    Z.of_nat (length bs) <= 16.
Proof.
  destruct (copyinstr_bounded demo_user_tables demo_root 0 16 demo_env demo_user)
    as (r & bs & H & _ & Hlen & _).
  - apply demo_user_wf.
  - by vm_compute.
  - lia.
  - lia.
  - exists r, bs. exact (conj H Hlen).
Defined.
