(* ===== verification/UvmCopy.v ===== *)
(** * Copying an address space: uvmcopy()

    fork() gives the child a copy of the parent's memory.  The copy is made
    page by page into pages of the allocator; the two address spaces share
    nothing afterwards, and a failure leaves the child's page table empty
    again and the parent untouched. *)

From S2P Require Import Prelude KMonad CString Riscv Kalloc Vm PageTable VmSpec UvmSpec UCopy VmThms.
Open Scope kmonad_scope.

Definition nth_page (i : nat) : Z := Z.of_nat i * PGSIZE.

(** What the copy of page [i] of the address space [old] must be. *)
Definition copy_perm (m : mem) (old : Z) (i : nat) : Z := PTE_FLAGS (pte_of m old (nth_page i)).
Definition copy_cont (m : mem) (old : Z) (i : nat) (o : Z) : Z := mget m (PTE2PA (pte_of m old (nth_page i)) + o).

(** The address space [old], with tables [To] of its own, has its first
    [lim] bytes mapped to pages of its own. *)
Record parent_ok (kend : Z) (m : mem) (l : list Z) (T To : gmap Z (nat * Z)) (old lim : Z) : Prop := {
  po_wf : pt_wf m To;
  po_root : To !! old = Some (2%nat, 0);
  po_apart : forall p, is_Some (To !! p) -> p ∉ l /\ T !! p = None;
  po_leaf : forall x, 0 <= x < lim -> flag (pte_of m old x) PTE_V = true /\ PTE_FLAGS (pte_of m old x) <> PTE_V;
  po_page : forall x, 0 <= x < lim ->
    let p := PTE2PA (pte_of m old x) in page_ok kend p /\ p ∉ l /\ T !! p = None
}.

Lemma flags_range v : 0 <= PTE_FLAGS v < 1024.
Proof. unfold PTE_FLAGS. change 0x3FF with (Z.ones 10). rewrite Z.land_ones by lia. apply Z.mod_pos_bound. lia. Qed.

(** Flags of a valid entry include PTE_V. *)
Lemma valid_flags v : flag v PTE_V = true -> Z.lor (PTE_FLAGS v) PTE_V = PTE_FLAGS v.
Proof.
  intros Hv. unfold flag in Hv. apply negb_true_iff, Z.eqb_neq in Hv.
  apply Z.bits_inj'. intros n Hn. rewrite Z.lor_spec. destruct (Z.eq_dec n 0) as [->|Hne].
  - assert (Hb : Z.testbit v 0 = true).
    { destruct (Z.testbit v 0) eqn:E; [done|]. exfalso. apply Hv. apply Z.bits_inj'. intros k Hk.
      rewrite Z.land_spec, Z.bits_0. destruct (Z.eq_dec k 0) as [->|]; [by rewrite E|].
      change PTE_V with (2 ^ 0). rewrite Z.pow2_bits_false by lia. apply andb_false_r. }
    unfold PTE_FLAGS. rewrite Z.land_spec, Hb. done.
  - change PTE_V with (2 ^ 0). rewrite Z.pow2_bits_false by lia. by rewrite orb_false_r.
Qed.

Lemma memmove_page m p pa :
  pg_aligned p -> pg_aligned pa -> p <> pa ->
  same_outside p m (memmove m p pa PGSIZE) /\ page_holds (memmove m p pa PGSIZE) p (fun o => mget m (pa + o)).
Proof.
  intros Hp Hpa Hne. rewrite memmove_mwrite by (unfold PGSIZE; lia). split.
  - intros x Hx. apply mget_mwrite_ne. rewrite length_mread. unfold PGSIZE in *. lia.
  - intros o Ho. replace o with (Z.of_nat (Z.to_nat o)) by lia.
    erewrite mget_mwrite_in; [reflexivity|]. rewrite mread_lookup by (unfold PGSIZE in *; lia). done.
Qed.

Section uvmcopy.
Variables (kend : Z) (s0 : kmem) (l0 : list Z) (T0 To : gmap Z (nat * Z)) (old new lim : Z).
Hypothesis Hkend : 0 < kend.
Hypothesis Hnew : T0 !! new = Some (2%nat, 0).
Hypothesis Hvmi : vmi kend s0 l0 T0.
Hypothesis Hlim : pg_aligned lim /\ lim <= MAXVA.
Hypothesis Hold : parent_ok kend (kmem_mem s0) l0 T0 To old lim.
Hypothesis Hempty : forall x, 0 <= x < lim -> pte_of (kmem_mem s0) new x = 0.

Notation perm := (copy_perm (kmem_mem s0) old).
Notation cont := (copy_cont (kmem_mem s0) old).

(** Nothing of the parent changes. *)
Lemma parent_kept s :
  confined s0 l0 T0 s ->
  pt_wf (kmem_mem s) To /\
  (forall x, pt_leaf (kmem_mem s) 2 old x = pt_leaf (kmem_mem s0) 2 old x /\
             pte_of (kmem_mem s) old x = pte_of (kmem_mem s0) old x) /\
  (forall x c, 0 <= x < lim -> page_holds (kmem_mem s0) (PTE2PA (pte_of (kmem_mem s0) old x)) c ->
     page_holds (kmem_mem s) (PTE2PA (pte_of (kmem_mem s0) old x)) c).
Proof using Hvmi Hold.
  intros Hc. destruct Hold as [Hwf Hr Hap _ Hpg].
  assert (HP : forall p, is_Some (T0 !! p) \/ p ∈ l0 -> pg_aligned p).
  { intros p [[[lev pr] Hp]|Hp]; [by eapply (wf_page _ _ (vmi_wf _ _ _ _ Hvmi))|].
    pose proof (inv_pages _ _ _ (vmi_kmem _ _ _ _ Hvmi)) as HF. rewrite Forall_forall in HF. by apply HF. }
  destruct (pt_frame (kmem_mem s0) (kmem_mem s) To _ Hwf Hc) as [Hwf' Hpte].
  { intros p Hp. split; [by apply HP|]. destruct (To !! p) eqn:E; [|done]. exfalso.
    destruct (Hap p ltac:(eauto)) as [H1 H2]. destruct Hp as [[? ?]|?]; [congruence|done]. }
  split; [done|]. split; [intros x; by eapply Hpte|].
  intros x c Hx Hh. destruct (Hpg x Hx) as (Hok & Hl & HT).
  eapply holds_same_off; [exact Hc|apply Hok| |done].
  intros q Hq. split; [by apply HP|]. intros ->. destruct Hq as [[? ?]|?]; [congruence|done].
Qed.

Lemma nth_page_range i : nth_page i < lim -> 0 <= nth_page i < lim.
Proof using. unfold nth_page, PGSIZE. lia. Qed.

Lemma copy_perm_ok i : 0 + Z.of_nat i * PGSIZE < lim -> 0 <= perm i < 1024.
Proof using. intros _. apply flags_range. Qed.

Lemma copy_perm_leaf i : 0 + Z.of_nat i * PGSIZE < lim -> Z.lor (perm i) PTE_V <> PTE_V.
Proof using Hold.
  intros Hi. fold (nth_page i) in Hi. destruct (po_leaf _ _ _ _ _ _ _ Hold (nth_page i) (nth_page_range i Hi)) as [Hv Hl].
  unfold copy_perm. by rewrite valid_flags.
Qed.

(** The failure of a round: the pages copied so far are given back. *)
Lemma uvmcopy_undo s l T ps e :
  LkKmem ∉ e_held e -> recoverable kend s0 l0 T0 new 0 perm s l T ps -> nth_page (length ps) <= lim ->
  exists s', uvmunmap kend new 0 (nth_page (length ps) / PGSIZE) true e s = Ok tt e s' /\
    shrunk_back kend s0 l0 T0 new s' (rev ps ++ l) T.
Proof using Hkend Hlim Hold Hempty.
  intros Hl Hrv Hb.
  replace (nth_page (length ps) / PGSIZE) with (Z.of_nat (length ps)) by (unfold nth_page, PGSIZE; zdm).
  destruct (spans_unmap kend Hkend s0 new 0 perm cont eq_refl ltac:(lia) lim Hlim copy_perm_ok copy_perm_leaf Hempty
    s l T ps e Hl (rv_spans _ _ _ _ _ _ _ _ _ _ _ Hrv)) as (s' & Hrun & Hv & Hpte & Ho & Ht); [exact Hb|].
  exists s'. split; [done|]. by eapply undo_shrunk.
Qed.

(** The parent's entry for [x] is found, valid. *)
Lemma parent_access {A} s x e (no1 no2 : K kmem A) (k : Z -> K kmem A) :
  confined s0 l0 T0 s -> 0 <= x < lim ->
  (pte <- walk old x false ;;
   if pte =? 0 then no1
   else v <- read64 pte ;; if negb (flag v PTE_V) then no2 else k v) e s =
  k (pte_of (kmem_mem s0) old x) e s.
Proof using Hvmi Hlim Hold.
  intros Hc Hx. destruct (parent_kept s Hc) as (Hwf & Hpt & _). destruct (Hpt x) as [_ Hpte].
  destruct (po_leaf _ _ _ _ _ _ _ Hold x Hx) as [Hv _]. rewrite bind_eq, walk_false by lia. kred.
  rewrite <- Hpte in *. unfold pte_of, pte_from in *. destruct (pt_leaf (kmem_mem s) 2 old x) as [q|] eqn:Hq; [|done].
  assert (HTq : To !! q = Some (0%nat, vprefix 0 x)).
  { eapply (pt_leaf_label (kmem_mem s) To 2 old); [done|lia| |done].
    rewrite vprefix_root by lia. by apply (po_root _ _ _ _ _ _ _ Hold). }
  destruct (wf_page _ _ Hwf _ _ _ HTq) as [_ Hq0].
  assert (HPX : 0 <= PX 0 x < 512) by (apply PX_range; lia).
  rewrite (proj2 (Z.eqb_neq _ _)) by (unfold slot; lia).
  rewrite bind_eq. unfold read64. kred. by rewrite Hv.
Qed.

(** A fresh page filled from the parent's page. *)
Lemma copy_page s p l T ps :
  filled kend s0 l0 T0 new 0 perm cont s (p :: l) T ps -> nth_page (length ps) < lim ->
  let pa := PTE2PA (pte_of (kmem_mem s0) old (nth_page (length ps))) in
  let m1 := memmove (memset (kmem_mem s) p 5 PGSIZE) p pa PGSIZE in
  same_outside p (memset (kmem_mem s) p 5 PGSIZE) m1 /\ page_holds m1 p (cont (length ps)).
Proof using Hnew Hlim Hkend Hempty Hvmi Hold.
  intros Hg Hb pa m1. pose proof (nth_page_range _ Hb) as Hx.
  destruct (gn_ev _ _ _ _ _ _ _ _ _ _ _ _ Hg) as (used & Hev & _).
  destruct (parent_kept s (evolves_confined _ _ _ _ _ _ _ _ Hev)) as (_ & _ & Hpg).
  destruct (po_page _ _ _ _ _ _ _ Hold _ Hx) as (Hpok & Hpl & _). fold pa in Hpok, Hpl.
  pose proof (inv_pages _ _ _ (vmi_kmem _ _ _ _ (ev_vmi _ _ _ _ _ _ _ _ Hev))) as HF.
  apply Forall_cons in HF as [[Hpa _] _].
  assert (Hne : p <> pa) by (intros ->; apply Hpl; rewrite (ev_used _ _ _ _ _ _ _ _ Hev); set_solver).
  destruct (memmove_page (memset (kmem_mem s) p 5 PGSIZE) p pa Hpa (proj1 Hpok) Hne) as [Ho Hh].
  split; [done|]. intros o Hoff. rewrite Hh by done. rewrite (memset_same_outside p 5 (kmem_mem s)).
  - apply (Hpg _ (cont (length ps)) Hx); [|done]. by intros o' _.
  - destruct (pages_disjoint p pa Hpa (proj1 Hpok) Hne); unfold PGSIZE in *; lia.
Qed.

Lemma uvmcopy_loop_spec fuel s l T ps e sz :
  LkKmem ∉ e_held e -> filled kend s0 l0 T0 new 0 perm cont s l T ps ->
  PGROUNDUP sz = lim -> 0 <= sz <= MAXVA -> nth_page (length ps) <= lim -> lim <= nth_page (length ps) + nth_page fuel ->
  exists r s' l' T',
    uvmcopy_loop kend fuel old new (nth_page (length ps)) sz e s = Ok r e s' /\
    (r = 0 /\ (exists ps', filled kend s0 l0 T0 new 0 perm cont s' l' T' ps' /\ nth_page (length ps') = lim) \/
     r = -1 /\ shrunk_back kend s0 l0 T0 new s' l' T').
Proof using Hkend Hnew Hvmi Hlim Hold Hempty.
  intros Hl. revert s l T ps. induction fuel as [|fuel IH]; intros s l T ps Hg Hsz Hsz0 Hb Hf.
  all: assert (HM : MAXVA = 274877906944) by reflexivity.
  all: assert (Hub : sz <= lim < sz + PGSIZE) by (rewrite <- Hsz; apply PGROUNDUP_bounds; unfold PGSIZE in *; lia).
  all: cbn [uvmcopy_loop]; destruct (Z.ltb_spec (nth_page (length ps)) sz) as [Hlt|Hge];
    [|exists 0, s, l, T; split; [done|]; left; split; [done|]; exists ps; split; [done|];
      destruct Hlim as [Hla _]; unfold pg_aligned, nth_page, PGSIZE in *; zdm].
  { unfold nth_page in *. lia. }
  set (x := nth_page (length ps)) in *. assert (Hx : 0 <= x < lim) by (unfold x, nth_page, PGSIZE in *; lia).
  assert (Hxb : x + PGSIZE <= lim) by (destruct Hlim as [Hla _]; unfold x, pg_aligned, nth_page, PGSIZE in *; zdm).
  pose proof (gn_ev _ _ _ _ _ _ _ _ _ _ _ _ Hg) as (used & Hev & Hu & _).
  pose proof (evolves_confined _ _ _ _ _ _ _ _ Hev) as Hc. rewrite parent_access by done.
  set (v := pte_of (kmem_mem s0) old x). rewrite bind_eq. destruct l as [|p l].
  { rewrite (kalloc_empty kend) by (try apply Hg; done). kred. cbn [Z.eqb].
    pose proof (filled_exhausted _ _ _ _ _ _ _ _ _ _ _ Hg) as Hrv.
    destruct (uvmcopy_undo s [] T ps e) as (s' & Hrun & Hsb); auto. fold x in Hrun. rewrite bind_eq, Hrun. kred. eauto 10. }
  pose proof (gn_spans _ _ _ _ _ _ _ _ _ _ _ _ Hg) as Hs.
  rewrite (kalloc_eq kend p l) by (done || apply Hs). kred.
  rewrite (proj2 (Z.eqb_neq p 0)) by (eapply kmem_head_nonzero, vmi_kmem; apply Hs).
  destruct (copy_page s p l T ps Hg) as [Ho Hh]; [apply Hx|]. fold x v in Ho, Hh.
  destruct (filled_step kend Hkend s0 l0 T0 new 0 perm cont Hnew eq_refl ltac:(lia) lim Hlim copy_perm_ok copy_perm_leaf
    Hempty s p _ l T ps e Hl Hg Ho Hh) as (r & s2 & l2 & T2 & Hrun & Hres); [exact Hxb|].
  unfold do_memmove. rewrite bind_eq. unfold modify at 1. kred. unfold on_mem. cbn [freelist kmem_mem].
  unfold alloc_state in Hrun. rewrite Z.add_0_l in Hrun. fold (nth_page (length ps)) in Hrun. fold x in Hrun.
  unfold copy_perm in Hrun. fold x v in Hrun. rewrite bind_eq, Hrun. kred.
  destruct Hres as [[-> Hg2]|(-> & s3 & Hfree & Hrv)]; cbn [negb Z.eqb].
  - rewrite u64_small by (unfold PGSIZE in *; lia).
    replace (x + PGSIZE) with (nth_page (length (ps ++ [p]))) in *
      by (rewrite length_app; simpl length; unfold x, nth_page, PGSIZE; lia).
    apply (IH s2 l2 T2 (ps ++ [p])); auto. unfold nth_page, PGSIZE in *. rewrite length_app. simpl length. lia.
  - rewrite bind_eq, Hfree. kred.
    destruct (uvmcopy_undo s3 [p] T2 ps e) as (s' & Hrun' & Hsb); auto. fold x in Hrun'. rewrite bind_eq, Hrun'. kred. eauto 10.
Qed.

(** ** What the two address spaces read *)

Lemma uread_ext m m' r r' va n :
  (forall x, va <= x < va + Z.of_nat n ->
     (uaddr m r x = None /\ uaddr m' r' x = None) \/
     exists a a', uaddr m r x = Some a /\ uaddr m' r' x = Some a' /\ mget m' a' = mget m a) ->
  uread m' r' va n = uread m r va n.
Proof using.
  revert va. induction n as [|n IH]; intros va H; [done|]. cbn [uread].
  rewrite (IH (va + 1)) by (intros x Hx; apply H; lia).
  destruct (H va ltac:(lia)) as [[-> ->]|(a & a' & -> & -> & ->)]; done.
Qed.

Lemma uaddr_page m r x p :
  0 <= x < MAXVA -> PTE2PA (pte_of m r x) = p -> p <> 0 -> flag (pte_of m r x) PTE_V = true ->
  uaddr m r x = if flag (pte_of m r x) PTE_U then Some (p + x mod PGSIZE) else None.
Proof using.
  intros Hx Hp Hp0 Hv. unfold uaddr, user_page. destruct (Z.leb_spec MAXVA x); [lia|].
  rewrite Hv, Hp. cbn [andb]. destruct (flag (pte_of m r x) PTE_U); [|done]. by rewrite (proj2 (Z.eqb_neq p 0)).
Qed.

Lemma parent_uaddr x :
  0 <= x < lim ->
  uaddr (kmem_mem s0) old x =
  if flag (pte_of (kmem_mem s0) old x) PTE_U
  then Some (PTE2PA (pte_of (kmem_mem s0) old x) + x mod PGSIZE) else None.
Proof using Hlim Hold Hkend.
  intros Hx. destruct (po_leaf _ _ _ _ _ _ _ Hold x Hx) as [Hv _]. destruct (po_page _ _ _ _ _ _ _ Hold x Hx) as ([_ Hp] & _).
  apply uaddr_page; [lia|done|lia|done].
Qed.

Lemma parent_reads s va n :
  confined s0 l0 T0 s -> 0 <= va -> va + Z.of_nat n <= lim ->
  uread (kmem_mem s) old va n = uread (kmem_mem s0) old va n.
Proof using Hvmi Hlim Hold Hkend.
  intros Hc Hva Hn. destruct (parent_kept s Hc) as (_ & Hpt & Hpg). apply uread_ext. intros x Hx.
  assert (Hxl : 0 <= x < lim) by lia. destruct (Hpt x) as [_ Hpte].
  assert (Hu : uaddr (kmem_mem s) old x = uaddr (kmem_mem s0) old x) by (unfold uaddr, user_page; by rewrite Hpte).
  rewrite Hu, parent_uaddr by done. destruct (flag _ PTE_U); [right|by left].
  eexists _, _. split; [done|]. split; [done|].
  apply (Hpg x (fun o => mget (kmem_mem s0) (PTE2PA (pte_of (kmem_mem s0) old x) + o)) Hxl); [by intros o _|].
  apply Z.mod_pos_bound. unfold PGSIZE. lia.
Qed.

Lemma child_reads s l T ps va n :
  filled kend s0 l0 T0 new 0 perm cont s l T ps -> nth_page (length ps) = lim ->
  0 <= va -> va + Z.of_nat n <= lim ->
  uread (kmem_mem s) new va n = uread (kmem_mem s0) old va n.
Proof using Hlim Hold Hkend.
  intros [[_ _ Hpte [_ [Hok _]]] _ Hd] Hps Hva Hn. apply uread_ext. intros x Hx. assert (Hxl : 0 <= x < lim) by lia.
  set (i := Z.to_nat (x / PGSIZE)).
  assert (Hi : (i < length ps)%nat) by (unfold i, nth_page, PGSIZE in *; zdm).
  destruct (lookup_lt_is_Some_2 ps i Hi) as [p Hp].
  assert (Hpok : page_ok kend p) by (rewrite Forall_forall in Hok; apply Hok; by eapply list_elem_of_lookup_2).
  assert (Hsame : pte_of (kmem_mem s0) old (nth_page i) = pte_of (kmem_mem s0) old x).
  { apply same_page_pte; [lia|unfold nth_page, PGSIZE; lia|]. unfold i, nth_page, PGSIZE. zdm. }
  destruct (po_leaf _ _ _ _ _ _ _ Hold x Hxl) as [Hv _].
  assert (Hx' : pte_of (kmem_mem s) new x = map_pte p (PTE_FLAGS (pte_of (kmem_mem s0) old x))).
  { rewrite Hpte by lia. rewrite decide_True by (unfold nth_page in Hps; lia). rewrite Z.sub_0_r. fold i.
    rewrite (list_lookup_total_correct _ _ _ Hp). unfold copy_perm. by rewrite Hsame. }
  destruct (map_pte_spec p (PTE_FLAGS (pte_of (kmem_mem s0) old x)) (page_ok_pa kend Hkend p Hpok) (flags_range _))
    as (Hpa & Hfl & _). rewrite <- Hx' in Hpa, Hfl. rewrite valid_flags in Hfl by done.
  assert (Hflag : forall f, Z.land 0x3FF f = f -> flag (pte_of (kmem_mem s) new x) f = flag (pte_of (kmem_mem s0) old x) f).
  { intros f Hf. rewrite (flag_of_flags (pte_of (kmem_mem s) new x)), (flag_of_flags (pte_of (kmem_mem s0) old x)) by done. by rewrite Hfl. }
  rewrite parent_uaddr by done. rewrite (uaddr_page (kmem_mem s) new x p); [|lia|done| |by rewrite Hflag].
  2:{ destruct Hpok as [_ Hp0]. lia. }
  rewrite Hflag by done. destruct (flag _ PTE_U); [right|by left]. eexists _, _. split; [done|]. split; [done|].
  rewrite (Hd i p Hp) by (apply Z.mod_pos_bound; unfold PGSIZE; lia). unfold copy_cont. by rewrite Hsame.
Qed.

(** The loop as a whole. *)
Lemma uvmcopy_run sz e :
  LkKmem ∉ e_held e -> 0 <= sz <= MAXVA -> PGROUNDUP sz = lim ->
  exists r s' l' T',
    uvmcopy kend old new sz e s0 = Ok r e s' /\
    (r = 0 /\ (exists ps, filled kend s0 l0 T0 new 0 perm cont s' l' T' ps /\ nth_page (length ps) = lim) \/
     r = -1 /\ shrunk_back kend s0 l0 T0 new s' l' T').
Proof using Hkend Hnew Hvmi Hlim Hold Hempty.
  intros Hl Hsz Hr.
  destruct (uvmcopy_loop_spec (Z.to_nat ((sz + PGSIZE - 1) / PGSIZE)) s0 l0 T0 [] e sz Hl)
    as (r & s' & l' & T' & Hrun & Hres); [|done|done| | |].
  - by apply filled_refl.
  - rewrite <- Hr. unfold nth_page. simpl length. pose proof (PGROUNDUP_bounds sz). change MAXVA with 274877906944 in Hsz.
    unfold PGSIZE in *. lia.
  - pose proof (PGROUNDUP_bounds sz) as Hb. rewrite Hr in Hb. destruct Hlim as [Hla _]. change MAXVA with 274877906944 in Hsz.
    unfold pg_aligned, nth_page, PGSIZE in *. simpl length. zdm.
  - exists r, s', l', T'. split; [exact Hrun|done].
Qed.

(** C6: uvmcopy() gives a child its own copy of the parent's memory, or
    nothing.  Whether it succeeds or not, the parent's translation and the
    bytes the parent reads are as before.  On success, 0 is returned, every
    page below [sz] is mapped in the child to a page of its own that was free,
    with the parent's permissions, and the child reads the same bytes as the
    parent; when memory runs out, -1 is returned, the child has no mapping,
    and no page is lost except to page tables. *)
Theorem uvmcopy_correct sz e :
  LkKmem ∉ e_held e -> 0 <= sz <= MAXVA -> PGROUNDUP sz = lim ->
  exists r s' l' T',
    uvmcopy kend old new sz e s0 = Ok r e s' /\
    pt_wf (kmem_mem s') To /\
    (forall x, pte_of (kmem_mem s') old x = pte_of (kmem_mem s0) old x) /\
    (forall va n, 0 <= va -> va + Z.of_nat n <= lim -> uread (kmem_mem s') old va n = uread (kmem_mem s0) old va n) /\
    (r = 0 /\
     (exists ps, filled kend s0 l0 T0 new 0 perm cont s' l' T' ps /\ nth_page (length ps) = lim /\
        (forall p, p ∈ ps -> p ∈ l0)) /\
     (forall va n, 0 <= va -> va + Z.of_nat n <= lim -> uread (kmem_mem s') new va n = uread (kmem_mem s0) old va n) \/
     r = -1 /\ shrunk_back kend s0 l0 T0 new s' l' T').
Proof using Hkend Hnew Hvmi Hlim Hold Hempty.
  intros Hl Hsz Hr. destruct (uvmcopy_run sz e Hl Hsz Hr) as (r & s' & l' & T' & Hrun & Hres).
  assert (Hc : confined s0 l0 T0 s').
  { destruct Hres as [(_ & ps & Hg & _)|[_ Hsb]]; [|apply Hsb].
    destruct (gn_ev _ _ _ _ _ _ _ _ _ _ _ _ Hg) as (used & Hev & _). by eapply evolves_confined. }
  destruct (parent_kept s' Hc) as (Hwf & Hpt & _).
  exists r, s', l', T'. split; [exact Hrun|]. split; [done|]. split; [intros x; apply Hpt|].
  split; [intros va n Hva Hn; by apply parent_reads|].
  destruct Hres as [(-> & ps & Hg & Hps)|?]; [left|by right]. split; [done|]. split.
  - exists ps. split; [done|]. split; [done|]. intros p Hp.
    destruct (gn_ev _ _ _ _ _ _ _ _ _ _ _ _ Hg) as (used & Hev & _ & Hin).
    rewrite (ev_used _ _ _ _ _ _ _ _ Hev). apply elem_of_app. left. by apply Hin.
  - intros va n Hva Hn. by eapply child_reads.
Qed.
End uvmcopy.

(** ** Witness: a parent of one page, an empty child, three free pages *)

Definition demo_child : Z := 0x80070000.
Definition demo_child_tables : gmap Z (nat * Z) := {[ demo_child := (2%nat, 0) ]}.
Definition demo_fork : kmem :=
  mkKmem 0x80041000 (store64 (store64 (kmem_mem demo_user) 0x80041000 0x80042000) 0x80042000 0x80043000).

Lemma demo_fork_same : same_off (fun p => p ∈ demo_free) (kmem_mem demo_user) (kmem_mem demo_fork).
Proof.
  intros x Hx. unfold demo_fork. cbn [kmem_mem].
  pose proof (Hx 0x80041000 ltac:(set_solver)). pose proof (Hx 0x80042000 ltac:(set_solver)).
  rewrite !mget_store64_ne; unfold PGSIZE in *; [done|lia..].
Qed.

Lemma demo_child_entry i : 0 <= i < 512 -> load64 (kmem_mem demo_fork) (slot demo_child i) = 0.
Proof.
  intros Hi. unfold demo_fork, demo_user, slot, demo_child, demo_root. cbn [kmem_mem].
  rewrite !load_store_disj by lia. apply load64_empty.
Qed.

Lemma demo_fork_vmi : vmi demo_end demo_fork demo_free demo_child_tables.
Proof.
  unfold demo_child_tables. split.
  - split.
    + do 3 (constructor; [done|]; vm_compute load64). constructor.
    + apply (bool_decide_unpack (NoDup demo_free)). by vm_compute.
    + repeat (apply Forall_cons; split); try apply Forall_nil; vm_compute; repeat split; congruence.
  - split.
    + intros p l pre [<- _]%lookup_singleton_Some. vm_compute. repeat split; congruence.
    + intros p l pre i [<- _]%lookup_singleton_Some Hi Hf. exfalso. revert Hf. by rewrite demo_child_entry.
  - intros p Hp. apply lookup_singleton_None. intros <-. revert Hp.
    apply (bool_decide_unpack (demo_child ∉ demo_free)). by vm_compute.
Qed.

Lemma demo_fork_empty x : 0 <= x < PGSIZE -> pte_of (kmem_mem demo_fork) demo_child x = 0.
Proof.
  intros Hx. unfold pte_of, pte_from. cbn [pt_leaf]. rewrite demo_child_entry by (apply PX_range; lia). done.
Qed.

Lemma demo_fork_parent :
  parent_ok demo_end (kmem_mem demo_fork) demo_free demo_child_tables demo_user_tables demo_root PGSIZE.
Proof.
  destruct (pt_frame _ (kmem_mem demo_fork) demo_user_tables (fun p => p ∈ demo_free) demo_user_wf) as [Hwf Hpte].
  { apply demo_fork_same. }
  { intros p Hp. unfold demo_free in Hp. rewrite !elem_of_cons, elem_of_nil in Hp.
    destruct Hp as [->|[->|[->|[]]]]; by vm_compute. }
  assert (Hx : forall x, 0 <= x < PGSIZE -> pte_of (kmem_mem demo_fork) demo_root x = 0x20018017).
  { intros x Hx. destruct (Hpte 2%nat demo_root 0 x eq_refl) as [_ Hp]. unfold pte_of. rewrite Hp.
    fold (pte_of (kmem_mem demo_user) demo_root x). change MAXVA with 274877906944. unfold PGSIZE in *.
    rewrite demo_user_pte, decide_True by (unfold PGSIZE; change MAXVA with 274877906944; lia). by vm_compute. }
  split; [done|done| | |].
  - intros p [lab Hp]. unfold demo_user_tables, demo_tables in Hp.
    rewrite !lookup_insert, lookup_singleton in Hp.
    repeat case_decide; simplify_eq; (split; [apply (bool_decide_unpack (_ ∉ demo_free)); by vm_compute|by vm_compute]).
  - intros x Hxr. rewrite Hx by done. split; [by vm_compute|]. intros H. by vm_compute in H.
  - intros x Hxr. rewrite Hx by done. replace (PTE2PA 0x20018017) with 0x80060000 by by vm_compute. cbn zeta.
    split; [vm_compute; repeat split; congruence|].
    split; [apply (bool_decide_unpack (_ ∉ demo_free)); by vm_compute|by vm_compute].
Qed.

Lemma uvmcopy_correct_witness :
  exists s', uvmcopy demo_end demo_root demo_child 100 demo_env demo_fork = Ok 0 demo_env s' /\
    uread (kmem_mem s') demo_child 0 100 = uread (kmem_mem demo_fork) demo_root 0 100.
Proof.
  assert (Hl : PGROUNDUP 100 = PGSIZE) by by vm_compute.
  destruct (uvmcopy_correct demo_end demo_fork demo_free demo_child_tables demo_user_tables demo_root demo_child PGSIZE
    ltac:(by vm_compute) eq_refl demo_fork_vmi ltac:(by vm_compute) demo_fork_parent demo_fork_empty 100 demo_env
    ltac:(apply not_elem_of_nil) ltac:(by vm_compute) Hl) as (r & s' & l' & T' & Hrun & _ & _ & _ & Hres).
  assert (Hr : match uvmcopy demo_end demo_root demo_child 100 demo_env demo_fork with Ok r _ _ => r =? 0 | _ => false end = true)
    by (vm_compute; reflexivity).
  rewrite Hrun in Hr. apply Z.eqb_eq in Hr. subst r. exists s'. split; [exact Hrun|].
  destruct Hres as [(_ & _ & Hread)|[Hbad _]]; [|discriminate Hbad]. apply Hread; unfold PGSIZE; lia.
Defined.
