(* ===== verification/Proc.v ===== *)
(** * kernel/proc.c: the process table, scheduling, sleep and wakeup

    proc[] is the list [procs]; a [struct proc *] is an index, the null pointer
    [None].  The page tables, trapframes and user pages of the processes live
    in the allocator's memory [ps_kmem].  c->proc of every CPU is [cpus];
    printf() calls are recorded, format and arguments, in [klog].

    swtch() suspends the routine at channel [ChSwtch]: its resumption is the
    saved context.  sleep() and wakeup() are those of the source, on p->chan
    and p->state; KMonad's operations of the same names are their projections
    for the components that only sleep and wake (see [sleep_refines]).

    myproc() is [e_me]; the value [NPROC] stands for a CPU that runs no
    process.  The routines that also work on files and inodes (userinit, fork,
    exit, forkret) are in Fork.v. *)

From S2P Require Import Prelude KMonad CString Riscv Kalloc Vm.

Open Scope kmonad_scope.

(** ** proc.h *)

Definition NPROC : nat := 64.
Definition NOFILE : nat := 16.

Definition SCHED_ROUND_ROBIN : Z := 0.
Definition SCHED_FCFS : Z := 1.
Definition SCHED_PRIORITY : Z := 3.

Inductive procstate : Set := UNUSED | USED | SLEEPING | RUNNABLE | RUNNING | ZOMBIE.

#[export] Instance procstate_eq_dec : EqDecision procstate.
Proof. solve_decision. Defined.

(** The value of the enumeration constant. *)
Definition procstate_num (st : procstate) : Z :=
  match st with
  | UNUSED => 0 | USED => 1 | SLEEPING => 2 | RUNNABLE => 3 | RUNNING => 4 | ZOMBIE => 5
  end.

(** ra, sp and the twelve callee-saved registers s0-s11. *)
Record context : Set := mkContext { c_ra : Z; c_sp : Z; c_s : list Z }.

(** Offsets of the fields of struct trapframe that C code names. *)
Definition tf_kernel_satp : Z := 0.
Definition tf_kernel_sp : Z := 8.
Definition tf_kernel_trap : Z := 16.
Definition tf_epc : Z := 24.
Definition tf_kernel_hartid : Z := 32.
Definition tf_sp : Z := 48.
Definition tf_a0 : Z := 112.
Definition tf_a1 : Z := 120.
Definition tf_a7 : Z := 168.
Definition sizeof_trapframe : Z := 288.

Record proc : Set := mkProc {
  p_state : procstate;
  p_chan : option chan;
  p_killed : Z;
  p_xstate : Z;
  p_pid : Z;
  p_parent : option nat;
  p_kstack : Z;
  p_sz : Z;
  p_pagetable : Z;
  p_trapframe : Z;
  p_context : context;
  p_ofile : list (option nat);
  p_cwd : option nat;
  p_name : list Z;
  p_creation_time : Z;
  p_run_time : Z;
  p_waiting_time : Z;
  p_turnaround_time : Z;
  p_finish_time : Z
}.

Definition set_state (v : procstate) (p : proc) : proc :=
  mkProc v (p_chan p) (p_killed p) (p_xstate p) (p_pid p) (p_parent p) (p_kstack p) (p_sz p)
    (p_pagetable p) (p_trapframe p) (p_context p) (p_ofile p) (p_cwd p) (p_name p)
    (p_creation_time p) (p_run_time p) (p_waiting_time p) (p_turnaround_time p)
    (p_finish_time p).
Definition set_chan (v : option chan) (p : proc) : proc :=
  mkProc (p_state p) v (p_killed p) (p_xstate p) (p_pid p) (p_parent p) (p_kstack p) (p_sz p)
    (p_pagetable p) (p_trapframe p) (p_context p) (p_ofile p) (p_cwd p) (p_name p)
    (p_creation_time p) (p_run_time p) (p_waiting_time p) (p_turnaround_time p)
    (p_finish_time p).
Definition set_killed (v : Z) (p : proc) : proc :=
  mkProc (p_state p) (p_chan p) v (p_xstate p) (p_pid p) (p_parent p) (p_kstack p) (p_sz p)
    (p_pagetable p) (p_trapframe p) (p_context p) (p_ofile p) (p_cwd p) (p_name p)
    (p_creation_time p) (p_run_time p) (p_waiting_time p) (p_turnaround_time p)
    (p_finish_time p).
Definition set_xstate (v : Z) (p : proc) : proc :=
  mkProc (p_state p) (p_chan p) (p_killed p) v (p_pid p) (p_parent p) (p_kstack p) (p_sz p)
    (p_pagetable p) (p_trapframe p) (p_context p) (p_ofile p) (p_cwd p) (p_name p)
    (p_creation_time p) (p_run_time p) (p_waiting_time p) (p_turnaround_time p)
    (p_finish_time p).
Definition set_pid (v : Z) (p : proc) : proc :=
  mkProc (p_state p) (p_chan p) (p_killed p) (p_xstate p) v (p_parent p) (p_kstack p) (p_sz p)
    (p_pagetable p) (p_trapframe p) (p_context p) (p_ofile p) (p_cwd p) (p_name p)
    (p_creation_time p) (p_run_time p) (p_waiting_time p) (p_turnaround_time p)
    (p_finish_time p).
Definition set_parent (v : option nat) (p : proc) : proc :=
  mkProc (p_state p) (p_chan p) (p_killed p) (p_xstate p) (p_pid p) v (p_kstack p) (p_sz p)
    (p_pagetable p) (p_trapframe p) (p_context p) (p_ofile p) (p_cwd p) (p_name p)
    (p_creation_time p) (p_run_time p) (p_waiting_time p) (p_turnaround_time p)
    (p_finish_time p).
Definition set_kstack (v : Z) (p : proc) : proc :=
  mkProc (p_state p) (p_chan p) (p_killed p) (p_xstate p) (p_pid p) (p_parent p) v (p_sz p)
    (p_pagetable p) (p_trapframe p) (p_context p) (p_ofile p) (p_cwd p) (p_name p)
    (p_creation_time p) (p_run_time p) (p_waiting_time p) (p_turnaround_time p)
    (p_finish_time p).
Definition set_sz (v : Z) (p : proc) : proc :=
  mkProc (p_state p) (p_chan p) (p_killed p) (p_xstate p) (p_pid p) (p_parent p)
    (p_kstack p) v (p_pagetable p) (p_trapframe p) (p_context p) (p_ofile p) (p_cwd p)
    (p_name p) (p_creation_time p) (p_run_time p) (p_waiting_time p) (p_turnaround_time p)
    (p_finish_time p).
Definition set_pagetable (v : Z) (p : proc) : proc :=
  mkProc (p_state p) (p_chan p) (p_killed p) (p_xstate p) (p_pid p) (p_parent p) (p_kstack p)
    (p_sz p) v (p_trapframe p) (p_context p) (p_ofile p) (p_cwd p) (p_name p)
    (p_creation_time p) (p_run_time p) (p_waiting_time p) (p_turnaround_time p)
    (p_finish_time p).
Definition set_trapframe (v : Z) (p : proc) : proc :=
  mkProc (p_state p) (p_chan p) (p_killed p) (p_xstate p) (p_pid p) (p_parent p) (p_kstack p)
    (p_sz p) (p_pagetable p) v (p_context p) (p_ofile p) (p_cwd p) (p_name p)
    (p_creation_time p) (p_run_time p) (p_waiting_time p) (p_turnaround_time p)
    (p_finish_time p).
Definition set_context (v : context) (p : proc) : proc :=
  mkProc (p_state p) (p_chan p) (p_killed p) (p_xstate p) (p_pid p) (p_parent p) (p_kstack p)
    (p_sz p) (p_pagetable p) (p_trapframe p) v (p_ofile p) (p_cwd p) (p_name p)
    (p_creation_time p) (p_run_time p) (p_waiting_time p) (p_turnaround_time p)
    (p_finish_time p).
Definition set_ofile (v : list (option nat)) (p : proc) : proc :=
  mkProc (p_state p) (p_chan p) (p_killed p) (p_xstate p) (p_pid p) (p_parent p) (p_kstack p)
    (p_sz p) (p_pagetable p) (p_trapframe p) (p_context p) v (p_cwd p) (p_name p)
    (p_creation_time p) (p_run_time p) (p_waiting_time p) (p_turnaround_time p)
    (p_finish_time p).
Definition set_cwd (v : option nat) (p : proc) : proc :=
  mkProc (p_state p) (p_chan p) (p_killed p) (p_xstate p) (p_pid p) (p_parent p) (p_kstack p)
    (p_sz p) (p_pagetable p) (p_trapframe p) (p_context p) (p_ofile p) v (p_name p)
    (p_creation_time p) (p_run_time p) (p_waiting_time p) (p_turnaround_time p)
    (p_finish_time p).
Definition set_name (v : list Z) (p : proc) : proc :=
  mkProc (p_state p) (p_chan p) (p_killed p) (p_xstate p) (p_pid p) (p_parent p) (p_kstack p)
    (p_sz p) (p_pagetable p) (p_trapframe p) (p_context p) (p_ofile p)
    (p_cwd p) v (p_creation_time p) (p_run_time p) (p_waiting_time p) (p_turnaround_time p)
    (p_finish_time p).
Definition set_creation_time (v : Z) (p : proc) : proc :=
  mkProc (p_state p) (p_chan p) (p_killed p) (p_xstate p) (p_pid p) (p_parent p) (p_kstack p)
    (p_sz p) (p_pagetable p) (p_trapframe p) (p_context p) (p_ofile p) (p_cwd p)
    (p_name p) v (p_run_time p) (p_waiting_time p) (p_turnaround_time p) (p_finish_time p).
Definition set_run_time (v : Z) (p : proc) : proc :=
  mkProc (p_state p) (p_chan p) (p_killed p) (p_xstate p) (p_pid p) (p_parent p) (p_kstack p)
    (p_sz p) (p_pagetable p) (p_trapframe p) (p_context p) (p_ofile p) (p_cwd p) (p_name p)
    (p_creation_time p) v (p_waiting_time p) (p_turnaround_time p) (p_finish_time p).
Definition set_waiting_time (v : Z) (p : proc) : proc :=
  mkProc (p_state p) (p_chan p) (p_killed p) (p_xstate p) (p_pid p) (p_parent p) (p_kstack p)
    (p_sz p) (p_pagetable p) (p_trapframe p) (p_context p) (p_ofile p) (p_cwd p) (p_name p)
    (p_creation_time p) (p_run_time p) v (p_turnaround_time p) (p_finish_time p).
Definition set_turnaround_time (v : Z) (p : proc) : proc :=
  mkProc (p_state p) (p_chan p) (p_killed p) (p_xstate p) (p_pid p) (p_parent p) (p_kstack p)
    (p_sz p) (p_pagetable p) (p_trapframe p) (p_context p) (p_ofile p) (p_cwd p) (p_name p)
    (p_creation_time p) (p_run_time p) (p_waiting_time p) v (p_finish_time p).
Definition set_finish_time (v : Z) (p : proc) : proc :=
  mkProc (p_state p) (p_chan p) (p_killed p) (p_xstate p) (p_pid p) (p_parent p) (p_kstack p)
    (p_sz p) (p_pagetable p) (p_trapframe p) (p_context p) (p_ofile p) (p_cwd p) (p_name p)
    (p_creation_time p) (p_run_time p) (p_waiting_time p) (p_turnaround_time p) v.

(** The zeroed struct proc of a booting kernel. *)
Definition proc0 : proc :=
  mkProc UNUSED None 0 0 0 None 0 0 0 0 (mkContext 0 0 (replicate 12 0))
    (replicate NOFILE None) None (replicate 16 0) 0 0 0 0 0.

#[export] Instance proc_inhabited : Inhabited proc := populate proc0.

(** Arguments of a printf() call. *)
Inductive parg : Set := PInt (v : Z) | PStr (s : list Z).

Record pstate : Type := mkPstate {
  procs : list proc;             (* proc[NPROC] *)
  nextpid : Z;
  initproc : option nat;
  cpus : list (option nat);      (* cpus[c].proc *)
  ticks : Z;                     (* trap.c *)
  sched_mode : Z;
  klog : list (string * list parg);   (* printf() calls, latest first *)
  ps_kmem : kmem
}.

Definition nth_proc (i : nat) (s : pstate) : proc := procs s !!! i.
Definition upd_proc (i : nat) (f : proc -> proc) (s : pstate) : pstate :=
  mkPstate (alter f i (procs s)) (nextpid s) (initproc s) (cpus s) (ticks s) (sched_mode s)
    (klog s) (ps_kmem s).
Definition set_nextpid (v : Z) (s : pstate) : pstate :=
  mkPstate (procs s) v (initproc s) (cpus s) (ticks s) (sched_mode s) (klog s) (ps_kmem s).
Definition set_initproc (v : option nat) (s : pstate) : pstate :=
  mkPstate (procs s) (nextpid s) v (cpus s) (ticks s) (sched_mode s) (klog s) (ps_kmem s).
Definition set_cpu (c : nat) (v : option nat) (s : pstate) : pstate :=
  mkPstate (procs s) (nextpid s) (initproc s) (<[c := v]> (cpus s)) (ticks s) (sched_mode s)
    (klog s) (ps_kmem s).
Definition set_ticks (v : Z) (s : pstate) : pstate :=
  mkPstate (procs s) (nextpid s) (initproc s) (cpus s) v (sched_mode s) (klog s) (ps_kmem s).
Definition add_klog (x : string * list parg) (s : pstate) : pstate :=
  mkPstate (procs s) (nextpid s) (initproc s) (cpus s) (ticks s) (sched_mode s) (x :: klog s)
    (ps_kmem s).
Definition set_kmem (v : kmem) (s : pstate) : pstate :=
  mkPstate (procs s) (nextpid s) (initproc s) (cpus s) (ticks s) (sched_mode s) (klog s) v.

Definition getp {A} (i : nat) (f : proc -> A) : K pstate A := gets (fun s => f (nth_proc i s)).
Definition modp (i : nat) (f : proc -> proc) : K pstate unit := modify (upd_proc i f).
Definition kmm {A} (m : K kmem A) : K pstate A := zoom ps_kmem set_kmem m.
Definition printf (fmt : string) (args : list parg) : K pstate unit :=
  modify (add_klog (fmt, args)).

(** Two character arrays in a memory of their own: [dst] after
    safestrcpy(dst, src, n). *)
Definition strcpy_into (dst src : list Z) (n : Z) : list Z :=
  mread (safestrcpy (mwrite (mwrite ∅ 0 dst) 4096 src) 0 4096 n) 0 (length dst).

Section proc.
(** Linker symbols: end of the kernel, the trampoline page, forkret(). *)
Variables kend trampoline forkret_addr : Z.

(** ** Initialisation *)

Fixpoint procinit_loop (n i : nat) : K pstate unit :=
  match n with
  | O => ret tt
  | S n =>
      modp i (set_state UNUSED) ;;;
      modp i (set_kstack (KSTACK (Z.of_nat i))) ;;;
      procinit_loop n (S i)
  end.

Definition procinit : K pstate unit := procinit_loop NPROC 0.

Definition allocpid : K pstate Z :=
  acquire LkPid ;;;
  pid <- gets nextpid ;;
  modify (set_nextpid (i32 (pid + 1))) ;;;
  release LkPid ;;;
  ret pid.

(** ** Page tables of processes *)

Definition proc_pagetable (i : nat) : K pstate Z :=
  pagetable <- kmm uvmcreate ;;
  if pagetable =? 0 then ret 0
  else
    r <- kmm (mappages pagetable TRAMPOLINE PGSIZE trampoline (Z.lor PTE_R PTE_X)) ;;
    if r <? 0 then
      kmm (uvmfree kend pagetable 0) ;;; ret 0
    else
      tf <- getp i p_trapframe ;;
      r <- kmm (mappages pagetable TRAPFRAME PGSIZE tf (Z.lor PTE_R PTE_W)) ;;
      if r <? 0 then
        kmm (uvmunmap kend pagetable TRAMPOLINE 1 false) ;;;
        kmm (uvmfree kend pagetable 0) ;;;
        ret 0
      else ret pagetable.

Definition proc_freepagetable (pagetable sz : Z) : K pstate unit :=
  kmm (uvmunmap kend pagetable TRAMPOLINE 1 false) ;;;
  kmm (uvmunmap kend pagetable TRAPFRAME 1 false) ;;;
  kmm (uvmfree kend pagetable sz).

(** ** Allocation of a slot *)

Definition freeproc (i : nat) : K pstate unit :=
  tf <- getp i p_trapframe ;;
  (when negb (tf =? 0) do kmm (kfree kend tf)) ;;;
  modp i (set_trapframe 0) ;;;
  pt <- getp i p_pagetable ;;
  sz <- getp i p_sz ;;
  (when negb (pt =? 0) do proc_freepagetable pt sz) ;;;
  modp i (set_pagetable 0) ;;;
  modp i (set_sz 0) ;;;
  modp i (set_pid 0) ;;;
  modp i (set_parent None) ;;;
  modp i (fun p => set_name (<[0%nat := 0]> (p_name p)) p) ;;;
  modp i (set_chan None) ;;;
  modp i (set_killed 0) ;;;
  modp i (set_xstate 0) ;;;
  modp i (set_state UNUSED) ;;;
  modp i (set_creation_time 0) ;;;
  modp i (set_run_time 0) ;;;
  modp i (set_waiting_time 0) ;;;
  modp i (set_turnaround_time 0) ;;;
  modp i (set_finish_time 0).

(** The scan for an UNUSED slot; its lock is held on return. *)
Fixpoint allocproc_scan (n i : nat) : K pstate (option nat) :=
  match n with
  | O => ret None
  | S n =>
      acquire (LkProc i) ;;;
      st <- getp i p_state ;;
      if decide (st = UNUSED) then ret (Some i)
      else release (LkProc i) ;;; allocproc_scan n (S i)
  end.

(** The code after the label found. *)
Definition allocproc_found (i : nat) : K pstate (option nat) :=
  pid <- allocpid ;;
  modp i (set_pid pid) ;;;
  modp i (set_state USED) ;;;
  tf <- kmm kalloc ;;
  modp i (set_trapframe tf) ;;;
  if tf =? 0 then
    freeproc i ;;; release (LkProc i) ;;; ret None
  else
    pt <- proc_pagetable i ;;
    modp i (set_pagetable pt) ;;;
    if pt =? 0 then
      freeproc i ;;; release (LkProc i) ;;; ret None
    else
      modp i (set_context (mkContext 0 0 (replicate 12 0))) ;;;
      modp i (fun p => set_context (mkContext forkret_addr (p_kstack p + PGSIZE) (c_s (p_context p))) p) ;;;
      now <- gets ticks ;;
      modp i (set_creation_time now) ;;;
      modp i (set_run_time 0) ;;;
      modp i (set_waiting_time 0) ;;;
      modp i (set_turnaround_time 0) ;;;
      modp i (set_finish_time 0) ;;;
      ret (Some i).

Definition allocproc : K pstate (option nat) :=
  r <- allocproc_scan NPROC 0 ;;
  match r with
  | None => ret None
  | Some i => allocproc_found i
  end.

(** ** Memory size *)

Definition growproc (n : Z) : K pstate Z :=
  i <- asks e_me ;;
  sz <- getp i p_sz ;;
  pt <- getp i p_pagetable ;;
  if 0 <? n then
    sz' <- kmm (uvmalloc kend pt sz (u64 (sz + n)) PTE_W) ;;
    if sz' =? 0 then ret (-1)
    else modp i (set_sz sz') ;;; ret 0
  else if n <? 0 then
    sz' <- kmm (uvmdealloc kend pt sz (u64 (sz + n))) ;;
    modp i (set_sz sz') ;;; ret 0
  else modp i (set_sz sz) ;;; ret 0.

(** ** Scheduling *)

(** swtch(): everything up to the switch has happened; the rest of the
    thread is the resumption. *)
Definition swtch : K pstate unit := fun e s => Sleep ChSwtch e s (fun e' s' => Ok tt e' s').

(** noff counts the nested push_off() calls: one per spinlock held.  With
    p->lock held interrupts are off, so intr_get() is 0. *)
Definition sched : K pstate unit :=
  i <- asks e_me ;;
  h <- asks (holding (LkProc i)) ;;
  if negb h then panic "sched p->lock"
  else
    noff <- asks (fun e => length (e_held e)) ;;
    if negb (noff =? 1)%nat then panic "sched locks"
    else
      st <- getp i p_state ;;
      if decide (st = RUNNING) then panic "sched running"
      else swtch.

Definition yield : K pstate unit :=
  i <- asks e_me ;;
  acquire (LkProc i) ;;;
  modp i (set_state RUNNABLE) ;;;
  sched ;;;
  release (LkProc i).

Definition sleep (ch : option chan) (lk : lockid) : K pstate unit :=
  i <- asks e_me ;;
  acquire (LkProc i) ;;;
  release lk ;;;
  modp i (set_chan ch) ;;;
  modp i (set_state SLEEPING) ;;;
  sched ;;;
  modp i (set_chan None) ;;;
  release (LkProc i) ;;;
  acquire lk.

Fixpoint wakeup_loop (n i : nat) (ch : option chan) : K pstate unit :=
  match n with
  | O => ret tt
  | S n =>
      me <- asks e_me ;;
      (if decide (i = me) then ret tt
       else
         acquire (LkProc i) ;;;
         p <- getp i (fun p => p) ;;
         (when bool_decide (p_state p = SLEEPING /\ p_chan p = ch) do
            modp i (set_state RUNNABLE)) ;;;
         release (LkProc i)) ;;;
      wakeup_loop n (S i) ch
  end.

Definition wakeup (ch : option chan) : K pstate unit := wakeup_loop NPROC 0 ch.

Fixpoint kill_loop (n i : nat) (pid : Z) : K pstate Z :=
  match n with
  | O => ret (-1)
  | S n =>
      acquire (LkProc i) ;;;
      p <- getp i (fun p => p) ;;
      if p_pid p =? pid then
        modp i (set_killed 1) ;;;
        (when bool_decide (p_state p = SLEEPING) do modp i (set_state RUNNABLE)) ;;;
        release (LkProc i) ;;;
        ret 0
      else
        release (LkProc i) ;;;
        kill_loop n (S i) pid
  end.

Definition kill (pid : Z) : K pstate Z := kill_loop NPROC 0 pid.

Definition setkilled (i : nat) : K pstate unit :=
  acquire (LkProc i) ;;;
  modp i (set_killed 1) ;;;
  release (LkProc i).

Definition killed (i : nat) : K pstate Z :=
  acquire (LkProc i) ;;;
  k <- getp i p_killed ;;
  release (LkProc i) ;;;
  ret k.

Fixpoint update_time_loop (n i : nat) : K pstate unit :=
  match n with
  | O => ret tt
  | S n =>
      acquire (LkProc i) ;;;
      st <- getp i p_state ;;
      (when bool_decide (st = RUNNING) do
         modp i (fun p => set_run_time (u32 (p_run_time p + 1)) p)) ;;;
      release (LkProc i) ;;;
      update_time_loop n (S i)
  end.

Definition update_time : K pstate unit := update_time_loop NPROC 0.

(** The three policies of choose_next_process(). *)
Fixpoint choose_rr (n i : nat) : K pstate (option nat) :=
  match n with
  | O => ret None
  | S n =>
      st <- getp i p_state ;;
      if decide (st = RUNNABLE) then ret (Some i) else choose_rr n (S i)
  end.

Fixpoint choose_fcfs (n i : nat) (chosen : option nat) : K pstate (option nat) :=
  match n with
  | O => ret chosen
  | S n =>
      q <- getp i (fun p => p) ;;
      chosen' <-
        (if decide (p_state q = RUNNABLE) then
           match chosen with
           | None => ret (Some i)
           | Some c =>
               ct <- getp c p_creation_time ;;
               ret (if p_creation_time q <? ct then Some i else chosen)
           end
         else ret chosen) ;;
      choose_fcfs n (S i) chosen'
  end.

Fixpoint choose_priority (n i : nat) (chosen : option nat) : K pstate (option nat) :=
  match n with
  | O => ret chosen
  | S n =>
      acquire (LkProc i) ;;;
      q <- getp i (fun p => p) ;;
      chosen' <-
        (if decide (p_state q = RUNNABLE) then
           match chosen with
           | None => ret (Some i)
           | Some c =>
               ct <- getp c p_creation_time ;;
               ret (if ct <? p_creation_time q then Some i else chosen)
           end
         else ret chosen) ;;
      release (LkProc i) ;;;
      choose_priority n (S i) chosen'
  end.

Definition choose_next_process : K pstate (option nat) :=
  mode <- gets sched_mode ;;
  if mode =? SCHED_ROUND_ROBIN then choose_rr NPROC 0
  else if mode =? SCHED_FCFS then choose_fcfs NPROC 0 None
  else if mode =? SCHED_PRIORITY then choose_priority NPROC 0 None
  else ret None.

(** One pass of the for(;;) of scheduler() on CPU [c]; the result is found. *)
Definition scheduler_pass (c : nat) : K pstate bool :=
  r <- choose_next_process ;;
  match r with
  | None => ret false
  | Some i =>
      acquire (LkProc i) ;;;
      p <- getp i (fun p => p) ;;
      if decide (p_state p = RUNNABLE) then
        modp i (set_state RUNNING) ;;;
        modify (set_cpu c (Some i)) ;;;
        printf "[SCHED] CPU %d -> PID %d (ctime=%d)\n"
          [PInt (Z.of_nat c); PInt (p_pid p); PInt (p_creation_time p)] ;;;
        swtch ;;;
        modify (set_cpu c None) ;;;
        release (LkProc i) ;;;
        ret true
      else
        release (LkProc i) ;;; ret false
  end.

(** scheduler(): the loop never ends; [n] passes of it. *)
Fixpoint scheduler_loop (n c : nat) : K pstate unit :=
  match n with
  | O => out_of_fuel
  | S n => scheduler_pass c ;;; scheduler_loop n c
  end.

Definition scheduler (n c : nat) : K pstate unit :=
  modify (set_cpu c None) ;;; scheduler_loop n c.

(** ** Children *)

Fixpoint reparent_loop (n pp p : nat) : K pstate unit :=
  match n with
  | O => ret tt
  | S n =>
      par <- getp pp p_parent ;;
      (when bool_decide (par = Some p) do
         (ip <- gets initproc ;;
          modp pp (set_parent ip) ;;;
          wakeup (ChProc <$> ip))) ;;;
      reparent_loop n (S pp) p
  end.

Definition reparent (p : nat) : K pstate unit := reparent_loop NPROC 0 p.

(** The end of exit(), from acquire(&wait_lock) on: the process becomes a
    zombie and enters the scheduler. *)
Definition exit_zombie (p : nat) (status : Z) : K pstate unit :=
  acquire LkWait ;;;
  reparent p ;;;
  par <- getp p p_parent ;;
  wakeup (ChProc <$> par) ;;;
  acquire (LkProc p) ;;;
  modp p (set_xstate status) ;;;
  modp p (set_state ZOMBIE) ;;;
  now <- gets ticks ;;
  modp p (set_finish_time now) ;;;
  modp p (fun x => set_turnaround_time (u32 (p_finish_time x - p_creation_time x)) x) ;;;
  modp p (fun x => set_waiting_time (u32 (p_turnaround_time x - p_run_time x)) x) ;;;
  release LkWait ;;;
  sched ;;;
  panic "zombie exit".

(** What a scan for an exited child ended with: it returned the value, or it
    reached the end of the table with havekids. *)
Inductive scan : Set := Returned (v : Z) | Havekids (b : bool).

(** The scan shared by wait() and getprocinfo(), whose bodies differ only in
    what they copy out of the zombie: [info] gives these bytes. *)
Fixpoint reap_scan (info : Z -> proc -> list Z) (n pp p : nat) (addr : Z) (havekids : bool)
    : K pstate scan :=
  match n with
  | O => ret (Havekids havekids)
  | S n =>
      par <- getp pp p_parent ;;
      if decide (par = Some p) then
        acquire (LkProc pp) ;;;
        q <- getp pp (fun q => q) ;;
        if decide (p_state q = ZOMBIE) then
          pt <- getp p p_pagetable ;;
          now <- gets ticks ;;
          r <- (if addr =? 0 then ret 0 else kmm (copyout pt addr (info now q))) ;;
          if r <? 0 then
            release (LkProc pp) ;;; release LkWait ;;; ret (Returned (-1))
          else
            freeproc pp ;;;
            release (LkProc pp) ;;;
            release LkWait ;;;
            ret (Returned (p_pid q))
        else
          release (LkProc pp) ;;;
          reap_scan info n (S pp) p addr true
      else reap_scan info n (S pp) p addr havekids
  end.

Fixpoint reap_loop (info : Z -> proc -> list Z) (fuel : nat) (p : nat) (addr : Z) : K pstate Z :=
  r <- reap_scan info NPROC 0 p addr false ;;
  match r with
  | Returned v => ret v
  | Havekids havekids =>
      k <- (if havekids then killed p else ret 0) ;;
      if negb havekids || negb (k =? 0) then
        release LkWait ;;; ret (-1)
      else
        match fuel with
        | O => out_of_fuel
        | S fuel =>
            sleep (Some (ChProc p)) LkWait ;;;
            reap_loop info fuel p addr
        end
  end.

(** wait(): (char * )&pp->xstate *)
Definition wait_info (_ : Z) (pp : proc) : list Z := le_bytes 4 (p_xstate pp).

Definition wait (addr : Z) : K pstate Z :=
  p <- asks e_me ;;
  acquire LkWait ;;;
  n <- asks e_spin ;;
  reap_loop wait_info n p addr.

(** getprocinfo(): the six ints of struct sched_stat. *)
Definition sched_stat_info (now : Z) (pp : proc) : list Z :=
  le_bytes 4 (p_pid pp) ++ le_bytes 4 (i32 now) ++ le_bytes 4 (p_run_time pp) ++
  le_bytes 4 (p_waiting_time pp) ++ le_bytes 4 (p_turnaround_time pp) ++
  le_bytes 4 (p_finish_time pp).

Definition getprocinfo (addr : Z) : K pstate Z :=
  p <- asks e_me ;;
  acquire LkWait ;;;
  n <- asks e_spin ;;
  reap_loop sched_stat_info n p addr.

(** ** Copies to and from user or kernel memory *)

Definition either_copyout (user_dst : bool) (dst : Z) (src : list Z) : K pstate Z :=
  i <- asks e_me ;;
  if user_dst then
    pt <- getp i p_pagetable ;;
    kmm (copyout pt dst src)
  else kmm (put_bytes dst src) ;;; ret 0.

Definition either_copyin (user_src : bool) (src len : Z) : K pstate (Z * list Z) :=
  i <- asks e_me ;;
  if user_src then
    pt <- getp i p_pagetable ;;
    kmm (copyin pt src len)
  else
    bs <- kmm (gets (fun s => mread (kmem_mem s) src (Z.to_nat len))) ;;
    ret (0, bs).

(** ** Listings *)

Definition state_name (st : procstate) : string :=
  match st with
  | UNUSED => "unused" | USED => "used" | SLEEPING => "sleep "
  | RUNNABLE => "runble" | RUNNING => "run   " | ZOMBIE => "zombie"
  end.

Definition string_bytes (s : string) : list Z :=
  map (fun c => Z.of_N (Ascii.N_of_ascii c)) (String.list_ascii_of_string s).

Fixpoint procdump_loop (n i : nat) : K pstate unit :=
  match n with
  | O => ret tt
  | S n =>
      p <- getp i (fun p => p) ;;
      (if decide (p_state p = UNUSED) then ret tt
       else
         printf "%d %s %s" [PInt (p_pid p); PStr (string_bytes (state_name (p_state p)));
                            PStr (until_nul (p_name p))] ;;;
         printf "\n" []) ;;;
      procdump_loop n (S i)
  end.

Definition procdump : K pstate unit :=
  printf "\n" [] ;;;
  procdump_loop NPROC 0.

(** struct proc_info: pid, ppid, state, name[16], four bytes of padding, sz. *)
Definition sizeof_proc_info : Z := 40.

Definition proc_info_bytes (pid ppid state : Z) (name pad : list Z) (sz : Z) : list Z :=
  le_bytes 4 pid ++ le_bytes 4 ppid ++ le_bytes 4 state ++ name ++ pad ++ le_bytes 8 sz.

(** pinfo lives on the stack: [name] and [pad] are what its name array and
    its padding hold on entry to the loop body. *)
Fixpoint getptable_loop (n i : nat) (count nproc buffer : Z) (name pad : list Z) : K pstate Z :=
  match n with
  | O => ret 1
  | S n =>
      if negb (count <? nproc) then ret 1
      else
        acquire (LkProc i) ;;;
        p <- getp i (fun p => p) ;;
        if decide (p_state p = UNUSED) then
          release (LkProc i) ;;;
          getptable_loop n (S i) count nproc buffer name pad
        else
          ppid <- (match p_parent p with None => ret 0 | Some j => getp j p_pid end) ;;
          let name := strcpy_into name (p_name p) 16 in
          me <- asks e_me ;;
          pt <- getp me p_pagetable ;;
          r <- kmm (copyout pt (u64 (buffer + count * sizeof_proc_info))
                 (proc_info_bytes (p_pid p) ppid (procstate_num (p_state p)) name pad (p_sz p))) ;;
          if r <? 0 then
            release (LkProc i) ;;; ret 0
          else
            release (LkProc i) ;;;
            getptable_loop n (S i) (count + 1) nproc buffer name pad
  end.

Definition getptable (nproc buffer : Z) (stack_name stack_pad : list Z) : K pstate Z :=
  if nproc <? 1 then ret 0
  else getptable_loop NPROC 0 0 nproc buffer stack_name stack_pad.

End proc.
