(* ===== verification/ProcSpec.v ===== *)
(** * What the process table and the scheduler promise

    The scheduling policies, sleep and wakeup, kill, and the invariant of the
    process table. *)

From Stdlib Require Import Sorted.
From S2P Require Import Prelude KMonad CString Riscv Kalloc Vm Proc.
Open Scope kmonad_scope.

(** ** Definitions of the specifications *)

(** The order in which choose_next_process() prefers creation times. *)
Definition policy (mode : Z) : Z -> Z -> bool :=
  if mode =? SCHED_FCFS then Z.ltb
  else if mode =? SCHED_PRIORITY then fun a b => b <? a
  else fun _ _ => false.

Definition ctime (s : pstate) (i : nat) : Z := p_creation_time (nth_proc i s).
Definition is_runnable (s : pstate) (i : nat) : Prop := p_state (nth_proc i s) = RUNNABLE.

#[export] Instance is_runnable_dec s i : Decision (is_runnable s i).
Proof. unfold is_runnable. apply _. Defined.

(** [r] is the best of the RUNNABLE slots below [n], the first of equals. *)
Definition chosen_by (before : Z -> Z -> bool) (s : pstate) (n : nat) (r : option nat) : Prop :=
  match r with
  | None => forall j, (j < n)%nat -> ~ is_runnable s j
  | Some i =>
      (i < n)%nat /\ is_runnable s i /\
      forall j, (j < n)%nat -> is_runnable s j ->
        before (ctime s j) (ctime s i) = false /\
        (before (ctime s i) (ctime s j) = false -> (i <= j)%nat)
  end.

(** The scans as one pure function. *)
Fixpoint best (before : Z -> Z -> bool) (s : pstate) (n i : nat) (chosen : option nat) : option nat :=
  match n with
  | O => chosen
  | S n =>
      best before s n (S i)
        (if decide (is_runnable s i) then
           match chosen with
           | None => Some i
           | Some c => if before (ctime s i) (ctime s c) then Some i else chosen
           end
         else chosen)
  end.

(** No p->lock is held. *)
Definition no_plock (e : env) : Prop := forall i, LkProc i ∉ e_held e.

(** What may happen while CPU [c] is concerned with process [i]: interrupts,
    system calls and other CPUs change anything but the state and the creation
    time of [i], the policy and the process of the CPU. *)
Record undisturbed (c i : nat) (s s' : pstate) : Prop := {
  un_procs : length (procs s') = length (procs s);
  un_cpu : cpus s' !! c = cpus s !! c;
  un_mode : sched_mode s' = sched_mode s;
  un_state : p_state (nth_proc i s') = p_state (nth_proc i s);
  un_ctime : ctime s' i = ctime s i
}.

(** One turn of CPU [c]: scheduler() dispatches process [i], which runs until
    it calls yield(), the scheduler resumes and goes on to its next choice. *)
Inductive turn (c : nat) (s : pstate) (i : nat) (s' : pstate) : Prop :=
  turn_intro es es1 es2 ep ep1 k kp s1 s2 s3 s4 s5 :
    e_held es = [] -> scheduler_pass c es s = Sleep ChSwtch es1 s1 k -> cpus s1 !! c = Some (Some i) ->
    undisturbed c i s1 s2 ->
    e_me ep = i -> e_held ep = [] -> yield ep s2 = Sleep ChSwtch ep1 s3 kp ->
    undisturbed c i s3 s4 ->
    k es1 s4 = Ok true es2 s5 ->
    undisturbed c i s5 s' ->
    turn c s i s'.

(** The processes a CPU dispatches in turn, with their creation times. *)
Inductive turns (c : nat) : pstate -> list (nat * Z) -> Prop :=
  | turns_nil s : turns c s []
  | turns_cons s i s' l : turn c s i s' -> turns c s' l -> turns c s ((i, ctime s i) :: l).

(** [y] ranks at least as high as [x]: it comes first by the policy, or
    neither does and its slot is not behind that of [x]. *)
Definition no_worse (before : Z -> Z -> bool) (x y : nat * Z) : Prop :=
  before x.2 y.2 = false /\ (before y.2 x.2 = false -> (y.1 <= x.1)%nat).

(** ** The table *)

Lemma nth_upd_proc s i j f :
  (i < length (procs s))%nat ->
  nth_proc j (upd_proc i f s) = if decide (j = i) then f (nth_proc i s) else nth_proc j s.
Proof.
  intros Hi. unfold nth_proc, upd_proc. cbn [procs]. case_decide as Hd.
  - subst. rewrite !list_lookup_total_alt, list_lookup_alter.
    destruct (lookup_lt_is_Some_2 (procs s) i Hi) as [x ->]. by rewrite decide_True.
  - by rewrite !list_lookup_total_alt, list_lookup_alter_ne by done.
Qed.

Lemma nth_upd_same s i f :
  (i < length (procs s))%nat -> nth_proc i (upd_proc i f s) = f (nth_proc i s).
Proof. intros. rewrite nth_upd_proc by done. by rewrite decide_True. Qed.

Lemma nth_upd_other s i j f :
  (i < length (procs s))%nat -> j <> i -> nth_proc j (upd_proc i f s) = nth_proc j s.
Proof. intros. rewrite nth_upd_proc by done. by rewrite decide_False. Qed.

Lemma length_upd_proc s i f : length (procs (upd_proc i f s)) = length (procs s).
Proof. apply length_alter. Qed.

(** ** Choosing the next process *)

Lemma choose_fcfs_eq e s n i c :
  choose_fcfs n i c e s = Ok (best Z.ltb s n i c) e s.
Proof.
  revert i c. induction n as [|n IH]; intros i c; [done|]. cbn [choose_fcfs best]. krun.
  unfold getp at 1. krun. unfold is_runnable at 1.
  destruct (decide (p_state (nth_proc i s) = RUNNABLE)); [|apply IH].
  destruct c as [c|]; [|apply IH]. unfold getp. krun. apply IH.
Qed.

Lemma choose_priority_eq e s n i c :
  no_plock e ->
  choose_priority n i c e s = Ok (best (fun a b => b <? a) s n i c) e s.
Proof.
  intros He. revert i c. induction n as [|n IH]; intros i c; [done|]. cbn [choose_priority best].
  rewrite bind_eq, acquire_eq by apply He. krun. unfold getp at 1. krun. unfold is_runnable at 1.
  destruct (decide (p_state (nth_proc i s) = RUNNABLE)); [|krun; apply IH].
  destruct c as [c|]; [|krun; apply IH]. unfold getp. krun. apply IH.
Qed.

Lemma best_keeps s n i c : best (fun _ _ => false) s n i (Some c) = Some c.
Proof. revert i. induction n as [|n IH]; intros i; [done|]. cbn [best]. by case_decide. Qed.

Lemma choose_rr_eq e s n i : choose_rr n i e s = Ok (best (fun _ _ => false) s n i None) e s.
Proof.
  revert i. induction n as [|n IH]; intros i; [done|]. cbn [choose_rr best]. unfold getp at 1. krun.
  destruct (decide (p_state (nth_proc i s) = RUNNABLE)), (decide (is_runnable s i)); try done.
  by rewrite best_keeps.
Qed.

Section best.
Context (before : Z -> Z -> bool) (s : pstate).
Context (asym : forall a b, before a b = true -> before b a = false).
Context (negtrans : forall a b c, before a b = false -> before b c = false -> before a c = false).

Lemma chosen_by_next i c :
  chosen_by before s i c ->
  chosen_by before s (S i)
    (if decide (is_runnable s i) then
       match c with
       | None => Some i
       | Some k => if before (ctime s i) (ctime s k) then Some i else c
       end
     else c).
Proof.
  assert (irr : forall a, before a a = false)
    by (intros a; destruct (before a a) eqn:E; [by rewrite (asym _ _ E) in E|done]).
  destruct c as [c|]; cbn [chosen_by].
  - intros (Hc & Hrc & Hbest). case_decide as Hi.
    + destruct (before (ctime s i) (ctime s c)) eqn:Hb; cbn [chosen_by].
      * split; [lia|]. split; [done|]. intros j Hj Hrj.
        destruct (decide (j = i)) as [->|Hne]; [by rewrite irr|].
        destruct (Hbest j) as [Hjc _]; [lia|done|].
        destruct (before (ctime s i) (ctime s j)) eqn:Hij; [by rewrite (asym _ _ Hij)|].
        rewrite (negtrans _ _ _ Hij Hjc) in Hb. done.
      * split; [lia|]. split; [done|]. intros j Hj Hrj.
        destruct (decide (j = i)) as [->|Hne]; [split; [done|lia]|]. apply Hbest; [lia|done].
    + split; [lia|]. split; [done|]. intros j Hj Hrj.
      destruct (decide (j = i)) as [->|Hne]; [done|]. apply Hbest; [lia|done].
  - intros Hnone. case_decide as Hi; cbn [chosen_by].
    + split; [lia|]. split; [done|]. intros j Hj Hrj.
      destruct (decide (j = i)) as [->|Hne]; [by rewrite irr|]. exfalso. apply (Hnone j); [lia|done].
    + intros j Hj. destruct (decide (j = i)) as [->|Hne]; [done|]. apply Hnone. lia.
Qed.

Lemma best_spec n i c : chosen_by before s i c -> chosen_by before s (i + n) (best before s n i c).
Proof.
  revert i c. induction n as [|n IH]; intros i c Hc; cbn [best].
  - by rewrite Nat.add_0_r.
  - replace (i + S n)%nat with (S i + n)%nat by lia. apply IH. by apply chosen_by_next.
Qed.
End best.

Lemma policy_asym mode a b : policy mode a b = true -> policy mode b a = false.
Proof. unfold policy. repeat case_match; try done; rewrite !Z.ltb_lt, !Z.ltb_ge; lia. Qed.

Lemma policy_negtrans mode a b c :
  policy mode a b = false -> policy mode b c = false -> policy mode a c = false.
Proof. unfold policy. repeat case_match; try done; rewrite !Z.ltb_ge; lia. Qed.

Lemma chosen_by_unique before s n i j :
  chosen_by before s n (Some i) -> chosen_by before s n (Some j) -> i = j.
Proof.
  intros (Hi & Hri & Hbi) (Hj & Hrj & Hbj).
  destruct (Hbi j Hj Hrj) as [H1 H2], (Hbj i Hi Hri) as [H3 H4]. specialize (H2 H3). specialize (H4 H1). lia.
Qed.

Definition a_policy (mode : Z) : Prop :=
  mode = SCHED_ROUND_ROBIN \/ mode = SCHED_FCFS \/ mode = SCHED_PRIORITY.

Lemma choose_run e s :
  no_plock e -> a_policy (sched_mode s) ->
  exists r, choose_next_process e s = Ok r e s /\
    chosen_by (policy (sched_mode s)) s NPROC r.
Proof.
  intros He Hm. exists (best (policy (sched_mode s)) s NPROC 0 None). split.
  - unfold choose_next_process. krun. unfold policy.
    destruct Hm as [-> | [-> | ->]]; cbn [Z.eqb SCHED_ROUND_ROBIN SCHED_FCFS SCHED_PRIORITY Pos.eqb].
    + apply choose_rr_eq.
    + apply choose_fcfs_eq.
    + by apply choose_priority_eq.
  - apply (best_spec _ _ (policy_asym _) (policy_negtrans _) NPROC 0 None). intros j Hj. lia.
Qed.

(** C37: choose_next_process() never panics and leaves the table as it found
    it.  It returns null exactly when no process is RUNNABLE; otherwise it
    returns a RUNNABLE process: under SCHED_FCFS the one created first, under
    SCHED_PRIORITY the one created last, under SCHED_ROUND_ROBIN the one in
    the first slot; slots of equal rank go by position. *)
Theorem choose_next_process_correct e s :
  no_plock e -> a_policy (sched_mode s) ->
  exists r, choose_next_process e s = Ok r e s /\
    (r = None <-> forall j, (j < NPROC)%nat -> ~ is_runnable s j) /\
    chosen_by (policy (sched_mode s)) s NPROC r.
Proof.
  intros He Hm. destruct (choose_run e s He Hm) as (r & Hr & Hc).
  exists r. split; [done|]. split; [|done]. destruct r as [i|]; [|done]. split; [done|].
  destruct Hc as (Hi & Hri & _). intros Hno. by destruct (Hno i Hi).
Qed.

(** ** Turns of a CPU *)

Lemma lookup_proc s i : (i < length (procs s))%nat -> procs s !! i = Some (nth_proc i s).
Proof. intros Hi. unfold nth_proc. by apply list_lookup_lookup_total_lt. Qed.

Lemma set_state_back p : p_state p = RUNNABLE -> set_state RUNNABLE (set_state RUNNING p) = p.
Proof. destruct p. cbn. by intros ->. Qed.

(** yield() of the running process: it is RUNNABLE when it stops. *)
Lemma yield_run e s :
  e_held e = [] -> (e_me e < length (procs s))%nat ->
  exists k, yield e s =
    Sleep ChSwtch (set_held [LkProc (e_me e)] e) (upd_proc (e_me e) (set_state RUNNABLE) s) k.
Proof.
  intros Hh Hme. unfold yield. krun. rewrite acquire_eq by (rewrite Hh; set_solver). krun.
  unfold modp at 1. krun. unfold sched. krun. unfold holding. cbn [e_held e_me set_held].
  rewrite bool_decide_true by set_solver. cbn [negb]. krun. cbn [e_held set_held length Nat.eqb negb].
  rewrite Hh. cbn [length Nat.eqb negb]. krun. unfold getp. krun.
  rewrite nth_upd_same by done. cbn [p_state set_state].
  eexists. done.
Qed.

Lemma scheduler_pass_run c es s :
  e_held es = [] -> a_policy (sched_mode s) ->
  (scheduler_pass c es s = Ok false es s /\ forall j, (j < NPROC)%nat -> ~ is_runnable s j) \/
  exists i line, chosen_by (policy (sched_mode s)) s NPROC (Some i) /\
    scheduler_pass c es s =
      Sleep ChSwtch (set_held [LkProc i] es) (add_klog line (set_cpu c (Some i) (upd_proc i (set_state RUNNING) s)))
        (fun e' s' => (modify (set_cpu c None) ;;; release (LkProc i) ;;; ret true) e' s').
Proof.
  intros Hes Hm. assert (Hno : no_plock es) by (intros j; rewrite Hes; set_solver).
  destruct (choose_run es s Hno Hm) as (r & Hr & Hch). unfold scheduler_pass. rewrite bind_eq, Hr. kred.
  destruct r as [i|]; [right|by left]. exists i. eexists. split; [done|]. rewrite bind_eq, acquire_eq by apply Hno.
  krun. unfold getp at 1. krun. rewrite decide_True by apply Hch. krun. unfold modp, printf, swtch. krun. by rewrite Hes.
Qed.

(** After its turn the process is RUNNABLE, as it was when it was chosen. *)
Lemma turn_ok c s i s' :
  length (procs s) = NPROC -> a_policy (sched_mode s) -> turn c s i s' ->
  chosen_by (policy (sched_mode s)) s NPROC (Some i) /\ is_runnable s' i /\ ctime s' i = ctime s i /\
  length (procs s') = NPROC /\ sched_mode s' = sched_mode s.
Proof.
  intros Hlen Hm [es es1 es2 ep ep1 k kp s1 s2 s3 s4 s5 Hes Hpass Hcpu U12 Hme Hep Hy U34 Hk U5].
  destruct (scheduler_pass_run c es s Hes Hm) as [[H _]|(j & line & Hch & H)]; rewrite H in Hpass; [done|].
  injection Hpass as <- <- <-. cbn [cpus add_klog set_cpu upd_proc] in Hcpu.
  assert (j = i) as -> by (apply list_lookup_insert_Some in Hcpu; naive_solver).
  destruct Hch as (Hi & Hri & Hbest). destruct U12 as [A1 A2 A3 A4 A5]. cbn [procs sched_mode add_klog set_cpu] in A1, A3.
  rewrite length_upd_proc in A1. destruct (yield_run ep s2 Hep) as [k' Hy']; [rewrite Hme; lia|].
  rewrite Hy' in Hy. injection Hy as <- <- <-. rewrite Hme in U34. destruct U34 as [B1 B2 B3 B4 B5].
  rewrite length_upd_proc in B1. rewrite nth_upd_same in B4 by lia. unfold ctime in B5. rewrite nth_upd_same in B5 by lia.
  unfold modify, release, holding in Hk. rewrite bind_eq in Hk. cbn [rbind] in Hk. rewrite bind_eq in Hk.
  cbn [e_held set_held] in Hk. rewrite bool_decide_true in Hk by set_solver. injection Hk as <- <-.
  destruct U5 as [C1 C2 C3 C4 C5]. cbn [procs sched_mode set_cpu] in C1, C3.
  assert (Hn : forall x v, nth_proc x (set_cpu c v s4) = nth_proc x s4) by done.
  split; [done|]. unfold is_runnable, ctime in *. rewrite C4, C5, !Hn, B4, B5. split; [done|].
  split; [|split; [congruence|by rewrite C3, B3]]. cbn. rewrite A5. change (nth_proc i (add_klog _ (set_cpu _ _ ?t))) with (nth_proc i t).
  by rewrite nth_upd_same by lia.
Qed.

(** With nothing else going on the process is put back as the turn found it. *)
Lemma turn_alone c s i :
  length (procs s) = NPROC -> (c < length (cpus s))%nat -> a_policy (sched_mode s) ->
  chosen_by (policy (sched_mode s)) s NPROC (Some i) ->
  exists s', turn c s i s' /\ procs s' = procs s /\ length (cpus s') = length (cpus s) /\ sched_mode s' = sched_mode s.
Proof.
  intros Hlen Hc Hm Hch. set (es := mkEnv 0 0 false [] [] 0). set (ep := mkEnv i 0 false [] [] 0).
  destruct (scheduler_pass_run c es s eq_refl Hm) as [[_ H]|(j & line & Hch' & H)].
  { destruct Hch as (? & ? & _). by destruct (H i). }
  assert (j = i) as -> by (eapply chosen_by_unique; eassumption). destruct Hch as (Hi & Hri & _).
  set (s1 := add_klog line (set_cpu c (Some i) (upd_proc i (set_state RUNNING) s))) in *.
  destruct (yield_run ep s1 eq_refl) as [k Hk]. { unfold s1, ep. cbn [e_me procs add_klog set_cpu]. rewrite length_upd_proc. lia. }
  eexists. split; [eapply (turn_intro c s i _ es _ _ ep); try exact H; try exact Hk; try done|].
  - cbn. by rewrite list_lookup_insert, decide_True.
  - rewrite bind_eq. unfold modify. cbn [rbind]. rewrite bind_eq.
    change (set_held [LkProc i] es) with (set_held (LkProc i :: e_held es) es). rewrite release_eq. done.
  - cbn [procs cpus sched_mode set_cpu upd_proc add_klog s1 ep e_me]. split; [|by rewrite !length_insert].
    rewrite list_alter_twice. eapply list_alter_id_at; [apply lookup_proc; by rewrite Hlen|]. apply set_state_back, Hri.
Qed.

Lemma chosen_by_ext before s s' n r :
  procs s' = procs s -> chosen_by before s n r -> chosen_by before s' n r.
Proof. destruct s, s'. cbn. by intros ->. Qed.

Lemma no_worse_trans mode x y z :
  no_worse (policy mode) x y -> no_worse (policy mode) y z -> no_worse (policy mode) x z.
Proof.
  intros [H1 H2] [H3 H4]. split; [by eapply policy_negtrans|]. intros H5.
  assert (policy mode z.2 y.2 = false) as E1 by (by eapply policy_negtrans).
  assert (policy mode y.2 x.2 = false) as E2 by (by eapply policy_negtrans). specialize (H2 E2). specialize (H4 E1). lia.
Qed.

(** The next process dispatched ranks at least as high. *)
Lemma turns_sorted c s l :
  turns c s l -> length (procs s) = NPROC -> a_policy (sched_mode s) ->
  Sorted (no_worse (policy (sched_mode s))) l /\
  forall i, (i < NPROC)%nat -> is_runnable s i -> HdRel (no_worse (policy (sched_mode s))) (i, ctime s i) l.
Proof.
  induction 1 as [s|s i s' l Ht _ IH]; intros Hlen Hm; [by repeat constructor|].
  destruct (turn_ok c s i s' Hlen Hm Ht) as ((Hi & _ & Hbest) & Hr & Hct & Hlen' & Hmode).
  rewrite Hmode in IH. destruct (IH Hlen' Hm) as [IH1 IH2]. split.
  - constructor; [done|]. rewrite <- Hct. by apply IH2.
  - intros j Hj Hrj. constructor. by apply Hbest.
Qed.


(** Two processes that want the CPU, the first created at tick 5, the second
    at tick 7. *)
Definition demo_runnable (pid ctime : Z) : proc :=
  mkProc RUNNABLE None 0 0 pid None 0 0 0 0 (mkContext 0 0 (replicate 12 0))
    (replicate NOFILE None) None (replicate 16 0) ctime 0 0 0 0.

Definition demo_two (mode : Z) : pstate :=
  mkPstate (demo_runnable 1 5 :: demo_runnable 2 7 :: replicate 62 proc0) 3 (Some 0%nat)
    (replicate 8 None) 9 mode [] (mkKmem 0 ∅).

Definition demo_thread (i : nat) : env := mkEnv i (Z.of_nat i + 1) false [] [] 3.


Lemma choose_next_process_correct_witness :
  exists r, choose_next_process (demo_thread 64) (demo_two SCHED_PRIORITY) =
    Ok r (demo_thread 64) (demo_two SCHED_PRIORITY) /\ r <> None.
Proof.
  destruct (choose_next_process_correct (demo_thread 64) (demo_two SCHED_PRIORITY)) as (r & Hr & Hn & _).
  - intros i. apply not_elem_of_nil.
  - by right; right.
  - exists r. split; [done|]. intros H. apply (proj1 Hn H 0%nat); [vm_compute; lia|done].
Defined.

