(* ===== verification/ProcInv.v ===== *)
(** * The invariant of the process table

    [pinv b s]: the table is well formed and every pid in it is below
    [nextpid], which is at most [b].  [J L b s] adds that the processes in [L]
    are alive.  Every operation of proc.c keeps [J] under interleaving: no
    process can free, or turn into a zombie, a process other than itself. *)

From S2P Require Import Prelude KMonad Hoare CString Riscv Kalloc Vm VmSleep Proc ProcSpec.
Open Scope kmonad_scope.

(** ** The invariant *)

(** What an UNUSED slot holds. *)
Definition cleared (p : proc) : Prop :=
  p_pid p = 0 /\ p_trapframe p = 0 /\ p_pagetable p = 0 /\ p_sz p = 0 /\ p_parent p = None /\
  p_chan p = None.

Definition slot_ok (s : pstate) (p : proc) : Prop :=
  (p_state p = UNUSED -> cleared p) /\ (p_state p <> UNUSED -> 0 < p_pid p < nextpid s).

(** The slots other than [x] are well formed; [x] = NPROC excepts none. *)
Record pinv_but (x : nat) (b : Z) (s : pstate) : Prop := {
  pi_len : length (procs s) = NPROC;
  pi_next : 1 <= nextpid s <= b;
  pi_slot : forall i, (i < NPROC)%nat -> i <> x -> slot_ok s (nth_proc i s);
  pi_pid : forall i j, (i < NPROC)%nat -> (j < NPROC)%nat -> i <> x -> j <> x ->
    p_state (nth_proc i s) <> UNUSED -> p_state (nth_proc j s) <> UNUSED ->
    p_pid (nth_proc i s) = p_pid (nth_proc j s) -> i = j
}.

Definition pinv : Z -> pstate -> Prop := pinv_but NPROC.

Definition live (i : nat) (s : pstate) : Prop :=
  (i < NPROC)%nat /\ p_state (nth_proc i s) <> UNUSED /\ p_state (nth_proc i s) <> ZOMBIE.

Definition Jb (x : nat) (L : nat -> Prop) (b : Z) (s : pstate) : Prop :=
  pinv_but x b s /\ forall i, L i -> i <> x /\ live i s.

Definition J : (nat -> Prop) -> Z -> pstate -> Prop := Jb NPROC.

(** A change of a slot that keeps the invariant. *)
Definition slot_step (p p' : proc) : Prop :=
  p_pid p' = p_pid p /\
  (p_state p = UNUSED -> p_state p' = UNUSED /\ (cleared p -> cleared p')) /\
  (p_state p <> UNUSED -> p_state p' <> UNUSED).

Definition step_ok (p p' : proc) : Prop :=
  slot_step p p' /\ (p_state p <> ZOMBIE -> p_state p' <> ZOMBIE).

(** ** Changes that keep it *)

(** Fields the invariant does not mention. *)
Lemma Jb_same x L b s s' :
  procs s' = procs s -> nextpid s' = nextpid s -> Jb x L b s -> Jb x L b s'.
Proof.
  intros Hp Hn [[H1 H2 H3 H4] H5]. unfold Jb, live, nth_proc in *.
  split; [split|]; unfold slot_ok, nth_proc in *; rewrite ?Hp, ?Hn; auto.
Qed.

Lemma J_upd_but L b s i f :
  slot_step (nth_proc i s) (f (nth_proc i s)) ->
  (L i -> p_state (nth_proc i s) <> ZOMBIE -> p_state (f (nth_proc i s)) <> ZOMBIE) ->
  J L b s -> J L b (upd_proc i f s).
Proof.
  intros (Hpid & Hun & Hus) Hz HJ. pose proof HJ as [[Hlen Hn Hs Hp] HL].
  destruct (decide (i < length (procs s))%nat) as [Hit|Hit].
  2: { apply (Jb_same NPROC L b s); [|done..]. cbn. apply list_alter_out. lia. }
  assert (Hst : forall j, p_state (nth_proc j (upd_proc i f s)) <> UNUSED ->
                          p_state (nth_proc j s) <> UNUSED).
  { intros j. rewrite nth_upd_proc by done. case_decide; [subst|done]. intros H Hu. by destruct (Hun Hu). }
  assert (Hpd : forall j, p_pid (nth_proc j (upd_proc i f s)) = p_pid (nth_proc j s)).
  { intros j. rewrite nth_upd_proc by done. by case_decide; [subst|]. }
  split; [split|].
  - by rewrite length_upd_proc.
  - done.
  - intros j Hj Hjx. destruct (Hs j Hj Hjx) as [H1 H2]. split.
    + rewrite nth_upd_proc by done. case_decide; [subst j|done]. intros Hu.
      destruct (decide (p_state (nth_proc i s) = UNUSED)) as [Hu0|Hu0]; [|by destruct (Hus Hu0)].
      apply Hun; auto.
    + intros Hne. rewrite Hpd. apply H2. auto.
  - intros j k Hj Hk Hjx Hkx Hju Hku. rewrite !Hpd. intros He. by apply Hp; auto.
  - intros j Hj. destruct (HL j Hj) as (Hjx & Hjn & Hju & Hjz). split; [done|]. split; [done|].
    rewrite nth_upd_proc by done. case_decide; [subst j|done]. auto.
Qed.

Lemma J_upd L b s i f :
  step_ok (nth_proc i s) (f (nth_proc i s)) -> J L b s -> J L b (upd_proc i f s).
Proof. intros [Hs Hz]. apply J_upd_but; auto. Qed.

Lemma Jb_upd_hole x L b s f : (x < NPROC)%nat -> Jb x L b s -> Jb x L b (upd_proc x f s).
Proof.
  intros Hx [[H1 H2 H3 H4] H5].
  assert (Ho : forall j, j <> x -> nth_proc j (upd_proc x f s) = nth_proc j s)
    by (intros j Hj; apply nth_upd_other; [by rewrite H1|done]).
  split; [split|].
  - by rewrite length_upd_proc.
  - done.
  - intros i Hi Hix. rewrite Ho by done. by apply H3.
  - intros i j Hi Hj Hix Hjx. rewrite !Ho by done. by apply H4.
  - intros i Hi. destruct (H5 i Hi) as [Hix Hl]. unfold live in *. by rewrite Ho.
Qed.

Lemma Jb_of_J x L b s : ~ L x -> J L b s -> Jb x L b s.
Proof.
  intros Hx [[H1 H2 H3 H4] H5]. split; [split|]; auto.
  - intros i Hi _. apply H3; lia.
  - intros i j Hi Hj _ _. apply H4; lia.
  - intros i Hi. split; [by intros ->|]. by apply H5.
Qed.

(** The hole is filled by a cleared UNUSED slot, or by a fresh process. *)
Lemma J_of_Jb_unused x L b s :
  p_state (nth_proc x s) = UNUSED -> cleared (nth_proc x s) -> Jb x L b s -> J L b s.
Proof.
  intros Hu Hc [[H1 H2 H3 H4] H5]. split; [split|]; auto.
  - intros i Hi _. destruct (decide (i = x)) as [->|Hne]; [by split|auto].
  - intros i j Hi Hj _ _ Hiu Hju. apply H4; auto; congruence.
  - intros i Hi. destruct (H5 i Hi) as (Hix & Hil). split; [|done]. destruct Hil. lia.
Qed.

Lemma J_of_Jb_fresh x L b s :
  0 < p_pid (nth_proc x s) < nextpid s -> p_state (nth_proc x s) <> UNUSED ->
  (forall j, (j < NPROC)%nat -> j <> x -> p_pid (nth_proc j s) <> p_pid (nth_proc x s)) ->
  Jb x L b s -> J L b s.
Proof.
  intros Hp Hu Hf [[H1 H2 H3 H4] H5]. split; [split|]; auto.
  - intros i Hi _. destruct (decide (i = x)) as [->|Hne]; [by split|auto].
  - intros i j Hi Hj _ _ Hiu Hju Hij.
    destruct (decide (i = x)) as [->|Hi'], (decide (j = x)) as [->|Hj']; auto.
    + by destruct (Hf j Hj Hj').
    + by destruct (Hf i Hi Hi').
  - intros i Hi. destruct (H5 i Hi) as (Hix & Hil). split; [|done]. destruct Hil. lia.
Qed.

(** ** Triples *)

Section triples.
Context (kend trampoline forkret_addr : Z) (me : nat) (L : nat -> Prop) (b : Z).

(** Routines on memory touch no slot. *)
Definition kstable (P : pstate -> Prop) : Prop := forall s t, P s -> P (set_kmem t s).

Lemma Jb_kstable x (Q : proc -> Prop) y : kstable (fun s => Jb x L b s /\ Q (nth_proc y s)).
Proof. intros s t [HJ HQ]. split; [|done]. by apply (Jb_same x L b s). Qed.

Lemma hoare_kmm {A} (I P : pstate -> Prop) (m : K kmem A) :
  nosleep m -> kstable P -> hoare me I P (kmm m) (fun _ s => P s).
Proof. intros Hm HP. apply hoare_zoom_nosleep; [done|apply HP]. Qed.

Lemma hoare_when I P (c : bool) (m : K pstate unit) :
  hoare me I P m (fun _ s => P s) -> hoare me I P (if c then m else ret tt) (fun _ s => P s).
Proof. intros Hm. destruct c; [done|]. eapply hoare_post; [apply hoare_ret|]. by intros ? ? [_ ?]. Qed.

Lemma hoare_getp {A} I P i (f : proc -> A) :
  hoare me I P (getp i f) (fun a s => a = f (nth_proc i s) /\ P s).
Proof. apply hoare_gets. Qed.

Lemma hoare_gets_any {A} I P (f : pstate -> A) : hoare me I P (gets f) (fun _ s => P s).
Proof. by intros e s He HP. Qed.

Lemma hoare_getp_any {A} I P i (f : proc -> A) : hoare me I P (getp i f) (fun _ s => P s).
Proof. by intros e s He HP. Qed.

Lemma proc_freepagetable_triple I P pt sz :
  kstable P -> hoare me I P (proc_freepagetable kend pt sz) (fun _ s => P s).
Proof.
  intros HP. unfold proc_freepagetable.
  eapply hoare_bind; [apply hoare_kmm; auto with nosleep|]. intros ?.
  eapply hoare_bind; [apply hoare_kmm; auto with nosleep|]. intros ?.
  apply hoare_kmm; auto with nosleep.
Qed.

Lemma proc_pagetable_triple I P i :
  kstable P -> hoare me I P (proc_pagetable kend trampoline i) (fun _ s => P s).
Proof.
  intros HP. unfold proc_pagetable.
  assert (Hret : forall v, hoare me I P (@ret pstate Z v) (fun _ s => P s))
    by (intros v; eapply hoare_post; [apply hoare_ret|]; by intros ? ? [_ ?]).
  eapply hoare_bind; [apply hoare_kmm; auto with nosleep|]. intros pt. case_match; [done|].
  eapply hoare_bind; [apply hoare_kmm; auto with nosleep|]. intros r. case_match.
  { eapply hoare_bind; [apply hoare_kmm; auto with nosleep|]. done. }
  eapply hoare_bind; [apply hoare_getp_any|]. intros tf.
  eapply hoare_bind; [apply hoare_kmm; auto with nosleep|]. intros r'. case_match; [|done].
  eapply hoare_bind; [apply hoare_kmm; auto with nosleep|]. intros ?.
  eapply hoare_bind; [apply hoare_kmm; auto with nosleep|]. done.
Qed.

Lemma upd_proc_twice i f g s : upd_proc i f (upd_proc i g s) = upd_proc i (fun p => f (g p)) s.
Proof. unfold upd_proc. cbn. by rewrite list_alter_twice. Qed.

(** freeproc(): the slot ends up cleared. *)
Lemma freeproc_triple I i :
  (i < NPROC)%nat -> hoare me I (Jb i L b) (freeproc kend i) (fun _ => J L b).
Proof.
  intros Hi. unfold freeproc.
  eapply hoare_bind; [apply hoare_getp_any|]. intros tf.
  eapply hoare_bind; [apply hoare_when, hoare_kmm; [auto with nosleep|]|].
  { intros s t HJ. by apply (Jb_same i L b s). }
  intros ?. eapply hoare_bind.
  { apply hoare_modify with (Q := fun s => Jb i L b s /\ p_trapframe (nth_proc i s) = 0).
    intros s HJ. split; [by apply Jb_upd_hole|].
    rewrite nth_upd_same; [done|]. destruct HJ as [[Hl _ _ _] _]. by rewrite Hl. }
  intros ?. eapply hoare_bind; [apply hoare_getp_any|]. intros pt.
  eapply hoare_bind; [apply hoare_getp_any|]. intros sz.
  eapply hoare_bind; [apply hoare_when, proc_freepagetable_triple|].
  { apply (Jb_kstable i (fun p => p_trapframe p = 0)). }
  intros ? e s He [HJ Htf]. unfold modp. krun. split; [done|]. rewrite !upd_proc_twice.
  assert (Hil : (i < length (procs s))%nat) by (destruct HJ as [[Hl _ _ _] _]; by rewrite Hl).
  apply (J_of_Jb_unused i); [..|by apply Jb_upd_hole]; by rewrite nth_upd_same.
Qed.
(** ** Allocation *)

Lemma allocproc_scan_triple I n i :
  (i + n <= NPROC)%nat ->
  hoare me I (J L b) (allocproc_scan n i)
    (fun r s => J L b s /\
       match r with None => True | Some k => (k < NPROC)%nat /\ p_state (nth_proc k s) = UNUSED end).
Proof.
  revert i. induction n as [|n IH]; intros i Hn; cbn [allocproc_scan].
  - eapply hoare_post; [apply hoare_ret|]. by intros ? ? [-> ?].
  - eapply hoare_bind; [apply hoare_acquire|]. intros ?.
    eapply hoare_bind; [apply hoare_getp|]. intros st. case_decide as Hst.
    + eapply hoare_post; [apply hoare_ret|]. intros ? ? [-> [-> HJ]]. split; [done|]. split; [lia|done].
    + apply (hoare_pre _ _ (J L b)); [|by intros ? [_ ?]].
      eapply hoare_bind; [apply hoare_release|]. intros ?. apply IH. lia.
Qed.

(** The slot [i] holds a fresh process: the last pid handed out is its own. *)
Definition fresh_pid (i : nat) (pid : Z) (s : pstate) : Prop :=
  0 < pid < nextpid s /\ forall j, (j < NPROC)%nat -> j <> i -> p_pid (nth_proc j s) < pid.

Lemma allocpid_triple I i :
  b + 1 < 2 ^ 31 ->
  hoare me I (fun s => J L b s /\ ~ L i) allocpid
    (fun pid s => Jb i L (b + 1) s /\ fresh_pid i pid s).
Proof.
  intros Hb. unfold allocpid. eapply hoare_bind; [apply hoare_acquire|]. intros ?.
  eapply hoare_bind; [apply hoare_gets|]. intros pid.
  eapply hoare_bind.
  { apply hoare_modify with (Q := fun s => Jb i L (b + 1) s /\ fresh_pid i pid s).
    intros s (-> & [[Hl Hn Hs Hp] HL] & Hi). rewrite i32_small by lia. split; [apply Jb_of_J; [done|]|].
    - split; [split|]; cbn [nextpid set_nextpid]; auto; [lia|].
      intros j Hj Hjx. destruct (Hs j Hj Hjx) as [H1 H2]. split; [done|]. cbn [nextpid set_nextpid].
      intros Hu. specialize (H2 Hu).
      change (nth_proc j (set_nextpid (nextpid s + 1) s)) with (nth_proc j s). lia.
    - split; cbn [nextpid set_nextpid]; [lia|]. intros j Hj _. change (p_pid (nth_proc j s) < nextpid s).
      destruct (Hs j Hj) as [H1 H2]; [lia|].
      destruct (decide (p_state (nth_proc j s) = UNUSED)) as [Hu|Hu].
      + destruct (H1 Hu) as [-> _]. lia.
      + by apply H2. }
  intros ?. eapply hoare_bind; [apply hoare_release|]. intros ?.
  eapply hoare_post; [apply hoare_ret|]. by intros ? ? [-> ?].
Qed.
Lemma J_lt x : forall s, Jb x L b s -> forall i, (i < NPROC)%nat -> (i < length (procs s))%nat.
Proof. intros s [[Hl _ _ _] _] i Hi. by rewrite Hl. Qed.

(** The new slot while it is being set up. *)
Definition setup (i : nat) (s : pstate) : Prop := J L b s /\ p_state (nth_proc i s) = USED.

Lemma setup_modp I i f :
  (i < NPROC)%nat ->
  (forall p, p_pid (f p) = p_pid p /\ p_state (f p) = p_state p) ->
  hoare me I (setup i) (modp i f) (fun _ => setup i).
Proof.
  intros Hi Hf. apply hoare_modify. intros s [HJ Hs]. pose proof (J_lt NPROC s HJ i Hi) as Hlt.
  destruct (Hf (nth_proc i s)) as [Hp Hst]. split.
  - apply J_upd; [|done]. split; [split; [done|]|]; rewrite Hst, Hs; done.
  - rewrite nth_upd_same by done. by rewrite Hst.
Qed.

Lemma allocproc_tail_triple I i :
  (i < NPROC)%nat -> ~ L i ->
  hoare me I (setup i)
    (tf <- kmm kalloc ;;
     modp i (set_trapframe tf) ;;;
     if tf =? 0 then
       freeproc kend i ;;; release (LkProc i) ;;; ret None
     else
       pt <- proc_pagetable kend trampoline i ;;
       modp i (set_pagetable pt) ;;;
       if pt =? 0 then
         freeproc kend i ;;; release (LkProc i) ;;; ret None
       else
         modp i (set_context (mkContext 0 0 (replicate 12 0))) ;;;
         modp i (fun p => set_context (mkContext forkret_addr (p_kstack p + PGSIZE) (c_s (p_context p))) p) ;;;
         now <- gets ticks ;;
         modp i (set_creation_time now) ;;;
         modp i (set_run_time 0) ;;;
         modp i (set_waiting_time 0) ;;;
         modp i (set_turnaround_time 0) ;;;
         modp i (set_finish_time 0) ;;;
         ret (Some i))
    (fun r s => J L b s /\ match r with None => True | Some k => k = i /\ p_state (nth_proc i s) = USED end).
Proof.
  intros Hi HL.
  assert (Hk : kstable (setup i)) by (intros s t [HJ Hs]; split; [by apply (Jb_same NPROC L b s)|done]).
  assert (Hfail : hoare me I (setup i) (freeproc kend i ;;; release (LkProc i) ;;; ret None)
    (fun r s => J L b s /\ match r with None => True | Some k => k = i /\ p_state (nth_proc i s) = USED end)).
  { eapply hoare_bind; [eapply hoare_pre; [by apply freeproc_triple|]|].
    - intros s [HJ _]. by apply Jb_of_J.
    - intros ?. eapply hoare_bind; [apply hoare_release|]. intros ?.
      eapply hoare_post; [apply hoare_ret|]. by intros ? ? [-> ?]. }
  eapply hoare_bind; [apply hoare_kmm; auto with nosleep|]. intros tf.
  eapply hoare_bind; [by apply setup_modp|]. intros ?. case_match; [done|].
  eapply hoare_bind; [by apply proc_pagetable_triple|]. intros pt.
  eapply hoare_bind; [by apply setup_modp|]. intros ?. case_match; [done|].
  do 2 (eapply hoare_bind; [by apply setup_modp|]; intros ?).
  eapply hoare_bind; [apply hoare_gets_any|]. intros now.
  do 5 (eapply hoare_bind; [by apply setup_modp|]; intros ?).
  eapply hoare_post; [apply hoare_ret|]. intros ? ? [-> [? ?]]. done.
Qed.
End triples.

Section alloc.
Context (kend trampoline forkret_addr : Z) (me : nat) (L : nat -> Prop) (b : Z).
Context (I : pstate -> Prop) (Hb : b + 1 < 2 ^ 31).

Lemma allocproc_found_triple i :
  (i < NPROC)%nat -> ~ L i ->
  hoare me I (J L b) (allocproc_found kend trampoline forkret_addr i)
    (fun r s => J L (b + 1) s /\
       match r with None => True | Some k => k = i /\ p_state (nth_proc i s) = USED end).
Proof.
  intros Hi HL. unfold allocproc_found.
  eapply hoare_bind; [eapply hoare_pre; [by apply (allocpid_triple me L b I i)|done]|]. intros pid.
  eapply hoare_bind.
  { apply hoare_modify with (Q := fun s => Jb i L (b + 1) s /\ fresh_pid i pid s /\ p_pid (nth_proc i s) = pid).
    intros s [HJ Hf]. pose proof (J_lt _ _ _ s HJ i Hi) as Hlt.
    split; [by apply Jb_upd_hole|]. rewrite nth_upd_same by done. split; [|done].
    destruct Hf as [H1 H2]. split; [done|]. intros j Hj Hji. rewrite nth_upd_other by done. auto. }
  intros ?. eapply hoare_bind.
  { apply hoare_modify with (Q := setup L (b + 1) i). intros s (HJ & [H1 H2] & Hp).
    pose proof (J_lt _ _ _ s HJ i Hi) as Hlt. split; [|by rewrite nth_upd_same].
    apply (J_of_Jb_fresh i); [..|by apply Jb_upd_hole]; rewrite nth_upd_same by done; cbn; [by rewrite Hp|done|].
    intros j Hj Hji. rewrite nth_upd_other by done. rewrite Hp. specialize (H2 j Hj Hji). lia. }
  intros ?. by apply allocproc_tail_triple.
Qed.

Lemma allocproc_triple :
  hoare me I (J L b) (allocproc kend trampoline forkret_addr)
    (fun r s => J L (b + 1) s /\
       match r with None => True | Some k => (k < NPROC)%nat /\ ~ L k /\ p_state (nth_proc k s) = USED end).
Proof.
  unfold allocproc. eapply hoare_bind; [apply allocproc_scan_triple; lia|].
  intros [i|]; cbn beta iota.
  - intros e s He (HJ & Hi & Hu).
    assert (HLi : ~ L i) by (intros HL; destruct HJ as [_ H]; by destruct (H i HL) as (_ & _ & Hn & _)).
    eapply rpost_mono; [by apply allocproc_found_triple|]. intros [k|] s' [? Hk]; [|done].
    destruct Hk as [-> ?]. done.
  - eapply hoare_post; [apply hoare_ret|]. intros ? s [-> [[[H1 H2 H3 H4] H5] _]].
    split; [|done]. split; [|done]. split; auto; lia.
Qed.
End alloc.

(** ** Every operation keeps the invariant *)

Create HintDb jkeeps.

Section ops.
Context (kend : Z) (me : nat) (L : nat -> Prop) (b : Z).

Definition jkeeps {A} (m : K pstate A) : Prop := hoare me (J L b) (J L b) m (fun _ => J L b).

Lemma jk_bind {A B} (m : K pstate A) (f : A -> K pstate B) :
  jkeeps m -> (forall a, jkeeps (f a)) -> jkeeps (bind m f).
Proof. intros Hm Hf. eapply hoare_bind; [exact Hm|]. intros a. apply Hf. Qed.

Lemma jk_bind_me {B} (f : nat -> K pstate B) : jkeeps (f me) -> jkeeps (bind (asks e_me) f).
Proof.
  intros Hf. eapply hoare_bind; [apply hoare_asks_me|]. intros i e s He [-> HJ]. by apply Hf.
Qed.

Lemma jk_ret {A} (a : A) : jkeeps (ret a).
Proof. by intros e s He HJ. Qed.
Lemma jk_panic {A} msg : jkeeps (@panic pstate A msg).
Proof. apply hoare_panic. Qed.
Lemma jk_fuel {A} : jkeeps (@out_of_fuel pstate A).
Proof. apply hoare_fuel. Qed.
Lemma jk_gets {A} (f : pstate -> A) : jkeeps (gets f).
Proof. by intros e s He HJ. Qed.
Lemma jk_getp {A} i (f : proc -> A) : jkeeps (getp i f).
Proof. by intros e s He HJ. Qed.
Lemma jk_asks {A} (f : env -> A) : jkeeps (asks f).
Proof. by intros e s He HJ. Qed.
Lemma jk_acquire l : jkeeps (acquire l).
Proof. apply hoare_acquire. Qed.
Lemma jk_release l : jkeeps (release l).
Proof. apply hoare_release. Qed.
Lemma jk_kmm {A} (m : K kmem A) : nosleep m -> jkeeps (kmm m).
Proof. intros Hm. apply hoare_kmm; [done|]. intros s t HJ. by apply (Jb_same NPROC L b s). Qed.
Lemma jk_swtch : jkeeps swtch.
Proof. intros e s He HJ. cbn. split; [done|]. by split. Qed.
Lemma jk_printf f a : jkeeps (printf f a).
Proof. apply hoare_modify. intros s HJ. by apply (Jb_same NPROC L b s). Qed.
Lemma jk_set_cpu c v : jkeeps (modify (set_cpu c v)).
Proof. apply hoare_modify. intros s HJ. by apply (Jb_same NPROC L b s). Qed.
Lemma jk_if {A} (c : bool) (m n : K pstate A) : jkeeps m -> jkeeps n -> jkeeps (if c then m else n).
Proof. by destruct c. Qed.
#[local] Hint Resolve jk_ret jk_panic jk_fuel jk_gets jk_getp jk_asks jk_acquire jk_release jk_kmm jk_swtch
  jk_printf jk_set_cpu : jkeeps.
#[local] Hint Extern 2 (nosleep _) => solve [auto with nosleep] : jkeeps.

Ltac jk_step :=
  first
    [ solve [auto with jkeeps]
    | lazymatch goal with
      | |- hoare _ _ _ ?m _ => change (jkeeps m)
      | |- jkeeps (bind (asks e_me) _) => apply jk_bind_me
      | |- jkeeps (bind _ _) => apply jk_bind; [|intros ?]
      | |- jkeeps (match _ with _ => _ end) => case_match
      end ].
Ltac jk := repeat jk_step.

(** A change of one slot, under what the last reads of it said. *)
Lemma jk_modp i f :
  (forall p, step_ok p (f p)) -> jkeeps (modp i f).
Proof. intros Hf. apply hoare_modify. intros s HJ. by apply J_upd. Qed.

Lemma jk_read_modp {B} i f (c : proc -> bool) (m : K pstate B) :
  (forall p, c p = true -> step_ok p (f p)) -> jkeeps m ->
  hoare me (J L b) (J L b)
    (p <- getp i (fun p => p) ;; (if c p then modp i f else ret tt) ;;; m) (fun _ => J L b).
Proof.
  intros Hf Hm. eapply hoare_bind; [apply hoare_getp|]. intros p.
  eapply (hoare_bind _ _ (fun _ => J L b)); [|intros ?; apply Hm]. destruct (c p) eqn:Hc.
  - apply hoare_modify. intros s [-> HJ]. apply J_upd; auto.
  - eapply hoare_post; [apply hoare_ret|]. by intros ? ? [_ [_ ?]].
Qed.

Lemma jk_my_state st :
  L me -> st <> UNUSED -> st <> ZOMBIE -> jkeeps (modp me (set_state st)).
Proof.
  intros HL Hu Hz. apply hoare_modify. intros s HJ. destruct (proj2 HJ me HL) as (_ & Hn & Hnu & Hnz).
  by apply J_upd.
Qed.

Lemma me_lt : L me -> forall s, J L b s -> (me < NPROC)%nat.
Proof. intros HL s [_ H]. by destruct (H me HL) as (_ & ? & _). Qed.
Lemma sched_keeps : jkeeps sched.
Proof. unfold sched. jk. Qed.
#[local] Hint Resolve sched_keeps : jkeeps.

Lemma yield_keeps : L me -> jkeeps yield.
Proof. intros HL. unfold yield. jk. by apply jk_my_state. Qed.

Lemma set_chan_keeps ch : L me -> jkeeps (modp me (set_chan ch)).
Proof.
  intros HL. apply hoare_modify. intros s HJ. destruct (proj2 HJ me HL) as (_ & Hn & Hnu & Hnz).
  by apply J_upd.
Qed.

Lemma sleep_keeps ch lk : L me -> jkeeps (sleep ch lk).
Proof. intros HL. unfold sleep. jk; first [by apply set_chan_keeps|by apply jk_my_state]. Qed.

Lemma wakeup_keeps ch : jkeeps (wakeup ch).
Proof.
  unfold wakeup. assert (Hl : forall n i, (i + n <= NPROC)%nat -> jkeeps (wakeup_loop n i ch)).
  { induction n as [|n IH]; intros i Hi; cbn [wakeup_loop]; [jk|]. apply jk_bind_me.
    apply jk_bind; [|intros ?; apply IH; lia]. case_decide; [jk|].
    apply jk_bind; [jk|intros ?].
    apply jk_read_modp with (c := fun p => bool_decide (p_state p = SLEEPING /\ p_chan p = ch)); [|jk].
    intros p Hc. apply bool_decide_eq_true in Hc as [Hs _]. unfold step_ok, slot_step. rewrite Hs. done. }
  apply Hl. lia.
Qed.
#[local] Hint Resolve wakeup_keeps : jkeeps.

Lemma killed_keeps i : jkeeps (killed i).
Proof. unfold killed. jk. Qed.

Lemma setkilled_keeps i : jkeeps (setkilled i).
Proof. unfold setkilled. jk. by apply jk_modp. Qed.
#[local] Hint Resolve killed_keeps : jkeeps.

Lemma kill_keeps pid : jkeeps (kill pid).
Proof.
  unfold kill. assert (Hl : forall n i, (i + n <= NPROC)%nat -> jkeeps (kill_loop n i pid)).
  { induction n as [|n IH]; intros i Hi; cbn [kill_loop]; [jk|].
    apply jk_bind; [jk|intros ?]. eapply hoare_bind; [apply hoare_getp|]. intros p. case_match.
    - eapply (hoare_bind _ _ (fun _ s => J L b s /\ p_state (nth_proc i s) = p_state p)).
      { apply hoare_modify. intros s [-> HJ]. split; [by apply J_upd|].
        rewrite nth_upd_same; [done|]. eapply J_lt; [exact HJ|lia]. }
      intros ?. eapply (hoare_bind _ _ (fun _ => J L b)); [|intros ?; jk].
      case_bool_decide as Hs; [|by intros e s He [? ?]].
      apply hoare_modify. intros s [HJ Hst]. apply J_upd; [|done]. unfold step_ok, slot_step. by rewrite Hst, Hs.
    - apply (hoare_pre _ _ (J L b)); [|by intros ? [_ ?]]. jk. apply IH. lia. }
  apply Hl. lia.
Qed.

Lemma update_time_keeps : jkeeps update_time.
Proof.
  unfold update_time. assert (Hl : forall n i, (i + n <= NPROC)%nat -> jkeeps (update_time_loop n i)).
  { induction n as [|n IH]; intros i Hi; cbn [update_time_loop]; jk; [by apply jk_modp|apply IH; lia]. }
  apply Hl. lia.
Qed.

Lemma choose_keeps : jkeeps choose_next_process.
Proof.
  unfold choose_next_process.
  assert (Hrr : forall n i, jkeeps (choose_rr n i)) by (induction n; intros; cbn [choose_rr]; jk).
  assert (Hfc : forall n i c, jkeeps (choose_fcfs n i c)) by (induction n; intros; cbn [choose_fcfs]; jk).
  assert (Hpr : forall n i c, jkeeps (choose_priority n i c))
    by (induction n; intros; cbn [choose_priority]; jk).
  jk.
Qed.
#[local] Hint Resolve choose_keeps : jkeeps.

Lemma scheduler_pass_keeps c : jkeeps (scheduler_pass c).
Proof.
  unfold scheduler_pass. apply jk_bind; [jk|]. intros [i|]; [|jk]. apply jk_bind; [jk|intros ?].
  eapply hoare_bind; [apply hoare_getp|]. intros p. case_decide as Hr.
  - eapply (hoare_bind _ _ (fun _ => J L b)); [|intros ?; jk].
    apply hoare_modify. intros s [-> HJ]. apply J_upd; [|done]. unfold step_ok, slot_step. by rewrite Hr.
  - apply (hoare_pre _ _ (J L b)); [|by intros s [_ ?]]. jk.
Qed.

Lemma growproc_keeps n : L me -> jkeeps (growproc kend n).
Proof.
  intros HL. unfold growproc.
  assert (Hsz : forall v, jkeeps (modp me (set_sz v))).
  { intros v. apply hoare_modify. intros s HJ. destruct (proj2 HJ me HL) as (_ & Hn & Hnu & Hnz).
    by apply J_upd. }
  jk.
Qed.

Lemma reparent_keeps p : jkeeps (reparent p).
Proof.
  unfold reparent. assert (Hl : forall n i, (i + n <= NPROC)%nat -> jkeeps (reparent_loop n i p)).
  { induction n as [|n IH]; intros i Hi; cbn [reparent_loop]; [jk|].
    eapply hoare_bind; [apply hoare_getp|]. intros par.
    eapply (hoare_bind _ _ (fun _ => J L b)); [|intros ?; apply IH; lia].
    case_bool_decide as Hp; [|by intros e s He [? ?]].
    eapply hoare_bind; [apply hoare_gets_any|]. intros ip.
    eapply (hoare_bind _ _ (fun _ => J L b)); [|intros ?; jk].
    apply hoare_modify. intros s [Hpar HJ]. apply J_upd; [|done]. split; [|done]. split; [done|].
    split; [|done]. intros Hu. split; [done|]. intros Hc. exfalso.
    destruct Hc as (_ & _ & _ & _ & Hn & _). congruence. }
  apply Hl. lia.
Qed.
#[local] Hint Resolve reparent_keeps : jkeeps.

Lemma reap_scan_keeps info n pp p addr h :
  (pp + n <= NPROC)%nat -> jkeeps (reap_scan kend info n pp p addr h).
Proof.
  revert pp h. induction n as [|n IH]; intros pp h Hn; cbn [reap_scan]; [jk|].
  apply jk_bind; [jk|intros par]. case_decide; [|apply IH; lia].
  apply jk_bind; [jk|intros ?]. eapply hoare_bind; [apply hoare_getp|]. intros q. case_decide as Hz.
  - set (P := fun s => J L b s /\ p_state (nth_proc pp s) = ZOMBIE).
    assert (HPk : kstable P) by apply (Jb_kstable L b NPROC (fun p => p_state p = ZOMBIE) pp).
    apply (hoare_pre _ _ P); [|by intros s [-> ?]].
    eapply hoare_bind; [apply hoare_getp_any|]. intros pt.
    eapply hoare_bind; [apply hoare_gets_any|]. intros now.
    eapply (hoare_bind _ _ (fun _ => P)).
    { case_match; [by intros e s He ?|]. apply hoare_kmm; auto with nosleep. }
    intros r. case_match.
    + apply (hoare_pre _ _ (J L b)); [|by intros s [? _]]. jk.
    + eapply (hoare_bind _ _ (fun _ => J L b)); [|intros ?; jk].
      apply (hoare_pre _ _ (Jb pp L b)); [apply freeproc_triple; lia|].
      intros s [HJ Hzz]. apply Jb_of_J; [|exact HJ]. intros HL. by destruct (proj2 HJ pp HL) as (_ & _ & _ & ?).
  - apply (hoare_pre _ _ (J L b)); [|by intros s [_ ?]]. jk. apply IH. lia.
Qed.

Lemma reap_loop_keeps info f p addr : L me -> jkeeps (reap_loop kend info f p addr).
Proof.
  intros HL. induction f as [|f IH]; cbn [reap_loop].
  - apply jk_bind; [apply reap_scan_keeps; lia|]. intros r. jk.
  - apply jk_bind; [apply reap_scan_keeps; lia|]. intros r. jk. by apply sleep_keeps.
Qed.

Lemma wait_keeps addr : L me -> jkeeps (wait kend addr).
Proof. intros HL. unfold wait. jk. by apply reap_loop_keeps. Qed.

Lemma getprocinfo_keeps addr : L me -> jkeeps (getprocinfo kend addr).
Proof. intros HL. unfold getprocinfo. jk. by apply reap_loop_keeps. Qed.

Lemma getptable_keeps n buf nm pad : jkeeps (getptable n buf nm pad).
Proof.
  unfold getptable. jk. generalize NPROC 0%nat 0 nm. induction n0; intros; cbn [getptable_loop]; jk; auto.
Qed.

Lemma wakeup_nosleep ch : nosleep (wakeup ch).
Proof.
  unfold wakeup. generalize NPROC 0%nat. induction n; intros i; cbn [wakeup_loop]; nosleep_auto.
  all: first [apply nosleep_gets|apply nosleep_modify|auto].
Qed.

Lemma reparent_nosleep p : nosleep (reparent p).
Proof.
  unfold reparent. generalize NPROC 0%nat. induction n; intros i; cbn [reparent_loop]; nosleep_auto.
  all: first [apply nosleep_gets|apply nosleep_modify|apply wakeup_nosleep|auto].
Qed.
End ops.

(** exit() gives up the process itself, and no other. *)
Lemma exit_zombie_triple me (L : nat -> Prop) b status :
  L me ->
  hoare me (J (fun i => L i /\ i <> me) b) (J L b) (exit_zombie me status) (fun _ _ => False).
Proof.
  intros HL. set (L' := fun i => L i /\ i <> me). unfold exit_zombie.
  eapply hoare_bind; [apply hoare_acquire|]. intros ?.
  eapply hoare_bind; [eapply hoare_nosleep; [apply reparent_nosleep|apply reparent_keeps]|]. intros ?.
  eapply hoare_bind; [apply hoare_getp_any|]. intros par.
  eapply hoare_bind; [eapply hoare_nosleep; [apply wakeup_nosleep|apply wakeup_keeps]|]. intros ?.
  eapply hoare_bind; [apply hoare_acquire|]. intros ?.
  eapply (hoare_bind _ _ (fun _ => J L b)); [apply hoare_modify; intros s HJ; by apply J_upd|]. intros ?.
  eapply (hoare_bind _ _ (fun _ => J L' b)).
  { apply hoare_modify. intros s HJ. destruct (proj2 HJ me HL) as (_ & Hn & Hu & Hz).
    apply J_upd_but; [done|by intros [_ ?]|]. destruct HJ as [Hp Hlv]. split; [done|].
    intros i [Hi _]. by apply Hlv. }
  intros ?. eapply hoare_bind; [apply hoare_gets_any|]. intros now.
  do 3 (eapply (hoare_bind _ _ (fun _ => J L' b));
        [apply hoare_modify; intros s HJ; by apply J_upd|intros ?]).
  eapply hoare_bind; [apply hoare_release|]. intros ?.
  eapply hoare_bind; [apply sched_keeps|]. intros ?. apply hoare_panic.
Qed.

(** ** The interface of the process table

    What the kernel may call without giving up the invariant, with the
    condition that the caller is a live process where the source relies on
    it. *)
Inductive table_op (kend : Z) : bool -> forall A, K pstate A -> Prop :=
| op_yield : table_op kend true _ yield
| op_sleep ch lk : table_op kend true _ (sleep ch lk)
| op_wakeup ch : table_op kend false _ (wakeup ch)
| op_kill pid : table_op kend false _ (kill pid)
| op_setkilled i : table_op kend false _ (setkilled i)
| op_killed i : table_op kend false _ (killed i)
| op_update_time : table_op kend false _ update_time
| op_scheduler c : table_op kend false _ (scheduler_pass c)
| op_growproc n : table_op kend true _ (growproc kend n)
| op_reparent p : table_op kend false _ (reparent p)
| op_wait addr : table_op kend true _ (wait kend addr)
| op_getprocinfo addr : table_op kend true _ (getprocinfo kend addr)
| op_getptable n buf nm pad : table_op kend false _ (getptable n buf nm pad).

Lemma table_op_keeps kend needs_me A (m : K pstate A) me L b :
  table_op kend needs_me A m -> (needs_me = true -> L me) -> jkeeps me L b m.
Proof.
  intros Hop HL. destruct Hop; try specialize (HL eq_refl).
  - by apply yield_keeps.
  - by apply sleep_keeps.
  - apply wakeup_keeps.
  - apply kill_keeps.
  - apply setkilled_keeps.
  - apply killed_keeps.
  - apply update_time_keeps.
  - apply scheduler_pass_keeps.
  - by apply growproc_keeps.
  - apply reparent_keeps.
  - by apply wait_keeps.
  - by apply getprocinfo_keeps.
  - apply getptable_keeps.
Qed.

(** C18: the process table stays well formed however the operations of proc.c
    interleave.  Fix the processes [L] known to be alive and a bound [b] on
    the pids handed out so far.  Every operation of process [me] exposes, where
    it returns and where it sleeps, only tables in which UNUSED slots are
    cleared, the pids of the others are distinct and below [nextpid], and the
    processes of [L] are alive; it needs nothing else of the other processes.
    allocproc() raises the bound by one and returns a slot nobody in [L] owns;
    exit() gives up [me] and no other process. *)
Theorem proc_table_invariant kend trampoline forkret_addr me L b :
  b + 1 < 2 ^ 31 ->
  (forall needs_me A (m : K pstate A), table_op kend needs_me A m -> (needs_me = true -> L me) ->
     hoare me (J L b) (J L b) m (fun _ => J L b)) /\
  hoare me (J L b) (J L b) (allocproc kend trampoline forkret_addr)
    (fun r s => J L (b + 1) s /\ forall k, r = Some k -> ~ L k /\ p_state (nth_proc k s) = USED) /\
  (L me -> forall status,
     hoare me (J (fun i => L i /\ i <> me) b) (J L b) (exit_zombie me status) (fun _ _ => False)).
Proof.
  intros Hb. split; [|split].
  - intros needs_me A m Hop HL. by apply (table_op_keeps kend needs_me).
  - eapply hoare_post; [by apply allocproc_triple|]. intros r s [HJ Hr]. split; [done|].
    intros k ->. by destruct Hr as (_ & ? & ?).
  - intros HL status. by apply exit_zombie_triple.
Qed.

(** The table at boot, with one process. *)
Definition demo_table : pstate :=
  mkPstate (mkProc RUNNING None 0 0 1 None 0 4096 8192 12288 (mkContext 0 0 (replicate 12 0))
              (replicate NOFILE None) None (replicate 16 0) 0 0 0 0 0 :: replicate 63 proc0)
    2 (Some 0%nat) (replicate 8 None) 0 SCHED_PRIORITY [] (mkKmem 0 ∅).

Lemma demo_table_J : J (fun i => i = 0%nat) 2 demo_table.
Proof.
  assert (Hn : forall i, (i < NPROC)%nat -> i <> 0%nat -> nth_proc i demo_table = proc0).
  { intros [|i] Hi Hne; [done|]. unfold nth_proc. cbn [procs demo_table].
    change (replicate 63 proc0 !!! i = proc0). apply lookup_total_replicate_2. unfold NPROC in Hi. lia. }
  split; [split|].
  - done.
  - done.
  - intros i Hi _. destruct (decide (i = 0%nat)) as [->|Hne]; [by split|]. by rewrite Hn.
  - intros i j Hi Hj _ _ Hiu Hju _. destruct (decide (i = 0%nat)) as [->|Hi']; [|by rewrite Hn in Hiu].
    destruct (decide (j = 0%nat)) as [->|Hj']; [done|by rewrite Hn in Hju].
  - intros i ->. split; [done|]. unfold live, NPROC. split; [lia|done].
Qed.

Lemma proc_table_invariant_witness :
  J (fun i => i = 0%nat) 2 demo_table /\
  rpost 0 (J (fun i => i = 0%nat) 2) (fun _ => J (fun i => i = 0%nat) 2)
    (wait 0 0 (mkEnv 0 1 false [] [] 3) demo_table).
Proof.
  split; [exact demo_table_J|].
  apply (proc_table_invariant 0 0 0 0 (fun i => i = 0%nat) 2 ltac:(lia)) with true.
  - apply op_wait.
  - done.
  - done.
  - exact demo_table_J.
Defined.
