(* ===== verification/ProcThms.v ===== *)
(** * Sleep and wakeup, kill, and the clock

    The functional behaviour of the operations of proc.c that change the state
    of other processes, slot by slot. *)

From S2P Require Import Prelude KMonad Hoare CString Riscv Kalloc Vm VmSleep Proc ProcSpec ProcInv.
Open Scope kmonad_scope.

(** ** Loops over the table *)

(** The slots [i .. i+n-1] changed by [g]. *)
Fixpoint upd_range (n i : nat) (g : nat -> proc -> proc) (s : pstate) : pstate :=
  match n with
  | O => s
  | S n => upd_range n (S i) g (upd_proc i (g i) s)
  end.

(** A process woken by wakeup(ch). *)
Definition woken (me : nat) (ch : option chan) (i : nat) (p : proc) : proc :=
  if bool_decide (i <> me /\ p_state p = SLEEPING /\ p_chan p = ch) then set_state RUNNABLE p else p.

Definition ticked (i : nat) (p : proc) : proc :=
  if bool_decide (p_state p = RUNNING) then set_run_time (u32 (p_run_time p + 1)) p else p.

(** A process killed by kill(). *)
Definition slain (p : proc) : proc :=
  let p := set_killed 1 p in
  if bool_decide (p_state p = SLEEPING) then set_state RUNNABLE p else p.

(** The first slot with a pid. *)
Fixpoint find_pid (n i : nat) (pid : Z) (s : pstate) : option nat :=
  match n with
  | O => None
  | S n => if p_pid (nth_proc i s) =? pid then Some i else find_pid n (S i) pid s
  end.

Lemma upd_range_nth n i g s j :
  (i + n <= length (procs s))%nat ->
  nth_proc j (upd_range n i g s) =
    if decide (i <= j < i + n)%nat then g j (nth_proc j s) else nth_proc j s.
Proof.
  revert i s. induction n as [|n IH]; intros i s Hn; cbn [upd_range].
  - rewrite decide_False by lia. done.
  - rewrite IH by (rewrite length_upd_proc; lia). rewrite nth_upd_proc by lia.
    destruct (decide (j = i)) as [->|Hne].
    + rewrite decide_False by lia. by rewrite decide_True by lia.
    + destruct (decide (S i <= j < S i + n)%nat) as [H|H].
      * by rewrite decide_True by lia.
      * by rewrite decide_False by lia.
Qed.

Lemma upd_range_rest n i g s :
  length (procs (upd_range n i g s)) = length (procs s) /\
  nextpid (upd_range n i g s) = nextpid s /\ cpus (upd_range n i g s) = cpus s /\
  ticks (upd_range n i g s) = ticks s /\ ps_kmem (upd_range n i g s) = ps_kmem s.
Proof.
  revert i s. induction n as [|n IH]; intros i s; cbn [upd_range]; [done|].
  destruct (IH (S i) (upd_proc i (g i) s)) as (H1 & H2 & H3 & H4 & H5).
  rewrite length_upd_proc in H1. done.
Qed.

Lemma upd_range_mode n i g s : sched_mode (upd_range n i g s) = sched_mode s.
Proof. revert i s. induction n as [|n IH]; intros i s; cbn [upd_range]; [done|]. by rewrite IH. Qed.

Lemma upd_proc_id i s f : f (nth_proc i s) = nth_proc i s -> (i < length (procs s))%nat -> upd_proc i f s = s.
Proof.
  intros Hf Hi. unfold upd_proc. destruct s. cbn in *. f_equal.
  eapply list_alter_id_at; [|exact Hf]. by apply list_lookup_lookup_total_lt.
Qed.

Lemma upd_proc_ext i s f g :
  f (nth_proc i s) = g (nth_proc i s) -> (i < length (procs s))%nat -> upd_proc i f s = upd_proc i g s.
Proof.
  intros Hf Hi. unfold upd_proc. f_equal. apply list_eq. intros j.
  destruct (decide (j = i)) as [->|Hne]; [|by rewrite !list_lookup_alter_ne].
  rewrite !list_lookup_alter, !decide_True, lookup_proc by done. simpl. by rewrite Hf.
Qed.

Lemma wakeup_loop_run n i ch e s :
  no_plock e -> (i + n <= length (procs s))%nat ->
  wakeup_loop n i ch e s = Ok tt e (upd_range n i (woken (e_me e) ch) s).
Proof.
  intros He. revert i s. induction n as [|n IH]; intros i s Hn; [done|].
  cbn [wakeup_loop upd_range]. krun. case_decide as Hme.
  - kred. rewrite IH by lia. rewrite upd_proc_id; [done| |lia].
    unfold woken. rewrite bool_decide_false; [done|naive_solver].
  - rewrite bind_eq, acquire_eq by apply He. krun. unfold getp. krun.
    case_bool_decide as Hb; unfold modp; krun; rewrite IH by (rewrite ?length_upd_proc; lia).
    + rewrite (upd_proc_ext i s _ (woken (e_me e) ch i)); [done| |lia].
      unfold woken. by rewrite bool_decide_true.
    + rewrite upd_proc_id; [done| |lia]. unfold woken. rewrite bool_decide_false; [done|naive_solver].
Qed.

Lemma update_time_loop_run n i e s :
  no_plock e -> (i + n <= length (procs s))%nat ->
  update_time_loop n i e s = Ok tt e (upd_range n i ticked s).
Proof.
  intros He. revert i s. induction n as [|n IH]; intros i s Hn; [done|].
  cbn [update_time_loop upd_range]. rewrite bind_eq, acquire_eq by apply He. krun. unfold getp. krun.
  case_bool_decide as Hb; unfold modp; krun; rewrite IH by (rewrite ?length_upd_proc; lia).
  - rewrite (upd_proc_ext i s _ (ticked i)); [done| |lia]. unfold ticked. by rewrite bool_decide_true.
  - rewrite upd_proc_id; [done| |lia]. unfold ticked. by rewrite bool_decide_false.
Qed.

Lemma kill_loop_run n i pid e s :
  no_plock e -> (i + n <= length (procs s))%nat ->
  kill_loop n i pid e s =
    match find_pid n i pid s with
    | None => Ok (-1) e s
    | Some k => Ok 0 e (upd_proc k slain s)
    end.
Proof.
  intros He. revert i. induction n as [|n IH]; intros i Hn; [done|].
  cbn [kill_loop find_pid]. rewrite bind_eq, acquire_eq by apply He. krun. unfold getp. krun.
  destruct (p_pid (nth_proc i s) =? pid); krun; [|apply IH; lia].
  unfold modp. krun. case_bool_decide as Hs; krun.
  - rewrite upd_proc_twice, (upd_proc_ext i s _ slain); [done| |lia]. unfold slain. by rewrite bool_decide_true.
  - rewrite (upd_proc_ext i s _ slain); [done| |lia]. unfold slain. by rewrite bool_decide_false.
Qed.

Lemma find_pid_spec n i pid s :
  match find_pid n i pid s with
  | None => forall j, (i <= j < i + n)%nat -> p_pid (nth_proc j s) <> pid
  | Some k => (i <= k < i + n)%nat /\ p_pid (nth_proc k s) = pid /\
      forall j, (i <= j < k)%nat -> p_pid (nth_proc j s) <> pid
  end.
Proof.
  revert i. induction n as [|n IH]; intros i; cbn [find_pid]; [lia|].
  destruct (Z.eqb_spec (p_pid (nth_proc i s)) pid) as [He|He]; [split; [lia|]; split; [done|lia]|].
  specialize (IH (S i)). destruct (find_pid n (S i) pid s) as [k|].
  - destruct IH as (H1 & H2 & H3). split; [lia|]. split; [done|]. intros j Hj.
    destruct (decide (j = i)) as [->|]; [done|apply H3; lia].
  - intros j Hj. destruct (decide (j = i)) as [->|]; [done|apply IH; lia].
Qed.

(** ** Sleep and wakeup *)

Lemma wakeup_run ch e s :
  no_plock e -> length (procs s) = NPROC ->
  wakeup ch e s = Ok tt e (upd_range NPROC 0 (woken (e_me e) ch) s).
Proof. intros He Hl. apply wakeup_loop_run; [done|]. rewrite Hl. lia. Qed.

Lemma woken_nth ch e s j :
  length (procs s) = NPROC -> (j < NPROC)%nat ->
  nth_proc j (upd_range NPROC 0 (woken (e_me e) ch) s) = woken (e_me e) ch j (nth_proc j s).
Proof. intros Hl Hj. rewrite upd_range_nth by (rewrite Hl; lia). rewrite decide_True by lia. done. Qed.

(** A timer tick, with its update_time() and wakeup(), is one of the things
    that may happen while a process has its turn on a CPU. *)
Lemma tick_undisturbed c i ch e s :
  no_plock e -> length (procs s) = NPROC -> (i < NPROC)%nat -> p_state (nth_proc i s) <> SLEEPING ->
  exists s', (update_time ;;; wakeup ch) e s = Ok tt e s' /\ undisturbed c i s s'.
Proof.
  intros He Hl Hi Hs. unfold update_time. rewrite bind_eq, update_time_loop_run by (rewrite ?Hl; done). kred.
  set (s1 := upd_range NPROC 0 ticked s).
  assert (R1 : length (procs s1) = length (procs s)) by apply upd_range_rest.
  assert (R2 : cpus s1 = cpus s) by apply upd_range_rest. rewrite wakeup_run by (done || congruence). eexists. split; [done|].
  destruct (upd_range_rest NPROC 0 (woken (e_me e) ch) s1) as (R3 & _ & R4 & _).
  assert (Hn : nth_proc i s1 = ticked i (nth_proc i s))
    by (unfold s1; rewrite upd_range_nth by (rewrite Hl; lia); by rewrite decide_True by lia).
  assert (Hst : p_state (ticked i (nth_proc i s)) = p_state (nth_proc i s)) by (unfold ticked; by case_bool_decide).
  assert (Hw : woken (e_me e) ch i (nth_proc i s1) = ticked i (nth_proc i s)).
  { unfold woken. rewrite bool_decide_false; [done|]. rewrite Hn, Hst. naive_solver. }
  split; [congruence|congruence|unfold s1; by rewrite !upd_range_mode|..];
    unfold ctime; rewrite woken_nth, Hw by (done || congruence); [done|]. unfold ticked. by case_bool_decide.
Qed.

(** sleep() up to the switch: the condition lock has been given up and the
    process is asleep on the channel; what follows the switch takes the lock
    back. *)
Lemma sleep_run ch lk e s :
  e_held e = [lk] -> lk <> LkProc (e_me e) -> (e_me e < length (procs s))%nat ->
  sleep ch lk e s =
    Sleep ChSwtch (set_held [LkProc (e_me e)] e)
      (upd_proc (e_me e) (fun p => set_state SLEEPING (set_chan ch p)) s)
      (fun e' s' => rbind (modp (e_me e) (set_chan None) e' s')
                      (fun _ => release (LkProc (e_me e)) ;;; acquire lk)).
Proof.
  intros Hh Hlk Hme. unfold sleep. krun.
  rewrite acquire_eq by (rewrite Hh, list_elem_of_singleton; congruence). krun.
  unfold release at 1, holding. cbn [e_held set_held]. rewrite Hh, bool_decide_true by set_solver.
  cbn [remove_lock]. rewrite decide_False by congruence. rewrite decide_True by done.
  rewrite set_held_set. krun. unfold modp at 1 2. krun. rewrite upd_proc_twice.
  unfold sched. krun. unfold holding. cbn [e_held set_held e_me]. rewrite bool_decide_true by set_solver.
  cbn [negb]. krun. cbn [e_held set_held length Nat.eqb negb]. krun. unfold getp. krun.
  rewrite nth_upd_same by done. cbn [p_state set_state]. done.
Qed.

(** sleep() and wakeup() as wholes.  A process that holds only the condition's
    lock and calls sleep(chan, lk) is SLEEPING on chan, and has given lk up, when
    it switches away.  From then on, in any table [s2] that still has it that
    way, a wakeup(chan) of another process makes it RUNNABLE, and a wakeup of
    another channel leaves it asleep; no wakeup changes anything else of any
    process.  Resumed, it holds lk again, and only lk, with p->chan cleared. *)
Theorem sleep_wakeup_handshake ch lk e s :
  e_held e = [lk] -> lk <> LkProc (e_me e) -> length (procs s) = NPROC -> (e_me e < NPROC)%nat ->
  exists e1 s1 k,
    sleep (Some ch) lk e s = Sleep ChSwtch e1 s1 k /\
    e_held e1 = [LkProc (e_me e)] /\
    p_state (nth_proc (e_me e) s1) = SLEEPING /\ p_chan (nth_proc (e_me e) s1) = Some ch /\
    (forall ch' ew s2, no_plock ew -> e_me ew <> e_me e -> length (procs s2) = NPROC ->
       nth_proc (e_me e) s2 = nth_proc (e_me e) s1 ->
       exists s3, wakeup (Some ch') ew s2 = Ok tt ew s3 /\
         (p_state (nth_proc (e_me e) s3) = RUNNABLE <-> ch' = ch) /\
         forall j, (j < NPROC)%nat -> nth_proc j s3 = woken (e_me ew) (Some ch') j (nth_proc j s2)) /\
    (forall s4, (e_me e < length (procs s4))%nat ->
       exists s5, k e1 s4 = Ok tt e s5 /\ s5 = upd_proc (e_me e) (set_chan None) s4).
Proof.
  intros Hh Hlk Hl Hme. assert (Hme' : (e_me e < length (procs s))%nat) by by rewrite Hl.
  do 3 eexists. split; [by apply sleep_run|]. rewrite nth_upd_same by done.
  split; [done|]. split; [done|]. split; [done|]. split.
  - intros ch' ew s2 Hno Hne Hl2 Hs2. eexists. split; [by apply wakeup_run|]. rewrite woken_nth by done.
    split; [|intros j Hj; by apply woken_nth]. rewrite Hs2. unfold woken. cbn [p_state p_chan set_state set_chan].
    destruct (decide (ch' = ch)) as [->|Hc].
    + rewrite bool_decide_true by done. done.
    + rewrite bool_decide_false by naive_solver. done.
  - intros s4 Hs4. eexists. split; [|done]. unfold modp. kred. krun.
    unfold release, holding. cbn [e_held set_held]. rewrite bool_decide_true by set_solver.
    rewrite remove_lock_head, set_held_set. kred. rewrite acquire_eq by set_solver.
    cbn [e_held set_held]. by rewrite set_held_set, <- Hh, set_held_id.
Qed.

Lemma sleep_wakeup_handshake_witness :
  exists e1 s1 k,
    sleep (Some ChLog) LkLog (mkEnv 0 1 false [LkLog] [] 3) demo_table = Sleep ChSwtch e1 s1 k /\
    p_state (nth_proc 0 s1) = SLEEPING.
Proof.
  destruct (sleep_wakeup_handshake ChLog LkLog (mkEnv 0 1 false [LkLog] [] 3) demo_table)
    as (e1 & s1 & k & H1 & _ & H2 & _); [done|done|done|vm_compute; lia|].
  by exists e1, s1, k.
Defined.

(** ** Kill *)

(** kill(pid) acts on the first slot with that pid and on no other: it is
    marked killed and, if asleep, becomes RUNNABLE so that it can notice; the
    result is 0.  If no slot has the pid the result is -1 and nothing changes. *)
Theorem kill_correct pid e s :
  no_plock e -> length (procs s) = NPROC ->
  (exists k, (k < NPROC)%nat /\ p_pid (nth_proc k s) = pid /\
     (forall j, (j < k)%nat -> p_pid (nth_proc j s) <> pid) /\
     kill pid e s = Ok 0 e (upd_proc k slain s) /\
     p_killed (slain (nth_proc k s)) = 1 /\ p_state (slain (nth_proc k s)) <> SLEEPING) \/
  ((forall j, (j < NPROC)%nat -> p_pid (nth_proc j s) <> pid) /\ kill pid e s = Ok (-1) e s).
Proof.
  intros He Hl. unfold kill. rewrite kill_loop_run by (done || rewrite Hl; lia).
  pose proof (find_pid_spec NPROC 0 pid s) as Hf. destruct (find_pid NPROC 0 pid s) as [k|].
  - left. destruct Hf as (Hk & Hp & Hj). exists k. split; [lia|]. split; [done|].
    split; [intros j Hj'; apply Hj; lia|]. split; [done|]. unfold slain.
    case_bool_decide; done.
  - right. split; [|done]. intros j Hj. apply Hf. lia.
Qed.

Lemma kill_correct_witness :
  length (procs demo_table) = NPROC /\
  ((exists k, kill 1 (mkEnv 0 1 false [] [] 3) demo_table =
     Ok 0 (mkEnv 0 1 false [] [] 3) (upd_proc k slain demo_table)) \/
   kill 1 (mkEnv 0 1 false [] [] 3) demo_table = Ok (-1) (mkEnv 0 1 false [] [] 3) demo_table).
Proof.
  split; [done|].
  destruct (kill_correct 1 (mkEnv 0 1 false [] [] 3) demo_table) as [(k & _ & _ & _ & H & _)|[_ H]];
    [intros i; apply not_elem_of_nil|done|left; by exists k|by right].
Defined.

(** ** The pid 0 *)

(** A slot that has been marked killed. *)
Definition marked (i : nat) (s : pstate) : Prop :=
  (i < length (procs s))%nat /\ p_killed (nth_proc i s) = 1.

Definition first_free (k : nat) (s : pstate) : Prop :=
  (k < NPROC)%nat /\ p_state (nth_proc k s) = UNUSED /\
  forall j, (j < k)%nat -> p_state (nth_proc j s) <> UNUSED.

Section marked.
Context (kend trampoline forkret_addr : Z) (me : nat) (I : pstate -> Prop).

Lemma marked_kstable i : kstable (marked i).
Proof. by intros s t ?. Qed.

Lemma marked_modp i f :
  (forall p, p_killed (f p) = p_killed p) -> hoare me I (marked i) (modp i f) (fun _ => marked i).
Proof.
  intros Hf. apply hoare_modify. intros s [Hi Hk]. split; [by rewrite length_upd_proc|].
  by rewrite nth_upd_same, Hf.
Qed.

Lemma scan_first_free n i k :
  (i + n <= NPROC)%nat ->
  hoare me I (fun s => marked k s /\ first_free k s /\ (i <= k)%nat) (allocproc_scan n i)
    (fun r s => marked k s /\ forall k', r = Some k' -> k' = k).
Proof.
  revert i. induction n as [|n IH]; intros i Hn; cbn [allocproc_scan].
  - eapply hoare_post; [apply hoare_ret|]. intros ? s [-> [? _]]. done.
  - eapply hoare_bind; [apply hoare_acquire|]. intros ?.
    eapply hoare_bind; [apply hoare_getp|]. intros st. case_decide as Hst.
    + eapply hoare_post; [apply hoare_ret|]. intros ? s (-> & Hs & Hm & (Hk & Hu & Hj) & Hik).
      split; [done|]. intros k' [= <-]. destruct (decide (i = k)) as [|Hne]; [done|].
      destruct (Hj i); [lia|congruence].
    + apply (hoare_pre _ _ (fun s => marked k s /\ first_free k s /\ (S i <= k)%nat)).
      * eapply hoare_bind; [apply hoare_release|]. intros ?. apply IH. lia.
      * intros s (Hs & Hm & Hf & Hik). split; [done|]. split; [done|].
        destruct (decide (i = k)) as [->|]; [|lia]. destruct Hf as (_ & Hu & _). congruence.
Qed.

Lemma kmm_nosleep {A} (m : K kmem A) : nosleep m -> nosleep (kmm m).
Proof. apply nosleep_zoom. Qed.

Lemma freeproc_nosleep i : nosleep (freeproc kend i).
Proof.
  assert (Hg : forall A (f : proc -> A), nosleep (getp i f)) by (intros; apply nosleep_gets).
  assert (Hm : forall f, nosleep (modp i f)) by (intros; apply nosleep_modify).
  assert (Hp : forall pt sz, nosleep (proc_freepagetable kend pt sz))
    by (intros; unfold proc_freepagetable; nosleep_auto; apply kmm_nosleep; auto with nosleep).
  unfold freeproc. nosleep_auto. apply kmm_nosleep; auto with nosleep.
Qed.

Lemma found_marked i :
  hoare me I (marked i) (allocproc_found kend trampoline forkret_addr i)
    (fun r s => forall k, r = Some k -> k = i /\ marked i s).
Proof.
  assert (Hfail : hoare me I (marked i) (freeproc kend i ;;; release (LkProc i) ;;; ret None)
                    (fun r s => forall k, r = Some k -> k = i /\ marked i s)).
  { eapply hoare_bind; [apply hoare_of_nosleep, freeproc_nosleep|]. intros ?.
    eapply hoare_bind; [apply hoare_release|]. intros ?.
    eapply hoare_post; [apply hoare_ret|]. by intros ? ? [-> _]. }
  unfold allocproc_found. eapply (hoare_bind _ _ (fun _ => marked i)).
  { unfold allocpid. eapply hoare_bind; [apply hoare_acquire|]. intros ?.
    eapply hoare_bind; [apply hoare_gets_any|]. intros pid.
    eapply hoare_bind; [by apply (hoare_modify _ _ _ _ (marked i))|]. intros ?.
    eapply hoare_bind; [apply hoare_release|]. intros ?. by intros e s He ?. }
  intros pid. do 2 (eapply hoare_bind; [by apply marked_modp|]; intros ?).
  eapply hoare_bind; [apply hoare_kmm; [auto with nosleep|apply marked_kstable]|]. intros tf.
  eapply hoare_bind; [by apply marked_modp|]. intros ?. case_match; [done|].
  eapply hoare_bind; [apply proc_pagetable_triple, marked_kstable|]. intros pt.
  eapply hoare_bind; [by apply marked_modp|]. intros ?. case_match; [done|].
  do 2 (eapply hoare_bind; [by apply marked_modp|]; intros ?).
  eapply hoare_bind; [apply hoare_gets_any|]. intros now.
  do 5 (eapply hoare_bind; [by apply marked_modp|]; intros ?).
  eapply hoare_post; [apply hoare_ret|]. intros ? s [-> Hm] k [= <-]. done.
Qed.
End marked.

Lemma pinv_free_pid b s k :
  pinv b s -> (k < NPROC)%nat -> p_state (nth_proc k s) = UNUSED <-> p_pid (nth_proc k s) = 0 .
Proof.
  intros [_ _ Hs _] Hk. destruct (Hs k Hk) as [H1 H2]; [lia|]. split.
  - intros Hu. by destruct (H1 Hu).
  - intros Hp. destruct (decide (p_state (nth_proc k s) = UNUSED)) as [|Hu]; [done|].
    specialize (H2 Hu). lia.
Qed.

(** C39: kill(0) reports success although no process has pid 0: in a well-formed
    table with a free slot it marks the first free slot as killed, and
    allocproc() does not clear the mark.  The next process that allocproc()
    creates is in that slot and is born killed. *)
Theorem kill_zero_marks_next_process kend trampoline forkret_addr b e s k :
  pinv b s -> no_plock e -> first_free k s ->
  exists s1, kill 0 e s = Ok 0 e s1 /\ marked k s1 /\ first_free k s1 /\
    forall me I, hoare me I (fun s => s = s1) (allocproc kend trampoline forkret_addr)
      (fun r s2 => forall k', r = Some k' -> k' = k /\ p_killed (nth_proc k' s2) = 1).
Proof.
  intros Hinv He Hf. pose proof (pi_len _ _ _ Hinv) as Hl. pose proof Hf as (Hk & Hu & Hj).
  exists (upd_proc k slain s).
  assert (Hkl : (k < length (procs s))%nat) by by rewrite Hl.
  assert (Hm : marked k (upd_proc k slain s)).
  { split; [by rewrite length_upd_proc|]. rewrite nth_upd_same by done. unfold slain. by case_bool_decide. }
  assert (Hff : first_free k (upd_proc k slain s)).
  { split; [done|]. rewrite nth_upd_same by done. split; [unfold slain; cbn; by rewrite Hu|].
    intros j Hjk. rewrite nth_upd_other by lia. auto. }
  split; [|split; [done|split; [done|]]].
  - unfold kill. rewrite kill_loop_run by (done || rewrite Hl; lia).
    pose proof (find_pid_spec NPROC 0 0 s) as Hs. destruct (find_pid NPROC 0 0 s) as [k'|].
    + destruct Hs as (Hk' & Hp & Hj'). enough (k' = k) as -> by done.
      destruct (decide (k' < k)%nat) as [H|H].
      * destruct (Hj k' H). by apply (pinv_free_pid b s k'); [|lia|].
      * destruct (decide (k < k')%nat) as [H'|H']; [|lia]. destruct (Hj' k); [lia|].
        by apply (pinv_free_pid b s k).
    + destruct (Hs k); [lia|]. by apply (pinv_free_pid b s k).
  - intros me I. unfold allocproc. eapply (hoare_pre _ _ _ _ _ _ ).
    + eapply hoare_bind; [apply (scan_first_free me I NPROC 0 k); lia|].
      intros [i|]; cbn beta iota.
      * intros e' s' He' [Hm' Hi]. specialize (Hi i eq_refl) as ->.
        eapply rpost_mono; [by apply found_marked|]. intros r s2 Hr k' Hk'.
        destruct (Hr k' Hk') as [-> [_ ?]]. done.
      * eapply hoare_post; [apply hoare_ret|]. by intros ? ? [-> _].
    + intros s' ->. split; [done|]. split; [done|lia].
Qed.

Lemma kill_zero_marks_next_process_witness :
  first_free 1 demo_table /\
  exists s1, kill 0 (mkEnv 0 1 false [] [] 3) demo_table = Ok 0 (mkEnv 0 1 false [] [] 3) s1 /\
    p_killed (nth_proc 1 s1) = 1.
Proof.
  assert (Hf : first_free 1 demo_table).
  { split; [vm_compute; lia|]. split; [done|]. intros [|j] Hj; [done|lia]. }
  split; [done|].
  destruct (kill_zero_marks_next_process 0 0 0 2 (mkEnv 0 1 false [] [] 3) demo_table 1)
    as (s1 & H & [_ Hm] & _); [apply demo_table_J|intros i; apply not_elem_of_nil|exact Hf|].
  by exists s1.
Defined.
