(* ===== verification/SleepRace.v ===== *)
(** * sleep() and wakeup() at the granularity of their statements

    [Proc.sleep] and [Proc.wakeup] run up to the switch in one go.  Here the
    same routines are sequences of statements, and the processes of the table
    run theirs in any interleaving, on any number of CPUs, being preempted
    where no lock is held and killed at any time.  Processes wait for a
    condition in a loop around sleep(chan, lk), or make it true and call
    wakeup(chan), both under lk, which is what every user of sleep() in the
    kernel does.  The order in which sleep() takes p->lock and gives lk up is
    what keeps a wakeup from being lost in between. *)

From stdpp Require Import functions.
From S2P Require Import Prelude KMonad Hoare CString Riscv Kalloc Vm VmSleep Proc ProcSpec ProcInv ProcThms.
Open Scope kmonad_scope.

(** ** Statements *)

Inductive prog : Type :=
| PRet
| PAcquire (l : lockid) (k : prog)
| PRelease (l : lockid) (k : prog)
| PModp (i : nat) (f : proc -> proc) (k : prog)
| PIf (i : nat) (test : proc -> bool) (k1 k2 : prog)
| PSched (k : prog).

(** sleep(chan, lk) of process [i]. *)
Definition sleep_prog (i : nat) (ch : chan) (lk : lockid) : prog :=
  PAcquire (LkProc i)
    (PRelease lk
      (PModp i (set_chan (Some ch))
        (PModp i (set_state SLEEPING)
          (PSched
            (PModp i (set_chan None)
              (PRelease (LkProc i)
                (PAcquire lk PRet))))))).

(** wakeup(chan) called by process [me]: the slots from [j] on, [n] of them. *)
Definition asleep_on (ch : chan) (p : proc) : bool := bool_decide (p_state p = SLEEPING /\ p_chan p = Some ch).

Definition wake_body (ch : chan) (j : nat) (k : prog) : prog :=
  PIf j (asleep_on ch) (PModp j (set_state RUNNABLE) (PRelease (LkProc j) k)) (PRelease (LkProc j) k).

Fixpoint wake_loop (ch : chan) (me n j : nat) : prog :=
  match n with
  | O => PRet
  | S n =>
      if decide (j = me) then wake_loop ch me n (S j)
      else PAcquire (LkProc j) (wake_body ch j (wake_loop ch me n (S j)))
  end.

Definition wakeup_prog (me : nat) (ch : chan) : prog := wake_loop ch me NPROC 0.

(** yield() of process [i], before it goes on with [k]. *)
Definition yield_prog (i : nat) (k : prog) : prog :=
  PAcquire (LkProc i) (PModp i (set_state RUNNABLE) (PSched (PRelease (LkProc i) k))).

(** The statements run one after the other. *)
Definition then_run (m : K pstate unit) (k : prog) (r : K pstate unit) : K pstate unit :=
  match k with PRet => m | _ => m ;;; r end.

Fixpoint run (c : prog) : K pstate unit :=
  match c with
  | PRet => ret tt
  | PAcquire l k => then_run (acquire l) k (run k)
  | PRelease l k => then_run (release l) k (run k)
  | PModp i f k => then_run (modp i f) k (run k)
  | PIf i test k1 k2 => p <- getp i (fun p => p) ;; if test p then run k1 else run k2
  | PSched k => then_run sched k (run k)
  end.

(** ** The machine *)

(** A thread runs, has called swtch() with the scheduler of its CPU about to
    release p->lock, or is not on a CPU. *)
Inductive on_cpu : Set := On | Switching | Off.

(** What a thread does when it has finished its statements: nothing; test
    the condition; use it; make it true; leave. *)
Inductive client : Set := Idle | Test | Use | Raise | Leave.

#[export] Instance client_eq_dec : EqDecision client.
Proof. solve_decision. Defined.

Record thread : Type := mkThread { t_code : prog; t_next : client; t_cpu : on_cpu }.

Record race : Type := mkRace {
  r_ps : pstate;
  r_held : nat -> list lockid;
  r_thread : nat -> thread;
  r_cond : bool;
  r_fault : option string
}.

Definition r_proc (s : race) (i : nat) : proc := nth_proc i (r_ps s).
Definition lock_free (l : lockid) (s : race) : Prop := forall i, (i < NPROC)%nat -> l ∉ r_held s i.

(** Thread [i] goes on as [t], holding the locks [h]. *)
Definition goes (i : nat) (t : thread) (h : list lockid) (s : race) : race :=
  mkRace (r_ps s) (<[i := h]> (r_held s)) (<[i := t]> (r_thread s)) (r_cond s) (r_fault s).
Definition with_ps (ps : pstate) (s : race) : race := mkRace ps (r_held s) (r_thread s) (r_cond s) (r_fault s).
Definition with_cond (b : bool) (s : race) : race := mkRace (r_ps s) (r_held s) (r_thread s) b (r_fault s).
Definition fault (msg : string) (s : race) : race := mkRace (r_ps s) (r_held s) (r_thread s) (r_cond s) (Some msg).

(** A statement of thread [i], its other statements being [k]: acquire() waits
    until the lock is free, and panics on a lock of its own; sched() checks
    that p->lock is the only lock held and that the state was changed. *)
Inductive exec_stmt (i : nat) (s : race) : race -> Prop :=
  | ex_acquire l k n :
      r_thread s i = mkThread (PAcquire l k) n On -> lock_free l s ->
      exec_stmt i s (goes i (mkThread k n On) (l :: r_held s i) s)
  | ex_acquire_twice l k n :
      r_thread s i = mkThread (PAcquire l k) n On -> l ∈ r_held s i -> exec_stmt i s (fault "acquire" s)
  | ex_release l k n :
      r_thread s i = mkThread (PRelease l k) n On -> l ∈ r_held s i ->
      exec_stmt i s (goes i (mkThread k n On) (remove_lock l (r_held s i)) s)
  | ex_release_free l k n :
      r_thread s i = mkThread (PRelease l k) n On -> l ∉ r_held s i -> exec_stmt i s (fault "release" s)
  | ex_modp j f k n :
      r_thread s i = mkThread (PModp j f k) n On ->
      exec_stmt i s (with_ps (upd_proc j f (r_ps s)) (goes i (mkThread k n On) (r_held s i) s))
  | ex_if j test k1 k2 n :
      r_thread s i = mkThread (PIf j test k1 k2) n On ->
      exec_stmt i s (goes i (mkThread (if test (r_proc s j) then k1 else k2) n On) (r_held s i) s)
  | ex_sched k n :
      r_thread s i = mkThread (PSched k) n On -> r_held s i = [LkProc i] -> p_state (r_proc s i) <> RUNNING ->
      exec_stmt i s (goes i (mkThread k n Switching) (r_held s i) s)
  | ex_sched_wrong k n :
      r_thread s i = mkThread (PSched k) n On -> r_held s i <> [LkProc i] \/ p_state (r_proc s i) = RUNNING ->
      exec_stmt i s (fault "sched" s).

Section race.
Context (ch : chan) (lk : lockid).

Inductive rstep (s : race) : race -> Prop :=
  (** a statement of a running thread *)
  | rs_exec i s' : (i < NPROC)%nat -> exec_stmt i s s' -> rstep s s'
  (** the scheduler takes the CPU over and releases p->lock *)
  | rs_switched i k n :
      (i < NPROC)%nat -> r_thread s i = mkThread k n Switching ->
      rstep s (goes i (mkThread k n Off) (remove_lock (LkProc i) (r_held s i)) s)
  (** a scheduler takes p->lock and dispatches the process *)
  | rs_dispatch i k n :
      (i < NPROC)%nat -> r_thread s i = mkThread k n Off -> p_state (r_proc s i) = RUNNABLE -> lock_free (LkProc i) s ->
      rstep s (with_ps (upd_proc i (set_state RUNNING) (r_ps s)) (goes i (mkThread k n On) (LkProc i :: r_held s i) s))
  (** a timer interrupt: yield() *)
  | rs_preempt i k n :
      (i < NPROC)%nat -> r_thread s i = mkThread k n On -> r_held s i = [] ->
      rstep s (goes i (mkThread (yield_prog i k) n On) [] s)
  (** kill() of a process, under its lock *)
  | rs_kill j :
      (j < NPROC)%nat -> lock_free (LkProc j) s -> rstep s (with_ps (upd_proc j slain (r_ps s)) s)
  (** acquire(lk), to wait or to make the condition true *)
  | rs_start i n :
      (i < NPROC)%nat -> r_thread s i = mkThread PRet Idle On -> n = Test \/ n = Raise ->
      rstep s (goes i (mkThread (PAcquire lk PRet) n On) (r_held s i) s)
  (** while(!cond) sleep(chan, lk); *)
  | rs_test i :
      (i < NPROC)%nat -> r_thread s i = mkThread PRet Test On ->
      rstep s (goes i (if r_cond s then mkThread PRet Use On else mkThread (sleep_prog i ch lk) Test On) (r_held s i) s)
  (** a killed process gives up waiting *)
  | rs_give_up i :
      (i < NPROC)%nat -> r_thread s i = mkThread PRet Test On ->
      rstep s (goes i (mkThread (PRelease lk PRet) Idle On) (r_held s i) s)
  (** after the loop the condition may be changed; release(lk) *)
  | rs_use i b :
      (i < NPROC)%nat -> r_thread s i = mkThread PRet Use On ->
      rstep s (with_cond b (goes i (mkThread (PRelease lk PRet) Idle On) (r_held s i) s))
  (** cond = 1; wakeup(chan); *)
  | rs_raise i :
      (i < NPROC)%nat -> r_thread s i = mkThread PRet Raise On ->
      rstep s (with_cond true (goes i (mkThread (wakeup_prog i ch) Leave On) (r_held s i) s))
  (** release(lk) *)
  | rs_leave i :
      (i < NPROC)%nat -> r_thread s i = mkThread PRet Leave On ->
      rstep s (goes i (mkThread (PRelease lk PRet) Idle On) (r_held s i) s).

(** At the start no thread is in any of these routines: it runs, is ready to
    run after a yield(), or its slot is not in use. *)
Definition thread_start (s : race) (i : nat) : Prop :=
  r_held s i = [] /\
  (r_thread s i = mkThread PRet Idle On /\ p_state (r_proc s i) = RUNNING \/
   r_thread s i = mkThread (PRelease (LkProc i) PRet) Idle Off /\ p_state (r_proc s i) = RUNNABLE \/
   r_thread s i = mkThread PRet Idle Off /\ (p_state (r_proc s i) = UNUSED \/ p_state (r_proc s i) = USED \/ p_state (r_proc s i) = ZOMBIE)).

Definition race_start (s : race) : Prop :=
  length (procs (r_ps s)) = NPROC /\ r_fault s = None /\ forall i, (i < NPROC)%nat -> thread_start s i.

(** ** Where a thread can be *)

(** Code run without a lock. *)
Inductive outside (i : nat) : client -> prog -> Prop :=
  | out_idle : outside i Idle PRet
  | out_start n : n = Test \/ n = Raise -> outside i n (PAcquire lk PRet)
  | out_yield n c : outside i n c -> outside i n (yield_prog i c).

(** The rest of sleep() after the switch, and before it. *)
Local Notation after_swtch i := (PModp i (set_chan None) (PRelease (LkProc i) (PAcquire lk PRet))).
Local Notation at_state i := (PModp i (set_state SLEEPING) (PSched (after_swtch i))).
Local Notation at_chan i := (PModp i (set_chan (Some ch)) (at_state i)).

(** [pos i cond A d t h st x]: thread [i] can be at [t] holding [h], in state
    [st] with p->chan [x]; [d] if it has seen the condition false and given lk
    up, and has not been woken since; [A j] says that process [j] sleeps. *)
Inductive pos (i : nat) (cond : bool) (A : nat -> Prop) : bool -> thread -> list lockid -> procstate -> option chan -> Prop :=
  | pos_out n c x : outside i n c -> pos i cond A false (mkThread c n On) [] RUNNING x
  | pos_y1 n c x : outside i n c ->
      pos i cond A false (mkThread (PModp i (set_state RUNNABLE) (PSched (PRelease (LkProc i) c))) n On) [LkProc i] RUNNING x
  | pos_y2 n c x : outside i n c ->
      pos i cond A false (mkThread (PSched (PRelease (LkProc i) c)) n On) [LkProc i] RUNNABLE x
  | pos_y3 n c x : outside i n c -> pos i cond A false (mkThread (PRelease (LkProc i) c) n Switching) [LkProc i] RUNNABLE x
  | pos_y4 n c x : outside i n c -> pos i cond A false (mkThread (PRelease (LkProc i) c) n Off) [] RUNNABLE x
  | pos_y5 n c x : outside i n c -> pos i cond A false (mkThread (PRelease (LkProc i) c) n On) [LkProc i] RUNNING x
  | pos_unused st x : st = UNUSED \/ st = USED \/ st = ZOMBIE -> pos i cond A false (mkThread PRet Idle Off) [] st x
  | pos_in n x : n = Test \/ n = Raise \/ (n = Use /\ cond = true) -> pos i cond A false (mkThread PRet n On) [lk] RUNNING x
  | pos_leave x : pos i cond A false (mkThread (PRelease lk PRet) Idle On) [lk] RUNNING x
  | pos_s0 x : cond = false ->
      pos i cond A false (mkThread (PAcquire (LkProc i) (PRelease lk (at_chan i))) Test On) [lk] RUNNING x
  | pos_s1 x : cond = false -> pos i cond A false (mkThread (PRelease lk (at_chan i)) Test On) [LkProc i; lk] RUNNING x
  | pos_s2 x : pos i cond A true (mkThread (at_chan i) Test On) [LkProc i] RUNNING x
  | pos_s3 : pos i cond A true (mkThread (at_state i) Test On) [LkProc i] RUNNING (Some ch)
  | pos_s4 : pos i cond A true (mkThread (PSched (after_swtch i)) Test On) [LkProc i] SLEEPING (Some ch)
  | pos_s5 : pos i cond A true (mkThread (after_swtch i) Test Switching) [LkProc i] SLEEPING (Some ch)
  | pos_s6 : pos i cond A true (mkThread (after_swtch i) Test Off) [] SLEEPING (Some ch)
  | pos_s7 x : pos i cond A false (mkThread (after_swtch i) Test Off) [] RUNNABLE x
  | pos_s8 x : pos i cond A false (mkThread (after_swtch i) Test On) [LkProc i] RUNNING x
  | pos_loop n j x : (j + n <= NPROC)%nat -> pos i cond A false (mkThread (wake_loop ch i n j) Leave On) [lk] RUNNING x
  | pos_body n j x : (j + S n <= NPROC)%nat -> j <> i ->
      pos i cond A false (mkThread (wake_body ch j (wake_loop ch i n (S j))) Leave On) [LkProc j; lk] RUNNING x
  | pos_wake n j x : (j + S n <= NPROC)%nat -> j <> i -> A j ->
      pos i cond A false (mkThread (PModp j (set_state RUNNABLE) (PRelease (LkProc j) (wake_loop ch i n (S j)))) Leave On)
        [LkProc j; lk] RUNNING x
  | pos_woke n j x : (j + S n <= NPROC)%nat -> j <> i ->
      pos i cond A false (mkThread (PRelease (LkProc j) (wake_loop ch i n (S j))) Leave On) [LkProc j; lk] RUNNING x.

(** The code will make process [i] RUNNABLE if it finds it asleep. *)
Fixpoint will_wake (i : nat) (c : prog) : Prop :=
  match c with
  | PRet | PSched _ => False
  | PAcquire _ k | PRelease _ k => will_wake i k
  | PModp j _ k => j = i \/ will_wake i k
  | PIf j _ k1 k2 => will_wake i k1 /\ (j <> i -> will_wake i k2)
  end.

(** A thread that holds lk is on its way to wake [i]. *)
Definition has_waker (s : race) (i : nat) : Prop :=
  exists k, (k < NPROC)%nat /\ lk ∈ r_held s k /\ t_next (r_thread s k) = Leave /\ will_wake i (t_code (r_thread s k)).

Definition asleep (ps : pstate) (j : nat) : Prop := p_state (nth_proc j ps) = SLEEPING.
Definition at_pos (s : race) (i : nat) (d : bool) : Prop :=
  pos i (r_cond s) (asleep (r_ps s)) d (r_thread s i) (r_held s i) (p_state (r_proc s i)) (p_chan (r_proc s i)).

Record rinv (s : race) : Prop := {
  ri_len : length (procs (r_ps s)) = NPROC;
  ri_fault : r_fault s = None;
  ri_mutex : forall l i j, (i < NPROC)%nat -> (j < NPROC)%nat -> l ∈ r_held s i -> l ∈ r_held s j -> i = j;
  ri_pos : forall i, (i < NPROC)%nat -> exists d, at_pos s i d /\ (r_cond s = true -> d = true -> has_waker s i)
}.

(** *** Positions *)

Lemma start_inv s : race_start s -> rinv s.
Proof.
  intros (Hl & Hf & Hs). split; [done|done|..].
  - intros l i j Hi Hj. destruct (Hs i Hi) as [-> _]. by intros ?%not_elem_of_nil.
  - intros i Hi. exists false. split; [|done]. unfold at_pos.
    destruct (Hs i Hi) as [-> [[-> ->]|[[-> ->]|[-> H]]]]; [apply pos_out, out_idle|apply pos_y4, out_idle|by apply pos_unused].
Qed.

(** The condition matters only to a thread that holds lk, and who sleeps only
    to one that holds the lock of the process. *)
Lemma pos_same i cond cond' A A' d t h st x :
  pos i cond A d t h st x -> cond' = cond \/ lk ∉ h -> (forall j, LkProc j ∈ h -> A j -> A' j) -> pos i cond' A' d t h st x.
Proof.
  intros Hp Hc HA. destruct Hp; try (by constructor);
    try (constructor; (done || (apply HA; [set_solver|done])));
    (destruct Hc as [->|Hc]; [by constructor|exfalso; apply Hc; set_solver]).
Qed.

(** A process asleep is woken by one who holds its lock. *)
Lemma pos_woken i cond A d t h x :
  pos i cond A d t h SLEEPING x -> LkProc i ∉ h -> pos i cond A false t h RUNNABLE x.
Proof.
  inversion 1; subst; intros Hh; try (exfalso; apply Hh; set_solver); constructor.
Qed.

Lemma pos_sleeping i cond A d t h : pos i cond A d t h SLEEPING (Some ch) -> d = true.
Proof. inversion 1; subst; naive_solver. Qed.

Lemma pos_danger i cond A t h st x : pos i cond A true t h st x -> LkProc i ∉ h -> st = SLEEPING /\ x = Some ch.
Proof. inversion 1; subst; intros Hh; try done; exfalso; apply Hh; set_solver. Qed.

Lemma wake_loop_acquire i n j l k :
  wake_loop ch i n j = PAcquire l k -> (j + n <= NPROC)%nat ->
  exists n' j', l = LkProc j' /\ k = wake_body ch j' (wake_loop ch i n' (S j')) /\ j' <> i /\ (j' + S n' <= NPROC)%nat.
Proof.
  revert j. induction n as [|n IH]; intros j; cbn [wake_loop]; [done|]. case_decide as Hd; intros H Hn.
  - apply (IH (S j)); [done|lia].
  - injection H as <- <-. exists n, j. repeat split; try done; lia.
Qed.

Lemma wake_loop_shape i n j : wake_loop ch i n j = PRet \/ exists l k, wake_loop ch i n j = PAcquire l k.
Proof.
  revert j. induction n as [|n IH]; intros j; cbn [wake_loop]; [by left|]. case_decide; [apply IH|]. right. eauto.
Qed.

Lemma wake_loop_wakes i n j b : b <> i -> (j <= b < j + n)%nat -> will_wake b (wake_loop ch i n j).
Proof.
  intros Hb. revert j. induction n as [|n IH]; intros j Hj; cbn [wake_loop]; [lia|].
  case_decide as Hd; [apply IH; lia|]. cbn [will_wake wake_body]. destruct (decide (j = b)) as [->|Hne].
  - split; [by left|done].
  - split; [right|intros _]; apply IH; lia.
Qed.
(** *** Positions before and after a statement *)

Context (Hlk : forall i, lk <> LkProc i).

Lemma not_in_lk i : LkProc i ∉ [lk].
Proof. intros H%list_elem_of_singleton. by apply (Hlk i). Qed.

Lemma remove_one l : remove_lock l [l] = [].
Proof. cbn. by rewrite decide_True. Qed.

Lemma remove_two l l' : l <> l' -> remove_lock l' [l; l'] = [l].
Proof. intros. cbn. by rewrite decide_False, decide_True. Qed.

Lemma outside_not_leave i c : ~ outside i Leave c.
Proof. remember Leave as n eqn:E. induction 1; naive_solver. Qed.

(** The positions a thread can be in, given its code. *)
Ltac pinv :=
  inversion 1; subst;
  try match goal with
      | H : wake_loop ch ?i ?n ?j = _ |- _ =>
          destruct (wake_loop_shape i n j) as [E|(? & ? & E)]; rewrite E in H; discriminate H
      | H : outside _ _ _ |- _ => by inversion H
      end.

Lemma pos_acquire i cond A d l k n h st x :
  pos i cond A d (mkThread (PAcquire l k) n On) h st x -> l ∉ h /\ pos i cond A d (mkThread k n On) (l :: h) st x.
Proof.
  inversion 1 as [? ? ? Hout| | | | | | | | | | | | | | | | | | | | | ]; subst.
  - split; [apply not_elem_of_nil|]. inversion Hout as [|? Hn|]; subst; [apply pos_in; naive_solver|by apply pos_y1].
  - split; [apply not_in_lk|by constructor].
  - match goal with E : wake_loop _ _ _ _ = _ |- _ => destruct (wake_loop_acquire _ _ _ _ _ E) as (n' & j' & -> & -> & Hne & Hn'); [done|] end.
    split; [apply not_in_lk|by constructor].
Qed.

Lemma pos_release i cond A d l k n h st x :
  pos i cond A d (mkThread (PRelease l k) n On) h st x ->
  l ∈ h /\ (n = Leave -> lk ∈ remove_lock l h) /\
  exists d', pos i cond A d' (mkThread k n On) (remove_lock l h) st x /\ (cond = true -> d' = d).
Proof.
  pinv; (split; [set_solver|]); rewrite ?remove_one, ?remove_lock_head, ?remove_two by (done || by apply not_eq_sym).
  - split; [intros ->; exfalso; by eapply outside_not_leave|]. eexists. split; [by apply pos_out|done].
  - split; [done|]. eexists. split; [apply pos_out, out_idle|done].
  - split; [done|]. eexists. split; [apply pos_s2|done].
  - split; [set_solver|]. eexists. split; [apply pos_loop; lia|done].
Qed.

(** An assignment changes the process itself, or makes one RUNNABLE whose
    lock is held. *)
Lemma pos_modp i cond A d j f k n h p :
  pos i cond A d (mkThread (PModp j f k) n On) h (p_state p) (p_chan p) ->
  (j = i /\ LkProc i ∈ h /\ n <> Leave /\ forall A', pos i cond A' d (mkThread k n On) h (p_state (f p)) (p_chan (f p))) \/
  (j <> i /\ (j < NPROC)%nat /\ f = set_state RUNNABLE /\ LkProc j ∈ h /\ lk ∈ h /\ n = Leave /\ A j /\ d = false /\
   forall A', pos i cond A' d (mkThread k n On) h (p_state p) (p_chan p)).
Proof.
  destruct p as [st x]. cbn [p_state p_chan].
  pinv.
  - left. split; [done|]. split; [set_solver|]. split; [|by constructor]. intros ->. by eapply outside_not_leave.
  - left. split; [done|]. split; [set_solver|]. split; [done|constructor].
  - left. split; [done|]. split; [set_solver|]. split; [done|constructor].
  - left. split; [done|]. split; [set_solver|]. split; [done|]. intros A'. apply pos_y5, out_start. by left.
  - right. split; [done|]. split; [lia|]. split; [done|]. split; [set_solver|]. split; [set_solver|]. by repeat (split; [done|]); constructor.
Qed.

Lemma pos_if i cond A d j test k1 k2 n h st x :
  pos i cond A d (mkThread (PIf j test k1 k2) n On) h st x ->
  (j < NPROC)%nat /\ test = asleep_on ch /\ LkProc j ∈ h /\ d = false /\
  (A j -> pos i cond A d (mkThread k1 n On) h st x) /\ pos i cond A d (mkThread k2 n On) h st x.
Proof.
  pinv. split; [lia|]. split; [done|]. split; [set_solver|]. split; [done|]. split; by constructor.
Qed.

Lemma pos_sched i cond A d k n h st x :
  pos i cond A d (mkThread (PSched k) n On) h st x ->
  h = [LkProc i] /\ st <> RUNNING /\ pos i cond A d (mkThread k n Switching) h st x.
Proof. pinv; (split; [done|]); split; try done; by constructor. Qed.

Lemma pos_switched i cond A d k n h st x :
  pos i cond A d (mkThread k n Switching) h st x ->
  n <> Leave /\ pos i cond A d (mkThread k n Off) (remove_lock (LkProc i) h) st x.
Proof.
  pinv; rewrite remove_one; (split; [|by constructor]); [|done]. intros ->. by eapply outside_not_leave.
Qed.

Lemma pos_dispatch i cond A d k n h x :
  pos i cond A d (mkThread k n Off) h RUNNABLE x -> 
  d = false /\ n <> Leave /\ forall A', pos i cond A' false (mkThread k n On) (LkProc i :: h) RUNNING x.
Proof.
  pinv; try naive_solver; (split; [done|]); (split; [|by constructor]); [|done].
  intros ->. exfalso; by eapply outside_not_leave.
Qed.

Lemma pos_preempt i cond A d k n st x :
  pos i cond A d (mkThread k n On) [] st x -> n <> Leave /\ pos i cond A d (mkThread (yield_prog i k) n On) [] st x.
Proof. pinv. split; [intros ->; exfalso; by eapply outside_not_leave|]. by apply pos_out, out_yield. Qed.

Lemma pos_ret i cond A d n h st x :
  pos i cond A d (mkThread PRet n On) h st x ->
  d = false /\ st = RUNNING /\ (n = Idle /\ h = [] \/ n <> Idle /\ h = [lk] /\ (n = Use -> cond = true)).
Proof.
  pinv; (split; [done|]); (split; [done|]).
  - left. split; [|done]. by match goal with H : outside _ _ _ |- _ => inversion H end.
  - right. naive_solver.
  - right. done.
Qed.

(** *** Steps *)

(** The step of one thread: [a] goes on as [t] holding [h], the condition
    becomes [b] and the processes change to [ps]. *)
Lemma step_inv s a t h b ps d :
  rinv s -> (a < NPROC)%nat -> length (procs ps) = NPROC ->
  let s' := mkRace ps (<[a := h]> (r_held s)) (<[a := t]> (r_thread s)) b None in
  (forall l, l ∈ h -> l ∈ r_held s a \/ lock_free l s) ->
  b = r_cond s \/ lk ∈ r_held s a ->
  (forall j, nth_proc j ps = r_proc s j \/ LkProc j ∈ r_held s a \/ lock_free (LkProc j) s) ->
  (forall i, (i < NPROC)%nat -> i <> a ->
     let p := nth_proc i ps in
     (p_state p = p_state (r_proc s i) /\ p_chan p = p_chan (r_proc s i) /\
      (at_pos s i true -> b = true -> (r_cond s = true -> has_waker s i) -> has_waker s' i)) \/
     (p_state (r_proc s i) = SLEEPING /\ p_state p = RUNNABLE /\ p_chan p = p_chan (r_proc s i) /\ LkProc i ∉ r_held s i)) ->
  pos a b (asleep ps) d t h (p_state (nth_proc a ps)) (p_chan (nth_proc a ps)) -> (b = true -> d = true -> has_waker s' a) ->
  rinv s'.
Proof.
  intros [Hl Hf Hm Hp] Ha Hl' s' Hh Hb Hps Ho Hpa Hda. split; [done|done|..].
  - assert (Hnew : forall l i, (i < NPROC)%nat -> i <> a -> l ∈ r_held s i -> l ∉ h).
    { intros l i Hi Hne Hin Hin'. destruct (Hh l Hin') as [H|H]; [by apply Hne, (Hm l)|by apply (H i)]. }
    intros l i j Hi Hj. cbn [r_held s'].
    destruct (decide (a = i)) as [<-|Hai], (decide (a = j)) as [<-|Haj]; rewrite ?fn_lookup_insert, ?fn_lookup_insert_ne by done;
      intros H1 H2; [done|by destruct (Hnew l j)|by destruct (Hnew l i)|by apply (Hm l)].
  - intros i Hi. destruct (decide (a = i)) as [<-|Hne].
    { exists d. unfold at_pos. cbn [r_cond r_thread r_held s']. by rewrite !fn_lookup_insert. }
    destruct (Hp i Hi) as (di & Hpi & Hdi). unfold at_pos in *. cbn [r_cond r_thread r_held r_proc r_ps s'].
    rewrite !fn_lookup_insert_ne by done.
    assert (Hpi' : pos i b (asleep ps) di (r_thread s i) (r_held s i) (p_state (r_proc s i)) (p_chan (r_proc s i))).
    { eapply pos_same; [done| |].
      - destruct Hb as [->|Hlka]; [by left|right]. intros Hlki. by apply Hne, (Hm lk).
      - intros j Hji. unfold asleep. destruct (Hps j) as [->|[Hja|Hjf]]; [done|by destruct Hne; apply (Hm (LkProc j))|by destruct (Hjf i)]. }
    destruct (Ho i Hi (not_eq_sym Hne)) as [(E1 & E2 & Hw)|(E1 & E2 & E3 & E4)]; fold (r_proc s' i); unfold r_proc at 1 2; cbn [r_ps s'].
    + exists di. rewrite E1, E2. split; [done|]. intros -> ->. apply Hw; [done|done|]. intros Hc. by apply Hdi.
    + exists false. rewrite E2, E3. split; [|done]. rewrite E1 in Hpi'. by eapply pos_woken.
Qed.

(** A waker stays one if the thread that moves goes on as one. *)
Lemma has_waker_kept s ps a t h b f i :
  has_waker s i ->
  (lk ∈ r_held s a -> t_next (r_thread s a) = Leave -> will_wake i (t_code (r_thread s a)) ->
   lk ∈ h /\ t_next t = Leave /\ will_wake i (t_code t)) ->
  has_waker (mkRace ps (<[a := h]> (r_held s)) (<[a := t]> (r_thread s)) b f) i.
Proof.
  intros (k & Hk & H1 & H2 & H3) Ha. exists k. cbn [r_held r_thread]. destruct (decide (a = k)) as [<-|Hne].
  - rewrite !fn_lookup_insert. destruct (Ha H1 H2 H3) as (A1 & A2 & A3). done.
  - by rewrite !fn_lookup_insert_ne.
Qed.

(** A step that touches no process but [a] and not the condition. *)
Lemma step_own s a t h ps d :
  rinv s -> (a < NPROC)%nat -> length (procs ps) = NPROC -> (forall i, i <> a -> nth_proc i ps = r_proc s i) ->
  (nth_proc a ps = r_proc s a \/ LkProc a ∈ r_held s a \/ lock_free (LkProc a) s) ->
  (forall l, l ∈ h -> l ∈ r_held s a \/ lock_free l s) ->
  (forall i, lk ∈ r_held s a -> t_next (r_thread s a) = Leave -> will_wake i (t_code (r_thread s a)) ->
     lk ∈ h /\ t_next t = Leave /\ will_wake i (t_code t)) ->
  pos a (r_cond s) (asleep ps) d t h (p_state (nth_proc a ps)) (p_chan (nth_proc a ps)) ->
  (r_cond s = true -> d = true -> has_waker s a) ->
  rinv (mkRace ps (<[a := h]> (r_held s)) (<[a := t]> (r_thread s)) (r_cond s) (r_fault s)).
Proof.
  intros Hs Ha Hl Ho Hoa Hh Hw Hp Hd. rewrite (ri_fault _ Hs). eapply step_inv; try done.
  - by left.
  - intros j. destruct (decide (j = a)) as [->|]; [done|left; by apply Ho].
  - intros i Hi Hne. left. cbv zeta. rewrite Ho by done. split; [done|]. split; [done|].
    intros _ Hc H. apply has_waker_kept; [by apply H|apply Hw].
  - intros Hc Hdt. apply has_waker_kept; [by apply Hd|apply Hw].
Qed.

Lemma goes_inv s a t h d :
  rinv s -> (a < NPROC)%nat -> (forall l, l ∈ h -> l ∈ r_held s a \/ lock_free l s) ->
  (forall i, lk ∈ r_held s a -> t_next (r_thread s a) = Leave -> will_wake i (t_code (r_thread s a)) ->
     lk ∈ h /\ t_next t = Leave /\ will_wake i (t_code t)) ->
  pos a (r_cond s) (asleep (r_ps s)) d t h (p_state (r_proc s a)) (p_chan (r_proc s a)) ->
  (r_cond s = true -> d = true -> has_waker s a) -> rinv (goes a t h s).
Proof. intros Hs Ha. apply step_own; [done|done|apply Hs|done|by left]. Qed.

Lemma elem_of_remove_lock l l' h : l ∈ remove_lock l' h -> l ∈ h.
Proof.
  induction h as [|x h IH]; cbn [remove_lock]; [done|]. rewrite !elem_of_cons. case_decide; [by right|].
  rewrite elem_of_cons. intros [->|Hl]; [by left|right; by apply IH].
Qed.

(** kill(), under p->lock, of a process that may be asleep. *)
Lemma slain_proc p :
  (p_state (slain p) = p_state p \/ p_state p = SLEEPING /\ p_state (slain p) = RUNNABLE) /\ p_chan (slain p) = p_chan p.
Proof. unfold slain. cbn [p_state set_killed]. case_bool_decide; cbn; auto. Qed.

Lemma wake_inv s i j k :
  rinv s -> (i < NPROC)%nat -> r_thread s i = mkThread (PModp j (set_state RUNNABLE) k) Leave On ->
  j <> i -> (j < NPROC)%nat -> LkProc j ∈ r_held s i -> lk ∈ r_held s i -> p_state (r_proc s j) = SLEEPING ->
  (forall A, pos i (r_cond s) A false (mkThread k Leave On) (r_held s i) (p_state (r_proc s i)) (p_chan (r_proc s i))) ->
  rinv (with_ps (upd_proc j (set_state RUNNABLE) (r_ps s)) (goes i (mkThread k Leave On) (r_held s i) s)).
Proof.
  intros Hs Hi Ht Hne Hj Hlj Hlki Hsl Hp. unfold with_ps, goes. cbn [r_held r_thread r_cond r_fault]. rewrite (ri_fault _ Hs).
  assert (Hn : forall x, nth_proc x (upd_proc j (set_state RUNNABLE) (r_ps s)) =
    if decide (x = j) then set_state RUNNABLE (r_proc s j) else r_proc s x).
  { intros x. apply nth_upd_proc. rewrite (ri_len _ Hs). done. }
  apply (step_inv s i _ _ _ _ false); try done.
  - rewrite length_upd_proc. apply Hs.
  - by left.
  - by left.
  - intros x. rewrite Hn. case_decide as Hx; [subst; right; by left|by left].
  - intros x Hx Hxi. cbv zeta. rewrite Hn. case_decide as Hxj.
    + subst x. right. split; [done|]. split; [done|]. split; [done|]. intros H. by apply Hxi, (ri_mutex _ Hs (LkProc j)).
    + left. split; [done|]. split; [done|]. intros _ Hc H. apply has_waker_kept; [by apply H|]. rewrite Ht. cbn. naive_solver.
  - rewrite Hn, decide_False by done. apply Hp.
Qed.

(** The test of wakeup(): a process it has to wake has given its lock up,
    and so is asleep by now. *)
Lemma if_inv s i j k1 k2 n :
  rinv s -> (i < NPROC)%nat -> r_thread s i = mkThread (PIf j (asleep_on ch) k1 k2) n On -> LkProc j ∈ r_held s i ->
  (asleep (r_ps s) j -> at_pos (goes i (mkThread k1 n On) (r_held s i) s) i false) ->
  at_pos (goes i (mkThread k2 n On) (r_held s i) s) i false ->
  rinv (goes i (mkThread (if asleep_on ch (r_proc s j) then k1 else k2) n On) (r_held s i) s).
Proof.
  intros Hs Hi Ht Hlj Hp1 Hp2. unfold at_pos in Hp1, Hp2. cbn [goes r_thread r_held r_cond r_ps] in Hp1, Hp2.
  rewrite !fn_lookup_insert in Hp1, Hp2. unfold goes. rewrite (ri_fault _ Hs).
  apply (step_inv s i _ _ _ _ false); try done; [apply Hs|by left|by left|by left|..].
  - intros b Hb Hbi. left. split; [done|]. split; [done|]. intros Hpb Hc H. apply has_waker_kept; [by apply H|].
    rewrite Ht. cbn [t_next t_code will_wake]. intros H1 H2 [H3 H4]. split; [done|]. split; [done|].
    unfold asleep_on. case_bool_decide as Hsl; [done|]. apply H4. intros ->. apply Hsl.
    eapply (pos_danger b); [exact Hpb|]. intros H5. by apply Hbi, (ri_mutex _ Hs (LkProc b)).
  - unfold asleep_on. case_bool_decide as Hsl; [exact (Hp1 (proj1 Hsl))|done].
Qed.

(** A statement keeps the invariant, and does not panic. *)
Lemma exec_inv s i s' : rinv s -> (i < NPROC)%nat -> exec_stmt i s s' -> rinv s'.
Proof.
  intros Hs Hi He. destruct (ri_pos _ Hs i Hi) as (d & Hp & Hd). unfold at_pos in Hp.
  destruct He as [l k n Ht Hl|l k n Ht Hl|l k n Ht Hl|l k n Ht Hl|j f k n Ht|j test k1 k2 n Ht|k n Ht Hh Hst|k n Ht Hh]; rewrite Ht in Hp.
  - apply pos_acquire in Hp as [_ Hp]. apply (goes_inv s i _ _ d); try done.
    + intros x [->|Hx]%elem_of_cons; [by right|by left].
    + intros b. rewrite Ht. cbn. intros H1 H2 H3. split; [by apply elem_of_cons; right|done].
  - by apply pos_acquire in Hp as [Hno _].
  - apply pos_release in Hp as (_ & Hlv & d' & Hp & Hdd). apply (goes_inv s i _ _ d'); try done.
    + intros x Hx. left. by eapply elem_of_remove_lock.
    + intros b. rewrite Ht. cbn. naive_solver.
    + intros Hc. rewrite (Hdd Hc). by apply Hd.
  - by apply pos_release in Hp as [Hin _].
  - apply pos_modp in Hp as [(-> & Hli & Hn & Hp)|(Hne & Hj & -> & Hlj & Hlki & -> & HA & -> & Hp)].
    + apply (step_own s i _ _ _ d); try done.
      * rewrite length_upd_proc. apply Hs.
      * intros x Hx. apply nth_upd_other; [by rewrite (ri_len _ Hs)|done].
      * right. by left.
      * by left.
      * intros b. by rewrite Ht.
      * rewrite nth_upd_same by (by rewrite (ri_len _ Hs)). apply Hp.
    + by apply wake_inv.
  - apply pos_if in Hp as (Hj & -> & Hlj & -> & Hp1 & Hp2).
    apply if_inv; try done; unfold at_pos; cbn [goes r_thread r_held r_cond r_ps]; by rewrite !fn_lookup_insert.
  - apply pos_sched in Hp as (_ & _ & Hp). apply (goes_inv s i _ _ d); try done; [by left|]. intros b. by rewrite Ht.
  - apply pos_sched in Hp as (E1 & E2 & _). naive_solver.
Qed.
Lemma dispatch_inv s i k n :
  rinv s -> (i < NPROC)%nat -> r_thread s i = mkThread k n Off -> p_state (r_proc s i) = RUNNABLE -> lock_free (LkProc i) s ->
  rinv (with_ps (upd_proc i (set_state RUNNING) (r_ps s)) (goes i (mkThread k n On) (LkProc i :: r_held s i) s)).
Proof.
  intros Hs Hi Ht Hst Hfree. destruct (ri_pos _ Hs i Hi) as (d & Hp & Hd). unfold at_pos in Hp. rewrite Ht, Hst in Hp.
  apply pos_dispatch in Hp as (-> & Hn & Hp). apply (step_own s i _ _ _ false); try done.
  - rewrite length_upd_proc. apply Hs.
  - intros x Hx. apply nth_upd_other; [by rewrite (ri_len _ Hs)|done].
  - right. by right.
  - intros l [->|Hl]%elem_of_cons; [by right|by left].
  - intros b. by rewrite Ht.
  - rewrite nth_upd_same by (by rewrite (ri_len _ Hs)). apply Hp.
Qed.

Lemma kill_inv s j :
  rinv s -> (j < NPROC)%nat -> lock_free (LkProc j) s -> rinv (with_ps (upd_proc j slain (r_ps s)) s).
Proof.
  intros Hs Hj Hfree. pose proof Hs as [Hl Hf Hm Hp].
  assert (Hn : forall x, nth_proc x (upd_proc j slain (r_ps s)) = if decide (x = j) then slain (r_proc s j) else r_proc s x)
    by (intros x; apply nth_upd_proc; by rewrite Hl).
  split; [by rewrite <- Hl; apply length_upd_proc|done|done|]. intros i Hi. destruct (Hp i Hi) as (d & Hpi & Hd).
  assert (Hp' : pos i (r_cond s) (asleep (upd_proc j slain (r_ps s))) d (r_thread s i) (r_held s i) (p_state (r_proc s i)) (p_chan (r_proc s i))).
  { eapply pos_same; [exact Hpi|by left|]. intros x Hx. unfold asleep. rewrite Hn. case_decide as Hd'; [|done].
    subst x. by destruct (Hfree i). }
  unfold at_pos. cbn [with_ps r_thread r_held r_cond r_ps]. unfold r_proc at 1 2. cbn [with_ps r_ps]. rewrite Hn.
  case_decide as Hij; [subst i|by exists d]. destruct (slain_proc (r_proc s j)) as [[E|[E1 E2]] ->].
  - rewrite E. by exists d.
  - exists false. rewrite E2. split; [|done]. rewrite E1 in Hp'. eapply pos_woken; [exact Hp'|]. by apply Hfree.
Qed.

(** The users of sleep() and wakeup(), between their calls. *)
Lemma client_at s i n :
  rinv s -> (i < NPROC)%nat -> r_thread s i = mkThread PRet n On ->
  p_state (r_proc s i) = RUNNING /\ r_held s i = (if decide (n = Idle) then [] else [lk]) /\ (n = Use -> r_cond s = true).
Proof.
  intros Hs Hi Ht. destruct (ri_pos _ Hs i Hi) as (d & Hp & _). unfold at_pos in Hp. rewrite Ht in Hp.
  apply pos_ret in Hp as (_ & Hst & H). split; [done|]. case_decide; naive_solver.
Qed.

Lemma client_inv s i n t b :
  rinv s -> (i < NPROC)%nat -> r_thread s i = mkThread PRet n On -> (b = r_cond s \/ n = Use \/ n = Raise) ->
  pos i b (asleep (r_ps s)) false t (if decide (n = Idle) then [] else [lk]) RUNNING (p_chan (r_proc s i)) ->
  (n = Raise -> t_next t = Leave /\ forall x, (x < NPROC)%nat -> x <> i -> will_wake x (t_code t)) ->
  rinv (with_cond b (goes i t (r_held s i) s)).
Proof.
  intros Hs Hi Ht Hb Hp Hr. destruct (client_at s i n Hs Hi Ht) as (Hst & Hh & Huse). unfold with_cond, goes.
  cbn [r_ps r_held r_thread r_fault]. rewrite (ri_fault _ Hs).
  assert (Hin : n = Use \/ n = Raise -> lk ∈ r_held s i) by (rewrite Hh; intros [-> | ->]; set_solver).
  apply (step_inv s i _ _ _ _ false); try done; [apply Hs|by left|destruct Hb as [->|Hb]; [by left|right; by apply Hin]|by left| |].
  - intros x Hx Hxi. left. split; [done|]. split; [done|]. intros _ Hc Hw. destruct (decide (n = Raise)) as [Hn|Hn].
    + destruct (Hr Hn) as [R1 R2]. exists i. cbn [r_held r_thread]. rewrite !fn_lookup_insert.
      split; [done|]. split; [by apply Hin; right|]. split; [done|by apply R2].
    + apply has_waker_kept; [|by rewrite Ht]. apply Hw. destruct Hb as [<-|[Hu|Hr']]; [done|by apply Huse|done].
  - fold (r_proc s i). by rewrite Hst, Hh.
Qed.

Lemma rstep_inv s s' : rinv s -> rstep s s' -> rinv s'.
Proof.
  intros Hs Hr.
  assert (Hcond : forall i t, with_cond (r_cond s) (goes i t (r_held s i) s) = goes i t (r_held s i) s) by done.
  destruct Hr as [i s' Hi He|i k n Hi Ht|i k n Hi Ht Hst Hf|i k n Hi Ht Hh|j Hj Hf|i n Hi Ht Hn|i Hi Ht|i Hi Ht|i b Hi Ht|i Hi Ht|i Hi Ht].
  - by apply (exec_inv s i).
  - destruct (ri_pos _ Hs i Hi) as (d & Hp & Hd). unfold at_pos in Hp. rewrite Ht in Hp. apply pos_switched in Hp as [Hn Hp].
    apply (goes_inv s i _ _ d); try done; [|by intros b; rewrite Ht]. intros l Hl. left. by eapply elem_of_remove_lock.
  - by apply dispatch_inv.
  - destruct (ri_pos _ Hs i Hi) as (d & Hp & Hd). unfold at_pos in Hp. rewrite Ht, Hh in Hp. apply pos_preempt in Hp as [Hn Hp].
    apply (goes_inv s i _ _ d); try done; [|by intros b; rewrite Ht]. intros l Hl. by apply not_elem_of_nil in Hl.
  - by apply kill_inv.
  - rewrite <- Hcond. apply (client_inv s i Idle); try done; [by left|]. by apply pos_out, out_start.
  - rewrite <- Hcond. apply (client_inv s i Test); try done; [by left|]. cbn.
    destruct (r_cond s) eqn:E; [apply pos_in; naive_solver|by apply pos_s0].
  - rewrite <- Hcond. apply (client_inv s i Test); try done; [by left|]. apply pos_leave.
  - apply (client_inv s i Use); try done; [right; by left|]. apply pos_leave.
  - apply (client_inv s i Raise); try done; [right; by right|by apply pos_loop|]. intros _. split; [done|].
    intros x Hx Hxi. apply wake_loop_wakes; [done|lia].
  - rewrite <- Hcond. apply (client_inv s i Leave); try done; [by left|]. apply pos_leave.
Qed.

Lemma reachable_inv s0 s : race_start s0 -> rtc rstep s0 s -> rinv s.
Proof.
  intros H0 Hr. apply start_inv in H0. induction Hr as [s|s s1 s2 H12 _ IH]; [done|]. by apply IH, (rstep_inv s).
Qed.

End race.

(** ** The statements are those of proc.c *)

Lemma run_sleep ch lk e s : run (sleep_prog (e_me e) ch lk) e s = sleep (Some ch) lk e s.
Proof. done. Qed.

Lemma run_yield e s : run (yield_prog (e_me e) PRet) e s = yield e s.
Proof. done. Qed.

Lemma then_run_eq m k e s e' s' : m e s = Ok tt e' s' -> then_run m k (run k) e s = run k e' s'.
Proof. intros H. by destruct k; cbn [then_run]; rewrite ?bind_eq, H. Qed.

Lemma run_wake_loop ch n j e s :
  no_plock e -> (j + n <= length (procs s))%nat ->
  run (wake_loop ch (e_me e) n j) e s = wakeup_loop n j (Some ch) e s.
Proof.
  intros He. revert j s. induction n as [|n IH]; intros j s Hn; [done|]. cbn [wake_loop wakeup_loop].
  rewrite bind_eq. kred. case_decide as Hd; [rewrite bind_eq; kred; apply IH; lia|].
  cbn [run]. erewrite then_run_eq by (by apply acquire_eq). krun.
  cbn [run wake_body]. unfold getp. krun. unfold asleep_on. case_bool_decide; cbn [run].
  - erewrite then_run_eq by done. cbn [run]. erewrite then_run_eq by apply release_eq. unfold modp. krun.
    apply IH. rewrite length_upd_proc. lia.
  - erewrite then_run_eq by apply release_eq. krun. apply IH. lia.
Qed.

(** C19: no wakeup is lost.  Any number of processes wait for a condition with
    while(!cond) sleep(chan, lk), and any number make it true and call
    wakeup(chan), all under lk; the statements of sleep() and wakeup(), which
    run in sequence are [Proc.sleep] and [Proc.wakeup], interleave in any way
    on any number of CPUs, with preemption and kills.  In every state that can
    be reached nothing has panicked, no lock has two holders, a process that
    has left the loop holds lk and the condition holds; and if the condition
    is true while a process is asleep on chan, whoever holds lk is inside
    wakeup() and has yet to reach that process.  So once lk is free no process
    sleeps on although the condition holds. *)
Theorem no_lost_wakeup ch lk s0 s :
  (forall i, lk <> LkProc i) -> race_start s0 -> rtc (rstep ch lk) s0 s ->
  (forall e ps, run (sleep_prog (e_me e) ch lk) e ps = sleep (Some ch) lk e ps) /\
  (forall e ps, no_plock e -> length (procs ps) = NPROC -> run (wakeup_prog (e_me e) ch) e ps = wakeup (Some ch) e ps) /\
  r_fault s = None /\
  (forall l i j, (i < NPROC)%nat -> (j < NPROC)%nat -> l ∈ r_held s i -> l ∈ r_held s j -> i = j) /\
  (forall i, (i < NPROC)%nat -> r_thread s i = mkThread PRet Use On -> r_held s i = [lk] /\ r_cond s = true) /\
  (forall i, (i < NPROC)%nat -> p_state (r_proc s i) = SLEEPING -> p_chan (r_proc s i) = Some ch -> r_cond s = true ->
     has_waker lk s i /\ ~ lock_free lk s).
Proof.
  intros Hlk H0 Hr. pose proof (reachable_inv ch lk Hlk s0 s H0 Hr) as Hs.
  split; [by intros; apply run_sleep|]. split; [intros e ps He Hl; apply run_wake_loop; [done|lia]|].
  split; [apply Hs|]. split; [apply Hs|]. split.
  - intros i Hi Ht. destruct (client_at ch lk s i Use Hs Hi Ht) as (_ & Hh & Hc). split; [exact Hh|by apply Hc].
  - intros i Hi Hst Hch Hc. destruct (ri_pos _ _ _ Hs i Hi) as (d & Hp & Hd). unfold at_pos in Hp. rewrite Hst, Hch in Hp.
    apply pos_sleeping in Hp as ->. specialize (Hd Hc eq_refl). split; [done|].
    destruct Hd as (k & Hk & Hlkk & _). intros Hf. by apply (Hf k).
Qed.

(** ** Witness: the condition becomes true between the test and the switch *)

Definition demo_procs : pstate :=
  mkPstate (replicate 2 (set_state RUNNING proc0) ++ replicate 62 proc0) 3 None (replicate 8 None) 0 SCHED_FCFS [] (mkKmem 0 ∅).
Definition demo_race : race :=
  mkRace demo_procs (fun _ => []) (fun i => mkThread PRet Idle (if (i <? 2)%nat then On else Off)) false None.

Lemma demo_race_start : race_start demo_race.
Proof.
  split; [done|]. split; [done|]. intros i Hi. split; [done|]. destruct (Nat.ltb_spec i 2) as [Hlt|Hge].
  - left. unfold r_thread, demo_race. rewrite (proj2 (Nat.ltb_lt i 2)) by done. split; [done|]. by destruct i as [|[|]]; [..|lia].
  - right. right. unfold r_thread, demo_race. rewrite (proj2 (Nat.ltb_ge i 2)) by done. split; [done|]. left.
    unfold r_proc, nth_proc. change (procs _) with (replicate 2 (set_state RUNNING proc0) ++ replicate 62 proc0).
    rewrite list_lookup_total_alt, lookup_app_r by (rewrite length_replicate; lia).
    by rewrite lookup_replicate_2 by (rewrite length_replicate; unfold NPROC in Hi; lia).
Qed.

Ltac free := intros j Hj; cbn -[NPROC]; unfold insert, fn_insert; repeat case_decide; set_solver.

(** Process 0 finds the condition false and gives lk up; process 1 takes lk,
    makes the condition true and calls wakeup(); only then does process 0
    record that it sleeps, and switch. *)
Lemma demo_run :
  exists s, rtc (rstep ChLog LkLog) demo_race s /\ r_cond s = true /\
    p_state (r_proc s 0) = SLEEPING /\ p_chan (r_proc s 0) = Some ChLog.
Proof.
  assert (H0 : (0 < NPROC)%nat) by (unfold NPROC; lia). assert (H1 : (1 < NPROC)%nat) by (unfold NPROC; lia).
  eexists. split.
  - eapply rtc_l; [eapply (rs_start _ _ _ 0 Test); [done|done|by left]|].
    eapply rtc_l; [eapply (rs_exec _ _ _ 0); [done|eapply ex_acquire; [done|free]]|].
    eapply rtc_l; [eapply (rs_test _ _ _ 0); done|].
    eapply rtc_l; [eapply (rs_exec _ _ _ 0); [done|eapply ex_acquire; [done|free]]|].
    eapply rtc_l; [eapply (rs_exec _ _ _ 0); [done|eapply ex_release; [done|cbn; set_solver]]|].
    eapply rtc_l; [eapply (rs_start _ _ _ 1 Raise); [done|done|by right]|].
    eapply rtc_l; [eapply (rs_exec _ _ _ 1); [done|eapply ex_acquire; [done|free]]|].
    eapply rtc_l; [eapply (rs_raise _ _ _ 1); done|].
    eapply rtc_l; [eapply (rs_exec _ _ _ 0); [done|eapply ex_modp; done]|].
    eapply rtc_l; [eapply (rs_exec _ _ _ 0); [done|eapply ex_modp; done]|].
    eapply rtc_l; [eapply (rs_exec _ _ _ 0); [done|eapply ex_sched; done]|].
    eapply rtc_l; [eapply (rs_switched _ _ _ 0); done|]. apply rtc_refl.
  - done.
Qed.

Lemma no_lost_wakeup_witness :
  exists s, p_state (r_proc s 0) = SLEEPING /\ r_cond s = true /\ r_fault s = None /\ has_waker LkLog s 0.
Proof.
  destruct demo_run as (s & Hr & Hc & Hst & Hch). exists s. split; [exact Hst|]. split; [exact Hc|].
  destruct (no_lost_wakeup ChLog LkLog demo_race s) as (_ & _ & Hf & _ & _ & Hw).
  - discriminate.
  - exact demo_race_start.
  - exact Hr.
  - split; [exact Hf|]. apply (Hw 0%nat); [unfold NPROC; lia|exact Hst|exact Hch|exact Hc].
Defined.
