(* ===== verification/Reap.v ===== *)
(** * Collecting an exited child: freeproc() and wait()

    freeproc() gives back everything a process owns and clears its slot.
    wait() finds the first exited child, stores its exit status in the
    parent's memory and frees it. *)

From S2P Require Import Prelude KMonad CString Riscv Kalloc Vm PageTable VmSpec FreeWalk Reclaim UCopy VmThms Proc ProcSpec ProcInv.

Open Scope kmonad_scope.

(** ** Reference *)

(** The slot of a process that has been freed. *)
Definition cleared (p : proc) : proc :=
  mkProc UNUSED None 0 0 0 None (p_kstack p) 0 0 0 (p_context p) (p_ofile p) (p_cwd p) (<[0%nat := 0]> (p_name p)) 0 0 0 0 0.

(** The pages that process [p] owns besides its page table. *)
Definition owned_pages (m : mem) (p : proc) : list Z := p_trapframe p :: user_pages m (p_pagetable p) (p_sz p).

(** The memory of a parent with root [root] takes [n] bytes at [addr]: they
    are writable, and neither they nor the parent's tables [Tp] lie in free
    pages, in the child's tables [T] or in the pages [own] of the child. *)
Record receives (m : mem) (l : list Z) (T Tp : gmap Z (nat * Z)) (own : list Z) (root addr : Z) (n : nat) : Prop := {
  rc_wf : pt_wf m Tp;
  rc_root : Tp !! root = Some (2%nat, 0);
  rc_safe : user_safe m root Tp;
  rc_addr : 0 <= addr;
  rc_writable : uwritable m root addr n;
  rc_nonzero : forall x, addr <= x < addr + Z.of_nat n -> PTE2PA (pte_of m root x) <> 0;
  rc_apart : forall q, is_Some (Tp !! q) -> T !! q = None /\ q ∉ own;
  rc_pages : forall i pa, 0 <= i < Z.of_nat n -> uwaddr m root (addr + i) = Some pa ->
    PGROUNDDOWN pa ∉ l /\ T !! PGROUNDDOWN pa = None /\ PGROUNDDOWN pa ∉ own
}.

Lemma kmm_ok {A} (m : K kmem A) a e e' k s : m e (ps_kmem s) = Ok a e' k -> kmm m e s = Ok a e' (set_kmem k s).
Proof. intros H. unfold kmm, zoom. by rewrite H. Qed.

Lemma nth_set_kmem i k s : nth_proc i (set_kmem k s) = nth_proc i s.
Proof. done. Qed.

Section reap.
Context (kend : Z) (Hkend : 0 < kend).
Local Abbreviation vmi := (vmi kend).
Local Abbreviation freeable := (freeable kend).

(** The steps of freeproc() on a process that has a trapframe and a page
    table. *)
Lemma freeproc_run i e s k1 k :
  let p := nth_proc i s in
  (i < length (procs s))%nat -> p_trapframe p <> 0 -> p_pagetable p <> 0 ->
  kfree kend (p_trapframe p) e (ps_kmem s) = Ok tt e k1 ->
  (forall s', ps_kmem s' = k1 -> proc_freepagetable kend (p_pagetable p) (p_sz p) e s' = Ok tt e (set_kmem k s')) ->
  freeproc kend i e s = Ok tt e (upd_proc i cleared (set_kmem k s)).
Proof using.
  intros p Hi Htf Hpt E1 E2. unfold freeproc, getp, modp. rewrite bind_eq. kred. fold p.
  rewrite (proj2 (Z.eqb_neq _ _) Htf). cbn [negb]. rewrite bind_eq, (kmm_ok _ _ _ _ k1) by done. kred.
  do 3 (rewrite bind_eq; kred). rewrite !nth_upd_same by done.
  change (nth_proc i (set_kmem k1 s)) with p. cbn [set_trapframe p_pagetable p_sz].
  rewrite (proj2 (Z.eqb_neq _ _) Hpt). cbn [negb]. rewrite bind_eq, E2 by done. krun.
  change (set_kmem k (upd_proc i (set_trapframe 0) (set_kmem k1 s))) with (upd_proc i (set_trapframe 0) (set_kmem k s)).
  unfold modify. rewrite !upd_proc_twice. reflexivity.
Qed.

Lemma freeproc_spec i s l T e :
  let p := nth_proc i s in
  let m := kmem_mem (ps_kmem s) in
  (i < length (procs s))%nat -> LkKmem ∉ e_held e -> vmi (ps_kmem s) l T -> aspace m T (p_pagetable p) (p_sz p) ->
  (forall q, is_Some (T !! q) -> page_ok kend q) -> freeable l T (owned_pages m p) ->
  exists k, freeproc kend i e s = Ok tt e (upd_proc i cleared (set_kmem k s)) /\
    kmem_inv kend k (rev (tables m 2 (p_pagetable p)) ++ rev (owned_pages m p) ++ l) /\
    same_off (fun q => is_Some (T !! q) \/ q ∈ owned_pages m p) m (kmem_mem k).
Proof using Hkend.
  intros p m Hi Hl Hv Has Hok (Hnd & Hpo & Hfr). unfold owned_pages in *. set (tf := p_trapframe p) in *.
  apply NoDup_cons in Hnd as [Htf Hnd]. apply Forall_cons in Hpo as [Htfo Hpo]. apply Forall_cons in Hfr as [[Htl HtT] Hfr].
  destruct (free_page_vmi kend Hkend (ps_kmem s) l T tf Hv Htfo Htl HtT) as [Hv1 Hp1].
  set (k1 := mkKmem tf (freed_mem (kmem_mem (ps_kmem s)) tf (freelist (ps_kmem s)))) in *.
  assert (Ho1 : same_off (fun q => q = tf) m (kmem_mem k1)) by (apply same_outside_off, freed_same_outside).
  assert (E1 : kfree kend tf e (ps_kmem s) = Ok tt e k1) by (by apply kfree_eq).
  assert (HP : forall q, q = tf -> pg_aligned q /\ T !! q = None) by (intros ? ->; split; [apply Htfo|done]).
  destruct (aspace_frame _ m (kmem_mem k1) T _ _ (vmi_wf _ _ _ _ Hv) Ho1 HP Has) as (Has1 & Hu1 & Ht1). clearbody k1.
  destruct (freepagetable_spec kend Hkend (p_pagetable p) (p_sz p) k1 (tf :: l) T e Hl Hv1 Has1 Hok) as (k2 & k3 & k & E2 & E3 & E4 & Hk & Ho).
  { rewrite Hu1. split; [done|]. split; [done|]. rewrite Forall_forall in Hfr |- *. intros q Hq.
    destruct (Hfr q Hq) as [H1 H2]. split; [|done]. intros [->|?]%elem_of_cons; done. }
  rewrite Hu1, Ht1 in *. exists k. split; [|split].
  - apply (freeproc_run i e s k1 k); [done| | |done|].
    + destruct Htfo as [_ ?]. fold p tf. lia.
    + destruct (vmi_table _ _ _ _ _ _ Hv (as_root _ _ _ _ Has)) as [_ ?]. fold p. lia.
    + intros s' Hs. fold p. unfold proc_freepagetable. rewrite bind_eq, (kmm_ok _ tt e e k2) by (by rewrite Hs). kred.
      rewrite bind_eq, (kmm_ok _ tt e e k3) by done. kred. by rewrite (kmm_ok _ tt e e k).
  - cbn [rev]. by rewrite <- !app_assoc.
  - eapply same_off_mono; [|eapply same_off_trans; [exact Ho1|exact Ho]]. cbn beta. intros q.
    rewrite elem_of_cons. tauto.
Qed.

(** ** wait *)

(** The slot of an exited child of [p]. *)
Definition exited_child (p j : nat) (s : pstate) : Prop :=
  p_parent (nth_proc j s) = Some p /\ p_state (nth_proc j s) = ZOMBIE.

(** The slots before the first exited child only tell whether there are
    children. *)
Lemma reap_scan_skip info k n i p addr hk e s :
  no_plock e -> (forall j, (i <= j < i + k)%nat -> ~ exited_child p j s) ->
  exists hk', reap_scan kend info (k + n) i p addr hk e s = reap_scan kend info n (i + k) p addr hk' e s.
Proof using.
  intros He. revert i hk. induction k as [|k IH]; intros i hk Hno.
  { exists hk. by rewrite Nat.add_0_r. }
  assert (Hno' : forall j, (S i <= j < S i + k)%nat -> ~ exited_child p j s) by (intros j Hj; apply Hno; lia).
  replace (i + S k)%nat with (S i + k)%nat by lia. cbn [Nat.add reap_scan]. unfold getp. krun.
  destruct (decide _) as [Hp|]; [|by apply IH]. rewrite bind_eq, acquire_eq by apply He. krun.
  destruct (decide _) as [Hz|]; [|krun; by apply IH]. destruct (Hno i); [lia|done].
Qed.

(** The exited child is found: [k] is the memory after the status has been
    stored. *)
Lemma reap_scan_found info n pp p addr hk e s k k' :
  let e1 := set_held (LkWait :: e_held e) e in
  let e2 := set_held (LkProc pp :: e_held e1) e1 in
  let c := nth_proc pp s in
  no_plock e -> exited_child p pp s ->
  (if addr =? 0 then ret 0 else copyout (p_pagetable (nth_proc p s)) addr (info (ticks s) c)) e2 (ps_kmem s) = Ok 0 e2 k ->
  freeproc kend pp e2 (set_kmem k s) = Ok tt e2 (upd_proc pp cleared (set_kmem k' (set_kmem k s))) ->
  reap_scan kend info (S n) pp p addr hk e1 s = Ok (Returned (p_pid c)) e (upd_proc pp cleared (set_kmem k' s)).
Proof using.
  intros e1 e2 c He [Hp Hz] Hc Hf. cbn [reap_scan]. unfold getp. krun. rewrite decide_True by done.
  rewrite bind_eq, acquire_eq by (apply not_elem_of_cons; split; [done|apply He]). fold e2. krun. rewrite decide_True by done.
  fold c. assert (Hr : (if addr =? 0 then ret 0 else kmm (copyout (p_pagetable (nth_proc p s)) addr (info (ticks s) c))) e2 s
                  = Ok 0 e2 (set_kmem k s)).
  { destruct (addr =? 0); [|by apply kmm_ok]. cbn in Hc. injection Hc as <-. by destruct s. }
  do 2 (rewrite bind_eq; kred). rewrite bind_eq, Hr. kred. change (0 <? 0) with false. cbv iota. rewrite bind_eq, Hf. kred.
  rewrite bind_eq. unfold e2. rewrite release_eq. kred. rewrite bind_eq. unfold e1. by rewrite release_eq.
Qed.

(** ** The status *)

Section status.
Context (m : mem) (l : list Z) (T Tp : gmap Z (nat * Z)) (own : list Z) (root addr : Z) (src : list Z).
Hypothesis Hrc : receives m l T Tp own root addr (length src).

(** The pages that the status is written to. *)
Definition status_page (q : Z) : Prop :=
  exists i pa, 0 <= i < Z.of_nat (length src) /\ uwaddr m root (addr + i) = Some pa /\ q = PGROUNDDOWN pa.

Lemma status_apart q : status_page q -> pg_aligned q /\ q ∉ l /\ T !! q = None /\ q ∉ own.
Proof using Hrc.
  intros (i & pa & Hi & Hpa & ->). split; [apply PGROUNDDOWN_aligned|]. by eapply rc_pages.
Qed.

Lemma status_stored e fl :
  exists m', copyout root addr src e (mkKmem fl m) = Ok 0 e (mkKmem fl m') /\ same_off status_page m m' /\
    pt_wf m' Tp /\ (forall x, pte_of m' root x = pte_of m root x) /\
    (forall i b, src !! i = Some b -> exists pa, uwaddr m root (addr + Z.of_nat i) = Some pa /\ mget m' pa = b).
Proof using Hrc.
  destruct Hrc as [Hwf Hr Hs Ha Hw _ _ _].
  destruct (uwrite_spec Tp m root addr src) as (m' & Hrun & Hpte & Hin & Hout); try done.
  destruct (uwrite_wf Tp m root addr src) as [Hwf' _]; try done. rewrite Hrun in Hwf'.
  exists m'. split; [|split; [|done]].
  - rewrite (copyout_eq Tp) by done. cbn [kmem_mem freelist]. by rewrite Hrun.
  - intros a Hna. apply Hout. intros i Hi Hpa. apply (Hna (PGROUNDDOWN a)); [by exists i, a|]. apply PGROUNDDOWN_bounds.
Qed.

(** The status survives the release of the child. *)
Lemma status_kept m1 m2 :
  pt_wf m1 Tp -> (forall x, pte_of m1 root x = pte_of m root x) ->
  (forall i b, src !! i = Some b -> exists pa, uwaddr m root (addr + Z.of_nat i) = Some pa /\ mget m1 pa = b) ->
  same_off (fun q => is_Some (T !! q) \/ q ∈ own) m1 m2 -> (forall q, is_Some (T !! q) \/ q ∈ own -> pg_aligned q) ->
  uread m2 root addr (length src) = (0, src).
Proof using Hrc.
  intros Hwf1 Hp1 Hb Ho Hal. destruct Hrc as [Hwf Hr Hs Ha Hw Hnz Hap Hpg].
  destruct (pt_frame m1 m2 Tp _ Hwf1 Ho) as [_ Hpt].
  { intros q Hq. split; [by apply Hal|]. destruct (Tp !! q) eqn:E; [|done]. destruct (Hap q) as [H1 H2]; [by eexists|].
    destruct Hq as [[? Hq]|Hq]; [by rewrite H1 in Hq|done]. }
  assert (Hp2 : forall x, pte_of m2 root x = pte_of m root x) by (intros x; rewrite <- Hp1; by eapply Hpt).
  apply uread_list. intros i b Hi. destruct (Hb i b Hi) as (pa & Hpa & Hm). exists pa. apply lookup_lt_Some in Hi as Hlt.
  split; [apply (uwaddr_uaddr m); [done|done|apply Hnz; lia]|]. rewrite <- Hm. apply Ho. intros q Hq Hin.
  destruct (Hpg (Z.of_nat i) pa) as (_ & H1 & H2); [lia|done|].
  assert (q = PGROUNDDOWN pa) as ->.
  { pose proof (Hal q Hq) as Hqa. rewrite PGROUNDDOWN_eq. unfold pg_aligned, PGSIZE in *. zdm. }
  destruct Hq as [[? Hq]|Hq]; [by rewrite H1 in Hq|done].
Qed.
End status.

(** A change of pages that are neither free nor tables. *)
Lemma vmi_off (P : Z -> Prop) s l T m' :
  vmi s l T -> same_off P (kmem_mem s) m' -> (forall q, P q -> pg_aligned q /\ q ∉ l /\ T !! q = None) ->
  vmi (mkKmem (freelist s) m') l T.
Proof using.
  intros [[Hf Hn Hp] Hwf Hfree] Ho HP. split; [|by eapply pt_frame; [exact Hwf|exact Ho|]; naive_solver|done].
  split; [|done|done]. cbn [freelist kmem_mem]. apply (flist_ext (kmem_mem s)); [|done]. intros q Hq.
  apply load64_ext. intros i Hi. apply Ho. intros r Hr Hin. destruct (HP r Hr) as (Hra & Hrl & _).
  rewrite Forall_forall in Hp. destruct (Hp q Hq) as [Hqa _]. destruct (decide (q = r)) as [->|Hne]; [done|].
  destruct (pages_disjoint q r Hqa Hra Hne); unfold PGSIZE in *; lia.
Qed.

(** Storing the status, if it is asked for. *)
Lemma status_step l T Tp own root addr src e s :
  let m := kmem_mem s in
  (addr <> 0 -> receives m l T Tp own root addr (length src)) ->
  (forall q, is_Some (T !! q) \/ q ∈ own -> pg_aligned q) -> vmi s l T ->
  exists m1, (if addr =? 0 then ret 0 else copyout root addr src) e s = Ok 0 e (mkKmem (freelist s) m1) /\
    (exists P, same_off P m m1 /\ forall q, P q -> pg_aligned q /\ q ∉ l /\ T !! q = None) /\
    vmi (mkKmem (freelist s) m1) l T /\
    forall m2, same_off (fun q => is_Some (T !! q) \/ q ∈ own) m1 m2 ->
      addr <> 0 -> uread m2 root addr (length src) = (0, src).
Proof using.
  intros m Hrc Hal Hv. assert (Es : s = mkKmem (freelist s) m) by by destruct s.
  destruct (Z.eqb_spec addr 0) as [->|Ha].
  - exists m. rewrite <- Es. split; [done|]. split; [|done]. exists (fun _ => False). split; [apply same_off_refl|done].
  - specialize (Hrc Ha). destruct (status_stored m l T Tp _ _ addr src Hrc e (freelist s)) as (m1 & E & Ho & Hwf & Hp & Hb).
    assert (HP : forall q, status_page m root addr src q -> pg_aligned q /\ q ∉ l /\ T !! q = None).
    { intros q Hq. by destruct (status_apart m l T Tp _ _ addr src Hrc q Hq) as (? & ? & ? & _). }
    exists m1. split; [by rewrite Es at 1|]. split; [by eexists|]. split; [by eapply vmi_off|].
    intros m2 Ho2 _. by apply (status_kept m l T Tp _ _ addr src Hrc m1 m2).
Qed.

(** What wait() and getprocinfo() do with the first exited child. *)
Lemma reap_child info pp addr s l T Tp e n :
  let p := e_me e in
  let c := nth_proc pp s in
  let m := kmem_mem (ps_kmem s) in
  let src := info (ticks s) c in
  e_held e = [] -> length (procs s) = NPROC -> (pp < NPROC)%nat -> exited_child p pp s ->
  (forall j, (j < pp)%nat -> ~ exited_child p j s) ->
  vmi (ps_kmem s) l T -> aspace m T (p_pagetable c) (p_sz c) -> (forall q, is_Some (T !! q) -> page_ok kend q) ->
  freeable l T (owned_pages m c) ->
  (addr <> 0 -> receives m l T Tp (owned_pages m c) (p_pagetable (nth_proc p s)) addr (length src)) ->
  exists k l', reap_loop kend info n p addr (set_held (LkWait :: e_held e) e) s = Ok (p_pid c) e (upd_proc pp cleared (set_kmem k s)) /\
    kmem_inv kend k l' /\ l' ≡ₚ owned_pages m c ++ tables m 2 (p_pagetable c) ++ l /\
    (addr <> 0 -> uread (kmem_mem k) (p_pagetable (nth_proc p s)) addr (length src) = (0, src)).
Proof using Hkend.
  intros p c m src He Hlen Hpp Hex Hno Hv Has Hok Hfr Hrc. set (e1 := set_held (LkWait :: e_held e) e).
  set (e2 := set_held (LkProc pp :: e_held e1) e1).
  assert (Hal : forall q, is_Some (T !! q) \/ q ∈ owned_pages m c -> pg_aligned q).
  { destruct Hfr as (_ & Hfr & _). rewrite Forall_forall in Hfr. intros q [Hq|Hq]; [by apply Hok|by apply Hfr]. }
  destruct (status_step l T Tp _ _ addr src e2 (ps_kmem s) Hrc Hal Hv) as (m1 & E1 & (P & Ho1 & HP) & Hv1 & Hrd).
  assert (HP' : forall q, P q -> pg_aligned q /\ T !! q = None) by naive_solver.
  destruct (aspace_frame P m m1 T _ _ (vmi_wf _ _ _ _ Hv) Ho1 HP' Has) as (Has1 & Hu1 & Ht1).
  set (k1 := mkKmem (freelist (ps_kmem s)) m1) in *. set (s1 := set_kmem k1 s).
  assert (Hown : owned_pages m1 c = owned_pages m c) by (unfold owned_pages; by rewrite Hu1).
  destruct (freeproc_spec pp s1 l T e2) as (k & E2 & Hk & Ho2); try done.
  { change (pp < length (procs s))%nat. lia. }
  { unfold e2, e1. cbn [set_held e_held]. rewrite He. clear. set_solver. }
  { change (freeable l T (owned_pages m1 c)). by rewrite Hown. }
  change (nth_proc pp s1) with c in *. change (kmem_mem (ps_kmem s1)) with m1 in *. rewrite Hown, Ht1 in *.
  eexists k, _. split; [|split; [exact Hk|split]].
  - destruct (reap_scan_skip info pp (NPROC - pp) 0 p addr false e1 s) as [hk Hskip].
    { intros j. unfold e1. cbn [set_held e_held]. rewrite He. clear. set_solver. }
    { intros j Hj. apply Hno. lia. }
    replace (pp + (NPROC - pp))%nat with NPROC in Hskip by lia.
    assert (Hf : reap_scan kend info (NPROC - pp) pp p addr hk e1 s = Ok (Returned (p_pid c)) e (upd_proc pp cleared (set_kmem k s))).
    { replace (NPROC - pp)%nat with (S (NPROC - pp - 1)) by lia. apply (reap_scan_found info _ pp p addr hk e s k1 k); try done.
      intros j. rewrite He. clear. set_solver. }
    destruct n; cbn [reap_loop]; rewrite bind_eq, Hskip; cbn [Nat.add]; rewrite Hf; by kred.
  - rewrite !app_assoc, <- rev_app_distr. apply Permutation_app_tail. symmetry. apply Permutation_rev.
  - by apply Hrd.
Qed.

(** C17: wait() collects the first exited child.  Called without locks, it
    returns the pid of the child and, when an address is given, the exit
    status is what the parent reads there.  The child's trapframe, its user
    pages and the pages of its page table are free again, each once, and the
    rest of the free list is as it was; the child's slot is UNUSED and
    cleared, and nothing else of the process table has changed. *)
Theorem wait_reaps pp addr s l T Tp e :
  let p := e_me e in
  let c := nth_proc pp s in
  let m := kmem_mem (ps_kmem s) in
  e_held e = [] -> length (procs s) = NPROC -> (pp < NPROC)%nat -> exited_child p pp s ->
  (forall j, (j < pp)%nat -> ~ exited_child p j s) ->
  vmi (ps_kmem s) l T -> aspace m T (p_pagetable c) (p_sz c) -> (forall q, is_Some (T !! q) -> page_ok kend q) ->
  freeable l T (owned_pages m c) ->
  (addr <> 0 -> receives m l T Tp (owned_pages m c) (p_pagetable (nth_proc p s)) addr 4) ->
  exists k l', wait kend addr e s = Ok (p_pid c) e (upd_proc pp cleared (set_kmem k s)) /\
    kmem_inv kend k l' /\ l' ≡ₚ owned_pages m c ++ tables m 2 (p_pagetable c) ++ l /\
    (addr <> 0 -> uread (kmem_mem k) (p_pagetable (nth_proc p s)) addr 4 = (0, le_bytes 4 (p_xstate c))).
Proof using Hkend.
  intros p c m He Hlen Hpp Hex Hno Hv Has Hok Hfr Hrc. unfold wait. rewrite bind_eq. kred.
  rewrite bind_eq, acquire_eq by (rewrite He; apply not_elem_of_nil). kred. rewrite bind_eq. kred.
  exact (reap_child wait_info pp addr s l T Tp e _ He Hlen Hpp Hex Hno Hv Has Hok Hfr Hrc).
Qed.
End reap.

(** ** Witness: a parent with one page, an exited child with one page *)

(** The mapped pages below a table: page number and entry. *)
Fixpoint leaf_slots (m : mem) (lev : nat) (pt pre : Z) : list (Z * Z) :=
  concat (map (fun i =>
    let v := load64 m (slot pt i) in
    if flag v PTE_V then
      match lev with
      | O => [(pre * 512 + i, v)]
      | S lev => leaf_slots m lev (PTE2PA v) (pre * 512 + i)
      end
    else []) (seqZ 0 512)).

Lemma leaf_slots_in m lev pt va :
  0 <= va -> flag (pte_from m lev pt va) PTE_V = true ->
  (va / PGSIZE, pte_from m lev pt va) ∈ leaf_slots m lev pt (vprefix lev va).
Proof.
  intros Hva. revert pt. induction lev as [|lev IH]; intros pt Hf.
  - unfold pte_from in *. cbn [pt_leaf] in *. cbn [leaf_slots]. apply list_elem_of_In, in_concat.
    eexists. split; [apply (in_map _ _ (PX 0 va)), list_elem_of_In, elem_of_seqZ; pose proof (PX_range 0 va); lia|].
    cbv beta zeta. rewrite Hf. rewrite vpn_prefix by done. by left.
  - unfold pte_from in Hf. cbn [pt_leaf] in Hf. cbn [leaf_slots].
    destruct (flag (load64 m (slot pt (PX (Z.of_nat (S lev)) va))) PTE_V) eqn:Hv; [|done].
    apply list_elem_of_In, in_concat. eexists. split.
    { apply (in_map _ _ (PX (Z.of_nat (S lev)) va)), list_elem_of_In, elem_of_seqZ. pose proof (PX_range (Z.of_nat (S lev)) va). lia. }
    cbv beta zeta. rewrite Hv, <- vprefix_child by done. apply list_elem_of_In. unfold pte_from. cbn [pt_leaf]. rewrite Hv. by apply IH.
Qed.

(** A labelling is checked by looking at every entry. *)
Definition wf_check (m : mem) (T : gmap Z (nat * Z)) : Prop :=
  Forall (fun x : Z * (nat * Z) =>
    (x.1 mod PGSIZE = 0 /\ 0 < x.1 < PHYSTOP) /\
    match x.2.1 with
    | O => True
    | S l => Forall (fun i => let v := load64 m (slot x.1 i) in
                flag v PTE_V = true -> T !! PTE2PA v = Some (l, x.2.2 * 512 + i) /\ PTE_FLAGS v = PTE_V) (seqZ 0 512)
    end) (map_to_list T).

#[export] Instance wf_check_dec m T : Decision (wf_check m T).
Proof. unfold wf_check. apply Forall_dec. intros [p [l pre]]. cbn [fst snd]. destruct l; apply _. Defined.

Lemma wf_check_wf m T : wf_check m T -> pt_wf m T.
Proof.
  intros H. unfold wf_check in H. rewrite Forall_forall in H. split.
  - intros p l pre Hp%elem_of_map_to_list. destruct (H _ Hp) as [[? ?] _]. by split.
  - intros p l pre i Hp%elem_of_map_to_list Hi Hf. destruct (H _ Hp) as [_ Hc]. cbn [fst snd] in Hc.
    rewrite Forall_forall in Hc. apply (Hc i); [|done]. apply elem_of_seqZ. lia.
Qed.

Definition demo_child_root : Z := 0x80070000.
Definition demo_tf : Z := 0x80076000.
Definition demo_reap_mem : mem :=
  let tbl := fun a => Z.lor (PA2PTE a) PTE_V in
  foldr (fun x m => store64 m x.1 x.2) (kmem_mem demo_user)
    [(demo_child_root, tbl 0x80071000); (slot demo_child_root 255, tbl 0x80073000);
     (0x80071000, tbl 0x80072000); (0x80072000, map_pte 0x80075000 (Z.lor PTE_U (Z.lor PTE_R PTE_W)));
     (slot 0x80073000 511, tbl 0x80074000); (slot 0x80074000 510, map_pte demo_tf (Z.lor PTE_R PTE_W));
     (slot 0x80074000 511, map_pte 0x80007000 (Z.lor PTE_R PTE_X))].
Definition demo_reap_tables : gmap Z (nat * Z) :=
  list_to_map [(demo_child_root, (2%nat, 0)); (0x80071000, (1%nat, 0)); (0x80072000, (0%nat, 0));
               (0x80073000, (1%nat, 255)); (0x80074000, (0%nat, 131071))].

Lemma demo_reap_wf : pt_wf demo_reap_mem demo_reap_tables /\ pt_wf demo_reap_mem demo_user_tables.
Proof. split; apply wf_check_wf, (bool_decide_unpack (wf_check _ _)); by vm_compute. Qed.

(** The pages of the child and of the parent. *)
Lemma demo_reap_slots :
  leaf_slots demo_reap_mem 2 demo_child_root 0 =
    [(0, map_pte 0x80075000 (Z.lor PTE_U (Z.lor PTE_R PTE_W))); (67108862, map_pte demo_tf (Z.lor PTE_R PTE_W));
     (67108863, map_pte 0x80007000 (Z.lor PTE_R PTE_X))] /\
  leaf_slots demo_reap_mem 2 demo_root 0 = [(0, map_pte 0x80060000 (Z.lor PTE_U (Z.lor PTE_R PTE_W)))].
Proof. split; by vm_compute. Qed.

Lemma demo_page_leaf a x :
  0 <= a -> a <= x < a + PGSIZE -> a mod PGSIZE = 0 -> pte_of demo_reap_mem demo_child_root x = pte_of demo_reap_mem demo_child_root a.
Proof. intros Ha Hx Hm. apply same_page_pte; unfold PGSIZE in *; [lia|lia|zdm]. Qed.

Lemma demo_reap_aspace : aspace demo_reap_mem demo_reap_tables demo_child_root 4096.
Proof.
  split.
  - by vm_compute.
  - intros p pre Hp%elem_of_list_to_map_2. rewrite !elem_of_cons, elem_of_nil in Hp.
    destruct Hp as [[=]|[[=]|[[=]|[[=]|[[=]|[]]]]]]; lia.
  - change TRAPFRAME with 274877898752. lia.
  - change (PGROUNDUP 4096 / PGSIZE) with 1. intros x Hx. rewrite (demo_page_leaf 0) by (lia || done). by vm_compute.
  - intros x Hx. change TRAPFRAME with 274877898752 in Hx. unfold PGSIZE in Hx. destruct (Z.lt_ge_cases x 274877902848).
    + rewrite (demo_page_leaf 274877898752) by (unfold PGSIZE; lia || done). by vm_compute.
    + rewrite (demo_page_leaf 274877902848) by (unfold PGSIZE; lia || done). by vm_compute.
  - change (PGROUNDUP 4096) with 4096. change TRAPFRAME with 274877898752. intros x Hx.
    destruct (flag (pte_of demo_reap_mem demo_child_root x) PTE_V) eqn:Hf; [|done].
    pose proof (leaf_slots_in demo_reap_mem 2 demo_child_root x ltac:(lia) Hf) as Hin.
    rewrite vprefix_root, (proj1 demo_reap_slots), !elem_of_cons, elem_of_nil in Hin
      by (change MAXVA with 274877906944; lia).
    destruct Hin as [Hin|[Hin|[Hin|[]]]]; apply (f_equal fst) in Hin; cbn [fst] in Hin; unfold PGSIZE in Hin; zdm.
Qed.

Lemma demo_reap_addr x pa :
  0 <= x -> uwaddr demo_reap_mem demo_root x = Some pa -> x < PGSIZE /\ pa = 0x80060000 + x.
Proof.
  intros Hx Hw. unfold uwaddr in Hw. destruct (Z.leb_spec MAXVA x); [done|].
  destruct (flag (pte_of demo_reap_mem demo_root x) PTE_V) eqn:Hf; [|done].
  pose proof (leaf_slots_in demo_reap_mem 2 demo_root x Hx Hf) as Hin.
  rewrite vprefix_root, (proj2 demo_reap_slots), list_elem_of_singleton in Hin by lia.
  pose proof (f_equal fst Hin) as Hv. pose proof (f_equal snd Hin) as Hp. cbn [fst snd] in Hv, Hp. change (pte_from demo_reap_mem 2 demo_root x) with (pte_of demo_reap_mem demo_root x) in Hp.
  rewrite Hp in Hw. replace (map_pte 0x80060000 (Z.lor PTE_U (Z.lor PTE_R PTE_W))) with 0x20018017 in Hw by by vm_compute.
  change (flag 0x20018017 PTE_U) with true in Hw. change (flag 0x20018017 PTE_W) with true in Hw. cbn [andb] in Hw.
  change (PTE2PA 0x20018017) with 0x80060000 in Hw. apply (inj Some) in Hw.
  assert (0 <= x < PGSIZE) by (unfold PGSIZE in *; zdm). rewrite Z.mod_small in Hw by done. lia.
Qed.

Local Opaque demo_reap_mem.

Definition demo_zombie : proc :=
  mkProc ZOMBIE None 0 5 7 (Some 0%nat) 0 4096 demo_child_root demo_tf (mkContext 0 0 []) [] None (replicate 16 0) 0 0 0 0 0.
Definition demo_parent : proc :=
  mkProc RUNNING None 0 0 1 None 0 4096 demo_root 0 (mkContext 0 0 []) [] None (replicate 16 0) 0 0 0 0 0.
Definition demo_reap : pstate :=
  mkPstate ([demo_parent; proc0; proc0; demo_zombie] ++ replicate 60 proc0) 8 None [] 0 SCHED_FCFS [] (mkKmem 0 demo_reap_mem).
Definition demo_own : list Z := [demo_tf; 0x80075000].

Lemma demo_reap_receives : receives demo_reap_mem [] demo_reap_tables demo_user_tables demo_own demo_root 8 4.
Proof.
  assert (Hw : forall i, 0 <= i < 4 -> uwaddr demo_reap_mem demo_root (8 + i) = Some (0x80060008 + i)).
  { intros i Hi. assert (i = 0 \/ i = 1 \/ i = 2 \/ i = 3) as [->|[->|[->| ->]]] by lia; by vm_compute. }
  assert (Hp : forall x pa, 0 <= x -> uwaddr demo_reap_mem demo_root x = Some pa -> PGROUNDDOWN pa = 0x80060000).
  { intros x pa Hx [Hlt ->]%demo_reap_addr; [|done]. rewrite PGROUNDDOWN_eq. unfold PGSIZE in *. zdm. }
  split.
  - apply demo_reap_wf.
  - by vm_compute.
  - intros x pa Hx Hpa. rewrite (Hp x pa Hx Hpa). by vm_compute.
  - done.
  - split; [intros i Hi; rewrite Hw by lia; by eexists|]. intros i j Hij Hj. rewrite !Hw by lia. intros [= ?]. lia.
  - intros x Hx. pose proof (Hw (x - 8) ltac:(lia)) as H. replace (8 + (x - 8)) with x in H by lia.
    destruct (demo_reap_addr x _ ltac:(lia) H) as [_ Hb]. rewrite (same_page_pte _ _ 0) by (unfold PGSIZE; zdm). by vm_compute.
  - intros q [lab Hq]. unfold demo_user_tables, demo_tables in Hq. rewrite !lookup_insert, lookup_singleton in Hq.
    repeat case_decide; simplify_eq; (split; [by vm_compute|apply (bool_decide_unpack (_ ∉ demo_own)); by vm_compute]).
  - intros i pa Hi Hpa. rewrite (Hp (8 + i) pa ltac:(lia) Hpa).
    split; [apply not_elem_of_nil|]. split; [by vm_compute|]. apply (bool_decide_unpack (_ ∉ demo_own)). by vm_compute.
Qed.

Lemma demo_reap_vmi : vmi demo_end (ps_kmem demo_reap) [] demo_reap_tables.
Proof.
  change (vmi demo_end (mkKmem 0 demo_reap_mem) [] demo_reap_tables).
  split; [split; constructor|exact (proj1 demo_reap_wf)|by intros p ?%elem_of_nil].
Qed.

Lemma wait_reaps_witness :
  exists k l', wait demo_end 8 demo_env demo_reap = Ok 7 demo_env (upd_proc 3 cleared (set_kmem k demo_reap)) /\
    kmem_inv demo_end k l' /\ length l' = 7%nat /\ uread (kmem_mem k) demo_root 8 4 = (0, [5; 0; 0; 0]).
Proof.
  assert (Hown : owned_pages demo_reap_mem demo_zombie = demo_own) by by vm_compute.
  destruct (wait_reaps demo_end ltac:(by vm_compute) 3 8 demo_reap [] demo_reap_tables demo_user_tables demo_env)
    as (k & l' & H1 & H2 & H3 & H4).
  - done.
  - by vm_compute.
  - apply Nat.ltb_lt. by vm_compute.
  - by split.
  - intros j Hj [Hp _]. destruct j as [|[|[|j]]]; [done|done|done|lia].
  - exact demo_reap_vmi.
  - exact demo_reap_aspace.
  - intros q [lab Hq%elem_of_list_to_map_2]. rewrite !elem_of_cons, elem_of_nil in Hq.
    destruct Hq as [[= -> _]|[[= -> _]|[[= -> _]|[[= -> _]|[[= -> _]|[]]]]]]; vm_compute; repeat split; congruence.
  - change (freeable demo_end [] demo_reap_tables (owned_pages demo_reap_mem demo_zombie)). rewrite Hown. split; [|split].
    + apply (bool_decide_unpack (NoDup demo_own)). by vm_compute.
    + repeat (apply Forall_cons; split); try apply Forall_nil; vm_compute; repeat split; congruence.
    + apply Forall_forall. intros q Hq. split; [apply not_elem_of_nil|]. unfold demo_own in Hq.
      rewrite !elem_of_cons, elem_of_nil in Hq. destruct Hq as [->|[->|[]]]; by vm_compute.
  - intros _. change (receives demo_reap_mem [] demo_reap_tables demo_user_tables (owned_pages demo_reap_mem demo_zombie) demo_root 8 4).
    rewrite Hown. exact demo_reap_receives.
  - exists k, l'. split; [exact H1|]. split; [exact H2|]. split; [|by apply H4]. rewrite H3. by vm_compute.
Defined.
