(* ===== verification/AllocProc.v ===== *)
(** * A new process: proc_pagetable() and allocproc()

    A new process gets a trapframe and a page table that maps the trampoline
    and the trapframe and nothing else; when memory runs out on the way,
    everything that was taken is given back. *)

From S2P Require Import Prelude KMonad CString Riscv Kalloc Vm PageTable VmSpec UvmSpec FreeWalk Reclaim.
From S2P Require Import Proc ProcSpec ProcInv Reap.

Open Scope kmonad_scope.

Section allocproc.
Context (kend : Z) (Hkend : 0 < kend).
Local Abbreviation vmi := (vmi kend).

(** ** Trees taken from the free list *)

Lemma labelled_tables m T root : pt_wf m T -> T !! root = Some (2%nat, 0) -> rooted m T root ->
  forall p, is_Some (T !! p) <-> p ∈ tables m 2 root.
Proof using.
  intros Hwf Hr Hro p. split; [intros Hp; by apply reach_tables, Hro|].
  intros Hp. destruct (tables_label m T Hwf 2 root 0 p Hr Hp) as (k & pre & H & _). by eexists.
Qed.

(** The tables that are added to a tree come from the free list. *)
Lemma tables_grown s l T s' l' T' used root :
  vmi s l T -> T !! root = Some (2%nat, 0) -> rooted (kmem_mem s) T root -> evolves kend s l T s' l' T' used ->
  (forall p, p ∈ used -> is_Some (T' !! p)) ->
  tables (kmem_mem s') 2 root ≡ₚ tables (kmem_mem s) 2 root ++ used.
Proof using.
  intros Hv Hr Hro Hev Hu. pose proof (ev_vmi _ _ _ _ _ _ _ _ Hev) as Hv'.
  assert (Hr' : T' !! root = Some (2%nat, 0)) by (eapply lookup_weaken; [done|apply Hev]).
  assert (Hro' : rooted (kmem_mem s') T' root) by (by apply (ev_tree _ _ _ _ _ _ _ _ Hev)).
  pose proof (labelled_tables _ _ _ (vmi_wf _ _ _ _ Hv) Hr Hro) as Hl.
  pose proof (labelled_tables _ _ _ (vmi_wf _ _ _ _ Hv') Hr' Hro') as Hl'.
  pose proof (inv_nodup _ _ _ (vmi_kmem _ _ _ _ Hv)) as Hnd. rewrite (ev_used _ _ _ _ _ _ _ _ Hev) in Hnd.
  apply NoDup_Permutation.
  - by apply (tables_NoDup _ T' (vmi_wf _ _ _ _ Hv') 2 root 0).
  - apply NoDup_app. split; [by apply (tables_NoDup _ T (vmi_wf _ _ _ _ Hv) 2 root 0)|]. split; [|by apply NoDup_app in Hnd as (? & _ & _)].
    intros p Hp%Hl Hpu. assert (Hpl : p ∈ l) by (rewrite (ev_used _ _ _ _ _ _ _ _ Hev); apply elem_of_app; by left).
    apply (vmi_free _ _ _ _ Hv) in Hpl. destruct Hp as [? Hp]. by rewrite Hpl in Hp.
  - intros p. rewrite elem_of_app, <- Hl, <- Hl'. split; [apply Hev|]. intros [[lab Hp]|Hp]; [|by apply Hu].
    exists lab. eapply lookup_weaken; [done|apply Hev].
Qed.

(** uvmcreate() *)
Lemma uvmcreate_spec e s l :
  LkKmem ∉ e_held e -> kmem_inv kend s l ->
  (l = [] /\ uvmcreate e s = Ok 0 e s) \/
  exists q l1 s1, l = q :: l1 /\ q <> 0 /\ uvmcreate e s = Ok q e s1 /\ vmi s1 l1 {[ q := (2%nat, 0) ]} /\
    (forall x, pte_of (kmem_mem s1) q x = 0) /\ tables (kmem_mem s1) 2 q = [q] /\
    same_off (fun p => p = q) (kmem_mem s) (kmem_mem s1).
Proof using Hkend.
  intros Hl Hk. unfold uvmcreate. rewrite bind_eq. destruct l as [|q l].
  { left. split; [done|]. by rewrite (kalloc_empty kend) by done. }
  right. rewrite (kalloc_eq kend q l) by done. kred. pose proof (kmem_head_nonzero _ _ _ _ Hk) as Hq.
  rewrite (proj2 (Z.eqb_neq q 0)) by done. unfold do_memset. krun. unfold on_mem. cbn [freelist kmem_mem].
  pose proof (inv_pages _ _ _ Hk) as HF. apply Forall_cons in HF as [Hqok _].
  pose proof (inv_nodup _ _ _ Hk) as Hnd. apply NoDup_cons in Hnd as [Hql _].
  set (m1 := memset (memset (kmem_mem s) q 5 PGSIZE) q 0 PGSIZE).
  assert (Hz : forall i, 0 <= i < 512 -> load64 m1 (slot q i) = 0) by (intros i Hi; by apply load64_zeroed).
  eexists q, l, _. do 3 (split; [done|]). cbn [kmem_mem]. split; [|split; [|split]].
  - split; cbn [kmem_mem].
    + apply (kmem_inv_outside kend _ _ q m1 (kalloc_inv kend q l s Hk) (proj1 Hqok) Hql). apply memset_same_outside.
    + split.
      * intros p lv pre [<- _]%lookup_singleton_Some. split; [apply Hqok|]. destruct Hqok. lia.
      * intros p lv pre i [<- _]%lookup_singleton_Some Hi. by rewrite Hz.
    + intros p Hp. apply lookup_singleton_None. by intros ->.
  - intros x. unfold pte_of, pte_from. cbn [pt_leaf]. rewrite Hz by (apply PX_range; lia). done.
  - by apply tables_empty.
  - apply same_outside_off. eapply same_outside_trans; apply memset_same_outside.
Qed.

(** The tree of [root] and the free list [l] are what was the free list [l0]. *)
Record owned_tree (s : kmem) (l : list Z) (T : gmap Z (nat * Z)) (root : Z) (l0 : list Z) : Prop := {
  ot_vmi : vmi s l T;
  ot_root : T !! root = Some (2%nat, 0);
  ot_rooted : rooted (kmem_mem s) T root;
  ot_low : low T;
  ot_all : l0 ≡ₚ tables (kmem_mem s) 2 root ++ l;
  ot_ok : Forall (page_ok kend) l0
}.

Lemma owned_tree_in s l T root l0 p : owned_tree s l T root l0 -> is_Some (T !! p) -> p ∈ l0.
Proof using.
  intros [Hv Hr Hro _ Ha _] Hp. rewrite Ha. apply elem_of_app. left. by apply (labelled_tables _ T root (vmi_wf _ _ _ _ Hv) Hr Hro).
Qed.

Lemma owned_tree_grow s l T root l0 s' l' T' used :
  owned_tree s l T root l0 -> evolves kend s l T s' l' T' used -> (forall p, p ∈ used -> is_Some (T' !! p)) ->
  owned_tree s' l' T' root l0.
Proof using.
  intros [Hv Hr Hro Hlow Ha Hok] Hev Hu. split; [apply Hev|eapply lookup_weaken; [done|apply Hev]| | | |done].
  - by apply (ev_tree _ _ _ _ _ _ _ _ Hev).
  - by apply (ev_tree _ _ _ _ _ _ _ _ Hev).
  - rewrite (tables_grown s l T s' l' T' used root) by done. rewrite Ha, (ev_used _ _ _ _ _ _ _ _ Hev) at 1. by rewrite app_assoc.
Qed.

(** One mapping is added. *)
Lemma map_in_tree s l T root l0 e a pa perm :
  LkKmem ∉ e_held e -> owned_tree s l T root l0 -> 0 <= perm < 1024 -> pg_aligned a -> 0 <= a -> a + PGSIZE <= MAXVA ->
  pa_page_ok pa -> pa + PGSIZE <= 2 ^ 56 -> pte_of (kmem_mem s) root a = 0 ->
  exists r s' l' T', mappages root a PGSIZE pa perm e s = Ok r e s' /\ owned_tree s' l' T' root l0 /\
    same_off (fun p => p ∈ l0) (kmem_mem s) (kmem_mem s') /\
    (r = 0 /\ mapped_range (kmem_mem s) (kmem_mem s') root a 1 pa perm \/
     r = -1 /\ forall x, 0 <= x < MAXVA -> pte_of (kmem_mem s') root x = pte_of (kmem_mem s) root x).
Proof using Hkend.
  intros Hl Ho Hp Ha Ha0 Hb Hpa Hpb Hz.
  destruct (mappages_one kend Hkend root s l T e a pa perm) as (r & s' & l' & T' & used & E & Hev & Hu & Hres); try done; try apply Ho.
  exists r, s', l', T'. split; [done|]. split; [by eapply owned_tree_grow|]. split.
  - eapply same_off_mono; [|apply Hev]. cbn beta. intros p [Hpt|Hpu]; [by eapply owned_tree_in|].
    rewrite (ot_all _ _ _ _ _ Ho), (ev_used _ _ _ _ _ _ _ _ Hev). apply elem_of_app. right. apply elem_of_app. by left.
  - destruct Hres as [?|(? & _ & ?)]; [by left|by right].
Qed.

(** A tree that maps nothing is given back. *)
Lemma free_tree root e s l T l0 :
  LkKmem ∉ e_held e -> owned_tree s l T root l0 ->
  (forall x, 0 <= x < MAXVA -> flag (pte_of (kmem_mem s) root x) PTE_V = false) ->
  exists s' l', uvmfree kend root 0 e s = Ok tt e s' /\ kmem_inv kend s' l' /\ l' ≡ₚ l0 /\
    same_off (fun p => p ∈ l0) (kmem_mem s) (kmem_mem s').
Proof using Hkend.
  intros Hl Ho Hun. pose proof Ho as [Hv Hr Hro Hlow Ha Hok]. rewrite Forall_forall in Hok.
  destruct (uvmfree_spec kend Hkend root 0 s l T e) as (s' & E & Hk' & Hof); try done.
  - intros p Hpt. by eapply Hok, owned_tree_in.
  - intros x Hx. change (PGROUNDUP 0 / PGSIZE) with 0 in Hx. lia.
  - split; [constructor|]. split; constructor.
  - eexists s', _. split; [done|]. split; [exact Hk'|]. split.
    + change (user_pages (kmem_mem s) root 0) with (@nil Z). cbn [rev app]. rewrite Ha, <- Permutation_rev. done.
    + eapply same_off_mono; [|exact Hof]. cbn beta. intros p [Hpt|Hn]; [by eapply owned_tree_in|]. by apply elem_of_nil in Hn.
Qed.

(** A page is unmapped and kept. *)
Lemma unmap_in_tree root e s l T l0 a :
  LkKmem ∉ e_held e -> owned_tree s l T root l0 -> pg_aligned a -> 0 <= a < MAXVA -> leaves (kmem_mem s) root a 1 ->
  exists s', uvmunmap kend root a 1 false e s = Ok tt e s' /\ owned_tree s' l T root l0 /\
    same_off (fun p => p ∈ l0) (kmem_mem s) (kmem_mem s') /\
    forall x, 0 <= x < MAXVA ->
      pte_of (kmem_mem s') root x = if decide (a <= x < a + PGSIZE) then 0 else pte_of (kmem_mem s) root x.
Proof using Hkend.
  intros Hl Ho Ha Hb Hlv. pose proof Ho as [Hv Hr Hro Hlow Hall Hok].
  destruct (unmap_kept kend Hkend root s l T e a) as (s' & E & Hv' & Hp & Hof & Ht); try done.
  exists s'. split; [done|]. split; [|split; [|done]].
  - split; try done.
    + pose proof (stay_keeps_tree _ _ _ (vmi_wf _ _ _ _ Hv) (same_tree_stay _ _ _ Ht)) as [H _]. by apply H.
    + by rewrite (tables_same_tree _ T (vmi_wf _ _ _ _ Hv) _ 2 root 0).
  - eapply same_off_mono; [|exact Hof]. cbn beta. intros p Hpt. by eapply owned_tree_in.
Qed.

(** ** proc_pagetable *)

Context (trampoline : Z).
Hypothesis Htramp : pa_page_ok trampoline /\ trampoline + PGSIZE <= 2 ^ 56.

(** The page table of a new process with the trapframe [tf]: it was taken from
    the free list [l0]. *)
Record new_space (s : kmem) (l : list Z) (T : gmap Z (nat * Z)) (root tf : Z) (l0 : list Z) : Prop := {
  ns_tree : owned_tree s l T root l0;
  ns_user : forall x, 0 <= x < TRAPFRAME -> pte_of (kmem_mem s) root x = 0;
  ns_trapframe : forall x, TRAPFRAME <= x < TRAMPOLINE -> pte_of (kmem_mem s) root x = map_pte tf (Z.lor PTE_R PTE_W);
  ns_trampoline : forall x, TRAMPOLINE <= x < MAXVA -> pte_of (kmem_mem s) root x = map_pte trampoline (Z.lor PTE_R PTE_X)
}.

(** The two mappings at the top. *)
Lemma map_top root tf e s l T l0 :
  LkKmem ∉ e_held e -> owned_tree s l T root l0 -> page_ok kend tf -> (forall x, 0 <= x < MAXVA -> pte_of (kmem_mem s) root x = 0) ->
  exists r1 s1, mappages root TRAMPOLINE PGSIZE trampoline (Z.lor PTE_R PTE_X) e s = Ok r1 e s1 /\
    same_off (fun p => p ∈ l0) (kmem_mem s) (kmem_mem s1) /\
    ((r1 = -1 /\ exists s' l', uvmfree kend root 0 e s1 = Ok tt e s' /\ kmem_inv kend s' l' /\ l' ≡ₚ l0 /\
        same_off (fun p => p ∈ l0) (kmem_mem s1) (kmem_mem s')) \/
     (r1 = 0 /\ exists r2 s2, mappages root TRAPFRAME PGSIZE tf (Z.lor PTE_R PTE_W) e s1 = Ok r2 e s2 /\
        same_off (fun p => p ∈ l0) (kmem_mem s1) (kmem_mem s2) /\
        ((r2 = -1 /\ exists s3 s' l', uvmunmap kend root TRAMPOLINE 1 false e s2 = Ok tt e s3 /\
            uvmfree kend root 0 e s3 = Ok tt e s' /\ kmem_inv kend s' l' /\ l' ≡ₚ l0 /\
            same_off (fun p => p ∈ l0) (kmem_mem s2) (kmem_mem s')) \/
         (r2 = 0 /\ exists l' T', new_space s2 l' T' root tf l0)))).
Proof using Hkend Htramp.
  intros Hl Hot Htf Hz. destruct Htramp as [Ht1 Ht2].
  assert (HM : MAXVA = 274877906944) by done. assert (HT : TRAPFRAME = 274877898752) by done.
  assert (HA : TRAMPOLINE = 274877902848) by done. assert (HP : PGSIZE = 4096) by done.
  destruct (map_in_tree s l T root l0 e TRAMPOLINE trampoline (Z.lor PTE_R PTE_X)) as (r1 & s1 & l1 & T1 & E1 & Hot1 & Ho1 & Hres);
    try done; try lia; [apply Hz; lia|].
  exists r1, s1. split; [done|]. split; [done|]. destruct Hres as [[-> Hm1]|[-> Hp1]]; [right|left]; (split; [done|]).
  2: { eapply free_tree; [done|done|]. intros x Hx. by rewrite Hp1, Hz. }
  assert (Hp1 : forall x, 0 <= x < MAXVA -> pte_of (kmem_mem s1) root x =
            if decide (TRAMPOLINE <= x) then map_pte trampoline (Z.lor PTE_R PTE_X) else 0).
  { intros x Hx. rewrite (Hm1 x Hx). do 2 case_decide; try lia; [|by apply Hz]. f_equal. rewrite HP. zdm. }
  destruct (map_in_tree s1 l1 T1 root l0 e TRAPFRAME tf (Z.lor PTE_R PTE_W)) as (r2 & s2 & l2 & T2 & E2 & Hot2 & Ho2 & Hres);
    try done; try lia; [by apply (page_ok_pa kend Hkend)|destruct Htf; unfold PHYSTOP, KERNBASE in *; lia|rewrite Hp1, decide_False by lia; done|].
  exists r2, s2. split; [done|]. split; [done|]. destruct Hres as [[-> Hm2]|[-> Hp2]]; [right|left]; (split; [done|]).
  - exists l2, T2. split; [done| | |]; intros x Hx; rewrite (Hm2 x), Hp1 by lia.
    + by rewrite !decide_False by lia.
    + rewrite decide_True by lia. f_equal. rewrite HP. zdm.
    + by rewrite decide_False, decide_True by lia.
  - destruct (unmap_in_tree root e s2 l2 T2 l0 TRAMPOLINE) as (s3 & E3 & Hot3 & Ho3 & Hp3); try done; try lia.
    { intros x Hx. rewrite Hp2, Hp1, decide_True by lia. by apply map_pte_leaf. }
    destruct (free_tree root e s3 l2 T2 l0) as (s' & l' & E' & Hk & Hpm & Ho'); try done.
    { intros x Hx. rewrite Hp3 by done. case_decide; [done|]. rewrite Hp2, Hp1, decide_False by lia. done. }
    exists s3, s', l'. do 4 (split; [done|]). eapply same_off_mono; [|eapply same_off_trans; [exact Ho3|exact Ho']].
    cbn beta. tauto.
Qed.

Lemma proc_pagetable_spec i e s l :
  let tf := p_trapframe (nth_proc i s) in
  let m := kmem_mem (ps_kmem s) in
  LkKmem ∉ e_held e -> kmem_inv kend (ps_kmem s) l -> page_ok kend tf ->
  exists r k', proc_pagetable kend trampoline i e s = Ok r e (set_kmem k' s) /\
    same_off (fun p => p ∈ l) m (kmem_mem k') /\
    ((r = 0 /\ exists l', kmem_inv kend k' l' /\ l' ≡ₚ l) \/
     (r <> 0 /\ exists l' T, new_space k' l' T r tf l)).
Proof using Hkend Htramp.
  intros tf m Hl Hk Htf. unfold proc_pagetable. rewrite bind_eq.
  destruct (uvmcreate_spec e (ps_kmem s) l Hl Hk) as [[-> E]|(root & l1 & k1 & -> & Hq & E & Hv1 & Hz1 & Ht1 & Ho1)];
    rewrite (kmm_ok _ _ _ _ _ s E); kred.
  { exists 0, (ps_kmem s). split; [by destruct s|]. split; [apply same_off_refl|]. left. split; [done|]. by exists []. }
  rewrite (proj2 (Z.eqb_neq _ _) Hq).
  assert (Hot : owned_tree k1 l1 {[ root := (2%nat, 0) ]} root (root :: l1)).
  { split; [done|apply lookup_singleton_eq| | |by rewrite Ht1|by apply Hk].
    - intros p [lab [<- _]%lookup_singleton_Some]. constructor.
    - by intros p pre [_ [=]]%lookup_singleton_Some. }
  assert (Hof : forall k, same_off (fun p => p ∈ root :: l1) (kmem_mem k1) (kmem_mem k) ->
                     same_off (fun p => p ∈ root :: l1) m (kmem_mem k)).
  { intros k Ho. eapply same_off_mono; [|eapply same_off_trans; [exact Ho1|exact Ho]]. cbn beta. intros p [->|?]; [by left|done]. }
  destruct (map_top root tf e k1 l1 _ (root :: l1) Hl Hot Htf) as (r1 & k2 & E2 & Ho2 & Hres); [by intros x _|].
  rewrite bind_eq, (kmm_ok _ r1 e e k2) by done. kred.
  destruct Hres as [(-> & k3 & l3 & E3 & Hk3 & Hp3 & Ho3)|(-> & r2 & k3 & E3 & Ho3 & Hres)]; cbn [Z.ltb Z.compare].
  - rewrite bind_eq, (kmm_ok _ tt e e k3) by done. kred. exists 0, k3. split; [done|]. split; [|left; split; [done|by exists l3]].
    apply Hof. eapply same_off_mono; [|eapply same_off_trans; [exact Ho2|exact Ho3]]. cbn beta. tauto.
  - unfold getp. rewrite bind_eq. kred. rewrite bind_eq, (kmm_ok _ r2 e e k3) by done. kred.
    destruct Hres as [(-> & k4 & k5 & l5 & E4 & E5 & Hk5 & Hp5 & Ho5)|(-> & l' & T' & Hns)]; cbn [Z.ltb Z.compare].
    + rewrite bind_eq, (kmm_ok _ tt e e k4) by done. kred. rewrite bind_eq, (kmm_ok _ tt e e k5) by done. kred.
      exists 0, k5. split; [done|]. split; [|left; split; [done|by exists l5]].
      apply Hof. eapply same_off_mono; [|eapply same_off_trans; [eapply same_off_trans; [exact Ho2|exact Ho3]|exact Ho5]]. cbn beta. tauto.
    + exists root, k3. split; [done|]. split; [|right; split; [done|by exists l', T']].
      apply Hof. eapply same_off_mono; [|eapply same_off_trans; [exact Ho2|exact Ho3]]. cbn beta. tauto.
Qed.

(** ** allocproc *)

Variable forkret_addr : Z.

(** A slot of the table that is free and owns nothing. *)
Definition vacant (p : proc) : Prop := p_state p = UNUSED /\ p_pagetable p = 0 /\ p_sz p = 0.

(** The slot of a new process. *)
Definition newborn (pid tf root now : Z) (p : proc) : proc :=
  mkProc USED (p_chan p) (p_killed p) (p_xstate p) pid (p_parent p) (p_kstack p) (p_sz p) root tf
    (mkContext forkret_addr (p_kstack p + PGSIZE) (replicate 12 0)) (p_ofile p) (p_cwd p) (p_name p) now 0 0 0 0.

(** The scan ends at the first free slot, with its lock. *)
Lemma allocproc_scan_run n j i e s :
  no_plock e -> (j <= i < j + n)%nat -> p_state (nth_proc i s) = UNUSED ->
  (forall k, (j <= k < i)%nat -> p_state (nth_proc k s) <> UNUSED) ->
  allocproc_scan n j e s = Ok (Some i) (set_held (LkProc i :: e_held e) e) s.
Proof using.
  intros He. revert j. induction n as [|n IH]; intros j Hj Hi Hno; [lia|]. cbn [allocproc_scan].
  rewrite bind_eq, acquire_eq by apply He. kred. unfold getp. rewrite bind_eq. kred.
  destruct (decide (j = i)) as [->|Hne]; [by rewrite decide_True|].
  rewrite decide_False by (apply Hno; lia). krun. apply IH; [lia|done|]. intros k Hk. apply Hno. lia.
Qed.

(** freeproc() of a slot without a page table. *)
Lemma freeproc_bare i e s k :
  (i < length (procs s))%nat -> p_pagetable (nth_proc i s) = 0 ->
  (when negb (p_trapframe (nth_proc i s) =? 0) do kfree kend (p_trapframe (nth_proc i s))) e (ps_kmem s) = Ok tt e k ->
  freeproc kend i e s = Ok tt e (upd_proc i cleared (set_kmem k s)).
Proof using.
  intros Hi Hpt Hk. unfold freeproc, getp, modp. rewrite bind_eq. kred.
  assert (E : (when negb (p_trapframe (nth_proc i s) =? 0) do kmm (kfree kend (p_trapframe (nth_proc i s)))) e s = Ok tt e (set_kmem k s)).
  { destruct (negb _); [by apply kmm_ok|]. cbn in Hk. injection Hk as <-. by destruct s. }
  rewrite bind_eq, E. kred. do 3 (rewrite bind_eq; kred). rewrite !nth_upd_same by done.
  change (nth_proc i (set_kmem k s)) with (nth_proc i s). cbn [set_trapframe p_pagetable p_sz]. rewrite Hpt. cbn [Z.eqb negb].
  krun. unfold modify. rewrite !upd_proc_twice. reflexivity.
Qed.

Lemma upd_set_kmem i f k s : set_kmem k (upd_proc i f s) = upd_proc i f (set_kmem k s).
Proof using. done. Qed.

Lemma set_kmem_twice k k' s : set_kmem k (set_kmem k' s) = set_kmem k s.
Proof using. done. Qed.

(** The slot before the page table is made. *)
Definition with_trapframe (pid tf : Z) (p : proc) : proc := set_trapframe tf (set_state USED (set_pid pid p)).

(** The first steps of the code after the label found. *)
Lemma allocproc_found_start i e s tf k :
  let s0 := set_nextpid (i32 (nextpid s + 1)) s in
  (i < length (procs s))%nat -> LkPid ∉ e_held e -> kalloc e (ps_kmem s) = Ok tf e k ->
  allocproc_found kend trampoline forkret_addr i e s =
  (if tf =? 0 then
     freeproc kend i ;;; release (LkProc i) ;;; ret None
   else
     pt <- proc_pagetable kend trampoline i ;;
     modp i (set_pagetable pt) ;;;
     if pt =? 0 then
       freeproc kend i ;;; release (LkProc i) ;;; ret None
     else
       modp i (set_context (mkContext 0 0 (replicate 12 0))) ;;;
       modp i (fun p => set_context (mkContext forkret_addr (p_kstack p + PGSIZE) (c_s (p_context p))) p) ;;;
       now <- gets ticks ;;
       modp i (set_creation_time now) ;;;
       modp i (set_run_time 0) ;;;
       modp i (set_waiting_time 0) ;;;
       modp i (set_turnaround_time 0) ;;;
       modp i (set_finish_time 0) ;;;
       ret (Some i)) e (upd_proc i (with_trapframe (nextpid s) tf) (set_kmem k s0)).
Proof using.
  intros s0 Hi Hp Hk. unfold allocproc_found, allocpid. krun. unfold modp. krun.
  rewrite (kmm_ok kalloc tf e e k) by done. kred. rewrite bind_eq. kred.
  rewrite !upd_set_kmem, !upd_proc_twice. reflexivity.
Qed.

(** ... and, when there is a trapframe, the rest. *)
Lemma allocproc_found_table i e s tf k root k2 :
  let s0 := set_nextpid (i32 (nextpid s + 1)) s in
  let s1 := upd_proc i (with_trapframe (nextpid s) tf) (set_kmem k s0) in
  (i < length (procs s))%nat -> LkPid ∉ e_held e -> kalloc e (ps_kmem s) = Ok tf e k -> tf <> 0 ->
  proc_pagetable kend trampoline i e s1 = Ok root e (set_kmem k2 s1) ->
  allocproc_found kend trampoline forkret_addr i e s =
  if root =? 0 then
    (freeproc kend i ;;; release (LkProc i) ;;; ret None) e
      (upd_proc i (fun p => set_pagetable 0 (with_trapframe (nextpid s) tf p)) (set_kmem k2 s0))
  else Ok (Some i) e (upd_proc i (newborn (nextpid s) tf root (ticks s)) (set_kmem k2 s0)).
Proof using.
  intros s0 s1 Hi Hp Hk Htf E. rewrite (allocproc_found_start i e s tf k) by done. fold s0 s1. rewrite (proj2 (Z.eqb_neq _ _) Htf).
  rewrite bind_eq, E. kred. unfold modp. rewrite bind_eq. kred. unfold s1. rewrite upd_set_kmem, upd_proc_twice, set_kmem_twice.
  destruct (Z.eqb_spec root 0) as [->|_]; [done|]. krun. rewrite !upd_proc_twice. reflexivity.
Qed.

Lemma allocproc_found_spec i e s l :
  let e2 := set_held (LkProc i :: e_held e) e in
  let s0 := set_nextpid (i32 (nextpid s + 1)) s in
  let m := kmem_mem (ps_kmem s) in
  (i < length (procs s))%nat -> p_pagetable (nth_proc i s) = 0 -> LkPid ∉ e_held e -> LkKmem ∉ e_held e ->
  kmem_inv kend (ps_kmem s) l ->
  exists k, same_off (fun p => p ∈ l) m (kmem_mem k) /\
    ((exists l', allocproc_found kend trampoline forkret_addr i e2 s = Ok None e (upd_proc i cleared (set_kmem k s0)) /\
        kmem_inv kend k l' /\ l' ≡ₚ l) \/
     (exists tf l1 root l' T, l = tf :: l1 /\
        allocproc_found kend trampoline forkret_addr i e2 s =
          Ok (Some i) e2 (upd_proc i (newborn (nextpid s) tf root (ticks s)) (set_kmem k s0)) /\
        new_space k l' T root tf l1)).
Proof using Hkend Htramp.
  intros e2 s0 m Hi Hpt Hlp Hlk Hk.
  assert (Hp2 : LkPid ∉ e_held e2) by (apply not_elem_of_cons; by split).
  assert (Hk2 : LkKmem ∉ e_held e2) by (apply not_elem_of_cons; by split).
  destruct l as [|tf l1].
  - exists (ps_kmem s). split; [apply same_off_refl|]. left. exists []. split; [|done].
    rewrite (allocproc_found_start i e2 s 0 (ps_kmem s)) by (try done; by apply (kalloc_empty kend)). cbn [Z.eqb].
    rewrite bind_eq, (freeproc_bare i e2 _ (ps_kmem s)); [|by rewrite length_upd_proc|by rewrite nth_upd_same|by rewrite nth_upd_same].
    kred. rewrite bind_eq. unfold e2. rewrite release_eq. kred. rewrite upd_set_kmem, upd_proc_twice. reflexivity.
  - set (k1 := mkKmem (load64 m tf) (memset m tf 5 PGSIZE)).
    assert (E1 : kalloc e2 (ps_kmem s) = Ok tf e2 k1) by (by apply (kalloc_eq kend tf l1)).
    assert (Hk1 : kmem_inv kend k1 l1) by (by apply kalloc_inv).
    pose proof (kmem_head_nonzero _ _ _ _ Hk) as Htf0.
    pose proof (inv_pages _ _ _ Hk) as HF. apply Forall_cons in HF as [Htf _].
    pose proof (inv_nodup _ _ _ Hk) as Hnd. apply NoDup_cons in Hnd as [Htl _].
    assert (Ho1 : same_off (fun p => p = tf) m (kmem_mem k1)) by (apply same_outside_off, memset_same_outside).
    set (s1 := upd_proc i (with_trapframe (nextpid s) tf) (set_kmem k1 s0)).
    assert (Etf : p_trapframe (nth_proc i s1) = tf) by (unfold s1; by rewrite nth_upd_same).
    destruct (proc_pagetable_spec i e2 s1 l1 Hk2 Hk1) as (root & k2 & E2 & Ho2 & Hres); [by rewrite Etf|].
    rewrite Etf in Hres. change (kmem_mem (ps_kmem s1)) with (kmem_mem k1) in Ho2.
    rewrite (allocproc_found_table i e2 s tf k1 root k2) by done.
    destruct Hres as [(-> & l' & Hk' & Hp')|(Hr & l' & T & Hns)].
    + cbn [Z.eqb]. set (s2 := upd_proc i _ _). set (k3 := mkKmem tf (freed_mem (kmem_mem k2) tf (freelist k2))).
      assert (E3 : kfree kend tf e2 k2 = Ok tt e2 k3) by (by apply kfree_eq).
      assert (Hn2 : nth_proc i s2 = set_pagetable 0 (with_trapframe (nextpid s) tf (nth_proc i s))) by (unfold s2; by rewrite nth_upd_same).
      exists k3. split; [|left; exists (tf :: l'); split; [|split; [apply kfree_inv; try done; by rewrite Hp'|by rewrite Hp']]].
      * eapply same_off_mono; [|eapply same_off_trans; [eapply same_off_trans; [exact Ho1|exact Ho2]|
          apply same_outside_off, freed_same_outside]]. cbn beta. intros p. rewrite elem_of_cons. tauto.
      * rewrite bind_eq, (freeproc_bare i e2 s2 k3); [|unfold s2; by rewrite length_upd_proc|by rewrite Hn2|].
        2: { rewrite Hn2. cbn [p_trapframe set_pagetable with_trapframe set_trapframe]. rewrite (proj2 (Z.eqb_neq _ _) Htf0). exact E3. }
        kred. rewrite bind_eq. unfold e2. rewrite release_eq. kred. unfold s2. rewrite upd_set_kmem, upd_proc_twice. reflexivity.
    + rewrite (proj2 (Z.eqb_neq _ _) Hr). exists k2. split; [|right; exists tf, l1, root, l', T; split; [done|split; [|done]]].
      * eapply same_off_mono; [|eapply same_off_trans; [exact Ho1|exact Ho2]]. cbn beta. intros p. rewrite elem_of_cons. tauto.
      * done.
Qed.

(** The whole of allocproc(), when [i] is the first free slot. *)
Lemma allocproc_spec i e s l :
  let e2 := set_held (LkProc i :: e_held e) e in
  let s0 := set_nextpid (i32 (nextpid s + 1)) s in
  let m := kmem_mem (ps_kmem s) in
  e_held e = [] -> length (procs s) = NPROC -> (i < NPROC)%nat -> vacant (nth_proc i s) ->
  (forall j, (j < i)%nat -> p_state (nth_proc j s) <> UNUSED) -> kmem_inv kend (ps_kmem s) l ->
  exists k, same_off (fun p => p ∈ l) m (kmem_mem k) /\
    ((exists l', allocproc kend trampoline forkret_addr e s = Ok None e (upd_proc i cleared (set_kmem k s0)) /\
        kmem_inv kend k l' /\ l' ≡ₚ l) \/
     (exists tf l1 root l' T, l = tf :: l1 /\
        allocproc kend trampoline forkret_addr e s =
          Ok (Some i) e2 (upd_proc i (newborn (nextpid s) tf root (ticks s)) (set_kmem k s0)) /\
        new_space k l' T root tf l1)).
Proof using Hkend Htramp.
  intros e2 s0 m He Hlen Hi (Hun & Hpt & _) Hno Hk.
  assert (E : allocproc kend trampoline forkret_addr e s = allocproc_found kend trampoline forkret_addr i e2 s).
  { unfold allocproc. rewrite bind_eq, (allocproc_scan_run NPROC 0 i); [done| |lia|done|intros; apply Hno; lia].
    intros j. rewrite He. apply not_elem_of_nil. }
  rewrite E. apply allocproc_found_spec; try done; [lia|rewrite He; apply not_elem_of_nil..].
Qed.
End allocproc.
