(* ===== verification/Fs.v ===== *)
(** * kernel/fs.c: blocks, inodes, directories and path names

    The file system runs on the log (and through it the buffer cache and the
    disk), on the inode table and, for the copies between a file and a user
    address, on the process table and physical memory.

    A [struct inode *] is an index into itable.inode[], [None] the null
    pointer.  Contents of blocks are lists of bytes; the on-disk structures
    are read and written at the offsets C lays them out. *)

From S2P Require Import Prelude KMonad CString Sleeplock Bio Log Riscv Kalloc Vm Proc.
Open Scope kmonad_scope.

(** ** fs.h, param.h, stat.h *)

Definition NINODE : nat := 50.
Definition ROOTDEV : Z := 1.
Definition ROOTINO : Z := 1.
Definition FSMAGIC : Z := 0x10203040.
Definition NDIRECT : Z := 12.
Definition NINDIRECT : Z := Z.of_nat BSIZE / 4.
Definition MAXFILE : Z := NDIRECT + NINDIRECT.
Definition sizeof_dinode : Z := 64.
Definition IPB : Z := Z.of_nat BSIZE / sizeof_dinode.
Definition BPB : Z := Z.of_nat BSIZE * 8.
Definition DIRSIZ : Z := 14.
Definition sizeof_dirent : Z := 16.
Definition T_DIR : Z := 1.
Definition T_FILE : Z := 2.
Definition T_DEVICE : Z := 3.

Record superblock : Set := mkSuperblock {
  sb_magic : Z; sb_size : Z; sb_nblocks : Z; sb_ninodes : Z;
  sb_nlog : Z; sb_logstart : Z; sb_inodestart : Z; sb_bmapstart : Z
}.

Definition IBLOCK (i : Z) (sb : superblock) : Z := u32 (i / IPB + sb_inodestart sb).
Definition BBLOCK (b : Z) (sb : superblock) : Z := u32 (b / BPB + sb_bmapstart sb).

(** ** Fields of byte arrays *)

Definition get_u16 (data : list Z) (off : Z) : Z := le_val (take 2 (drop (Z.to_nat off) data)).
Definition get_i16 (data : list Z) (off : Z) : Z := i16 (get_u16 data off).
Definition get_u32 (data : list Z) (off : Z) : Z := le_val (take 4 (drop (Z.to_nat off) data)).
Definition put_at (data : list Z) (off : Z) (bs : list Z) : list Z :=
  take (Z.to_nat off) data ++ bs ++ drop (Z.to_nat off + length bs) data.
Definition get_byte (data : list Z) (off : Z) : Z := default 0 (data !! Z.to_nat off).

(** The thirteen block addresses at an offset. *)
Definition get_addrs (data : list Z) (off : Z) : list Z :=
  map (fun k => get_u32 data (off + 4 * Z.of_nat k)) (seq 0 13).
Definition addrs_bytes (addrs : list Z) : list Z := mjoin (map (le_bytes 4) addrs).

(** ** In-memory inodes *)

Record inode : Set := mkInode {
  i_dev : Z;
  i_inum : Z;
  i_ref : Z;
  i_lock : sleeplock;
  i_valid : bool;
  i_type : Z;
  i_major : Z;
  i_minor : Z;
  i_nlink : Z;
  i_size : Z;
  i_addrs : list Z          (* NDIRECT + 1 entries *)
}.

Definition inode0 : inode := mkInode 0 0 0 initsleeplock false 0 0 0 0 0 (replicate 13 0).
#[export] Instance inode_inhabited : Inhabited inode := populate inode0.

Definition set_idev v i := mkInode v (i_inum i) (i_ref i) (i_lock i) (i_valid i) (i_type i) (i_major i) (i_minor i) (i_nlink i) (i_size i) (i_addrs i).
Definition set_inum v i := mkInode (i_dev i) v (i_ref i) (i_lock i) (i_valid i) (i_type i) (i_major i) (i_minor i) (i_nlink i) (i_size i) (i_addrs i).
Definition set_ref v i := mkInode (i_dev i) (i_inum i) v (i_lock i) (i_valid i) (i_type i) (i_major i) (i_minor i) (i_nlink i) (i_size i) (i_addrs i).
Definition set_ilock v i := mkInode (i_dev i) (i_inum i) (i_ref i) v (i_valid i) (i_type i) (i_major i) (i_minor i) (i_nlink i) (i_size i) (i_addrs i).
Definition set_ivalid v i := mkInode (i_dev i) (i_inum i) (i_ref i) (i_lock i) v (i_type i) (i_major i) (i_minor i) (i_nlink i) (i_size i) (i_addrs i).
Definition set_itype v i := mkInode (i_dev i) (i_inum i) (i_ref i) (i_lock i) (i_valid i) v (i_major i) (i_minor i) (i_nlink i) (i_size i) (i_addrs i).
Definition set_major v i := mkInode (i_dev i) (i_inum i) (i_ref i) (i_lock i) (i_valid i) (i_type i) v (i_minor i) (i_nlink i) (i_size i) (i_addrs i).
Definition set_minor v i := mkInode (i_dev i) (i_inum i) (i_ref i) (i_lock i) (i_valid i) (i_type i) (i_major i) v (i_nlink i) (i_size i) (i_addrs i).
Definition set_nlink v i := mkInode (i_dev i) (i_inum i) (i_ref i) (i_lock i) (i_valid i) (i_type i) (i_major i) (i_minor i) v (i_size i) (i_addrs i).
Definition set_isize v i := mkInode (i_dev i) (i_inum i) (i_ref i) (i_lock i) (i_valid i) (i_type i) (i_major i) (i_minor i) (i_nlink i) v (i_addrs i).
Definition set_addrs v i := mkInode (i_dev i) (i_inum i) (i_ref i) (i_lock i) (i_valid i) (i_type i) (i_major i) (i_minor i) (i_nlink i) (i_size i) v.

Record fsstate : Type := mkFsstate {
  fs_p : pstate;
  fs_l : lstate;
  fs_sb : superblock;
  fs_inodes : list inode      (* itable.inode[NINODE] *)
}.

Definition put_p (p : pstate) (s : fsstate) : fsstate := mkFsstate p (fs_l s) (fs_sb s) (fs_inodes s).
Definition put_l (l : lstate) (s : fsstate) : fsstate := mkFsstate (fs_p s) l (fs_sb s) (fs_inodes s).
Definition set_sb (x : superblock) (s : fsstate) : fsstate := mkFsstate (fs_p s) (fs_l s) x (fs_inodes s).
Definition nth_inode (i : nat) (s : fsstate) : inode := fs_inodes s !!! i.
Definition upd_inode (i : nat) (f : inode -> inode) (s : fsstate) : fsstate :=
  mkFsstate (fs_p s) (fs_l s) (fs_sb s) (alter f i (fs_inodes s)).

Definition on_p {A} (m : K pstate A) : K fsstate A := zoom fs_p put_p m.
Definition on_l {A} (m : K lstate A) : K fsstate A := zoom fs_l put_l m.
Definition on_b {A} (m : K bstate A) : K fsstate A := on_l (bio m).
Definition geti {A} (i : nat) (f : inode -> A) : K fsstate A := gets (fun s => f (nth_inode i s)).
Definition modi (i : nat) (f : inode -> inode) : K fsstate unit := modify (upd_inode i f).

(** bp->data, and a store into it. *)
Definition get_data (bp : nat) : K fsstate (list Z) := on_b (x <- getb bp ;; ret (b_data x)).
Definition put_data (bp : nat) (d : list Z) : K fsstate unit := on_b (modb bp (set_data d)).

(** ** The super block *)

Definition decode_sb (d : list Z) : superblock :=
  mkSuperblock (get_u32 d 0) (get_u32 d 4) (get_u32 d 8) (get_u32 d 12)
    (get_u32 d 16) (get_u32 d 20) (get_u32 d 24) (get_u32 d 28).

Definition readsb (dev : Z) : K fsstate unit :=
  bp <- on_b (bread dev 1) ;;
  d <- get_data bp ;;
  modify (set_sb (decode_sb d)) ;;;
  on_b (brelse bp).

Definition fsinit (dev : Z) : K fsstate unit :=
  readsb dev ;;;
  sb <- gets fs_sb ;;
  if negb (sb_magic sb =? FSMAGIC) then panic "invalid file system"
  else on_l (initlog dev (i32 (sb_logstart sb)) (i32 (sb_nlog sb))).

(** ** Block allocation *)

Definition bzero (dev bno : Z) : K fsstate unit :=
  bp <- on_b (bread dev bno) ;;
  put_data bp (replicate BSIZE 0) ;;;
  on_l (log_write bp) ;;;
  on_b (brelse bp).

(** The inner loop: the bits [bi ..] of the bitmap block in [bp]. *)
Fixpoint balloc_bits (k : nat) (dev b bi : Z) (bp : nat) : K fsstate (option Z) :=
  match k with
  | O => ret None
  | S k =>
      sb <- gets fs_sb ;;
      if negb (u32 (b + bi) <? sb_size sb) then ret None
      else
        let m := Z.shiftl 1 (bi mod 8) in
        d <- get_data bp ;;
        if Z.land (get_byte d (bi / 8)) m =? 0 then
          put_data bp (put_at d (bi / 8) [u8 (Z.lor (get_byte d (bi / 8)) m)]) ;;;
          on_l (log_write bp) ;;;
          on_b (brelse bp) ;;;
          bzero dev (b + bi) ;;;
          ret (Some (b + bi))
        else balloc_bits k dev b (bi + 1) bp
  end.

Fixpoint balloc_loop (fuel : nat) (dev b : Z) : K fsstate Z :=
  sb <- gets fs_sb ;;
  if b <? sb_size sb then
    match fuel with
    | O => out_of_fuel
    | S fuel =>
        bp <- on_b (bread dev (BBLOCK b sb)) ;;
        r <- balloc_bits (Z.to_nat BPB) dev b 0 bp ;;
        match r with
        | Some a => ret a
        | None => on_b (brelse bp) ;;; balloc_loop fuel dev (b + BPB)
        end
    end
  else
    on_p (printf "balloc: out of blocks\n" []) ;;; ret 0.

Definition balloc (dev : Z) : K fsstate Z :=
  sb <- gets fs_sb ;;
  balloc_loop (Z.to_nat ((sb_size sb + BPB - 1) / BPB)) dev 0.

Definition bfree (dev b : Z) : K fsstate unit :=
  sb <- gets fs_sb ;;
  bp <- on_b (bread dev (BBLOCK b sb)) ;;
  let bi := b mod BPB in
  let m := Z.shiftl 1 (bi mod 8) in
  d <- get_data bp ;;
  if Z.land (get_byte d (bi / 8)) m =? 0 then panic "freeing free block"
  else
    put_data bp (put_at d (bi / 8) [Z.land (get_byte d (bi / 8)) (Z.lnot m)]) ;;;
    on_l (log_write bp) ;;;
    on_b (brelse bp).

(** ** Inodes *)

Definition inode_lock (i : nat) (s : fsstate) : sleeplock := i_lock (nth_inode i s).
Definition put_inode_lock (i : nat) (l : sleeplock) : fsstate -> fsstate := upd_inode i (set_ilock l).
Definition lock_inode (i : nat) : K fsstate unit :=
  acquiresleep (ChInodeLock i) (LkInode i) (inode_lock i) (put_inode_lock i).
Definition unlock_inode (i : nat) : K fsstate unit :=
  releasesleep (ChInodeLock i) (LkInode i) (inode_lock i) (put_inode_lock i).
Definition holding_inode (i : nat) : K fsstate bool := holdingsleep (LkInode i) (inode_lock i).

Fixpoint iinit_loop (n i : nat) : K fsstate unit :=
  match n with
  | O => ret tt
  | S n => modi i (set_ilock initsleeplock) ;;; iinit_loop n (S i)
  end.

Definition iinit : K fsstate unit := iinit_loop NINODE 0.

(** The scan of iget(): an entry for the inode, and the first empty entry. *)
Fixpoint iget_scan (n ip : nat) (dev inum : Z) (empty : option nat)
    : K fsstate (option nat * option nat) :=
  match n with
  | O => ret (None, empty)
  | S n =>
      x <- geti ip (fun x => x) ;;
      if (0 <? i_ref x) && (i_dev x =? dev) && (i_inum x =? inum) then ret (Some ip, empty)
      else
        iget_scan n (S ip) dev inum
          (match empty with
           | None => if i_ref x =? 0 then Some ip else None
           | Some _ => empty
           end)
  end.

Definition iget (dev inum : Z) : K fsstate nat :=
  acquire LkItable ;;;
  r <- iget_scan NINODE 0 dev inum None ;;
  match r with
  | (Some ip, _) =>
      modi ip (fun x => set_ref (i32 (i_ref x + 1)) x) ;;;
      release LkItable ;;;
      ret ip
  | (None, None) => panic "iget: no inodes"
  | (None, Some ip) =>
      modi ip (set_idev dev) ;;;
      modi ip (set_inum inum) ;;;
      modi ip (set_ref 1) ;;;
      modi ip (set_ivalid false) ;;;
      release LkItable ;;;
      ret ip
  end.

Fixpoint ialloc_loop (k : nat) (dev type inum : Z) : K fsstate (option nat) :=
  match k with
  | O => on_p (printf "ialloc: no inodes\n" []) ;;; ret None
  | S k =>
      sb <- gets fs_sb ;;
      bp <- on_b (bread dev (IBLOCK inum sb)) ;;
      d <- get_data bp ;;
      let dip := inum mod IPB * sizeof_dinode in
      if get_i16 d dip =? 0 then
        put_data bp (put_at (put_at d dip (replicate 64 0)) dip (le_bytes 2 type)) ;;;
        on_l (log_write bp) ;;;
        on_b (brelse bp) ;;;
        ip <- iget dev inum ;;
        ret (Some ip)
      else
        on_b (brelse bp) ;;;
        ialloc_loop k dev type (inum + 1)
  end.

(** for(inum = 1; inum < sb.ninodes; inum++) *)
Definition ialloc (dev type : Z) : K fsstate (option nat) :=
  sb <- gets fs_sb ;;
  ialloc_loop (Z.to_nat (sb_ninodes sb - 1)) dev type 1.

(** The bytes of the disk inode. *)
Definition dinode_bytes (x : inode) : list Z :=
  le_bytes 2 (i_type x) ++ le_bytes 2 (i_major x) ++ le_bytes 2 (i_minor x) ++
  le_bytes 2 (i_nlink x) ++ le_bytes 4 (i_size x) ++ addrs_bytes (i_addrs x).

Definition iupdate (ip : nat) : K fsstate unit :=
  x <- geti ip (fun x => x) ;;
  sb <- gets fs_sb ;;
  bp <- on_b (bread (i_dev x) (IBLOCK (i_inum x) sb)) ;;
  d <- get_data bp ;;
  x <- geti ip (fun x => x) ;;
  put_data bp (put_at d (i_inum x mod IPB * sizeof_dinode) (dinode_bytes x)) ;;;
  on_l (log_write bp) ;;;
  on_b (brelse bp).

Definition idup (ip : nat) : K fsstate nat :=
  acquire LkItable ;;;
  modi ip (fun x => set_ref (i32 (i_ref x + 1)) x) ;;;
  release LkItable ;;;
  ret ip.

Definition ilock (ip : option nat) : K fsstate unit :=
  match ip with
  | None => panic "ilock"
  | Some ip =>
      ref <- geti ip i_ref ;;
      if ref <? 1 then panic "ilock"
      else
        lock_inode ip ;;;
        x <- geti ip (fun x => x) ;;
        if i_valid x then ret tt
        else
          sb <- gets fs_sb ;;
          bp <- on_b (bread (i_dev x) (IBLOCK (i_inum x) sb)) ;;
          d <- get_data bp ;;
          let dip := i_inum x mod IPB * sizeof_dinode in
          modi ip (set_itype (get_i16 d dip)) ;;;
          modi ip (set_major (get_i16 d (dip + 2))) ;;;
          modi ip (set_minor (get_i16 d (dip + 4))) ;;;
          modi ip (set_nlink (get_i16 d (dip + 6))) ;;;
          modi ip (set_isize (get_u32 d (dip + 8))) ;;;
          modi ip (set_addrs (get_addrs d (dip + 12))) ;;;
          on_b (brelse bp) ;;;
          modi ip (set_ivalid true) ;;;
          t <- geti ip i_type ;;
          if t =? 0 then panic "ilock: no type" else ret tt
  end.

Definition iunlock (ip : option nat) : K fsstate unit :=
  match ip with
  | None => panic "iunlock"
  | Some ip =>
      h <- holding_inode ip ;;
      if negb h then panic "iunlock"
      else
        ref <- geti ip i_ref ;;
        if ref <? 1 then panic "iunlock" else unlock_inode ip
  end.

(** ** The contents of an inode *)

Definition get_addr (ip : nat) (k : Z) : K fsstate Z :=
  geti ip (fun x => default 0 (i_addrs x !! Z.to_nat k)).
Definition put_addr (ip : nat) (k a : Z) : K fsstate unit :=
  modi ip (fun x => set_addrs (<[Z.to_nat k := a]> (i_addrs x)) x).

Definition bmap (ip : nat) (bn : Z) : K fsstate Z :=
  dev <- geti ip i_dev ;;
  if bn <? NDIRECT then
    addr <- get_addr ip bn ;;
    if addr =? 0 then
      addr <- balloc dev ;;
      if addr =? 0 then ret 0
      else put_addr ip bn addr ;;; ret addr
    else ret addr
  else
    let bn := bn - NDIRECT in
    if bn <? NINDIRECT then
      addr <- get_addr ip NDIRECT ;;
      addr <- (if addr =? 0 then
                 a <- balloc dev ;;
                 (when negb (a =? 0) do put_addr ip NDIRECT a) ;;;
                 ret a
               else ret addr) ;;
      if addr =? 0 then ret 0
      else
        bp <- on_b (bread dev addr) ;;
        d <- get_data bp ;;
        addr <- (if get_u32 d (4 * bn) =? 0 then
                   addr <- balloc dev ;;
                   (when negb (addr =? 0) do
                      (d <- get_data bp ;;
                       put_data bp (put_at d (4 * bn) (le_bytes 4 addr)) ;;;
                       on_l (log_write bp))) ;;;
                   ret addr
                 else ret (get_u32 d (4 * bn))) ;;
        on_b (brelse bp) ;;;
        ret addr
    else panic "bmap: out of range".

Fixpoint itrunc_direct (k : nat) (i : Z) (ip : nat) : K fsstate unit :=
  match k with
  | O => ret tt
  | S k =>
      a <- get_addr ip i ;;
      (when negb (a =? 0) do
         (dev <- geti ip i_dev ;;
          bfree dev a ;;;
          put_addr ip i 0)) ;;;
      itrunc_direct k (i + 1) ip
  end.

Fixpoint itrunc_indirect (k : nat) (j : Z) (ip bp : nat) : K fsstate unit :=
  match k with
  | O => ret tt
  | S k =>
      d <- get_data bp ;;
      (when negb (get_u32 d (4 * j) =? 0) do
         (dev <- geti ip i_dev ;;
          bfree dev (get_u32 d (4 * j)))) ;;;
      itrunc_indirect k (j + 1) ip bp
  end.

Definition itrunc (ip : nat) : K fsstate unit :=
  itrunc_direct (Z.to_nat NDIRECT) 0 ip ;;;
  a <- get_addr ip NDIRECT ;;
  (when negb (a =? 0) do
     (dev <- geti ip i_dev ;;
      bp <- on_b (bread dev a) ;;
      itrunc_indirect (Z.to_nat NINDIRECT) 0 ip bp ;;;
      on_b (brelse bp) ;;;
      bfree dev a ;;;
      put_addr ip NDIRECT 0)) ;;;
  modi ip (set_isize 0) ;;;
  iupdate ip.

Definition iput (ip : nat) : K fsstate unit :=
  acquire LkItable ;;;
  x <- geti ip (fun x => x) ;;
  (when (i_ref x =? 1) && i_valid x && (i_nlink x =? 0) do
     (lock_inode ip ;;;
      release LkItable ;;;
      itrunc ip ;;;
      modi ip (set_itype 0) ;;;
      iupdate ip ;;;
      modi ip (set_ivalid false) ;;;
      unlock_inode ip ;;;
      acquire LkItable)) ;;;
  modi ip (fun x => set_ref (i32 (i_ref x - 1)) x) ;;;
  release LkItable.

Definition iunlockput (ip : nat) : K fsstate unit :=
  iunlock (Some ip) ;;; iput ip.

(** struct stat: dev, ino, type, nlink, padding, size. *)
Record stat : Set := mkStat { st_dev : Z; st_ino : Z; st_type : Z; st_nlink : Z; st_size : Z }.

Definition stati (ip : nat) : K fsstate stat :=
  geti ip (fun x => mkStat (i_dev x) (i_inum x) (i_type x) (i_nlink x) (i_size x)).

(** Where readi() copies to and writei() from: a user address, a physical
    address of the kernel, or a local structure of the caller, which is
    given by its bytes. *)
Inductive place : Set := User (a : Z) | Kern (a : Z) | Local (bs : list Z).

Definition advance (p : place) (m : Z) : place :=
  match p with
  | User a => User (u64 (a + m))
  | Kern a => Kern (u64 (a + m))
  | Local bs => Local (drop (Z.to_nat m) bs)
  end.

(** either_copyout() to a place; what a local structure receives is the
    second component of the result of the reader. *)
Definition copy_to (dst : place) (bs : list Z) : K fsstate Z :=
  match dst with
  | User a => on_p (either_copyout true a bs)
  | Kern a => on_p (either_copyout false a bs)
  | Local _ => ret 0
  end.

Definition copy_from (src : place) (m : Z) : K fsstate (Z * list Z) :=
  match src with
  | User a => on_p (either_copyin true a m)
  | Kern a => on_p (either_copyin false a m)
  | Local bs => ret (0, take (Z.to_nat m) bs)
  end.

(** The loop of readi(); [acc] collects the bytes copied. *)
Fixpoint readi_loop (fuel : nat) (ip : nat) (dst : place) (off n tot : Z) (acc : list Z)
    : K fsstate (Z * list Z) :=
  if tot <? n then
    match fuel with
    | O => out_of_fuel
    | S fuel =>
        addr <- bmap ip (off / Z.of_nat BSIZE) ;;
        if addr =? 0 then ret (i32 tot, acc)
        else
          dev <- geti ip i_dev ;;
          bp <- on_b (bread dev addr) ;;
          let o := off mod Z.of_nat BSIZE in
          let m := Z.min (n - tot) (Z.of_nat BSIZE - o) in
          d <- get_data bp ;;
          let bs := take (Z.to_nat m) (drop (Z.to_nat o) d) in
          r <- copy_to dst bs ;;
          if r =? -1 then
            on_b (brelse bp) ;;; ret (-1, acc)
          else
            on_b (brelse bp) ;;;
            readi_loop fuel ip (advance dst m) (u32 (off + m)) n (tot + m) (acc ++ bs)
    end
  else ret (i32 tot, acc).

Definition readi (ip : nat) (dst : place) (off n : Z) : K fsstate (Z * list Z) :=
  size <- geti ip i_size ;;
  if (size <? off) || (u32 (off + n) <? off) then ret (0, [])
  else
    let n := if size <? u32 (off + n) then size - off else n in
    readi_loop (Z.to_nat (n / Z.of_nat BSIZE + 2)) ip dst off n 0 [].

(** The loop of writei(): returns tot and the final off. *)
Fixpoint writei_loop (fuel : nat) (ip : nat) (src : place) (off n tot : Z) : K fsstate (Z * Z) :=
  if tot <? n then
    match fuel with
    | O => out_of_fuel
    | S fuel =>
        addr <- bmap ip (off / Z.of_nat BSIZE) ;;
        if addr =? 0 then ret (tot, off)
        else
          dev <- geti ip i_dev ;;
          bp <- on_b (bread dev addr) ;;
          let o := off mod Z.of_nat BSIZE in
          let m := Z.min (n - tot) (Z.of_nat BSIZE - o) in
          r <- copy_from src m ;;
          d <- get_data bp ;;
          put_data bp (put_at d o r.2) ;;;
          if r.1 =? -1 then
            on_b (brelse bp) ;;; ret (tot, off)
          else
            on_l (log_write bp) ;;;
            on_b (brelse bp) ;;;
            writei_loop fuel ip (advance src m) (u32 (off + m)) n (tot + m)
    end
  else ret (tot, off).

Definition writei (ip : nat) (src : place) (off n : Z) : K fsstate Z :=
  size <- geti ip i_size ;;
  if (size <? off) || (u32 (off + n) <? off) then ret (-1)
  else if MAXFILE * Z.of_nat BSIZE <? u32 (off + n) then ret (-1)
  else
    r <- writei_loop (Z.to_nat (n / Z.of_nat BSIZE + 2)) ip src off n 0 ;;
    size <- geti ip i_size ;;
    (when size <? r.2 do modi ip (set_isize r.2)) ;;;
    iupdate ip ;;;
    ret (i32 r.1).

(** ** Directories *)

(** Two character arrays laid out in a memory of their own. *)
Definition arrays (s t : list Z) : mem := mwrite (mwrite ∅ 0 s) 4096 t.
Definition strncmp_arr (s t : list Z) (n : Z) : Z := strncmp (arrays s t) 0 4096 n.
Definition strncpy_arr (dst src : list Z) (n : Z) : list Z :=
  mread (strncpy (arrays dst src) 0 4096 n) 0 (length dst).

Definition namecmp (s t : list Z) : Z := strncmp_arr s t DIRSIZ.

(** struct dirent: inum and name[DIRSIZ]. *)
Definition de_inum (de : list Z) : Z := get_u16 de 0.
Definition de_name (de : list Z) : list Z := take 14 (drop 2 de).

(** The result is the inode and, when found, the offset of the entry. *)
Fixpoint dirlookup_loop (fuel : nat) (dp : nat) (name : list Z) (off : Z) : K fsstate (option (nat * Z)) :=
  size <- geti dp i_size ;;
  if off <? size then
    match fuel with
    | O => out_of_fuel
    | S fuel =>
        r <- readi dp (Local []) off sizeof_dirent ;;
        if negb (r.1 =? sizeof_dirent) then panic "dirlookup read"
        else if de_inum r.2 =? 0 then dirlookup_loop fuel dp name (u32 (off + sizeof_dirent))
        else if namecmp name (de_name r.2) =? 0 then
          dev <- geti dp i_dev ;;
          ip <- iget dev (de_inum r.2) ;;
          ret (Some (ip, off))
        else dirlookup_loop fuel dp name (u32 (off + sizeof_dirent))
    end
  else ret None.

Definition dirlookup (dp : nat) (name : list Z) : K fsstate (option (nat * Z)) :=
  t <- geti dp i_type ;;
  if negb (t =? T_DIR) then panic "dirlookup not DIR"
  else
    size <- geti dp i_size ;;
    dirlookup_loop (Z.to_nat (size / sizeof_dirent + 1)) dp name 0.

(** The search for an empty entry: its offset and the last entry read. *)
Fixpoint dirlink_scan (fuel : nat) (dp : nat) (off : Z) (de : list Z) : K fsstate (Z * list Z) :=
  size <- geti dp i_size ;;
  if off <? size then
    match fuel with
    | O => out_of_fuel
    | S fuel =>
        r <- readi dp (Local []) off sizeof_dirent ;;
        if negb (r.1 =? sizeof_dirent) then panic "dirlink read"
        else if de_inum r.2 =? 0 then ret (off, r.2)
        else dirlink_scan fuel dp (off + sizeof_dirent) r.2
    end
  else ret (off, de).

(** [de0]: what the stack holds in de before it is assigned. *)
Definition dirlink (dp : nat) (name : list Z) (inum : Z) (de0 : list Z) : K fsstate Z :=
  r <- dirlookup dp name ;;
  match r with
  | Some (ip, _) => iput ip ;;; ret (-1)
  | None =>
      size <- geti dp i_size ;;
      r <- dirlink_scan (Z.to_nat (size / sizeof_dirent + 1)) dp 0 de0 ;;
      let de := le_bytes 2 inum ++ strncpy_arr (de_name r.2) name DIRSIZ in
      w <- writei dp (Local de) r.1 sizeof_dirent ;;
      if negb (w =? sizeof_dirent) then ret (-1) else ret 0
  end.

(** ** Paths

    A path is the list of its characters before the NUL; a pointer into it is
    the rest of the path from there on. *)

Definition slash : Z := 47.

Fixpoint skip_slashes (path : list Z) : list Z :=
  match path with
  | c :: rest => if c =? slash then skip_slashes rest else path
  | [] => []
  end.

(** The characters up to the next slash, and the rest. *)
Fixpoint span_elem (path : list Z) : list Z * list Z :=
  match path with
  | c :: rest => if c =? slash then ([], path) else let r := span_elem rest in (c :: r.1, r.2)
  | [] => ([], [])
  end.

(** The rest of the path and the new contents of name[]. *)
Definition skipelem (path name : list Z) : option (list Z * list Z) :=
  match skip_slashes path with
  | [] => None
  | s =>
      let r := span_elem s in
      let len := Z.of_nat (length r.1) in
      let name' := if DIRSIZ <=? len then put_at name 0 (take (Z.to_nat DIRSIZ) r.1)
                   else put_at (put_at name 0 r.1) len [0] in
      Some (skip_slashes r.2, name')
  end.

Fixpoint namex_loop (fuel : nat) (ip : nat) (path : list Z) (nameiparent : bool) (name : list Z)
    : K fsstate (option nat * list Z) :=
  match skipelem path name with
  | None =>
      if nameiparent then iput ip ;;; ret (None, name) else ret (Some ip, name)
  | Some (path, name) =>
      match fuel with
      | O => out_of_fuel
      | S fuel =>
          ilock (Some ip) ;;;
          t <- geti ip i_type ;;
          if negb (t =? T_DIR) then iunlockput ip ;;; ret (None, name)
          else if nameiparent && bool_decide (path = []) then
            iunlock (Some ip) ;;; ret (Some ip, name)
          else
            r <- dirlookup ip name ;;
            match r with
            | None => iunlockput ip ;;; ret (None, name)
            | Some (next, _) =>
                iunlockput ip ;;;
                namex_loop fuel next path nameiparent name
            end
      end
  end.

Definition namex (path : list Z) (nameiparent : bool) (name : list Z)
    : K fsstate (option nat * list Z) :=
  me <- asks e_me ;;
  ip <- (if default 0 (head path) =? slash then iget ROOTDEV ROOTINO
         else
           cwd <- on_p (getp me p_cwd) ;;
           match cwd with
           | None => panic "undefined: null cwd"
           | Some c => idup c
           end) ;;
  namex_loop (length path) ip path nameiparent name.

(** name[DIRSIZ] is a local array of namei(), written before it is read. *)
Definition namei (path : list Z) : K fsstate (option nat) :=
  r <- namex path false (replicate 14 0) ;;
  ret r.1.

Definition nameiparent (path name : list Z) : K fsstate (option nat * list Z) :=
  namex path true name.
