(* ===== verification/FsSpec.v ===== *)
(** * Blocks and inodes on the transaction's view

    The routines of fs.c that allocate blocks and move inodes between memory
    and disk, as steps on the view of Txn.v: what the bitmap and the inode
    blocks say before and after. *)

From S2P Require Import Prelude KMonad CString Sleeplock Bio BioSpec BioAbs Log LogSpec LogCrash LogOps.
From S2P Require Import Txn Riscv Kalloc Vm Proc Fs.
Open Scope kmonad_scope.

(** The locks the block layer takes are free. *)
Definition fs_free (e : env) : Prop := bio_free e /\ LkLog ∉ e_held e.

Lemma fs_free_woken e w : fs_free e -> fs_free (add_woken w e).
Proof. done. Qed.

#[export] Hint Resolve fs_free_woken : xv6.

(** ** The bitmap *)

(** A disk block is BSIZE bytes. *)
Definition block_ok (d : list Z) : Prop := length d = BSIZE /\ Forall (fun b => 0 <= b < 256) d.

(** The bit [bi] of a bitmap block. *)
Definition bit (d : list Z) (bi : Z) : bool := Z.testbit (get_byte d (bi / 8)) (bi mod 8).

Definition set_bit (d : list Z) (bi : Z) : list Z :=
  put_at d (bi / 8) [u8 (Z.lor (get_byte d (bi / 8)) (Z.shiftl 1 (bi mod 8)))].
Definition clear_bit (d : list Z) (bi : Z) : list Z :=
  put_at d (bi / 8) [Z.land (get_byte d (bi / 8)) (Z.lnot (Z.shiftl 1 (bi mod 8)))].

Lemma put_at_byte d off b : 0 <= off < Z.of_nat (length d) -> put_at d off [b] = <[Z.to_nat off := b]> d.
Proof. intros Ho. unfold put_at. rewrite insert_take_drop by lia. cbn [length app]. by rewrite Nat.add_1_r. Qed.

Lemma get_byte_put d off b off' :
  0 <= off < Z.of_nat (length d) -> 0 <= off' ->
  get_byte (put_at d off [b]) off' = if off' =? off then b else get_byte d off'.
Proof.
  intros Ho Ho'. rewrite put_at_byte by done. unfold get_byte. rewrite list_lookup_insert.
  destruct (Z.eqb_spec off' off) as [->|Hne]; [by rewrite decide_True by (split; [done|lia])|].
  by rewrite decide_False by lia.
Qed.

Lemma testbit_one k j : 0 <= k -> 0 <= j -> Z.testbit (Z.shiftl 1 k) j = (j =? k).
Proof. intros. rewrite Z.shiftl_1_l, Z.pow2_bits_eqb by done. apply Z.eqb_sym. Qed.

(** The test of the code: data[bi/8] & m. *)
Lemma land_one x k : 0 <= k -> (Z.land x (Z.shiftl 1 k) =? 0) = negb (Z.testbit x k).
Proof.
  intros Hk. destruct (Z.testbit x k) eqn:Hb; cbn [negb].
  - apply Z.eqb_neq. intros Hz. apply (f_equal (fun y => Z.testbit y k)) in Hz.
    by rewrite Z.land_spec, testbit_one, Z.eqb_refl, Hb, Z.bits_0 in Hz by done.
  - apply Z.eqb_eq, Z.bits_inj'. intros j Hj. rewrite Z.land_spec, testbit_one, Z.bits_0 by done.
    destruct (Z.eqb_spec j k) as [->|]; [by rewrite Hb|apply andb_false_r].
Qed.

Lemma bit_index_range bi : 0 <= bi < BPB -> 0 <= bi / 8 < Z.of_nat BSIZE /\ 0 <= bi mod 8 < 8.
Proof. unfold BPB, BSIZE. intros. zdm. Qed.

(** Two bits of a block are the same one or differ in byte or place. *)
Lemma bit_set d bi bj :
  block_ok d -> 0 <= bi < BPB -> 0 <= bj < BPB -> bit (set_bit d bi) bj = (bj =? bi) || bit d bj.
Proof.
  intros [Hl Hd] Hi Hj. destruct (bit_index_range bi Hi) as [Hi1 Hi2]. destruct (bit_index_range bj Hj) as [Hj1 Hj2].
  unfold bit, set_bit. rewrite get_byte_put by lia. destruct (Z.eqb_spec (bj / 8) (bi / 8)) as [He|He].
  - unfold u8. rewrite Z.mod_pow2_bits_low, Z.lor_spec, testbit_one, He by lia. rewrite orb_comm. f_equal.
    destruct (Z.eqb_spec (bj mod 8) (bi mod 8)), (Z.eqb_spec bj bi); try done; zdm.
  - destruct (Z.eqb_spec bj bi) as [->|]; done.
Qed.

Lemma bit_clear d bi bj :
  block_ok d -> 0 <= bi < BPB -> 0 <= bj < BPB -> bit (clear_bit d bi) bj = negb (bj =? bi) && bit d bj.
Proof.
  intros [Hl Hd] Hi Hj. destruct (bit_index_range bi Hi) as [Hi1 Hi2]. destruct (bit_index_range bj Hj) as [Hj1 Hj2].
  unfold bit, clear_bit. rewrite get_byte_put by lia. destruct (Z.eqb_spec (bj / 8) (bi / 8)) as [He|He].
  - rewrite Z.land_spec, Z.lnot_spec, testbit_one, He by lia. rewrite andb_comm. do 2 f_equal.
    destruct (Z.eqb_spec (bj mod 8) (bi mod 8)), (Z.eqb_spec bj bi); try done; zdm.
  - destruct (Z.eqb_spec bj bi) as [->|]; done.
Qed.

Lemma get_byte_range d off : block_ok d -> 0 <= get_byte d off < 256.
Proof.
  intros [_ Hd]. unfold get_byte. destruct (d !! Z.to_nat off) eqn:E; cbn; [|lia].
  by apply (Forall_lookup_1 _ _ _ _ Hd E).
Qed.

Lemma put_byte_ok d off b : block_ok d -> 0 <= b < 256 -> 0 <= off < Z.of_nat BSIZE -> block_ok (put_at d off [b]).
Proof.
  intros [Hl Hd] Hb Ho. rewrite put_at_byte by lia. split; [by rewrite length_insert|by apply Forall_insert].
Qed.

Lemma set_bit_ok d bi : block_ok d -> 0 <= bi < BPB -> block_ok (set_bit d bi).
Proof. intros Hd Hi. apply put_byte_ok; [done|apply u8_range|by apply bit_index_range]. Qed.

Lemma clear_bit_ok d bi : block_ok d -> 0 <= bi < BPB -> block_ok (clear_bit d bi).
Proof.
  intros Hd Hi. apply put_byte_ok; [done| |by apply bit_index_range].
  pose proof (get_byte_range d (bi / 8) Hd) as Hr. split; [by apply Z.land_nonneg; left; lia|].
  rewrite <- (Z.mod_small (get_byte d (bi / 8)) (2 ^ 8)) by lia. rewrite <- Z.land_ones by lia.
  rewrite (Z.land_comm _ (Z.ones 8)), <- Z.land_assoc, Z.land_comm, Z.land_ones by lia. by apply Z.mod_pos_bound.
Qed.

(** The layout the superblock describes: block numbers fit an int, and the
    bitmap lies outside the log. *)
Record layout (start : Z) (sb : superblock) : Prop := {
  la_size : 0 <= sb_size sb < 2 ^ 31;
  la_bmap : 0 <= sb_bmapstart sb;
  la_small : sb_bmapstart sb + sb_size sb / BPB < 2 ^ 31;
  la_outside : forall b, 0 <= b < sb_size sb -> data_block start (BBLOCK b sb)
}.

Lemma BBLOCK_eq start sb b :
  layout start sb -> 0 <= b < sb_size sb ->
  BBLOCK b sb = b / BPB + sb_bmapstart sb /\ 0 <= BBLOCK b sb < 2 ^ 31.
Proof.
  intros [H1 H2 H3 _] Hb. unfold BBLOCK.
  assert (0 <= b / BPB <= sb_size sb / BPB) by (unfold BPB, BSIZE in *; zdm).
  rewrite u32_small by lia. lia.
Qed.

Definition inuse (V : Z -> list Z) (sb : superblock) (b : Z) : bool := bit (V (BBLOCK b sb)) (b mod BPB).

Lemma bmod_range b : 0 <= b mod BPB < BPB.
Proof. by apply Z.mod_pos_bound. Qed.

Lemma same_bit start sb b b' :
  layout start sb -> 0 <= b < sb_size sb -> 0 <= b' < sb_size sb ->
  BBLOCK b sb = BBLOCK b' sb -> (b' mod BPB =? b mod BPB) = (b' =? b).
Proof.
  intros Hla Hb Hb'. destruct (BBLOCK_eq start sb b Hla Hb) as [-> _]. destruct (BBLOCK_eq start sb b' Hla Hb') as [-> _].
  intros He. destruct (Z.eqb_spec b' b) as [->|Hne]; [by rewrite Z.eqb_refl|]. apply Z.eqb_neq. unfold BPB, BSIZE in *. zdm.
Qed.

(** One bit of the bitmap changed by [g], which changes that bit of its block. *)
Lemma inuse_update start sb V b b' g (v : bool) :
  layout start sb -> 0 <= b < sb_size sb -> 0 <= b' < sb_size sb -> block_ok (V (BBLOCK b sb)) ->
  (forall bj, 0 <= bj < BPB -> bit (g (V (BBLOCK b sb))) bj = if bj =? b mod BPB then v else bit (V (BBLOCK b sb)) bj) ->
  inuse (vset (BBLOCK b sb) (g (V (BBLOCK b sb))) V) sb b' = if b' =? b then v else inuse V sb b'.
Proof.
  intros Hla Hb Hb' Hok Hg. unfold inuse. destruct (decide (BBLOCK b' sb = BBLOCK b sb)) as [He|Hne].
  - rewrite He, vset_same, Hg by apply bmod_range. by rewrite (same_bit start sb).
  - rewrite vset_other by done. destruct (Z.eqb_spec b' b) as [->|]; done.
Qed.

Section fstxn.
Context {dev : Z} {rep : Z -> bstate -> cabs -> Prop} `{HBC : !BlockCache dev rep} {start : Z}.

Definition ftx (pid : Z) (V : Z -> list Z) (H : gmap nat Z) (n : nat) (s : fsstate) : Prop :=
  txn (dev := dev) (rep := rep) start pid (fs_l s) V H n.

Lemma put_l_twice l1 l2 s : put_l l1 (put_l l2 s) = put_l l1 s.
Proof using. done. Qed.

Lemma f_bread e s V H n bn :
  fs_free e -> ftx (e_pid e) V H n s -> (forall i, H !! i <> Some bn) -> (size H <= 3)%nat ->
  exists i l, on_b (bread dev bn) e s = Ok i e (put_l l s) /\ H !! i = None /\
    ftx (e_pid e) V (<[i := bn]> H) n (put_l l s).
Proof using HBC.
  intros [Hf _] Ht Hn Hs. destruct (tx_bread start e (fs_l s) V H n bn Hf Ht Hn Hs) as (i & t & Hr & Hi & Ht').
  exists i, (put_bio t (fs_l s)). split; [|done]. unfold on_b, on_l, zoom at 1. by rewrite Hr.
Qed.

Lemma f_data e s V H n i bn :
  ftx (e_pid e) V H n s -> H !! i = Some bn -> get_data i e s = Ok (V bn) e s.
Proof using HBC.
  intros Ht Hi. unfold get_data, on_b, on_l, zoom at 1. rewrite (tx_data start e (fs_l s) V H n i bn Ht Hi).
  by destruct s.
Qed.

Lemma f_write e s V H n i bn d :
  fs_free e -> ftx (e_pid e) V H (S n) s -> H !! i = Some bn -> 0 <= bn < 2 ^ 31 -> data_block start bn ->
  exists l1 l2, put_data i d e s = Ok tt e (put_l l1 s) /\
    on_l (log_write i) e (put_l l1 s) = Ok tt e (put_l l2 s) /\
    ftx (e_pid e) (vset bn d V) H n (put_l l2 s).
Proof using HBC.
  intros [Hf Hl] Ht Hi Hb Hd. destruct (tx_write start e (fs_l s) V H n i bn d Hf Hl Ht Hi Hb Hd) as (s' & Hr & Ht').
  rewrite bind_eq, bio_modb in Hr. cbn [rbind] in Hr. eexists _, s'. split; [done|]. split; [|done].
  unfold on_l, zoom. cbn [fs_l put_l]. by rewrite Hr.
Qed.

Lemma f_brelse e s V H n i bn :
  fs_free e -> ftx (e_pid e) V H n s -> H !! i = Some bn ->
  exists l, on_b (brelse i) e s = Ok tt (add_woken [ChBufLock i] e) (put_l l s) /\
    ftx (e_pid e) V (delete i H) n (put_l l s).
Proof using HBC.
  intros [Hf _] Ht Hi. destruct (tx_brelse start e (fs_l s) V H n i bn Hf Ht Hi) as (t & Hr & Ht').
  exists (put_bio t (fs_l s)). split; [|done]. unfold on_b, on_l, zoom at 1. by rewrite Hr.
Qed.

(** A store into a held buffer, logged, and the buffer released. *)
Lemma write_release e s V H n i bn d :
  fs_free e -> ftx (e_pid e) V H (S n) s -> H !! i = Some bn -> 0 <= bn < 2 ^ 31 -> data_block start bn ->
  exists l, ftx (e_pid e) (vset bn d V) (delete i H) n (put_l l s) /\
    (put_data i d ;;; on_l (log_write i) ;;; on_b (brelse i)) e s = Ok tt (add_woken [ChBufLock i] e) (put_l l s) /\
    forall A (k : K fsstate A), (put_data i d ;;; on_l (log_write i) ;;; on_b (brelse i) ;;; k) e s =
      k (add_woken [ChBufLock i] e) (put_l l s).
Proof using HBC.
  intros Hf Ht Hi Hb Hd. destruct (f_write e s V H n i bn d Hf Ht Hi Hb Hd) as (l1 & l2 & H1 & H2 & H3).
  destruct (f_brelse e (put_l l2 s) (vset bn d V) H n i bn Hf H3 Hi) as (l & H4 & H5).
  exists l. split; [done|]. split; [|intros A k]; rewrite bind_eq, H1; cbn [rbind]; rewrite bind_eq, H2; cbn [rbind].
  - exact H4.
  - by rewrite bind_eq, H4.
Qed.

Lemma bzero_run e s V H n bno :
  fs_free e -> ftx (e_pid e) V H (S n) s -> (forall i, H !! i <> Some bno) -> (size H <= 3)%nat ->
  0 <= bno < 2 ^ 31 -> data_block start bno ->
  exists e' l, bzero dev bno e s = Ok tt e' (put_l l s) /\ later e e' /\
    ftx (e_pid e') (vset bno (replicate BSIZE 0) V) H n (put_l l s).
Proof using HBC.
  intros Hf Ht Hn Hs Hb Hd. unfold bzero.
  destruct (f_bread e s V H (S n) bno) as (i & l & H1 & H2 & H3); auto. rewrite bind_eq, H1. cbn [rbind].
  destruct (write_release e (put_l l s) V (<[i := bno]> H) n i bno (replicate BSIZE 0)) as (l' & H4 & H5 & _);
    [done..|by rewrite lookup_insert_eq|done|done|].
  rewrite H5. exists (add_woken [ChBufLock i] e), l'. split; [done|]. split; [apply later_woken|].
  by rewrite delete_insert_id in H4.
Qed.

(** A block read into a fresh buffer. *)
Lemma read_block e s V H n bn :
  fs_free e -> ftx (e_pid e) V H n s -> (forall i, H !! i <> Some bn) -> (size H <= 3)%nat ->
  exists i l, H !! i = None /\ ftx (e_pid e) V (<[i := bn]> H) n (put_l l s) /\
    on_b (bread dev bn) e s = Ok i e (put_l l s) /\
    forall A (k : nat -> list Z -> K fsstate A),
      (bp <- on_b (bread dev bn) ;; d <- get_data bp ;; k bp d) e s = k i (V bn) e (put_l l s).
Proof using HBC.
  intros Hf Ht Hn Hs. destruct (f_bread e s V H n bn) as (i & l & H1 & H2 & H3); auto.
  exists i, l. split; [done|]. split; [done|]. split; [done|]. intros A k.
  rewrite bind_eq, H1. cbn [rbind]. rewrite bind_eq, (f_data e (put_l l s) V _ _ i bn H3); [done|].
  apply lookup_insert_eq.
Qed.

Lemma bfree_run e s V H n b :
  fs_free e -> ftx (e_pid e) V H (S n) s -> layout start (fs_sb s) -> 0 <= b < sb_size (fs_sb s) ->
  (forall i, H !! i <> Some (BBLOCK b (fs_sb s))) -> (size H <= 3)%nat ->
  if inuse V (fs_sb s) b then
    exists e' l, bfree dev b e s = Ok tt e' (put_l l s) /\ later e e' /\
      ftx (e_pid e') (vset (BBLOCK b (fs_sb s)) (clear_bit (V (BBLOCK b (fs_sb s))) (b mod BPB)) V) H n (put_l l s)
  else bfree dev b e s = Panic "freeing free block".
Proof using HBC.
  intros Hf Ht Hla Hb Hn Hs. destruct (BBLOCK_eq start _ b Hla Hb) as [_ Hsm].
  set (bn := BBLOCK b (fs_sb s)) in *. unfold bfree.
  destruct (read_block e s V H (S n) bn) as (i & l & H2 & H3 & _ & Hrun); auto.
  assert (Hi : <[i := bn]> H !! i = Some bn) by apply lookup_insert_eq.
  unfold inuse. fold bn. rewrite bind_eq. kred. fold bn.
  rewrite Hrun.
  rewrite land_one by apply Z.mod_pos_bound, eq_refl. fold (bit (V bn) (b mod BPB)).
  destruct (bit (V bn) (b mod BPB)); cbn [negb]; [|done].
  destruct (write_release e (put_l l s) V _ n i bn (clear_bit (V bn) (b mod BPB)) Hf H3 Hi Hsm) as (l' & H4 & H5 & _).
  { by apply la_outside. }
  exists (add_woken [ChBufLock i] e), l'. split; [exact H5|]. split; [apply later_woken|].
  by rewrite delete_insert_id in H4.
Qed.

(** What makes a free block usable: it is not block 0, not part of the log or
    of the bitmap, and no buffer of it is held. *)
Definition free_ok (V : Z -> list Z) (H : gmap nat Z) (sb : superblock) : Prop :=
  forall c, 0 <= c < sb_size sb -> inuse V sb c = false ->
    c <> 0 /\ data_block start c /\ (forall i, H !! i <> Some c) /\
    (forall b, 0 <= b < sb_size sb -> c <> BBLOCK b sb).

(** The view after block [c] has been allocated. *)
Definition allocated (c : Z) (sb : superblock) (V : Z -> list Z) : Z -> list Z :=
  vset c (replicate BSIZE 0) (vset (BBLOCK c sb) (set_bit (V (BBLOCK c sb)) (c mod BPB)) V).

(** The outcome of a search that starts at block [b]: the first free block is
    allocated and zeroed, or there is none. *)
Definition balloc_post (e : env) (s : fsstate) V H n (b hi : Z) (r : option Z) (e' : env) (s' : fsstate) : Prop :=
  match r with
  | Some c => b <= c < hi /\ inuse V (fs_sb s) c = false /\ (forall c', b <= c' < c -> inuse V (fs_sb s) c' = true) /\
      later e e' /\ exists l, s' = put_l l s /\ ftx (e_pid e') (allocated c (fs_sb s) V) H n s'
  | None => forall c', b <= c' < hi -> inuse V (fs_sb s) c' = true
  end.

Lemma block_base b bi : b mod BPB = 0 -> 0 <= bi < BPB -> (b + bi) mod BPB = bi /\ (b + bi) / BPB = b / BPB.
Proof using. unfold BPB, BSIZE. intros. zdm. Qed.

Lemma balloc_bits_run k e s V H n b bi bp :
  fs_free e -> layout start (fs_sb s) -> free_ok V H (fs_sb s) ->
  0 <= b < sb_size (fs_sb s) -> b mod BPB = 0 -> 0 <= bi -> bi + Z.of_nat k = BPB ->
  H !! bp = None -> (size H <= 2)%nat ->
  ftx (e_pid e) V (<[bp := BBLOCK b (fs_sb s)]> H) (S (S n)) s ->
  exists r e' s', balloc_bits k dev b bi bp e s = Ok r e' s' /\
    balloc_post e s V H n (b + bi) (Z.min (b + BPB) (sb_size (fs_sb s))) r e' s' /\
    (r = None -> e' = e /\ s' = s).
Proof using HBC.
  intros Hf Hla Hfree Hb Hmod. set (bn := BBLOCK b (fs_sb s)). revert bi.
  induction k as [|k IH]; intros bi Hbi Hk Hbp Hs Ht; cbn [balloc_bits].
  - exists None, e, s. split; [done|]. split; [|done]. intros c' Hc'. lia.
  - rewrite bind_eq. kred. rewrite u32_small by (pose proof (la_size _ _ Hla); unfold BPB, BSIZE in *; lia).
    destruct (Z.ltb_spec (b + bi) (sb_size (fs_sb s))) as [Hlt|Hge]; cbn [negb].
    2: { exists None, e, s. split; [done|]. split; [|done]. intros c' Hc'. lia. }
    rewrite bind_eq, (f_data e s V _ _ bp bn Ht) by apply lookup_insert_eq. kred.
    destruct (block_base b bi Hmod) as [M1 M2]; [lia|].
    assert (Hbn : BBLOCK (b + bi) (fs_sb s) = bn) by (unfold bn, BBLOCK; by rewrite M2).
    rewrite land_one by apply Z.mod_pos_bound, eq_refl. fold (bit (V bn) bi).
    assert (Hin : inuse V (fs_sb s) (b + bi) = bit (V bn) bi) by (unfold inuse; by rewrite Hbn, M1).
    destruct (bit (V bn) bi) eqn:Hbit; cbn [negb].
    + destruct (IH (bi + 1)) as (r & e' & s' & H1 & H2 & H3); [lia|lia|done|done|done|].
      exists r, e', s'. rewrite H1. split; [done|]. split; [|done]. clear - H2 Hin Hbi Hlt Hk.
      destruct r as [c|]; cbn [balloc_post] in *.
      * destruct H2 as (? & ? & Hall & ?). split; [lia|]. split; [done|]. split; [|done].
        intros c' Hc'. destruct (decide (c' = b + bi)) as [->|]; [done|]. apply Hall. lia.
      * intros c' Hc'. destruct (decide (c' = b + bi)) as [->|]; [done|]. apply H2. lia.
    + destruct (Hfree (b + bi)) as (F1 & F2 & F3 & F4); [lia|done|].
      destruct (BBLOCK_eq start _ (b + bi) Hla ltac:(lia)) as [_ Hsm]. rewrite Hbn in Hsm.
      destruct (write_release e s V _ (S n) bp bn (set_bit (V bn) bi) Hf Ht) as (l1 & T1 & _ & W1).
      { apply lookup_insert_eq. }
      { done. }
      { rewrite <- Hbn. apply Hla. lia. }
      rewrite W1. rewrite delete_insert_id in T1 by done.
      destruct (bzero_run (add_woken [ChBufLock bp] e) (put_l l1 s) _ H n (b + bi) Hf T1) as (e2 & l2 & B1 & B2 & B3);
        [done|lia|pose proof (la_size _ _ Hla); lia|done|].
      rewrite bind_eq, B1. kred. eexists (Some (b + bi)), e2, (put_l l2 s). split; [done|]. split; [|done].
      cbn [balloc_post]. split; [unfold BPB, BSIZE in *; lia|]. split; [done|]. split; [intros; lia|].
      split; [apply (later_trans _ (add_woken [ChBufLock bp] e)); [apply later_woken|done]|].
      exists l2. split; [done|]. unfold allocated. by rewrite Hbn, M1.
Qed.

Lemma balloc_post_later e0 l0 e s V H n b hi c e' s' :
  later e e0 -> balloc_post e0 (put_l l0 s) V H n b hi (Some c) e' s' -> balloc_post e s V H n b hi (Some c) e' s'.
Proof using.
  intros Hl (H1 & H2 & H3 & H4 & l & -> & H5). split; [done|]. split; [done|]. split; [done|].
  split; [by apply (later_trans _ e0)|]. by exists l.
Qed.

(** The whole search; running out of blocks is reported on the console. *)
Lemma balloc_loop_run fuel e s V H n b :
  fs_free e -> layout start (fs_sb s) -> free_ok V H (fs_sb s) ->
  0 <= b -> b mod BPB = 0 -> sb_size (fs_sb s) - b <= BPB * Z.of_nat fuel ->
  (forall i c, H !! i = Some c -> forall b', 0 <= b' < sb_size (fs_sb s) -> c <> BBLOCK b' (fs_sb s)) ->
  (size H <= 2)%nat -> ftx (e_pid e) V H (S (S n)) s ->
  exists r e' s', balloc_loop fuel dev b e s = Ok (default 0 r) e' s' /\
    balloc_post e s V H n b (sb_size (fs_sb s)) r e' s' /\
    (r = None -> later e e' /\ exists l p, s' = put_p p (put_l l s) /\ ftx (e_pid e') V H (S (S n)) s').
Proof using HBC.
  revert e s b. induction fuel as [|fuel IH]; intros e s b Hf Hla Hfree Hb Hmod Hfuel Hheld Hs Ht;
    cbn [balloc_loop]; rewrite bind_eq; kred;
    (destruct (Z.ltb_spec b (sb_size (fs_sb s))) as [Hlt|Hge]; [try lia|
      exists None, e; eexists; split; [unfold on_p, printf, zoom; rewrite bind_eq; kred; reflexivity|]; split;
      [intros c' Hc'; lia|intros _; split; [apply later_refl|]; eexists (fs_l s), _; split; [by destruct s|done]]]).
  destruct (f_bread e s V H (S (S n)) (BBLOCK b (fs_sb s))) as (bp & l & R1 & R2 & R3); [done|done| |lia|].
  { intros i Hi. by apply (Hheld i _ Hi b). }
  rewrite bind_eq, R1. cbn [rbind].
  destruct (balloc_bits_run (Z.to_nat BPB) e (put_l l s) V H n b 0 bp) as (r & e1 & s1 & B1 & B2 & B3);
    try done.
  rewrite bind_eq, B1. cbn [rbind]. destruct r as [c|].
  - exists (Some c), e1, s1. split; [done|]. split; [|done]. apply (balloc_post_later e l); [apply later_refl|].
    destruct B2 as (P1 & P2). split; [cbn in P1 |- *; lia|]. by rewrite Z.add_0_r in P2.
  - destruct (B3 eq_refl) as [-> ->].
    destruct (f_brelse e (put_l l s) V _ (S (S n)) bp (BBLOCK b (fs_sb s)) Hf R3) as (l2 & K1 & K2);
      [apply lookup_insert_eq|]. rewrite bind_eq, K1. cbn [rbind]. rewrite delete_insert_id in K2 by done.
    destruct (IH (add_woken [ChBufLock bp] e) (put_l l2 s) (b + BPB)) as (r & e2 & s2 & I1 & I2 & I3); try done.
    + unfold BPB, BSIZE in *. lia.
    + unfold BPB, BSIZE in *. zdm.
    + cbn [fs_sb put_l]. lia.
    + exists r, e2, s2. split; [done|]. cbn [balloc_post] in B2. destruct r as [c|].
      * split; [|done]. apply (balloc_post_later (add_woken [ChBufLock bp] e) l2); [apply later_woken|].
        destruct I2 as (P1 & P2 & P3 & P4). cbn [fs_sb put_l] in *. split; [unfold BPB, BSIZE in *; cbn in *; lia|]. split; [done|].
        split; [|done]. intros c' Hc'. destruct (decide (c' < b + BPB)); [|apply P3; lia]. apply B2. lia.
      * split.
        -- cbn [balloc_post fs_sb put_l] in *. intros c' Hc'. destruct (decide (c' < b + BPB)); [|apply I2; lia].
           apply B2. lia.
        -- intros _. destruct (I3 eq_refl) as (Hl & l3 & p & -> & Hx). split; [|by exists l3, p].
           apply (later_trans _ (add_woken [ChBufLock bp] e)); [apply later_woken|done].
Qed.
End fstxn.

Lemma bit_set_if d bi bj :
  block_ok d -> 0 <= bi < BPB -> 0 <= bj < BPB -> bit (set_bit d bi) bj = if bj =? bi then true else bit d bj.
Proof. intros. rewrite bit_set by done. by destruct (bj =? bi). Qed.

Lemma bit_clear_if d bi bj :
  block_ok d -> 0 <= bi < BPB -> 0 <= bj < BPB -> bit (clear_bit d bi) bj = if bj =? bi then false else bit d bj.
Proof. intros. rewrite bit_clear by done. by destruct (bj =? bi). Qed.

(** In a transaction on device [dev] with the cache of bio.c: the contents of
    the blocks are [V], no buffer is held, [n] more blocks may be changed. *)
Definition in_txn (dev start : Z) (e : env) (V : Z -> list Z) (n : nat) (s : fsstate) : Prop :=
  ftx (dev := dev) (rep := babs dev) (start := start) (e_pid e) V ∅ n s.

Lemma free_ok_empty start V sb :
  (forall c, 0 <= c < sb_size sb -> inuse V sb c = false -> c <> 0 /\ data_block start c /\
     forall b, 0 <= b < sb_size sb -> c <> BBLOCK b sb) ->
  free_ok (start := start) V ∅ sb.
Proof. intros H c Hc Hu. destruct (H c Hc Hu) as (H1 & H2 & H3). by repeat split. Qed.

Lemma allocated_spec start sb V r :
  layout start sb -> 0 <= r < sb_size sb -> block_ok (V (BBLOCK r sb)) ->
  (forall b, 0 <= b < sb_size sb -> r <> BBLOCK b sb) ->
  allocated r sb V r = replicate BSIZE 0 /\
  (forall c, 0 <= c < sb_size sb -> inuse (allocated r sb V) sb c = if c =? r then true else inuse V sb c) /\
  (forall x, x <> r -> x <> BBLOCK r sb -> allocated r sb V x = V x).
Proof.
  intros Hla Hr Hok Hnb. unfold allocated. split; [apply vset_same|]. split.
  - intros c Hc.
    assert (Hbits : forall bj, 0 <= bj < BPB -> bit (set_bit (V (BBLOCK r sb)) (r mod BPB)) bj =
                      if bj =? r mod BPB then true else bit (V (BBLOCK r sb)) bj)
      by (intros; by apply bit_set_if; [| apply bmod_range|]).
    rewrite <- (inuse_update start sb V r c (fun d => set_bit d (r mod BPB)) true) by done.
    unfold inuse. rewrite vset_other; [done|]. intros He. by apply (Hnb c).
  - intros x Hx Hx'. by rewrite !vset_other.
Qed.

(** C27: balloc() is a first-fit allocator.  In a transaction with two blocks
    left to change, it returns without panicking or sleeping: 0, with the
    contents of all blocks unchanged, exactly when every block of the disk is
    in use; otherwise the least free block, which is now in use and zeroed,
    while every other bit of the bitmap and the contents of every other block
    are as before. *)
Theorem balloc_correct dev start e V n s :
  dev <> 0 -> fs_free e -> in_txn dev start e V (S (S n)) s -> layout start (fs_sb s) ->
  (forall b, 0 <= b < sb_size (fs_sb s) -> block_ok (V (BBLOCK b (fs_sb s)))) ->
  (forall c, 0 <= c < sb_size (fs_sb s) -> inuse V (fs_sb s) c = false -> c <> 0 /\ data_block start c /\
     forall b, 0 <= b < sb_size (fs_sb s) -> c <> BBLOCK b (fs_sb s)) ->
  exists r e' s', balloc dev e s = Ok r e' s' /\ fs_inodes s' = fs_inodes s /\
    ((r = 0 /\ (forall c, 0 <= c < sb_size (fs_sb s) -> inuse V (fs_sb s) c = true) /\
      in_txn dev start e' V (S (S n)) s') \/
     (0 < r < sb_size (fs_sb s) /\ inuse V (fs_sb s) r = false /\
      (forall c, 0 <= c < r -> inuse V (fs_sb s) c = true) /\
      exists V', in_txn dev start e' V' n s' /\ V' r = replicate BSIZE 0 /\
        (forall c, 0 <= c < sb_size (fs_sb s) ->
           inuse V' (fs_sb s) c = if c =? r then true else inuse V (fs_sb s) c) /\
        (forall x, x <> r -> x <> BBLOCK r (fs_sb s) -> V' x = V x))).
Proof.
  intros Hd Hf Ht Hla Hok Hfree. pose proof (bio_cache dev Hd) as HBC. pose proof (la_size _ _ Hla) as Hsz.
  destruct (balloc_loop_run (dev := dev) (rep := babs dev) (start := start)
    (Z.to_nat ((sb_size (fs_sb s) + BPB - 1) / BPB)) e s V ∅ n 0) as (r & e' & s' & H1 & H2 & H3); try done.
  - by apply free_ok_empty.
  - unfold BPB, BSIZE in *. zdm.
  - rewrite map_size_empty. lia.
  - exists (default 0 r), e', s'. unfold balloc. rewrite bind_eq. kred. split; [exact H1|].
    destruct r as [c|]; cbn [default from_option id].
    + destruct H2 as (P1 & P2 & P3 & P4 & l & -> & P5). split; [done|]. right.
      destruct (Hfree c P1 P2) as (F1 & F2 & F3). split; [lia|]. split; [done|]. split; [done|].
      exists (allocated c (fs_sb s) V). split; [exact P5|]. apply (allocated_spec start); auto.
    + destruct (H3 eq_refl) as (Hl & l & p & -> & Hx). split; [done|]. left. done.
Qed.

(** bfree() undoes an allocation.  For a block in use it clears that
    block's bit, leaves every other bit and every other block as they were
    and returns; freeing a free block panics. *)
Theorem bfree_correct dev start e V n s b :
  dev <> 0 -> fs_free e -> in_txn dev start e V (S n) s -> layout start (fs_sb s) ->
  0 <= b < sb_size (fs_sb s) -> block_ok (V (BBLOCK b (fs_sb s))) ->
  if inuse V (fs_sb s) b then
    exists e' s' V', bfree dev b e s = Ok tt e' s' /\ in_txn dev start e' V' n s' /\
      (forall c, 0 <= c < sb_size (fs_sb s) ->
         inuse V' (fs_sb s) c = if c =? b then false else inuse V (fs_sb s) c) /\
      (forall x, x <> BBLOCK b (fs_sb s) -> V' x = V x)
  else bfree dev b e s = Panic "freeing free block".
Proof.
  intros Hd Hf Ht Hla Hb Hok. pose proof (bio_cache dev Hd) as HBC.
  pose proof (bfree_run (dev := dev) (rep := babs dev) (start := start) e s V ∅ n b) as Hr.
  destruct (inuse V (fs_sb s) b); [|apply Hr; try done; rewrite map_size_empty; lia].
  destruct Hr as (e' & l & H1 & H2 & H3); [done..|rewrite map_size_empty; lia|].
  eexists e', (put_l l s), _. split; [exact H1|]. split; [exact H3|]. split.
  - intros c Hc. apply (inuse_update start (fs_sb s) V b c (fun d => clear_bit d (b mod BPB)) false); try done.
    intros. apply bit_clear_if; [done|apply bmod_range|done].
  - intros x Hx. by apply vset_other.
Qed.

(** ** Witnesses: a disk of 100 blocks, the bitmap in block 45 *)

Definition demo_sb : superblock := mkSuperblock FSMAGIC 100 54 200 30 2 32 45.
Definition demo_bitmap (x : Z) : list Z := replicate 7 255 ++ [x] ++ replicate (BSIZE - 8) 0.
Definition demo_disk (x : Z) : disk := mkDisk {[ 45 := demo_bitmap x ]} [].
Definition demo_fs_env : env := mkEnv 0 7 false [] [] 0.

Lemma demo_fs_free : fs_free demo_fs_env.
Proof. split; [split|]; intros; apply not_elem_of_nil. Qed.

Lemma demo_layout : layout 2 demo_sb.
Proof.
  split; try done. intros b Hb. cbn in Hb. right. unfold BBLOCK, LOGSIZE, MAXOPBLOCKS, BPB, BSIZE, demo_sb.
  cbn [sb_bmapstart]. rewrite u32_small; zdm.
Qed.

(** The transaction that has just begun on that disk. *)
Lemma demo_txn d ps ino :
  exists s, in_txn 1 2 demo_fs_env (disk_read d) 10 s /\ fs_sb s = demo_sb /\ fs_p s = ps /\ fs_inodes s = ino.
Proof.
  destruct (binit_run d demo_fs_env) as (t & _ & Hst & _ & Hdk & HF).
  pose proof (fresh_rep 1 7 t d ltac:(done) Hst Hdk HF) as Hrep.
  exists (mkFsstate ps (mkLstate t (mkLog 2 30 1 false 1 0 (replicate 30 0))) demo_sb ino). split; [|done].
  exists [], (fresh d). split; split; try done.
  - constructor.
  - apply Nat.leb_le. by vm_compute.
Qed.

Lemma demo_bitmap_ok x b : 0 <= x < 256 -> 0 <= b < 100 -> block_ok (disk_read (demo_disk x) (BBLOCK b demo_sb)).
Proof.
  intros Hx Hb. assert (BBLOCK b demo_sb = 45) as ->.
  { unfold BBLOCK, demo_sb, BPB, BSIZE. cbn [sb_bmapstart]. rewrite u32_small; zdm. }
  unfold disk_read, demo_disk. cbn [d_blocks]. rewrite lookup_singleton_eq. cbn [default from_option id]. split; [done|].
  apply Forall_app. split; [apply Forall_replicate; lia|]. apply Forall_cons. split; [done|apply Forall_replicate; lia].
Qed.

Lemma demo_inuse c : 0 <= c < 100 -> inuse (disk_read (demo_disk 15)) demo_sb c = (c <? 60).
Proof.
  intros Hc. assert (HF : Forall (fun c => inuse (disk_read (demo_disk 15)) demo_sb c = (c <? 60)) (seqZ 0 100)).
  { apply (bool_decide_unpack (Forall _ _)). by vm_compute. }
  rewrite Forall_forall in HF. apply HF, elem_of_seqZ. lia.
Qed.

Lemma balloc_correct_witness :
  exists s r e' s', in_txn 1 2 demo_fs_env (disk_read (demo_disk 15)) 10 s /\
    balloc 1 demo_fs_env s = Ok r e' s' /\ r = 60.
Proof.
  destruct (demo_txn (demo_disk 15) (mkPstate [] 1 None [] 0 SCHED_FCFS [] (mkKmem 0 ∅)) []) as (s & Ht & Hsb & _).
  destruct (balloc_correct 1 2 demo_fs_env (disk_read (demo_disk 15)) 8 s) as (r & e' & s' & H1 & _ & H2).
  - done.
  - exact demo_fs_free.
  - exact Ht.
  - rewrite Hsb. exact demo_layout.
  - rewrite Hsb. intros b Hb. by apply demo_bitmap_ok.
  - rewrite Hsb. intros c Hc. change (sb_size demo_sb) with 100 in *. rewrite demo_inuse by done.
    intros Hlt%Z.ltb_ge. split; [lia|]. split; [right; unfold LOGSIZE, MAXOPBLOCKS; lia|]. intros b Hb.
    unfold BBLOCK, demo_sb, BPB, BSIZE. cbn [sb_bmapstart]. rewrite u32_small; zdm.
  - exists s, r, e', s'. split; [exact Ht|]. split; [exact H1|]. rewrite Hsb in H2. change (sb_size demo_sb) with 100 in H2.
    destruct H2 as [(_ & Hall & _)|(Hr & Hu & Hall & _)].
    + specialize (Hall 60 ltac:(lia)). by rewrite demo_inuse in Hall by lia.
    + rewrite demo_inuse in Hu by lia. apply Z.ltb_ge in Hu. destruct (decide (60 < r)) as [Hlt|]; [|lia].
      specialize (Hall 60 ltac:(lia)). by rewrite demo_inuse in Hall by lia.
Defined.

Lemma bfree_correct_witness :
  exists s e' s' V', bfree 1 59 demo_fs_env s = Ok tt e' s' /\ in_txn 1 2 e' V' 9 s' /\
    inuse V' demo_sb 59 = false /\ inuse V' demo_sb 58 = true.
Proof.
  destruct (demo_txn (demo_disk 15) (mkPstate [] 1 None [] 0 SCHED_FCFS [] (mkKmem 0 ∅)) []) as (s & Ht & Hsb & _).
  pose proof (bfree_correct 1 2 demo_fs_env (disk_read (demo_disk 15)) 9 s 59) as Hb. rewrite Hsb in Hb.
  rewrite demo_inuse in Hb by lia. cbn [Z.ltb Z.compare Pos.compare Pos.compare_cont] in Hb.
  destruct Hb as (e' & s' & V' & H1 & H2 & H3 & _).
  - done.
  - exact demo_fs_free.
  - exact Ht.
  - exact demo_layout.
  - cbn. lia.
  - apply demo_bitmap_ok; lia.
  - exists s, e', s', V'. split; [exact H1|]. split; [exact H2|]. change (sb_size demo_sb) with 100 in H3.
    split; rewrite H3 by lia; [done|]. by rewrite demo_inuse by lia.
Defined.
