(* ===== verification/InodeSpec.v ===== *)
(** * Inodes on disk and in memory

    iupdate() encodes an inode into its place in an inode block and ilock()
    decodes it; the inode table has at most one entry per inode. *)

From S2P Require Import Prelude KMonad CString Sleeplock Bio BioSpec BioAbs Log LogSpec LogCrash LogOps.
From S2P Require Import Txn Riscv Kalloc Vm Proc Fs FsSpec.
Open Scope kmonad_scope.

(** ** Slices of byte arrays *)

Definition slice (d : list Z) (off n : nat) : list Z := take n (drop off d).

Lemma slice_put_in d off bs k n :
  (off + length bs <= length d)%nat -> (k + n <= length bs)%nat ->
  slice (put_at d (Z.of_nat off) bs) (off + k) n = slice bs k n.
Proof.
  intros Hd Hk. unfold slice, put_at. rewrite Nat2Z.id. rewrite drop_app_ge by (rewrite length_take; lia).
  rewrite length_take, Nat.min_l by lia. replace (off + k - off)%nat with k by lia.
  rewrite drop_app_le by lia. rewrite take_app_le by (rewrite length_drop; lia). done.
Qed.

Lemma slice_put_out d off bs k n :
  (off + length bs <= length d)%nat -> (k + n <= off \/ off + length bs <= k)%nat ->
  slice (put_at d (Z.of_nat off) bs) k n = slice d k n.
Proof.
  intros Hd Hk. unfold slice, put_at. rewrite Nat2Z.id. destruct Hk as [Hk|Hk].
  - rewrite drop_app_le by (rewrite length_take; lia). rewrite take_app_le by (rewrite length_drop, length_take; lia).
    rewrite skipn_firstn_comm, take_take. f_equal. lia.
  - rewrite drop_app_ge by (rewrite length_take; lia). rewrite length_take, Nat.min_l by lia.
    rewrite drop_app_ge by lia. rewrite drop_drop. do 2 f_equal. lia.
Qed.

Lemma slice_app_r l1 l2 k n : slice (l1 ++ l2) (length l1 + k) n = slice l2 k n.
Proof. unfold slice. rewrite drop_app_ge by lia. do 2 f_equal. lia. Qed.

Lemma slice_app_l l1 l2 : slice (l1 ++ l2) 0 (length l1) = l1.
Proof. unfold slice. by rewrite drop_0, take_app_length. Qed.

(** ** The disk inode *)

Record dinode : Set := mkDinode {
  di_type : Z; di_major : Z; di_minor : Z; di_nlink : Z; di_size : Z; di_addrs : list Z
}.

Definition decode_dinode (d : list Z) (off : Z) : dinode :=
  mkDinode (get_i16 d off) (get_i16 d (off + 2)) (get_i16 d (off + 4)) (get_i16 d (off + 6))
    (get_u32 d (off + 8)) (get_addrs d (off + 12)).

Definition fields (x : inode) : dinode :=
  mkDinode (i_type x) (i_major x) (i_minor x) (i_nlink x) (i_size x) (i_addrs x).

(** The C types of the fields. *)
Record fields_ok (f : dinode) : Prop := {
  fo_type : - 2 ^ 15 <= di_type f < 2 ^ 15;
  fo_major : - 2 ^ 15 <= di_major f < 2 ^ 15;
  fo_minor : - 2 ^ 15 <= di_minor f < 2 ^ 15;
  fo_nlink : - 2 ^ 15 <= di_nlink f < 2 ^ 15;
  fo_size : 0 <= di_size f < 2 ^ 32;
  fo_addrs : length (di_addrs f) = 13%nat /\ Forall (fun a => 0 <= a < 2 ^ 32) (di_addrs f)
}.

Lemma i16_bytes v : - 2 ^ 15 <= v < 2 ^ 15 -> i16 (le_val (le_bytes 2 v)) = v.
Proof. intros Hv. rewrite le_val_bytes. unfold i16. change (256 ^ Z.of_nat 2) with (2 ^ 16). zdm. Qed.

Lemma u32_bytes v : 0 <= v < 2 ^ 32 -> le_val (le_bytes 4 v) = v.
Proof. intros Hv. rewrite le_val_bytes. by apply Z.mod_small. Qed.

Lemma length_addrs_bytes l : length (addrs_bytes l) = (4 * length l)%nat.
Proof.
  induction l as [|a l IH]; [done|]. change (addrs_bytes (a :: l)) with (le_bytes 4 a ++ addrs_bytes l).
  rewrite length_app, length_le_bytes, IH. cbn [length]. lia.
Qed.

Lemma slice_addrs l j a : l !! j = Some a -> slice (addrs_bytes l) (4 * j) 4 = le_bytes 4 a.
Proof.
  revert j. induction l as [|b l IH]; intros j; [done|]. destruct j as [|j]; cbn [lookup list_lookup].
  - intros [= ->]. apply (slice_app_l (le_bytes 4 a)).
  - intros Hj. replace (4 * S j)%nat with (length (le_bytes 4 b) + 4 * j)%nat by (rewrite length_le_bytes; lia).
    change (addrs_bytes (b :: l)) with (le_bytes 4 b ++ addrs_bytes l). rewrite slice_app_r. by apply IH.
Qed.

Lemma length_dinode_bytes x : length (i_addrs x) = 13%nat -> length (dinode_bytes x) = 64%nat.
Proof.
  intros Hl. unfold dinode_bytes. rewrite !length_app, !length_le_bytes, length_addrs_bytes, Hl. done.
Qed.

Lemma get_u32_slice d o k : get_u32 d (Z.of_nat o + Z.of_nat k) = le_val (slice d (o + k) 4).
Proof. unfold get_u32. rewrite <- Nat2Z.inj_add, Nat2Z.id. done. Qed.

Lemma get_i16_slice d o k : get_i16 d (Z.of_nat o + Z.of_nat k) = i16 (le_val (slice d (o + k) 2)).
Proof. unfold get_i16, get_u16. rewrite <- Nat2Z.inj_add, Nat2Z.id. done. Qed.

(** Decoding in terms of slices. *)
Lemma decode_slices d o :
  decode_dinode d (Z.of_nat o) =
    mkDinode (i16 (le_val (slice d (o + 0) 2))) (i16 (le_val (slice d (o + 2) 2)))
      (i16 (le_val (slice d (o + 4) 2))) (i16 (le_val (slice d (o + 6) 2)))
      (le_val (slice d (o + 8) 4)) (map (fun j => le_val (slice d (o + (12 + 4 * j)) 4)) (seq 0 13)).
Proof.
  unfold decode_dinode. f_equal.
  - rewrite <- get_i16_slice. f_equal. lia.
  - apply (get_i16_slice d o 2).
  - apply (get_i16_slice d o 4).
  - apply (get_i16_slice d o 6).
  - apply (get_u32_slice d o 8).
  - unfold get_addrs. apply map_ext. intros j. rewrite <- get_u32_slice. f_equal. lia.
Qed.

Lemma decode_put_same d o x :
  (o + 64 <= length d)%nat -> fields_ok (fields x) ->
  decode_dinode (put_at d (Z.of_nat o) (dinode_bytes x)) (Z.of_nat o) = fields x.
Proof.
  intros Hd [H1 H2 H3 H4 H5 [H6 H7]]. cbn [di_type di_major di_minor di_nlink di_size di_addrs fields] in *. pose proof (length_dinode_bytes x H6) as Hl.
  rewrite decode_slices. unfold fields. rewrite !slice_put_in by lia. f_equal.
  - by apply i16_bytes.
  - by apply i16_bytes.
  - by apply i16_bytes.
  - by apply i16_bytes.
  - by apply u32_bytes.
  - apply list_eq_same_length with (n := 13%nat); [done|by rewrite length_map, length_seq|].
    intros j a b Hj Ha Hb. rewrite list_lookup_fmap, lookup_seq_lt in Ha by lia. injection Ha as <-.
    change (0 + j)%nat with j. rewrite slice_put_in by lia.
    assert (Hs : slice (dinode_bytes x) (12 + 4 * j) 4 = slice (addrs_bytes (i_addrs x)) (4 * j) 4).
    { exact (slice_app_r (le_bytes 2 (i_type x) ++ le_bytes 2 (i_major x) ++ le_bytes 2 (i_minor x) ++
        le_bytes 2 (i_nlink x) ++ le_bytes 4 (i_size x)) (addrs_bytes (i_addrs x)) (4 * j) 4). }
    etransitivity; [exact (f_equal le_val Hs)|]. rewrite (slice_addrs _ _ b) by done. apply u32_bytes.
    by apply (Forall_lookup_1 _ _ _ _ H7 Hb).
Qed.

Lemma decode_put_other d o o' bs :
  (o + 64 <= length d)%nat -> length bs = 64%nat -> (o' + 64 <= o \/ o + 64 <= o')%nat ->
  decode_dinode (put_at d (Z.of_nat o) bs) (Z.of_nat o') = decode_dinode d (Z.of_nat o').
Proof.
  intros Hd Hl Ho. rewrite !decode_slices. rewrite !slice_put_out by lia. f_equal.
  apply map_ext_in. intros j Hj%in_seq. f_equal. apply slice_put_out; lia.
Qed.

(** ** iupdate() and ilock() *)

Definition on_disk (V : Z -> list Z) (sb : superblock) (inum : Z) : dinode :=
  decode_dinode (V (IBLOCK inum sb)) (inum mod IPB * sizeof_dinode).

Record ilayout (start : Z) (sb : superblock) : Prop := {
  il_n : 0 <= sb_ninodes sb < 2 ^ 31;
  il_start : 0 <= sb_inodestart sb;
  il_small : sb_inodestart sb + sb_ninodes sb / IPB < 2 ^ 31;
  il_outside : forall i, 0 <= i < sb_ninodes sb -> data_block start (IBLOCK i sb)
}.

Lemma IBLOCK_eq start sb i :
  ilayout start sb -> 0 <= i < sb_ninodes sb ->
  IBLOCK i sb = i / IPB + sb_inodestart sb /\ 0 <= IBLOCK i sb < 2 ^ 31.
Proof.
  intros [H1 H2 H3 _] Hi. unfold IBLOCK.
  change IPB with 16 in *. assert (0 <= i / 16 <= sb_ninodes sb / 16) by zdm.
  rewrite u32_small by lia. lia.
Qed.

(** The place of an inode in its block. *)
Lemma inode_offset i :
  exists o, i mod IPB * sizeof_dinode = Z.of_nat o /\ (o + 64 <= BSIZE)%nat.
Proof.
  exists (Z.to_nat (i mod IPB * sizeof_dinode)). change IPB with 16. unfold sizeof_dinode, BSIZE.
  pose proof (Z.mod_pos_bound i 16 eq_refl). lia.
Qed.

(** Storing one inode changes that one only. *)
Lemma on_disk_update start sb V i i' x :
  ilayout start sb -> 0 <= i < sb_ninodes sb -> 0 <= i' < sb_ninodes sb ->
  length (V (IBLOCK i sb)) = BSIZE -> fields_ok (fields x) ->
  on_disk (vset (IBLOCK i sb) (put_at (V (IBLOCK i sb)) (i mod IPB * sizeof_dinode) (dinode_bytes x)) V) sb i' =
    if i' =? i then fields x else on_disk V sb i'.
Proof.
  intros Hla Hi Hi' Hl Hx. unfold on_disk. destruct (inode_offset i) as (o & Ho & Hob).
  destruct (decide (IBLOCK i' sb = IBLOCK i sb)) as [He|Hne].
  - rewrite He, vset_same, Ho. destruct (Z.eqb_spec i' i) as [->|Hne].
    + rewrite Ho. apply decode_put_same; [lia|done].
    + destruct (inode_offset i') as (o' & Ho' & Hob'). rewrite Ho'. apply decode_put_other; [lia| |].
      * apply length_dinode_bytes. apply (fo_addrs _ Hx).
      * destruct (IBLOCK_eq start sb i Hla Hi) as [E1 _], (IBLOCK_eq start sb i' Hla Hi') as [E2 _].
        rewrite E1, E2 in He. change IPB with 16 in *. unfold sizeof_dinode in *. zdm.
  - rewrite vset_other by done. destruct (Z.eqb_spec i' i) as [->|]; done.
Qed.

Section inodes.
Context {dev : Z} {rep : Z -> bstate -> cabs -> Prop} `{HBC : !BlockCache dev rep} {start : Z}.
Abbreviation ftx := (ftx (dev := dev) (rep := rep) (start := start)).

Lemma iupdate_run e s V H n ip :
  fs_free e -> ftx (e_pid e) V H (S n) s -> ilayout start (fs_sb s) ->
  i_dev (nth_inode ip s) = dev -> 0 <= i_inum (nth_inode ip s) < sb_ninodes (fs_sb s) ->
  let bn := IBLOCK (i_inum (nth_inode ip s)) (fs_sb s) in
  (forall i, H !! i <> Some bn) -> (size H <= 3)%nat ->
  exists e' l, iupdate ip e s = Ok tt e' (put_l l s) /\ later e e' /\
    ftx (e_pid e') (vset bn (put_at (V bn) (i_inum (nth_inode ip s) mod IPB * sizeof_dinode)
                                    (dinode_bytes (nth_inode ip s))) V) H n (put_l l s).
Proof using HBC.
  intros Hf Ht Hla Hdev Hin bn Hn Hs. destruct (IBLOCK_eq start _ _ Hla Hin) as [_ Hsm]. fold bn in Hsm.
  unfold iupdate, geti. rewrite bind_eq. kred. rewrite bind_eq. kred. rewrite Hdev. fold bn.
  destruct (read_block (dev := dev) (rep := rep) (start := start) e s V H (S n) bn) as (i & l & H2 & H3 & _ & Hrun); auto.
  rewrite Hrun, bind_eq. kred. change (nth_inode ip (put_l l s)) with (nth_inode ip s).
  destruct (write_release (dev := dev) (rep := rep) (start := start) e (put_l l s) V _ n i bn
    (put_at (V bn) (i_inum (nth_inode ip s) mod IPB * sizeof_dinode) (dinode_bytes (nth_inode ip s))) Hf H3)
    as (l' & H4 & H5 & _); [apply lookup_insert_eq|done|by apply Hla|].
  exists (add_woken [ChBufLock i] e), l'. split; [exact H5|]. split; [apply later_woken|].
  by rewrite delete_insert_id in H4.
Qed.

(** The inode as ilock() leaves it. *)
Definition loaded (f : dinode) (x : inode) : inode :=
  mkInode (i_dev x) (i_inum x) (i_ref x) (i_lock x) true (di_type f) (di_major f) (di_minor f) (di_nlink f)
    (di_size f) (di_addrs f).

Lemma put_l_upd l i f s : put_l l (upd_inode i f s) = upd_inode i f (put_l l s).
Proof using. done. Qed.

Lemma upd_inode_twice i f g s : upd_inode i f (upd_inode i g s) = upd_inode i (fun x => f (g x)) s.
Proof using. unfold upd_inode. cbn. by rewrite list_alter_twice. Qed.

Lemma nth_upd_inode i f s : (i < length (fs_inodes s))%nat -> nth_inode i (upd_inode i f s) = f (nth_inode i s).
Proof using. apply list_lookup_total_alter_eq. Qed.

Lemma upd_inode_ext i f g s :
  f (nth_inode i s) = g (nth_inode i s) -> upd_inode i f s = upd_inode i g s.
Proof using. intros Hfg. unfold upd_inode. f_equal. by apply list_alter_ext. Qed.

Lemma inode_lens i s : (i < length (fs_inodes s))%nat -> lens_at (inode_lock i) (put_inode_lock i) s.
Proof using.
  intros Hi. split; intros.
  - unfold inode_lock, put_inode_lock. by rewrite nth_upd_inode.
  - unfold put_inode_lock. rewrite upd_inode_twice. done.
Qed.

Lemma ilock_run e s V H n ip :
  fs_free e -> LkInode ip ∉ e_held e -> ftx (e_pid e) V H n s ->
  (ip < length (fs_inodes s))%nat -> 1 <= i_ref (nth_inode ip s) ->
  sl_locked (i_lock (nth_inode ip s)) = false -> i_valid (nth_inode ip s) = false ->
  i_dev (nth_inode ip s) = dev ->
  let bn := IBLOCK (i_inum (nth_inode ip s)) (fs_sb s) in
  let f := on_disk V (fs_sb s) (i_inum (nth_inode ip s)) in
  di_type f <> 0 -> (forall i, H !! i <> Some bn) -> (size H <= 3)%nat ->
  exists e' l, ilock (Some ip) e s =
      Ok tt e' (upd_inode ip (fun x => set_ilock (mkSleeplock true (e_pid e)) (loaded f x)) (put_l l s)) /\
    later e e' /\ ftx (e_pid e') V H n (put_l l s).
Proof using HBC.
  intros Hf Hlk Ht Hip Href Hfree Hval Hdev bn f Hty Hn Hs. unfold ilock.
  rewrite bind_eq. unfold geti at 1. kred. destruct (Z.ltb_spec (i_ref (nth_inode ip s)) 1); [lia|].
  unfold lock_inode. rewrite bind_eq, acquiresleep_free; [|by apply inode_lens|done|done]. cbn [rbind].
  set (s1 := put_inode_lock ip (mkSleeplock true (e_pid e)) s).
  assert (Hx1 : nth_inode ip s1 = set_ilock (mkSleeplock true (e_pid e)) (nth_inode ip s)) by (by apply nth_upd_inode).
  rewrite bind_eq. unfold geti at 1. kred. rewrite Hx1. cbn [i_valid set_ilock i_dev i_inum]. rewrite Hval, Hdev.
  rewrite bind_eq. kred. change (fs_sb s1) with (fs_sb s). fold bn.
  destruct (read_block (dev := dev) (rep := rep) (start := start) e s1 V H n bn) as (i & l & H2 & H3 & _ & Hrun); auto.
  rewrite Hrun. unfold modi. do 6 (rewrite bind_eq; kred).
  set (s2 := upd_inode ip _ _). 
  destruct (f_brelse (dev := dev) (rep := rep) (start := start) e s2 V _ n i bn Hf H3) as (l2 & H4 & H5);
    [apply lookup_insert_eq|]. rewrite bind_eq, H4. cbn [rbind]. rewrite bind_eq. kred.
  rewrite delete_insert_id in H5 by done.
  assert (Hs2 : upd_inode ip (set_ivalid true) (put_l l2 s2) =
    upd_inode ip (fun x => set_ilock (mkSleeplock true (e_pid e)) (loaded f x)) (put_l l2 s)).
  { unfold s2, s1, put_inode_lock.
    rewrite !put_l_upd, ?put_l_twice, !upd_inode_twice.
    by apply upd_inode_ext. }
  rewrite Hs2. rewrite bind_eq. unfold geti. kred. rewrite nth_upd_inode by done.
  cbn [i_type loaded set_ilock]. destruct (Z.eqb_spec (di_type f) 0); [done|].
  eexists _, l2. split; [done|]. split; [apply later_woken|done].
Qed.
End inodes.

(** C22: an inode survives the way to the disk and back.  iupdate() of a table
    entry with fields of their C types returns with a view in which the
    inode's place holds exactly these fields, every other inode is as it was
    and no block but the inode's has changed.  From then on, in any
    transaction with that view, ilock() of an entry for the same inode that
    has not been read yet, whichever slot of the table it is in, locks it for
    the caller and loads exactly these fields. *)
Theorem inode_roundtrip dev start e V n s ip :
  dev <> 0 -> fs_free e -> in_txn dev start e V (S n) s -> ilayout start (fs_sb s) ->
  i_dev (nth_inode ip s) = dev -> 0 <= i_inum (nth_inode ip s) < sb_ninodes (fs_sb s) ->
  length (V (IBLOCK (i_inum (nth_inode ip s)) (fs_sb s))) = BSIZE ->
  fields_ok (fields (nth_inode ip s)) -> i_type (nth_inode ip s) <> 0 ->
  exists e' s' V', iupdate ip e s = Ok tt e' s' /\ in_txn dev start e' V' n s' /\ fs_inodes s' = fs_inodes s /\
    (forall i, 0 <= i < sb_ninodes (fs_sb s) -> on_disk V' (fs_sb s) i =
       if i =? i_inum (nth_inode ip s) then fields (nth_inode ip s) else on_disk V (fs_sb s) i) /\
    (forall b, b <> IBLOCK (i_inum (nth_inode ip s)) (fs_sb s) -> V' b = V b) /\
    (forall e2 s2 m jp, fs_free e2 -> LkInode jp ∉ e_held e2 -> in_txn dev start e2 V' m s2 ->
       fs_sb s2 = fs_sb s -> (jp < length (fs_inodes s2))%nat -> i_dev (nth_inode jp s2) = dev ->
       i_inum (nth_inode jp s2) = i_inum (nth_inode ip s) -> 1 <= i_ref (nth_inode jp s2) ->
       sl_locked (i_lock (nth_inode jp s2)) = false -> i_valid (nth_inode jp s2) = false ->
       exists e3 s3, ilock (Some jp) e2 s2 = Ok tt e3 s3 /\ in_txn dev start e3 V' m s3 /\
         fields (nth_inode jp s3) = fields (nth_inode ip s) /\ i_valid (nth_inode jp s3) = true /\
         i_lock (nth_inode jp s3) = mkSleeplock true (e_pid e2)).
Proof.
  intros Hd Hf Ht Hla Hdev Hin Hlen Hok Hty. pose proof (bio_cache dev Hd) as HBC.
  destruct (iupdate_run (dev := dev) (rep := babs dev) (start := start) e s V ∅ n ip) as (e' & l & H1 & H2 & H3);
    try done; [rewrite map_size_empty; lia|].
  eexists e', (put_l l s), _. split; [exact H1|]. split; [exact H3|]. split; [done|].
  assert (Hview := fun i' Hi' => on_disk_update start (fs_sb s) V _ i' (nth_inode ip s) Hla Hin Hi' Hlen Hok).
  split; [exact Hview|]. split; [intros b Hb; by apply vset_other|].
  intros e2 s2 m jp Hf2 Hlk Ht2 Hsb Hjp Hdev2 Hnum Href Hfree Hval.
  destruct (ilock_run (dev := dev) (rep := babs dev) (start := start) e2 s2 _ ∅ m jp Hf2 Hlk Ht2) as (e3 & l3 & K1 & K2 & K3);
    try done; rewrite ?Hsb, ?Hnum, ?Hview, ?Z.eqb_refl by done; try done; [rewrite map_size_empty; lia|].
  eexists e3, _. split; [exact K1|]. split; [exact K3|]. rewrite nth_upd_inode by done.
  rewrite Hsb, Hnum, Hview, Z.eqb_refl by done. split; [by destruct (nth_inode ip s)|done].
Qed.

Definition demo_inode (ref : Z) (valid : bool) : inode :=
  mkInode 1 5 ref initsleeplock valid T_DEVICE (-1) 7 1 4000000000 (seqZ 50 13).

Lemma demo_fields_ok ref valid : fields_ok (fields (demo_inode ref valid)).
Proof.
  unfold fields, demo_inode, T_DEVICE.
  split; cbn [di_type di_major di_minor di_nlink di_size di_addrs i_type i_major i_minor i_nlink i_size i_addrs];
    [lia..|]. split; [done|]. rewrite Forall_forall. intros a Ha%elem_of_seqZ. lia.
Qed.

Lemma demo_ilayout : ilayout 2 demo_sb.
Proof.
  split; try done. intros i Hi. cbn in Hi. right. unfold IBLOCK, LOGSIZE, MAXOPBLOCKS. change IPB with 16. cbn [demo_sb sb_inodestart].
  rewrite u32_small; zdm.
Qed.

Lemma inode_roundtrip_witness :
  exists s e' s' V', iupdate 0 demo_fs_env s = Ok tt e' s' /\ in_txn 1 2 e' V' 9 s' /\
    on_disk V' demo_sb 5 = fields (demo_inode 1 true) /\
    forall s2, in_txn 1 2 demo_fs_env V' 9 s2 -> fs_sb s2 = demo_sb -> fs_inodes s2 = [inode0; demo_inode 1 false] ->
      exists e3 s3, ilock (Some 1%nat) demo_fs_env s2 = Ok tt e3 s3 /\ i_major (nth_inode 1 s3) = -1.
Proof.
  destruct (demo_txn (mkDisk ∅ []) (mkPstate [] 1 None [] 0 SCHED_FCFS [] (mkKmem 0 ∅)) [demo_inode 1 true])
    as (s & Ht & Hsb & _ & Hino).
  assert (Hx : nth_inode 0 s = demo_inode 1 true) by (unfold nth_inode; by rewrite Hino).
  destruct (inode_roundtrip 1 2 demo_fs_env (disk_read (mkDisk ∅ [])) 9 s 0) as (e' & s' & V' & H1 & H2 & _ & H3 & _ & H4).
  - done.
  - exact demo_fs_free.
  - exact Ht.
  - rewrite Hsb. exact demo_ilayout.
  - by rewrite Hx.
  - rewrite Hx, Hsb. cbn. lia.
  - done.
  - rewrite Hx. apply demo_fields_ok.
  - by rewrite Hx.
  - exists s, e', s', V'. rewrite Hsb, Hx in H3. specialize (H3 5 ltac:(cbn; lia)).
    split; [exact H1|]. split; [exact H2|]. split; [exact H3|]. intros s2 T2 S2 I2.
    assert (Hx2 : nth_inode 1 s2 = demo_inode 1 false) by (unfold nth_inode; by rewrite I2).
    destruct (H4 demo_fs_env s2 9%nat 1%nat demo_fs_free (not_elem_of_nil _) T2) as (e3 & s3 & K1 & _ & K2 & _).
    + by rewrite S2, Hsb.
    + rewrite I2. cbn. lia.
    + by rewrite Hx2.
    + by rewrite Hx2, Hx.
    + by rewrite Hx2.
    + by rewrite Hx2.
    + by rewrite Hx2.
    + exists e3, s3. split; [exact K1|]. rewrite Hx in K2. by injection K2.
Defined.

(** ** The inode table *)

(** An entry that is in use for the inode. *)
Definition names (dev inum : Z) (x : inode) : bool := (0 <? i_ref x) && (i_dev x =? dev) && (i_inum x =? inum).

(** At most one entry per inode; references count up from 0. *)
Record itable_ok (s : fsstate) : Prop := {
  it_len : length (fs_inodes s) = NINODE;
  it_ref : forall i, (i < NINODE)%nat -> 0 <= i_ref (nth_inode i s) < 2 ^ 31;
  it_uniq : forall i j, (i < NINODE)%nat -> (j < NINODE)%nat -> 0 < i_ref (nth_inode i s) -> 0 < i_ref (nth_inode j s) ->
    i_dev (nth_inode i s) = i_dev (nth_inode j s) -> i_inum (nth_inode i s) = i_inum (nth_inode j s) -> i = j
}.

Lemma iget_scan_run n ip dev inum empty e s :
  exists r, iget_scan n ip dev inum empty e s = Ok r e s /\
    match r with
    | (Some k, _) => (ip <= k < ip + n)%nat /\ names dev inum (nth_inode k s) = true /\
                     forall j, (ip <= j < k)%nat -> names dev inum (nth_inode j s) = false
    | (None, empty') => (forall j, (ip <= j < ip + n)%nat -> names dev inum (nth_inode j s) = false) /\
        match empty with
        | Some k => empty' = Some k
        | None =>
            match empty' with
            | Some k => (ip <= k < ip + n)%nat /\ i_ref (nth_inode k s) = 0 /\
                        forall j, (ip <= j < k)%nat -> i_ref (nth_inode j s) <> 0
            | None => forall j, (ip <= j < ip + n)%nat -> i_ref (nth_inode j s) <> 0
            end
        end
    end.
Proof.
  revert ip empty. induction n as [|n IH]; intros ip empty; cbn [iget_scan].
  - exists (None, empty). split; [done|]. split; [intros; lia|]. destruct empty; [done|intros; lia].
  - rewrite bind_eq. unfold geti. kred. fold (names dev inum (nth_inode ip s)).
    destruct (names dev inum (nth_inode ip s)) eqn:Hn.
    { exists (Some ip, empty). split; [done|]. split; [lia|]. split; [done|]. intros; lia. }
    set (em := match empty with None => _ | _ => _ end). destruct (IH (S ip) em) as (r & H1 & H2).
    exists r. split; [done|]. destruct r as [[k|] em'].
    + destruct H2 as (K1 & K2 & K3). split; [lia|]. split; [done|]. intros j Hj.
      destruct (decide (j = ip)) as [->|]; [done|]. apply K3. lia.
    + destruct H2 as (K1 & K2). split.
      { intros j Hj. destruct (decide (j = ip)) as [->|]; [done|]. apply K1. lia. }
      unfold em in K2. destruct empty as [k|]; [done|].
      destruct (Z.eqb_spec (i_ref (nth_inode ip s)) 0) as [Hz|Hz].
      * subst em'. split; [lia|]. split; [done|]. intros; lia.
      * destruct em' as [k|].
        -- destruct K2 as (L1 & L2 & L3). split; [lia|]. split; [done|]. intros j Hj.
           destruct (decide (j = ip)) as [->|]; [done|]. apply L3. lia.
        -- intros j Hj. destruct (decide (j = ip)) as [->|]; [done|]. apply K2. lia.
Qed.

Lemma names_spec dev inum x : names dev inum x = true <-> 0 < i_ref x /\ i_dev x = dev /\ i_inum x = inum.
Proof. unfold names. rewrite !andb_true_iff, Z.ltb_lt, !Z.eqb_eq. tauto. Qed.

Lemma nth_upd_inode_ne i j f s : i <> j -> nth_inode j (upd_inode i f s) = nth_inode j s.
Proof. intros Hne. unfold nth_inode, upd_inode. cbn. by rewrite list_lookup_total_alter_ne. Qed.

(** An entry changed keeps the table well formed. *)
Lemma itable_upd i f s :
  itable_ok s -> (i < NINODE)%nat -> 0 <= i_ref (f (nth_inode i s)) < 2 ^ 31 ->
  (forall j, (j < NINODE)%nat -> j <> i -> names (i_dev (f (nth_inode i s))) (i_inum (f (nth_inode i s))) (nth_inode j s) = false) ->
  itable_ok (upd_inode i f s).
Proof.
  intros [Hl Hr Hu] Hi Hf Hn.
  assert (Hx : nth_inode i (upd_inode i f s) = f (nth_inode i s)) by (apply nth_upd_inode; lia).
  split.
  - cbn. by rewrite length_alter.
  - intros j Hj. destruct (decide (i = j)) as [<-|Hne]; [by rewrite Hx|]. rewrite nth_upd_inode_ne by done. by apply Hr.
  - assert (Hno : forall j, (j < NINODE)%nat -> j <> i -> 0 < i_ref (nth_inode j s) ->
      i_dev (nth_inode j s) = i_dev (f (nth_inode i s)) -> i_inum (nth_inode j s) = i_inum (f (nth_inode i s)) -> False).
    { intros j Hj Hne H1 H2 H3. specialize (Hn j Hj Hne). apply not_true_iff_false in Hn. apply Hn, names_spec. done. }
    intros j k Hj Hk. destruct (decide (j = i)) as [->|Hji], (decide (k = i)) as [->|Hki];
      rewrite ?Hx, ?nth_upd_inode_ne by congruence; [done| | |by apply Hu].
    + intros _ H1 H2 H3. by destruct (Hno k).
    + intros H1 _ H2 H3. by destruct (Hno j).
Qed.

(** What iget() leaves when it returns the entry [ip]. *)
Definition iget_made (dev inum : Z) (s : fsstate) (ip : nat) (s' : fsstate) : Prop :=
  (ip < NINODE)%nat /\ itable_ok s' /\
  names dev inum (nth_inode ip s') = true /\
  (forall j, j <> ip -> nth_inode j s' = nth_inode j s) /\ fs_p s' = fs_p s /\
  (names dev inum (nth_inode ip s) = true /\
     nth_inode ip s' = set_ref (i_ref (nth_inode ip s) + 1) (nth_inode ip s) \/
   (forall j, (j < NINODE)%nat -> names dev inum (nth_inode j s) = false) /\
     i_ref (nth_inode ip s) = 0 /\ (forall j, (j < ip)%nat -> i_ref (nth_inode j s) <> 0) /\
     i_ref (nth_inode ip s') = 1 /\ i_valid (nth_inode ip s') = false).

(** No entry for the inode, and none to be had. *)
Definition itable_full (dev inum : Z) (s : fsstate) : Prop :=
  forall i, (i < NINODE)%nat -> i_ref (nth_inode i s) <> 0 /\ names dev inum (nth_inode i s) = false.

Lemma iget_made_room dev inum s ip s' : iget_made dev inum s ip s' -> ~ itable_full dev inum s.
Proof.
  intros (Hip & _ & _ & _ & _ & H) Hfull. destruct (Hfull ip Hip) as [F1 F2].
  destruct H as [[H _]|(_ & H & _)]; [congruence|done].
Qed.

Lemma iget_run dev inum e s :
  LkItable ∉ e_held e -> itable_ok s -> (forall i, (i < NINODE)%nat -> i_ref (nth_inode i s) < 2 ^ 31 - 1) ->
  (iget dev inum e s = Panic "iget: no inodes" /\ itable_full dev inum s) \/
  exists ip s', iget dev inum e s = Ok ip e s' /\ fs_l s' = fs_l s /\ iget_made dev inum s ip s'.
Proof.
  intros Hlk Hok Hmax. pose proof Hok as [Hl Hr Hu]. unfold iget. rewrite bind_eq, acquire_eq by done. cbn [rbind].
  destruct (iget_scan_run NINODE 0 dev inum None (set_held (LkItable :: e_held e) e) s) as (r & Hrun & Hr').
  rewrite bind_eq, Hrun. cbn [rbind]. destruct r as [[k|] em].
  - destruct Hr' as (K1 & K2 & _). right. apply names_spec in K2 as N. destruct N as (N1 & N2 & N3).
    set (f := fun x => set_ref (i32 (i_ref x + 1)) x). exists k, (upd_inode k f s).
    assert (Hf : f (nth_inode k s) = set_ref (i_ref (nth_inode k s) + 1) (nth_inode k s)).
    { unfold f. rewrite i32_small; [done|]. specialize (Hmax k). lia. }
    assert (Hx : nth_inode k (upd_inode k f s) = f (nth_inode k s)) by (apply nth_upd_inode; lia).
    split; [unfold modi; rewrite bind_eq; kred; by rewrite bind_eq, release_eq|]. split; [done|]. split; [lia|].
    split; [apply itable_upd; [done|lia|rewrite Hf; cbn; specialize (Hmax k); lia|]|].
    { intros j Hj Hne. rewrite Hf. cbn. apply not_true_iff_false. intros (M1 & M2 & M3)%names_spec.
      apply Hne. apply Hu; try done. lia. }
    split; [rewrite Hx, Hf; apply names_spec; cbn; lia|]. split; [intros j Hne; by apply nth_upd_inode_ne|].
    split; [done|]. left. by rewrite Hx, Hf.
  - destruct Hr' as (K1 & K2). destruct em as [k|]; [right|left; split; [done|]; intros i Hi; split; [apply K2|apply K1]; lia].
    destruct K2 as (L1 & L2 & L3). set (f := fun x => set_ivalid false (set_ref 1 (set_inum inum (set_idev dev x)))).
    exists k, (upd_inode k f s). assert (Hx : nth_inode k (upd_inode k f s) = f (nth_inode k s)) by (apply nth_upd_inode; lia).
    split. { unfold modi. do 4 (rewrite bind_eq; kred). rewrite bind_eq, release_eq. kred. by rewrite !upd_inode_twice. }
    split; [done|]. split; [lia|]. split; [apply itable_upd; [done|lia|cbn; lia|]|].
    { intros j Hj _. cbn. apply K1. lia. }
    split; [rewrite Hx; apply names_spec; cbn; lia|]. split; [intros j Hne; by apply nth_upd_inode_ne|].
    split; [done|]. right. split; [intros j Hj; apply K1; lia|]. split; [done|].
    split; [intros j Hj; apply L3; lia|]. by rewrite Hx.
Qed.

(** C28: iget() finds or makes the one entry of an inode.  On a well-formed
    table it panics exactly when the inode has no entry and none is free;
    otherwise it returns an entry for (dev, inum) without sleeping, the table
    is still well formed (at most one entry in use per inode), no other entry
    changes, and the entry is either the existing one with one more
    reference, or the first free one with one reference and not yet valid. *)
Theorem iget_correct dev inum e s :
  LkItable ∉ e_held e -> itable_ok s -> (forall i, (i < NINODE)%nat -> i_ref (nth_inode i s) < 2 ^ 31 - 1) ->
  (iget dev inum e s = Panic "iget: no inodes" /\
   forall i, (i < NINODE)%nat -> i_ref (nth_inode i s) <> 0 /\ names dev inum (nth_inode i s) = false) \/
  exists ip s', iget dev inum e s = Ok ip e s' /\ (ip < NINODE)%nat /\ itable_ok s' /\
    names dev inum (nth_inode ip s') = true /\
    (forall j, j <> ip -> nth_inode j s' = nth_inode j s) /\ fs_l s' = fs_l s /\ fs_p s' = fs_p s /\
    (names dev inum (nth_inode ip s) = true /\
       nth_inode ip s' = set_ref (i_ref (nth_inode ip s) + 1) (nth_inode ip s) \/
     (forall j, (j < NINODE)%nat -> names dev inum (nth_inode j s) = false) /\
       i_ref (nth_inode ip s) = 0 /\ (forall j, (j < ip)%nat -> i_ref (nth_inode j s) <> 0) /\
       i_ref (nth_inode ip s') = 1 /\ i_valid (nth_inode ip s') = false).
Proof.
  intros Hlk Hok Hmax. destruct (iget_run dev inum e s) as [H|(ip & s' & H & Hl & H1 & H2 & H3 & H4 & H5 & H6)]; try done; [by left|].
  right. by exists ip, s'.
Qed.

Definition demo_itable (s : fsstate) : fsstate :=
  mkFsstate (fs_p s) (fs_l s) (fs_sb s) (demo_inode 2 true :: replicate 49 inode0).

Lemma demo_itable_ok s : itable_ok (demo_itable s).
Proof.
  split; [done| |].
  - intros [|i] Hi; [done|]. unfold nth_inode, demo_itable. cbn [fs_inodes].
    rewrite list_lookup_total_alt, lookup_cons, lookup_replicate_2 by (unfold NINODE in Hi; lia). done.
  - assert (Hz : forall i, (S i < NINODE)%nat -> i_ref (nth_inode (S i) (demo_itable s)) = 0).
    { intros i Hi. unfold nth_inode, demo_itable. cbn [fs_inodes].
      by rewrite list_lookup_total_alt, lookup_cons, lookup_replicate_2 by (unfold NINODE in Hi; lia). }
    intros [|i] [|j] Hi Hj; [done|..]; rewrite ?Hz by done; lia.
Qed.

Lemma iget_correct_witness :
  exists s ip s', iget 1 5 demo_fs_env (demo_itable s) = Ok ip demo_fs_env s' /\ names 1 5 (nth_inode ip s') = true.
Proof.
  destruct (demo_txn (mkDisk ∅ []) (mkPstate [] 1 None [] 0 SCHED_FCFS [] (mkKmem 0 ∅)) []) as (s & _).
  destruct (iget_correct 1 5 demo_fs_env (demo_itable s)) as [(_ & Hall)|(ip & s' & H1 & _ & _ & H2 & _)].
  - apply not_elem_of_nil.
  - apply demo_itable_ok.
  - intros [|i] Hi; [done|]. unfold nth_inode, demo_itable. cbn [fs_inodes].
    rewrite list_lookup_total_alt, lookup_cons, lookup_replicate_2 by (unfold NINODE in Hi; lia). done.
  - by destruct (Hall 0%nat ltac:(unfold NINODE; lia)) as [_ Hn].
  - exists s, ip, s'. exact (conj H1 H2).
Defined.
