(* ===== verification/PathSpec.v ===== *)
(** * Path names

    skipelem() against the obvious reading of a path: its parts between
    slashes, without the empty ones. *)

From S2P Require Import Prelude CString KMonad Sleeplock Bio Log Riscv Kalloc Vm Proc Fs.

(** ** Reference *)

(** The parts of a path between its slashes. *)
Fixpoint split (path : list Z) : list (list Z) :=
  match path with
  | [] => [[]]
  | c :: rest =>
      if c =? slash then [] :: split rest
      else match split rest with
           | e :: es => (c :: e) :: es
           | [] => [[c]]
           end
  end.

Definition elems (path : list Z) : list (list Z) := filter (fun e => e <> []) (split path).

(** Names written one after the other, each after a slash. *)
Definition join (es : list (list Z)) : list Z := concat (map (cons slash) es).

(** The names namex() looks up one after the other: what name[] holds as a
    C string after each skipelem(). *)
Fixpoint walk_path (fuel : nat) (path name : list Z) : option (list (list Z)) :=
  match skipelem path name with
  | None => Some []
  | Some (rest, name) =>
      match fuel with
      | O => None
      | S fuel => cons (until_nul name) <$> walk_path fuel rest name
      end
  end.

(** ** Lemmas *)

Lemma elems_slash path : elems (slash :: path) = elems path.
Proof. unfold elems. cbn [split]. rewrite Z.eqb_refl. by rewrite filter_cons, decide_False by auto. Qed.

Lemma elems_skip path : elems (skip_slashes path) = elems path.
Proof.
  induction path as [|c path IH]; [done|]. cbn [skip_slashes]. destruct (Z.eqb_spec c slash) as [->|]; [|done].
  by rewrite IH, elems_slash.
Qed.

Lemma skip_slashes_head path : skip_slashes path = [] \/ exists c rest, skip_slashes path = c :: rest /\ c <> slash.
Proof.
  induction path as [|c path IH]; [by left|]. cbn [skip_slashes].
  destruct (Z.eqb_spec c slash); [done|]. right. eauto.
Qed.

Lemma skip_slashes_len path : (length (skip_slashes path) <= length path)%nat.
Proof. induction path as [|c path IH]; [done|]. cbn [skip_slashes]. destruct (c =? slash); cbn [length]; lia. Qed.

Lemma split_span path :
  split path = (span_elem path).1 :: match (span_elem path).2 with [] => [] | _ :: rest => split rest end.
Proof.
  induction path as [|c path IH]; [done|]. cbn [split span_elem].
  destruct (Z.eqb_spec c slash); [done|]. rewrite IH. done.
Qed.

Lemma span_rest path : (span_elem path).2 = [] \/ exists rest, (span_elem path).2 = slash :: rest.
Proof.
  induction path as [|c path IH]; [by left|]. cbn [span_elem]. destruct (Z.eqb_spec c slash) as [->|]; [|done].
  right. eauto.
Qed.

Lemma span_app path : path = (span_elem path).1 ++ (span_elem path).2.
Proof. induction path as [|c path IH]; [done|]. cbn [span_elem]. destruct (c =? slash); [done|]. cbn. by f_equal. Qed.

(** A path that starts with a name. *)
Lemma elems_span c path :
  c <> slash -> elems (c :: path) = (span_elem (c :: path)).1 :: elems (span_elem (c :: path)).2 /\
                (span_elem (c :: path)).1 <> [].
Proof.
  intros Hc. assert (Hne : (span_elem (c :: path)).1 <> []).
  { cbn [span_elem]. destruct (Z.eqb_spec c slash); done. }
  split; [|done]. unfold elems at 1. rewrite split_span, filter_cons, decide_True by done. f_equal.
  destruct (span_rest (c :: path)) as [->|(rest & ->)]; [done|]. by rewrite elems_slash.
Qed.

Lemma until_nul_app l r : Forall (fun c => c <> 0) l -> until_nul (l ++ r) = l ++ until_nul r.
Proof.
  induction 1 as [|c l Hc _ IH]; [done|]. cbn [app until_nul]. apply Z.eqb_neq in Hc. rewrite Hc. by f_equal.
Qed.

Lemma put_at_0 name bs : put_at name 0 bs = bs ++ drop (length bs) name.
Proof. done. Qed.

(** The element as it ends up in name[]. *)
Lemma name_written e name :
  Forall (fun c => c <> 0) e -> length name = Z.to_nat DIRSIZ ->
  let len := Z.of_nat (length e) in
  let name' := if DIRSIZ <=? len then put_at name 0 (take (Z.to_nat DIRSIZ) e)
               else put_at (put_at name 0 e) len [0] in
  until_nul name' = take (Z.to_nat DIRSIZ) e /\ length name' = Z.to_nat DIRSIZ.
Proof.
  intros He Hn len name'. unfold name'. destruct (Z.leb_spec DIRSIZ len) as [Hl|Hl].
  - assert (Hlen : length (take (Z.to_nat DIRSIZ) e) = Z.to_nat DIRSIZ) by (rewrite length_take; lia).
    rewrite put_at_0, drop_ge, app_nil_r by lia. split; [|done].
    rewrite <- (app_nil_r (take _ e)) at 1. rewrite until_nul_app; [by rewrite app_nil_r|]. by apply Forall_take.
  - rewrite put_at_0. unfold put_at, len. rewrite Nat2Z.id, take_app_length. cbn [length].
    rewrite until_nul_app by done. split; [by rewrite app_nil_r, take_ge by lia|].
    rewrite !length_app, length_drop, length_app, length_drop. cbn [length]. lia.
Qed.

Lemma skipelem_spec path name :
  Forall (fun c => c <> 0) path -> length name = Z.to_nat DIRSIZ ->
  match skipelem path name with
  | None => elems path = []
  | Some (rest, name') => exists e, elems path = e :: elems rest /\ until_nul name' = take (Z.to_nat DIRSIZ) e /\
      length name' = Z.to_nat DIRSIZ /\ (length rest < length path)%nat /\ Forall (fun c => c <> 0) rest
  end.
Proof.
  intros Hp Hn. unfold skipelem. destruct (skip_slashes_head path) as [Hs|(c & r & Hs & Hc)].
  - by rewrite Hs, <- elems_skip, Hs.
  - rewrite Hs. destruct (elems_span c r Hc) as [He Hne].
    assert (Hsub : Forall (fun c => c <> 0) (skip_slashes path)).
    { clear - Hp. induction Hp as [|c l Hc Hl IH]; [done|]. cbn [skip_slashes]. destruct (c =? slash); [done|by constructor]. }
    rewrite Hs in Hsub. rewrite (span_app (c :: r)) in Hsub. apply Forall_app in Hsub as [Hs1 Hs2].
    exists (span_elem (c :: r)).1. split; [by rewrite elems_skip, <- He, <- Hs, elems_skip|].
    destruct (name_written (span_elem (c :: r)).1 name Hs1 Hn) as [N1 N2]. split; [exact N1|]. split; [exact N2|].
    pose proof (skip_slashes_len (span_elem (c :: r)).2) as L1. pose proof (skip_slashes_len path) as L2.
    rewrite Hs in L2. rewrite (span_app (c :: r)), length_app in L2. split.
    + destruct (span_elem (c :: r)).1; [done|]. cbn [length] in L2. lia.
    + clear - Hs2. induction Hs2 as [|x l Hx Hl IH]; [done|]. cbn [skip_slashes]. destruct (x =? slash); [done|by constructor].
Qed.

Lemma walk_path_elems fuel path name :
  (length path <= fuel)%nat -> Forall (fun c => c <> 0) path -> length name = Z.to_nat DIRSIZ ->
  walk_path fuel path name = Some (map (take (Z.to_nat DIRSIZ)) (elems path)).
Proof.
  revert path name. induction fuel as [|fuel IH]; intros path name Hf Hp Hn; cbn [walk_path];
    pose proof (skipelem_spec path name Hp Hn) as Hs; destruct (skipelem path name) as [[rest name']|].
  - destruct Hs as (_ & _ & _ & _ & Hlt & _). lia.
  - by rewrite Hs.
  - destruct Hs as (e & He & Hu & Hl & Hlt & Hr). rewrite (IH rest name') by (done || lia). by rewrite He, Hu.
  - by rewrite Hs.
Qed.

Lemma elems_app e rest :
  e <> [] -> Forall (fun c => c <> slash) e -> (rest = [] \/ exists r, rest = slash :: r) ->
  elems (e ++ rest) = e :: elems rest.
Proof.
  intros Hne He Hr. assert (Hspan : span_elem (e ++ rest) = (e, rest)).
  { clear Hne. induction He as [|c e Hc He IH]; cbn [app span_elem].
    - destruct Hr as [->|(r & ->)]; [done|]. cbn [span_elem]. by rewrite Z.eqb_refl.
    - apply Z.eqb_neq in Hc. by rewrite Hc, IH. }
  destruct e as [|c e]; [done|]. apply Forall_cons in He as [Hc _].
  destruct (elems_span c (e ++ rest) Hc) as [He _]. cbn [app] in Hspan. rewrite Hspan in He. exact He.
Qed.

Lemma elems_join es : Forall (fun e => e <> [] /\ Forall (fun c => c <> slash) e) es -> elems (join es) = es.
Proof.
  induction 1 as [|e es [Hne He] Hes IH]; [done|]. unfold join. cbn [map concat app]. rewrite elems_slash.
  fold (join es). rewrite elems_app, IH; [done|done|done|]. destruct es; [by left|right; by eexists].
Qed.

(** C29: path names are parsed as written.  For every path the repeated
    skipelem() of namex() ends after at most as many steps as the path has
    characters, and what it leaves in name[] is, in order, each part between
    slashes that is not empty, cut to DIRSIZ characters, however many slashes
    lead, separate or end the parts.  Conversely the path written from any
    list of names of at most DIRSIZ characters reads back as that list. *)
Theorem path_elements path name :
  Forall (fun c => c <> 0) path -> length name = Z.to_nat DIRSIZ ->
  walk_path (length path) path name = Some (map (take (Z.to_nat DIRSIZ)) (elems path)) /\
  forall es, Forall (fun e => e <> [] /\ Z.of_nat (length e) <= DIRSIZ /\ Forall (fun c => c <> slash) e) es ->
    path = join es -> walk_path (length path) path name = Some es.
Proof.
  intros Hp Hn. split; [by apply walk_path_elems|]. intros es Hes ->.
  rewrite walk_path_elems, elems_join by (done || (eapply Forall_impl; [exact Hes|]; naive_solver)). f_equal.
  clear Hp. induction Hes as [|e es (_ & Hl & _) _ IH]; [done|]. cbn [map]. rewrite IH, take_ge by lia. done.
Qed.

Lemma path_elements_witness :
  walk_path 12 [47; 47; 97; 98; 47; 99; 47; 47; 100; 46; 101; 47] (replicate 14 0) =
    Some [[97; 98]; [99]; [100; 46; 101]].
Proof.
  destruct (path_elements [47; 47; 97; 98; 47; 99; 47; 47; 100; 46; 101; 47] (replicate 14 0)) as [H _].
  - apply (bool_decide_unpack (Forall _ _)). by vm_compute.
  - done.
  - etransitivity; [exact H|]. by vm_compute.
Defined.
