(* ===== verification/FileSpec.v ===== *)
(** * The contents of a file: bmap(), readi() and dirlookup()

    A file's bytes are found through the block addresses of its inode; readi()
    returns them, and dirlookup() searches the entries they form. *)

From S2P Require Import Prelude KMonad CString Sleeplock Bio BioSpec BioAbs Log LogSpec LogCrash LogOps.
From S2P Require Import Txn Riscv Kalloc Vm PageTable VmSpec UCopy VmThms Proc Fs FsSpec InodeSpec.
Open Scope kmonad_scope.

(** ** Reference *)

Definition BS : Z := Z.of_nat BSIZE.

Definition addr_at (x : inode) (k : Z) : Z := default 0 (i_addrs x !! Z.to_nat k).

(** The block that holds block [bn] of the file; 0 if there is none. *)
Definition file_block (V : Z -> list Z) (x : inode) (bn : Z) : Z :=
  if bn <? NDIRECT then addr_at x bn
  else if addr_at x NDIRECT =? 0 then 0
  else get_u32 (V (addr_at x NDIRECT)) (4 * (bn - NDIRECT)).

Definition file_byte (V : Z -> list Z) (x : inode) (off : Z) : Z :=
  get_byte (V (file_block V x (off / BS))) (off mod BS).

Definition file_bytes (V : Z -> list Z) (x : inode) (off n : Z) : list Z :=
  map (file_byte V x) (seqZ off n).

(** Every block of the file's first [size] bytes is there, and holds BSIZE
    bytes. *)
Record file_ok (V : Z -> list Z) (x : inode) : Prop := {
  fi_size : 0 <= i_size x <= MAXFILE * BS;
  fi_mapped : forall bn, 0 <= bn -> bn * BS < i_size x -> file_block V x bn <> 0;
  fi_block : forall bn, 0 <= bn -> bn * BS < i_size x -> block_ok (V (file_block V x bn))
}.

Lemma length_file_bytes V x off n : length (file_bytes V x off n) = Z.to_nat n.
Proof. unfold file_bytes. by rewrite length_map, length_seqZ. Qed.

Lemma file_bytes_app V x off n m :
  0 <= n -> 0 <= m -> file_bytes V x off (n + m) = file_bytes V x off n ++ file_bytes V x (off + n) m.
Proof. intros. unfold file_bytes. by rewrite seqZ_app, map_app by done. Qed.

(** A chunk inside one block. *)
Lemma file_chunk V x off m :
  0 <= off -> 0 <= m -> off mod BS + m <= BS -> length (V (file_block V x (off / BS))) = BSIZE ->
  take (Z.to_nat m) (drop (Z.to_nat (off mod BS)) (V (file_block V x (off / BS)))) = file_bytes V x off m.
Proof.
  intros Ho Hm Hb Hl. set (d := V (file_block V x (off / BS))) in *.
  assert (Hr : 0 <= off mod BS < BS) by (by apply Z.mod_pos_bound).
  apply list_eq_same_length with (n := Z.to_nat m); [by rewrite length_file_bytes|rewrite length_take, length_drop, Hl; unfold BS in *; lia|].
  intros i a b Hi Ha Hb'. rewrite lookup_take in Ha. rewrite decide_True in Ha by done. rewrite lookup_drop in Ha.
  unfold file_bytes in Hb'. rewrite list_lookup_fmap, lookup_seqZ_lt in Hb' by lia. injection Hb' as <-.
  unfold file_byte. assert (Hq : (off + Z.of_nat i) / BS = off / BS) by (unfold BS, BSIZE in *; zdm).
  assert (Hm' : (off + Z.of_nat i) mod BS = off mod BS + Z.of_nat i) by (unfold BS, BSIZE in *; zdm).
  rewrite Hq, Hm'. fold d. unfold get_byte. replace (Z.to_nat (off mod BS + Z.of_nat i)) with (Z.to_nat (off mod BS) + i)%nat by lia.
  by rewrite Ha.
Qed.

Lemma fs_free_later e e' : later e e' -> fs_free e -> fs_free e'.
Proof. intros [w ->]. apply fs_free_woken. Qed.

Lemma BS_pos : 0 < BS.
Proof. done. Qed.

(** ** Where readi() puts the bytes *)

Definition fs_mem (s : fsstate) : mem := kmem_mem (ps_kmem (fs_p s)).
Definition fs_root (e : env) (s : fsstate) : Z := p_pagetable (nth_proc (e_me e) (fs_p s)).
Definition put_mem (m : mem) (s : fsstate) : fsstate :=
  put_p (set_kmem (mkKmem (freelist (ps_kmem (fs_p s))) m) (fs_p s)) s.

(** [bs] stored at [dst] one byte after the other: in user memory up to the
    first byte the user may not write, then -1; in kernel memory, all of them;
    a local structure is not part of the memory. *)
Definition stored (dst : place) (root : Z) (m : mem) (bs : list Z) : Z * mem :=
  match dst with
  | User a => uwrite m root a bs
  | Kern a => (0, mwrite m a bs)
  | Local _ => (0, m)
  end.

(** A destination of [k] bytes: user memory of a well-formed page table, or
    addresses that do not wrap around. *)
Definition place_ok (T : gmap Z (nat * Z)) (dst : place) (root : Z) (m : mem) (k : Z) : Prop :=
  match dst with
  | User a => pt_wf m T /\ T !! root = Some (2%nat, 0) /\ user_safe m root T /\ 0 <= a /\ a + k < 2 ^ 64
  | Kern a => 0 <= a /\ a + k < 2 ^ 64
  | Local _ => True
  end.

Lemma put_mem_id s : put_mem (fs_mem s) s = s.
Proof. by destruct s as [[? ? ? ? ? ? ? []] ? ? ?]. Qed.

Lemma copy_to_eq T dst bs e s :
  place_ok T dst (fs_root e s) (fs_mem s) (Z.of_nat (length bs)) ->
  copy_to dst bs e s = let r := stored dst (fs_root e s) (fs_mem s) bs in Ok r.1 e (put_mem r.2 s).
Proof.
  destruct dst as [a|a|l]; cbn [copy_to stored place_ok].
  - intros (Hwf & Hr & Hs & Ha & _). unfold on_p, zoom, either_copyout. rewrite bind_eq. kred. unfold getp. rewrite bind_eq. kred.
    unfold kmm, zoom. fold (fs_root e s). by rewrite (copyout_eq T) by done.
  - intros _. by destruct s.
  - intros _. cbn. by rewrite put_mem_id.
Qed.

Lemma mwrite_app m a l1 l2 : mwrite m a (l1 ++ l2) = mwrite (mwrite m a l1) (a + Z.of_nat (length l1)) l2.
Proof.
  revert m a. induction l1 as [|b l1 IH]; intros m a; cbn [mwrite app length]; [by rewrite Z.add_0_r|].
  rewrite IH. by replace (a + 1 + Z.of_nat (length l1)) with (a + Z.of_nat (S (length l1))) by lia.
Qed.

(** Bytes stored in two parts. *)
Lemma stored_app T dst root m l1 l2 k :
  place_ok T dst root m k -> Z.of_nat (length l1) <= k ->
  let r := stored dst root m l1 in
  stored dst root m (l1 ++ l2) =
    (if r.1 =? -1 then r else stored (advance dst (Z.of_nat (length l1))) root r.2 l2) /\
  place_ok T (advance dst (Z.of_nat (length l1))) root r.2 (k - Z.of_nat (length l1)).
Proof.
  destruct dst as [a|a|l]; cbn [stored advance place_ok]; cbv zeta.
  - intros (Hwf & Hr & Hs & Ha & Hk) Hl. rewrite u64_small by lia. split; [apply uwrite_app|].
    destruct (uwrite_wf T m root a l1 Hwf Hr Hs Ha) as [W1 W2]. repeat (split; [done|]). lia.
  - intros [Ha Hk] Hl. rewrite u64_small, mwrite_app by lia. split; [done|lia].
  - done.
Qed.

Lemma place_ok_less T dst root m k k' : place_ok T dst root m k -> k' <= k -> place_ok T dst root m k'.
Proof. destruct dst; cbn [place_ok]; [|lia|done]. intros (H1 & H2 & H3 & H4 & H5) Hk. repeat (split; [done|]). lia. Qed.

Lemma stored_code dst root m bs : (stored dst root m bs).1 = 0 \/ (stored dst root m bs).1 = -1.
Proof. destruct dst; [apply uwrite_code|by left|by left]. Qed.

Lemma stored_nil dst root m : stored dst root m [] = (0, m).
Proof. by destruct dst. Qed.

Section contents.
Context {dev : Z} {rep : Z -> bstate -> cabs -> Prop} `{HBC : !BlockCache dev rep} {start : Z}.
Abbreviation ftx := (ftx (dev := dev) (rep := rep) (start := start)).

(** bmap() of a block the file has: its address, with nothing changed. *)
Lemma bmap_run e s V n ip bn :
  fs_free e -> ftx (e_pid e) V ∅ n s -> i_dev (nth_inode ip s) = dev ->
  0 <= bn < MAXFILE -> file_block V (nth_inode ip s) bn <> 0 ->
  exists e' l, bmap ip bn e s = Ok (file_block V (nth_inode ip s) bn) e' (put_l l s) /\ later e e' /\
    ftx (e_pid e') V ∅ n (put_l l s).
Proof using HBC.
  intros Hf Ht Hdev Hbn. unfold bmap, file_block, get_addr, geti. rewrite bind_eq. kred. fold (addr_at (nth_inode ip s) bn).
  destruct (Z.ltb_spec bn NDIRECT) as [Hlt|Hge]; intros Hnz.
  - rewrite bind_eq. kred. fold (addr_at (nth_inode ip s) bn).
    destruct (Z.eqb_spec (addr_at (nth_inode ip s) bn) 0); [done|].
    exists e, (fs_l s). split; [by destruct s|]. split; [apply later_refl|]. by destruct s.
  - destruct (Z.ltb_spec (bn - NDIRECT) NINDIRECT) as [Hlt|]; [|unfold MAXFILE in Hbn; lia].
    rewrite bind_eq. kred. fold (addr_at (nth_inode ip s) NDIRECT).
    destruct (Z.eqb_spec (addr_at (nth_inode ip s) NDIRECT) 0) as [|Ha]; [done|].
    rewrite bind_eq. kred. destruct (Z.eqb_spec (addr_at (nth_inode ip s) NDIRECT) 0) as [|_]; [done|].
    rewrite Hdev. set (a := addr_at (nth_inode ip s) NDIRECT) in *.
    destruct (read_block (dev := dev) (rep := rep) (start := start) e s V ∅ n a) as (i & l & H2 & H3 & _ & Hrun);
      [done|done|done|rewrite map_size_empty; lia|].
    rewrite Hrun. rewrite bind_eq. destruct (Z.eqb_spec (get_u32 (V a) (4 * (bn - NDIRECT))) 0); [done|]. kred.
    destruct (f_brelse (dev := dev) (rep := rep) (start := start) e (put_l l s) V _ n i a Hf H3) as (l' & H4 & H5);
      [apply lookup_insert_eq|].
    rewrite bind_eq, H4. kred. exists (add_woken [ChBufLock i] e), l'. split; [done|].
    split; [apply later_woken|]. by rewrite delete_insert_id in H5.
Qed.

(** One iteration: the bytes up to the end of the block or of the request. *)
Lemma readi_step T fuel e s V n ip dst off k tot acc :
  let x := nth_inode ip s in let m := Z.min (k - tot) (BS - off mod BS) in let c := file_bytes V x off m in
  let r := stored dst (fs_root e s) (fs_mem s) c in
  fs_free e -> ftx (e_pid e) V ∅ n s -> i_dev x = dev -> file_ok V x ->
  0 <= off -> 0 <= tot < k -> off + (k - tot) <= i_size x ->
  place_ok T dst (fs_root e s) (fs_mem s) (k - tot) ->
  exists e1 l, later e e1 /\ ftx (e_pid e1) V ∅ n (put_l l s) /\
    readi_loop (S fuel) ip dst off k tot acc e s =
      if r.1 =? -1 then Ok (-1, acc) e1 (put_l l (put_mem r.2 s))
      else readi_loop fuel ip (advance dst m) (off + m) k (tot + m) (acc ++ c) e1 (put_l l (put_mem r.2 s)).
Proof using HBC.
  intros x m c r Hf Ht Hdev Hok Ho Htot Hsz Hp. pose proof (Z.mod_pos_bound off BS BS_pos) as Hmod.
  cbn [readi_loop]. rewrite (proj2 (Z.ltb_lt tot k)) by lia. pose proof Hok as [F1 F2 F3]. set (bn := off / BS).
  assert (Hbn : 0 <= bn /\ bn * BS <= off < bn * BS + BS) by (unfold bn, BS, BSIZE in *; zdm).
  specialize (F2 bn ltac:(lia) ltac:(lia)). destruct (F3 bn ltac:(lia) ltac:(lia)) as [Hlen _].
  fold BS. fold bn. destruct (bmap_run e s V n ip bn Hf Ht Hdev) as (e1 & l1 & B1 & B2 & B3);
    [unfold MAXFILE, BS, BSIZE in *; lia|done|]. fold x in B1.
  rewrite bind_eq, B1. cbn [rbind]. destruct (Z.eqb_spec (file_block V x bn) 0); [done|].
  unfold geti. rewrite bind_eq. kred. change (nth_inode ip (put_l l1 s)) with x. rewrite Hdev.
  assert (Hf1 : fs_free e1) by (by apply (fs_free_later e)).
  destruct (read_block (dev := dev) (rep := rep) (start := start) e1 (put_l l1 s) V ∅ n (file_block V x bn))
    as (i & l2 & H2 & H3 & _ & Hrun); [done|done|done|rewrite map_size_empty; lia|].
  rewrite put_l_twice in H3, Hrun. fold m. rewrite Hrun.
  unfold bn. rewrite file_chunk by (unfold m; lia || done). fold c.
  assert (Hroot : fs_root e1 (put_l l2 s) = fs_root e s) by (destruct B2 as [w ->]; done).
  rewrite bind_eq, (copy_to_eq T), Hroot;
    [|rewrite Hroot; eapply place_ok_less; [exact Hp|unfold c; rewrite length_file_bytes; unfold m; lia]].
  change (fs_mem (put_l l2 s)) with (fs_mem s). fold r. cbv zeta. cbn [rbind].
  destruct (f_brelse (dev := dev) (rep := rep) (start := start) e1 (put_mem r.2 (put_l l2 s)) V _ n i (file_block V x bn) Hf1 H3)
    as (l3 & H4 & H5); [apply lookup_insert_eq|]. rewrite delete_insert_id in H5 by done.
  exists (add_woken [ChBufLock i] e1), l3. split; [by apply (later_trans _ e1); [|apply later_woken]|].
  split; [done|]. rewrite u32_small by (change (MAXFILE * BS) with 274432 in F1; unfold m; lia).
  by destruct (r.1 =? -1); rewrite bind_eq, H4.
Qed.

(** The loop stores the bytes from [off] on, chunk by chunk, until one cannot
    be stored; [got] holds those of a local structure. *)
Lemma readi_loop_run T fuel e s V n ip dst off k tot acc :
  let x := nth_inode ip s in let r := stored dst (fs_root e s) (fs_mem s) (file_bytes V x off (k - tot)) in
  fs_free e -> ftx (e_pid e) V ∅ n s -> i_dev x = dev -> file_ok V x ->
  0 <= off -> 0 <= tot <= k -> off + (k - tot) <= i_size x ->
  (tot < k -> off mod BS + (k - tot) <= BS * Z.of_nat fuel) ->
  place_ok T dst (fs_root e s) (fs_mem s) (k - tot) ->
  exists e' l got, readi_loop fuel ip dst off k tot acc e s =
      Ok (if r.1 =? -1 then -1 else i32 k, got) e' (put_l l (put_mem r.2 s)) /\ later e e' /\
    ftx (e_pid e') V ∅ n (put_l l s) /\ (r.1 = 0 -> got = acc ++ file_bytes V x off (k - tot)).
Proof using HBC.
  revert e s dst off tot acc. induction fuel as [|fuel IH]; intros e s dst off tot acc x r Hf Ht Hdev Hok Ho Htot Hsz Hfuel Hp;
    (destruct (decide (tot < k)) as [Hlt|Hge]; [|
      exists e, (fs_l s), acc; unfold r; replace tot with k by lia; cbn [readi_loop];
      rewrite Z.ltb_irrefl, Z.sub_diag, stored_nil, app_nil_r; cbn [fst snd Z.eqb]; rewrite put_mem_id; split; [by destruct s|];
      split; [apply later_refl|by destruct s]]); pose proof (Z.mod_pos_bound off BS BS_pos) as Hmod; [lia|].
  destruct (readi_step T fuel e s V n ip dst off k tot acc) as (e1 & l1 & L1 & T1 & ->); try done; [lia|].
  set (m := Z.min (k - tot) (BS - off mod BS)). fold x. set (c := file_bytes V x off m).
  assert (Hm : 0 < m <= k - tot /\ (tot + m = k \/ (off + m) mod BS = 0 /\ m = BS - off mod BS))
    by (unfold m, BS, BSIZE in *; zdm).
  assert (Hc : Z.of_nat (length c) = m) by (unfold c; rewrite length_file_bytes; lia).
  destruct (stored_app T dst (fs_root e s) (fs_mem s) c (file_bytes V x (off + m) (k - (tot + m))) (k - tot) Hp)
    as [S1 S2]; [lia|]. rewrite Hc in S1, S2.
  assert (Hb : file_bytes V x off (k - tot) = c ++ file_bytes V x (off + m) (k - (tot + m))).
  { unfold c. rewrite <- file_bytes_app by lia. f_equal. lia. }
  assert (Hr : r = _) by (unfold r; rewrite Hb; exact S1). rewrite Hr, Hb. clear Hr S1.
  set (r1 := stored dst (fs_root e s) (fs_mem s) c) in *. destruct (Z.eqb_spec r1.1 (-1)) as [E1|E1].
  { exists e1, l1, acc. rewrite E1. done. }
  assert (Hroot : fs_root e1 (put_l l1 (put_mem r1.2 s)) = fs_root e s) by (destruct L1 as [w ->]; done).
  destruct (IH e1 (put_l l1 (put_mem r1.2 s)) (advance dst m) (off + m) (tot + m) (acc ++ c))
    as (e' & l & got & R1 & R2 & R3 & R4); try done; try lia.
  { by apply (fs_free_later e). }
  { change (nth_inode ip (put_l l1 (put_mem r1.2 s))) with x. lia. }
  { rewrite Hroot. by replace (k - (tot + m)) with (k - tot - m) by lia. }
  rewrite Hroot in R1, R4. exists e', l, got. split; [exact R1|]. split; [by apply (later_trans _ e1)|].
  split; [done|]. intros H0. by rewrite app_assoc, R4.
Qed.

(** How many bytes of the file a read of [k] bytes at [off] covers. *)
Definition readable (x : inode) (off k : Z) : Z := if i_size x <? off then 0 else Z.min k (i_size x - off).

(** readi() to any place. *)
Lemma readi_any T e s V n ip dst off k :
  let x := nth_inode ip s in
  let len := if 2 ^ 32 <=? off + k then 0 else readable x off k in
  let r := stored dst (fs_root e s) (fs_mem s) (file_bytes V x off len) in
  fs_free e -> ftx (e_pid e) V ∅ n s -> i_dev x = dev -> file_ok V x ->
  0 <= off < 2 ^ 32 -> 0 <= k < 2 ^ 32 -> place_ok T dst (fs_root e s) (fs_mem s) len ->
  exists e' l got, readi ip dst off k e s = Ok (if r.1 =? -1 then -1 else len, got) e' (put_l l (put_mem r.2 s)) /\
    later e e' /\ ftx (e_pid e') V ∅ n (put_l l s) /\ (r.1 = 0 -> got = file_bytes V x off len).
Proof using HBC.
  intros x len r Hf Ht Hdev Hok Ho Hk Hp. unfold readi, geti. rewrite bind_eq. kred. fold x.
  assert (Hend : u32 (off + k) = if 2 ^ 32 <=? off + k then off + k - 2 ^ 32 else off + k)
    by (destruct (Z.leb_spec (2 ^ 32) (off + k)); unfold u32; zdm).
  pose proof (fi_size _ _ Hok) as Hsz. change (MAXFILE * BS) with 274432 in Hsz. rewrite Hend.
  assert (Hnone : len = 0 -> exists e' l got, Ok (0, []) e s = Ok (if r.1 =? -1 then -1 else len, got) e' (put_l l (put_mem r.2 s)) /\
    later e e' /\ ftx (e_pid e') V ∅ n (put_l l s) /\ (r.1 = 0 -> got = file_bytes V x off len)).
  { intros Hl. exists e, (fs_l s), []. unfold r. rewrite Hl. unfold file_bytes. cbn [seqZ map].
    rewrite stored_nil. cbn [fst snd Z.eqb]. rewrite put_mem_id. split; [by destruct s|]. split; [apply later_refl|by destruct s]. }
  unfold len, readable in *. destruct (Z.leb_spec (2 ^ 32) (off + k)) as [Hov|Hov].
  { rewrite (proj2 (Z.ltb_lt (off + k - 2 ^ 32) off)), orb_true_r by lia. by apply Hnone. }
  rewrite (proj2 (Z.ltb_ge (off + k) off)), orb_false_r by lia. destruct (Z.ltb_spec (i_size x) off) as [Hlt|Hge].
  { by apply Hnone. }
  replace (if i_size x <? off + k then i_size x - off else k) with (Z.min k (i_size x - off))
    by (destruct (Z.ltb_spec (i_size x) (off + k)); lia).
  set (j := Z.min k (i_size x - off)) in *.
  destruct (readi_loop_run T (Z.to_nat (j / Z.of_nat BSIZE + 2)) e s V n ip dst off j 0 []) as (e' & l & got & R1 & R2 & R3 & R4);
    rewrite ?Z.sub_0_r; try done; try (unfold j; fold x; lia).
  { intros _. unfold j, BS, BSIZE in *. zdm. }
  fold x in R1, R4. rewrite Z.sub_0_r in R1, R4. exists e', l, got. rewrite R1, i32_small by (unfold j; lia). done.
Qed.

(** readi() to a local structure. *)
Lemma readi_run e s V n ip bs off k :
  fs_free e -> ftx (e_pid e) V ∅ n s -> i_dev (nth_inode ip s) = dev -> file_ok V (nth_inode ip s) ->
  0 <= off < 2 ^ 32 -> 0 <= k < 2 ^ 32 -> off + k < 2 ^ 32 ->
  let x := nth_inode ip s in
  exists e' l, readi ip (Local bs) off k e s =
      Ok (readable x off k, file_bytes V x off (readable x off k)) e' (put_l l s) /\ later e e' /\
    ftx (e_pid e') V ∅ n (put_l l s).
Proof using HBC.
  intros Hf Ht Hdev Hok Ho Hk Hs x.
  destruct (readi_any ∅ e s V n ip (Local bs) off k) as (e' & l & got & R1 & R2 & R3 & R4); try done.
  rewrite (proj2 (Z.leb_gt (2 ^ 32) (off + k))) in R1, R4 by done. cbn [stored fst snd Z.eqb] in R1, R4.
  rewrite put_mem_id, R4 in R1 by done. by exists e', l.
Qed.

(** *** Directories *)

(** The entry [j] of a directory. *)
Definition entry (V : Z -> list Z) (x : inode) (j : Z) : list Z := file_bytes V x (16 * j) 16.

(** An entry in use whose name, cut at its NUL, is [name], cut likewise. *)
Definition matches (name de : list Z) : bool :=
  negb (de_inum de =? 0) && bool_decide (until_nul name = until_nul (de_name de)).

(** The first of [k] entries from [j] on that matches. *)
Fixpoint dir_find (k : nat) (V : Z -> list Z) (x : inode) (name : list Z) (j : Z) : option Z :=
  match k with
  | O => None
  | S k => if matches name (entry V x j) then Some j else dir_find k V x name (j + 1)
  end.

Lemma dir_find_spec k V x name j :
  match dir_find k V x name j with
  | Some i => j <= i < j + Z.of_nat k /\ matches name (entry V x i) = true /\
              forall i', j <= i' < i -> matches name (entry V x i') = false
  | None => forall i, j <= i < j + Z.of_nat k -> matches name (entry V x i) = false
  end.
Proof using.
  revert j. induction k as [|k IH]; intros j; cbn [dir_find]; [intros; lia|].
  destruct (matches name (entry V x j)) eqn:Hm; [split; [lia|]; split; [done|intros; lia]|].
  assert (Hat : forall P : Z -> Prop, P j -> forall i, (j + 1 <= i -> P i) -> j <= i -> P i).
  { intros P Hj i Hi Hle. destruct (decide (i = j)) as [->|]; [done|apply Hi; lia]. }
  specialize (IH (j + 1)). destruct (dir_find k V x name (j + 1)) as [i|].
  - destruct IH as (H1 & H2 & H3). split; [lia|]. split; [done|]. intros i' Hi'.
    apply (Hat (fun i => matches name (entry V x i) = false) Hm); [intros; apply H3|]; lia.
  - intros i' Hi'. apply (Hat (fun i => matches name (entry V x i) = false) Hm); [intros; apply IH|]; lia.
Qed.

Lemma file_byte_range V x off :
  file_ok V x -> 0 <= off < i_size x -> 0 <= file_byte V x off < 256.
Proof using.
  intros Hok Ho. apply get_byte_range, (fi_block _ _ Hok); unfold BS, BSIZE; zdm.
Qed.

Lemma entry_name V x j :
  file_ok V x -> 0 <= j -> 16 * j + 16 <= i_size x ->
  length (de_name (entry V x j)) = 14%nat /\ Forall (fun b => 0 <= b < 256) (de_name (entry V x j)).
Proof using.
  intros Hok Hj Hs. unfold de_name, entry. split; [by rewrite length_take, length_drop, length_file_bytes|].
  apply Forall_take, Forall_drop. unfold file_bytes. apply Forall_fmap, Forall_forall.
  intros o Hin%elem_of_seqZ. apply file_byte_range; [done|lia].
Qed.

Lemma arrays_ok s t :
  Forall (fun b => 0 <= b < 256) s -> Forall (fun b => 0 <= b < 256) t -> mem_ok (arrays s t).
Proof using.
  intros Hs Ht a b. unfold arrays. rewrite !lookup_mwrite. repeat case_decide; try done; intros Hb.
  - by apply (proj1 (Forall_lookup _ _) Ht _ _ Hb).
  - by apply (proj1 (Forall_lookup _ _) Hs _ _ Hb).
Qed.

Lemma namecmp_eq s t :
  length s = 14%nat -> length t = 14%nat ->
  Forall (fun b => 0 <= b < 256) s -> Forall (fun b => 0 <= b < 256) t ->
  (namecmp s t =? 0) = bool_decide (until_nul s = until_nul t).
Proof using.
  intros Hs Ht Fs Ft. apply eq_true_iff_eq. rewrite Z.eqb_eq, bool_decide_eq_true.
  unfold namecmp, strncmp_arr, strncmp. rewrite strncmp_loop_eq by (by apply arrays_ok).
  unfold bstr. change (Z.to_nat DIRSIZ) with 14%nat.
  assert (mread (arrays s t) 0 14 = s) as ->
    by (unfold arrays; rewrite mread_mwrite_disj by lia; rewrite <- Hs; apply mread_mwrite_same).
  assert (mread (arrays s t) 4096 14 = t) as -> by (rewrite <- Ht; apply mread_mwrite_same). done.
Qed.

Lemma dirlookup_loop_S fuel dp name off :
  dirlookup_loop (S fuel) dp name off =
  (size <- geti dp i_size ;;
   if off <? size then
     r <- readi dp (Local []) off sizeof_dirent ;;
     if negb (r.1 =? sizeof_dirent) then panic "dirlookup read"
     else if de_inum r.2 =? 0 then dirlookup_loop fuel dp name (u32 (off + sizeof_dirent))
     else if namecmp name (de_name r.2) =? 0 then
       dev <- geti dp i_dev ;;
       ip <- iget dev (de_inum r.2) ;;
       ret (Some (ip, off))
     else dirlookup_loop fuel dp name (u32 (off + sizeof_dirent))
   else ret None).
Proof using. done. Qed.

Lemma dirlookup_loop_run k e s V n dp name j :
  fs_free e -> ftx (e_pid e) V ∅ n s -> i_dev (nth_inode dp s) = dev -> file_ok V (nth_inode dp s) ->
  length name = 14%nat -> Forall (fun b => 0 <= b < 256) name -> 0 <= j ->
  i_size (nth_inode dp s) = 16 * (j + Z.of_nat k) ->
  let x := nth_inode dp s in
  exists e' l, later e e' /\ ftx (e_pid e') V ∅ n (put_l l s) /\
    dirlookup_loop (S k) dp name (16 * j) e s =
      match dir_find k V x name j with
      | None => Ok None e' (put_l l s)
      | Some i => (ip <- iget dev (de_inum (entry V x i)) ;; ret (Some (ip, 16 * i))) e' (put_l l s)
      end.
Proof using HBC.
  revert e s j. induction k as [|k IH]; intros e s j Hf Ht Hdev Hok Hln Hnm Hj Hsz x;
    cbn [dir_find]; rewrite dirlookup_loop_S; unfold geti at 1; rewrite bind_eq; kred; fold x; fold x in Hsz; rewrite Hsz.
  { rewrite (proj2 (Z.ltb_ge (16 * j) (16 * (j + Z.of_nat 0)))) by lia. exists e, (fs_l s).
    split; [apply later_refl|]. split; by destruct s. }
  pose proof (fi_size _ _ Hok) as Hmax. fold x in Hmax. change (MAXFILE * BS) with 274432 in Hmax.
  rewrite (proj2 (Z.ltb_lt (16 * j) (16 * (j + Z.of_nat (S k))))) by lia. change sizeof_dirent with 16.
  destruct (readi_run e s V n dp [] (16 * j) 16 Hf Ht Hdev Hok) as (e1 & l1 & R1 & R2 & R3); [lia..|].
  fold x in R1. assert (readable x (16 * j) 16 = 16) as Hr.
  { unfold readable. destruct (Z.ltb_spec (i_size x) (16 * j)); lia. }
  rewrite Hr in R1. fold (entry V x j) in R1. rewrite bind_eq, R1. cbn [rbind fst snd]. change (16 =? 16) with true.
  cbn [negb]. destruct (entry_name V x j Hok) as [N1 N2]; [lia..|].
  rewrite namecmp_eq by done. unfold matches.
  rewrite u32_small by lia. replace (16 * j + 16) with (16 * (j + 1)) by lia.
  destruct (IH e1 (put_l l1 s) (j + 1)) as (e2 & l2 & L1 & L2 & L3); try done;
    [by apply (fs_free_later e)|lia|change (nth_inode dp (put_l l1 s)) with x; lia|].
  assert (Hne : later e e2) by (by apply (later_trans _ e1)). change (nth_inode dp (put_l l1 s)) with x in L3.
  destruct (de_inum (entry V x j) =? 0); cbn [negb andb]; [exists e2, l2; done|].
  destruct (bool_decide _); [|exists e2, l2; done].
  exists e1, l1. split; [done|]. split; [done|]. unfold geti. rewrite bind_eq. kred.
  change (nth_inode dp (put_l l1 s)) with x. unfold x. by rewrite Hdev.
Qed.
End contents.

(** dirlookup() as one run, in terms of [dir_find]. *)
Lemma dirlookup_run dev start e V n s dp name :
  let x := nth_inode dp s in
  dev <> 0 -> fs_free e -> in_txn dev start e V n s -> i_dev x = dev -> i_type x = T_DIR ->
  file_ok V x -> i_size x mod 16 = 0 -> length name = 14%nat -> Forall (fun b => 0 <= b < 256) name ->
  exists e' l, later e e' /\ in_txn dev start e' V n (put_l l s) /\
    dirlookup dp name e s =
      match dir_find (Z.to_nat (i_size x / 16)) V x name 0 with
      | None => Ok None e' (put_l l s)
      | Some i => (ip <- iget dev (de_inum (entry V x i)) ;; ret (Some (ip, 16 * i))) e' (put_l l s)
      end.
Proof.
  intros x Hd Hf Ht Hdev Hty Hok Hm Hl Hn. pose proof (bio_cache dev Hd) as HBC. unfold dirlookup, geti.
  rewrite bind_eq. kred. fold x. rewrite Hty. change (T_DIR =? T_DIR) with true. cbn [negb].
  rewrite bind_eq. kred. fold x. pose proof (fi_size _ _ Hok) as [Hs _]. change sizeof_dirent with 16.
  assert (Z.to_nat (i_size x / 16 + 1) = S (Z.to_nat (i_size x / 16))) as -> by zdm.
  destruct (dirlookup_loop_run (dev := dev) (rep := babs dev) (start := start) (Z.to_nat (i_size x / 16)) e s V n dp name 0)
    as (e' & l & H1 & H2 & H3); try done; [fold x; zdm|]. by exists e', l.
Qed.

(** C23: readi() delivers the file's bytes.  For a read at any offset and of
    any length, into user memory, kernel memory or a local structure, let len
    be the number of bytes requested that lie inside the file (none if the
    range wraps around).  readi() returns, without panicking, sleeping or
    running out of loop iterations.  The bytes off, off + 1, ... of the file,
    found through the direct and the indirect blocks of the inode, are stored
    at the destination one after the other, whatever the block boundaries they
    cross; if all can be stored it returns len, and if the user may not write
    one of the addresses, it stores those before it and returns -1.  Nothing
    else in memory, no block and no inode changes, and no buffer stays held. *)
Theorem readi_correct dev start T e V n s ip dst off k :
  let x := nth_inode ip s in
  let len := if (i_size x <? off) || (2 ^ 32 <=? off + k) then 0 else Z.min k (i_size x - off) in
  let r := stored dst (fs_root e s) (fs_mem s) (file_bytes V x off len) in
  dev <> 0 -> fs_free e -> in_txn dev start e V n s -> i_dev x = dev ->
  file_ok V x -> 0 <= off < 2 ^ 32 -> 0 <= k < 2 ^ 32 -> place_ok T dst (fs_root e s) (fs_mem s) len ->
  exists e' s' got, readi ip dst off k e s = Ok (if r.1 =? 0 then len else -1, got) e' s' /\
    in_txn dev start e' V n s' /\ fs_inodes s' = fs_inodes s /\ fs_p s' = fs_p (put_mem r.2 s) /\
    (r.1 = 0 -> got = file_bytes V x off len).
Proof.
  intros x len r Hd Hf Ht Hdev Hok Ho Hk Hp. pose proof (bio_cache dev Hd) as HBC.
  assert (Hlen : len = if 2 ^ 32 <=? off + k then 0 else readable x off k)
    by (unfold len, readable; by destruct (i_size x <? off), (2 ^ 32 <=? off + k)).
  destruct (readi_any (dev := dev) (rep := babs dev) (start := start) T e s V n ip dst off k)
    as (e' & l & got & H1 & H2 & H3 & H4); try done; fold x; rewrite <- ?Hlen; [done|].
  fold x in H1, H4. rewrite <- Hlen in H1, H4. fold r in H1, H4. exists e', (put_l l (put_mem r.2 s)), got.
  split; [|done]. rewrite H1. by destruct (stored_code dst (fs_root e s) (fs_mem s) (file_bytes V x off len)) as [E|E]; fold r in E; rewrite E.
Qed.

(** C25: dirlookup() is a search of the directory.  On an inode that is not a
    directory it panics.  On a directory of whole entries it returns None,
    changing no block and no inode, exactly when no entry in use has the name
    (compared as strings of at most DIRSIZ bytes).  Otherwise let j be the
    first such entry and inum its inode number: if no entry of the inode table
    is for inum and none is free it panics with "iget: no inodes"; in every
    other case it returns the offset 16 * j and an entry of the table for
    inum, the one there was with one more reference or the first free one, and
    changes no block and no other entry. *)
Theorem dirlookup_correct dev start e V n s dp name :
  dev <> 0 -> fs_free e -> LkItable ∉ e_held e -> in_txn dev start e V n s -> i_dev (nth_inode dp s) = dev ->
  file_ok V (nth_inode dp s) -> i_size (nth_inode dp s) mod 16 = 0 ->
  length name = 14%nat -> Forall (fun b => 0 <= b < 256) name ->
  itable_ok s -> (forall i, (i < NINODE)%nat -> i_ref (nth_inode i s) < 2 ^ 31 - 1) ->
  let x := nth_inode dp s in
  if i_type x =? T_DIR then
    (exists e' s', dirlookup dp name e s = Ok None e' s' /\
       in_txn dev start e' V n s' /\ fs_inodes s' = fs_inodes s /\ fs_p s' = fs_p s /\
       forall j, 0 <= j < i_size x / 16 -> matches name (entry V x j) = false) \/
    exists j, let inum := de_inum (entry V x j) in
      0 <= j < i_size x / 16 /\ matches name (entry V x j) = true /\
      (forall j', 0 <= j' < j -> matches name (entry V x j') = false) /\
      ((dirlookup dp name e s = Panic "iget: no inodes" /\ itable_full dev inum s) \/
       exists e' s' ip, dirlookup dp name e s = Ok (Some (ip, 16 * j)) e' s' /\
         in_txn dev start e' V n s' /\ ~ itable_full dev inum s /\ iget_made dev inum s ip s')
  else dirlookup dp name e s = Panic "dirlookup not DIR".
Proof.
  intros Hd Hf Hlk Ht Hdev Hok Hm Hl Hn Hit Hmax x. pose proof (fi_size _ _ Hok) as [Hs _]. fold x in Hs, Hm.
  destruct (Z.eqb_spec (i_type x) T_DIR) as [Hty|Hty].
  2: { unfold dirlookup, geti. rewrite bind_eq. kred. fold x. by rewrite (proj2 (Z.eqb_neq _ _) Hty). }
  destruct (dirlookup_run dev start e V n s dp name) as (e' & l & H1 & H2 & H3); try done. fold x in H3.
  pose proof (dir_find_spec (Z.to_nat (i_size x / 16)) V x name 0) as Hfind.
  destruct (dir_find _ V x name 0) as [j|]; [right; exists j|left]; rewrite Z2Nat.id in Hfind by zdm.
  - destruct Hfind as (F1 & F2 & F3). cbv zeta. split; [lia|]. split; [done|]. split; [done|].
    destruct (iget_run dev (de_inum (entry V x j)) e' (put_l l s)) as [[R1 R2]|(ip & s' & R1 & R2 & R3)];
      [by rewrite (later_held e)|by destruct Hit; split|done|..]; rewrite H3, bind_eq, R1; [by left|right].
    exists e', s', ip. split; [done|]. split; [|split; [exact (iget_made_room _ _ _ _ _ R3)|exact R3]].
    unfold in_txn, ftx. by rewrite R2.
  - exists e', (put_l l s). split; [done|]. repeat (split; [done|]). intros. apply Hfind. lia.
Qed.

(** ** Witnesses: a directory with the entries "a" (inode 7) and "b" (inode 9)
    in block 50 *)

Definition demo_entry (inum c : Z) : list Z := [inum; 0; c] ++ replicate 13 0.
Definition demo_dir_disk : disk :=
  mkDisk {[ 50 := demo_entry 7 97 ++ demo_entry 9 98 ++ replicate 992 0 ]} [].
Definition demo_dir : inode := mkInode 1 1 1 (mkSleeplock true 7) true T_DIR 0 0 1 32 (50 :: replicate 12 0).
Definition demo_name (c : Z) : list Z := c :: replicate 13 0.

Lemma demo_dir_ok : file_ok (disk_read demo_dir_disk) demo_dir.
Proof.
  assert (Hz : forall bn, 0 <= bn -> bn * BS < i_size demo_dir -> bn = 0) by (intros bn; cbn; unfold BS, BSIZE; lia).
  split; [done|..]; intros bn H1 H2; rewrite (Hz bn H1 H2).
  - by vm_compute.
  - split; [by vm_compute|]. apply (bool_decide_unpack (Forall _ _)). by vm_compute.
Qed.

Lemma demo_dir_txn :
  exists s, in_txn 1 2 demo_fs_env (disk_read demo_dir_disk) 10 s /\ nth_inode 0 s = demo_dir.
Proof.
  destruct (demo_txn demo_dir_disk (mkPstate [] 1 None [] 0 SCHED_FCFS [] (mkKmem 0 ∅)) [demo_dir])
    as (s & Ht & _ & _ & Hi).
  exists s. split; [done|]. unfold nth_inode. by rewrite Hi.
Qed.

(** The reader's address space: one page, at address 0. *)
Definition demo_reader : pstate :=
  mkPstate [set_pagetable demo_root proc0] 1 None [None] 0 SCHED_FCFS [] demo_user.

(** The second entry can be read to the user address [a]. *)
Lemma demo_read a s :
  in_txn 1 2 demo_fs_env (disk_read demo_dir_disk) 10 s -> nth_inode 0 s = demo_dir ->
  0 <= a <= 4096 ->
  let t := put_p demo_reader s in
  in_txn 1 2 demo_fs_env (disk_read demo_dir_disk) 10 t /\ i_dev (nth_inode 0 t) = 1 /\
  file_ok (disk_read demo_dir_disk) (nth_inode 0 t) /\
  place_ok demo_user_tables (User a) (fs_root demo_fs_env t) (fs_mem t) 16.
Proof.
  intros Ht Hx Ha t. change (nth_inode 0 t) with (nth_inode 0 s). rewrite Hx. split; [exact Ht|]. split; [done|].
  split; [exact demo_dir_ok|]. split; [apply demo_user_wf|]. split; [by vm_compute|]. split; [apply demo_user_safe|lia].
Qed.

Lemma readi_correct_witness :
  (exists s e' s' got, readi 0 (User 0) 16 100 demo_fs_env s = Ok (16, got) e' s' /\
     mread (fs_mem s') 0x80060000 16 = demo_entry 9 98) /\
  (exists s e' s' got, readi 0 (User 4088) 16 100 demo_fs_env s = Ok (-1, got) e' s' /\
     mread (fs_mem s') 0x80060ff8 8 = take 8 (demo_entry 9 98)).
Proof.
  destruct demo_dir_txn as (s & Ht & Hx).
  assert (E : file_bytes (disk_read demo_dir_disk) demo_dir 16 16 = demo_entry 9 98) by by vm_compute.
  assert (H : forall a, 0 <= a <= 4096 -> exists e' s' got,
    let r := uwrite (kmem_mem demo_user) demo_root a (demo_entry 9 98) in
    readi 0 (User a) 16 100 demo_fs_env (put_p demo_reader s) = Ok (if r.1 =? 0 then 16 else -1, got) e' s' /\ fs_mem s' = r.2).
  { intros a Ha. destruct (demo_read a s Ht Hx Ha) as (D1 & D2 & D3 & D4).
    pose proof (readi_correct 1 2 demo_user_tables demo_fs_env (disk_read demo_dir_disk) 10 (put_p demo_reader s) 0 (User a) 16 100) as H.
    change (nth_inode 0 (put_p demo_reader s)) with (nth_inode 0 s) in H, D2, D3. rewrite Hx in H, D2, D3. cbv zeta in H.
    change (if _ || _ then 0 else _) with 16 in H. rewrite E in H.
    destruct H as (e' & s' & got & H1 & _ & _ & H2 & _); [done|exact demo_fs_free|exact D1|done|done|lia|lia|exact D4|].
    exists e', s', got. split; [exact H1|]. unfold fs_mem at 1. rewrite H2. done. }
  split.
  - destruct (H 0 ltac:(lia)) as (e' & s' & got & H1 & H2). exists (put_p demo_reader s), e', s', got. rewrite H2.
    assert (R : (uwrite (kmem_mem demo_user) demo_root 0 (demo_entry 9 98)).1 = 0) by by vm_compute.
    rewrite R in H1. split; [exact H1|by vm_compute].
  - destruct (H 4088 ltac:(lia)) as (e' & s' & got & H1 & H2). exists (put_p demo_reader s), e', s', got. rewrite H2.
    assert (R : (uwrite (kmem_mem demo_user) demo_root 4088 (demo_entry 9 98)).1 = -1) by by vm_compute.
    rewrite R in H1. split; [exact H1|by vm_compute].
Defined.

(** The directory's own entry, and nothing else in the table. *)
Definition demo_dir_table (s : fsstate) : fsstate :=
  mkFsstate (fs_p s) (fs_l s) (fs_sb s) (demo_dir :: replicate 49 inode0).

Lemma demo_dir_free s i : (S i < NINODE)%nat -> nth_inode (S i) (demo_dir_table s) = inode0.
Proof.
  intros Hi. unfold nth_inode, demo_dir_table. cbn [fs_inodes].
  by rewrite list_lookup_total_alt, lookup_cons, lookup_replicate_2 by (unfold NINODE in Hi; lia).
Qed.

Lemma demo_dir_table_ok s : itable_ok (demo_dir_table s).
Proof.
  split; [done| |].
  - intros [|i] Hi; [done|]. by rewrite demo_dir_free.
  - intros [|i] [|j] Hi Hj; [done|..]; rewrite ?demo_dir_free by done; cbn; lia.
Qed.

Lemma dirlookup_correct_witness :
  exists s e' s' ip, dirlookup 0 (demo_name 98) demo_fs_env s = Ok (Some (ip, 16)) e' s' /\ names 1 9 (nth_inode ip s') = true.
Proof.
  destruct demo_dir_txn as (s & Ht & _).
  pose proof (dirlookup_correct 1 2 demo_fs_env (disk_read demo_dir_disk) 10 (demo_dir_table s) 0 (demo_name 98)) as H.
  change (nth_inode 0 (demo_dir_table s)) with demo_dir in H.
  cbv zeta in H. change (i_type demo_dir =? T_DIR) with true in H. change (i_size demo_dir / 16) with 2 in H.
  assert (E0 : matches (demo_name 98) (entry (disk_read demo_dir_disk) demo_dir 0) = false) by by vm_compute.
  assert (E1 : matches (demo_name 98) (entry (disk_read demo_dir_disk) demo_dir 1) = true) by by vm_compute.
  assert (E2 : de_inum (entry (disk_read demo_dir_disk) demo_dir 1) = 9) by by vm_compute.
  destruct H as [(e' & s' & _ & _ & _ & _ & H)|(j & Hj & Hm & _ & H)].
  - done.
  - exact demo_fs_free.
  - apply not_elem_of_nil.
  - exact Ht.
  - reflexivity.
  - exact demo_dir_ok.
  - reflexivity.
  - reflexivity.
  - repeat constructor; lia.
  - apply demo_dir_table_ok.
  - intros [|i] Hi; [done|]. by rewrite demo_dir_free.
  - exfalso. specialize (H 1 ltac:(lia)). congruence.
  - assert (j = 1) as -> by (destruct (decide (j = 0)) as [->|]; [congruence|lia]). rewrite E2 in H.
    destruct H as [[_ H]|(e' & s' & ip & H & _ & _ & M)].
    + exfalso. destruct (H 1%nat ltac:(unfold NINODE; lia)) as [Hr _]. by rewrite demo_dir_free in Hr by (unfold NINODE; lia).
    + exists (demo_dir_table s), e', s', ip. split; [exact H|apply M].
Defined.
