(* ===== verification/WriteSpec.v ===== *)
(** * Writing to a file: writei() inside the file

    writei() of bytes that lie inside the file changes exactly these bytes of
    it, through the direct and the indirect blocks, and readi() returns
    them. *)

From S2P Require Import Prelude KMonad CString Sleeplock Bio BioSpec BioAbs Log LogSpec LogCrash LogOps.
From S2P Require Import Txn Riscv Kalloc Vm Proc Fs FsSpec InodeSpec FileSpec.
Open Scope kmonad_scope.

(** ** Reference *)

(** Block [bn] is one of the file's. *)
Definition in_file (x : inode) (bn : Z) : Prop := 0 <= bn /\ bn * BS < i_size x.

(** The blocks of the file are blocks of its own. *)
Record file_own (start : Z) (V : Z -> list Z) (x : inode) : Prop := {
  fw_inj : forall bn bn', in_file x bn -> in_file x bn' -> file_block V x bn = file_block V x bn' -> bn = bn';
  fw_data : forall bn, in_file x bn -> 0 <= file_block V x bn < 2 ^ 31 /\ data_block start (file_block V x bn);
  fw_ind : forall bn, in_file x bn -> file_block V x bn <> addr_at x NDIRECT \/ addr_at x NDIRECT = 0
}.

(** [V'] is [V] with the bytes [bs] at offset [off] of the file. *)
Record written (V V' : Z -> list Z) (x : inode) (off : Z) (bs : list Z) : Prop := {
  wr_blocks : forall bn, file_block V' x bn = file_block V x bn;
  wr_bytes : forall o, 0 <= o < i_size x ->
    file_byte V' x o = if (off <=? o) && (o <? off + Z.of_nat (length bs)) then default 0 (bs !! Z.to_nat (o - off))
                       else file_byte V x o;
  wr_frame : forall b, (forall bn, in_file x bn -> b <> file_block V x bn) -> V' b = V b;
  wr_ok : file_ok V' x
}.

Lemma get_byte_put_at d off bs o :
  0 <= off -> 0 <= o -> off + Z.of_nat (length bs) <= Z.of_nat (length d) ->
  get_byte (put_at d off bs) o =
    if (off <=? o) && (o <? off + Z.of_nat (length bs)) then default 0 (bs !! Z.to_nat (o - off)) else get_byte d o.
Proof.
  intros Ho Hoo Hl. unfold get_byte, put_at. assert (Ht : length (take (Z.to_nat off) d) = Z.to_nat off) by (rewrite length_take; lia).
  destruct (Z.leb_spec off o) as [H1|H1]; cbn [andb].
  - rewrite lookup_app_r by lia. rewrite Ht. replace (Z.to_nat o - Z.to_nat off)%nat with (Z.to_nat (o - off)) by lia.
    destruct (Z.ltb_spec o (off + Z.of_nat (length bs))).
    + by rewrite lookup_app_l by lia.
    + rewrite lookup_app_r by lia. rewrite lookup_drop. do 2 f_equal. lia.
  - rewrite lookup_app_l by lia. rewrite lookup_take, decide_True by lia. done.
Qed.

Lemma put_at_ok d off bs :
  block_ok d -> 0 <= off -> off + Z.of_nat (length bs) <= BS -> Forall (fun b => 0 <= b < 256) bs -> block_ok (put_at d off bs).
Proof.
  intros [Hl Hd] Ho Hb Hbs. unfold BS in Hb. split.
  - unfold put_at. rewrite !length_app, length_take, length_drop. lia.
  - unfold put_at. apply Forall_app. split; [by apply Forall_take|]. apply Forall_app. split; [done|by apply Forall_drop].
Qed.

(** A chunk inside one block. *)
Lemma written_chunk start V x off bs :
  file_ok V x -> file_own start V x -> 0 <= off -> bs <> [] -> off mod BS + Z.of_nat (length bs) <= BS ->
  off + Z.of_nat (length bs) <= i_size x -> Forall (fun b => 0 <= b < 256) bs ->
  let b := file_block V x (off / BS) in
  written V (vset b (put_at (V b) (off mod BS) bs) V) x off bs.
Proof.
  intros Hok Hown Ho Hne Hb Hs Hbs b. pose proof (Z.mod_pos_bound off BS BS_pos) as Hm.
  assert (Hlen : 0 < Z.of_nat (length bs)) by (destruct bs; [done|cbn [length]; lia]).
  assert (Hdm : off = off / BS * BS + off mod BS) by (unfold BS, BSIZE in *; zdm).
  assert (Hin : in_file x (off / BS)) by (split; [apply Z.div_pos; [lia|apply BS_pos]|lia]).
  assert (Hblk : forall bn, file_block (vset b (put_at (V b) (off mod BS) bs) V) x bn = file_block V x bn).
  { intros bn. unfold file_block. destruct (bn <? NDIRECT); [done|]. destruct (Z.eqb_spec (addr_at x NDIRECT) 0); [done|].
    rewrite vset_other; [done|]. intros He. destruct (fw_ind _ _ _ Hown (off / BS) Hin); [|done]. by fold b in H. }
  assert (Hbok : block_ok (V b)) by (apply (fi_block _ _ Hok); apply Hin).
  split.
  - exact Hblk.
  - intros o Hox. unfold file_byte. rewrite Hblk.
    assert (Hino : in_file x (o / BS)) by (split; [apply Z.div_pos; [lia|apply BS_pos]|unfold BS, BSIZE in *; zdm]).
    pose proof (Z.mod_pos_bound o BS BS_pos) as Hmo. assert (Hdo : o = o / BS * BS + o mod BS) by (unfold BS, BSIZE in *; zdm).
    destruct (decide (o / BS = off / BS)) as [Heq|Hneq].
    + rewrite Heq. fold b. rewrite vset_same, get_byte_put_at by (lia || (rewrite (proj1 Hbok); unfold BS in *; lia)).
      replace (off mod BS <=? o mod BS) with (off <=? o) by lia.
      replace (o mod BS <? off mod BS + Z.of_nat (length bs)) with (o <? off + Z.of_nat (length bs)) by lia.
      replace (o mod BS - off mod BS) with (o - off) by lia. done.
    + rewrite vset_other by (intros He; by apply Hneq, (fw_inj _ _ _ Hown)).
      destruct (Z.leb_spec off o), (Z.ltb_spec o (off + Z.of_nat (length bs))); cbn [andb]; try done.
      exfalso. apply Hneq. unfold BS, BSIZE in *. zdm.
  - intros c Hc. apply vset_other. by apply Hc.
  - destruct Hok as [F1 F2 F3]. split; [done|intros bn ? ?; rewrite Hblk; by apply F2|].
    intros bn H1 H2. rewrite Hblk. destruct (decide (file_block V x bn = b)) as [->|Hnb].
    + rewrite vset_same. apply put_at_ok; [done|lia..|done].
    + rewrite vset_other by done. by apply F3.
Qed.

Lemma written_nil V x off : file_ok V x -> written V V x off [].
Proof.
  intros Hok. split; try done. intros o Ho. cbn [length]. destruct (Z.leb_spec off o), (Z.ltb_spec o (off + Z.of_nat 0)); cbn [andb]; try done; lia.
Qed.

Lemma written_own start V V' x off bs : written V V' x off bs -> file_own start V x -> file_own start V' x.
Proof.
  intros [W1 _ _ _] [O1 O2 O3]. split.
  - intros bn bn' H1 H2. rewrite !W1. by apply O1.
  - intros bn H. rewrite W1. by apply O2.
  - intros bn H. rewrite W1. by apply O3.
Qed.

Lemma written_app V V1 V2 x off bs1 bs2 :
  written V V1 x off bs1 -> written V1 V2 x (off + Z.of_nat (length bs1)) bs2 -> written V V2 x off (bs1 ++ bs2).
Proof.
  intros [A1 A2 A3 A4] [B1 B2 B3 B4]. split.
  - intros bn. by rewrite B1, A1.
  - intros o Ho. rewrite B2, A2 by done. rewrite length_app, Nat2Z.inj_add.
    destruct (Z.leb_spec off o), (Z.leb_spec (off + Z.of_nat (length bs1)) o), (Z.ltb_spec o (off + Z.of_nat (length bs1))),
      (Z.ltb_spec o (off + Z.of_nat (length bs1) + Z.of_nat (length bs2))), (Z.ltb_spec o (off + (Z.of_nat (length bs1) + Z.of_nat (length bs2))));
      cbn [andb]; try lia; try done.
    + rewrite lookup_app_r by lia. do 2 f_equal. lia.
    + by rewrite lookup_app_l by lia.
  - intros b Hb. rewrite B3; [by apply A3|]. intros bn Hbn. rewrite A1. by apply Hb.
  - done.
Qed.

(** What has been written is what is read. *)
Section writing.
Context {dev : Z} {rep : Z -> bstate -> cabs -> Prop} `{HBC : !BlockCache dev rep} {start : Z}.
Abbreviation ftx := (ftx (dev := dev) (rep := rep) (start := start)).

Lemma ftx_fewer pid V H n m s : ftx pid V H n s -> (m <= n)%nat -> ftx pid V H m s.
Proof using.
  intros (bs & a & Hst & [L1 L2 L3 L4 L5 L6 L7 L8]) Hm. exists bs, a. split; [done|]. split; try done. lia.
Qed.

(** One round of the loop: the block is read, changed, logged and released. *)
Lemma write_round e s V n ip bs off k tot fuel :
  fs_free e -> ftx (e_pid e) V ∅ (S n) s -> i_dev (nth_inode ip s) = dev ->
  file_ok V (nth_inode ip s) -> file_own start V (nth_inode ip s) ->
  0 <= off -> 0 <= tot < k -> k - tot = Z.of_nat (length bs) -> off + (k - tot) <= i_size (nth_inode ip s) ->
  let x := nth_inode ip s in
  let m := Z.min (k - tot) (BS - off mod BS) in
  let b := file_block V x (off / BS) in
  exists e' l, later e e' /\ ftx (e_pid e') (vset b (put_at (V b) (off mod BS) (take (Z.to_nat m) bs)) V) ∅ n (put_l l s) /\
    writei_loop (S fuel) ip (Local bs) off k tot e s =
      writei_loop fuel ip (Local (drop (Z.to_nat m) bs)) (off + m) k (tot + m) e' (put_l l s).
Proof using HBC.
  intros Hf Ht Hdev Hok Hown Ho Htot Hk Hsz x m b. pose proof (Z.mod_pos_bound off BS BS_pos) as Hmod.
  pose proof (fi_size _ _ Hok) as F1. fold x in F1, Hsz. cbn [writei_loop]. rewrite (proj2 (Z.ltb_lt tot k)) by lia. fold BS.
  assert (Hbn : in_file x (off / BS)) by (unfold in_file, BS, BSIZE in *; zdm).
  assert (Hnz : b <> 0) by (apply (fi_mapped _ _ Hok); apply Hbn).
  destruct (bmap_run (dev := dev) (rep := rep) (start := start) e s V (S n) ip (off / BS) Hf Ht Hdev) as (e1 & l1 & B1 & B2 & B3);
    [destruct Hbn; unfold MAXFILE, BS, BSIZE in *; lia|done|]. fold x in B1. fold b in B1.
  rewrite bind_eq, B1. cbn [rbind]. destruct (Z.eqb_spec b 0); [done|].
  unfold geti. rewrite bind_eq. kred. change (nth_inode ip (put_l l1 s)) with x. fold x in Hdev. rewrite Hdev. fold m.
  assert (Hf1 : fs_free e1) by (by apply (fs_free_later e)).
  destruct (f_bread (dev := dev) (rep := rep) (start := start) e1 (put_l l1 s) V ∅ (S n) b) as (i & l2 & H1 & H2 & H3);
    [done|done|done|rewrite map_size_empty; lia|].
  rewrite put_l_twice in H1, H3. rewrite bind_eq, H1. cbn [rbind]. rewrite bind_eq. unfold copy_from. kred.
  rewrite bind_eq, (f_data (dev := dev) (rep := rep) (start := start) e1 (put_l l2 s) V _ (S n) i b H3) by apply lookup_insert_eq.
  cbn [rbind fst snd]. fold m. change (0 =? -1) with false. cbv iota.
  destruct (fw_data _ _ _ Hown (off / BS) Hbn) as [D1 D2].
  destruct (write_release (dev := dev) (rep := rep) (start := start) e1 (put_l l2 s) V _ n i b
    (put_at (V b) (off mod BS) (take (Z.to_nat m) bs)) Hf1 H3) as (l3 & W1 & _ & W2); [apply lookup_insert_eq|done|done|].
  rewrite delete_insert_id in W1 by done. rewrite put_l_twice in W1, W2. exists (add_woken [ChBufLock i] e1), l3.
  split; [by apply (later_trans _ e1); [|apply later_woken]|]. split; [exact W1|]. cbn [advance].
  assert (Hu : u32 (off + m) = off + m) by (apply u32_small; change (MAXFILE * BS) with 274432 in F1; unfold m; lia).
  rewrite Hu. apply (W2 _ (writei_loop fuel ip (Local (drop (Z.to_nat m) bs)) (off + m) k (tot + m))).
Qed.

Lemma writei_loop_run fuel e s V n ip bs off k tot :
  fs_free e -> ftx (e_pid e) V ∅ (fuel + n) s -> i_dev (nth_inode ip s) = dev ->
  file_ok V (nth_inode ip s) -> file_own start V (nth_inode ip s) -> Forall (fun b => 0 <= b < 256) bs ->
  0 <= off -> 0 <= tot <= k -> k - tot = Z.of_nat (length bs) -> off + (k - tot) <= i_size (nth_inode ip s) ->
  (tot < k -> off mod BS + (k - tot) <= BS * Z.of_nat fuel) ->
  exists e' l V', writei_loop fuel ip (Local bs) off k tot e s = Ok (k, off + (k - tot)) e' (put_l l s) /\ later e e' /\
    ftx (e_pid e') V' ∅ n (put_l l s) /\ written V V' (nth_inode ip s) off bs.
Proof using HBC.
  revert e s V bs off tot. induction fuel as [|fuel IH]; intros e s V bs off tot Hf Ht Hdev Hok Hown Hbs Ho Htot Hk Hsz Hfuel;
    (destruct (decide (tot < k)) as [Hlt|Hge]; [|
      destruct bs; [|cbn [length] in Hk; lia]; exists e, (fs_l s), V; cbn [writei_loop]; rewrite (proj2 (Z.ltb_ge tot k)) by lia;
      replace tot with k by lia; rewrite Z.sub_diag, Z.add_0_r; split; [by destruct s|]; split; [apply later_refl|];
      split; [destruct s; eapply ftx_fewer; [exact Ht|lia]|by apply written_nil]]);
    pose proof (Z.mod_pos_bound off BS BS_pos) as Hmod; [lia|].
  destruct (write_round e s V (fuel + n) ip bs off k tot fuel) as (e1 & l1 & R1 & R2 & R3); try done; [lia|].
  set (m := Z.min (k - tot) (BS - off mod BS)) in *. set (x := nth_inode ip s) in *.
  assert (Hm : 0 < m <= k - tot /\ (tot + m = k \/ (off + m) mod BS = 0 /\ m = BS - off mod BS))
    by (unfold m, BS, BSIZE in *; zdm).
  assert (Hlm : Z.of_nat (length (take (Z.to_nat m) bs)) = m) by (rewrite length_take; lia).
  assert (Hw : written V (vset (file_block V x (off / BS)) (put_at (V (file_block V x (off / BS))) (off mod BS) (take (Z.to_nat m) bs)) V)
    x off (take (Z.to_nat m) bs)).
  { eapply (written_chunk start); try done; rewrite ?Hlm; try (unfold m; lia); [|by apply Forall_take].
    intros He. rewrite He in Hlm. cbn in Hlm. lia. }
  assert (Hx : nth_inode ip (put_l l1 s) = x) by done. set (V1 := vset _ _ V) in *.
  destruct (IH e1 (put_l l1 s) V1 (drop (Z.to_nat m) bs) (off + m) (tot + m)) as (e' & l & V' & E & L & T & W);
    [by apply (fs_free_later e)|exact R2|rewrite ?Hx; rewrite ?length_drop; auto; try lia..|].
  - apply (wr_ok _ _ _ _ _ Hw).
  - by apply (written_own _ _ _ _ _ _ Hw).
  - by apply Forall_drop.
  - rewrite R3, E. exists e', l, V'. replace (off + m + (k - (tot + m))) with (off + (k - tot)) by lia.
    split; [by rewrite put_l_twice|]. split; [by apply (later_trans _ e1)|]. split; [done|].
    rewrite <- (take_drop (Z.to_nat m) bs). eapply written_app; [exact Hw|]. by rewrite Hlm.
Qed.
End writing.

(** The inode block is none of the file's. *)
Record apart (V : Z -> list Z) (x : inode) (b : Z) : Prop := {
  ap_file : forall bn, in_file x bn -> b <> file_block V x bn;
  ap_ind : b <> addr_at x NDIRECT \/ addr_at x NDIRECT = 0
}.

(** A change of a block outside the file does not change the file. *)
Lemma outside_file V x b d :
  apart V x b -> file_ok V x ->
  (forall bn, file_block (vset b d V) x bn = file_block V x bn) /\ file_ok (vset b d V) x /\
  forall o, 0 <= o < i_size x -> file_byte (vset b d V) x o = file_byte V x o.
Proof.
  intros [A1 A2] [F1 F2 F3].
  assert (Hb : forall bn, file_block (vset b d V) x bn = file_block V x bn).
  { intros bn. unfold file_block. destruct (bn <? NDIRECT); [done|]. destruct (Z.eqb_spec (addr_at x NDIRECT) 0); [done|].
    rewrite vset_other; [done|]. destruct A2; congruence. }
  split; [exact Hb|]. split.
  - split; [done|intros bn ? ?; rewrite Hb; by apply F2|]. intros bn H1 H2. rewrite Hb, vset_other; [by apply F3|].
    apply not_eq_sym, A1. by split.
  - intros o Ho. unfold file_byte. rewrite Hb, vset_other; [done|]. apply not_eq_sym, A1.
    split; [apply Z.div_pos; [lia|apply BS_pos]|unfold BS, BSIZE in *; zdm].
Qed.

(** writei() of bytes that lie inside the file. *)
Lemma writei_inside dev start e V n s ip off bs :
  let x := nth_inode ip s in
  let k := Z.of_nat (length bs) in
  let ib := IBLOCK (i_inum x) (fs_sb s) in
  dev <> 0 -> fs_free e -> in_txn dev start e V (S (Z.to_nat (k / BS + 2) + n)) s ->
  ilayout start (fs_sb s) -> 0 <= i_inum x < sb_ninodes (fs_sb s) -> i_dev x = dev ->
  file_ok V x -> file_own start V x -> apart V x ib ->
  0 <= off -> off + k <= i_size x -> Forall (fun b => 0 <= b < 256) bs ->
  exists e' l V', writei ip (Local bs) off k e s = Ok k e' (put_l l s) /\ fs_free e' /\
    in_txn dev start e' V' n (put_l l s) /\ file_ok V' x /\
    (forall o, 0 <= o < i_size x -> file_byte V' x o = if (off <=? o) && (o <? off + k) then default 0 (bs !! Z.to_nat (o - off))
                                     else file_byte V x o) /\
    (forall b, b <> ib -> (forall bn, in_file x bn -> b <> file_block V x bn) -> V' b = V b).
Proof.
  intros x k ib Hd Hf Ht Hla Hin Hdev Hok Hown Hap Ho Hs Hbs. pose proof (bio_cache dev Hd) as HBC.
  pose proof (fi_size _ _ Hok) as Hsz. change (MAXFILE * BS) with 274432 in Hsz.
  replace (S (Z.to_nat (k / BS + 2) + n)) with (Z.to_nat (k / BS + 2) + S n)%nat in Ht by lia.
  destruct (writei_loop_run (dev := dev) (rep := babs dev) (start := start) (Z.to_nat (k / BS + 2)) e s V (S n) ip bs off k 0)
    as (e1 & l1 & V1 & E1 & L1 & T1 & W1); try done; try (fold x; lia).
  { intros _. unfold BS, BSIZE in *. zdm. }
  rewrite !Z.sub_0_r in E1. set (s1 := put_l l1 s) in *. assert (Hf1 : fs_free e1) by (by apply (fs_free_later e)).
  destruct (iupdate_run (dev := dev) (rep := babs dev) (start := start) e1 s1 V1 ∅ n ip) as (e2 & l2 & E2 & L2 & T2);
    try done; [rewrite map_size_empty; lia|].
  change (nth_inode ip s1) with x in *. change (fs_sb s1) with (fs_sb s) in *. fold ib in T2.
  set (V2 := vset ib _ V1) in *. fold x in W1.
  assert (Hap1 : apart V1 x ib).
  { destruct Hap as [A1 A2]. split; [|done]. intros bn Hbn. rewrite (wr_blocks _ _ _ _ _ W1). by apply A1. }
  destruct (outside_file V1 x ib (put_at (V1 ib) (i_inum x mod IPB * sizeof_dinode) (dinode_bytes x)) Hap1 (wr_ok _ _ _ _ _ W1)) as (O1 & O2 & O3).
  exists e2, l2, V2. split; [|split; [by apply (fs_free_later e1)|split; [by unfold s1 in T2; rewrite put_l_twice in T2|split; [exact O2|split]]]].
  - unfold writei, geti. rewrite bind_eq. kred. fold x. rewrite u32_small by lia.
    rewrite (proj2 (Z.ltb_ge (i_size x) off)), (proj2 (Z.ltb_ge (off + k) off)) by lia. cbn [orb].
    change (MAXFILE * Z.of_nat BSIZE) with 274432. rewrite (proj2 (Z.ltb_ge 274432 (off + k))) by lia.
    rewrite bind_eq. fold BS. rewrite E1. cbn [rbind fst snd]. rewrite bind_eq. kred. change (nth_inode ip s1) with x.
    rewrite (proj2 (Z.ltb_ge (i_size x) (off + k))) by lia. rewrite bind_eq. kred. rewrite bind_eq, E2. kred. by rewrite i32_small by lia.
  - intros o Hox. unfold V2. rewrite O3 by done. by apply (wr_bytes _ _ _ _ _ W1).
  - intros b Hb Hfb. unfold V2. rewrite vset_other by done. by apply (wr_frame _ _ _ _ _ W1).
Qed.

(** What the file holds after such a write. *)
Section bytes.
Context (V V' : Z -> list Z) (x : inode) (off : Z) (bs : list Z).
Hypothesis Hbytes : forall o, 0 <= o < i_size x ->
  file_byte V' x o = if (off <=? o) && (o <? off + Z.of_nat (length bs)) then default 0 (bs !! Z.to_nat (o - off))
                     else file_byte V x o.
Hypothesis Hoff : 0 <= off.

Lemma bytes_at : off + Z.of_nat (length bs) <= i_size x -> file_bytes V' x off (Z.of_nat (length bs)) = bs.
Proof using Hbytes Hoff.
  intros Hs. apply list_eq_same_length with (n := length bs); [done|by rewrite length_file_bytes, Nat2Z.id|].
  intros i a b Hi Ha Hb. unfold file_bytes in Ha. rewrite list_lookup_fmap, lookup_seqZ_lt in Ha by lia. injection Ha as <-.
  rewrite Hbytes by lia. destruct (Z.leb_spec off (off + Z.of_nat i)); [|lia].
  destruct (Z.ltb_spec (off + Z.of_nat i) (off + Z.of_nat (length bs))); [|lia]. cbn [andb].
  replace (Z.to_nat (off + Z.of_nat i - off)) with i by lia. by rewrite Hb.
Qed.

Lemma bytes_off o k :
  0 <= o -> o + k <= i_size x -> o + k <= off \/ off + Z.of_nat (length bs) <= o ->
  file_bytes V' x o k = file_bytes V x o k.
Proof using Hbytes Hoff.
  intros Ho Hs Hd. unfold file_bytes. apply map_ext_in. intros i Hi. apply list_elem_of_In, elem_of_seqZ in Hi.
  rewrite Hbytes by lia. destruct (Z.leb_spec off i), (Z.ltb_spec i (off + Z.of_nat (length bs))); cbn [andb]; try done. lia.
Qed.
End bytes.

(** C24: what writei() writes, readi() returns.  A write from a local
    structure of bytes that lie inside the file returns their number, without
    panicking, sleeping or running out of loop iterations, in a transaction
    with room for the blocks it touches and the inode's.  In the view it
    leaves, the file's bytes are the written ones at the offset and the old
    ones elsewhere; no block but the file's and that of the inode has
    changed; and a read of the same range returns exactly what was written. *)
Theorem writei_readi dev start e V n s ip off bs :
  let x := nth_inode ip s in
  let k := Z.of_nat (length bs) in
  let ib := IBLOCK (i_inum x) (fs_sb s) in
  dev <> 0 -> fs_free e -> in_txn dev start e V (S (Z.to_nat (k / BS + 2) + n)) s ->
  ilayout start (fs_sb s) -> 0 <= i_inum x < sb_ninodes (fs_sb s) -> i_dev x = dev ->
  file_ok V x -> file_own start V x -> apart V x ib ->
  0 <= off -> off + k <= i_size x -> Forall (fun b => 0 <= b < 256) bs ->
  exists e' s' V', writei ip (Local bs) off k e s = Ok k e' s' /\ in_txn dev start e' V' n s' /\
    fs_inodes s' = fs_inodes s /\
    (forall o, 0 <= o < i_size x -> file_byte V' x o = if (off <=? o) && (o <? off + k) then default 0 (bs !! Z.to_nat (o - off))
                                     else file_byte V x o) /\
    (forall b, b <> ib -> (forall bn, in_file x bn -> b <> file_block V x bn) -> V' b = V b) /\
    exists e2 s2, readi ip (Local []) off k e' s' = Ok (k, bs) e2 s2 /\ in_txn dev start e2 V' n s2.
Proof.
  intros x k ib Hd Hf Ht Hla Hin Hdev Hok Hown Hap Ho Hs Hbs. pose proof (bio_cache dev Hd) as HBC.
  pose proof (fi_size _ _ Hok) as Hsz. change (MAXFILE * BS) with 274432 in Hsz.
  destruct (writei_inside dev start e V n s ip off bs) as (e' & l & V' & E & F & T & O2 & Hb & Hfr); try done.
  destruct (readi_run (dev := dev) (rep := babs dev) (start := start) e' (put_l l s) V' n ip [] off k)
    as (e3 & l3 & E3 & L3 & T3); try done; try lia.
  change (nth_inode ip (put_l l s)) with x in E3.
  exists e', (put_l l s), V'. do 5 (split; [done|]).
  exists e3, (put_l l3 (put_l l s)). split; [|exact T3]. rewrite E3.
  assert (Hr : readable x off k = k) by (unfold readable; rewrite (proj2 (Z.ltb_ge (i_size x) off)); lia).
  rewrite Hr. do 2 f_equal. by apply (bytes_at V).
Qed.

(** The directory of block 50, whatever the disk holds. *)
Lemma demo_in_file bn : in_file demo_dir bn -> bn = 0.
Proof. intros []; cbn in *; unfold BS, BSIZE in *; lia. Qed.

Lemma demo_own V : file_own 2 V demo_dir.
Proof.
  split.
  - intros bn bn' B1 B2 _. by rewrite (demo_in_file bn B1), (demo_in_file bn' B2).
  - intros bn ->%demo_in_file. split; [done|]. by right.
  - intros bn _. by right.
Qed.

Lemma demo_apart V : apart V demo_dir (IBLOCK (i_inum demo_dir) demo_sb).
Proof. split; [|by right]. by intros bn ->%demo_in_file. Qed.

(** Two bytes at offset 3 of the directory of block 50. *)
Lemma writei_readi_witness :
  exists s e' s' e2 s2, writei 0 (Local [1; 2]) 3 2 demo_fs_env s = Ok 2 e' s' /\ readi 0 (Local []) 3 2 e' s' = Ok (2, [1; 2]) e2 s2.
Proof.
  destruct (demo_txn demo_dir_disk (mkPstate [] 1 None [] 0 SCHED_FCFS [] (mkKmem 0 ∅)) [demo_dir]) as (s & Ht & Hsb & _ & Hi).
  assert (Hx : nth_inode 0 s = demo_dir) by (unfold nth_inode; by rewrite Hi).
  pose proof (writei_readi 1 2 demo_fs_env (disk_read demo_dir_disk) 7 s 0 3 [1; 2]) as H.
  rewrite Hx, Hsb in H. cbv zeta in H. change (Z.of_nat (length [1; 2])) with 2 in H.
  destruct H as (e' & s' & V' & H1 & _ & _ & _ & _ & e2 & s2 & H2 & _).
  - done.
  - exact demo_fs_free.
  - exact Ht.
  - exact demo_ilayout.
  - cbn. lia.
  - done.
  - exact demo_dir_ok.
  - apply demo_own.
  - apply demo_apart.
  - done.
  - cbn. lia.
  - repeat constructor; lia.
  - by exists s, e', s', e2, s2.
Defined.
