(* ===== verification/DirSpec.v ===== *)
(** * Directory entries: dirlink() and dirlookup()

    dirlink() takes the first free entry of the directory, writes the inode
    number and the name there through writei(), and leaves the other entries;
    dirlookup() then finds the name. *)

From S2P Require Import Prelude KMonad CString Sleeplock Bio BioSpec BioAbs Log LogSpec LogCrash LogOps.
From S2P Require Import Txn Riscv Kalloc Vm Proc Fs FsSpec InodeSpec FileSpec WriteSpec.
Open Scope kmonad_scope.

(** ** Reference *)

(** The entry [j] is the first free one. *)
Definition first_free (V : Z -> list Z) (x : inode) (j : Z) : Prop :=
  0 <= j < i_size x / 16 /\ de_inum (entry V x j) = 0 /\ forall i, 0 <= i < j -> de_inum (entry V x i) <> 0.

(** A name as strncpy() leaves it in an entry: padded with NULs. *)
Definition padded (name : list Z) : list Z := until_nul name ++ replicate (14 - length (until_nul name)) 0.

(** The directory's entry [j] is (inum, name) and the other ones are as
    before. *)
Definition linked (V V' : Z -> list Z) (x : inode) (j : Z) (name : list Z) (inum : Z) : Prop :=
  entry V' x j = le_bytes 2 inum ++ padded name /\
  forall i, 0 <= i < i_size x / 16 -> i <> j -> entry V' x i = entry V x i.

(** ** The new entry *)

Lemma until_nul_no_nul l : Forall (fun b => b <> 0) (until_nul l).
Proof. induction l as [|b l IH]; simpl; [done|]. destruct (Z.eqb_spec b 0); [done|by constructor]. Qed.

Lemma until_nul_app_zeros l k : Forall (fun b => b <> 0) l -> until_nul (l ++ replicate k 0) = l.
Proof.
  induction 1 as [|b l Hb _ IH]; simpl; [by destruct k|]. destruct (Z.eqb_spec b 0); [done|by rewrite IH].
Qed.

Lemma until_nul_padded name : until_nul (padded name) = until_nul name.
Proof. apply until_nul_app_zeros, until_nul_no_nul. Qed.

Lemma length_padded name : length name = 14%nat -> length (padded name) = 14%nat.
Proof. intros H. unfold padded. rewrite length_app, length_replicate. pose proof (length_until_nul name). lia. Qed.

Lemma until_nul_range name :
  Forall (fun b => 0 <= b < 256) name -> Forall (fun b => 0 <= b < 256) (until_nul name).
Proof. induction 1; simpl; [done|]. destruct (_ =? 0); by constructor. Qed.

Lemma padded_range name : Forall (fun b => 0 <= b < 256) name -> Forall (fun b => 0 <= b < 256) (padded name).
Proof. intros H. apply Forall_app_2; [by apply until_nul_range|]. apply Forall_replicate. lia. Qed.

Lemma strncpy_arr_padded dst name :
  length dst = 14%nat -> length name = 14%nat -> strncpy_arr dst name DIRSIZ = padded name.
Proof.
  intros Hd Hn. unfold strncpy_arr, strncpy. change (Z.to_nat DIRSIZ) with 14%nat.
  rewrite strncpy_loop_mwrite by lia.
  assert (bstr (arrays dst name) 4096 14 = until_nul name) as ->
    by (unfold bstr, arrays; rewrite <- Hn; by rewrite mread_mwrite_same).
  fold (padded name). rewrite Hd. rewrite <- (length_padded name Hn). apply mread_mwrite_same.
Qed.

Lemma new_entry_fields inum name :
  0 <= inum < 2 ^ 16 -> length name = 14%nat ->
  de_inum (le_bytes 2 inum ++ padded name) = inum /\ de_name (le_bytes 2 inum ++ padded name) = padded name.
Proof.
  intros Hi Hn. split.
  - change (le_val (le_bytes 2 inum) = inum). rewrite le_val_bytes. apply Z.mod_small. lia.
  - unfold de_name. rewrite drop_app_length' by done. apply take_ge. by rewrite length_padded.
Qed.

Lemma new_entry_matches inum name :
  0 < inum < 2 ^ 16 -> length name = 14%nat -> matches name (le_bytes 2 inum ++ padded name) = true.
Proof.
  intros Hi Hn. unfold matches. destruct (new_entry_fields inum name) as [-> ->]; [lia|done|].
  rewrite until_nul_padded, bool_decide_true by done. by destruct (Z.eqb_spec inum 0); [lia|].
Qed.

(** Writing the new entry over the entry [j]. *)
Lemma linked_written V V' x j name inum :
  let de := le_bytes 2 inum ++ padded name in
  length name = 14%nat -> 0 <= j < i_size x / 16 ->
  (forall o, 0 <= o < i_size x ->
     file_byte V' x o = if (16 * j <=? o) && (o <? 16 * j + Z.of_nat (length de)) then default 0 (de !! Z.to_nat (o - 16 * j))
                        else file_byte V x o) ->
  linked V V' x j name inum.
Proof.
  intros de Hn Hj Hb.
  assert (Hde : length de = 16%nat) by (unfold de; rewrite length_app, length_padded by done; done). split.
  - pose proof (bytes_at V V' x (16 * j) de Hb) as B. rewrite Hde in B. apply B; [lia|zdm].
  - intros i H1 H2. apply (bytes_off V V' x (16 * j) de Hb); rewrite ?Hde; zdm.
Qed.

(** Before the new entry nothing matches, so the search ends there. *)
Lemma linked_find k V V' x j name inum :
  linked V V' x j name inum -> 0 < inum < 2 ^ 16 -> length name = 14%nat ->
  0 <= j < Z.of_nat k -> Z.of_nat k = i_size x / 16 ->
  (forall i, 0 <= i < Z.of_nat k -> matches name (entry V x i) = false) ->
  dir_find k V' x name 0 = Some j.
Proof.
  intros [L1 L2] Hi Hn Hj Hk Hno. pose proof (dir_find_spec k V' x name 0) as F.
  assert (Hm : matches name (entry V' x j) = true) by (rewrite L1; by apply new_entry_matches).
  destruct (dir_find k V' x name 0) as [i|].
  - destruct F as (F1 & F2 & F3). destruct (decide (i = j)) as [->|Hne]; [done|].
    rewrite L2, Hno in F2 by lia. done.
  - rewrite F in Hm by lia. done.
Qed.

(** ** The search for a free entry *)

Section scan.
Context {dev : Z} {rep : Z -> bstate -> cabs -> Prop} `{HBC : !BlockCache dev rep} {start : Z}.
Local Notation ftx := (@ftx dev rep start).

Lemma dirlink_scan_S fuel dp off de :
  dirlink_scan (S fuel) dp off de =
  (size <- geti dp i_size ;;
   if off <? size then
     r <- readi dp (Local []) off sizeof_dirent ;;
     if negb (r.1 =? sizeof_dirent) then panic "dirlink read"
     else if de_inum r.2 =? 0 then ret (off, r.2)
     else dirlink_scan fuel dp (off + sizeof_dirent) r.2
   else ret (off, de)).
Proof using. done. Qed.

Lemma dirlink_scan_run k e s V n dp i j de :
  let x := nth_inode dp s in
  fs_free e -> ftx (e_pid e) V ∅ n s -> i_dev x = dev -> file_ok V x -> first_free V x j ->
  0 <= i <= j -> j < i + Z.of_nat k ->
  exists e' l, later e e' /\ ftx (e_pid e') V ∅ n (put_l l s) /\
    dirlink_scan k dp (16 * i) de e s = Ok (16 * j, entry V x j) e' (put_l l s).
Proof using HBC.
  revert e s i de. induction k as [|k IH]; intros e s i de x Hf Ht Hdev Hok Hfree Hi Hk; [lia|].
  pose proof Hfree as (F1 & F2 & F3). pose proof (fi_size _ _ Hok) as Hmax. change (MAXFILE * BS) with 274432 in Hmax.
  assert (Hin : 16 * i + 16 <= i_size x) by zdm.
  rewrite dirlink_scan_S. unfold geti. rewrite bind_eq. kred. fold x. rewrite (proj2 (Z.ltb_lt (16 * i) (i_size x))) by lia.
  change sizeof_dirent with 16.
  destruct (readi_run e s V n dp [] (16 * i) 16 Hf Ht Hdev Hok) as (e1 & l1 & R1 & R2 & R3); [lia..|].
  fold x in R1. assert (readable x (16 * i) 16 = 16) as Hr.
  { unfold readable. destruct (Z.ltb_spec (i_size x) (16 * i)); lia. }
  rewrite Hr in R1. fold (entry V x i) in R1. rewrite bind_eq, R1. cbn [rbind fst snd]. change (16 =? 16) with true.
  cbn [negb]. destruct (decide (i = j)) as [->|Hne].
  { rewrite F2. kred. by exists e1, l1. }
  destruct (Z.eqb_spec (de_inum (entry V x i)) 0) as [Hz|_]; [by apply F3 in Hz; [|lia]|].
  replace (16 * i + 16) with (16 * (i + 1)) by lia.
  destruct (IH e1 (put_l l1 s) (i + 1) (entry V x i)) as (e2 & l2 & L1 & L2 & L3); try done;
    [by apply (fs_free_later e)|lia..|].
  exists e2, l2. split; [by apply (later_trans _ e1)|]. done.
Qed.
End scan.

(** ** The whole operation *)

Lemma dir_find_none k V x name :
  (forall i, 0 <= i < Z.of_nat k -> matches name (entry V x i) = false) -> dir_find k V x name 0 = None.
Proof.
  intros H. pose proof (dir_find_spec k V x name 0) as F. destruct (dir_find k V x name 0) as [i|]; [|done].
  destruct F as (F1 & F2 & _). rewrite H in F2 by lia. done.
Qed.

(** C26: what dirlink() links, dirlookup() finds.  In a directory with a free
    entry and without the name, dirlink() returns 0, without panicking,
    sleeping or running out of loop iterations: the first free entry holds the
    inode number and the name, padded with NULs, every other entry is as it
    was, and no block but the directory's and that of its inode has changed.
    dirlookup() of the name in the state it leaves is then iget() of that
    inode number, with the offset of that entry. *)
Theorem dirlink_dirlookup dev start e V n s dp name inum de0 j :
  let x := nth_inode dp s in
  let ib := IBLOCK (i_inum x) (fs_sb s) in
  dev <> 0 -> fs_free e -> in_txn dev start e V (3 + n) s ->
  ilayout start (fs_sb s) -> 0 <= i_inum x < sb_ninodes (fs_sb s) -> i_dev x = dev -> i_type x = T_DIR ->
  file_ok V x -> file_own start V x -> apart V x ib -> i_size x mod 16 = 0 ->
  length name = 14%nat -> Forall (fun b => 0 <= b < 256) name -> 0 < inum < 2 ^ 16 ->
  (forall i, 0 <= i < i_size x / 16 -> matches name (entry V x i) = false) -> first_free V x j ->
  exists e' s' V', dirlink dp name inum de0 e s = Ok 0 e' s' /\ in_txn dev start e' V' n s' /\
    fs_inodes s' = fs_inodes s /\ linked V V' x j name inum /\
    (forall b, b <> ib -> (forall bn, in_file x bn -> b <> file_block V x bn) -> V' b = V b) /\
    exists e2 s2, in_txn dev start e2 V' n s2 /\ fs_inodes s2 = fs_inodes s /\
      dirlookup dp name e' s' = (ip <- iget dev inum ;; ret (Some (ip, 16 * j))) e2 s2.
Proof.
  intros x ib Hd Hf Ht Hla Hin Hdev Hty Hok Hown Hap Hm Hl Hn Hi Hno Hfree. pose proof (bio_cache dev Hd) as HBC.
  pose proof (fi_size _ _ Hok) as [Hs _]. pose proof Hfree as (F1 & F2 & F3).
  destruct (dirlookup_run dev start e V (3 + n) s dp name) as (e1 & l1 & L1 & T1 & E1); try done. fold x in E1.
  rewrite dir_find_none in E1 by (intros; apply Hno; zdm). set (s1 := put_l l1 s) in *.
  destruct (dirlink_scan_run (dev := dev) (rep := babs dev) (start := start) (Z.to_nat (i_size x / 16 + 1))
              e1 s1 V (3 + n) dp 0 j de0) as (e2 & l2 & L2 & T2 & E2); try done; [by apply (fs_free_later e)|lia|zdm|].
  change (nth_inode dp s1) with x in E2. set (s2 := put_l l2 s1) in *. change (16 * 0) with 0 in E2.
  destruct (entry_name V x j Hok) as [N1 N2]; [lia|zdm|].
  set (de := le_bytes 2 inum ++ padded name).
  assert (Hde : length de = 16%nat) by (unfold de; rewrite length_app, length_padded by done; done).
  destruct (writei_inside dev start e2 V n s2 dp (16 * j) de) as (e3 & l3 & V' & E3 & F & T3 & O & Hb & Hfr); try done.
  { apply (fs_free_later e1); [done|by apply (fs_free_later e)]. }
  { rewrite Hde. exact T2. }
  { lia. }
  { change (nth_inode dp s2) with x. rewrite Hde. zdm. }
  { apply Forall_app_2; [apply le_bytes_range|by apply padded_range]. }
  change (nth_inode dp s2) with x in *. set (s3 := put_l l3 s2) in *.
  assert (Hlk : linked V V' x j name inum) by (by apply linked_written).
  exists e3, s3, V'. split.
  { unfold dirlink. rewrite bind_eq, E1. cbn [rbind]. unfold geti. rewrite bind_eq. kred. fold s1.
    change (nth_inode dp s1) with x. rewrite bind_eq. change sizeof_dirent with 16. rewrite E2. cbn [rbind fst snd].
    rewrite strncpy_arr_padded by done. fold de. rewrite bind_eq. rewrite Hde in E3. change (Z.of_nat 16) with 16 in E3.
    rewrite E3. by kred. }
  split; [done|]. split; [done|]. split; [done|]. split; [done|].
  destruct (dirlookup_run dev start e3 V' n s3 dp name) as (e4 & l4 & L4 & T4 & E4); try done.
  change (nth_inode dp s3) with x in E4. exists e4, (put_l l4 s3). split; [done|]. split; [done|]. rewrite E4.
  rewrite (linked_find _ V V' x j name inum) by (done || zdm || (intros; apply Hno; zdm)).
  destruct Hlk as [-> _]. by destruct (new_entry_fields inum name) as [-> _]; [lia|done|].
Qed.

(** ** Witness: the directory of block 50 with the entry "a" and a free one *)

Definition demo_free_disk : disk := mkDisk {[ 50 := demo_entry 7 97 ++ replicate 1008 0 ]} [].

Lemma demo_free_ok : file_ok (disk_read demo_free_disk) demo_dir.
Proof.
  split; [done|..]; intros bn H1 H2; rewrite (demo_in_file bn (conj H1 H2)).
  - by vm_compute.
  - split; [by vm_compute|]. apply (bool_decide_unpack (Forall _ _)). by vm_compute.
Qed.

Lemma dirlink_dirlookup_witness :
  exists s e' s' e2 s2, dirlink 0 (demo_name 98) 9 [] demo_fs_env s = Ok 0 e' s' /\
    dirlookup 0 (demo_name 98) e' s' = (ip <- iget 1 9 ;; ret (Some (ip, 16))) e2 s2.
Proof.
  destruct (demo_txn demo_free_disk (mkPstate [] 1 None [] 0 SCHED_FCFS [] (mkKmem 0 ∅)) [demo_dir]) as (s & Ht & Hsb & _ & Hi).
  assert (Hx : nth_inode 0 s = demo_dir) by (unfold nth_inode; by rewrite Hi).
  pose proof (dirlink_dirlookup 1 2 demo_fs_env (disk_read demo_free_disk) 7 s 0 (demo_name 98) 9 [] 1) as H.
  rewrite Hx, Hsb in H. cbv zeta in H. change (i_size demo_dir / 16) with 2 in H.
  assert (Hj : forall j, 0 <= j < 2 -> j = 0 \/ j = 1) by lia.
  destruct H as (e' & s' & V' & H1 & _ & _ & _ & _ & e2 & s2 & _ & _ & H2).
  - done.
  - exact demo_fs_free.
  - exact Ht.
  - exact demo_ilayout.
  - cbn. lia.
  - done.
  - done.
  - exact demo_free_ok.
  - apply demo_own.
  - apply demo_apart.
  - done.
  - done.
  - apply (bool_decide_unpack (Forall _ _)). by vm_compute.
  - lia.
  - intros j [-> | ->]%Hj; by vm_compute.
  - split; [by vm_compute|]. split; [by vm_compute|]. intros j Hj0. assert (j = 0) as -> by lia. by vm_compute.
  - by exists s, e', s', e2, s2.
Defined.
