(* ===== verification/Pipe.v ===== *)
(** * kernel/pipe.c: pipes

    A struct pipe lives in a page of its own; [pipes] maps the address of the
    page to its fields.  pipealloc(), which also works on the file table, is
    in File.v. *)

From S2P Require Import Prelude KMonad CString Riscv Kalloc Vm Proc.
Open Scope kmonad_scope.

Definition PIPESIZE : Z := 512.

Record pipe : Set := mkPipe {
  pi_data : list Z;           (* PIPESIZE bytes *)
  pi_nread : Z;
  pi_nwrite : Z;
  pi_readopen : bool;
  pi_writeopen : bool
}.

Definition set_pdata v p := mkPipe v (pi_nread p) (pi_nwrite p) (pi_readopen p) (pi_writeopen p).
Definition set_nread v p := mkPipe (pi_data p) v (pi_nwrite p) (pi_readopen p) (pi_writeopen p).
Definition set_nwrite v p := mkPipe (pi_data p) (pi_nread p) v (pi_readopen p) (pi_writeopen p).
Definition set_readopen v p := mkPipe (pi_data p) (pi_nread p) (pi_nwrite p) v (pi_writeopen p).
Definition set_writeopen v p := mkPipe (pi_data p) (pi_nread p) (pi_nwrite p) (pi_readopen p) v.

Record pipestate : Type := mkPipestate { pp_p : pstate; pipes : gmap Z pipe }.

Definition put_pp (p : pstate) (s : pipestate) : pipestate := mkPipestate p (pipes s).
Definition set_pipes (m : gmap Z pipe) (s : pipestate) : pipestate := mkPipestate (pp_p s) m.
Definition in_p {A} (m : K pstate A) : K pipestate A := zoom pp_p put_pp m.

(** The pipe at [pi]; a page that holds none is a dangling pointer. *)
Definition getpipe (pi : Z) : K pipestate pipe :=
  m <- gets pipes ;;
  match m !! pi with
  | Some p => ret p
  | None => panic "undefined: no pipe"
  end.
Definition modpipe (pi : Z) (f : pipe -> pipe) : K pipestate unit :=
  modify (fun s => set_pipes (alter f pi (pipes s)) s).

(** pi->data[pi->nwrite++ % PIPESIZE] = ch; *)
Definition pipe_put (c : Z) (p : pipe) : pipe :=
  set_nwrite (u32 (pi_nwrite p + 1))
    (set_pdata (<[Z.to_nat (pi_nwrite p mod PIPESIZE) := c]> (pi_data p)) p).

(** ch = pi->data[pi->nread++ % PIPESIZE]; *)
Definition pipe_head (p : pipe) : Z := default 0 (pi_data p !! Z.to_nat (pi_nread p mod PIPESIZE)).
Definition pipe_get (p : pipe) : pipe := set_nread (u32 (pi_nread p + 1)) p.

Definition pipe_full (p : pipe) : bool := pi_nwrite p =? u32 (pi_nread p + PIPESIZE).
Definition pipe_empty (p : pipe) : bool := pi_nread p =? pi_nwrite p.

Section pipe.
Variable kend : Z.

Definition pipeclose (pi : Z) (writable : bool) : K pipestate unit :=
  acquire (LkPipe pi) ;;;
  (if writable then
     modpipe pi (set_writeopen false) ;;; KMonad.wakeup (ChPipeRead pi)
   else
     modpipe pi (set_readopen false) ;;; KMonad.wakeup (ChPipeWrite pi)) ;;;
  p <- getpipe pi ;;
  if negb (pi_readopen p) && negb (pi_writeopen p) then
    release (LkPipe pi) ;;;
    modify (fun s => set_pipes (delete pi (pipes s)) s) ;;;
    in_p (kmm (kfree kend pi))
  else release (LkPipe pi).

(** while(i < n): every iteration sleeps or stores a byte. *)
Fixpoint pipewrite_loop (fuel : nat) (pi addr n i : Z) : K pipestate Z :=
  if i <? n then
    match fuel with
    | O => out_of_fuel
    | S fuel =>
        me <- asks e_me ;;
        p <- getpipe pi ;;
        k <- (if pi_readopen p then in_p (killed me) else ret 1) ;;
        if negb (pi_readopen p) || negb (k =? 0) then
          release (LkPipe pi) ;;; ret (-1)
        else if pipe_full p then
          KMonad.wakeup (ChPipeRead pi) ;;;
          KMonad.sleep (ChPipeWrite pi) (LkPipe pi) ;;;
          pipewrite_loop fuel pi addr n i
        else
          pt <- in_p (getp me p_pagetable) ;;
          r <- in_p (kmm (copyin pt (u64 (addr + i)) 1)) ;;
          if r.1 =? -1 then
            KMonad.wakeup (ChPipeRead pi) ;;; release (LkPipe pi) ;;; ret i
          else
            modpipe pi (pipe_put (default 0 (head r.2))) ;;;
            pipewrite_loop fuel pi addr n (i + 1)
    end
  else
    KMonad.wakeup (ChPipeRead pi) ;;; release (LkPipe pi) ;;; ret i.

Definition pipewrite (pi addr n : Z) : K pipestate Z :=
  acquire (LkPipe pi) ;;;
  spin <- asks e_spin ;;
  pipewrite_loop (Z.to_nat n + spin) pi addr n 0.

(** The wait for data; the result is false when the reader was killed. *)
Fixpoint piperead_wait (fuel : nat) (pi : Z) : K pipestate bool :=
  p <- getpipe pi ;;
  if pipe_empty p && pi_writeopen p then
    me <- asks e_me ;;
    k <- in_p (killed me) ;;
    if negb (k =? 0) then release (LkPipe pi) ;;; ret false
    else
      match fuel with
      | O => out_of_fuel
      | S fuel =>
          KMonad.sleep (ChPipeRead pi) (LkPipe pi) ;;;
          piperead_wait fuel pi
      end
  else ret true.

(** for(i = 0; i < n; i++), [k] iterations left. *)
Fixpoint piperead_copy (k : nat) (pi addr i : Z) : K pipestate Z :=
  match k with
  | O => ret i
  | S k =>
      p <- getpipe pi ;;
      if pipe_empty p then ret i
      else
        let ch := pipe_head p in
        modpipe pi pipe_get ;;;
        me <- asks e_me ;;
        pt <- in_p (getp me p_pagetable) ;;
        r <- in_p (kmm (copyout pt (u64 (addr + i)) [ch])) ;;
        if r =? -1 then ret i else piperead_copy k pi addr (i + 1)
  end.

Definition piperead (pi addr n : Z) : K pipestate Z :=
  acquire (LkPipe pi) ;;;
  spin <- asks e_spin ;;
  ok <- piperead_wait spin pi ;;
  if negb ok then ret (-1)
  else
    i <- piperead_copy (Z.to_nat n) pi addr 0 ;;
    KMonad.wakeup (ChPipeWrite pi) ;;;
    release (LkPipe pi) ;;;
    ret i.
End pipe.
