(* ===== verification/PipeSpec.v ===== *)
(** * Pipes are bounded FIFO queues

    The ring buffer of a pipe with its 32-bit counters, which wrap around, is
    the queue [queue p]; pipewrite() enqueues the writer's bytes in order,
    sleeping whenever the pipe is full, and piperead() dequeues them into the
    reader's memory. *)

From S2P Require Import Prelude Ring KMonad Hoare CString Riscv Kalloc Vm PageTable VmSpec UCopy.
From S2P Require Import VmThms Proc ProcSpec Pipe.
Open Scope kmonad_scope.

(** ** The queue a pipe holds *)

Definition pipe_count (p : pipe) : Z := u32 (pi_nwrite p - pi_nread p).

Definition queue (p : pipe) : list Z :=
  ring PIPESIZE (pi_data p) (pi_nread p) (Z.to_nat (pipe_count p)).

Record pipe_ok (p : pipe) : Prop := {
  po_len : length (pi_data p) = Z.to_nat PIPESIZE;
  po_nread : 0 <= pi_nread p < 2 ^ 32;
  po_nwrite : 0 <= pi_nwrite p < 2 ^ 32;
  po_count : pipe_count p <= PIPESIZE
}.

Lemma pipe_count_range p : 0 <= pipe_count p < 2 ^ 32.
Proof. apply u32_range. Qed.

Lemma length_queue p : length (queue p) = Z.to_nat (pipe_count p).
Proof. apply length_ring. Qed.

Lemma pipe_full_spec p : pipe_ok p -> pipe_full p = true <-> pipe_count p = PIPESIZE.
Proof.
  intros [_ Hr Hw Hc]. unfold pipe_full, pipe_count, PIPESIZE, u32 in *. rewrite Z.eqb_eq. zdm.
Qed.

Lemma pipe_empty_spec p : pipe_ok p -> pipe_empty p = true <-> queue p = [].
Proof.
  intros [_ Hr Hw Hc]. rewrite <- length_zero_iff_nil, length_queue.
  unfold pipe_empty, pipe_count, PIPESIZE, u32 in *. rewrite Z.eqb_eq. split.
  - intros ->. by rewrite Z.sub_diag.
  - intros H. zdm.
Qed.

(** ** One byte *)

Lemma pipe_put_queue c p :
  pipe_ok p -> pipe_full p = false -> pipe_ok (pipe_put c p) /\ queue (pipe_put c p) = queue p ++ [c].
Proof.
  intros Hok Hf. pose proof Hok as [Hl Hr Hw Hc].
  assert (Hlt : pipe_count p < PIPESIZE).
  { destruct (decide (pipe_count p = PIPESIZE)) as [He|]; [|lia].
    apply (pipe_full_spec p Hok) in He. congruence. }
  pose proof (pipe_count_range p) as Hc0.
  assert (Hcnt : pipe_count (pipe_put c p) = pipe_count p + 1).
  { unfold pipe_count, pipe_put in *. cbn [pi_nwrite pi_nread set_nwrite set_pdata].
    unfold PIPESIZE, u32 in *. zdm. }
  split; [split|].
  - cbn. by rewrite length_insert.
  - done.
  - apply u32_range.
  - lia.
  - unfold queue. rewrite Hcnt. replace (Z.to_nat (pipe_count p + 1)) with (S (Z.to_nat (pipe_count p))) by lia.
    apply ring_push; [done|done|lia|]. unfold pipe_count, PIPESIZE, u32. zdm.
Qed.

Lemma pipe_get_queue p :
  pipe_ok p -> pipe_empty p = false ->
  pipe_ok (pipe_get p) /\ queue p = pipe_head p :: queue (pipe_get p).
Proof.
  intros Hok Hf. pose proof Hok as [Hl Hr Hw Hc].
  assert (Hpos : 0 < pipe_count p).
  { pose proof (pipe_count_range p). destruct (decide (pipe_count p = 0)) as [He|]; [|lia].
    assert (Hq : queue p = []) by (unfold queue; by rewrite He).
    apply (pipe_empty_spec p Hok) in Hq. congruence. }
  assert (Hcnt : pipe_count (pipe_get p) = pipe_count p - 1).
  { unfold pipe_count, pipe_get in *. cbn [pi_nwrite pi_nread set_nread].
    unfold PIPESIZE, u32 in *. zdm. }
  split; [split|].
  - done.
  - apply u32_range.
  - done.
  - lia.
  - unfold queue. rewrite Hcnt. replace (Z.to_nat (pipe_count p)) with (S (Z.to_nat (pipe_count p - 1))) by lia.
    rewrite ring_S. f_equal. unfold pipe_get. cbn [pi_data pi_nread set_nread].
    unfold u32. symmetry. by apply ring_wrap.
Qed.

(** ** Many bytes *)

Definition get_all (n : nat) (p : pipe) : pipe := Nat.iter n pipe_get p.

(** The state with a pipe replaced. *)
Definition with_pipe (pi : Z) (p : pipe) (s : pipestate) : pipestate :=
  set_pipes (<[pi := p]> (pipes s)) s.

Lemma with_pipe_twice pi p q s : with_pipe pi p (with_pipe pi q s) = with_pipe pi p s.
Proof. unfold with_pipe, set_pipes. cbn. by rewrite insert_insert, decide_True. Qed.

Lemma with_pipe_id pi p s : pipes s !! pi = Some p -> with_pipe pi p s = s.
Proof. intros Hp. unfold with_pipe, set_pipes. rewrite insert_id by done. by destruct s. Qed.

Section pipe_runs.
Context (pi addr : Z) (T : gmap Z (nat * Z)) (e : env).
Context (Hlk : LkPipe pi ∉ e_held e) (Hlp : LkProc (e_me e) ∉ e_held e).

Definition kmem_of (s : pipestate) : kmem := ps_kmem (pp_p s).
Definition mem_of (s : pipestate) : mem := kmem_mem (kmem_of s).
Definition root_of (s : pipestate) : Z := p_pagetable (nth_proc (e_me e) (pp_p s)).
Definition set_umem (m : mem) (s : pipestate) : pipestate :=
  put_pp (set_kmem (mkKmem (freelist (kmem_of s)) m) (pp_p s)) s.

Lemma set_umem_id s : set_umem (mem_of s) s = s.
Proof. by destruct s as [[? ? ? ? ? ? ? []] ?]. Qed.

(** The environment inside the critical section. *)
Definition ein : env := set_held (LkPipe pi :: e_held e) e.

Lemma plk_ein : LkProc (e_me e) ∉ e_held ein.
Proof. cbn. set_solver. Qed.

Lemma killed_in s :
  in_p (killed (e_me e)) ein s = Ok (p_killed (nth_proc (e_me e) (pp_p s))) ein s.
Proof.
  unfold in_p, zoom, killed. rewrite bind_eq, acquire_eq by apply plk_ein. krun. unfold getp. krun.
  cbn [rzoom]. by destruct s.
Qed.

Lemma getp_in {A} (f : proc -> A) e' s :
  in_p (getp (e_me e) f) e' s = Ok (f (nth_proc (e_me e) (pp_p s))) e' s.
Proof. unfold in_p, zoom, getp, gets. cbn [rzoom]. by destruct s. Qed.

Lemma copyin_in va len e' s :
  pt_wf (mem_of s) T -> T !! root_of s = Some (2%nat, 0) -> 0 <= va -> 0 <= len ->
  in_p (kmm (copyin (root_of s) va len)) e' s =
    Ok (uread (mem_of s) (root_of s) va (Z.to_nat len)) e' s.
Proof.
  intros Hwf Hr Hva Hl. unfold in_p, kmm, zoom. rewrite (copyin_eq T) by done. cbn [rzoom].
  by destruct s as [[]].
Qed.

Lemma copyout_in va src e' s :
  pt_wf (mem_of s) T -> T !! root_of s = Some (2%nat, 0) -> user_safe (mem_of s) (root_of s) T ->
  0 <= va ->
  in_p (kmm (copyout (root_of s) va src)) e' s =
    let r := uwrite (mem_of s) (root_of s) va src in Ok r.1 e' (set_umem r.2 s).
Proof. intros Hwf Hr Hs Hva. unfold in_p, kmm, zoom. by rewrite (copyout_eq T) by done. Qed.

Lemma getpipe_run e' s p : pipes s !! pi = Some p -> getpipe pi e' s = Ok p e' s.
Proof. intros Hp. unfold getpipe. krun. by rewrite Hp. Qed.

Lemma modpipe_run f e' s p :
  pipes s !! pi = Some p -> modpipe pi f e' s = Ok tt e' (with_pipe pi (f p) s).
Proof.
  intros Hp. unfold modpipe, modify, with_pipe. do 2 f_equal. apply map_eq. intros k.
  destruct (decide (k = pi)) as [->|Hne].
  - rewrite lookup_alter, decide_True, Hp by done. cbn. by rewrite lookup_insert, decide_True.
  - by rewrite lookup_alter_ne, lookup_insert_ne.
Qed.

(** Reading stops when the queue is empty or [k] bytes have been copied. *)
Lemma piperead_copy_run k i s p m' :
  pipes s !! pi = Some p -> pipe_ok p ->
  pt_wf (mem_of s) T -> T !! root_of s = Some (2%nat, 0) -> user_safe (mem_of s) (root_of s) T ->
  0 <= addr -> 0 <= i -> addr + i + Z.of_nat k < 2 ^ 64 ->
  uwrite (mem_of s) (root_of s) (addr + i) (take k (queue p)) = (0, m') ->
  piperead_copy k pi addr i ein s =
    Ok (i + Z.of_nat (length (take k (queue p)))) ein
      (set_umem m' (with_pipe pi (get_all (length (take k (queue p))) p) s)).
Proof.
  revert i s p. induction k as [|k IH]; intros i s p Hp Hok Hwf Hr Hs Ha Hi Hb Hu; cbn [piperead_copy].
  - cbn in Hu. injection Hu as <-. cbn [take length get_all Nat.iter]. rewrite Z.add_0_r.
    unfold with_pipe, set_pipes. rewrite insert_id by done. destruct s. by rewrite set_umem_id.
  - rewrite bind_eq, (getpipe_run _ s p) by done. kred. destruct (pipe_empty p) eqn:He.
    + apply pipe_empty_spec in He; [|done]. rewrite He in *. cbn [take] in *. injection Hu as <-.
      cbn [length get_all Nat.iter]. rewrite Z.add_0_r. unfold with_pipe, set_pipes.
      rewrite insert_id by done. destruct s. by rewrite set_umem_id.
    + destruct (pipe_get_queue p Hok He) as [Hok' Hq]. rewrite Hq in Hu |- *. cbn [take length] in *.
      rewrite bind_eq, (modpipe_run _ _ s p) by done. kred. rewrite bind_eq. kred.
      change (e_me ein) with (e_me e). rewrite bind_eq, getp_in. kred.
      set (s1 := with_pipe pi (pipe_get p) s). change (p_pagetable _) with (root_of s1).
      rewrite u64_small by lia. rewrite bind_eq, copyout_in by (done || lia). cbn zeta.
      change (mem_of s1) with (mem_of s). change (root_of s1) with (root_of s). cbn [uwrite] in *.
      destruct (uwaddr (mem_of s) (root_of s) (addr + i)) as [pa|] eqn:Hpa; [|done]. cbn [fst snd]. kred.
      destruct (ustore_frame (mem_of s) T (root_of s) (addr + i) pa (pipe_head p)) as (Hwf' & Hs' & _);
        [done|done|done|lia|done|].
      cbn [Z.eqb].
      rewrite (IH (i + 1) (set_umem (<[pa := pipe_head p]> (mem_of s)) s1) (pipe_get p)); try done; try lia.
      * f_equal; [lia|]. unfold get_all. rewrite Nat.iter_succ_r.
        rewrite <- (with_pipe_twice pi _ (pipe_get p) s). done.
      * cbn. by rewrite lookup_insert, decide_True.
      * by rewrite <- Z.add_assoc in Hu.
Qed.
End pipe_runs.

Lemma get_all_queue n p :
  pipe_ok p -> (n <= length (queue p))%nat ->
  pipe_ok (get_all n p) /\ queue (get_all n p) = drop n (queue p).
Proof.
  revert p. induction n as [|n IH]; intros p Hok Hn; [done|]. unfold get_all. rewrite Nat.iter_succ_r.
  assert (He : pipe_empty p = false).
  { apply not_true_is_false. intros He. apply pipe_empty_spec in He; [|done]. rewrite He in Hn. simpl in Hn. lia. }
  destruct (pipe_get_queue p Hok He) as [Hok' Hq]. rewrite Hq in *. cbn [length drop] in *.
  apply IH; [done|lia].
Qed.

(** ** What pipewrite() does *)

Section writing.
Context (pi addr n : Z) (T : gmap Z (nat * Z)).

(** [rest] is what the writer still has to write after [i] bytes: the bytes at
    addr + i up to n, or up to the first that cannot be read. *)
Definition user_bytes (e : env) (s : pipestate) (i : Z) (rest : list Z) : Prop :=
  uread (mem_of s) (root_of e s) (addr + i) (Z.to_nat (n - i)) =
    (if i + Z.of_nat (length rest) =? n then 0 else -1, rest).

(** A state in which the writer can run. *)
Record writer_at (e : env) (s : pipestate) (i : Z) (rest : list Z) : Prop := {
  wa_held : e_held e = [];
  wa_wf : pt_wf (mem_of s) T;
  wa_root : T !! root_of e s = Some (2%nat, 0);
  wa_bytes : user_bytes e s i rest
}.

(** p' is p with [bs] added at the end of its queue. *)
Definition enqueued (bs : list Z) (p p' : pipe) : Prop :=
  pipe_ok p' /\ queue p' = queue p ++ bs /\ pi_readopen p' = pi_readopen p /\ pi_writeopen p' = pi_writeopen p.

Definition room (p : pipe) : nat := Z.to_nat PIPESIZE - length (queue p).

(** The bytes fit, and if the write ends at a byte that cannot be read there
    is a free place when that byte is reached. *)
Definition fits (i : Z) (rest : list Z) (p : pipe) : bool :=
  if i + Z.of_nat (length rest) =? n then (length rest <=? room p)%nat else (length rest <? room p)%nat.

(** [resumed e1 i rest s1 r]: what the writer's outcome [r] must be after it
    was woken. *)
Definition writes_step (resumed : env -> Z -> list Z -> pipestate -> res pipestate Z -> Prop)
    (e : env) (i : Z) (rest : list Z) (s : pipestate) (r : res pipestate Z) : Prop :=
  exists p, pipes s !! pi = Some p /\
  let woken := add_woken [ChPipeRead pi] e in
  if i =? n then r = Ok n woken s
  else if negb (pi_readopen p) || negb (p_killed (nth_proc (e_me e) (pp_p s)) =? 0) then r = Ok (-1) e s
  else if fits i rest p then
    exists p', enqueued rest p p' /\ r = Ok (i + Z.of_nat (length rest)) woken (with_pipe pi p' s)
  else
    exists p' k, enqueued (take (room p) rest) p p' /\ r = Sleep (ChPipeWrite pi) woken (with_pipe pi p' s) k /\
      forall e1 s1 p1, e_me e1 = e_me e -> writer_at e1 s1 (i + Z.of_nat (room p)) (drop (room p) rest) ->
        pipes s1 !! pi = Some p1 -> pipe_ok p1 ->
        resumed e1 (i + Z.of_nat (room p)) (drop (room p) rest) s1 (k e1 s1).

(** The behaviour of a write up to the [w]-th time it sleeps. *)
Fixpoint writes (w : nat) : env -> Z -> list Z -> pipestate -> res pipestate Z -> Prop :=
  writes_step (match w with O => fun _ _ _ _ _ => True | S w => writes w end).

Lemma writes_eq w :
  writes w = writes_step (match w with O => fun _ _ _ _ _ => True | S w => writes w end).
Proof. by destruct w. Qed.

Lemma user_bytes_length e s i rest : 0 <= n - i -> user_bytes e s i rest -> Z.of_nat (length rest) <= n - i.
Proof.
  unfold user_bytes. intros Hn Hu. apply (f_equal snd) in Hu. cbn [snd] in Hu. rewrite <- Hu.
  pose proof (uread_length (mem_of s) (root_of e s) (addr + i) (Z.to_nat (n - i))). lia.
Qed.

Lemma room_full p : pipe_ok p -> pipe_full p = (room p =? 0)%nat.
Proof.
  intros Hok. apply eq_true_iff_eq. rewrite (pipe_full_spec p Hok), Nat.eqb_eq. unfold room. rewrite length_queue.
  pose proof (po_count _ Hok). pose proof (pipe_count_range p). lia.
Qed.

(** Storing one byte and then writing the others is writing them all. *)
Lemma writes_cons R e i c rest s p r :
  pipes s !! pi = Some p -> pipe_ok p -> pi_readopen p = true -> p_killed (nth_proc (e_me e) (pp_p s)) = 0 ->
  pipe_full p = false -> i < n -> Z.of_nat (length (c :: rest)) <= n - i ->
  writes_step R e (i + 1) rest (with_pipe pi (pipe_put c p) s) r -> writes_step R e i (c :: rest) s r.
Proof.
  intros Hp Hok Hro Hk Hf Hi Hl (p1 & Hp1 & H). cbn [pipes with_pipe set_pipes] in Hp1.
  rewrite lookup_insert_eq in Hp1. injection Hp1 as <-. destruct (pipe_put_queue c p Hok Hf) as [Hok1 Hq1].
  rewrite (room_full p Hok) in Hf. apply Nat.eqb_neq in Hf.
  assert (Hroom : room p = S (room (pipe_put c p))) by (unfold room in *; rewrite Hq1, length_app; cbn [length]; lia).
  exists p. split; [done|]. cbv zeta in *. rewrite (proj2 (Z.eqb_neq i n)) by lia. rewrite Hro, Hk. cbn [negb orb Z.eqb].
  change (pi_readopen (pipe_put c p)) with (pi_readopen p) in H. change (pp_p (with_pipe pi _ s)) with (pp_p s) in H.
  rewrite Hro, Hk in H. cbn [negb orb Z.eqb] in H.
  assert (Hen : forall bs p', enqueued bs (pipe_put c p) p' -> enqueued (c :: bs) p p').
  { intros bs p' (E1 & E2 & E3 & E4). split; [done|]. by rewrite E2, Hq1, <- app_assoc. }
  assert (Hfit : fits i (c :: rest) p = fits (i + 1) rest (pipe_put c p)).
  { unfold fits. rewrite Hroom. cbn [length]. by replace (i + 1 + Z.of_nat (length rest)) with (i + Z.of_nat (S (length rest))) by lia. }
  rewrite Hfit. cbn [length] in *. destruct (Z.eqb_spec (i + 1) n) as [En|En].
  - assert (rest = []) as -> by (destruct rest; [done|cbn [length] in Hl; lia]).
    assert (fits (i + 1) [] (pipe_put c p) = true) as ->.
    { unfold fits. cbn [length]. by rewrite Z.add_0_r, (proj2 (Z.eqb_eq (i + 1) n)) by lia. }
    exists (pipe_put c p). split; [by apply (Hen []); split; [|rewrite app_nil_r]|]. by rewrite H, <- En.
  - destruct (fits (i + 1) rest (pipe_put c p)).
    + destruct H as (p' & E & ->). exists p'. split; [by apply Hen|]. rewrite with_pipe_twice. f_equal. lia.
    + destruct H as (p' & k & E & -> & Hres). rewrite Hroom. cbn [take drop]. exists p', k.
      split; [by apply Hen|]. rewrite with_pipe_twice. split; [done|].
      by replace (i + Z.of_nat (S (room (pipe_put c p)))) with (i + 1 + Z.of_nat (room (pipe_put c p))) by lia.
Qed.

(** One iteration of the loop. *)
Lemma pipewrite_iter fuel e i s p :
  e_held e = [] -> pt_wf (mem_of s) T -> T !! root_of e s = Some (2%nat, 0) -> pipes s !! pi = Some p ->
  0 <= addr -> 0 <= i < n -> addr + n < 2 ^ 64 ->
  pipewrite_loop (S fuel) pi addr n i (ein pi e) s =
    if negb (pi_readopen p) || negb (p_killed (nth_proc (e_me e) (pp_p s)) =? 0) then Ok (-1) e s
    else if pipe_full p then
      Sleep (ChPipeWrite pi) (add_woken [ChPipeRead pi] e) s (acquire (LkPipe pi) ;;; pipewrite_loop fuel pi addr n i)
    else match uaddr (mem_of s) (root_of e s) (addr + i) with
         | None => Ok i (add_woken [ChPipeRead pi] e) s
         | Some pa => pipewrite_loop fuel pi addr n (i + 1) (ein pi e) (with_pipe pi (pipe_put (mget (mem_of s) pa) p) s)
         end.
Proof.
  intros Hh Hwf Hr Hp Ha Hi Hn. assert (Hlp : LkProc (e_me e) ∉ e_held e) by (rewrite Hh; apply not_elem_of_nil).
  cbn [pipewrite_loop]. rewrite (proj2 (Z.ltb_lt i n)) by lia. rewrite bind_eq. kred. change (e_me (ein pi e)) with (e_me e).
  rewrite bind_eq, (getpipe_run pi _ s p) by done. kred. rewrite bind_eq.
  destruct (pi_readopen p); cbn [negb orb];
    [|kred; unfold ein; by rewrite bind_eq, release_eq].
  rewrite killed_in by (done || (rewrite Hh; apply not_elem_of_nil)). kred. destruct (p_killed _ =? 0); cbn [negb];
    [|unfold ein; by rewrite bind_eq, release_eq].
  assert (Hw : add_woken [ChPipeRead pi] (ein pi e) = ein pi (add_woken [ChPipeRead pi] e)) by done.
  destruct (pipe_full p).
  - rewrite bind_eq. unfold KMonad.wakeup at 1. kred. rewrite Hw, bind_eq. unfold ein. cbn [add_woken e_held].
    rewrite Hh, sleep_eq by done. by kred.
  - rewrite bind_eq, getp_in. kred. fold (root_of e s).
    rewrite bind_eq, (copyin_in T e) by (done || (rewrite u64_small; lia)). kred. rewrite u64_small by lia.
    change (Z.to_nat 1) with 1%nat. cbn [uread]. destruct (uaddr _ _ _) as [pa|]; cbn [fst snd Z.eqb head default from_option id].
    + by rewrite bind_eq, (modpipe_run pi _ _ s p).
    + change (1 =? 1)%positive with true. cbv iota. rewrite bind_eq. unfold KMonad.wakeup at 1. kred. rewrite Hw. unfold ein.
      by rewrite bind_eq, release_eq.
Qed.

Lemma pipewrite_loop_run fuel w e i rest s p :
  writer_at e s i rest -> pipes s !! pi = Some p -> pipe_ok p ->
  0 <= addr -> 0 <= i <= n -> addr + n < 2 ^ 64 -> (Z.to_nat (n - i) + w <= fuel)%nat ->
  writes w e i rest s (pipewrite_loop fuel pi addr n i (ein pi e) s).
Proof.
  revert w e i rest s p. induction fuel as [|fuel IH]; intros w e i rest s p Hw Hp Hok Ha Hi Hn Hf; rewrite writes_eq;
    (destruct (decide (i = n)) as [->|Hne]; [exists p; split; [done|]; rewrite Z.eqb_refl; cbn [pipewrite_loop];
      rewrite Z.ltb_irrefl, bind_eq; unfold KMonad.wakeup; kred;
      change (add_woken [ChPipeRead pi] (ein pi e)) with (ein pi (add_woken [ChPipeRead pi] e));
      unfold ein; by rewrite bind_eq, release_eq|]); [lia|].
  pose proof Hw as [Hh Hwf Hr Hb]. pose proof (user_bytes_length e s i rest ltac:(lia) Hb) as Hlen.
  rewrite (pipewrite_iter fuel e i s p) by (done || lia).
  destruct (negb (pi_readopen p) || _) eqn:Hgone.
  { exists p. split; [done|]. rewrite (proj2 (Z.eqb_neq i n)) by done. by rewrite Hgone. }
  destruct (pipe_full p) eqn:Hfull.
  - exists p. split; [done|]. rewrite (proj2 (Z.eqb_neq i n)), Hgone by done.
    rewrite (room_full p Hok) in Hfull. apply Nat.eqb_eq in Hfull. unfold fits. rewrite Hfull.
    cbn [take drop]. rewrite Z.add_0_r.
    assert ((if i + Z.of_nat (length rest) =? n then (length rest <=? 0)%nat else (length rest <? 0)%nat) = false) as ->.
    { destruct (Z.eqb_spec (i + Z.of_nat (length rest)) n); [|apply Nat.ltb_ge; lia]. apply Nat.leb_gt. lia. }
    exists p, (acquire (LkPipe pi) ;;; pipewrite_loop fuel pi addr n i). split; [by split; [|rewrite app_nil_r]|].
    split; [by rewrite with_pipe_id|]. intros e1 s1 p1 Hme Hw1 Hp1 Hok1. destruct w as [|w]; [done|].
    rewrite bind_eq, acquire_eq by (rewrite (wa_held _ _ _ _ Hw1); apply not_elem_of_nil). kred.
    apply (IH w e1 i rest s1 p1); try done. lia.
  - unfold user_bytes in Hb. replace (Z.to_nat (n - i)) with (S (Z.to_nat (n - (i + 1)))) in Hb by lia. cbn [uread] in Hb.
    apply orb_false_iff in Hgone as [Hro Hk]. apply negb_false_iff in Hro, Hk. apply Z.eqb_eq in Hk.
    destruct (uaddr _ _ _) as [pa|] eqn:Hpa.
    + destruct rest as [|c rest]; [done|]. destruct (uread _ _ (addr + i + 1) _) as [code l] eqn:Hrest.
      cbn [fst snd] in Hb. injection Hb as Hcode <- ->.
      apply (writes_cons _ e i _ rest s p); try done; [lia|]. rewrite <- writes_eq.
      apply (IH w e (i + 1) rest _ (pipe_put (mget (mem_of s) pa) p)); try done; try lia.
      * split; [done..|]. unfold user_bytes. change (mem_of (with_pipe _ _ s)) with (mem_of s).
        change (root_of e (with_pipe _ _ s)) with (root_of e s). rewrite Z.add_assoc, Hrest, Hcode. cbn [length].
        by replace (i + 1 + Z.of_nat (length rest)) with (i + Z.of_nat (S (length rest))) by lia.
      * cbn. apply lookup_insert_eq.
      * by apply pipe_put_queue.
    + injection Hb as _ <-. exists p. split; [done|]. rewrite (proj2 (Z.eqb_neq i n)), Hro, Hk by done. cbn [negb orb Z.eqb].
      rewrite (room_full p Hok) in Hfull. apply Nat.eqb_neq in Hfull. unfold fits. cbn [length].
      rewrite Z.add_0_r, (proj2 (Z.eqb_neq i n)), (proj2 (Nat.ltb_lt 0 (room p))) by (done || lia).
      exists p. split; [by split; [|rewrite app_nil_r]|]. by rewrite with_pipe_id.
Qed.
End writing.

(** C20: pipewrite() as a bounded queue's producer.  Called without locks for
    n bytes at addr, it looks at the pipe and goes on from there: a write of 0
    bytes returns 0; if the reading end is closed or the writer is killed it
    returns -1 and nothing changes; if the bytes that can be read fit in the
    pipe, it returns their number at once, the queue has grown by exactly
    these bytes in order, and the readers are woken; otherwise it fills the
    queue to PIPESIZE with the first of them, wakes the readers and sleeps on
    the pipe without its lock, and whatever state of the pipe it is woken in,
    it behaves in the same way with the bytes that are left.  The counters may
    wrap around; nothing else changes; it never panics, and returns without
    running out of iterations as long as it is woken no more often than the
    bound [e_spin]. *)
Theorem pipewrite_correct pi addr n T e s p bs :
  writer_at addr n T e s 0 bs -> pipes s !! pi = Some p -> pipe_ok p ->
  0 <= addr -> 0 <= n -> addr + n < 2 ^ 64 ->
  writes pi addr n T (e_spin e) e 0 bs s (pipewrite pi addr n e s).
Proof.
  intros Hw Hp Hok Ha Hn Hb. unfold pipewrite.
  rewrite bind_eq, acquire_eq by (rewrite (wa_held _ _ _ _ _ _ _ Hw); apply not_elem_of_nil). kred. rewrite bind_eq. kred.
  change (e_spin (set_held _ e)) with (e_spin e). apply (pipewrite_loop_run pi addr n T _ (e_spin e) e 0 bs s p); try done; lia.
Qed.

(** C21: piperead() dequeues into the caller's memory.  If the pipe holds data,
    or its writing end is closed, and the first min(n, length) bytes can be
    stored at addr, piperead() returns how many it took without sleeping: they
    are stored in order, removed from the front of the queue, and the writers
    have been woken. *)
Theorem piperead_dequeues pi addr n T e s p m' :
  LkPipe pi ∉ e_held e -> LkProc (e_me e) ∉ e_held e ->
  pipes s !! pi = Some p -> pipe_ok p -> (queue p <> [] \/ pi_writeopen p = false) ->
  pt_wf (mem_of s) T -> T !! root_of e s = Some (2%nat, 0) -> user_safe (mem_of s) (root_of e s) T ->
  0 <= addr -> 0 <= n -> addr + n < 2 ^ 64 ->
  uwrite (mem_of s) (root_of e s) addr (take (Z.to_nat n) (queue p)) = (0, m') ->
  exists p', piperead pi addr n e s =
      Ok (Z.min n (Z.of_nat (length (queue p)))) (add_woken [ChPipeWrite pi] e)
        (set_umem m' (with_pipe pi p' s)) /\
    pipe_ok p' /\ queue p' = drop (Z.to_nat n) (queue p).
Proof.
  intros Hlk Hlp Hp Hok Hopen Hwf Hr Hs Ha Hn Hb Hu.
  exists (get_all (length (take (Z.to_nat n) (queue p))) p).
  destruct (get_all_queue (length (take (Z.to_nat n) (queue p))) p Hok) as [Hok' Hq].
  { rewrite length_take. lia. }
  split; [|split; [done|]].
  2: { rewrite Hq, length_take. destruct (decide (Z.to_nat n <= length (queue p))%nat).
       - by rewrite Nat.min_l. - rewrite Nat.min_r, !drop_ge by lia. done. }
  unfold piperead. rewrite bind_eq, acquire_eq by done. kred. rewrite bind_eq. kred.
  assert (Hwait : forall f, piperead_wait f pi (ein pi e) s = Ok true (ein pi e) s).
  { intros f. assert (Hc : pipe_empty p && pi_writeopen p = false).
    { apply andb_false_iff. destruct Hopen as [H|H]; [left|by right]. apply not_true_is_false.
      intros He. by apply pipe_empty_spec in He. }
    destruct f; cbn [piperead_wait]; rewrite bind_eq, (getpipe_run pi _ s p) by done; kred; by rewrite Hc. }
  fold (ein pi e). rewrite bind_eq, Hwait. kred. cbn [negb]. rewrite bind_eq.
  rewrite (piperead_copy_run pi addr T e) with (p := p) (m' := m'); try done; try lia.
  2: by rewrite Z.add_0_r.
  kred. unfold KMonad.wakeup. rewrite bind_eq. kred.
  change (add_woken [ChPipeWrite pi] (ein pi e))
    with (set_held (LkPipe pi :: e_held (add_woken [ChPipeWrite pi] e)) (add_woken [ChPipeWrite pi] e)).
  rewrite bind_eq, release_eq. kred. rewrite length_take. do 2 f_equal. lia.
Qed.

(** piperead() loses a byte when the caller's buffer cannot be written.
    The byte is taken off the queue before copyout() is tried: with an
    unwritable address the call returns 0, which a reader takes for end of
    file, and the first byte of the queue is gone. *)
Theorem piperead_drops_byte pi addr n T e s p c q :
  LkPipe pi ∉ e_held e -> LkProc (e_me e) ∉ e_held e ->
  pipes s !! pi = Some p -> pipe_ok p -> queue p = c :: q ->
  pt_wf (mem_of s) T -> T !! root_of e s = Some (2%nat, 0) -> user_safe (mem_of s) (root_of e s) T ->
  0 <= addr < 2 ^ 64 -> 0 < n -> uwaddr (mem_of s) (root_of e s) addr = None ->
  exists p', piperead pi addr n e s = Ok 0 (add_woken [ChPipeWrite pi] e) (with_pipe pi p' s) /\
    pipe_ok p' /\ queue p' = q.
Proof.
  intros Hlk Hlp Hp Hok Hq Hwf Hr Hs Ha Hn Hu. exists (pipe_get p).
  assert (He : pipe_empty p = false).
  { apply not_true_is_false. intros He. apply pipe_empty_spec in He; [|done]. congruence. }
  destruct (pipe_get_queue p Hok He) as [Hok' Hq']. rewrite Hq in Hq'. injection Hq' as _ ->.
  split; [|done]. unfold piperead. rewrite bind_eq, acquire_eq by done. kred. rewrite bind_eq. kred.
  fold (ein pi e).
  assert (Hwait : forall f, piperead_wait f pi (ein pi e) s = Ok true (ein pi e) s)
    by (intros []; cbn [piperead_wait]; rewrite bind_eq, (getpipe_run pi _ s p) by done; kred; by rewrite He).
  rewrite bind_eq, Hwait. kred. cbn [negb].
  replace (Z.to_nat n) with (S (Z.to_nat (n - 1))) by lia. cbn [piperead_copy].
  rewrite !bind_eq, (getpipe_run pi _ s p) by done. kred. rewrite He, !bind_eq.
  rewrite (modpipe_run pi _ _ s p) by done. kred. rewrite !bind_eq. kred.
  change (e_me (ein pi e)) with (e_me e). rewrite !bind_eq, getp_in. kred.
  set (s1 := with_pipe pi (pipe_get p) s). change (p_pagetable _) with (root_of e s1).
  rewrite Z.add_0_r, u64_small by lia. rewrite !bind_eq, (copyout_in T e) by (done || lia). cbn zeta.
  change (mem_of s1) with (mem_of s). change (root_of e s1) with (root_of e s). cbn [uwrite].
  rewrite Hu. cbn [fst snd]. kred. change (-1 =? -1) with true. cbn iota. kred. rewrite bind_eq.
  unfold KMonad.wakeup at 1. kred.
  change (add_woken [ChPipeWrite pi] (ein pi e))
    with (set_held (LkPipe pi :: e_held (add_woken [ChPipeWrite pi] e)) (add_woken [ChPipeWrite pi] e)).
  rewrite bind_eq, release_eq. kred. f_equal. change (mem_of s) with (mem_of s1). apply set_umem_id.
Qed.

(** ** A pipe whose counters are about to wrap around *)

Definition demo_pipe : pipe :=
  mkPipe ([3; 4] ++ replicate 508 0 ++ [1; 2]) (2 ^ 32 - 2) 2 true true.

Definition demo_pipestate : pipestate :=
  mkPipestate
    (mkPstate (set_pagetable demo_root (demo_runnable 1 5) :: replicate 63 proc0) 2 None
       (replicate 8 None) 0 SCHED_FCFS [] demo_user)
    {[ 0x80070000 := demo_pipe ]}.

Lemma demo_pipe_ok : pipe_ok demo_pipe.
Proof. split; by vm_compute. Qed.

Lemma demo_pipe_queue : queue demo_pipe = [1; 2; 3; 4].
Proof. by vm_compute. Qed.

(** The same with the pipe emptied by a reader. *)
Definition demo_empty : pipe := mkPipe (replicate 512 0) 7 7 true true.
Definition demo_drained : pipestate := with_pipe 0x80070000 demo_empty demo_pipestate.
Definition demo_writer : env := mkEnv 0 1 false [] [] 1.

Lemma demo_writer_at s i k :
  pp_p s = pp_p demo_pipestate -> 0 <= i -> i + Z.of_nat k = 600 ->
  uread (kmem_mem demo_user) demo_root i k = (0, replicate k 0) ->
  writer_at 0 600 demo_user_tables demo_writer s i (replicate k 0).
Proof.
  intros Hs Hi Hk Hu. unfold mem_of, root_of, kmem_of.
  split; unfold user_bytes, mem_of, root_of, kmem_of; rewrite ?Hs; [done|apply demo_user_wf|by vm_compute|].
  rewrite length_replicate, (proj2 (Z.eqb_eq _ _) Hk). replace (Z.to_nat (600 - i)) with k by lia.
  etransitivity; [|exact Hu]. by cbn [Z.add].
Qed.

Lemma demo_empty_ok : pipe_ok demo_empty.
Proof. split; by vm_compute. Qed.

Lemma demo_fits :
  room demo_pipe = 508%nat /\ fits 600 0 (replicate 600 0) demo_pipe = false /\
  fits 600 (0 + Z.of_nat 508) (drop 508 (replicate 600 0)) demo_empty = true.
Proof. repeat split; vm_compute; reflexivity. Qed.

Lemma demo_rest : queue demo_empty ++ drop 508 (replicate 600 0) = replicate 92 0.
Proof. vm_compute. reflexivity. Qed.

(** A write of 600 bytes stores 508 of them, sleeps, and once the pipe has
    been emptied stores the others. *)
Lemma pipewrite_correct_witness :
  exists p1 k p2, enqueued (replicate 508 0) demo_pipe p1 /\
    pipewrite 0x80070000 0 600 demo_writer demo_pipestate =
      Sleep (ChPipeWrite 0x80070000) (add_woken [ChPipeRead 0x80070000] demo_writer) (with_pipe 0x80070000 p1 demo_pipestate) k /\
    k demo_writer demo_drained = Ok 600 (add_woken [ChPipeRead 0x80070000] demo_writer) (with_pipe 0x80070000 p2 demo_drained) /\
    queue p2 = replicate 92 0.
Proof.
  destruct demo_fits as (Hroom & Hfit & Hfit2).
  destruct (pipewrite_correct 0x80070000 0 600 demo_user_tables demo_writer demo_pipestate demo_pipe (replicate 600 0))
    as (p & Hp & H).
  - apply demo_writer_at; [reflexivity|lia|reflexivity|vm_compute; reflexivity].
  - apply lookup_singleton_eq.
  - apply demo_pipe_ok.
  - lia.
  - lia.
  - lia.
  - cbn [pipes demo_pipestate] in Hp. rewrite lookup_singleton_eq in Hp. injection Hp as <-.
    change (0 =? 600) with false in H. change (pi_readopen demo_pipe) with true in H.
    change (negb (p_killed _ =? 0)) with false in H. cbn [negb orb] in H.
    rewrite Hfit, Hroom in H. destruct H as (p1 & k & E1 & E2 & H).
    specialize (H demo_writer demo_drained demo_empty eq_refl).
    destruct H as (q & Hq & H).
    + apply (demo_writer_at demo_drained 508 92); [reflexivity|lia|reflexivity|vm_compute; reflexivity].
    + apply lookup_insert_eq.
    + apply demo_empty_ok.
    + cbn [pipes demo_drained with_pipe set_pipes] in Hq. rewrite lookup_insert_eq in Hq. injection Hq as <-.
      change (0 + Z.of_nat 508 =? 600) with false in H. change (pi_readopen demo_empty) with true in H.
      change (negb (p_killed _ =? 0)) with false in H. cbn [negb orb] in H.
      rewrite Hfit2 in H. destruct H as (p2 & (_ & F2 & _) & F1). rewrite demo_rest in F2. exists p1, k, p2.
      split; [exact E1|]. split; [exact E2|]. split; [exact F1|exact F2].
Defined.

Lemma piperead_dequeues_witness :
  exists p' m', piperead 0x80070000 16 3 demo_env demo_pipestate =
      Ok 3 (add_woken [ChPipeWrite 0x80070000] demo_env)
        (set_umem m' (with_pipe 0x80070000 p' demo_pipestate)) /\
    queue p' = [4].
Proof.
  destruct (piperead_dequeues 0x80070000 16 3 demo_user_tables demo_env demo_pipestate demo_pipe
    (uwrite (mem_of demo_pipestate) demo_root 16 [1; 2; 3]).2) as (p' & H1 & _ & H2).
  - apply not_elem_of_nil.
  - apply not_elem_of_nil.
  - by vm_compute.
  - apply demo_pipe_ok.
  - left. by rewrite demo_pipe_queue.
  - apply demo_user_wf.
  - by vm_compute.
  - apply demo_user_safe.
  - lia.
  - lia.
  - lia.
  - rewrite demo_pipe_queue. change (root_of demo_env demo_pipestate) with demo_root.
    change (take (Z.to_nat 3) [1; 2; 3; 4]) with [1; 2; 3].
    rewrite (surjective_pairing (uwrite _ _ _ _)). f_equal; by vm_compute.
  - exists p', (uwrite (mem_of demo_pipestate) demo_root 16 [1; 2; 3]).2.
    split; [|by rewrite H2, demo_pipe_queue]. rewrite demo_pipe_queue in H1. exact H1.
Defined.

Lemma piperead_drops_byte_witness :
  exists p', piperead 0x80070000 8192 3 demo_env demo_pipestate =
      Ok 0 (add_woken [ChPipeWrite 0x80070000] demo_env) (with_pipe 0x80070000 p' demo_pipestate) /\
    queue p' = [2; 3; 4].
Proof.
  destruct (piperead_drops_byte 0x80070000 8192 3 demo_user_tables demo_env demo_pipestate demo_pipe 1 [2; 3; 4])
    as (p' & H1 & _ & H2).
  - apply not_elem_of_nil.
  - apply not_elem_of_nil.
  - by vm_compute.
  - apply demo_pipe_ok.
  - apply demo_pipe_queue.
  - apply demo_user_wf.
  - by vm_compute.
  - apply demo_user_safe.
  - lia.
  - lia.
  - by vm_compute.
  - exists p'. exact (conj H1 H2).
Defined.
