(* ===== verification/Uart.v ===== *)
(** * kernel/uart.c: the 16550a serial port

    The device answers reads of its registers and records writes to them:
    [u_lsr] holds the values successive reads of the line status register
    return, [u_rhr] the bytes it hands out, [u_out] the register writes it has
    seen, latest first.  A spin on a register that never becomes ready runs
    out of the answers. *)

From S2P Require Import Prelude KMonad.
Open Scope kmonad_scope.

Definition RHR : Z := 0.
Definition THR : Z := 0.
Definition IER : Z := 1.
Definition IER_RX_ENABLE : Z := Z.shiftl 1 0.
Definition IER_TX_ENABLE : Z := Z.shiftl 1 1.
Definition FCR : Z := 2.
Definition FCR_FIFO_ENABLE : Z := Z.shiftl 1 0.
Definition FCR_FIFO_CLEAR : Z := Z.shiftl 3 1.
Definition ISR : Z := 2.
Definition LCR : Z := 3.
Definition LCR_EIGHT_BITS : Z := Z.shiftl 3 0.
Definition LCR_BAUD_LATCH : Z := Z.shiftl 1 7.
Definition LSR : Z := 5.
Definition LSR_RX_READY : Z := Z.shiftl 1 0.
Definition LSR_TX_IDLE : Z := Z.shiftl 1 5.
Definition UART_TX_BUF_SIZE : Z := 32.

Record uart : Set := mkUart {
  tx_buf : list Z;            (* uart_tx_buf[UART_TX_BUF_SIZE] *)
  tx_w : Z;                   (* uart_tx_w *)
  tx_r : Z;                   (* uart_tx_r *)
  panicked : bool;            (* printf.c *)
  u_lsr : list Z;
  u_rhr : list Z;
  u_out : list (Z * Z)
}.

Definition set_tx_buf v u := mkUart v (tx_w u) (tx_r u) (panicked u) (u_lsr u) (u_rhr u) (u_out u).
Definition set_tx_w v u := mkUart (tx_buf u) v (tx_r u) (panicked u) (u_lsr u) (u_rhr u) (u_out u).
Definition set_tx_r v u := mkUart (tx_buf u) (tx_w u) v (panicked u) (u_lsr u) (u_rhr u) (u_out u).
Definition set_lsr v u := mkUart (tx_buf u) (tx_w u) (tx_r u) (panicked u) v (u_rhr u) (u_out u).
Definition set_rhr v u := mkUart (tx_buf u) (tx_w u) (tx_r u) (panicked u) (u_lsr u) v (u_out u).
Definition set_out v u := mkUart (tx_buf u) (tx_w u) (tx_r u) (panicked u) (u_lsr u) (u_rhr u) v.

(** ** Registers *)

Definition WriteReg (reg v : Z) : K uart unit := modify (fun u => set_out ((reg, u8 v) :: u_out u) u).

Definition read_lsr : K uart Z :=
  l <- gets u_lsr ;;
  match l with
  | [] => out_of_fuel
  | v :: l => modify (set_lsr l) ;;; ret v
  end.

Definition read_rhr : K uart Z :=
  l <- gets u_rhr ;;
  match l with
  | [] => out_of_fuel
  | v :: l => modify (set_rhr l) ;;; ret v
  end.

(** The characters sent, oldest first. *)
Definition sent (u : uart) : list Z :=
  rev (omap (fun w => if w.1 =? THR then Some w.2 else None) (u_out u)).

(** ** Driver *)

Definition uartinit : K uart unit :=
  WriteReg IER 0 ;;;
  WriteReg LCR LCR_BAUD_LATCH ;;;
  WriteReg 0 3 ;;;
  WriteReg 1 0 ;;;
  WriteReg LCR LCR_EIGHT_BITS ;;;
  WriteReg FCR (Z.lor FCR_FIFO_ENABLE FCR_FIFO_CLEAR) ;;;
  WriteReg IER (Z.lor IER_TX_ENABLE IER_RX_ENABLE).

(** while(1): ends when the buffer is empty, so after at most
    UART_TX_BUF_SIZE bytes, or when the holding register is full.  The read of
    ISR on an empty buffer acknowledges the interrupt; its value is dropped. *)
Fixpoint uartstart_loop (fuel : nat) : K uart unit :=
  u <- gets (fun u => u) ;;
  if tx_w u =? tx_r u then ret tt
  else
    match fuel with
    | O => out_of_fuel
    | S fuel =>
        lsr <- read_lsr ;;
        if Z.land lsr LSR_TX_IDLE =? 0 then ret tt
        else
          let c := default 0 (tx_buf u !! Z.to_nat (tx_r u mod UART_TX_BUF_SIZE)) in
          modify (set_tx_r (u64 (tx_r u + 1))) ;;;
          wakeup ChUartTx ;;;
          WriteReg THR c ;;;
          uartstart_loop fuel
    end.

Definition uartstart : K uart unit := uartstart_loop (Z.to_nat UART_TX_BUF_SIZE).

Fixpoint uartputc_wait (fuel : nat) : K uart unit :=
  u <- gets (fun u => u) ;;
  if tx_w u =? u64 (tx_r u + UART_TX_BUF_SIZE) then
    match fuel with
    | O => out_of_fuel
    | S fuel => sleep ChUartTx LkUartTx ;;; uartputc_wait fuel
    end
  else ret tt.

(** After a panic the routine spins for ever. *)
Definition uartputc (c : Z) : K uart unit :=
  acquire LkUartTx ;;;
  p <- gets panicked ;;
  if p : bool then out_of_fuel
  else
    spin <- asks e_spin ;;
    uartputc_wait spin ;;;
    u <- gets (fun u => u) ;;
    modify (set_tx_buf (<[Z.to_nat (tx_w u mod UART_TX_BUF_SIZE) := u8 c]> (tx_buf u))) ;;;
    modify (set_tx_w (u64 (tx_w u + 1))) ;;;
    uartstart ;;;
    release LkUartTx.

(** while((ReadReg(LSR) & LSR_TX_IDLE) == 0) over the device's answers. *)
Fixpoint lsr_wait (answers : list Z) : K uart unit :=
  match answers with
  | [] => out_of_fuel
  | lsr :: rest =>
      modify (set_lsr rest) ;;;
      if Z.land lsr LSR_TX_IDLE =? 0 then lsr_wait rest else ret tt
  end.

(** push_off() and pop_off() around the body are matched. *)
Definition uartputc_sync (c : Z) : K uart unit :=
  p <- gets panicked ;;
  if p : bool then out_of_fuel
  else
    answers <- gets u_lsr ;;
    lsr_wait answers ;;;
    WriteReg THR c.

Definition uartgetc : K uart Z :=
  lsr <- read_lsr ;;
  if negb (Z.land lsr 1 =? 0) then read_rhr else ret (-1).
