(* ===== verification/UartSpec.v ===== *)
(** * The serial port's transmit buffer is a FIFO

    Whatever is given to uartputc() leaves through the transmit register in
    that order, whoever sends it: uartputc() itself or the interrupt
    handler's uartstart(). *)

From S2P Require Import Prelude Ring KMonad Uart.
Open Scope kmonad_scope.

Definition tx_count (u : uart) : Z := u64 (tx_w u - tx_r u).

(** The bytes that wait in uart_tx_buf. *)
Definition tx_queue (u : uart) : list Z :=
  ring UART_TX_BUF_SIZE (tx_buf u) (tx_r u) (Z.to_nat (tx_count u)).

(** What has been written so far: sent, then waiting. *)
Definition tx_stream (u : uart) : list Z := sent u ++ tx_queue u.

(** [uo_ready]: the device answers every read of LSR that a call can make. *)
Record uart_ok (u : uart) : Prop := {
  uo_len : length (tx_buf u) = Z.to_nat UART_TX_BUF_SIZE;
  uo_bytes : Forall (fun b => u8 b = b) (tx_buf u);
  uo_r : 0 <= tx_r u < 2 ^ 64;
  uo_w : 0 <= tx_w u < 2 ^ 64;
  uo_count : tx_count u <= UART_TX_BUF_SIZE;
  uo_running : panicked u = false;
}.

Definition answers (n : nat) (u : uart) : Prop := (n <= length (u_lsr u))%nat.

Definition tx_full (u : uart) : bool := tx_w u =? u64 (tx_r u + UART_TX_BUF_SIZE).

Lemma tx_full_spec u : uart_ok u -> tx_full u = true <-> tx_count u = UART_TX_BUF_SIZE.
Proof.
  intros [_ _ Hr Hw Hc _]. unfold tx_full, tx_count, UART_TX_BUF_SIZE, u64 in *. rewrite Z.eqb_eq. zdm.
Qed.

Lemma tx_count_range u : 0 <= tx_count u.
Proof. apply u64_range. Qed.

(** ** One byte in, one byte out *)

Definition tx_put (c : Z) (u : uart) : uart :=
  set_tx_w (u64 (tx_w u + 1)) (set_tx_buf (<[Z.to_nat (tx_w u mod UART_TX_BUF_SIZE) := u8 c]> (tx_buf u)) u).

Definition tx_get (u : uart) : uart :=
  let c := cell UART_TX_BUF_SIZE (tx_buf u) (tx_r u) in
  set_out ((THR, u8 c) :: u_out u) (set_tx_r (u64 (tx_r u + 1)) (set_lsr (tail (u_lsr u)) u)).

Lemma tx_put_ok c u :
  uart_ok u -> tx_full u = false -> uart_ok (tx_put c u) /\ tx_stream (tx_put c u) = tx_stream u ++ [u8 c].
Proof.
  intros Hok Hf. pose proof Hok as [Hl Hb Hr Hw Hc Hp]. pose proof (tx_count_range u) as H0.
  assert (Hlt : tx_count u < UART_TX_BUF_SIZE).
  { destruct (decide (tx_count u = UART_TX_BUF_SIZE)) as [He|]; [|lia].
    apply (tx_full_spec u Hok) in He. congruence. }
  assert (Hcnt : tx_count (tx_put c u) = tx_count u + 1).
  { unfold tx_count, tx_put in *. cbn [tx_w tx_r set_tx_w set_tx_buf]. unfold UART_TX_BUF_SIZE, u64 in *. zdm. }
  split; [split|].
  - cbn. by rewrite length_insert.
  - cbn. apply Forall_insert; [done|]. apply u8_small, u8_range.
  - done.
  - apply u64_range.
  - lia.
  - done.
  - unfold tx_stream, tx_queue. rewrite Hcnt.
    replace (Z.to_nat (tx_count u + 1)) with (S (Z.to_nat (tx_count u))) by lia.
    change (sent (tx_put c u)) with (sent u). rewrite <- app_assoc. f_equal. unfold tx_put.
    cbn [tx_buf tx_r set_tx_w set_tx_buf]. apply ring_push; [done|done|lia|].
    unfold tx_count, UART_TX_BUF_SIZE, u64. zdm.
Qed.

Lemma cell_byte u : uart_ok u -> u8 (cell UART_TX_BUF_SIZE (tx_buf u) (tx_r u)) = cell UART_TX_BUF_SIZE (tx_buf u) (tx_r u).
Proof.
  intros [Hl Hb _ _ _ _]. unfold cell. destruct (tx_buf u !! _) as [b|] eqn:E; [|done].
  by apply (Forall_lookup_1 _ _ _ _ Hb E).
Qed.

Lemma tx_get_ok u :
  uart_ok u -> tx_w u <> tx_r u -> uart_ok (tx_get u) /\ tx_stream (tx_get u) = tx_stream u /\
  tx_count (tx_get u) = tx_count u - 1.
Proof.
  intros Hok Hne. pose proof Hok as [Hl Hb Hr Hw Hc Hp].
  assert (Hcnt : tx_count (tx_get u) = tx_count u - 1).
  { unfold tx_count, tx_get in *. cbn [tx_w tx_r set_out set_tx_r set_lsr]. unfold UART_TX_BUF_SIZE, u64 in *. zdm. }
  pose proof (tx_count_range (tx_get u)) as H0. split; [split|split; [|done]].
  - done.
  - done.
  - apply u64_range.
  - done.
  - lia.
  - done.
  - unfold tx_stream, tx_queue. rewrite Hcnt.
    replace (Z.to_nat (tx_count u)) with (S (Z.to_nat (tx_count u - 1))) by lia. rewrite ring_S.
    unfold sent, tx_get. cbn [u_out set_out omap list_omap fst snd Z.eqb THR rev tx_buf tx_r set_tx_r set_lsr].
    rewrite cell_byte by done. rewrite <- app_assoc. cbn [app]. do 2 f_equal.
    unfold u64. by apply ring_wrap.
Qed.

(** ** uartstart() *)

Lemma uartstart_loop_run fuel e u :
  uart_ok u -> answers fuel u -> tx_count u <= Z.of_nat fuel ->
  exists e' u', uartstart_loop fuel e u = Ok tt e' u' /\ e_held e' = e_held e /\
    uart_ok u' /\ tx_stream u' = tx_stream u.
Proof.
  revert e u. induction fuel as [|fuel IH]; intros e u Hok Ha Hc; cbn [uartstart_loop];
    rewrite bind_eq; kred; destruct (Z.eqb_spec (tx_w u) (tx_r u)) as [He|Hne]; try (by exists e, u).
  - destruct (tx_get_ok u Hok Hne) as (_ & _ & Hcnt). pose proof (tx_count_range (tx_get u)). lia.
  - unfold read_lsr. rewrite !bind_eq. kred. unfold answers in Ha.
    destruct (u_lsr u) as [|v lsr] eqn:El; [cbn in Ha; lia|]. rewrite bind_eq. kred.
    destruct (Z.land v LSR_TX_IDLE =? 0).
    + exists e, (set_lsr lsr u). split; [done|]. split; [done|]. destruct Hok. by split.
    + destruct (tx_get_ok u Hok Hne) as (Hok' & Hs & Hcnt). unfold WriteReg. rewrite !bind_eq. kred.
      unfold KMonad.wakeup. rewrite !bind_eq. kred. rewrite !bind_eq. kred.
      destruct (IH (add_woken [ChUartTx] e) (tx_get u)) as (e' & u' & H1 & H2 & H3 & H4); [done| |lia|].
      { unfold answers, tx_get. cbn. rewrite El. cbn in Ha |- *. lia. }
      exists e', u'. rewrite H4, Hs. split; [|done]. rewrite <- H1. f_equal. unfold tx_get. by rewrite El.
Qed.

Lemma uartstart_run e u :
  uart_ok u -> answers (Z.to_nat UART_TX_BUF_SIZE) u ->
  exists e' u', uartstart e u = Ok tt e' u' /\ e_held e' = e_held e /\
    uart_ok u' /\ tx_stream u' = tx_stream u.
Proof. intros Hok Ha. apply uartstart_loop_run; [done|done|]. apply Hok. Qed.

(** ** uartputc()

    [appends c n u r]: the call that ran from [u] to the outcome [r] returns
    with [c] appended to the stream; or the buffer is full and it sleeps with
    the stream as it was, and does the same from whatever state it is woken
    in, at most [n] times. *)
Inductive appends (c : Z) : nat -> uart -> res uart unit -> Prop :=
| ap_done n u e u' :
    e_held e = [] -> uart_ok u' -> tx_stream u' = tx_stream u ++ [u8 c] -> appends c n u (Ok tt e u')
| ap_wait n u e k :
    tx_full u = true -> e_held e = [] ->
    (forall e' u', e_held e' = [] -> uart_ok u' -> answers (Z.to_nat UART_TX_BUF_SIZE) u' ->
       appends c n u' (k e' u')) ->
    appends c (S n) u (Sleep ChUartTx e u k)
| ap_spun u : tx_full u = true -> appends c 0 u OutOfFuel.

(** uartputc() after its wait. *)
Definition putc_body (c : Z) : K uart unit :=
  u <- gets (fun u => u) ;;
  modify (set_tx_buf (<[Z.to_nat (tx_w u mod UART_TX_BUF_SIZE) := u8 c]> (tx_buf u))) ;;;
  modify (set_tx_w (u64 (tx_w u + 1))) ;;;
  uartstart ;;;
  release LkUartTx.

Lemma putc_body_run c n e u :
  e_held e = [LkUartTx] -> uart_ok u -> answers (Z.to_nat UART_TX_BUF_SIZE) u -> tx_full u = false ->
  appends c n u (putc_body c e u).
Proof.
  intros He Hok Ha Hf. unfold putc_body. rewrite bind_eq. kred. rewrite bind_eq. kred. rewrite bind_eq. kred.
  destruct (tx_put_ok c u Hok Hf) as [Hok' Hs]. fold (tx_put c u).
  destruct (uartstart_run e (tx_put c u) Hok' Ha) as (e' & u' & Hr & Hh & Hok'' & Hs').
  rewrite bind_eq, Hr. cbn [rbind]. unfold release, holding. rewrite Hh, He, bool_decide_true by set_solver.
  rewrite remove_lock_head. apply ap_done; [done|done|]. by rewrite Hs', Hs.
Qed.

Lemma uartputc_wait_run c n e u :
  e_held e = [LkUartTx] -> uart_ok u -> answers (Z.to_nat UART_TX_BUF_SIZE) u ->
  appends c n u (rbind (uartputc_wait n e u) (fun _ => putc_body c)).
Proof.
  revert e u. induction n as [|n IH]; intros e u He Hok Ha; cbn [uartputc_wait]; rewrite bind_eq; kred;
    fold (tx_full u); destruct (tx_full u) eqn:Hf; try (by apply putc_body_run).
  - by apply ap_spun.
  - rewrite bind_eq. unfold KMonad.sleep, holding.
    rewrite bool_decide_false by (rewrite He; set_solver). rewrite bool_decide_true by (rewrite He; set_solver).
    rewrite He, remove_lock_head. cbn [negb rbind]. apply ap_wait; [done|done|]. intros e' u' He' Hok' Ha'.
    rewrite acquire_eq by (rewrite He'; set_solver). cbn [rbind]. rewrite He'. by apply IH.
Qed.

(** C36: the serial port is a FIFO.  uartputc() called without locks never
    panics; it appends its byte to the stream of bytes sent and waiting, once
    there is room: while the 32-byte buffer is full it sleeps with the stream
    unchanged, and it goes on from any state the interrupt handler and other
    writers leave.  Its only other outcome is to be woken in vain more often
    than the bound. *)
Theorem uartputc_fifo c e u :
  e_held e = [] -> uart_ok u -> answers (Z.to_nat UART_TX_BUF_SIZE) u ->
  appends c (e_spin e) u (uartputc c e u).
Proof.
  intros He Hok Ha. unfold uartputc. rewrite bind_eq, acquire_eq by (rewrite He; set_solver). kred.
  rewrite bind_eq. kred. rewrite (uo_running u Hok). rewrite bind_eq. kred. rewrite bind_eq, He.
  by apply (uartputc_wait_run c (e_spin e) (set_held [LkUartTx] e)).
Qed.

(** uartstart(), called from uartputc() and from the interrupt handler,
    returns after at most 32 bytes and only moves bytes from the buffer to
    the device: none is lost, repeated or reordered. *)
Theorem uartstart_keeps_stream e u :
  uart_ok u -> answers (Z.to_nat UART_TX_BUF_SIZE) u ->
  exists e' u', uartstart e u = Ok tt e' u' /\ uart_ok u' /\ tx_stream u' = tx_stream u.
Proof.
  intros Hok Ha. destruct (uartstart_run e u Hok Ha) as (e' & u' & H1 & _ & H2 & H3). eauto.
Qed.

(** ** Witnesses: counters about to wrap around, and a full buffer *)

Definition demo_uart (w : Z) : uart :=
  mkUart (replicate 32 65) w (2 ^ 64 - 1) false (replicate 32 32) [] [].

Definition demo_uart_env : env := mkEnv 0 1 false [] [] 2.

Lemma demo_uart_ok w : 0 <= w <= 31 -> uart_ok (demo_uart w).
Proof.
  intros Hw. split; cbn; try done; [repeat constructor|lia|]. unfold tx_count, UART_TX_BUF_SIZE, u64. cbn. zdm.
Qed.

Lemma appends_returned c n u e u' : appends c n u (Ok tt e u') -> tx_stream u' = tx_stream u ++ [u8 c].
Proof. by inversion 1. Qed.

Lemma uartputc_fifo_witness :
  exists e' u', uartputc 66 demo_uart_env (demo_uart 1) = Ok tt e' u' /\ tx_stream u' = [65; 65; 66].
Proof.
  pose proof (uartputc_fifo 66 demo_uart_env (demo_uart 1) eq_refl (demo_uart_ok 1 ltac:(lia)) (Nat.le_refl 32)) as H.
  destruct (uartputc 66 demo_uart_env (demo_uart 1)) as [[] e' u'| | |] eqn:E; [|by vm_compute in E..].
  exists e', u'. split; [done|]. rewrite (appends_returned _ _ _ _ _ H). by vm_compute.
Defined.

Lemma uartstart_keeps_stream_witness :
  exists e' u', uartstart demo_uart_env (demo_uart 31) = Ok tt e' u' /\ tx_stream u' = replicate 32 65.
Proof.
  destruct (uartstart_keeps_stream demo_uart_env (demo_uart 31) (demo_uart_ok 31 ltac:(lia)) (Nat.le_refl 32))
    as (e' & u' & H1 & _ & H2).
  exists e', u'. split; [exact H1|]. rewrite H2. by vm_compute.
Defined.
