(* ===== verification/Console.v ===== *)
(** * kernel/console.c: the console, and uart.c's interrupt handler

    [consdev] is the console's input buffer on top of the serial port.  The
    copies to and from the caller go through the process table. *)

From S2P Require Import Prelude KMonad CString Riscv Kalloc Vm Proc Uart.
Open Scope kmonad_scope.

Definition BACKSPACE : Z := 0x100.
(** C(x): Control-x. *)
Definition Ctl (x : Z) : Z := x - 64.
Definition INPUT_BUF_SIZE : Z := 128.

Record consdev : Set := mkConsdev {
  cd_uart : uart;
  cons_buf : list Z;          (* INPUT_BUF_SIZE bytes *)
  cons_r : Z;
  cons_w : Z;
  cons_e : Z;
  keyboard_int_cnt : Z
}.

Definition set_uart v c := mkConsdev v (cons_buf c) (cons_r c) (cons_w c) (cons_e c) (keyboard_int_cnt c).
Definition set_cbuf v c := mkConsdev (cd_uart c) v (cons_r c) (cons_w c) (cons_e c) (keyboard_int_cnt c).
Definition set_r v c := mkConsdev (cd_uart c) (cons_buf c) v (cons_w c) (cons_e c) (keyboard_int_cnt c).
Definition set_w v c := mkConsdev (cd_uart c) (cons_buf c) (cons_r c) v (cons_e c) (keyboard_int_cnt c).
Definition set_e v c := mkConsdev (cd_uart c) (cons_buf c) (cons_r c) (cons_w c) v (keyboard_int_cnt c).
Definition set_kbd v c := mkConsdev (cd_uart c) (cons_buf c) (cons_r c) (cons_w c) (cons_e c) v.

Record cstate : Type := mkCstate { c_p : pstate; c_dev : consdev }.

Definition put_cp (p : pstate) (s : cstate) : cstate := mkCstate p (c_dev s).
Definition put_dev (d : consdev) (s : cstate) : cstate := mkCstate (c_p s) d.
Definition at_p {A} (m : K pstate A) : K cstate A := zoom c_p put_cp m.
Definition at_dev {A} (m : K consdev A) : K cstate A := zoom c_dev put_dev m.
Definition at_uart {A} (m : K uart A) : K consdev A := zoom cd_uart set_uart m.

Definition consputc (c : Z) : K consdev unit :=
  if c =? BACKSPACE then
    at_uart (uartputc_sync 8) ;;;
    at_uart (uartputc_sync 32) ;;;
    at_uart (uartputc_sync 8)
  else at_uart (uartputc_sync c).

(** for (i = 0; i < n; i++), [k] iterations left. *)
Fixpoint consolewrite_loop (k : nat) (user_src : bool) (src i : Z) : K cstate Z :=
  match k with
  | O => ret i
  | S k =>
      r <- at_p (either_copyin user_src (u64 (src + i)) 1) ;;
      if r.1 =? -1 then ret i
      else
        at_dev (at_uart (uartputc (default 0 (head r.2)))) ;;;
        consolewrite_loop k user_src src (i + 1)
  end.

Definition consolewrite (user_src : bool) (src n : Z) : K cstate Z :=
  consolewrite_loop (Z.to_nat n) user_src src 0.

(** The wait for input; false when the reader was killed. *)
Fixpoint consoleread_wait (fuel : nat) : K cstate bool :=
  d <- gets c_dev ;;
  if cons_r d =? cons_w d then
    me <- asks e_me ;;
    k <- at_p (killed me) ;;
    if negb (k =? 0) then release LkCons ;;; ret false
    else
      match fuel with
      | O => out_of_fuel
      | S fuel => KMonad.sleep ChCons LkCons ;;; consoleread_wait fuel
      end
  else ret true.

(** while (n > 0), [k] = n iterations left; the result is the final n, None
    when the reader was killed. *)
Fixpoint consoleread_loop (k : nat) (user_dst : bool) (dst target : Z) : K cstate (option Z) :=
  match k with
  | O => ret (Some 0)
  | S k' =>
      let n := Z.of_nat k in
      spin <- asks e_spin ;;
      ok <- consoleread_wait spin ;;
      if negb ok then ret None
      else
        d <- gets c_dev ;;
        let c := default 0 (cons_buf d !! Z.to_nat (cons_r d mod INPUT_BUF_SIZE)) in
        at_dev (modify (set_r (u32 (cons_r d + 1)))) ;;;
        if c =? Ctl 68 then
          (when n <? target do at_dev (modify (fun d => set_r (u32 (cons_r d - 1)) d))) ;;;
          ret (Some n)
        else
          r <- at_p (either_copyout user_dst dst [c]) ;;
          if r =? -1 then ret (Some n)
          else if c =? 10 then ret (Some (n - 1))
          else consoleread_loop k' user_dst (u64 (dst + 1)) target
  end.

Definition consoleread (user_dst : bool) (dst n : Z) : K cstate Z :=
  acquire LkCons ;;;
  r <- (if 0 <? n then consoleread_loop (Z.to_nat n) user_dst dst n else ret (Some n)) ;;
  match r with
  | None => ret (-1)
  | Some n' => release LkCons ;;; ret (n - n')
  end.

(** Kill line: while (cons.e != cons.w && the last character is no newline). *)
Fixpoint kill_line (fuel : nat) : K consdev unit :=
  d <- gets (fun d => d) ;;
  if negb (cons_e d =? cons_w d) &&
     negb (default 0 (cons_buf d !! Z.to_nat (u32 (cons_e d - 1) mod INPUT_BUF_SIZE)) =? 10)
  then
    match fuel with
    | O => out_of_fuel
    | S fuel =>
        modify (set_e (u32 (cons_e d - 1))) ;;;
        consputc BACKSPACE ;;;
        kill_line fuel
    end
  else ret tt.

(** The default case of the switch. *)
Definition cons_input (c : Z) : K consdev unit :=
  d <- gets (fun d => d) ;;
  when negb (c =? 0) && (u32 (cons_e d - cons_r d) <? INPUT_BUF_SIZE) do
    (let c := if c =? 13 then 10 else c in
     consputc c ;;;
     d <- gets (fun d => d) ;;
     modify (set_cbuf (<[Z.to_nat (cons_e d mod INPUT_BUF_SIZE) := u8 c]> (cons_buf d))) ;;;
     modify (set_e (u32 (cons_e d + 1))) ;;;
     d <- gets (fun d => d) ;;
     when (c =? 10) || (c =? Ctl 68) || (u32 (cons_e d - cons_r d) =? INPUT_BUF_SIZE) do
       (modify (set_w (cons_e d)) ;;;
        KMonad.wakeup ChCons)).

Definition consoleintr (c : Z) : K cstate unit :=
  acquire LkCons ;;;
  at_dev (modify (fun d => set_kbd (i32 (keyboard_int_cnt d + 1)) d)) ;;;
  (if c =? Ctl 80 then at_p procdump
   else if c =? Ctl 85 then at_dev (kill_line (Z.to_nat INPUT_BUF_SIZE))
   else if (c =? Ctl 72) || (c =? 0x7f) then
     at_dev
       (d <- gets (fun d => d) ;;
        when negb (cons_e d =? cons_w d) do
          (modify (set_e (u32 (cons_e d - 1))) ;;;
           consputc BACKSPACE))
   else at_dev (cons_input c)) ;;;
  release LkCons.

(** uart.c: while(1) over the device's input. *)
Fixpoint uartintr_loop (fuel : nat) : K cstate unit :=
  c <- at_dev (at_uart uartgetc) ;;
  if c =? -1 then ret tt
  else
    match fuel with
    | O => out_of_fuel
    | S fuel => consoleintr c ;;; uartintr_loop fuel
    end.

Definition uartintr : K cstate unit :=
  answers <- gets (fun s => u_lsr (cd_uart (c_dev s))) ;;
  uartintr_loop (length answers) ;;;
  acquire LkUartTx ;;;
  at_dev (at_uart uartstart) ;;;
  release LkUartTx.
