(* ===== verification/ConsoleSpec.v ===== *)
(** * The console's line discipline

    The input buffer with its three counters is a pair of lists: the lines
    that are complete, which readers take, and the line being typed, which
    can still be edited.  consoleintr() refines the obvious function on that
    pair, and consoleread() takes one line at most. *)

From S2P Require Import Prelude Ring KMonad Hoare CString Riscv Kalloc Vm PageTable VmSpec UCopy.
From S2P Require Import VmThms Proc ProcSpec Uart Console.
Open Scope kmonad_scope.

(** ** Reference: lines and their editing *)

(** [complete], [typed] and what the terminal is sent. *)
Definition rub : list Z := [8; 32; 8].

Definition line_step (c : Z) (l : list Z * list Z) : (list Z * list Z) * list Z :=
  let (complete, typed) := l in
  if c =? Ctl 85 then ((complete, []), concat (map (fun _ => rub) typed))
  else if (c =? Ctl 72) || (c =? 0x7f) then
    match typed with
    | [] => (l, [])
    | _ => ((complete, removelast typed), rub)
    end
  else if (c =? 0) || (INPUT_BUF_SIZE <=? Z.of_nat (length complete + length typed)) then (l, [])
  else
    let c := if c =? 13 then 10 else c in
    let typed := typed ++ [c] in
    if (c =? 10) || (c =? Ctl 68) || (Z.of_nat (length complete + length typed) =? INPUT_BUF_SIZE)
    then ((complete ++ typed, []), [c])
    else ((complete, typed), [c]).

(** ** The lists the buffer holds *)

Definition n_complete (d : consdev) : Z := u32 (cons_w d - cons_r d).
Definition n_typed (d : consdev) : Z := u32 (cons_e d - cons_w d).

Definition complete (d : consdev) : list Z :=
  ring INPUT_BUF_SIZE (cons_buf d) (cons_r d) (Z.to_nat (n_complete d)).
Definition typed (d : consdev) : list Z :=
  ring INPUT_BUF_SIZE (cons_buf d) (cons_w d) (Z.to_nat (n_typed d)).

Record cons_ok (d : consdev) : Prop := {
  co_len : length (cons_buf d) = Z.to_nat INPUT_BUF_SIZE;
  co_r : 0 <= cons_r d < 2 ^ 32;
  co_w : 0 <= cons_w d < 2 ^ 32;
  co_e : 0 <= cons_e d < 2 ^ 32;
  co_count : n_complete d + n_typed d <= INPUT_BUF_SIZE;
  co_line : Forall (fun c => c <> 10) (typed d);
  co_uart : panicked (cd_uart d) = false
}.

(** ** Echo *)

Definition idle (lsr : Z) : bool := negb (Z.land lsr LSR_TX_IDLE =? 0).

(** How often the device will report that it can take a byte. *)
Definition idles (u : uart) : nat := length (filter (fun v => idle v = true) (u_lsr u)).

(** [u'] is [u] after the bytes [bs] have been sent synchronously. *)
Record echoed (bs : list Z) (u u' : uart) : Prop := {
  ec_sent : sent u' = sent u ++ map u8 bs;
  ec_idles : (idles u = length bs + idles u')%nat;
  ec_panicked : panicked u' = panicked u;
  ec_tx : tx_buf u' = tx_buf u /\ tx_w u' = tx_w u /\ tx_r u' = tx_r u
}.

Lemma echoed_refl u : echoed [] u u.
Proof. split; [by rewrite app_nil_r|done|done|done]. Qed.

Lemma echoed_app bs bs' u u1 u2 : echoed bs u u1 -> echoed bs' u1 u2 -> echoed (bs ++ bs') u u2.
Proof.
  intros [H1 H2 H3 (H4 & H5 & H6)] [G1 G2 G3 (G4 & G5 & G6)]. split.
  - by rewrite G1, H1, map_app, app_assoc.
  - rewrite length_app. lia.
  - congruence.
  - split; [|split]; congruence.
Qed.

Lemma lsr_wait_run l e u :
  u_lsr u = l -> (0 < idles u)%nat ->
  exists l', lsr_wait l e u = Ok tt e (set_lsr l' u) /\ idles u = S (idles (set_lsr l' u)).
Proof.
  revert u. induction l as [|v l IH]; intros u Hu Hi; unfold idles in *; rewrite Hu in *; cbn in Hi.
  - lia.
  - cbn [lsr_wait]. rewrite bind_eq. kred. rewrite filter_cons in *. unfold idle in *.
    destruct (Z.land v LSR_TX_IDLE =? 0); cbn [negb] in *.
    + rewrite decide_False in * by done. destruct (IH (set_lsr l u)) as (l' & H1 & H2); [done|done|].
      exists l'. rewrite H1. split; [done|]. cbn [set_lsr u_lsr] in H2 |- *. lia.
    + rewrite decide_True in * by done. exists l. split; [done|]. cbn. lia.
Qed.

Lemma uartputc_sync_run c e u :
  panicked u = false -> (0 < idles u)%nat ->
  exists u', uartputc_sync c e u = Ok tt e u' /\ echoed [c] u u'.
Proof.
  intros Hp Hi. unfold uartputc_sync. rewrite bind_eq. kred. rewrite Hp. rewrite bind_eq. kred.
  destruct (lsr_wait_run (u_lsr u) e u) as (l' & H1 & H2); [done|done|].
  rewrite bind_eq, H1. kred. unfold WriteReg. kred. eexists. split; [done|]. split; [done| |done|done].
  cbn [length]. done.
Qed.

Definition echo_of (c : Z) : list Z := if c =? BACKSPACE then rub else [c].

Lemma at_uart_run m e d u' :
  m e (cd_uart d) = Ok tt e u' -> at_uart m e d = Ok tt e (set_uart u' d).
Proof. intros H. unfold at_uart, zoom. by rewrite H. Qed.

Lemma consputc_run c e d :
  panicked (cd_uart d) = false -> (length (echo_of c) <= idles (cd_uart d))%nat ->
  exists u', consputc c e d = Ok tt e (set_uart u' d) /\ echoed (echo_of c) (cd_uart d) u'.
Proof.
  intros Hp Hi. unfold consputc, echo_of in *. destruct (c =? BACKSPACE); cbn [length rub] in Hi.
  - destruct (uartputc_sync_run 8 e (cd_uart d)) as (u1 & H1 & E1); [done|lia|].
    pose proof (ec_idles _ _ _ E1) as I1. cbn [length] in I1.
    destruct (uartputc_sync_run 32 e u1) as (u2 & H2 & E2); [by rewrite (ec_panicked _ _ _ E1)|lia|].
    pose proof (ec_idles _ _ _ E2) as I2. cbn [length] in I2.
    destruct (uartputc_sync_run 8 e u2) as (u3 & H3 & E3);
      [by rewrite (ec_panicked _ _ _ E2), (ec_panicked _ _ _ E1)|lia|].
    exists u3. rewrite bind_eq, (at_uart_run _ _ _ u1) by done. cbn [rbind].
    rewrite bind_eq, (at_uart_run _ _ _ u2) by done. cbn [rbind].
    rewrite (at_uart_run _ _ _ u3) by done. split; [done|].
    apply (echoed_app [8] [32; 8] _ u1); [done|]. by apply (echoed_app [32] [8] _ u2).
  - destruct (uartputc_sync_run c e (cd_uart d)) as (u1 & H1 & E1); [done|lia|].
    exists u1. split; [|done]. by apply at_uart_run.
Qed.

(** The counters do not mind the device. *)
Lemma cons_ok_uart u d : panicked u = false -> cons_ok d -> cons_ok (set_uart u d).
Proof. intros Hp []. by split. Qed.

(** ** Taking a byte back *)

Definition back (d : consdev) : consdev := set_e (u32 (cons_e d - 1)) d.

Lemma n_ranges d : 0 <= n_complete d /\ 0 <= n_typed d.
Proof. split; apply u32_range. Qed.

Lemma typed_nil d : cons_ok d -> cons_e d = cons_w d <-> typed d = [].
Proof.
  intros []. rewrite <- length_zero_iff_nil. unfold typed. rewrite length_ring. unfold n_typed, u32. split; intros.
  - replace (cons_e d - cons_w d) with 0 by lia. done.
  - zdm.
Qed.

Lemma back_ok d :
  cons_ok d -> cons_e d <> cons_w d ->
  cons_ok (back d) /\ n_typed (back d) = n_typed d - 1 /\
  typed d = typed (back d) ++ [cell INPUT_BUF_SIZE (cons_buf d) (u32 (cons_e d - 1))].
Proof.
  intros [Hl Hr Hw He Hc Hn Hp] Hne. pose proof (n_ranges d) as [H0 _].
  assert (Hcnt : n_typed (back d) = n_typed d - 1).
  { unfold n_typed, back in *. cbn [cons_e cons_w set_e]. unfold u32 in *. zdm. }
  pose proof (n_ranges (back d)) as [_ H1].
  assert (Ht : typed d = typed (back d) ++ [cell INPUT_BUF_SIZE (cons_buf d) (u32 (cons_e d - 1))]).
  { unfold typed. rewrite Hcnt. replace (Z.to_nat (n_typed d)) with (S (Z.to_nat (n_typed d - 1))) by lia.
    rewrite ring_snoc. f_equal. f_equal. apply cell_mod. rewrite Z2Nat.id by lia.
    unfold n_typed, INPUT_BUF_SIZE, u32. zdm. }
  split; [|done]. split; try done.
  - apply u32_range.
  - rewrite Hcnt. unfold n_complete in *. cbn. lia.
  - rewrite Ht in Hn. by apply Forall_app in Hn as [Hn _].
Qed.

Lemma rubs_snoc (l : list Z) : concat (map (fun _ => rub) l) ++ rub = rub ++ concat (map (fun _ => rub) l).
Proof. induction l as [|x l IH]; [done|]. cbn [map concat]. by rewrite <- app_assoc, IH. Qed.

Lemma kill_line_run fuel e d :
  cons_ok d -> (length (typed d) <= fuel)%nat -> (3 * length (typed d) <= idles (cd_uart d))%nat ->
  exists u', kill_line fuel e d = Ok tt e (set_e (cons_w d) (set_uart u' d)) /\
    echoed (concat (map (fun _ => rub) (typed d))) (cd_uart d) u'.
Proof.
  revert d. induction fuel as [|fuel IH]; intros d Hok Hf Hi; cbn [kill_line]; rewrite bind_eq; kred;
    destruct (Z.eqb_spec (cons_e d) (cons_w d)) as [He|Hne]; cbn [negb andb].
  1, 3: rewrite (proj1 (typed_nil d Hok) He); exists (cd_uart d); split; [|apply echoed_refl];
    rewrite <- He; by destruct d.
  - destruct (back_ok d Hok Hne) as (_ & _ & Ht). rewrite Ht, length_app in Hf. cbn in Hf. lia.
  - destruct (back_ok d Hok Hne) as (Hok' & Hcnt & Ht).
    assert (Hc : cell INPUT_BUF_SIZE (cons_buf d) (u32 (cons_e d - 1)) <> 10).
    { pose proof (co_line d Hok) as Hn. rewrite Ht in Hn. apply Forall_app in Hn as [_ Hn]. by inversion Hn. }
    apply Z.eqb_neq in Hc. unfold cell in Hc. rewrite Hc. cbn [negb].
    rewrite bind_eq. kred. fold (back d). rewrite Ht, length_app in Hf, Hi. cbn [length] in Hf, Hi.
    destruct (consputc_run BACKSPACE e (back d)) as (u1 & H1 & E1); [apply Hok'|cbn; lia|].
    rewrite bind_eq, H1. cbn [rbind].
    destruct (IH (set_uart u1 (back d))) as (u2 & H2 & E2).
    + apply cons_ok_uart; [|done]. rewrite (ec_panicked _ _ _ E1). apply Hok'.
    + change (typed (set_uart u1 (back d))) with (typed (back d)). lia.
    + change (typed (set_uart u1 (back d))) with (typed (back d)).
      pose proof (ec_idles _ _ _ E1) as I1. cbn in I1. cbn [cd_uart set_uart]. lia.
    + exists u2. split; [done|]. rewrite Ht, map_app, concat_app.
      change (typed (set_uart u1 (back d))) with (typed (back d)) in E2. cbn [map concat].
      rewrite app_nil_r, rubs_snoc. by apply (echoed_app rub _ _ u1).
Qed.

(** ** Typing a byte *)

Definition type_byte (c : Z) (d : consdev) : consdev :=
  set_e (u32 (cons_e d + 1)) (set_cbuf (<[Z.to_nat (cons_e d mod INPUT_BUF_SIZE) := c]> (cons_buf d)) d).

(** cons.w = cons.e: the typed line is complete. *)
Definition commit_line (d : consdev) : consdev := set_w (cons_e d) d.

Lemma used_eq d : cons_ok d -> u32 (cons_e d - cons_r d) = n_complete d + n_typed d.
Proof. intros [_ Hr Hw He Hc _ _]. unfold n_complete, n_typed, INPUT_BUF_SIZE, u32 in *. zdm. Qed.

Lemma type_byte_counts c d :
  cons_ok d -> n_complete d + n_typed d < INPUT_BUF_SIZE ->
  n_complete (type_byte c d) = n_complete d /\ n_typed (type_byte c d) = n_typed d + 1.
Proof.
  intros [_ Hr Hw He _ _ _] Hc. split; [done|].
  unfold n_complete, n_typed, type_byte in *. cbn [cons_e cons_w cons_r set_e set_cbuf].
  unfold INPUT_BUF_SIZE, u32 in *. zdm.
Qed.

Lemma type_byte_lists c d :
  cons_ok d -> n_complete d + n_typed d < INPUT_BUF_SIZE ->
  complete (type_byte c d) = complete d /\ typed (type_byte c d) = typed d ++ [c].
Proof.
  intros Hok Hc. destruct (type_byte_counts c d Hok Hc) as [H1 H2]. pose proof (n_ranges d) as [R1 R2].
  destruct Hok as [Hl Hr Hw He _ _ _].
  assert (Hall : ring INPUT_BUF_SIZE (cons_buf (type_byte c d)) (cons_r d) (S (Z.to_nat (n_complete d) + Z.to_nat (n_typed d)))
                 = ring INPUT_BUF_SIZE (cons_buf d) (cons_r d) (Z.to_nat (n_complete d) + Z.to_nat (n_typed d)) ++ [c]).
  { apply ring_push; [done|done|lia|]. rewrite Nat2Z.inj_add, !Z2Nat.id by lia.
    unfold n_complete, n_typed, INPUT_BUF_SIZE, u32. zdm. }
  replace (S (Z.to_nat (n_complete d) + Z.to_nat (n_typed d)))
    with (Z.to_nat (n_complete d) + Z.to_nat (n_typed d + 1))%nat in Hall by lia.
  rewrite !ring_app, <- app_assoc in Hall. rewrite Z2Nat.id in Hall by lia.
  assert (Hwr : forall buf n, ring INPUT_BUF_SIZE buf (cons_r d + n_complete d) n = ring INPUT_BUF_SIZE buf (cons_w d) n).
  { intros. apply ring_mod; [done|]. unfold n_complete, INPUT_BUF_SIZE, u32. zdm. }
  rewrite !Hwr in Hall. apply app_inj_1 in Hall as [Ha Hb]; [|by rewrite !length_ring].
  split; unfold complete, typed; rewrite ?H1, ?H2; done.
Qed.

Lemma type_byte_ok c d :
  cons_ok d -> n_complete d + n_typed d < INPUT_BUF_SIZE -> c <> 10 -> cons_ok (type_byte c d).
Proof.
  intros Hok Hc Hnl. destruct (type_byte_counts c d Hok Hc) as [H1 H2].
  destruct (type_byte_lists c d Hok Hc) as [_ Ht]. destruct Hok as [Hl Hr Hw He Hcnt Hn Hp]. split; try done.
  - cbn. by rewrite length_insert.
  - apply u32_range.
  - lia.
  - rewrite Ht. apply Forall_app. split; [done|]. by constructor.
Qed.

Lemma commit_line_ok c d :
  cons_ok d -> n_complete d + n_typed d < INPUT_BUF_SIZE ->
  cons_ok (commit_line (type_byte c d)) /\ complete (commit_line (type_byte c d)) = complete d ++ typed d ++ [c] /\
  typed (commit_line (type_byte c d)) = [].
Proof.
  intros Hok Hc. destruct (type_byte_counts c d Hok Hc) as [H1 H2].
  destruct (type_byte_lists c d Hok Hc) as [Hl1 Hl2]. pose proof (n_ranges d) as [R1 R2].
  destruct Hok as [Hl Hr Hw He Hcnt Hn Hp]. set (d1 := type_byte c d) in *.
  assert (Hz : n_typed (commit_line d1) = 0).
  { unfold n_typed, commit_line. cbn [cons_e cons_w set_w]. by rewrite Z.sub_diag. }
  assert (Hcc : n_complete (commit_line d1) = n_complete d + n_typed d + 1).
  { unfold n_complete, n_typed, commit_line, d1, type_byte in *. cbn [cons_e cons_w cons_r set_w set_e set_cbuf] in *.
    unfold INPUT_BUF_SIZE, u32 in *. zdm. }
  assert (Ht : typed (commit_line d1) = []) by (unfold typed; by rewrite Hz).
  split; [split|split; [|done]]; try done.
  - cbn. by rewrite length_insert.
  - apply u32_range.
  - apply u32_range.
  - lia.
  - by rewrite Ht.
  - rewrite <- Hl2, <- Hl1. unfold complete, typed. rewrite Hcc, H1, H2.
    replace (Z.to_nat (n_complete d + n_typed d + 1)) with (Z.to_nat (n_complete d) + Z.to_nat (n_typed d + 1))%nat by lia.
    change (cons_buf (commit_line d1)) with (cons_buf d1). change (cons_r (commit_line d1)) with (cons_r d1).
    rewrite ring_app. f_equal. apply ring_mod; [done|]. rewrite Z2Nat.id by lia.
    change (cons_w d1) with (cons_w d). change (cons_r d1) with (cons_r d).
    unfold n_complete, INPUT_BUF_SIZE, u32. zdm.
Qed.

(** ** consoleintr() *)

(** [d'] is [d] after the byte [c] by the line discipline, and readers have
    been woken if there is a new complete line. *)
Record edited (c : Z) (d : consdev) (e : env) (d' : consdev) (e' : env) : Prop := {
  ed_ok : cons_ok d';
  ed_line : (line_step c (complete d, typed d)).1 = (complete d', typed d');
  ed_echo : echoed (line_step c (complete d, typed d)).2 (cd_uart d) (cd_uart d');
  ed_count : keyboard_int_cnt d' = keyboard_int_cnt d;
  ed_held : e_held e' = e_held e;
  ed_woken : e_woken e' = (if decide (complete d' = complete d) then [] else [ChCons]) ++ e_woken e
}.

Lemma room_eq d : cons_ok d -> Z.of_nat (length (complete d) + length (typed d)) = n_complete d + n_typed d.
Proof. intros _. pose proof (n_ranges d). unfold complete, typed. rewrite !length_ring. lia. Qed.

Lemma edited_same c d e :
  cons_ok d -> line_step c (complete d, typed d) = ((complete d, typed d), []) -> edited c d e d e.
Proof.
  intros Hok Hl. split; rewrite ?Hl; try done.
  - apply echoed_refl.
  - by rewrite decide_True.
Qed.

Lemma erase_run c e d :
  cons_ok d -> (3 <= idles (cd_uart d))%nat -> c <> Ctl 85 -> (c =? Ctl 72) || (c =? 0x7f) = true ->
  exists d', (d <- gets (fun d => d) ;;
              when negb (cons_e d =? cons_w d) do
                (modify (set_e (u32 (cons_e d - 1))) ;;; consputc BACKSPACE)) e d = Ok tt e d' /\
             edited c d e d' e.
Proof.
  intros Hok Hi Hu Hc. apply Z.eqb_neq in Hu. rewrite bind_eq. kred.
  destruct (Z.eqb_spec (cons_e d) (cons_w d)) as [He|Hne]; cbn [negb].
  - exists d. split; [done|]. apply edited_same; [done|].
    unfold line_step. rewrite Hu, Hc. by rewrite (proj1 (typed_nil d Hok) He).
  - destruct (back_ok d Hok Hne) as (Hok' & _ & Ht). rewrite bind_eq. kred. fold (back d).
    destruct (consputc_run BACKSPACE e (back d)) as (u1 & H1 & E1); [apply Hok'|cbn; lia|].
    exists (set_uart u1 (back d)). split; [done|].
    assert (Hs : line_step c (complete d, typed d) = ((complete d, typed (back d)), rub)).
    { unfold line_step. rewrite Hu, Hc, Ht. rewrite removelast_last.
      by destruct (typed (back d)). }
    split; rewrite ?Hs; try done.
    + apply cons_ok_uart; [|done]. rewrite (ec_panicked _ _ _ E1). apply Hok'.
    + by rewrite decide_True.
Qed.

(** What line_step() does with an ordinary byte. *)
Lemma line_step_input c d :
  cons_ok d -> c <> Ctl 85 -> (c =? Ctl 72) || (c =? 0x7f) = false ->
  line_step c (complete d, typed d) =
    if negb (c =? 0) && (n_complete d + n_typed d <? INPUT_BUF_SIZE) then
      let c := if c =? 13 then 10 else c in
      if (c =? 10) || (c =? Ctl 68) || (n_complete d + n_typed d + 1 =? INPUT_BUF_SIZE)
      then ((complete d ++ typed d ++ [c], []), [c]) else ((complete d, typed d ++ [c]), [c])
    else ((complete d, typed d), []).
Proof.
  intros Hok Hu Hc. apply Z.eqb_neq in Hu. unfold line_step. rewrite Hu, Hc, length_app. cbn [length].
  replace (Z.of_nat (length (complete d) + (length (typed d) + 1)))
    with (Z.of_nat (length (complete d) + length (typed d)) + 1) by lia.
  rewrite room_eq by done. rewrite Z.leb_antisym. by destruct (c =? 0), (_ <? INPUT_BUF_SIZE).
Qed.

Lemma cons_input_run c e d :
  cons_ok d -> (1 <= idles (cd_uart d))%nat -> 0 <= c < 256 -> c <> Ctl 85 ->
  (c =? Ctl 72) || (c =? 0x7f) = false ->
  exists d' e', cons_input c e d = Ok tt e' d' /\ edited c d e d' e'.
Proof.
  intros Hok Hi Hr Hu Hc. pose proof (line_step_input c d Hok Hu Hc) as Hls.
  unfold cons_input. rewrite bind_eq. kred. rewrite used_eq by done.
  destruct (negb (c =? 0) && (n_complete d + n_typed d <? INPUT_BUF_SIZE)) eqn:Hb.
  2: { exists d, e. split; [done|]. by apply edited_same. }
  apply andb_prop in Hb as [_ Hroom%Z.ltb_lt]. cbn zeta in Hls.
  assert (Hr' : 0 <= (if c =? 13 then 10 else c) < 256) by (destruct (c =? 13); lia).
  set (c' := if c =? 13 then 10 else c) in *. cbn zeta.
  assert (Hec : echo_of c' = [c']).
  { unfold echo_of, BACKSPACE. by replace (c' =? 0x100) with false by (symmetry; apply Z.eqb_neq; lia). }
  destruct (consputc_run c' e d) as (u & H1 & E1); [apply Hok|rewrite Hec; cbn; lia|]. rewrite Hec in E1.
  assert (Hok1 : cons_ok (set_uart u d)).
  { apply cons_ok_uart; [|done]. rewrite (ec_panicked _ _ _ E1). apply Hok. }
  destruct (type_byte_counts c' (set_uart u d) Hok1 Hroom) as [N1 N2].
  rewrite bind_eq, H1. cbn [rbind]. rewrite !bind_eq. kred. rewrite !bind_eq. kred. rewrite !bind_eq. kred.
  rewrite (u8_small c') by lia. fold (type_byte c' (set_uart u d)). rewrite !bind_eq. kred.
  set (d1 := type_byte c' (set_uart u d)) in *.
  assert (Hused : u32 (cons_e d1 - cons_r d1) = n_complete d + n_typed d + 1).
  { destruct Hok as [_ Q1 Q2 Q3 _ _ _]. unfold d1, type_byte. cbn [cons_e cons_r set_e set_cbuf set_uart].
    unfold n_complete, n_typed, INPUT_BUF_SIZE, u32 in *. zdm. }
  rewrite Hused. destruct ((c' =? 10) || (c' =? Ctl 68) || _) eqn:Hcommit.
  - unfold KMonad.wakeup. rewrite bind_eq. kred. exists (commit_line d1), (add_woken [ChCons] e).
    split; [done|]. destruct (commit_line_ok c' (set_uart u d) Hok1 Hroom) as (K1 & K2 & K3).
    split; rewrite ?Hls; try done.
    + cbn [fst]. fold d1 in K2, K3. by rewrite K2, K3.
    + rewrite decide_False; [done|]. fold d1 in K2. rewrite K2. intros Hx. apply (f_equal length) in Hx.
      change (complete (set_uart u d)) with (complete d) in Hx. rewrite !length_app in Hx. cbn [length] in Hx. lia.
  - destruct (type_byte_lists c' (set_uart u d) Hok1 Hroom) as [K1 K2]. exists d1, e. split; [done|].
    apply orb_false_elim in Hcommit as [[Hnl%Z.eqb_neq _]%orb_false_elim _].
    split; rewrite ?Hls; try done.
    + by apply type_byte_ok.
    + cbn [fst]. fold d1 in K1, K2. by rewrite K1, K2.
    + fold d1 in K1. by rewrite K1, decide_True.
Qed.

Lemma kill_run c e d :
  cons_ok d -> (3 * Z.to_nat INPUT_BUF_SIZE <= idles (cd_uart d))%nat -> c = Ctl 85 ->
  exists d', kill_line (Z.to_nat INPUT_BUF_SIZE) e d = Ok tt e d' /\ edited c d e d' e.
Proof.
  intros Hok Hi ->. pose proof (n_ranges d). assert (Ht : (length (typed d) <= Z.to_nat INPUT_BUF_SIZE)%nat).
  { unfold typed. rewrite length_ring. pose proof (co_count d Hok). lia. }
  destruct (kill_line_run (Z.to_nat INPUT_BUF_SIZE) e d Hok Ht) as (u & H1 & E1); [lia|].
  exists (set_e (cons_w d) (set_uart u d)). split; [done|].
  assert (Hz : typed (set_e (cons_w d) (set_uart u d)) = []).
  { unfold typed, n_typed. cbn [cons_e cons_w set_e set_uart]. by rewrite Z.sub_diag. }
  split; try done.
  - destruct Hok as [Hl Hr Hw He Hc Hn Hp]. split; try done.
    + unfold n_typed at 1. cbn [cons_e cons_w set_e set_uart]. rewrite Z.sub_diag. change (u32 0) with 0.
      change (n_complete (set_e (cons_w d) (set_uart u d))) with (n_complete d). lia.
    + by rewrite Hz.
    + cbn. by rewrite (ec_panicked _ _ _ E1).
  - cbn [line_step Z.eqb fst]. by rewrite Hz.
  - by rewrite decide_True.
Qed.

Lemma at_dev_run m e s e' d' :
  m e (c_dev s) = Ok tt e' d' -> at_dev m e s = Ok tt e' (put_dev d' s).
Proof. intros H. unfold at_dev, zoom. by rewrite H. Qed.

(** C30: the console refines its line discipline.  For every input byte but
    Control-P, consoleintr() returns, without sleeping or panicking, with the
    buffer's complete and typed lines changed exactly as [line_step] says
    (kill line, erase, carriage return as newline, a line ending with
    newline, Control-D or a full buffer), the terminal has been sent exactly
    the echo, readers are woken exactly when a line becomes complete, the
    interrupt counter is one higher, and nothing else changes.  The counters
    wrap around at 32 bits. *)
Theorem consoleintr_refines c e s :
  LkCons ∉ e_held e -> cons_ok (c_dev s) -> 0 <= c < 256 -> c <> Ctl 80 ->
  (3 * Z.to_nat INPUT_BUF_SIZE <= idles (cd_uart (c_dev s)))%nat ->
  exists e' d', consoleintr c e s = Ok tt e' (put_dev d' s) /\ cons_ok d' /\
    (complete d', typed d') = (line_step c (complete (c_dev s), typed (c_dev s))).1 /\
    sent (cd_uart d') = sent (cd_uart (c_dev s)) ++ map u8 (line_step c (complete (c_dev s), typed (c_dev s))).2 /\
    keyboard_int_cnt d' = i32 (keyboard_int_cnt (c_dev s) + 1) /\ e_held e' = e_held e /\
    e_woken e' = (if decide (complete d' = complete (c_dev s)) then [] else [ChCons]) ++ e_woken e.
Proof.
  intros Hlk Hok Hr Hp Hi. set (d0 := set_kbd (i32 (keyboard_int_cnt (c_dev s) + 1)) (c_dev s)).
  set (e0 := set_held (LkCons :: e_held e) e).
  assert (Hok0 : cons_ok d0) by (destruct Hok; by split).
  change (cd_uart (c_dev s)) with (cd_uart d0) in Hi. change INPUT_BUF_SIZE with 128 in Hi.
  assert (Hedit : exists e1 d1, edited c d0 e0 d1 e1 /\
    (if c =? Ctl 80 then at_p procdump
     else if c =? Ctl 85 then at_dev (kill_line (Z.to_nat INPUT_BUF_SIZE))
     else if (c =? Ctl 72) || (c =? 0x7f) then
       at_dev (d <- gets (fun d => d) ;;
               when negb (cons_e d =? cons_w d) do
                 (modify (set_e (u32 (cons_e d - 1))) ;;; consputc BACKSPACE))
     else at_dev (cons_input c)) e0 (put_dev d0 s) = Ok tt e1 (put_dev d1 s)).
  { apply Z.eqb_neq in Hp. rewrite Hp. destruct (Z.eqb_spec c (Ctl 85)) as [Hu|Hu].
    - destruct (kill_run c e0 d0 Hok0 Hi Hu) as (d1 & H1 & H2). exists e0, d1. split; [done|].
      by rewrite (at_dev_run _ _ _ e0 d1).
    - destruct ((c =? Ctl 72) || (c =? 0x7f)) eqn:Hc.
      + destruct (erase_run c e0 d0 Hok0) as (d1 & H1 & H2); [lia|done|done|].
        exists e0, d1. split; [done|]. by rewrite (at_dev_run _ _ _ e0 d1).
      + destruct (cons_input_run c e0 d0 Hok0) as (d1 & e1 & H1 & H2); [lia|done..|].
        exists e1, d1. split; [done|]. by rewrite (at_dev_run _ _ _ e1 d1). }
  destruct Hedit as (e1 & d1 & [A1 A2 A3 A4 A5 A6] & Hrun).
  exists (set_held (e_held e) e1), d1. split.
  - unfold consoleintr. rewrite bind_eq, acquire_eq by done. cbn [rbind].
    rewrite bind_eq, (at_dev_run _ _ _ e0 d0) by done. cbn [rbind]. rewrite bind_eq, Hrun. cbn [rbind].
    unfold release, holding. rewrite A5. rewrite bool_decide_true by apply list_elem_of_here.
    cbn [e0 set_held e_held]. by rewrite remove_lock_head.
  - split; [done|]. split; [done|]. split; [apply A3|]. done.
Qed.

(** ** consoleread()

    Reference: what a reader of at most [n] bytes is given of the complete
    lines, and what it leaves; [None] if it has to wait.  Control-D ends the
    read; it is kept for the next read unless nothing precedes it. *)
Fixpoint read_line (n : nat) (first : bool) (l : list Z) : option (list Z * list Z) :=
  match n, l with
  | O, _ => Some ([], l)
  | S _, [] => None
  | S n, c :: l' =>
      if c =? Ctl 68 then Some ([], if first then l' else l)
      else if c =? 10 then Some ([c], l')
      else match read_line n false l' with
           | Some (bs, rest) => Some (c :: bs, rest)
           | None => None
           end
  end.

Definition take_byte (d : consdev) : consdev := set_r (u32 (cons_r d + 1)) d.

Lemma take_byte_ok d c l :
  cons_ok d -> complete d = c :: l ->
  cons_r d <> cons_w d /\ cell INPUT_BUF_SIZE (cons_buf d) (cons_r d) = c /\
  cons_ok (take_byte d) /\ complete (take_byte d) = l /\ set_r (u32 (cons_r (take_byte d) - 1)) (take_byte d) = d.
Proof.
  intros [Hl Hr Hw He Hc Hn Hp] Hq. pose proof (n_ranges d) as [R1 R2].
  assert (Hpos : 0 < n_complete d).
  { apply (f_equal length) in Hq. unfold complete in Hq. rewrite length_ring in Hq. cbn in Hq. lia. }
  assert (Hcnt : n_complete (take_byte d) = n_complete d - 1).
  { unfold n_complete, take_byte in *. cbn [cons_w cons_r set_r]. unfold u32 in *. zdm. }
  unfold complete in Hq. replace (Z.to_nat (n_complete d)) with (S (Z.to_nat (n_complete d - 1))) in Hq by lia.
  rewrite ring_S in Hq. injection Hq as Hq1 Hq2.
  split; [|split; [done|split; [split; try done|split]]].
  - intros Heq. unfold n_complete in Hpos. rewrite Heq, Z.sub_diag in Hpos. by vm_compute in Hpos.
  - apply u32_range.
  - change (n_typed (take_byte d)) with (n_typed d). lia.
  - unfold complete. rewrite Hcnt, <- Hq2. cbn [take_byte cons_buf cons_r set_r]. unfold u32. by apply ring_wrap.
  - assert (Hb : u32 (cons_r (take_byte d) - 1) = cons_r d)
      by (unfold take_byte; cbn [cons_r set_r]; unfold u32; zdm).
    rewrite Hb. by destruct d.
Qed.

Section reading.
Context (T : gmap Z (nat * Z)) (e : env).

Definition cmem (s : cstate) : mem := kmem_mem (ps_kmem (c_p s)).
Definition croot (s : cstate) : Z := p_pagetable (nth_proc (e_me e) (c_p s)).

(** The reader's memory and the console after a read. *)
Definition after_read (m : mem) (d : consdev) (s : cstate) : cstate :=
  mkCstate (set_kmem (mkKmem (freelist (ps_kmem (c_p s))) m) (c_p s)) d.

Lemma after_read_id s : after_read (cmem s) (c_dev s) s = s.
Proof. by destruct s as [[? ? ? ? ? ? ? []] ?]. Qed.

Lemma either_copyout_run dst c e' s :
  e_me e' = e_me e ->
  pt_wf (cmem s) T -> T !! croot s = Some (2%nat, 0) -> user_safe (cmem s) (croot s) T -> 0 <= dst ->
  at_p (either_copyout true dst [c]) e' s =
    let r := uwrite (cmem s) (croot s) dst [c] in Ok r.1 e' (after_read r.2 (c_dev s) s).
Proof.
  intros He Hwf Hr Hs Hd. unfold at_p, zoom, either_copyout. rewrite bind_eq. kred. rewrite bind_eq. unfold getp. kred.
  rewrite He. unfold kmm, zoom. fold (croot s). rewrite (copyout_eq T) by done. by destruct s.
Qed.

Lemma consoleread_wait_run fuel e' s :
  cons_r (c_dev s) <> cons_w (c_dev s) -> consoleread_wait fuel e' s = Ok true e' s.
Proof.
  intros Hne. apply Z.eqb_neq in Hne. destruct fuel; cbn [consoleread_wait]; rewrite bind_eq; kred; by rewrite Hne.
Qed.

Lemma consoleread_loop_run k dst target e' s bs rest m' :
  e_me e' = e_me e -> cons_ok (c_dev s) ->
  pt_wf (cmem s) T -> T !! croot s = Some (2%nat, 0) -> user_safe (cmem s) (croot s) T ->
  0 <= dst -> dst + Z.of_nat k < 2 ^ 64 -> Z.of_nat k <= target ->
  read_line k (Z.of_nat k =? target) (complete (c_dev s)) = Some (bs, rest) ->
  uwrite (cmem s) (croot s) dst bs = (0, m') ->
  exists d', consoleread_loop k true dst target e' s =
      Ok (Some (Z.of_nat k - Z.of_nat (length bs))) e' (after_read m' d' s) /\
    cons_ok d' /\ complete d' = rest /\ typed d' = typed (c_dev s).
Proof.
  revert dst s bs m'. induction k as [|k IH]; intros dst s bs m' He Hok Hwf Hr Hs Hd Hb Ht Hl Hu.
  - cbn [read_line] in Hl. injection Hl as <- <-. cbn in Hu. injection Hu as <-.
    exists (c_dev s). by rewrite after_read_id.
  - remember (Z.of_nat (S k) =? target) as first eqn:Hfirst in Hl.
    cbn [read_line] in Hl. destruct (complete (c_dev s)) as [|c l] eqn:Hq; [done|].
    destruct (take_byte_ok _ _ _ Hok Hq) as (Hne & Hc & Hok' & Hq' & Hback).
    cbn [consoleread_loop]. rewrite bind_eq. kred. rewrite bind_eq, consoleread_wait_run by done. kred. cbn [negb].
    rewrite bind_eq. kred. unfold cell in Hc. rewrite Hc.
    rewrite bind_eq, (at_dev_run _ _ _ e' (take_byte (c_dev s))) by done. cbn [rbind].
    destruct (Z.eqb_spec c (Ctl 68)) as [Hcd|Hcd].
    + injection Hl as <- <-. cbn in Hu. injection Hu as <-. cbn [length]. rewrite Z.sub_0_r.
      destruct (Z.eqb_spec (Z.of_nat (S k)) target) as [Heq|Hlt]; subst first.
      * replace (Z.of_nat (S k) <? target) with false by (symmetry; apply Z.ltb_ge; lia).
        rewrite bind_eq. kred. exists (take_byte (c_dev s)). split; [|done].
        do 2 f_equal. by destruct s as [[? ? ? ? ? ? ? []] ?].
      * replace (Z.of_nat (S k) <? target) with true by (symmetry; apply Z.ltb_lt; lia).
        rewrite bind_eq, (at_dev_run _ _ _ e' (c_dev s)) by (unfold modify; cbn [c_dev put_dev]; by rewrite Hback).
        kred. exists (c_dev s). split; [|done]. do 2 f_equal. by destruct s as [[? ? ? ? ? ? ? []] ?].
    + rewrite bind_eq, either_copyout_run by done. cbn zeta. cbn [rbind].
      change (cmem (put_dev _ s)) with (cmem s). change (croot (put_dev _ s)) with (croot s).
      assert (Hhd : exists bs', bs = c :: bs' /\ (if c =? 10 then bs' = [] /\ rest = l else
                      read_line k false l = Some (bs', rest))).
      { destruct (c =? 10); [injection Hl as <- <-; by exists []|].
        destruct (read_line k false l) as [[b r]|]; [|done]. injection Hl as <- <-. by exists b. }
      destruct Hhd as (bs' & -> & Hrest). cbn [uwrite] in Hu |- *.
      destruct (uwaddr (cmem s) (croot s) dst) as [pa|] eqn:Hpa; [|done]. cbn [fst snd Z.eqb].
      destruct (c =? 10).
      * destruct Hrest as [-> ->]. cbn in Hu. injection Hu as <-.
        exists (take_byte (c_dev s)). kred. by split.
      * destruct (ustore_frame (cmem s) T (croot s) dst pa c) as (Hwf' & Hs' & _); [done..|].
        rewrite u64_small by lia.
        destruct (IH (dst + 1) (after_read (<[pa := c]> (cmem s)) (take_byte (c_dev s)) s) bs' m')
          as (d' & H1 & H2 & H3 & H4); try done; try lia.
        -- cbn [after_read c_dev]. rewrite Hq'.
           replace (Z.of_nat k =? target) with false by (symmetry; apply Z.eqb_neq; lia). done.
        -- exists d'. split; [|done]. etransitivity; [exact H1|]. f_equal. f_equal. cbn [length]. lia.
Qed.
End reading.

(** C31: consoleread() hands out at most one line.  When the complete lines
    satisfy the request ([read_line] has a result: [n] bytes, a newline, or
    Control-D), a read into writable memory returns the number of bytes
    without sleeping; exactly these bytes are stored in the caller's memory
    and removed, the line being typed is untouched, and a Control-D behind
    other bytes stays so that the next read returns 0. *)
Theorem consoleread_line T dst n e s bs rest m' :
  LkCons ∉ e_held e -> cons_ok (c_dev s) ->
  pt_wf (cmem s) T -> T !! croot e s = Some (2%nat, 0) -> user_safe (cmem s) (croot e s) T ->
  0 <= dst -> 0 <= n -> dst + n < 2 ^ 64 ->
  read_line (Z.to_nat n) true (complete (c_dev s)) = Some (bs, rest) ->
  uwrite (cmem s) (croot e s) dst bs = (0, m') ->
  exists d', consoleread true dst n e s = Ok (Z.of_nat (length bs)) e (after_read m' d' s) /\
    cons_ok d' /\ complete d' = rest /\ typed d' = typed (c_dev s).
Proof.
  intros Hlk Hok Hwf Hr Hs Hd Hn Hb Hl Hu.
  destruct (consoleread_loop_run T e (Z.to_nat n) dst n (set_held (LkCons :: e_held e) e) s bs rest m')
    as (d' & H1 & H2); try done; try lia.
  { by rewrite Z2Nat.id, Z.eqb_refl by lia. }
  exists d'. split; [|done]. unfold consoleread. rewrite bind_eq, acquire_eq by done. cbn [rbind].
  assert (Hif : (if 0 <? n then consoleread_loop (Z.to_nat n) true dst n else ret (Some n))
                  (set_held (LkCons :: e_held e) e) s =
                consoleread_loop (Z.to_nat n) true dst n (set_held (LkCons :: e_held e) e) s).
  { destruct (Z.ltb_spec 0 n); [done|]. by replace n with 0 by lia. }
  rewrite bind_eq, Hif, H1. cbn [rbind]. rewrite bind_eq, release_eq. kred. f_equal. lia.
Qed.

Definition demo_console : cstate :=
  mkCstate (mkPstate [] 1 None [] 0 SCHED_FCFS [] (mkKmem 0 ∅))
    (mkConsdev (mkUart [] 0 0 false (replicate 384 32) [] [])
       (replicate 126 0 ++ [104; 105]) (2 ^ 32 - 2) (2 ^ 32 - 2) 0 7).

Lemma demo_console_ok : cons_ok (c_dev demo_console).
Proof. split; try (by vm_compute). vm_compute. repeat constructor; discriminate. Qed.

Lemma consoleintr_refines_witness :
  exists e' d', consoleintr 13 demo_env demo_console = Ok tt e' (put_dev d' demo_console) /\
    complete d' = [104; 105; 10] /\ typed d' = [] /\ sent (cd_uart d') = [10].
Proof.
  destruct (consoleintr_refines 13 demo_env demo_console (not_elem_of_nil _) demo_console_ok ltac:(lia) ltac:(done))
    as (e' & d' & H1 & _ & H2 & H3 & _).
  - apply Nat.leb_le. by vm_compute.
  - exists e', d'. split; [exact H1|].
    assert (Hl : line_step 13 (complete (c_dev demo_console), typed (c_dev demo_console)) = (([104; 105; 10], []), [10]))
      by by vm_compute.
    rewrite Hl in H2, H3. injection H2 as -> ->. exact (conj eq_refl (conj eq_refl H3)).
Defined.

Definition demo_reader : cstate :=
  mkCstate
    (mkPstate (set_pagetable demo_root (demo_runnable 1 5) :: replicate 63 proc0) 2 None
       (replicate 8 None) 0 SCHED_FCFS [] demo_user)
    (mkConsdev (mkUart [] 0 0 false [] [] [])
       ([10; 98; 4] ++ replicate 123 0 ++ [104; 105]) (2 ^ 32 - 2) 3 3 7).

Lemma consoleread_line_witness :
  exists m' d', consoleread true 16 8 demo_env demo_reader = Ok 3 demo_env (after_read m' d' demo_reader) /\
    complete d' = [98; 4].
Proof.
  destruct (consoleread_line demo_user_tables 16 8 demo_env demo_reader [104; 105; 10] [98; 4]
    (uwrite (cmem demo_reader) (croot demo_env demo_reader) 16 [104; 105; 10]).2)
    as (d' & H1 & _ & H2 & _).
  - apply not_elem_of_nil.
  - split; by vm_compute.
  - apply demo_user_wf.
  - by vm_compute.
  - apply demo_user_safe.
  - lia.
  - lia.
  - lia.
  - by vm_compute.
  - rewrite (surjective_pairing (uwrite _ _ _ _)). f_equal; by vm_compute.
  - eexists _, d'. exact (conj H1 H2).
Defined.
