(* ===== verification/Printf.v ===== *)
(** * kernel/printf.c and user/printf.c: formatted output

    The two formatters build their digits in a buffer of 16 bytes.  The
    buffer is modelled by the room left in it: a store past its end, which C
    leaves undefined, is the result [None].  The output is the list of the
    characters given to consputc() or putc(). *)

From S2P Require Import Prelude KMonad Uart Console.
Open Scope kmonad_scope.

Definition i64 (x : Z) : Z := (x + 2 ^ 63) mod 2 ^ 64 - 2 ^ 63.

(** char buf[16] *)
Definition BUFLEN : nat := 16.

(** digits[] of the kernel and of the user library. *)
Definition digits : list Z := seqZ 48 10 ++ seqZ 97 6.
Definition udigits : list Z := seqZ 48 10 ++ seqZ 65 6.

(** do buf[i++] = digits[x % base]; while((x /= base) != 0), with [room]
    bytes of buf left; the digits come lowest first. *)
Fixpoint digit_loop (room : nat) (dg : list Z) (base x : Z) : option (list Z) :=
  match room with
  | O => None
  | S room =>
      let c := default 0 (dg !! Z.to_nat (x mod base)) in
      if x / base =? 0 then Some [c]
      else
        match digit_loop room dg base (x / base) with
        | Some l => Some (c :: l)
        | None => None
        end
  end.

(** if(neg) buf[i++] = '-' *)
Definition put_sign (neg : bool) (buf : list Z) : option (list Z) :=
  if neg then if (length buf <? BUFLEN)%nat then Some (buf ++ [45]) else None else Some buf.

(** ** The kernel *)

(** [xx] is a long long. *)
Definition printint (xx base : Z) (sign : bool) : option (list Z) :=
  let neg := sign && (xx <? 0) in
  let x := u64 (if neg then - xx else xx) in
  match digit_loop BUFLEN digits base x with
  | None => None
  | Some buf =>
      match put_sign neg buf with
      | None => None
      | Some buf => Some (rev buf)
      end
  end.

(** for(i = 0; i < 16; i++, x <<= 4), [k] iterations left. *)
Fixpoint printptr_loop (k : nat) (dg : list Z) (x : Z) : list Z :=
  match k with
  | O => []
  | S k => default 0 (dg !! Z.to_nat (Z.shiftr x 60)) :: printptr_loop k dg (u64 (Z.shiftl x 4))
  end.

Definition printptr (dg : list Z) (x : Z) : list Z := [48; 120] ++ printptr_loop 16 dg x.

(** What va_arg() finds: a 64-bit word or a string pointer. *)
Inductive arg : Set := AWord (v : Z) | AStr (s : option (list Z)).

(** "(null)" *)
Definition null_string : list Z := [40; 110; 117; 108; 108; 41].

Definition opt_app (o : option (list Z)) (r : option (list Z)) : option (list Z) :=
  match o, r with
  | Some l, Some l' => Some (l ++ l')
  | _, _ => None
  end.

(** A conversion that consumes an argument; a missing argument or one of the
    other kind is undefined. *)
Definition with_word (args : list arg) (f : Z -> option (list Z)) (k : list arg -> option (list Z)) : option (list Z) :=
  match args with
  | AWord v :: args => opt_app (f v) (k args)
  | _ => None
  end.
Definition with_string (args : list arg) (k : list arg -> option (list Z)) : option (list Z) :=
  match args with
  | AStr s :: args => opt_app (Some (default null_string s)) (k args)
  | _ => None
  end.

(** for(i = 0; (cx = fmt[i] & 0xff) != 0; i++): [fmt] is the format from
    index i on, without its NUL, and [skip] how far i has been advanced
    within the body. *)
Fixpoint printf_loop (fmt : list Z) (skip : nat) (args : list arg) : option (list Z) :=
  match fmt with
  | [] => Some []
  | cx :: rest =>
      match skip with
      | S skip => printf_loop rest skip args
      | O =>
          if negb (cx =? 37) then opt_app (Some [cx]) (printf_loop rest 0 args)
          else
            let c0 := default 0 (rest !! 0%nat) in
            let c1 := if negb (c0 =? 0) then default 0 (rest !! 1%nat) else 0 in
            let c2 := if negb (c1 =? 0) then default 0 (rest !! 2%nat) else 0 in
            let c_is d := c0 =? d in
            let isl d := (c0 =? 108) && (c1 =? d) in
            let isll d := (c0 =? 108) && (c1 =? 108) && (c2 =? d) in
            let next n args := printf_loop rest n args in
            if c_is 100 then with_word args (fun v => printint (i32 v) 10 true) (next 1%nat)
            else if isl 100 then with_word args (fun v => printint (i64 v) 10 true) (next 2%nat)
            else if isll 100 then with_word args (fun v => printint (i64 v) 10 true) (next 3%nat)
            else if c_is 117 then with_word args (fun v => printint (i32 v) 10 false) (next 1%nat)
            else if isl 117 then with_word args (fun v => printint (i64 v) 10 false) (next 2%nat)
            else if isll 117 then with_word args (fun v => printint (i64 v) 10 false) (next 3%nat)
            else if c_is 120 then with_word args (fun v => printint (i32 v) 16 false) (next 1%nat)
            else if isl 120 then with_word args (fun v => printint (i64 v) 16 false) (next 2%nat)
            else if isll 120 then with_word args (fun v => printint (i64 v) 16 false) (next 3%nat)
            else if c_is 112 then with_word args (fun v => Some (printptr digits (u64 v))) (next 1%nat)
            else if c_is 115 then with_string args (next 1%nat)
            else if c_is 37 then opt_app (Some [37]) (next 1%nat args)
            else if c_is 0 then Some []
            else opt_app (Some [37; c0]) (next 1%nat args)
      end
  end.

Fixpoint put_chars (l : list Z) : K consdev unit :=
  match l with
  | [] => ret tt
  | c :: l => consputc c ;;; put_chars l
  end.

(** printf(); [locking] is pr.locking. *)
Definition kprintf (locking : bool) (fmt : list Z) (args : list arg) : K consdev Z :=
  (when locking do acquire LkPr) ;;;
  (match printf_loop fmt 0 args with
   | Some l => put_chars l
   | None => panic "undefined: printf"
   end) ;;;
  (when locking do release LkPr) ;;;
  ret 0.

(** panic() up to the loop it ends in: pr.locking is cleared first. *)
Definition kpanic (s : list Z) : K consdev unit :=
  kprintf false [112; 97; 110; 105; 99; 58; 32] [] ;;;
  kprintf false [37; 115; 10] [AStr (Some s)] ;;;
  ret tt.

(** ** The user library *)

(** [xx] is an int and x an uint. *)
Definition uprintint (xx base : Z) (sgn : bool) : option (list Z) :=
  let neg := sgn && (xx <? 0) in
  let x := u32 (if neg then - xx else xx) in
  match digit_loop BUFLEN udigits base x with
  | None => None
  | Some buf =>
      match put_sign neg buf with
      | None => None
      | Some buf => Some (rev buf)
      end
  end.

(** for(i = 0; fmt[i]; i++) with the variable state: true when it is '%'. *)
Fixpoint vprintf_loop (fmt : list Z) (skip : nat) (state : bool) (args : list arg) : option (list Z) :=
  match fmt with
  | [] => Some []
  | c0 :: rest =>
      match skip with
      | S skip => vprintf_loop rest skip state args
      | O =>
          if negb state then
            if c0 =? 37 then vprintf_loop rest 0 true args
            else opt_app (Some [c0]) (vprintf_loop rest 0 false args)
          else
            let c1 := if negb (c0 =? 0) then default 0 (rest !! 0%nat) else 0 in
            let c2 := if negb (c1 =? 0) then default 0 (rest !! 1%nat) else 0 in
            let c_is d := c0 =? d in
            let isl d := (c0 =? 108) && (c1 =? d) in
            let isll d := (c0 =? 108) && (c1 =? 108) && (c2 =? d) in
            let next n args := vprintf_loop rest n false args in
            if c_is 100 then with_word args (fun v => uprintint (i32 v) 10 true) (next 0%nat)
            else if isl 100 then with_word args (fun v => uprintint (i32 v) 10 true) (next 1%nat)
            else if isll 100 then with_word args (fun v => uprintint (i32 v) 10 true) (next 2%nat)
            else if c_is 117 then with_word args (fun v => uprintint (i32 v) 10 false) (next 0%nat)
            else if isl 117 then with_word args (fun v => uprintint (i32 v) 10 false) (next 1%nat)
            else if isll 117 then with_word args (fun v => uprintint (i32 v) 10 false) (next 2%nat)
            else if c_is 120 then with_word args (fun v => uprintint (i32 v) 16 false) (next 0%nat)
            else if isl 120 then with_word args (fun v => uprintint (i32 v) 16 false) (next 1%nat)
            else if isll 120 then with_word args (fun v => uprintint (i32 v) 16 false) (next 2%nat)
            else if c_is 112 then with_word args (fun v => Some (printptr udigits (u64 v))) (next 0%nat)
            else if c_is 115 then with_string args (next 0%nat)
            else if c_is 37 then opt_app (Some [37]) (next 0%nat args)
            else opt_app (Some [37; c0]) (next 0%nat args)
      end
  end.

(** What fprintf() and printf() write to their descriptor, one character per
    write(). *)
Definition vprintf (fmt : list Z) (args : list arg) : option (list Z) := vprintf_loop fmt 0 false args.

(** ** Reading a number back *)

(** The value of a character among the digits. *)
Definition digit_val (dg : list Z) (c : Z) : Z := Z.of_nat (default 0%nat (fst <$> list_find (c =.) dg)).

(** The value of digits, lowest first. *)
Fixpoint digits_val (dg : list Z) (base : Z) (l : list Z) : Z :=
  match l with
  | [] => 0
  | c :: l => digit_val dg c + base * digits_val dg base l
  end.

(** The value of a printed number. *)
Definition number_val (dg : list Z) (base : Z) (out : list Z) : Z :=
  match out with
  | 45 :: out => - digits_val dg base (rev out)
  | _ => digits_val dg base (rev out)
  end.

Definition good_digits (dg : list Z) : Prop :=
  forall d, 0 <= d < 16 -> exists c, dg !! Z.to_nat d = Some c /\ digit_val dg c = d /\ c <> 45.

Lemma good_digits_check dg :
  forallb (fun d => match dg !! Z.to_nat d with
                    | Some c => (digit_val dg c =? d) && negb (c =? 45)
                    | None => false
                    end) (seqZ 0 16) = true ->
  good_digits dg.
Proof.
  rewrite forallb_forall. intros H d Hd. specialize (H d). rewrite <- list_elem_of_In in H.
  specialize (H (proj2 (elem_of_seqZ 0 16 d) ltac:(lia))). destruct (dg !! Z.to_nat d) as [c|]; [|done].
  apply andb_prop in H as [H1 H2]. exists c. split; [done|]. split; [lia|]. intros ->. done.
Qed.

Lemma digits_good : good_digits digits.
Proof. apply good_digits_check. by vm_compute. Qed.

Lemma udigits_good : good_digits udigits.
Proof. apply good_digits_check. by vm_compute. Qed.

(** [l] are the digits of [x], lowest first, and no more of them than needed. *)
Definition digits_of (dg : list Z) (base x : Z) (l : list Z) : Prop :=
  digits_val dg base l = x /\ (0 < length l)%nat /\ 45 ∉ l /\
  x < base ^ Z.of_nat (length l) /\ (length l = 1%nat \/ base ^ (Z.of_nat (length l) - 1) <= x).

Lemma digits_of_one dg base c d :
  2 <= base -> 0 <= d < base -> digit_val dg c = d -> c <> 45 -> digits_of dg base d [c].
Proof.
  intros Hb Hd Hv Hm. unfold digits_of. cbn [digits_val length]. change (Z.of_nat 1) with 1. rewrite Hv, Z.pow_1_r.
  split; [lia|]. split; [lia|]. split; [by rewrite list_elem_of_singleton|]. split; [lia|by left].
Qed.

Lemma digits_of_cons dg base c d q l :
  2 <= base -> 0 <= d < base -> 0 < q -> digit_val dg c = d -> c <> 45 ->
  digits_of dg base q l -> digits_of dg base (d + base * q) (c :: l).
Proof.
  intros Hb Hd Hq Hv Hm (I1 & I2 & I3 & I4 & I5). unfold digits_of. cbn [digits_val length].
  rewrite Hv, I1, Nat2Z.inj_succ, Z.pow_succ_r by lia. split; [lia|]. split; [lia|].
  split; [rewrite not_elem_of_cons; split; [congruence|done]|]. split; [nia|]. right.
  replace (Z.succ (Z.of_nat (length l)) - 1) with (Z.succ (Z.of_nat (length l) - 1)) by lia.
  rewrite Z.pow_succ_r by lia. destruct I5 as [I5|I5]; [|nia].
  rewrite I5. change (Z.of_nat 1 - 1) with 0. rewrite Z.pow_0_r. nia.
Qed.

(** The buffer is too short exactly when the number has more digits than its
    room. *)
Lemma digit_loop_spec room dg base x :
  good_digits dg -> 2 <= base <= 16 -> 0 <= x ->
  match digit_loop (S room) dg base x with
  | Some l => digits_of dg base x l /\ (length l <= S room)%nat
  | None => base ^ Z.of_nat (S room) <= x
  end.
Proof.
  intros Hdg Hb. revert x. induction room as [|room IH]; intros x Hx;
    pose proof (Z.div_mod x base ltac:(lia)) as Hdm; pose proof (Z.mod_pos_bound x base ltac:(lia)) as Hmb;
    assert (Hq : 0 <= x / base) by (apply Z.div_pos; lia);
    destruct (Hdg (x mod base)) as (c & Hc & Hv & Hm); [lia| |lia|].
  - cbn [digit_loop]. rewrite Hc. destruct (Z.eqb_spec (x / base) 0) as [Hz|Hz].
    + split; [|done]. replace x with (x mod base) at 1 by lia. by apply digits_of_one; try lia.
    + change (Z.of_nat 1) with 1. nia.
  - remember (S room) as r. cbn [digit_loop]. rewrite Hc. destruct (Z.eqb_spec (x / base) 0) as [Hz|Hz].
    + split; [|cbn; lia]. replace x with (x mod base) at 1 by lia. by apply digits_of_one; try lia.
    + specialize (IH (x / base) Hq). destruct (digit_loop r dg base (x / base)) as [l|].
      * destruct IH as [I1 I2]. split; [|cbn; lia]. replace x with (x mod base + base * (x / base)) at 1 by lia.
        apply digits_of_cons; try done; lia.
      * rewrite Nat2Z.inj_succ, Z.pow_succ_r by lia. nia.
Qed.

Lemma number_val_pos dg base l : 45 ∉ l -> number_val dg base (rev l) = digits_val dg base l.
Proof.
  intros Hn. unfold number_val. assert (Hr : 45 ∉ rev l) by (by rewrite list_elem_of_In, <- in_rev, <- list_elem_of_In).
  rewrite <- (rev_involutive l) at 2. destruct (rev l) as [|c r]; [done|].
  rewrite not_elem_of_cons in Hr. destruct Hr as [Hc _]. destruct c as [|p|p]; try done.
  do 7 (destruct p as [p|p|]; try done).
Qed.

Lemma number_val_neg dg base l : number_val dg base (rev (l ++ [45])) = - digits_val dg base l.
Proof. unfold number_val. rewrite rev_app_distr. cbn [rev app]. by rewrite rev_involutive. Qed.

(** The tail common to the two printint() functions. *)
Lemma print_spec dg base x neg :
  good_digits dg -> 2 <= base <= 16 -> 0 <= x ->
  match match digit_loop BUFLEN dg base x with
        | None => None
        | Some buf => match put_sign neg buf with None => None | Some buf => Some (rev buf) end
        end with
  | Some out => number_val dg base out = (if neg then - x else x) /\ (0 < length out <= BUFLEN)%nat /\
      x < base ^ (if neg then 15 else 16)
  | None => base ^ (if neg then 15 else 16) <= x
  end.
Proof.
  intros Hdg Hb Hx. pose proof (digit_loop_spec 15 dg base x Hdg Hb Hx) as H. fold BUFLEN in H.
  destruct (digit_loop BUFLEN dg base x) as [l|].
  - destruct H as ((V & P & M & U & L) & N). unfold BUFLEN in *.
    assert (Hmono : forall k, Z.of_nat (length l) <= k -> base ^ Z.of_nat (length l) <= base ^ k)
      by (intros; apply Z.pow_le_mono_r; lia).
    destruct neg; cbn [put_sign]; [unfold BUFLEN; destruct (Nat.ltb_spec (length l) 16)|].
    + rewrite number_val_neg, V, length_rev, length_app. cbn [length]. specialize (Hmono 15 ltac:(lia)). lia.
    + destruct L as [L|L]; [lia|]. replace (length l) with 16%nat in L by lia. exact L.
    + rewrite number_val_pos, V, length_rev by done. specialize (Hmono 16 ltac:(lia)). lia.
  - assert (base ^ 15 <= base ^ 16) by (apply Z.pow_le_mono_r; lia).
    change (Z.of_nat BUFLEN) with 16 in H. destruct neg; lia.
Qed.

Lemma u64_neg_fits (xx : Z) (sign : bool) :
  - 2 ^ 63 <= xx < 2 ^ 63 ->
  let x := u64 (if sign && (xx <? 0) then - xx else xx) in
  0 <= x /\ (if sign && (xx <? 0) then - x else x) = if sign then xx else u64 xx.
Proof.
  intros Hx. cbv zeta. split; [apply u64_range|]. destruct sign, (Z.ltb_spec xx 0); cbn [andb]; unfold u64 in *; zdm.
Qed.

(** C35: printint() of the kernel prints the number, or overruns its buffer.
    In every base from 2 to 16 the text that printint() writes reads back as
    the signed value, or for an unsigned conversion as the 64-bit pattern,
    and fits the 16 bytes of buf[]; and it stores past the end of buf[]
    exactly for the values whose text is longer, that is of magnitude at
    least base^16, or base^15 with a sign. *)
Theorem printint_correct xx base sign :
  - 2 ^ 63 <= xx < 2 ^ 63 -> 2 <= base <= 16 ->
  let v := if sign : bool then xx else u64 xx in
  match printint xx base sign with
  | Some out => number_val digits base out = v /\ (0 < length out <= BUFLEN)%nat /\ - base ^ 15 < v < base ^ 16
  | None => v <= - base ^ 15 \/ base ^ 16 <= v
  end.
Proof.
  intros Hx Hb v. destruct (u64_neg_fits xx sign Hx) as [H0 Hv]. unfold printint.
  set (neg := sign && (xx <? 0)) in *. set (x := u64 (if neg then - xx else xx)) in *.
  pose proof (print_spec digits base x neg digits_good Hb H0) as H. fold v in Hv.
  assert (0 < base ^ 15) by (apply Z.pow_pos_nonneg; lia). assert (0 < base ^ 16) by (apply Z.pow_pos_nonneg; lia).
  destruct (match digit_loop _ _ _ _ with None => None | _ => _ end) as [out|]; destruct neg; lia.
Qed.

Lemma printint_correct_witness :
  number_val digits 10 [45; 52; 50] = -42 /\
  (exists out, printint (-42) 10 true = Some out /\ number_val digits 10 out = -42) /\
  printint (i32 (-1)) 10 false = None.
Proof.
  split; [by vm_compute|]. split; [|by vm_compute].
  pose proof (printint_correct (-42) 10 true ltac:(lia) ltac:(lia)) as H.
  assert (E : printint (-42) 10 true = Some [45; 52; 50]) by by vm_compute.
  rewrite E in *. exists [45; 52; 50]. by destruct H.
Defined.
