(* ===== verification/Ulib.v ===== *)
(** * user/ulib.c: the C library of the user programs

    Routines that only read strings take a pointer as the bytes from there
    on; the end of the list stands for the NUL.  Routines that write work on
    the byte memory of CString.v.  What read() of a descriptor delivers is a
    list of chunks: each call returns the next chunk, or as much of it as it
    asks for, and nothing at the end. *)

From S2P Require Import Prelude CString Printf.

(** ** Strings *)

(** The characters of a literal. *)
Definition cstr (s : string) : list Z := map (fun a => Z.of_nat (Ascii.nat_of_ascii a)) (String.list_ascii_of_string s).

(** *p *)
Definition deref (p : list Z) : Z := default 0 (head p).

(** while( *p && *p == *q) p++, q++; *)
Fixpoint strcmp (p q : list Z) : Z :=
  match p with
  | [] => u8 0 - u8 (deref q)
  | a :: p' =>
      if negb (a =? 0) && (a =? deref q) then strcmp p' (tail q)
      else u8 a - u8 (deref q)
  end.

Fixpoint ustrlen (s : list Z) : Z :=
  match s with
  | [] => 0
  | a :: s => if a =? 0 then 0 else 1 + ustrlen s
  end.

Fixpoint strchr (s : list Z) (c : Z) : option (list Z) :=
  match s with
  | [] => None
  | a :: s' => if a =? 0 then None else if a =? c then Some s else strchr s' c
  end.

(** while('0' <= *s && *s <= '9') n = n*10 + *s++ - '0'; [None] is the
    overflow of the int n. *)
Fixpoint atoi_loop (s : list Z) (n : Z) : option Z :=
  match s with
  | [] => Some n
  | c :: s =>
      if (48 <=? c) && (c <=? 57) then
        if n * 10 + c <? 2 ^ 31 then atoi_loop s (n * 10 + c - 48) else None
      else Some n
  end.

Definition atoi (s : list Z) : option Z := atoi_loop s 0.

(** ** Memory *)

(** while(( *s++ = *t++ ) != 0); [None] when no NUL is met within the fuel. *)
Fixpoint strcpy (fuel : nat) (m : mem) (s t : Z) : option mem :=
  match fuel with
  | O => None
  | S fuel =>
      let m' := <[s := mget m t]> m in
      if mget m t =? 0 then Some m' else strcpy fuel m' (s + 1) (t + 1)
  end.

Fixpoint umemset_loop (m : mem) (cdst c i : Z) (k : nat) : mem :=
  match k with
  | O => m
  | S k => umemset_loop (<[cdst + i := u8 c]> m) cdst c (i + 1) k
  end.

Definition umemset (m : mem) (dst c n : Z) : mem := umemset_loop m dst c 0 (Z.to_nat n).

Definition umemmove (m : mem) (vdst vsrc n : Z) : mem :=
  if vdst <? vsrc then copy_up m vdst vsrc (Z.to_nat n)
  else copy_down m (vdst + n) (vsrc + n) (Z.to_nat n).

Fixpoint umemcmp_loop (m : mem) (p1 p2 : Z) (k : nat) : Z :=
  match k with
  | O => 0
  | S k =>
      if negb (mget m p1 =? mget m p2) then mget m p1 - mget m p2
      else umemcmp_loop m (p1 + 1) (p2 + 1) k
  end.

Definition umemcmp (m : mem) (s1 s2 n : Z) : Z := umemcmp_loop m s1 s2 (Z.to_nat n).

Definition umemcpy (m : mem) (dst src n : Z) : mem := umemmove m dst src n.

(** ** Input *)

Definition input : Set := list (list Z).

(** read(fd, buf, n): the bytes read and what is left. *)
Definition uread (n : nat) (i : input) : list Z * input :=
  match i with
  | [] => ([], [])
  | c :: i => if (length c <=? n)%nat then (c, i) else (take n c, drop n c :: i)
  end.

(** for(i=0; i+1 < max; ), [k] bytes of room left before the NUL. *)
Fixpoint gets_loop (k : nat) (i : input) : list Z * input :=
  match k with
  | O => ([], i)
  | S k =>
      let r := uread 1 i in
      match r.1 with
      | [] => ([], r.2)
      | c :: _ =>
          if (c =? 10) || (c =? 13) then ([c], r.2)
          else let l := gets_loop k r.2 in (c :: l.1, l.2)
      end
  end.

(** The string left in buf, without its NUL. *)
Definition gets (max : Z) (i : input) : list Z * input := gets_loop (Z.to_nat (max - 1)) i.

(** ** Facts *)

Lemma strcmp_eq p q :
  Forall (fun b => 0 <= b < 256) p -> Forall (fun b => 0 <= b < 256) q ->
  strcmp p q = 0 <-> until_nul p = until_nul q.
Proof.
  intros Hp. revert q. induction Hp as [|a p Ha Hp IH]; intros q Hq; cbn [strcmp until_nul].
  - destruct Hq as [|b q Hb Hq]; cbn [deref head default from_option id until_nul]; [done|].
    rewrite !u8_small by lia. destruct (Z.eqb_spec b 0); split; intros; try done; lia.
  - destruct Hq as [|b q Hb Hq]; cbn [deref head default from_option id until_nul tail].
    + rewrite !u8_small by lia. destruct (Z.eqb_spec a 0) as [->|Ha0]; cbn [negb andb]; [done|].
      split; intros; [lia|done].
    + rewrite !u8_small by lia.
      destruct (Z.eqb_spec a 0), (Z.eqb_spec b 0), (Z.eqb_spec a b); cbn [negb andb];
        try (rewrite IH by done); split; intros; simplify_eq; try done; try lia; congruence.
Qed.

(** memmove() of the user library is correct for every overlap, like the one
    of the kernel. *)
Lemma umemmove_mwrite m dst src n :
  0 <= n -> umemmove m dst src n = mwrite m dst (mread m src (Z.to_nat n)).
Proof.
  intros Hn. apply map_eq. intros x. rewrite lookup_mwrite, length_mread. unfold umemmove.
  destruct (Z.ltb_spec dst src); rewrite ?lookup_copy_up, ?lookup_copy_down by lia;
    repeat case_decide; try lia; try done; rewrite mread_lookup by lia; do 2 f_equal; lia.
Qed.

Lemma uread_concat n i :
  (0 < n)%nat -> concat i = (uread n i).1 ++ concat (uread n i).2 /\ (length (uread n i).1 <= n)%nat.
Proof.
  intros Hn. destruct i as [|c i]; [cbn; split; [done|lia]|]. cbn [uread].
  destruct (Nat.leb_spec (length c) n); cbn [fst snd concat].
  - done.
  - rewrite app_assoc, take_drop, length_take. split; [done|lia].
Qed.

(** No read() returns 0 before the end. *)
Definition steady (i : input) : Prop := Forall (fun c => c <> []) i.

Lemma uread_steady n i :
  (0 < n)%nat -> steady i -> steady (uread n i).2 /\ ((uread n i).1 = [] -> concat i = []).
Proof.
  intros Hn Hi. destruct Hi as [|c i Hc Hi]; [split; [constructor|done]|]. cbn [uread].
  destruct (Nat.leb_spec (length c) n) as [|Hlt]; cbn [fst snd].
  - split; [done|]. intros ->. done.
  - split.
    + constructor; [|done]. intros He. apply (f_equal length) in He. rewrite length_drop in He. cbn in He. lia.
    + intros He. apply (f_equal length) in He. rewrite length_take in He. cbn in He. lia.
Qed.

(** ** Numbers printed and read *)

Lemma atoi_loop_app l r n :
  Forall (fun c => 48 <= c <= 57) l ->
  atoi_loop (l ++ r) n = match atoi_loop l n with Some n' => atoi_loop r n' | None => None end.
Proof.
  intros Hl. revert n. induction Hl as [|c l Hc Hl IH]; intros n; [done|]. cbn [app atoi_loop].
  replace ((48 <=? c) && (c <=? 57)) with true by lia. destruct (_ <? _); [apply IH|done].
Qed.

Lemma udigits_decimal d : 0 <= d < 10 -> udigits !! Z.to_nat d = Some (48 + d).
Proof. intros Hd. unfold udigits. rewrite lookup_app_l by (rewrite length_seqZ; lia). rewrite lookup_seqZ_lt; f_equal; lia. Qed.

Lemma digit_loop_atoi room x l :
  digit_loop room udigits 10 x = Some l -> 0 <= x -> x + 48 < 2 ^ 31 ->
  Forall (fun c => 48 <= c <= 57) (rev l) /\ atoi_loop (rev l) 0 = Some x.
Proof.
  revert x l. induction room as [|room IH]; intros x l Hl Hx Hb; [done|]. cbn [digit_loop] in Hl.
  pose proof (Z.mod_pos_bound x 10 ltac:(lia)) as Hm. pose proof (Z.div_mod x 10 ltac:(lia)) as Hdm.
  rewrite udigits_decimal in Hl by done. cbn [default from_option id] in Hl.
  assert (Hc : 48 <= 48 + x mod 10 <= 57) by lia.
  assert (Hlast : forall q, q * 10 + x mod 10 = x -> atoi_loop [48 + x mod 10] q = Some x).
  { intros q Hq. cbn [atoi_loop]. replace ((48 <=? 48 + x mod 10) && (48 + x mod 10 <=? 57)) with true by lia.
    destruct (Z.ltb_spec (q * 10 + (48 + x mod 10)) (2 ^ 31)); [f_equal|]; lia. }
  destruct (Z.eqb_spec (x / 10) 0) as [Hz|Hz].
  - injection Hl as <-. cbn [rev app]. split; [by apply Forall_singleton|]. apply Hlast. lia.
  - destruct (digit_loop room udigits 10 (x / 10)) as [l'|] eqn:El; [|done]. injection Hl as <-.
    destruct (IH (x / 10) l' El) as [I1 I2]; [lia..|]. cbn [rev]. split; [apply Forall_app; split; [done|by apply Forall_singleton]|].
    rewrite atoi_loop_app, I2 by done. apply Hlast. lia.
Qed.

(** What the user library prints it reads back.  printf("%d") of any int
    stays inside its buffer and prints the number's value, and for every
    number from 0 to INT_MAX - 48 atoi() of the text is the number, without
    overflow on the way. *)
Theorem uprintint_atoi xx :
  - 2 ^ 31 <= xx < 2 ^ 31 ->
  exists out, uprintint xx 10 true = Some out /\ number_val udigits 10 out = xx /\
    vprintf [37; 100] [AWord xx] = Some out /\ (0 <= xx < 2 ^ 31 - 48 -> atoi out = Some xx).
Proof.
  intros Hx. assert (Hv : vprintf [37; 100] [AWord xx] = uprintint xx 10 true).
  { change (vprintf [37; 100] [AWord xx]) with (opt_app (uprintint (i32 xx) 10 true) (Some [])).
    rewrite i32_small by done. unfold opt_app. destruct (uprintint xx 10 true); [by rewrite app_nil_r|done]. }
  rewrite Hv. unfold uprintint. cbn [andb]. set (x := u32 (if xx <? 0 then - xx else xx)).
  assert (Hx' : 0 <= x < 2 ^ 32 /\ (if xx <? 0 then - x else x) = xx).
  { unfold x. rewrite u32_small; destruct (Z.ltb_spec xx 0); lia. }
  pose proof (print_spec udigits 10 x (xx <? 0) udigits_good ltac:(lia) ltac:(lia)) as H.
  destruct (digit_loop BUFLEN udigits 10 x) as [l|] eqn:El; [|destruct (xx <? 0); lia].
  destruct (put_sign (xx <? 0) l) as [buf|] eqn:Es; [|destruct (xx <? 0); lia].
  exists (rev buf). split; [done|]. split; [lia|]. split; [done|]. intros Hpos.
  destruct (Z.ltb_spec xx 0); [lia|]. injection Es as <-. unfold atoi.
  rewrite (proj2 (digit_loop_atoi BUFLEN x l El ltac:(lia) ltac:(lia))). f_equal. lia.
Qed.
