(* ===== verification/Grep.v ===== *)
(** * user/grep.c: the pattern matcher and the filter

    A C string is the list of its characters before the NUL, and a pointer
    into it the rest of the list. *)

From S2P Require Import Prelude CString Printf Ulib.

(** ** The matcher *)

(** matchstar(c, re, text), where [here] is matchhere(re, .). *)
Fixpoint matchstar (here : list Z -> bool) (c : Z) (text : list Z) : bool :=
  if here text then true
  else
    match text with
    | [] => false
    | t :: text => if (t =? c) || (c =? 46) then matchstar here c text else false
    end.

Fixpoint matchhere (re text : list Z) : bool :=
  match re with
  | [] => true
  | re0 :: re1 =>
      match re1 with
      | 42 :: re2 => matchstar (matchhere re2) re0 text
      | _ =>
          if (re0 =? 36) && (if re1 is [] then true else false) then (if text is [] then true else false)
          else
            match text with
            | t :: text => if (re0 =? 46) || (re0 =? t) then matchhere re1 text else false
            | [] => false
            end
      end
  end.

(** do { if(matchhere(re, text)) return 1; } while( *text++ != 0 ) *)
Fixpoint match_loop (re text : list Z) : bool :=
  if matchhere re text then true
  else
    match text with
    | [] => false
    | _ :: text => match_loop re text
    end.

Definition re_match (re text : list Z) : bool :=
  match re with
  | 94 :: re1 => matchhere re1 text
  | _ => match_loop re text
  end.

(** ** The filter *)

(** sizeof(buf) *)
Definition BUFSIZE : nat := 1024.

(** while((q = strchr(p, '\n')) != 0): the output and the final p.  A step
    consumes the line found, so the length of the text bounds the loop. *)
Fixpoint grep_lines (fuel : nat) (pattern p : list Z) : option (list Z * list Z) :=
  match strchr p 10 with
  | None => Some ([], p)
  | Some q =>
      match fuel with
      | O => None
      | S fuel =>
          let line := take (length p - length q) p in
          match grep_lines fuel pattern (tail q) with
          | Some (out, rest) => Some ((if re_match pattern line then line ++ [10] else []) ++ out, rest)
          | None => None
          end
      end
  end.

(** while((n = read(fd, buf+m, sizeof(buf)-m-1)) > 0): [pend] are the m bytes
    kept from the last round. *)
Fixpoint grep_loop (fuel : nat) (pattern pend : list Z) (fd : input) : option (list Z) :=
  let r := uread (BUFSIZE - length pend - 1) fd in
  match r.1 with
  | [] => Some []
  | _ =>
      match fuel with
      | O => None
      | S fuel =>
          let buf := pend ++ r.1 in
          match grep_lines (length buf) pattern buf with
          | None => None
          | Some (out, rest) =>
              match grep_loop fuel pattern rest r.2 with
              | None => None
              | Some out' => Some (out ++ out')
              end
          end
      end
  end.

(** What grep(pattern, fd) writes to its standard output; every read() but
    the last takes a byte. *)
Definition grep (pattern : list Z) (fd : input) : option (list Z) := grep_loop (length (concat fd)) pattern [] fd.

(** "grep: cannot open %s\n" *)
Definition cannot_open (name : list Z) : list Z := cstr "grep: cannot open " ++ name ++ [10].

Section main.
(** open(name, O_RDONLY): what can be read, or failure. *)
Variable open : list Z -> option input.

(** for(i = 2; i < argc; i++): the standard output and the exit status. *)
Fixpoint grep_files (pattern : list Z) (files : list (list Z)) : option (list Z * Z) :=
  match files with
  | [] => Some ([], 0)
  | f :: files =>
      match open f with
      | None => Some (cannot_open f, 1)
      | Some fd =>
          match grep pattern fd, grep_files pattern files with
          | Some out, Some (out', st) => Some (out ++ out', st)
          | _, _ => None
          end
      end
  end.

(** argv[1], argv[2], ...; the usage message goes to the standard error. *)
Definition grep_main (args : list (list Z)) (stdin : input) : option (list Z * Z) :=
  match args with
  | [] => Some ([], 1)
  | [pattern] => match grep pattern stdin with Some out => Some (out, 0) | None => None end
  | pattern :: files => grep_files pattern files
  end.
End main.

(** ** Reference: the language of a pattern *)

Inductive atom : Set := One (c : Z) | Star (c : Z).

(** The atoms of a pattern without its ^, and whether it ends in $. *)
Fixpoint parse (re : list Z) : list atom * bool :=
  match re with
  | [] => ([], false)
  | c :: re1 =>
      match re1 with
      | 42 :: re2 => let r := parse re2 in (Star c :: r.1, r.2)
      | _ => if (c =? 36) && (if re1 is [] then true else false) then ([], true)
             else let r := parse re1 in (One c :: r.1, r.2)
      end
  end.

(** . stands for any character. *)
Definition accepts (c t : Z) : Prop := c = 46 \/ c = t.

Inductive lang : list atom -> list Z -> Prop :=
| lang_nil : lang [] []
| lang_one c t l s : accepts c t -> lang l s -> lang (One c :: l) (t :: s)
| lang_star c ts l s : Forall (accepts c) ts -> lang l s -> lang (Star c :: l) (ts ++ s).

(** A text that the parsed pattern matches at its beginning. *)
Definition begins (r : list atom * bool) (text : list Z) : Prop :=
  exists mid post, text = mid ++ post /\ lang r.1 mid /\ (r.2 = true -> post = []).

(** ** The matcher decides the language *)

Lemma matchstar_spec here c text :
  matchstar here c text = true <->
  exists ts rest, text = ts ++ rest /\ Forall (accepts c) ts /\ here rest = true.
Proof.
  induction text as [|t text IH]; cbn [matchstar]; destruct (here _) eqn:Hh.
  - split; [|done]. intros _. exists [], []. by repeat constructor.
  - split; [done|]. intros (ts & rest & He & _ & Hr). symmetry in He. apply app_eq_nil in He as [-> ->]. congruence.
  - split; [|done]. intros _. exists [], (t :: text). by repeat constructor.
  - assert (Hc : (t =? c) || (c =? 46) = true <-> accepts c t) by (unfold accepts; rewrite orb_true_iff, !Z.eqb_eq; intuition).
    destruct ((t =? c) || (c =? 46)).
    + rewrite IH. split.
      * intros (ts & rest & -> & HF & Hr). exists (t :: ts), rest. split; [done|]. split; [|done]. constructor; [by apply Hc|done].
      * intros ([|t' ts] & rest & He & HF & Hr); [cbn in He; congruence|]. injection He as <- ->. apply Forall_cons in HF as [_ HF].
        by exists ts, rest.
    + split; [done|]. intros ([|t' ts] & rest & He & HF & Hr); [cbn in He; congruence|]. injection He as <- ->.
      apply Forall_cons in HF as [Ha _]. by apply Hc in Ha.
Qed.

(** The three shapes of a pattern that is not empty. *)
Definition is_star (re1 : list Z) : bool := if re1 is d :: _ then d =? 42 else false.
Definition is_end (c : Z) (re1 : list Z) : bool := (c =? 36) && (if re1 is [] then true else false).

Lemma star_cases {A} (re1 : list Z) (f : list Z -> A) (d : A) :
  match re1 with 42 :: re2 => f re2 | _ => d end = if is_star re1 then f (tail re1) else d.
Proof.
  destruct re1 as [|x re2]; [done|]. cbn [is_star tail]. destruct (Z.eqb_spec x 42) as [->|Hx]; [done|].
  destruct x as [|p|p]; try done. do 7 (destruct p as [p|p|]; try done).
Qed.

Lemma matchhere_cons c re1 text :
  matchhere (c :: re1) text =
  if is_star re1 then matchstar (matchhere (tail re1)) c text
  else if is_end c re1 then (if text is [] then true else false)
  else match text with
       | t :: text => if (c =? 46) || (c =? t) then matchhere re1 text else false
       | [] => false
       end.
Proof. cbn [matchhere]. exact (star_cases re1 (fun re2 => matchstar (matchhere re2) c text) _). Qed.

Lemma parse_cons c re1 :
  parse (c :: re1) =
  if is_star re1 then (Star c :: (parse (tail re1)).1, (parse (tail re1)).2)
  else if is_end c re1 then ([], true)
  else (One c :: (parse re1).1, (parse re1).2).
Proof. cbn [parse]. exact (star_cases re1 (fun re2 => (Star c :: (parse re2).1, (parse re2).2)) _). Qed.

Lemma begins_star c r text :
  begins (Star c :: r.1, r.2) text <->
  exists ts rest, text = ts ++ rest /\ Forall (accepts c) ts /\ begins r rest.
Proof.
  unfold begins. cbn [fst snd]. split.
  - intros (mid & post & -> & Hl & Hp). inversion Hl as [| |c' ts l s HF Hl']; subst.
    exists ts, (s ++ post). split; [by rewrite app_assoc|]. split; [done|]. by exists s, post.
  - intros (ts & rest & -> & HF & mid & post & -> & Hl & Hp). exists (ts ++ mid), post.
    split; [by rewrite app_assoc|]. split; [by constructor|done].
Qed.

Lemma begins_one c r text :
  begins (One c :: r.1, r.2) text <-> exists t rest, text = t :: rest /\ accepts c t /\ begins r rest.
Proof.
  unfold begins. cbn [fst snd]. split.
  - intros (mid & post & -> & Hl & Hp). inversion Hl as [|c' t l s Ha Hl'|]; subst.
    exists t, (s ++ post). split; [done|]. split; [done|]. by exists s, post.
  - intros (t & rest & -> & Ha & mid & post & -> & Hl & Hp). exists (t :: mid), post.
    split; [done|]. split; [by constructor|done].
Qed.

Lemma begins_end text : begins ([], true) text <-> text = [].
Proof.
  unfold begins. cbn [fst snd]. split.
  - intros (mid & post & -> & Hl & Hp). inversion Hl. by rewrite Hp.
  - intros ->. exists [], []. split; [done|]. by split; [constructor|].
Qed.

Lemma begins_nil text : begins ([], false) text.
Proof. exists [], text. split; [done|]. by split; [constructor|]. Qed.

Lemma matchhere_spec re text : matchhere re text = true <-> begins (parse re) text.
Proof.
  remember (length re) as n eqn:Hn. revert re text Hn.
  induction n as [n IH] using lt_wf_ind. intros [|c re1] text ->; [split; [intros _; apply begins_nil|done]|].
  rewrite matchhere_cons, parse_cons. destruct (is_star re1) eqn:Es; [|destruct (is_end c re1)].
  - destruct re1 as [|d re2]; [done|]. cbn [tail]. rewrite matchstar_spec, begins_star.
    assert (Hh : forall r, matchhere re2 r = true <-> begins (parse re2) r) by (intros; eapply IH; [|done]; cbn; lia).
    by setoid_rewrite Hh.
  - rewrite begins_end. by destruct text.
  - rewrite begins_one. destruct text as [|t text]; [split; [done|intros (? & ? & ? & _); done]|].
    assert (Hc : (c =? 46) || (c =? t) = true <-> accepts c t) by (unfold accepts; rewrite orb_true_iff, !Z.eqb_eq; done).
    destruct ((c =? 46) || (c =? t)).
    + rewrite (IH (length re1)) by (cbn; lia || done). split; [intros H; exists t, text; by rewrite <- Hc|].
      intros (t' & rest & He & _ & H). by injection He as <- <-.
    + split; [done|]. intros (t' & rest & He & Ha & _). injection He as <- <-. by apply Hc in Ha.
Qed.

Lemma match_loop_spec re text :
  match_loop re text = true <-> exists pre rest, text = pre ++ rest /\ begins (parse re) rest.
Proof.
  induction text as [|t text IH]; cbn [match_loop]; destruct (matchhere re _) eqn:Hh.
  - split; [|done]. intros _. exists [], []. split; [done|]. by apply matchhere_spec.
  - split; [done|]. intros (pre & rest & He & Hb). symmetry in He. apply app_eq_nil in He as [-> ->].
    apply matchhere_spec in Hb. congruence.
  - split; [|done]. intros _. exists [], (t :: text). split; [done|]. by apply matchhere_spec.
  - rewrite IH. split.
    + intros (pre & rest & -> & Hb). by exists (t :: pre), rest.
    + intros ([|t' pre] & rest & He & Hb); [apply matchhere_spec in Hb; cbn in He; congruence|].
      injection He as <- ->. by exists pre, rest.
Qed.

(** C32: grep's matcher decides the language of its patterns.  For every
    pattern and text, match() is true exactly when some part of the text is
    in the language of the pattern's atoms, a part at the beginning of the
    text if the pattern begins with ^, at its end if it ends in $: a
    character stands for itself, . for any character and c* for any number
    of the characters c stands for. *)
Theorem match_correct re text :
  re_match re text = true <->
  exists anchored atoms dollar,
    (if anchored : bool then re = 94 :: tail re /\ parse (tail re) = (atoms, dollar)
     else head re <> Some 94 /\ parse re = (atoms, dollar)) /\
    exists pre mid post, text = pre ++ mid ++ post /\ lang atoms mid /\
      (anchored = true -> pre = []) /\ (dollar = true -> post = []).
Proof.
  assert (Hm : re_match re text = if decide (head re = Some 94) then matchhere (tail re) text else match_loop re text).
  { destruct re as [|c re1]; [done|]. cbn [head tail]. destruct (decide (Some c = Some 94)) as [[= ->]|Hc]; [done|].
    cbn [re_match]. destruct c as [|p|p]; try done. do 7 (destruct p as [p|p|]; try done). }
  rewrite Hm. destruct (decide (head re = Some 94)) as [Hh|Hh].
  - rewrite matchhere_spec. assert (Hre : re = 94 :: tail re) by (destruct re; simplify_eq/=; done). split.
    + intros (mid & post & -> & Hl & Hp). exists true, (parse (tail re)).1, (parse (tail re)).2.
      split; [split; [done|by destruct (parse (tail re))]|]. by exists [], mid, post.
    + intros ([] & atoms & dollar & [Ha Hpar] & pre & mid & post & -> & Hl & Hp & Hd); [|done].
      rewrite Hp by done. exists mid, post. by rewrite Hpar.
  - rewrite match_loop_spec. split.
    + intros (pre & rest & -> & mid & post & -> & Hl & Hp). exists false, (parse re).1, (parse re).2.
      split; [split; [done|by destruct (parse re)]|]. by exists pre, mid, post.
    + intros ([] & atoms & dollar & [Ha Hpar] & pre & mid & post & -> & Hl & Hp & Hd); [by rewrite Ha in Hh|].
      exists pre, (mid ++ post). split; [done|]. exists mid, post. by rewrite Hpar.
Qed.

(** ** The filter works line by line *)

(** The complete lines of a text, without their newlines, and what follows
    the last one. *)
Fixpoint split_lines (l : list Z) : list (list Z) * list Z :=
  match l with
  | [] => ([], [])
  | c :: l =>
      let r := split_lines l in
      if c =? 10 then ([] :: r.1, r.2)
      else match r.1 with
           | [] => ([], c :: r.2)
           | x :: xs => ((c :: x) :: xs, r.2)
           end
  end.

Definition selected (pattern : list Z) (ls : list (list Z)) : list Z :=
  concat (map (fun line => if re_match pattern line then line ++ [10] else []) ls).

Lemma split_no_newline p : 10 ∉ p -> split_lines p = ([], p).
Proof.
  induction p as [|c p IH]; [done|]. rewrite not_elem_of_cons. intros [Hc Hp]. cbn [split_lines].
  rewrite IH by done. destruct (Z.eqb_spec c 10); [congruence|done].
Qed.

Lemma split_line line q : 10 ∉ line -> split_lines (line ++ 10 :: q) = (line :: (split_lines q).1, (split_lines q).2).
Proof.
  induction line as [|c p IH]; [done|]. rewrite not_elem_of_cons. intros [Hc Hp]. cbn [app split_lines].
  rewrite IH by done. destruct (Z.eqb_spec c 10); [congruence|done].
Qed.

Lemma split_rest l : 10 ∉ (split_lines l).2.
Proof.
  induction l as [|c l IH]; [apply not_elem_of_nil|]. cbn [split_lines]. destruct (Z.eqb_spec c 10); [done|].
  destruct (split_lines l) as [[|x xs] r]; cbn [fst snd] in *; [rewrite not_elem_of_cons; split; [congruence|done]|done].
Qed.

Lemma split_rest_in x l : x ∉ l -> x ∉ (split_lines l).2.
Proof.
  induction l as [|c l IH]; [done|]. rewrite not_elem_of_cons. intros [Hc Hl]. specialize (IH Hl). cbn [split_lines].
  destruct (c =? 10); [done|]. destruct (split_lines l) as [[|y ys] r]; cbn [fst snd] in *; [by rewrite not_elem_of_cons|done].
Qed.

(** Splitting goes on from the rest of the first part. *)
Lemma split_app a b :
  split_lines (a ++ b) =
  ((split_lines a).1 ++ (split_lines ((split_lines a).2 ++ b)).1, (split_lines ((split_lines a).2 ++ b)).2).
Proof.
  induction a as [|c a IH]; [cbn [app split_lines fst snd]; by destruct (split_lines b)|].
  cbn [app split_lines]. rewrite IH. destruct (Z.eqb_spec c 10); [done|].
  destruct (split_lines a) as [[|x xs] r]; cbn [fst snd app]; [|done].
  cbn [split_lines]. destruct (Z.eqb_spec c 10); [done|]. by destruct (split_lines (r ++ b)) as [[|y ys] r'].
Qed.

Lemma strchr_newline p :
  0 ∉ p ->
  match strchr p 10 with
  | None => 10 ∉ p
  | Some q => exists line, p = line ++ q /\ q = 10 :: tail q /\ 10 ∉ line
  end.
Proof.
  induction p as [|c p IH]; [intros _; apply not_elem_of_nil|]. rewrite not_elem_of_cons. intros [Hc Hp].
  cbn [strchr]. destruct (Z.eqb_spec c 0); [congruence|]. destruct (Z.eqb_spec c 10) as [->|Hn].
  - exists []. split; [done|]. split; [done|apply not_elem_of_nil].
  - specialize (IH Hp). destruct (strchr p 10) as [q|].
    + destruct IH as (line & -> & Hq & Hl). exists (c :: line). split; [done|]. split; [done|].
      rewrite not_elem_of_cons. split; [congruence|done].
    + rewrite not_elem_of_cons. split; [congruence|done].
Qed.

Lemma grep_lines_run fuel pattern p :
  0 ∉ p -> (length p <= fuel)%nat ->
  grep_lines fuel pattern p = Some (selected pattern (split_lines p).1, (split_lines p).2).
Proof.
  revert p. induction fuel as [|fuel IH]; intros p Hp Hf; cbn [grep_lines];
    pose proof (strchr_newline p Hp) as Hs; destruct (strchr p 10) as [q|];
    try (rewrite split_no_newline by done; done).
  - destruct Hs as (line & -> & Hq & _). rewrite Hq in Hf. rewrite length_app in Hf. cbn in Hf. lia.
  - destruct Hs as (line & -> & Hq & Hl). rewrite length_app, Nat.add_sub, take_app_length.
    rewrite not_elem_of_app in Hp. rewrite Hq in Hp. rewrite not_elem_of_cons in Hp. destruct Hp as (_ & _ & Hp).
    rewrite IH; [|done|rewrite Hq, length_app in Hf; cbn in Hf; lia].
    rewrite Hq, split_line by done. done.
Qed.

(** Every line, the last one too, leaves room in the buffer. *)
Definition short (l : list Z) : Prop :=
  Forall (fun x => (length x < BUFSIZE - 1)%nat) ((split_lines l).1 ++ [(split_lines l).2]).

Lemma short_prefix r b : 10 ∉ r -> short (r ++ b) -> (length r < BUFSIZE - 1)%nat.
Proof.
  intros Hr. unfold short.
  assert (Hp : forall b, exists x, head ((split_lines (r ++ b)).1 ++ [(split_lines (r ++ b)).2]) = Some (r ++ x)).
  { clear b. intros b. induction r as [|c r IH].
    - cbn [app]. destruct (split_lines b) as [[|x xs] y]; cbn; eauto.
    - rewrite not_elem_of_cons in Hr. destruct Hr as [Hc Hr]. destruct (IH Hr) as [x Hx]. exists x. cbn [app split_lines].
      destruct (Z.eqb_spec c 10); [congruence|]. destruct (split_lines (r ++ b)) as [[|z zs] y]; cbn in *; congruence. }
  destruct (Hp b) as [x Hx]. destruct (_ ++ [_]) as [|h t]; [done|]. injection Hx as ->.
  intros [Hl _]%Forall_cons. rewrite length_app in Hl. lia.
Qed.

Lemma short_rest a b : short (a ++ b) -> short ((split_lines a).2 ++ b).
Proof. unfold short. rewrite (split_app a b). cbn [fst snd]. rewrite <- app_assoc, Forall_app. by intros [_ ?]. Qed.

Lemma grep_loop_run fuel pattern pend fd :
  10 ∉ pend -> 0 ∉ pend ++ concat fd -> steady fd -> short (pend ++ concat fd) -> (length (concat fd) <= fuel)%nat ->
  grep_loop fuel pattern pend fd = Some (selected pattern (split_lines (pend ++ concat fd)).1).
Proof.
  revert pend fd. induction fuel as [|fuel IH]; intros pend fd Hn Hz Hst Hsh Hf; cbn [grep_loop];
    pose proof (short_prefix _ _ Hn Hsh) as Hp; unfold BUFSIZE in Hp;
    destruct (uread_concat (BUFSIZE - length pend - 1) fd) as [Hc _]; try (unfold BUFSIZE; lia);
    destruct (uread_steady (BUFSIZE - length pend - 1) fd) as [Hs' He]; try done; try (unfold BUFSIZE; lia);
    destruct (uread (BUFSIZE - length pend - 1) fd) as [r fd']; cbn [fst snd] in *;
    (destruct r as [|c r]; [rewrite He, app_nil_r by done; by rewrite split_no_newline|]).
  - rewrite Hc in Hf. cbn in Hf. lia.
  - set (d := c :: r) in *. rewrite Hc, app_assoc in Hz, Hsh. rewrite not_elem_of_app in Hz. destruct Hz as [Hz1 Hz2].
    rewrite grep_lines_run by done. rewrite IH.
    + rewrite Hc, app_assoc, (split_app (pend ++ d)). cbn [fst]. unfold selected. by rewrite map_app, concat_app.
    + apply split_rest.
    + rewrite not_elem_of_app. split; [|done]. by apply split_rest_in.
    + done.
    + by apply short_rest.
    + rewrite Hc in Hf. cbn in Hf. rewrite length_app in Hf. lia.
Qed.

(** C33: grep() is a line filter, however its input arrives.  For input
    without NULs whose lines leave room in the 1024-byte buffer, and for
    every way in which read() may cut it into pieces, grep() ends and writes
    exactly the complete lines that match, in order, each with its newline;
    a last line without a newline is not looked at. *)
Theorem grep_correct pattern fd :
  steady fd -> 0 ∉ concat fd -> short (concat fd) ->
  grep pattern fd = Some (selected pattern (split_lines (concat fd)).1).
Proof. intros. apply grep_loop_run; try done. apply not_elem_of_nil. Qed.

(** "ab\nxb\nb" in pieces that do not end at the lines, filtered by "^.b". *)
Lemma grep_correct_witness :
  grep [94; 46; 98] [[97; 98; 10; 120]; [98]; [10; 98]] = Some [97; 98; 10; 120; 98; 10].
Proof.
  rewrite (grep_correct [94; 46; 98] [[97; 98; 10; 120]; [98]; [10; 98]]).
  - by vm_compute.
  - by repeat constructor.
  - cbn. rewrite !not_elem_of_cons. repeat split; try done. apply not_elem_of_nil.
  - unfold short. apply Forall_forall. intros x Hx. apply (bool_decide_unpack (length x < _)%nat).
    repeat (apply elem_of_cons in Hx as [->|Hx]; [by vm_compute|]). by apply not_elem_of_nil in Hx.
Defined.
