(* ===== verification/Sh.v ===== *)
(** * user/sh.c: the shell

    The parser and what it builds.  A pointer into the command line is the
    list of the characters from there to its end [es]; a word of the tree is
    the pair of its start and its end pointer.  Every malloc() is taken to
    succeed. *)

From S2P Require Import Prelude CString Printf Ulib.

(** ** Commands *)

Definition MAXARGS : nat := 10.
Definition O_RDONLY : Z := 0.
Definition O_WRONLY : Z := 1.
Definition O_CREATE : Z := 0x200.
Definition O_TRUNC : Z := 0x400.

(** struct cmd and the structs it is cast to; [W] is what stands for a word. *)
Inductive cmd (W : Set) : Set :=
| EXEC (argv : list W)
| REDIR (c : cmd W) (file : W) (mode fd : Z)
| PIPE (left right : cmd W)
| LIST (left right : cmd W)
| BACK (c : cmd W).
Arguments EXEC {W} argv.
Arguments REDIR {W} c file mode fd.
Arguments PIPE {W} left right.
Arguments LIST {W} left right.
Arguments BACK {W} c.

Definition ptr : Set := list Z.
Definition span : Set := ptr * ptr.

(** What a parsing function does: return with a new *ps, or panic(). *)
Inductive pres (A : Type) : Type := POk (a : A) (ps : ptr) | PPanic (msg : string) | PFuel.
Arguments POk {A} a ps.
Arguments PPanic {A} msg.
Arguments PFuel {A}.

Definition pbind {A B} (m : pres A) (f : A -> ptr -> pres B) : pres B :=
  match m with
  | POk a ps => f a ps
  | PPanic msg => PPanic msg
  | PFuel => PFuel
  end.

(** ** Tokens *)

Definition whitespace : list Z := [32; 9; 13; 10; 11].
Definition symbols : list Z := [60; 124; 62; 38; 59; 40; 41].

(** strchr(l, c) != 0 for a character that is not NUL. *)
Definition is_in (l : list Z) (c : Z) : bool := existsb (Z.eqb c) l.

(** while(s < es && strchr(whitespace, *s)) s++; *)
Fixpoint skip_ws (s : ptr) : ptr :=
  match s with
  | c :: s' => if is_in whitespace c then skip_ws s' else s
  | [] => []
  end.

(** while(s < es && !strchr(whitespace, *s) && !strchr(symbols, *s)) s++; *)
Fixpoint skip_word (s : ptr) : ptr :=
  match s with
  | c :: s' => if is_in whitespace c || is_in symbols c then s else skip_word s'
  | [] => []
  end.

(** The token, the word it spans and the new *ps; a NUL before es does not
    occur. *)
Definition gettoken (ps : ptr) : Z * span * ptr :=
  let q := skip_ws ps in
  let r :=
    match q with
    | [] => (0, [])
    | c :: s =>
        if is_in [124; 40; 41; 59; 38; 60] c then (c, s)
        else if c =? 62 then
          match s with
          | d :: s' => if d =? 62 then (43, s') else (c, s)
          | [] => (c, s)
          end
        else (97, skip_word q)
    end in
  (r.1, (q, r.2), skip_ws r.2).

(** The new *ps and whether one of the characters comes next. *)
Definition peek (ps : ptr) (toks : list Z) : ptr * bool :=
  let s := skip_ws ps in
  (s, match s with c :: _ => is_in toks c | [] => false end).

(** ** The parser *)

(** A redirection: file, mode and descriptor. *)
Definition redir : Set := span * Z * Z.

(** The commands that parseredirs() builds around [c], in the order of the
    text.  parseexec() fills in argv[] of the innermost command while it
    goes on, so the redirections are kept and put around it at the end. *)
Definition redircmds {W : Set} (c : cmd W) (rs : list (W * Z * Z)) : cmd W :=
  fold_left (fun c r => REDIR c r.1.1 r.1.2 r.2) rs c.

(** while(peek(ps, es, "<>")): at most one iteration per character. *)
Fixpoint parseredirs (fuel : nat) (rs : list redir) (ps : ptr) : pres (list redir) :=
  let p := peek ps [60; 62] in
  if p.2 then
    match fuel with
    | O => PFuel
    | S fuel =>
        let '(tok, _, ps) := gettoken p.1 in
        let '(t, w, ps) := gettoken ps in
        if negb (t =? 97) then PPanic "missing file for redirection"
        else
          let r := if tok =? 60 then [(w, O_RDONLY, 0)]
                   else if tok =? 62 then [(w, Z.lor (Z.lor O_WRONLY O_CREATE) O_TRUNC, 1)]
                   else if tok =? 43 then [(w, Z.lor O_WRONLY O_CREATE, 1)]
                   else [] in
          parseredirs fuel (rs ++ r) ps
    end
  else POk rs p.1.

(** while(!peek(ps, es, "|)&;")) of parseexec(). *)
Fixpoint exec_loop (fuel : nat) (argv : list span) (rs : list redir) (ps : ptr) : pres (cmd span) :=
  let p := peek ps [124; 41; 38; 59] in
  if negb p.2 then
    match fuel with
    | O => PFuel
    | S fuel =>
        let '(tok, w, ps) := gettoken p.1 in
        if tok =? 0 then POk (redircmds (EXEC argv) rs) ps
        else if negb (tok =? 97) then PPanic "syntax"
        else
          let argv := argv ++ [w] in
          if (MAXARGS <=? length argv)%nat then PPanic "too many args"
          else
            pbind (parseredirs (length ps) rs ps) (fun rs ps => exec_loop fuel argv rs ps)
    end
  else POk (redircmds (EXEC argv) rs) p.1.

(** while(peek(ps, es, "&")) of parseline(). *)
Fixpoint back_loop (fuel : nat) (c : cmd span) (ps : ptr) : pres (cmd span) :=
  let p := peek ps [38] in
  if p.2 then
    match fuel with
    | O => PFuel
    | S fuel => let '(_, _, ps) := gettoken p.1 in back_loop fuel (BACK c) ps
    end
  else POk c p.1.

Fixpoint parseline (fuel : nat) (ps : ptr) : pres (cmd span) :=
  match fuel with
  | O => PFuel
  | S fuel =>
      pbind (parsepipe fuel ps) (fun c ps =>
      pbind (back_loop (length ps) c ps) (fun c ps =>
      let p := peek ps [59] in
      if p.2 then
        let '(_, _, ps) := gettoken p.1 in
        pbind (parseline fuel ps) (fun c' ps => POk (LIST c c') ps)
      else POk c p.1))
  end

with parsepipe (fuel : nat) (ps : ptr) : pres (cmd span) :=
  match fuel with
  | O => PFuel
  | S fuel =>
      pbind (parseexec fuel ps) (fun c ps =>
      let p := peek ps [124] in
      if p.2 then
        let '(_, _, ps) := gettoken p.1 in
        pbind (parsepipe fuel ps) (fun c' ps => POk (PIPE c c') ps)
      else POk c p.1)
  end

with parseexec (fuel : nat) (ps : ptr) : pres (cmd span) :=
  match fuel with
  | O => PFuel
  | S fuel =>
      let p := peek ps [40] in
      if p.2 then parseblock fuel p.1
      else
        pbind (parseredirs (length p.1) [] p.1) (fun rs ps => exec_loop (S (length ps)) [] rs ps)
  end

with parseblock (fuel : nat) (ps : ptr) : pres (cmd span) :=
  match fuel with
  | O => PFuel
  | S fuel =>
      let p := peek ps [40] in
      if negb p.2 then PPanic "parseblock"
      else
        let '(_, _, ps) := gettoken p.1 in
        pbind (parseline fuel ps) (fun c ps =>
        let p := peek ps [41] in
        if negb p.2 then PPanic "syntax - missing )"
        else
          let '(_, _, ps) := gettoken p.1 in
          pbind (parseredirs (length ps) [] ps) (fun rs ps => POk (redircmds c rs) ps))
  end.

(** Enough for the nesting of a line of [n] characters. *)
Definition parse_fuel (n : nat) : nat := 4 * n + 4.

(** ** nulterminate()

    [buf] is the whole buffer, the line and its NUL; a pointer is at the
    distance of its length from the NUL. *)
Definition at_ptr (buf : list Z) (p : ptr) : nat := length buf - 1 - length p.

Definition nul_at (p : ptr) (buf : list Z) : list Z := <[at_ptr buf p := 0]> buf.

Fixpoint nulterminate (c : cmd span) (buf : list Z) : list Z :=
  match c with
  | EXEC argv => fold_left (fun buf w => nul_at w.2 buf) argv buf
  | REDIR c file _ _ => nul_at file.2 (nulterminate c buf)
  | PIPE l r => nulterminate r (nulterminate l buf)
  | LIST l r => nulterminate r (nulterminate l buf)
  | BACK c => nulterminate c buf
  end.

(** The line without its NUL; the result is the command and the buffer in
    which its words are now strings. *)
Definition parsecmd (s : list Z) : pres (cmd span * list Z) :=
  pbind (parseline (parse_fuel (length s)) s) (fun c ps =>
  let p := peek ps [] in
  if negb (length p.1 =? 0)%nat then PPanic "syntax" else POk (c, nulterminate c (s ++ [0])) p.1).

(** ** The tokens are pieces of the line *)

Definition delimiter (c : Z) : bool := is_in whitespace c || is_in symbols c.

(** [w] spans a word: characters that are no delimiters, up to a delimiter or
    the end. *)
Definition word_span (w : span) : Prop :=
  exists x, w.1 = x ++ w.2 /\ x <> [] /\ Forall (fun c => delimiter c = false) x /\
    match w.2 with [] => True | c :: _ => delimiter c = true end.

Fixpoint words {W : Set} (P : W -> Prop) (c : cmd W) : Prop :=
  match c with
  | EXEC argv => Forall P argv
  | REDIR c file _ _ => words P c /\ P file
  | PIPE l r => words P l /\ words P r
  | LIST l r => words P l /\ words P r
  | BACK c => words P c
  end.

Lemma skip_ws_suffix s : skip_ws s `suffix_of` s.
Proof.
  induction s as [|c s IH]; cbn [skip_ws]; [done|]. destruct (is_in whitespace c); [by apply suffix_cons_r|done].
Qed.

Lemma skip_ws_idem s : skip_ws (skip_ws s) = skip_ws s.
Proof.
  induction s as [|c s IH]; cbn [skip_ws]; [done|]. destruct (is_in whitespace c) eqn:E; [done|].
  cbn [skip_ws]. by rewrite E.
Qed.

Lemma skip_ws_head s c r : skip_ws s = c :: r -> is_in whitespace c = false.
Proof.
  induction s as [|d s IH]; cbn [skip_ws]; [done|]. destruct (is_in whitespace d) eqn:E; [done|]. by intros [= -> ->].
Qed.

Lemma skip_word_spec s :
  exists x, s = x ++ skip_word s /\ Forall (fun c => delimiter c = false) x /\
    match skip_word s with [] => True | c :: _ => delimiter c = true end.
Proof.
  induction s as [|c s IH]; cbn [skip_word]; [by exists []|]. fold (delimiter c). destruct (delimiter c) eqn:E.
  - by exists [].
  - destruct IH as (x & Hx & HF & Hd). exists (c :: x). split; [by rewrite <- app_comm_cons, <- Hx|]. by split; [constructor|].
Qed.

Lemma gettoken_spec ps :
  let '(tok, w, ps') := gettoken ps in
  w.1 `suffix_of` ps /\ w.2 `suffix_of` w.1 /\ ps' = skip_ws w.2 /\
  match tok with
  | 0 => ps' = []
  | 97 => word_span w
  | _ => True
  end /\
  (tok <> 0 -> (length w.2 < length w.1)%nat).
Proof.
  unfold gettoken. pose proof (skip_ws_suffix ps) as Hs. pose proof (skip_ws_head ps) as Hh.
  destruct (skip_ws ps) as [|c s] eqn:Eq; cbn [fst snd]; [by repeat split|].
  destruct (is_in [124; 40; 41; 59; 38; 60] c) eqn:E1; [|destruct (Z.eqb_spec c 62) as [->|E2]]; cbn [fst snd].
  - split; [done|]. split; [by apply suffix_cons_r|]. split; [done|]. split; [|intros; cbn; lia].
    cbn in E1. rewrite !orb_true_iff, !Z.eqb_eq in E1. by destruct E1 as [->|[->|[->|[->|[->|[->|E1]]]]]].
  - destruct s as [|d s']; [|destruct (d =? 62)]; cbn [fst snd]; (split; [done|]);
      (split; [solve_suffix|]); (split; [done|]); (split; [done|intros; cbn; lia]).
  - assert (Hd : delimiter c = false).
    { unfold delimiter. rewrite (Hh c s eq_refl). cbn in E1 |- *. lia. }
    destruct (skip_word_spec (c :: s)) as (x & Hx & HF & Hend). set (eq := skip_word (c :: s)) in *.
    assert (Hne : x <> []).
    { intros ->. rewrite app_nil_l in Hx. rewrite <- Hx in Hend. congruence. }
    split; [done|]. split; [exists x; done|]. split; [done|]. split; [by exists x|].
    intros _. rewrite Hx, length_app. destruct x; [done|cbn; lia].
Qed.

(** ** The parser ends, and its words are words of the line *)

(** The result of a parsing function that starts at [ps]. *)
Definition parses {A} (P : A -> Prop) (ps : ptr) (r : pres A) : Prop :=
  match r with
  | POk a ps' => P a /\ ps' `suffix_of` ps
  | PPanic _ => True
  | PFuel => False
  end.

Lemma parses_bind {A B} (P : A -> Prop) (Q : B -> Prop) ps m (f : A -> ptr -> pres B) :
  parses P ps m -> (forall a ps', P a -> ps' `suffix_of` ps -> parses Q ps' (f a ps')) -> parses Q ps (pbind m f).
Proof.
  intros Hm Hf. destruct m as [a ps'| |]; cbn [pbind parses] in *; [|done..]. destruct Hm as [Ha Hs].
  specialize (Hf a ps' Ha Hs). destruct (f a ps') as [b ps''| |]; cbn [parses] in *; [|done..].
  destruct Hf as [Hb Hs']. split; [done|]. by trans ps'.
Qed.

Lemma parses_suffix {A} (P : A -> Prop) ps ps' r : ps' `suffix_of` ps -> parses P ps' r -> parses P ps r.
Proof. intros Hs. destruct r; cbn [parses]; [|done..]. intros [Ha Hr]. split; [done|]. by trans ps'. Qed.

Lemma peek_spec ps toks : (peek ps toks).1 `suffix_of` ps /\ ((peek ps toks).2 = true -> (peek ps toks).1 <> []).
Proof. unfold peek. cbn [fst snd]. split; [apply skip_ws_suffix|]. by destruct (skip_ws ps). Qed.

Lemma is_in_incl toks l c : is_in toks c = true -> incl toks l -> is_in l c = true.
Proof. unfold is_in. rewrite !existsb_exists. intros (x & Hin & Hx) Hi. exists x. split; [by apply Hi|done]. Qed.

Lemma skip_ws_none c r : is_in whitespace c = false -> skip_ws (c :: r) = c :: r.
Proof. intros H. cbn [skip_ws]. by rewrite H. Qed.

(** A token read after peek() found a character takes at least that one. *)
Lemma gettoken_peeked ps toks tok w ps' :
  gettoken (peek ps toks).1 = (tok, w, ps') -> (peek ps toks).2 = true ->
  ps' `suffix_of` ps /\ (length ps' < length ps)%nat.
Proof.
  intros Hg Hp. destruct (peek_spec ps toks) as [Hs Hne]. specialize (Hne Hp).
  pose proof (gettoken_spec (peek ps toks).1) as H. rewrite Hg in H. destruct H as (H1 & H2 & H3 & H4 & H5).
  assert (Hps : ps' `suffix_of` ps).
  { rewrite H3. trans w.2; [apply skip_ws_suffix|]. trans w.1; [done|]. by trans (peek ps toks).1. }
  split; [done|]. destruct (decide (tok = 0)) as [->|Ht].
  - rewrite H4. apply suffix_length in Hs. destruct (peek ps toks).1; [done|]. cbn in Hs |- *. lia.
  - specialize (H5 Ht). apply suffix_length in H1, Hs. rewrite H3. pose proof (suffix_length _ _ (skip_ws_suffix w.2)). lia.
Qed.

Lemma gettoken_rest ps tok w ps' : gettoken ps = (tok, w, ps') -> ps' `suffix_of` ps.
Proof.
  intros Hg. pose proof (gettoken_spec ps) as H. rewrite Hg in H. destruct H as (H1 & H2 & -> & _).
  trans w.2; [apply skip_ws_suffix|]. by trans w.1.
Qed.

Lemma gettoken_word ps w ps' :
  gettoken ps = (97, w, ps') -> word_span w /\ w.1 `suffix_of` ps /\ (length ps' < length ps)%nat.
Proof.
  intros Hg. pose proof (gettoken_spec ps) as H. rewrite Hg in H. destruct H as (H1 & H2 & -> & H4 & H5).
  split; [done|]. split; [done|]. specialize (H5 ltac:(done)). apply suffix_length in H1.
  pose proof (suffix_length _ _ (skip_ws_suffix w.2)). lia.
Qed.

Section line.
Variable line : ptr.

Definition word_in (w : span) : Prop := word_span w /\ w.1 `suffix_of` line.
Definition redirs_in (rs : list redir) : Prop := Forall (fun r => word_in r.1.1) rs.

(** All words come from the line and no command has too many. *)
Fixpoint arity {W : Set} (c : cmd W) : Prop :=
  match c with
  | EXEC argv => (length argv < MAXARGS)%nat
  | REDIR c _ _ _ => arity c
  | PIPE l r => arity l /\ arity r
  | LIST l r => arity l /\ arity r
  | BACK c => arity c
  end.
Definition cmd_in (c : cmd span) : Prop := words word_in c /\ arity c.

Lemma redircmds_in rs c : cmd_in c -> redirs_in rs -> cmd_in (redircmds c rs).
Proof.
  intros Hc Hr. revert c Hc. induction Hr as [|r rs Hr Hrs IH]; intros c Hc; [done|]. cbn [redircmds fold_left].
  apply IH. destruct Hc. split; [by split|done].
Qed.

Lemma parseredirs_ok fuel rs ps :
  ps `suffix_of` line -> (length ps <= fuel)%nat -> redirs_in rs -> parses redirs_in ps (parseredirs fuel rs ps).
Proof.
  revert rs ps. induction fuel as [|fuel IH]; intros rs ps Hps Hf Hrs; cbn [parseredirs];
    destruct (peek_spec ps [60; 62]) as [Hs Hne]; (destruct (peek ps [60; 62]).2 eqn:Ep; [|done]).
  - specialize (Hne eq_refl). apply suffix_length in Hs. destruct (peek ps [60; 62]).1; [done|]. cbn in Hs. lia.
  - destruct (gettoken (peek ps [60; 62]).1) as [[tok w0] ps1] eqn:E1.
    destruct (gettoken_peeked _ _ _ _ _ E1 Ep) as [S1 L1].
    destruct (gettoken ps1) as [[t w] ps2] eqn:E2. destruct (Z.eqb_spec t 97) as [->|]; cbn [negb]; [|done].
    destruct (gettoken_word _ _ _ E2) as (W1 & W2 & W3). apply gettoken_rest in E2.
    assert (Hw : word_in w) by (split; [done|]; trans ps1; [done|]; by trans ps).
    apply (parses_suffix _ _ ps2); [by trans ps1|]. apply IH; [trans ps1; [done|]; by trans ps|lia|].
    apply Forall_app. split; [done|]. repeat case_bool; first [by apply Forall_singleton|constructor].
Qed.

Lemma exec_loop_ok fuel argv rs ps :
  ps `suffix_of` line -> (length ps < fuel)%nat -> redirs_in rs -> Forall word_in argv -> (length argv < MAXARGS)%nat ->
  parses cmd_in ps (exec_loop fuel argv rs ps).
Proof.
  revert argv rs ps. induction fuel as [|fuel IH]; intros argv rs ps Hps Hf Hrs Ha Hl; [lia|]. cbn [exec_loop].
  destruct (peek_spec ps [124; 41; 38; 59]) as [Hs _]. destruct (peek ps _).2; cbn [negb].
  { split; [by apply redircmds_in|done]. }
  destruct (gettoken (peek ps [124; 41; 38; 59]).1) as [[tok w] ps1] eqn:E1. pose proof (gettoken_rest _ _ _ _ E1) as S1.
  assert (S2 : ps1 `suffix_of` ps) by (by trans (peek ps [124; 41; 38; 59]).1).
  destruct (tok =? 0); [split; [by apply redircmds_in|done]|].
  destruct (Z.eqb_spec tok 97) as [->|]; cbn [negb]; [|done]. destruct (gettoken_word _ _ _ E1) as (W1 & W2 & W3).
  destruct (Nat.leb_spec MAXARGS (length (argv ++ [w]))); [done|].
  apply (parses_suffix _ _ ps1); [done|]. apply (parses_bind redirs_in); [by apply parseredirs_ok; [trans ps|lia|]|].
  intros rs' ps2 Hrs' S3. apply IH; [trans ps1; [done|]; by trans ps| |done| |done].
  - apply suffix_length in S3, Hs. lia.
  - apply Forall_app. split; [done|]. apply Forall_singleton. split; [done|]. trans (peek ps [124; 41; 38; 59]).1; [done|]. by trans ps.
Qed.

Lemma back_loop_ok fuel c ps :
  (length ps <= fuel)%nat -> cmd_in c -> parses cmd_in ps (back_loop fuel c ps).
Proof.
  revert c ps. induction fuel as [|fuel IH]; intros c ps Hf Hc; cbn [back_loop];
    destruct (peek_spec ps [38]) as [Hs Hne]; (destruct (peek ps [38]).2 eqn:Ep; [|done]).
  - specialize (Hne eq_refl). apply suffix_length in Hs. destruct (peek ps [38]).1; [done|]. cbn in Hs. lia.
  - destruct (gettoken (peek ps [38]).1) as [[tok w] ps1] eqn:E1.
    destruct (gettoken_peeked _ _ _ _ _ E1 Ep) as [S1 L1].
    apply (parses_suffix _ _ ps1); [done|]. apply IH; [lia|done].
Qed.

(** The four functions that call each other, with fuel for the nesting that
    the length of what is left allows. *)
Lemma parser_ok fuel ps :
  ps `suffix_of` line ->
  ((4 * length ps + 4 <= fuel)%nat -> parses cmd_in ps (parseline fuel ps)) /\
  ((4 * length ps + 3 <= fuel)%nat -> parses cmd_in ps (parsepipe fuel ps)) /\
  ((4 * length ps + 2 <= fuel)%nat -> parses cmd_in ps (parseexec fuel ps)) /\
  ((4 * length ps + 1 <= fuel)%nat -> parses cmd_in ps (parseblock fuel ps)).
Proof.
  revert ps. induction fuel as [|fuel IH]; intros ps Hps; [repeat split; lia|].
  split; [|split; [|split]]; intros Hf.
  - cbn [parseline]. apply (parses_bind cmd_in); [apply IH; [done|lia]|]. intros c ps1 Hc S1.
    apply (parses_bind cmd_in); [by apply back_loop_ok|]. intros c' ps2 Hc' S2.
    destruct (peek_spec ps2 [59]) as [S3 _]. destruct (peek ps2 [59]).2 eqn:Ep; [|done].
    destruct (gettoken (peek ps2 [59]).1) as [[tok w] ps3] eqn:E1. destruct (gettoken_peeked _ _ _ _ _ E1 Ep) as [S4 L4].
    apply (parses_suffix _ _ ps3); [done|]. apply suffix_length in S1 as L1, S2 as L2.
    apply (parses_bind cmd_in); [apply IH; [trans ps2; [done|]; trans ps1; [done|]; by trans ps|lia]|].
    intros c2 ps4 Hc2 S5. destruct Hc', Hc2. split; [split; by split|done].
  - cbn [parsepipe]. apply (parses_bind cmd_in); [apply IH; [done|lia]|]. intros c ps1 Hc S1.
    destruct (peek_spec ps1 [124]) as [S3 _]. destruct (peek ps1 [124]).2 eqn:Ep; [|done].
    destruct (gettoken (peek ps1 [124]).1) as [[tok w] ps3] eqn:E1. destruct (gettoken_peeked _ _ _ _ _ E1 Ep) as [S4 L4].
    apply (parses_suffix _ _ ps3); [done|]. apply suffix_length in S1 as L1.
    apply (parses_bind cmd_in); [apply IH; [trans ps1; [done|]; by trans ps|lia]|].
    intros c2 ps4 Hc2 S5. destruct Hc, Hc2. split; [split; by split|done].
  - cbn [parseexec]. destruct (peek_spec ps [40]) as [S1 _]. apply suffix_length in S1 as L1.
    assert (S0 : (peek ps [40]).1 `suffix_of` line) by (by trans ps).
    apply (parses_suffix _ _ (peek ps [40]).1); [done|]. destruct (peek ps [40]).2; [apply IH; [done|lia]|].
    apply (parses_bind redirs_in); [apply parseredirs_ok; [done|done|constructor]|]. intros rs ps2 Hrs S2.
    apply exec_loop_ok; [by trans (peek ps [40]).1|lia|done|constructor|unfold MAXARGS; cbn; lia].
  - cbn [parseblock]. destruct (peek_spec ps [40]) as [S1 _]. destruct (peek ps [40]).2 eqn:Ep; cbn [negb]; [|done].
    destruct (gettoken (peek ps [40]).1) as [[tok w] ps1] eqn:E1. destruct (gettoken_peeked _ _ _ _ _ E1 Ep) as [S2 L2].
    apply (parses_suffix _ _ ps1); [done|]. apply (parses_bind cmd_in); [apply IH; [by trans ps|lia]|]. intros c ps2 Hc S3.
    destruct (peek_spec ps2 [41]) as [S4 _]. destruct (peek ps2 [41]).2 eqn:Ep2; cbn [negb]; [|done].
    destruct (gettoken (peek ps2 [41]).1) as [[tok2 w2] ps3] eqn:E2. destruct (gettoken_peeked _ _ _ _ _ E2 Ep2) as [S5 _].
    apply (parses_suffix _ _ ps3); [done|].
    apply (parses_bind redirs_in); [apply parseredirs_ok; [trans ps2; [done|]; trans ps1; [done|]; by trans ps|done|constructor]|].
    intros rs ps4 Hrs S6. split; [by apply redircmds_in|done].
Qed.
End line.

(** ** After nulterminate() every word is a C string of its own *)

Definition text (w : span) : list Z := take (length w.1 - length w.2) w.1.
Definition string_at (buf : list Z) (p : ptr) : list Z := until_nul (drop (at_ptr buf p) buf).

Lemma words_impl {W : Set} (P Q : W -> Prop) c : (forall w, P w -> Q w) -> words P c -> words Q c.
Proof.
  intros H. induction c as [argv|c IH f m fd|l IHl r IHr|l IHl r IHr|c IH]; cbn [words]; try tauto.
  - intros HF. eapply Forall_impl; [exact HF|]. done.
  - intros [H1 H2]. auto.
Qed.

Lemma words_and {W : Set} (P Q : W -> Prop) c : words P c -> words Q c -> words (fun w => P w /\ Q w) c.
Proof.
  induction c as [argv|c IH f m fd|l IHl r IHr|l IHl r IHr|c IH]; cbn [words]; try tauto.
  intros. by apply Forall_and.
Qed.

Lemma until_nul_end x r : 0 ∉ x -> until_nul (x ++ 0 :: r) = x.
Proof.
  induction x as [|c x IH]; [done|]. rewrite not_elem_of_cons. intros [Hc Hx]. cbn [app until_nul].
  destruct (Z.eqb_spec c 0); [congruence|]. by rewrite IH.
Qed.

Section terminate.
Variable line : list Z.

(** The buffer still has the words of the line. *)
Definition intact (buf : list Z) : Prop :=
  length buf = S (length line) /\
  forall i c, line !! i = Some c -> delimiter c = false -> buf !! i = Some c.

(** Where the word's end pointer is, the line has a delimiter or ends. *)
Lemma end_position w :
  word_in line w ->
  (length line - length w.2 <= length line)%nat /\
  forall c, line !! (length line - length w.2)%nat = Some c -> delimiter c = true.
Proof.
  intros [(x & H1 & _ & _ & Hd) [pre Hp]]. split; [lia|]. intros c Hc. rewrite Hp, H1 in Hc.
  replace (length (pre ++ x ++ w.2) - length w.2)%nat with (length (pre ++ x)) in Hc by (rewrite !length_app; lia).
  rewrite app_assoc, lookup_app_r, Nat.sub_diag in Hc by lia.
  destruct w.2 as [|d s]; [done|]. cbn in Hc. congruence.
Qed.

(** What a run of stores of NULs at ends of words does to the buffer. *)
Definition nulled (buf buf' : list Z) : Prop :=
  intact buf' /\ forall i, buf !! i = Some 0 -> buf' !! i = Some 0.
Definition ended (buf : list Z) (w : span) : Prop := buf !! (length line - length w.2)%nat = Some 0.

Lemma nul_at_ok w buf : word_in line w -> intact buf -> nulled buf (nul_at w.2 buf) /\ ended (nul_at w.2 buf) w.
Proof.
  intros Hw [Hl Hi]. destruct (end_position w Hw) as [H1 H2]. unfold nul_at, at_ptr. rewrite Hl.
  replace (S (length line) - 1 - length w.2)%nat with (length line - length w.2)%nat by lia.
  set (k := (length line - length w.2)%nat) in *. split; [split; [split|]|].
  - by rewrite length_insert.
  - intros i c Hc Hd. destruct (decide (i = k)) as [->|]; [by rewrite H2 in Hd|]. rewrite list_lookup_insert_ne by done. auto.
  - intros i Hz. destruct (decide (i = k)) as [->|]; [apply list_lookup_insert_eq; lia|by rewrite list_lookup_insert_ne].
  - apply list_lookup_insert_eq. lia.
Qed.

Lemma nulled_trans a b c : nulled a b -> nulled b c -> nulled a c.
Proof. intros [_ H1] [H2 H3]. split; [done|]. auto. Qed.

Lemma ended_nulled a b w : ended a w -> nulled a b -> ended b w.
Proof. intros H [_ Hn]. by apply Hn. Qed.

Lemma argv_ok argv buf :
  Forall (word_in line) argv -> intact buf ->
  let buf' := fold_left (fun buf w => nul_at w.2 buf) argv buf in nulled buf buf' /\ Forall (ended buf') argv.
Proof.
  intros Hf. revert buf. induction Hf as [|w argv Hw Hf IH]; intros buf Hb; cbn [fold_left]; [by split; [|constructor]|].
  destruct (nul_at_ok w buf Hw Hb) as [N1 E1]. destruct (IH (nul_at w.2 buf) (proj1 N1)) as [N2 E2].
  split; [by eapply nulled_trans|]. constructor; [by eapply ended_nulled|done].
Qed.

Lemma nulterminate_ok c buf :
  words (word_in line) c -> intact buf ->
  nulled buf (nulterminate c buf) /\ words (ended (nulterminate c buf)) c.
Proof.
  assert (Htwo : forall l r, (forall buf, words (word_in line) l -> intact buf -> nulled buf (nulterminate l buf) /\ words (ended (nulterminate l buf)) l) ->
    (forall buf, words (word_in line) r -> intact buf -> nulled buf (nulterminate r buf) /\ words (ended (nulterminate r buf)) r) ->
    forall buf, words (word_in line) l /\ words (word_in line) r -> intact buf ->
    let buf' := nulterminate r (nulterminate l buf) in nulled buf buf' /\ (words (ended buf') l /\ words (ended buf') r)).
  { intros l r IHl IHr b [Hl Hr] Hb. destruct (IHl b Hl Hb) as [N1 E1]. destruct (IHr (nulterminate l b) Hr (proj1 N1)) as [N2 E2].
    split; [by eapply nulled_trans|]. split; [|done]. eapply words_impl; [|exact E1]. intros w Hw. by eapply ended_nulled. }
  revert buf. induction c as [argv|c IH f m fd|l IHl r IHr|l IHl r IHr|c IH]; cbn [words nulterminate]; intros buf Hw Hb.
  - by apply argv_ok.
  - destruct Hw as [Hc Hf]. destruct (IH buf Hc Hb) as [N1 E1]. destruct (nul_at_ok f _ Hf (proj1 N1)) as [N2 E2].
    split; [by eapply nulled_trans|]. split; [|done]. eapply words_impl; [|exact E1]. intros w Hw. by eapply ended_nulled.
  - by apply Htwo.
  - by apply Htwo.
  - by apply IH.
Qed.

Lemma string_at_word w buf :
  0 ∉ line -> word_in line w -> intact buf -> ended buf w ->
  string_at buf w.1 = text w /\ text w <> [] /\ Forall (fun c => delimiter c = false) (text w).
Proof.
  intros Hz [(x & H1 & Hne & HF & _) [pre Hp]] [Hl Hi] He. unfold text.
  assert (Ht : take (length w.1 - length w.2) w.1 = x).
  { rewrite H1, length_app, Nat.add_sub. apply take_app_length. }
  rewrite Ht. split; [|done]. unfold string_at, at_ptr. rewrite Hl. unfold ended in He.
  rewrite Hp, H1 in He, Hl, Hi, Hz. rewrite H1. 
  replace (S (length line) - 1 - length (x ++ w.2))%nat with (length pre) by (rewrite Hp, H1, !length_app; lia).
  replace (length (pre ++ x ++ w.2) - length w.2)%nat with (length pre + length x)%nat in He by (rewrite !length_app; lia).
  assert (Hx : take (length x) (drop (length pre) buf) = x).
  { apply list_eq_same_length with (length x); [done|rewrite length_take, length_drop, Hl, !length_app; lia|].
    intros i a b Hlt Ha Hb. rewrite lookup_take, decide_True, lookup_drop in Ha by done.
    assert (Hd := Forall_lookup_1 _ _ _ _ HF Hb). rewrite (Hi (length pre + i)%nat b) in Ha; [congruence| |done].
    rewrite lookup_app_r by lia. rewrite Nat.add_sub', lookup_app_l by done. done. }
  rewrite <- (take_drop (length x) (drop (length pre) buf)), Hx, drop_drop.
  rewrite (drop_S _ 0) by done. rewrite !not_elem_of_app in Hz. destruct Hz as (_ & Hz & _). by apply until_nul_end.
Qed.
End terminate.

(** After nulterminate() every pointer of the command is to its word. *)
Lemma strings_ok line c :
  0 ∉ line -> words (word_in line) c ->
  words (fun w => w.1 `suffix_of` line /\ string_at (nulterminate c (line ++ [0])) w.1 = text w /\ text w <> [] /\
    Forall (fun c => delimiter c = false) (text w)) c.
Proof.
  intros Hz Hw. assert (Hi : intact line (line ++ [0])).
  { split; [rewrite length_app; cbn; lia|]. intros i d Hd _. by apply lookup_app_l_Some. }
  destruct (nulterminate_ok line c _ Hw Hi) as [[N1 _] E].
  eapply words_impl; [|exact (words_and _ _ c Hw E)]. intros w [W1 W2]. split; [apply W1|]. by apply (string_at_word line).
Qed.

(** C12: the shell's parser always ends, and what it returns is sound.  For
    every line without NULs parsecmd() either panics with a syntax error or
    returns a command, having consumed the whole line, in which every command
    has fewer than MAXARGS words; and after nulterminate() has written its
    NULs into the line, in place, the string at every argv[] and file pointer
    is exactly the word that was parsed there: not empty, without blanks or
    shell symbols, and not cut or run together by the NUL of another word. *)
Theorem parsecmd_sound line :
  0 ∉ line ->
  match parsecmd line with
  | POk (c, buf) ps => ps = [] /\ arity c /\
      words (fun w => w.1 `suffix_of` line /\ string_at buf w.1 = text w /\ text w <> [] /\
        Forall (fun c => delimiter c = false) (text w)) c
  | PPanic _ => True
  | PFuel => False
  end.
Proof.
  intros Hz. unfold parsecmd.
  destruct (parser_ok line (parse_fuel (length line)) line) as [Hp _]; [done|]. specialize (Hp ltac:(unfold parse_fuel; lia)).
  destruct (parseline _ line) as [c ps| |]; [|done..]. destruct Hp as [[Hw Ha] _]. cbn [pbind].
  destruct (Nat.eqb_spec (length (peek ps []).1) 0) as [He|]; cbn [negb]; [|done].
  split; [by apply nil_length_inv|]. split; [done|]. by apply strings_ok.
Qed.

(** "echo hi>f|cat;" *)
Lemma parsecmd_sound_witness :
  let line := [101; 99; 104; 111; 32; 104; 105; 62; 102; 124; 99; 97; 116; 59] in
  exists c buf, parsecmd line = POk (c, buf) [] /\ arity c /\ string_at buf (drop 5 line) = [104; 105].
Proof.
  set (line := [101; 99; 104; 111; 32; 104; 105; 62; 102; 124; 99; 97; 116; 59]). cbv zeta.
  pose proof (parsecmd_sound line) as H. remember (parsecmd line) as r eqn:E. vm_compute in E. subst r.
  destruct H as (_ & Ha & _).
  - unfold line. rewrite !not_elem_of_cons. repeat split; try done. apply not_elem_of_nil.
  - eexists _, _. split; [reflexivity|]. split; [exact Ha|]. by vm_compute.
Defined.
