(* ===== verification/ShPrint.v ===== *)
(** * Every command tree has a text that the shell parses back to it *)

From S2P Require Import Prelude CString Printf Ulib Sh.

Fixpoint cmd_map {V W : Set} (f : V -> W) (c : cmd V) : cmd W :=
  match c with
  | EXEC argv => EXEC (map f argv)
  | REDIR c file mode fd => REDIR (cmd_map f c) (f file) mode fd
  | PIPE l r => PIPE (cmd_map f l) (cmd_map f r)
  | LIST l r => LIST (cmd_map f l) (cmd_map f r)
  | BACK c => BACK (cmd_map f c)
  end.

(** ** The text of a command *)

Definition word (w : list Z) : list Z := w ++ [32].

(** The operator of a redirection. *)
Definition redir_op (mode : Z) : list Z :=
  if mode =? O_RDONLY then [60; 32]
  else if mode =? Z.lor (Z.lor O_WRONLY O_CREATE) O_TRUNC then [62; 32]
  else [62; 62; 32].

Definition paren (b : bool) (s : list Z) : list Z := if b then [40; 32] ++ s ++ [41; 32] else s.

(** The text of a command where a line (level 0), a line without ; (1), a
    pipeline (2) or a simple command (3) may stand. *)
Fixpoint show (lvl : nat) (c : cmd (list Z)) : list Z :=
  match c with
  | EXEC argv => concat (map word argv)
  | REDIR c file mode fd => show 3 c ++ redir_op mode ++ word file
  | PIPE l r => paren (3 <=? lvl)%nat (show 3 l ++ [124; 32] ++ show 2 r)
  | LIST l r => paren (1 <=? lvl)%nat (show 1 l ++ [59; 32] ++ show 0 r)
  | BACK c => paren (2 <=? lvl)%nat (show 1 c ++ [38; 32])
  end.

Definition good_word (w : list Z) : Prop := w <> [] /\ Forall (fun c => delimiter c = false) w.

Definition good_redir (mode fd : Z) : Prop :=
  (mode = O_RDONLY /\ fd = 0) \/ (mode = Z.lor (Z.lor O_WRONLY O_CREATE) O_TRUNC /\ fd = 1) \/
  (mode = Z.lor O_WRONLY O_CREATE /\ fd = 1).

(** The trees the shell's grammar has a text for. *)
Fixpoint expressible (c : cmd (list Z)) : Prop :=
  match c with
  | EXEC argv => Forall good_word argv /\ (length argv < MAXARGS)%nat
  | REDIR c file mode fd => expressible c /\ good_word file /\ good_redir mode fd
  | PIPE l r => expressible l /\ expressible r
  | LIST l r => expressible l /\ expressible r
  | BACK c => expressible c
  end.

(** ** Tokens of such a text *)

(** No blanks come first. *)
Definition tight (s : list Z) : Prop := skip_ws s = s.

(** What follows begins with one of the characters, or nothing follows. *)
Definition follows (toks : list Z) (s : list Z) : Prop :=
  match s with [] => True | c :: _ => is_in toks c = true end.

Lemma tight_cons c s : is_in whitespace c = false -> tight (c :: s).
Proof. apply skip_ws_none. Qed.

Lemma follows_tight s : follows [124; 41; 38; 59] s -> tight s.
Proof.
  destruct s as [|c s]; [done|]. cbn [follows]. intros H. apply tight_cons. cbn in H.
  rewrite !orb_true_iff, !Z.eqb_eq in H. by destruct H as [->|[->|[->|[->|H]]]].
Qed.

Lemma peek_tight s toks : tight s -> peek s toks = (s, match s with c :: _ => is_in toks c | [] => false end).
Proof. intros H. unfold peek. by rewrite H. Qed.

Lemma gettoken_symbol c s :
  is_in [124; 40; 41; 59; 38; 60] c = true -> tight s -> exists w, gettoken (c :: 32 :: s) = (c, w, s).
Proof.
  intros Hc Hs. assert (Hw : is_in whitespace c = false).
  { cbn in Hc. rewrite !orb_true_iff, !Z.eqb_eq in Hc. by destruct Hc as [->|[->|[->|[->|[->|[->|H]]]]]]. }
  unfold gettoken. rewrite skip_ws_none by done. rewrite Hc. cbn [fst snd]. eexists. by cbn [skip_ws]; rewrite Hs.
Qed.

Lemma skip_word_good w s : Forall (fun c => delimiter c = false) w -> skip_word (w ++ 32 :: s) = 32 :: s.
Proof.
  induction 1 as [|c w Hc Hw IH]; [done|]. cbn [app skip_word]. fold (delimiter c). by rewrite Hc.
Qed.

Lemma delimiter_split c :
  delimiter c = false ->
  is_in whitespace c = false /\ is_in [124; 40; 41; 59; 38; 60] c = false /\ c <> 62 /\
  is_in [60; 62] c = false /\ is_in [124; 41; 38; 59] c = false /\ is_in [40] c = false.
Proof. unfold delimiter, is_in, whitespace, symbols. cbn [existsb]. lia. Qed.

Lemma gettoken_good w s :
  good_word w -> tight s -> gettoken (word w ++ s) = (97, (w ++ 32 :: s, 32 :: s), s).
Proof.
  intros [Hne HF] Hs. unfold word. rewrite <- app_assoc. cbn [app]. destruct HF as [|c w Hc HF]; [done|].
  destruct (delimiter_split c Hc) as (H1 & H2 & H3 & _). unfold gettoken. cbn [app].
  rewrite skip_ws_none, H2 by done. destruct (Z.eqb_spec c 62); [done|]. cbn [fst snd].
  change (c :: w ++ 32 :: s) with ((c :: w) ++ 32 :: s). rewrite skip_word_good by (by constructor).
  by cbn [skip_ws]; rewrite Hs.
Qed.

Lemma word_tight w s : good_word w -> tight (word w ++ s).
Proof.
  intros [Hne HF]. destruct HF as [|c w Hc HF]; [done|]. apply tight_cons. by apply delimiter_split.
Qed.

Lemma text_good w s : text (w ++ 32 :: s, 32 :: s) = w.
Proof. unfold text. cbn [fst snd]. rewrite length_app, Nat.add_sub. apply take_app_length. Qed.

(** ** Redirections and words *)

Definition show_redirs (rs : list (list Z * Z * Z)) : list Z :=
  concat (map (fun r => redir_op r.1.2 ++ word r.1.1) rs).
Definition good_redirs (rs : list (list Z * Z * Z)) : Prop :=
  Forall (fun r => good_word r.1.1 /\ good_redir r.1.2 r.2) rs.
Definition redir_text (r : redir) : list Z * Z * Z := (text r.1.1, r.1.2, r.2).

Lemma cmd_map_redircmds rs c :
  cmd_map text (redircmds c rs) = redircmds (cmd_map text c) (map redir_text rs).
Proof. revert c. induction rs as [|r rs IH]; intros c; [done|]. cbn [redircmds fold_left map]. apply IH. Qed.

Lemma redir_op_token mode fd s :
  good_redir mode fd -> tight s ->
  is_in [60; 62] (default 0 (head (redir_op mode))) = true /\ tight (redir_op mode ++ s) /\
  exists tok w, gettoken (redir_op mode ++ s) = (tok, w, s) /\ forall f : span,
    (if tok =? 60 then [(f, O_RDONLY, 0)]
     else if tok =? 62 then [(f, Z.lor (Z.lor O_WRONLY O_CREATE) O_TRUNC, 1)]
     else if tok =? 43 then [(f, Z.lor O_WRONLY O_CREATE, 1)]
     else []) = [(f, mode, fd)].
Proof.
  intros Hg Hs. destruct Hg as [[-> ->]|[[-> ->]|[-> ->]]]; (split; [done|]); (split; [done|]).
  - destruct (gettoken_symbol 60 s eq_refl Hs) as [w Hw]. by exists 60, w.
  - exists 62, (62 :: 32 :: s, 32 :: s). split; [|done].
    change (gettoken (62 :: 32 :: s) = (62, (62 :: 32 :: s, 32 :: s), s)). unfold gettoken. cbn [skip_ws is_in existsb]. cbn. by rewrite Hs.
  - exists 43, (62 :: 62 :: 32 :: s, 32 :: s). split; [|done].
    change (gettoken (62 :: 62 :: 32 :: s) = (43, (62 :: 62 :: 32 :: s, 32 :: s), s)). unfold gettoken. cbn. by rewrite Hs.
Qed.

Lemma parseredirs_show rs rs0 s fuel :
  good_redirs rs -> tight s -> match s with [] => True | c :: _ => is_in [60; 62] c = false end ->
  (length (show_redirs rs ++ s) <= fuel)%nat ->
  exists rs', parseredirs fuel rs0 (show_redirs rs ++ s) = POk (rs0 ++ rs') s /\ map redir_text rs' = rs.
Proof.
  intros Hg Hs Hh. revert rs0 fuel. induction Hg as [|[[f mode] fd] rs [Hf Hm] Hg IH]; intros rs0 fuel Hl.
  - exists []. split; [|done]. rewrite app_nil_r. change (show_redirs []) with (@nil Z). rewrite app_nil_l.
    assert (Hp : peek s [60; 62] = (s, false)) by (rewrite peek_tight by done; destruct s; [done|by rewrite Hh]).
    destruct fuel; cbn [parseredirs]; by rewrite Hp.
  - cbn [fst snd] in *. set (rest := show_redirs rs ++ s).
    assert (He : show_redirs ((f, mode, fd) :: rs) ++ s = redir_op mode ++ word f ++ rest)
      by (unfold show_redirs, rest; cbn [map concat fst snd]; by rewrite <- !app_assoc).
    rewrite He in *. assert (Hrest : tight rest).
    { unfold rest. destruct rs as [|r rs]; [done|]. inversion Hg as [|? ? [G1 G2] ?]; subst.
      change (show_redirs (r :: rs)) with ((redir_op r.1.2 ++ word r.1.1) ++ show_redirs rs).
      rewrite <- !app_assoc. apply (redir_op_token _ _ _ G2). by apply word_tight. }
    destruct (redir_op_token mode fd (word f ++ rest) Hm) as (T1 & T2 & tok & w & T3 & T4); [by apply word_tight|].
    assert (Hne : exists c r, redir_op mode = c :: r) by (unfold redir_op; repeat case_bool; eauto).
    destruct Hne as (c & r & Hc). destruct fuel as [|fuel]; [rewrite Hc in Hl; cbn in Hl; lia|]. cbn [parseredirs].
    rewrite peek_tight by done. cbn [fst snd]. rewrite Hc in T1 |- *. cbn [head default from_option id app] in T1 |- *.
    rewrite T1. rewrite Hc in T3. cbn [app] in T3. rewrite T3, gettoken_good by done. change (97 =? 97) with true. cbn [negb]. rewrite T4.
    destruct (IH (rs0 ++ [((f ++ 32 :: rest, 32 :: rest), mode, fd)]) fuel) as (rs' & R1 & R2).
    { fold rest. rewrite Hc in Hl. rewrite !length_app in Hl. cbn in Hl. lia. }
    exists (((f ++ 32 :: rest, 32 :: rest), mode, fd) :: rs'). fold rest in R1.
    split; [etransitivity; [exact R1|by rewrite <- app_assoc]|].
    cbn [map]. unfold redir_text at 1. cbn [fst snd]. by rewrite text_good, R2.
Qed.

Lemma show_redirs_tight rs s : good_redirs rs -> tight s -> tight (show_redirs rs ++ s).
Proof.
  intros Hg Hs. destruct Hg as [|r rs [G1 G2] Hg]; [done|].
  change (show_redirs (r :: rs)) with ((redir_op r.1.2 ++ word r.1.1) ++ show_redirs rs).
  rewrite <- !app_assoc. apply (redir_op_token r.1.2 r.2 (word r.1.1 ++ show_redirs rs ++ s) G2). by apply word_tight.
Qed.

(** Does a simple command end here? *)
Lemma exec_loop_end fuel argv rs s :
  follows [124; 41; 38; 59] s -> exec_loop (S fuel) argv rs s = POk (redircmds (EXEC argv) rs) s.
Proof.
  intros Hf. cbn [exec_loop]. rewrite peek_tight by (by apply follows_tight). cbn [fst snd].
  destruct s as [|c s]; [done|]. cbn [follows] in Hf. by rewrite Hf.
Qed.

Lemma follows_no_redir s : follows [124; 41; 38; 59] s -> match s with [] => True | c :: _ => is_in [60; 62] c = false end.
Proof.
  destruct s as [|c s]; [done|]. cbn [follows]. unfold is_in. cbn [existsb]. intros H.
  rewrite !orb_true_iff, !Z.eqb_eq in H. by destruct H as [->|[->|[->|[->|H]]]].
Qed.

Lemma word_no_redir w s : good_word w -> match word w ++ s with [] => True | c :: _ => is_in [60; 62] c = false end.
Proof. intros [Hne HF]. destruct HF as [|c w Hc HF]; [done|]. cbn. by apply delimiter_split. Qed.

Lemma exec_loop_word fuel argv rs w s :
  good_word w -> tight s -> (S (length argv) < MAXARGS)%nat ->
  exec_loop (S fuel) argv rs (word w ++ s) =
  pbind (parseredirs (length s) rs s) (exec_loop fuel (argv ++ [(w ++ 32 :: s, 32 :: s)])).
Proof.
  intros Hw Hs Hn. assert (Hp : peek (word w ++ s) [124; 41; 38; 59] = (word w ++ s, false)).
  { rewrite peek_tight by (by apply word_tight). destruct Hw as [Hne HF]. destruct HF as [|c w Hc HF]; [done|].
    cbn. f_equal. by apply delimiter_split. }
  cbn [exec_loop]. rewrite Hp. cbn [fst snd negb]. rewrite gettoken_good by done. cbv iota zeta.
  change (97 =? 0) with false. change (negb (97 =? 97)) with false. cbv iota.
  match goal with |- context [(MAXARGS <=? ?n)%nat] => destruct (Nat.leb_spec MAXARGS n) as [Hl|_]; [|done] end.
  rewrite length_app in Hl. cbn in Hl. lia.
Qed.

Lemma exec_loop_show args w rs s fuel argv rs0 :
  good_word w -> Forall good_word args -> good_redirs rs -> follows [124; 41; 38; 59] s ->
  (length argv + S (length args) < MAXARGS)%nat ->
  let txt := concat (map word (w :: args)) ++ show_redirs rs ++ s in
  (length txt < fuel)%nat ->
  exists t, exec_loop fuel argv rs0 txt = POk t s /\
    cmd_map text t = redircmds (EXEC (map text argv ++ w :: args)) (map redir_text rs0 ++ rs).
Proof.
  intros Hw Ha. revert w Hw fuel argv rs0.
  induction Ha as [|w' args Hw' Ha IH]; intros w Hw fuel argv rs0 Hrs Hs Hn txt Hf;
    (destruct fuel as [|fuel]; [lia|]); pose proof (follows_tight s Hs) as Hts.
  - set (rest := show_redirs rs ++ s).
    assert (Htxt : txt = word w ++ rest) by (unfold txt, rest; cbn [map concat]; by rewrite app_nil_r).
    rewrite Htxt in *. rewrite exec_loop_word by (try (apply show_redirs_tight); cbn in Hn; done || lia).
    destruct (parseredirs_show rs rs0 s (length rest) Hrs Hts) as (rs' & R1 & R2); [by apply follows_no_redir|done|].
    fold rest in R1. rewrite R1. cbn [pbind]. unfold word in Hf. rewrite !length_app in Hf. cbn in Hf.
    destruct fuel as [|fuel]; [lia|]. rewrite exec_loop_end by done.
    eexists. split; [done|]. rewrite cmd_map_redircmds. cbn [cmd_map]. rewrite !map_app, R2. cbn [map]. by rewrite text_good.
  - set (rest := concat (map word (w' :: args)) ++ show_redirs rs ++ s).
    assert (Htxt : txt = word w ++ rest) by (unfold txt, rest; cbn [map concat]; by rewrite <- !app_assoc).
    assert (Hrest : exists r, rest = word w' ++ r) by (unfold rest; cbn [map concat]; rewrite <- !app_assoc; eauto).
    destruct Hrest as [r Hr]. assert (Htr : tight rest) by (rewrite Hr; by apply word_tight).
    rewrite Htxt in *. rewrite exec_loop_word by (cbn in Hn; done || lia).
    destruct (parseredirs_show [] rs0 rest (length rest)) as (rs' & R1 & R2); [constructor|done| |done|].
    { rewrite Hr. by apply word_no_redir. }
    change (show_redirs [] ++ rest) with rest in R1. rewrite R1. cbn [pbind]. destruct rs'; [|done]. rewrite app_nil_r.
    destruct (IH w' Hw' fuel (argv ++ [(w ++ 32 :: rest, 32 :: rest)]) rs0 Hrs Hs) as (t & T1 & T2).
    { rewrite length_app. cbn in Hn |- *. lia. }
    { fold rest. rewrite length_app in Hf. unfold word in Hf. rewrite length_app in Hf. cbn [length] in Hf. lia. }
    exists t. split; [done|]. rewrite T2, map_app. cbn [map]. by rewrite text_good, <- app_assoc.
Qed.

(** ** The levels of the grammar *)

Lemma show_tight c : expressible c -> forall lvl s, tight s -> tight (show lvl c ++ s).
Proof.
  induction c as [argv|c IH f m fd|l IHl r IHr|l IHl r IHr|c IH]; cbn [expressible show]; intros Hc lvl s Hs.
  - destruct Hc as [HF _]. destruct HF as [|w argv Hw HF]; [done|]. cbn [map concat]. rewrite <- app_assoc. by apply word_tight.
  - destruct Hc as (Hc & Hf & Hm). rewrite <- !app_assoc. apply IH; [done|].
    apply (redir_op_token m fd (word f ++ s) Hm). by apply word_tight.
  - destruct Hc as [Hl Hr]. destruct (3 <=? lvl)%nat; [by apply tight_cons|]. cbn [paren]. rewrite <- !app_assoc.
    apply IHl; [done|]. by apply tight_cons.
  - destruct Hc as [Hl Hr]. destruct (1 <=? lvl)%nat; [by apply tight_cons|]. cbn [paren]. rewrite <- !app_assoc.
    apply IHl; [done|]. by apply tight_cons.
  - destruct (2 <=? lvl)%nat; [by apply tight_cons|]. cbn [paren]. rewrite <- !app_assoc. apply IH; [done|]. by apply tight_cons.
Qed.

Definition amps (k : nat) : list Z := concat (replicate k [38; 32]).

Definition parsed (r : pres (cmd span)) (c : cmd (list Z)) (s : list Z) : Prop :=
  exists t, r = POk t s /\ cmd_map text t = c.

Definition ok_exec (c : cmd (list Z)) : Prop := forall rs s fuel,
  good_redirs rs -> follows [124; 41; 38; 59] s -> (4 * length (show 3 c ++ show_redirs rs ++ s) + 2 <= fuel)%nat ->
  parsed (parseexec fuel (show 3 c ++ show_redirs rs ++ s)) (redircmds c rs) s.
Definition ok_pipe (c : cmd (list Z)) : Prop := forall s fuel,
  follows [41; 38; 59] s -> (4 * length (show 2 c ++ s) + 3 <= fuel)%nat ->
  parsed (parsepipe fuel (show 2 c ++ s)) c s.
Definition ok_back (c : cmd (list Z)) : Prop := forall k s fuel,
  follows [41; 59] s -> (4 * length (show 1 c ++ amps k ++ s) + 3 <= fuel)%nat ->
  parsed (pbind (parsepipe fuel (show 1 c ++ amps k ++ s)) (fun c ps => back_loop (length ps) c ps)) (Nat.iter k BACK c) s.
Definition ok_line (c : cmd (list Z)) : Prop := forall s fuel,
  follows [41] s -> (4 * length (show 0 c ++ s) + 4 <= fuel)%nat ->
  parsed (parseline fuel (show 0 c ++ s)) c s.

Lemma follows_impl l l' s : follows l s -> incl l l' -> follows l' s.
Proof. destruct s as [|c s]; [done|]. cbn [follows]. apply is_in_incl. Qed.

Ltac incl_solve := let x := fresh in intros x; cbn; tauto.

Lemma peek_follow toks l s :
  follows l s -> incl l [124; 41; 38; 59] -> forallb (fun c => negb (is_in toks c)) l = true -> peek s toks = (s, false).
Proof.
  intros Hf Hi Hd. rewrite peek_tight by (apply follows_tight; by eapply follows_impl). destruct s as [|c s]; [done|].
  cbn [follows] in Hf. unfold is_in in Hf. apply existsb_exists in Hf as (x & Hin & ->%Z.eqb_eq).
  rewrite forallb_forall in Hd. specialize (Hd x Hin). apply negb_true_iff in Hd. by rewrite Hd.
Qed.

Lemma exec_to_pipe c : show 2 c = show 3 c -> ok_exec c -> ok_pipe c.
Proof.
  intros He H s fuel Hs Hf. rewrite He in *. destruct fuel as [|fuel]; [lia|].
  destruct (H [] s fuel) as (t & T1 & T2); [constructor|eapply follows_impl; [done|incl_solve]|cbn [show_redirs map concat app]; lia|].
  exists t. split; [|done]. cbn [parsepipe]. change (show_redirs [] ++ s) with s in T1. rewrite T1. cbn [pbind].
  rewrite (peek_follow [124] [41; 38; 59] s Hs) by (incl_solve || done). done.
Qed.

Lemma back_loop_amps k c s fuel :
  follows [41; 59] s -> (length (amps k ++ s) <= fuel)%nat -> back_loop fuel c (amps k ++ s) = POk (Nat.iter k BACK c) s.
Proof.
  intros Hs. revert c fuel. induction k as [|k IH]; intros c fuel Hf.
  - cbn [amps replicate concat app] in *. pose proof (peek_follow [38] [41; 59] s Hs ltac:(incl_solve) eq_refl) as Hp.
    destruct fuel; cbn [back_loop]; by rewrite Hp.
  - change (amps (S k) ++ s) with (38 :: 32 :: (amps k ++ s)) in *. destruct fuel as [|fuel]; [cbn in Hf; lia|].
    cbn [back_loop]. rewrite peek_tight by (by apply tight_cons). cbn [fst snd]. change (is_in [38] 38) with true.
    assert (Ht : tight (amps k ++ s)).
    { destruct k; [|by apply tight_cons]. apply follows_tight. by eapply follows_impl; [exact Hs|incl_solve]. }
    destruct (gettoken_symbol 38 (amps k ++ s) eq_refl Ht) as [w ->]. rewrite IH by (cbn in Hf; lia).
    by rewrite Nat.iter_succ_r.
Qed.

Lemma cmd_map_back k c : cmd_map text (Nat.iter k BACK c) = Nat.iter k BACK (cmd_map text c).
Proof. induction k as [|k IH]; [done|]. cbn [Nat.iter nat_rect cmd_map]. f_equal. exact IH. Qed.

Lemma pipe_to_back c : show 1 c = show 2 c -> ok_pipe c -> ok_back c.
Proof.
  intros He H k s fuel Hs Hf. rewrite He in *. destruct (H (amps k ++ s) fuel) as (t & T1 & T2); [|done|].
  { destruct k; [|done]. by eapply follows_impl; [exact Hs|incl_solve]. }
  rewrite T1. cbn [pbind]. rewrite back_loop_amps by done. eexists. split; [done|]. by rewrite cmd_map_back, T2.
Qed.

Lemma back_to_line c : show 0 c = show 1 c -> ok_back c -> ok_line c.
Proof.
  intros He H s fuel Hs Hf. rewrite He in *. destruct fuel as [|fuel]; [lia|].
  destruct (H 0%nat s fuel) as (t & T1 & T2); [by eapply follows_impl; [exact Hs|incl_solve]|cbn [amps replicate concat app]; lia|].
  change (amps 0 ++ s) with s in T1. exists t. split; [|done]. cbn [parseline].
  destruct (parsepipe fuel (show 1 c ++ s)) as [c0 ps| |]; [|done..]. cbn [pbind] in T1 |- *. rewrite T1. cbn [pbind].
  rewrite (peek_follow [59] [41] s Hs) by (incl_solve || done). done.
Qed.

Lemma line_to_exec c : expressible c -> show 3 c = paren true (show 0 c) -> ok_line c -> ok_exec c.
Proof.
  intros Hc He H rs s fuel Hrs Hs Hf. rewrite He in *. set (rest := show_redirs rs ++ s) in *.
  assert (Hts : tight s) by (by apply follows_tight). assert (Htr : tight rest) by (by apply show_redirs_tight).
  assert (Etxt : paren true (show 0 c) ++ rest = 40 :: 32 :: show 0 c ++ 41 :: 32 :: rest)
    by (cbn [paren app]; by rewrite <- app_assoc).
  rewrite Etxt in *. cbn [length] in Hf. do 2 (destruct fuel as [|fuel]; [lia|]).
  destruct (H (41 :: 32 :: rest) fuel) as (t & T1 & T2); [done|lia|]. cbn [parseexec].
  assert (Hp : peek (40 :: 32 :: show 0 c ++ 41 :: 32 :: rest) [40] = (40 :: 32 :: show 0 c ++ 41 :: 32 :: rest, true))
    by (rewrite peek_tight by (by apply tight_cons); done).
  rewrite Hp. cbn [fst snd]. cbn [parseblock]. rewrite Hp. cbn [fst snd negb].
  destruct (gettoken_symbol 40 (show 0 c ++ 41 :: 32 :: rest) eq_refl) as [w ->]; [apply show_tight; [done|by apply tight_cons]|].
  rewrite T1. cbn [pbind]. rewrite peek_tight by (by apply tight_cons). cbn [fst snd]. change (is_in [41] 41) with true. cbn [negb].
  destruct (gettoken_symbol 41 rest eq_refl Htr) as [w' ->].
  destruct (parseredirs_show rs [] s (length rest) Hrs Hts) as (rs' & R1 & R2); [by apply follows_no_redir|done|].
  fold rest in R1. rewrite R1. cbn [pbind app]. eexists. split; [done|]. by rewrite cmd_map_redircmds, T2, R2.
Qed.

Lemma ok_exec_EXEC argv : expressible (EXEC argv) -> ok_exec (EXEC argv).
Proof.
  intros [HF Hn] rs s fuel Hrs Hs Hf. destruct fuel as [|fuel]; [lia|]. cbn [show] in *. cbn [parseexec].
  assert (Hts : tight s) by (by apply follows_tight). assert (Htr : tight (show_redirs rs ++ s)) by (by apply show_redirs_tight).
  destruct HF as [|w argv Hw HF].
  - cbn [map concat app] in *. assert (Hp : peek (show_redirs rs ++ s) [40] = (show_redirs rs ++ s, false)).
    { rewrite peek_tight by done. destruct Hrs as [|r rs [G1 G2] Hrs].
      - change (show_redirs [] ++ s) with s. rewrite <- (peek_tight s [40]) by done.
        by rewrite (peek_follow [40] [124; 41; 38; 59] s Hs) by (incl_solve || done).
      - f_equal. destruct (redir_op_token r.1.2 r.2 s G2 Hts) as (T & _). unfold show_redirs. cbn [map concat].
        unfold redir_op in *. repeat case_bool; done. }
    rewrite Hp. cbn [fst snd].
    destruct (parseredirs_show rs [] s (length (show_redirs rs ++ s)) Hrs Hts) as (rs' & R1 & R2); [by apply follows_no_redir|done|].
    rewrite R1. cbn [pbind app]. rewrite exec_loop_end by done. eexists. split; [done|]. by rewrite cmd_map_redircmds, R2.
  - set (txt := concat (map word (w :: argv)) ++ show_redirs rs ++ s) in *.
    assert (Hr : exists r, txt = word w ++ r) by (unfold txt; cbn [map concat]; rewrite <- app_assoc; eauto).
    destruct Hr as [r Hr]. assert (Hp : peek txt [40] = (txt, false)).
    { rewrite peek_tight by (rewrite Hr; by apply word_tight). rewrite Hr. destruct Hw as [Hne HF'].
      destruct HF' as [|c w Hc HF']; [done|]. cbn. f_equal. by apply delimiter_split. }
    rewrite Hp. cbn [fst snd].
    destruct (parseredirs_show [] [] txt (length txt)) as (rs' & R1 & R2); [constructor|rewrite Hr; by apply word_tight|rewrite Hr; by apply word_no_redir|done|].
    change (show_redirs [] ++ txt) with txt in R1. rewrite R1. destruct rs'; [|done]. cbn [pbind app].
    destruct (exec_loop_show argv w rs s (S (length txt)) [] [] Hw HF Hrs Hs) as (t & T1 & T2); [cbn in Hn |- *; lia|fold txt; lia|].
    by exists t.
Qed.

Lemma ok_exec_REDIR c f mode fd :
  expressible (REDIR c f mode fd) -> ok_exec c -> ok_exec (REDIR c f mode fd).
Proof.
  intros (_ & Hf & Hm) H rs s fuel Hrs Hs Hl. specialize (H ((f, mode, fd) :: rs) s fuel).
  assert (E : show 3 c ++ show_redirs ((f, mode, fd) :: rs) ++ s = show 3 (REDIR c f mode fd) ++ show_redirs rs ++ s)
    by (unfold show_redirs; cbn [show map concat fst snd]; by rewrite <- !app_assoc).
  rewrite E in H. apply H; [by constructor|done|done].
Qed.

Lemma ok_pipe_PIPE l r : expressible r -> ok_exec l -> ok_pipe r -> ok_pipe (PIPE l r).
Proof.
  intros Er Hl Hr s fuel Hs Hf. assert (Hts : tight s) by (apply follows_tight; by eapply follows_impl; [exact Hs|incl_solve]).
  assert (E : show 2 (PIPE l r) ++ s = show 3 l ++ show_redirs [] ++ 124 :: 32 :: show 2 r ++ s)
    by (cbn [show Nat.leb paren]; by rewrite <- !app_assoc).
  rewrite E in *. destruct fuel as [|fuel]; [lia|]. destruct (Hl [] (124 :: 32 :: show 2 r ++ s) fuel) as (t & T1 & T2); [constructor|done|lia|].
  cbn [parsepipe]. rewrite T1. cbn [pbind]. rewrite peek_tight by (by apply tight_cons). cbn [fst snd]. change (is_in [124] 124) with true.
  cbv iota. destruct (gettoken_symbol 124 (show 2 r ++ s) eq_refl) as [w ->]; [by apply show_tight|].
  destruct (Hr s fuel Hs) as (t' & T3 & T4); [rewrite !length_app in Hf; cbn in Hf; rewrite length_app in *; lia|].
  rewrite T3. cbn [pbind]. eexists. split; [done|]. cbn [cmd_map]. by rewrite T2, T4.
Qed.

Lemma ok_line_LIST l r : expressible r -> ok_back l -> ok_line r -> ok_line (LIST l r).
Proof.
  intros Er Hl Hr s fuel Hs Hf. assert (Hts : tight s) by (apply follows_tight; by eapply follows_impl; [exact Hs|incl_solve]).
  assert (E : show 0 (LIST l r) ++ s = show 1 l ++ amps 0 ++ 59 :: 32 :: show 0 r ++ s)
    by (cbn [show Nat.leb paren]; by rewrite <- !app_assoc).
  rewrite E in *. destruct fuel as [|fuel]; [lia|]. destruct (Hl 0%nat (59 :: 32 :: show 0 r ++ s) fuel) as (t & T1 & T2); [done|lia|].
  cbn [parseline]. destruct (parsepipe fuel _) as [c0 ps| |]; [|done..]. cbn [pbind] in T1 |- *. rewrite T1. cbn [pbind].
  rewrite peek_tight by (by apply tight_cons). cbn [fst snd]. change (is_in [59] 59) with true.
  cbv iota. destruct (gettoken_symbol 59 (show 0 r ++ s) eq_refl) as [w ->]; [by apply show_tight|].
  destruct (Hr s fuel Hs) as (t' & T3 & T4); [rewrite !length_app in Hf; cbn in Hf; rewrite length_app in *; lia|].
  rewrite T3. cbn [pbind]. eexists. split; [done|]. cbn [cmd_map]. by rewrite T2, T4.
Qed.

Lemma ok_back_BACK c : ok_back c -> ok_back (BACK c).
Proof.
  intros H k s fuel Hs Hf. specialize (H (S k) s fuel Hs).
  assert (E : show 1 (BACK c) ++ amps k ++ s = show 1 c ++ amps (S k) ++ s)
    by (cbn [show Nat.leb paren]; by rewrite <- !app_assoc).
  rewrite <- E in H. rewrite Nat.iter_succ_r in H. by apply H.
Qed.

Lemma ok_all c : expressible c -> ok_exec c /\ ok_pipe c /\ ok_back c /\ ok_line c.
Proof.
  induction c as [argv|c IH f m fd|l IHl r IHr|l IHl r IHr|c IH]; intros Hc.
  - assert (H1 : ok_exec (EXEC argv)) by (by apply ok_exec_EXEC).
    assert (H2 : ok_pipe (EXEC argv)) by (by apply exec_to_pipe). assert (H3 : ok_back (EXEC argv)) by (by apply pipe_to_back).
    split; [done|]. split; [done|]. split; [done|]. by apply back_to_line.
  - assert (H1 : ok_exec (REDIR c f m fd)) by (apply ok_exec_REDIR; [done|]; apply IH; apply Hc).
    assert (H2 : ok_pipe (REDIR c f m fd)) by (by apply exec_to_pipe). assert (H3 : ok_back (REDIR c f m fd)) by (by apply pipe_to_back).
    split; [done|]. split; [done|]. split; [done|]. by apply back_to_line.
  - destruct Hc as [Hl Hr]. destruct (IHl Hl) as (E1 & _). destruct (IHr Hr) as (_ & P2 & _).
    assert (H2 : ok_pipe (PIPE l r)) by (by apply ok_pipe_PIPE). assert (H3 : ok_back (PIPE l r)) by (by apply pipe_to_back).
    assert (H4 : ok_line (PIPE l r)) by (by apply back_to_line). split; [by apply line_to_exec|]. done.
  - destruct Hc as [Hl Hr]. destruct (IHl Hl) as (_ & _ & B1 & _). destruct (IHr Hr) as (_ & _ & _ & L2).
    assert (H4 : ok_line (LIST l r)) by (by apply ok_line_LIST).
    assert (H1 : ok_exec (LIST l r)) by (by apply line_to_exec). assert (H2 : ok_pipe (LIST l r)) by (by apply exec_to_pipe).
    split; [done|]. split; [done|]. split; [by apply pipe_to_back|done].
  - destruct (IH Hc) as (_ & _ & B1 & _). assert (H3 := ok_back_BACK c B1).
    assert (H4 : ok_line (BACK c)) by (by apply back_to_line). assert (H1 : ok_exec (BACK c)) by (by apply line_to_exec).
    split; [done|]. split; [by apply exec_to_pipe|done].
Qed.

(** The words of a text without NULs. *)
Definition nul_free (c : cmd (list Z)) : Prop := words (fun w => 0 ∉ w) c.

Lemma not_nul_app (l1 l2 : list Z) : 0 ∉ l1 -> 0 ∉ l2 -> 0 ∉ l1 ++ l2.
Proof. rewrite not_elem_of_app. auto. Qed.

Lemma not_nul_paren b s : 0 ∉ s -> 0 ∉ paren b s.
Proof. intros H. destruct b; [|done]. cbn [paren]. repeat apply not_nul_app; try done; rewrite !not_elem_of_cons; split_and!; try done; apply not_elem_of_nil. Qed.

Lemma not_nul_word w : 0 ∉ w -> 0 ∉ word w.
Proof. intros H. apply not_nul_app; [done|]. rewrite not_elem_of_cons. split; [done|apply not_elem_of_nil]. Qed.

Lemma show_nul_free lvl c : nul_free c -> 0 ∉ show lvl c.
Proof.
  assert (H2 : forall a, a <> 0 -> 0 ∉ [a; 32]) by (intros a Ha; rewrite !not_elem_of_cons; split_and!; [done..|apply not_elem_of_nil]).
  unfold nul_free. revert lvl. induction c as [argv|c IH f m fd|l IHl r IHr|l IHl r IHr|c IH]; intros lvl; cbn [words show].
  - induction 1 as [|w l Hw Hl IH]; [apply not_elem_of_nil|]. cbn [map concat]. apply not_nul_app; [by apply not_nul_word|done].
  - intros [Hc Hf]. apply not_nul_app; [by apply IH|]. apply not_nul_app; [|by apply not_nul_word].
    unfold redir_op. destruct (_ =? _); [by apply H2|]. destruct (_ =? _); [by apply H2|].
    rewrite !not_elem_of_cons. split_and!; try done. apply not_elem_of_nil.
  - intros [Hl Hr]. apply not_nul_paren. apply not_nul_app; [by apply IHl|]. apply not_nul_app; [by apply H2|by apply IHr].
  - intros [Hl Hr]. apply not_nul_paren. apply not_nul_app; [by apply IHl|]. apply not_nul_app; [by apply H2|by apply IHr].
  - intros Hc. apply not_nul_paren. apply not_nul_app; [by apply IH|by apply H2].
Qed.

Lemma cmd_map_ext {V W : Set} (f g : V -> W) c : words (fun w => f w = g w) c -> cmd_map f c = cmd_map g c.
Proof.
  induction c as [argv|c IH file m fd|l IHl r IHr|l IHl r IHr|c IH]; cbn [words cmd_map].
  - intros H. f_equal. induction H as [|w l Hw Hl IH]; [done|]. cbn. by rewrite Hw, IH.
  - intros [H1 H2]. by rewrite IH, H2.
  - intros [H1 H2]. by rewrite IHl, IHr.
  - intros [H1 H2]. by rewrite IHl, IHr.
  - intros H. by rewrite IH.
Qed.

(** The shell's parser inverts printing.  Every command tree whose commands
    have fewer than MAXARGS words, with words that contain no blanks and no
    shell symbols and with one of the three kinds of redirection, has a text
    that parsecmd() reads back as exactly that tree: sequences, pipelines,
    background commands, redirections and parentheses nest as written. *)
Lemma parse_show c :
  expressible c -> nul_free c ->
  exists t buf, parsecmd (show 0 c) = POk (t, buf) [] /\ cmd_map (fun w => string_at buf w.1) t = c.
Proof.
  intros Hc Hz. destruct (ok_all c Hc) as (_ & _ & _ & HL). set (line := show 0 c) in *.
  destruct (HL [] (parse_fuel (length line))) as (t & T1 & T2); [done|fold line; rewrite app_nil_r; unfold parse_fuel; lia|].
  fold line in T1. rewrite app_nil_r in T1. exists t, (nulterminate t (line ++ [0])). split; [unfold parsecmd; by rewrite T1|].
  destruct (parser_ok line (parse_fuel (length line)) line) as [Hp _]; [done|]. specialize (Hp ltac:(unfold parse_fuel; lia)).
  rewrite T1 in Hp. destruct Hp as [[Hw _] _]. etransitivity; [|exact T2]. apply cmd_map_ext.
  eapply words_impl; [|apply (strings_ok line t); [by apply show_nul_free|exact Hw]]. cbn. tauto.
Qed.
