(* ===== verification/ShRun.v ===== *)
(** * user/sh.c: running commands

    runcmd() as the tree of the processes it makes, with the descriptor table
    of each.  The system calls it uses act on the table as sysfile.c does:
    close() frees a slot, and open(), dup() and pipe() take the lowest free
    ones.  Whether fork(), pipe() and open() succeed is a parameter. *)

From S2P Require Import Prelude CString Printf Ulib Sh ShPrint.

(** ** Descriptors *)

(** A pipe is named by the place of its command in the tree. *)
Definition place : Set := list bool.

(** What a descriptor is open on. *)
Inductive object : Set :=
| Inherited (n : nat)
| File (name : list Z) (mode : Z)
| ReadEnd (p : place)
| WriteEnd (p : place).

Definition OFILES : nat := 16.

Abbreviation table := (list (option object)).

(** The lowest free slot, as in fdalloc(). *)
Fixpoint lowest (k : nat) (t : table) : option nat :=
  match t with
  | [] => None
  | None :: _ => Some k
  | Some _ :: t => lowest (S k) t
  end.

Definition install (o : object) (t : table) : option (nat * table) :=
  match lowest 0 t with
  | Some fd => Some (fd, <[fd := Some o]> t)
  | None => None
  end.

Definition close (fd : nat) (t : table) : table := <[fd := None]> t.

(** dup() fails, and changes nothing, on a descriptor that is not open or
    when the table is full. *)
Definition dup (fd : nat) (t : table) : table :=
  match t !! fd with
  | Some (Some o) => match install o t with Some (_, t') => t' | None => t end
  | _ => t
  end.

(** pipe(p): p[0], p[1] and the table. *)
Definition open_pipe (p : place) (t : table) : option (nat * nat * table) :=
  match install (ReadEnd p) t with
  | Some (p0, t) =>
      match install (WriteEnd p) t with
      | Some (p1, t) => Some (p0, p1, t)
      | None => None
      end
  | None => None
  end.

(** ** Processes *)

Inductive ptree : Set :=
| Exit (status : Z)
| Exec (argv : list (list Z)) (t : table)   (* exec(); exit(0) should it return *)
| Fork (child parent : ptree)
| Wait (t : table) (next : ptree).           (* wait(0), with what is open meanwhile *)

Section run.
(** Do fork(), pipe() and open() succeed? *)
Variable fork_ok : place -> bool.
Variable pipe_ok : place -> bool.
Variable open_ok : list Z -> Z -> bool.

(** fork1(): panic("fork") exits with 1.  A child is named by its place. *)
Definition fork1 (p : place) (child parent : ptree) : ptree := if fork_ok p then Fork child parent else Exit 1.

Fixpoint runcmd (c : cmd (list Z)) (p : place) (t : table) : ptree :=
  match c with
  | EXEC argv =>
      match argv with
      | [] => Exit 1
      | _ => Exec argv t
      end
  | REDIR c file mode fd =>
      let t := close (Z.to_nat fd) t in
      if open_ok file mode then
        match install (File file mode) t with
        | Some (_, t) => runcmd c p t
        | None => Exit 1
        end
      else Exit 1
  | LIST l r =>
      fork1 (true :: p) (runcmd l (true :: p) t) (Wait t (runcmd r (false :: p) t))
  | PIPE l r =>
      match (if pipe_ok p then open_pipe p t else None) with
      | None => Exit 1
      | Some (p0, p1, t) =>
          fork1 (true :: p)
            (runcmd l (true :: p) (close p1 (close p0 (dup p1 (close 1 t)))))
            (fork1 (false :: p)
               (runcmd r (false :: p) (close p1 (close p0 (dup p0 (close 0 t)))))
               (let t := close p1 (close p0 t) in Wait t (Wait t (Exit 0))))
      end
  | BACK c => fork1 (true :: p) (runcmd c (true :: p) t) (Exit 0)
  end.

(** The child of main(): runcmd(parsecmd(buf)), where a syntax error is
    panic(), which exits with 1. *)
Definition run_line (line : list Z) (t : table) : option ptree :=
  match parsecmd line with
  | POk (c, buf) _ => Some (runcmd (cmd_map (fun w => string_at buf w.1) c) [] t)
  | PPanic _ => Some (Exit 1)
  | PFuel => None
  end.

(** ** The programs that are run *)

Fixpoint execs (r : ptree) : list (list (list Z) * table) :=
  match r with
  | Exit _ => []
  | Exec argv t => [(argv, t)]
  | Fork c p => execs c ++ execs p
  | Wait _ n => execs n
  end.

(** The descriptors of the processes that wait. *)
Fixpoint waits (r : ptree) : list table :=
  match r with
  | Exit _ | Exec _ _ => []
  | Fork c p => waits c ++ waits p
  | Wait t n => t :: waits n
  end.

(** What the commands mean: each program with its standard input, output and
    error. *)
Fixpoint wiring (c : cmd (list Z)) (p : place) (i o e : object) : list (list (list Z) * (object * object * object)) :=
  match c with
  | EXEC argv => match argv with [] => [] | _ => [(argv, (i, o, e))] end
  | REDIR c file mode fd =>
      if open_ok file mode then
        if fd =? 0 then wiring c p (File file mode) o e else wiring c p i (File file mode) e
      else []
  | LIST l r => wiring l (true :: p) i o e ++ wiring r (false :: p) i o e
  | PIPE l r => wiring l (true :: p) i (WriteEnd p) e ++ wiring r (false :: p) (ReadEnd p) o e
  | BACK c => wiring c (true :: p) i o e
  end.

(** A table with just the three standard descriptors. *)
Definition standard (i o e : object) : table := Some i :: Some o :: Some e :: replicate (OFILES - 3) None.

Lemma standard_pipe p i o e :
  open_pipe p (standard i o e) =
  Some (3%nat, 4%nat, Some i :: Some o :: Some e :: Some (ReadEnd p) :: Some (WriteEnd p) :: replicate (OFILES - 5) None).
Proof using. done. Qed.

Lemma runcmd_wiring c p i o e :
  expressible c -> (forall q, fork_ok q = true) -> (forall q, pipe_ok q = true) ->
  execs (runcmd c p (standard i o e)) =
    map (fun x => (x.1, standard x.2.1.1 x.2.1.2 x.2.2)) (wiring c p i o e) /\
  Forall (fun t => exists i' o', t = standard i' o' e) (waits (runcmd c p (standard i o e))).
Proof using.
  intros Hc Hf Hp. revert p i o.
  induction c as [argv|c IH f m fd|l IHl r IHr|l IHl r IHr|c IH]; intros p i o; cbn [runcmd wiring]; unfold fork1; rewrite ?Hf.
  - destruct argv; split; try done; constructor.
  - destruct Hc as (Hc & _ & Hg). destruct (open_ok f m); [|split; [done|constructor]].
    assert (Hfd : fd = 0 \/ fd = 1) by (destruct Hg as [[_ ->]|[[_ ->]|[_ ->]]]; auto).
    destruct Hfd as [-> | ->]; cbn [Z.eqb]; exact (IH Hc p _ _).
  - destruct Hc as [Hl Hr]. rewrite Hp, standard_pipe. cbn [execs waits]. rewrite app_nil_r, map_app.
    destruct (IHl Hl (true :: p) i (WriteEnd p)) as [El Wl], (IHr Hr (false :: p) (ReadEnd p) o) as [Er Wr].
    rewrite <- El, <- Er. split; [done|]. apply Forall_app. split; [exact Wl|]. apply Forall_app. split; [exact Wr|].
    constructor; [by exists i, o|]. constructor; [by exists i, o|constructor].
  - destruct Hc as [Hl Hr]. cbn [execs waits]. destruct (IHl Hl (true :: p) i o) as [El Wl], (IHr Hr (false :: p) i o) as [Er Wr].
    rewrite map_app, <- El, <- Er. split; [done|]. apply Forall_app. split; [exact Wl|]. constructor; [by exists i, o|exact Wr].
  - cbn [execs waits]. rewrite !app_nil_r. exact (IH Hc (true :: p) i o).
Qed.

(** C11: a line of the shell runs its programs wired as written and with
    nothing else open.  Take any command tree of the shell's grammar and its
    text: started with just the descriptors 0, 1 and 2, and when fork() and
    pipe() succeed, the child that parses and runs the line executes exactly
    the programs of the tree, in order, with their arguments; each gets
    exactly three open descriptors, with the input and output that
    redirections and pipes give it.  No program, and no process that waits
    for one, holds a stray end of a pipe, so that a reader sees the end of
    its input when the writer exits. *)
Theorem shell_line_wiring c i o e :
  expressible c -> nul_free c -> (forall q, fork_ok q = true) -> (forall q, pipe_ok q = true) ->
  exists r, run_line (show 0 c) (standard i o e) = Some r /\
    execs r = map (fun x => (x.1, standard x.2.1.1 x.2.1.2 x.2.2)) (wiring c [] i o e) /\
    Forall (fun t => exists i' o', t = standard i' o' e) (waits r).
Proof using.
  intros Hc Hz Hf Hp. destruct (parse_show c Hc Hz) as (t & buf & E1 & E2). unfold run_line. rewrite E1, E2.
  eexists. split; [done|]. by apply runcmd_wiring.
Qed.
End run.

(** ** Reading commands *)

(** while((fd = open("console", O_RDWR)) >= 0): in main(). *)
Fixpoint open_console (fuel : nat) (console : object) (t : table) : table :=
  match install console t, fuel with
  | Some (fd, t'), S fuel => if (3 <=? fd)%nat then close fd t' else open_console fuel console t'
  | _, _ => t
  end.

(** Of a table with none, one, two or three of them open, the standard
    descriptors and no others are open afterwards. *)
Lemma open_console_standard i o e console (k : nat) :
  let have (n : nat) (x : object) := if (n <? k)%nat then x else console in
  (k <= 3)%nat ->
  open_console 4 console (take k [Some i; Some o; Some e] ++ replicate (OFILES - k) None) =
  standard (have 0%nat i) (have 1%nat o) (have 2%nat e).
Proof. intros have Hk. unfold have. do 4 (destruct k as [|k]; [done|]). lia. Qed.

(** A command line, or [None] at the end of the input. *)
Definition getcmd (i : input) : option (list Z * input) :=
  let r := gets 100 i in
  if deref r.1 =? 0 then None else Some r.

(** What main() does with a line: chdir() itself, or a child that runs it. *)
Inductive action : Set := Chdir (dir : list Z) | Child (line : list Z).

Definition sh_action (buf : list Z) : action :=
  let s := until_nul buf in
  if (default 0 (buf !! 0%nat) =? 99) && (default 0 (buf !! 1%nat) =? 100) && (default 0 (buf !! 2%nat) =? 32)
  then Chdir (drop 3 (take (length s - 1) s))
  else Child s.

(** while(getcmd(buf, sizeof(buf)) >= 0): every line takes a character. *)
Fixpoint sh_loop (fuel : nat) (i : input) : option (list action) :=
  match getcmd i with
  | None => Some []
  | Some (buf, i) =>
      match fuel with
      | O => None
      | S fuel =>
          match sh_loop fuel i with
          | Some l => Some (sh_action buf :: l)
          | None => None
          end
      end
  end.

Definition sh_main (i : input) : option (list action) := sh_loop (length (concat i)) i.

(** The loop ends: every command line takes a character of the input. *)
Lemma gets_loop_concat k i : concat i = (gets_loop k i).1 ++ concat (gets_loop k i).2.
Proof.
  revert i. induction k as [|k IH]; intros i; cbn [gets_loop]; [done|].
  destruct (uread_concat 1 i) as [Hc Hl]; [lia|]. destruct (uread 1 i) as [[|c r] i']; cbn [fst snd] in *; [done|].
  destruct r; [|cbn in Hl; lia]. destruct ((c =? 10) || (c =? 13)); [done|]. cbn [fst snd]. rewrite Hc, (IH i'). done.
Qed.

Lemma sh_loop_ends fuel i : (length (concat i) <= fuel)%nat -> sh_loop fuel i <> None.
Proof.
  revert i. induction fuel as [|fuel IH]; intros i Hf; cbn [sh_loop]; unfold getcmd;
    pose proof (gets_loop_concat (Z.to_nat (100 - 1)) i) as Hc; fold (gets 100 i) in Hc;
    destruct (gets 100 i) as [[|c buf] i']; cbn [fst snd deref head default from_option id] in *; try done;
    (destruct (c =? 0); [done|]); apply (f_equal length) in Hc; rewrite length_app in Hc; cbn in Hc.
  - lia.
  - specialize (IH i' ltac:(lia)). by destruct (sh_loop fuel i').
Qed.

(** sort < in | uniq > out *)
Lemma shell_line_wiring_witness :
  let c := PIPE (REDIR (EXEC [[115]]) [105] O_RDONLY 0) (REDIR (EXEC [[117]]) [111] (Z.lor (Z.lor O_WRONLY O_CREATE) O_TRUNC) 1) in
  exists r, run_line (fun _ => true) (fun _ => true) (fun _ _ => true) (show 0 c) (standard (Inherited 0) (Inherited 1) (Inherited 2)) = Some r /\
  execs r =
  [([[115]], standard (File [105] O_RDONLY) (WriteEnd []) (Inherited 2));
   ([[117]], standard (ReadEnd []) (File [111] (Z.lor (Z.lor O_WRONLY O_CREATE) O_TRUNC)) (Inherited 2))] /\
  Forall (fun t => exists i' o', t = standard i' o' (Inherited 2)) (waits r).
Proof.
  cbv zeta. apply shell_line_wiring; [| |done|done].
  - cbn [expressible]. unfold good_redir, MAXARGS. repeat split; try done; try (cbn; lia);
      try (apply Forall_singleton; split; [done|]); try (by apply Forall_singleton); auto.
  - assert (H : forall a, a <> 0 -> 0 ∉ [a]) by (intros a Ha; rewrite not_elem_of_cons; split; [done|apply not_elem_of_nil]).
    split; (split; [apply Forall_cons; split; [|constructor]|]); by apply H.
Defined.
