(* ===== verification/Utils.v ===== *)
(** * The small user programs: cat, wc, tail, diff, fact, add

    Each main() takes its arguments after argv[0] and what open() delivers,
    and gives what is written to the standard output and the exit status;
    [None] is undefined behaviour (the overflow of an int). *)

From S2P Require Import Prelude CString Printf Ulib Grep.

(** while((n = read(fd, buf, n)) > 0): the body works on the bytes read. *)
Fixpoint while_read {S : Type} (fuel n : nat) (body : list Z -> S -> S) (s : S) (fd : input) : option S :=
  let r := uread n fd in
  match r.1 with
  | [] => Some s
  | _ =>
      match fuel with
      | O => None
      | Datatypes.S fuel => while_read fuel n body (body r.1 s) r.2
      end
  end.

(** Every read() but the last takes a byte. *)
Definition reading {S : Type} (n : nat) (body : list Z -> S -> S) (s : S) (fd : input) : option S :=
  while_read (length (concat fd)) n body s fd.

(** A program whose argument is "?", with the text it prints. *)
Definition is_help (args : list (list Z)) : bool :=
  match args with
  | [a] => (deref a =? 63) && (deref (tail a) =? 0)
  | _ => false
  end.

(** ** cat *)

(** cat(fd) where no write() fails. *)
Definition cat (fd : input) : option (list Z) := reading 512 (fun c out => out ++ c) [] fd.

Section cat_main.
Variable open : list Z -> option input.

Fixpoint cat_files (args : list (list Z)) : option (list Z * Z) :=
  match args with
  | [] => Some ([], 0)
  | f :: args =>
      match open f with
      | None => Some ([], 1)
      | Some fd =>
          match cat fd, cat_files args with
          | Some out, Some (out', st) => Some (out ++ out', st)
          | _, _ => None
          end
      end
  end.

Definition cat_main (args : list (list Z)) (stdin : input) : option (list Z * Z) :=
  match args with
  | [] => match cat stdin with Some out => Some (out, 0) | None => None end
  | _ => cat_files args
  end.
End cat_main.

(** ** wc *)

Record counts : Set := mkCounts { n_lines : Z; n_words : Z; n_chars : Z; inword : bool; longest : Z; curlen : Z }.

Definition blank (c : Z) : bool := (c =? 32) || (c =? 13) || (c =? 9) || (c =? 10) || (c =? 11).

(** The body of the for loop. *)
Definition wc_char (k : counts) (c : Z) : counts :=
  let newline := c =? 10 in
  let start := negb (blank c) && negb (inword k) in
  mkCounts
    (if newline then n_lines k + 1 else n_lines k)
    (if start then n_words k + 1 else n_words k)
    (n_chars k + 1)
    (negb (blank c))
    (if newline && (longest k <? curlen k) then curlen k else longest k)
    (if newline then 0 else curlen k + 1).

(** Lines, words, characters and the longest line. *)
Definition wc_count (fd : input) : option (Z * Z * Z * Z) :=
  match reading 512 (fun buf k => fold_left wc_char buf k) (mkCounts 0 0 0 false 0 0) fd with
  | Some k => Some (n_lines k, n_words k, n_chars k, if longest k <? curlen k then curlen k else longest k)
  | None => None
  end.

Record flags : Set := mkFlags { f_lines : bool; f_words : bool; f_chars : bool; f_longest : bool }.

Definition no_flag (f : flags) : bool := negb (f_lines f || f_words f || f_chars f || f_longest f).

Definition wc_show (f : flags) (t : Z * Z * Z * Z) (name : list Z) : option (list Z) :=
  let '(l, w, c, g) := t in
  let num (b : bool) (v : Z) (rest : option (list Z)) :=
    if b then opt_app (vprintf (cstr "%d ") [AWord v]) rest else rest in
  num (f_lines f) l (num (f_words f) w (num (f_chars f) c (num (f_longest f) g (vprintf (cstr "%s" ++ [10]) [AStr (Some name)])))).

(** What wc() prints for a file, and the totals. *)
Definition wc (f : flags) (fd : input) (name : list Z) (tot : Z * Z * Z * Z) : option (list Z * (Z * Z * Z * Z)) :=
  match wc_count fd with
  | Some (l, w, c, g) =>
      let '(tl, tw, tc, tg) := tot in
      match wc_show (if no_flag f then mkFlags true true true true else f) (l, w, c, g) name with
      | Some out => Some (out, (tl + l, tw + w, tc + c, if tg <? g then g else tg))
      | None => None
      end
  | None => None
  end.

(** for(i=1; (c=argv[1][i])!='\0'; i++) *)
Fixpoint parse_flags (s : list Z) (f : flags) : flags :=
  match s with
  | [] => f
  | c :: s =>
      if c =? 0 then f
      else parse_flags s
        (if c =? 108 then mkFlags true (f_words f) (f_chars f) (f_longest f)
         else if c =? 119 then mkFlags (f_lines f) true (f_chars f) (f_longest f)
         else if c =? 99 then mkFlags (f_lines f) (f_words f) true (f_longest f)
         else if c =? 76 then mkFlags (f_lines f) (f_words f) (f_chars f) true
         else f)
  end.

Section wc_main.
Variable open : list Z -> option input.

(** for(; i<argc; i++), and the line with the totals of several files. *)
Fixpoint wc_files (f : flags) (args : list (list Z)) (tot : Z * Z * Z * Z) (n : nat) : option (list Z * Z) :=
  match args with
  | [] =>
      if (1 <? n)%nat then
        match wc_show (if no_flag f then mkFlags true true true false else f) tot (cstr "total") with
        | Some out => Some (out, 0)
        | None => None
        end
      else Some ([], 0)
  | a :: args =>
      match open a with
      | None => Some (cstr "wc: cannot open " ++ a ++ [10], 1)
      | Some fd =>
          match wc f fd a tot with
          | None => None
          | Some (out, tot) =>
              match wc_files f args tot (S n) with
              | Some (out', st) => Some (out ++ out', st)
              | None => None
              end
          end
      end
  end.

Definition wc_main (args : list (list Z)) : option (list Z * Z) :=
  let none := mkFlags false false false false in
  let '(f, args) :=
    match args with
    | a :: rest => if deref a =? 45 then (parse_flags (tail a) none, rest) else (none, args)
    | [] => (none, [])
    end in
  match args with
  | [] => Some (cstr "No files given" ++ [10], 0)
  | _ => wc_files f args (0, 0, 0, 0) 0
  end.
End wc_main.

(** ** tail *)

Definition MAX_LINES : nat := 20.
Definition MAX_LINE : nat := 512.

(** lines[][], total and pos. *)
Record tailstate : Set := mkTail { t_lines : list (list Z); t_total : nat; t_pos : nat }.

(** lines[total % MAX_LINES][pos] = c; *)
Definition t_store (c : Z) (t : tailstate) : list (list Z) :=
  alter (fun l => <[t_pos t := c]> l) (t_total t mod MAX_LINES)%nat (t_lines t).

(** The body of the loop. *)
Definition tail_char (c : Z) (t : tailstate) : tailstate :=
  if c =? 10 then mkTail (t_store 0 t) (S (t_total t)) 0
  else if (t_pos t <? MAX_LINE - 1)%nat then mkTail (t_store c t) (t_total t) (S (t_pos t))
  else t.

(** The last line without newline. *)
Definition tail_end (t : tailstate) : tailstate :=
  if (0 <? t_pos t)%nat then mkTail (t_store 0 t) (S (t_total t)) (t_pos t) else t.

(** for (int i = start; i < total; i++) *)
Definition tail_print (t : tailstate) (n : nat) : list Z :=
  let start := if (n <? t_total t)%nat then (t_total t - n)%nat else 0%nat in
  concat (map (fun i => until_nul (default [] (t_lines t !! (i mod MAX_LINES)%nat)) ++ [10]) (seq start (t_total t - start))).

(** tail(fd, n), on the zeroed array. *)
Definition tail_fd (fd : input) (n : nat) : option (list Z) :=
  match reading 1 (fun b t => tail_char (deref b) t) (mkTail (replicate MAX_LINES (replicate MAX_LINE 0)) 0 0) fd with
  | Some t => Some (tail_print (tail_end t) n)
  | None => None
  end.

Definition text_lines (l : list string) : list Z := concat (map (fun s => cstr s ++ [10]) l).

Definition tail_help : list Z := text_lines
  ["Usage: tail [-n number] [file]"; "Print the last lines of a file or stdin."] ++ [10] ++ text_lines ["Options:";
   "  -n number   Number of lines to print (default 10)"; "  ? / -h / --help   Show this help message"] ++ [10] ++ text_lines ["Examples:";
   "  tail file.txt          # print last 10 lines"; "  tail -n 5 file.txt     # print last 5 lines";
   "  tail                   # read from stdin"].

Definition asks_help (args : list (list Z)) : bool :=
  match args with
  | [a] => (strcmp a (cstr "?") =? 0) || (strcmp a (cstr "-h") =? 0) || (strcmp a (cstr "--help") =? 0)
  | _ => false
  end.

(** n and the remaining arguments after the check for -n. *)
Definition tail_count (args : list (list Z)) : option (Z * list (list Z)) :=
  match args with
  | a :: b :: rest =>
      if (deref a =? 45) && (deref (tail a) =? 110) then
        match atoi b with Some n => Some (n, rest) | None => None end
      else Some (10, args)
  | _ => Some (10, args)
  end.

Definition tail_main (open : list Z -> option input) (args : list (list Z)) (stdin : input) : option (list Z * Z) :=
  if asks_help args then Some (tail_help, 0)
  else
    let run fd n := match tail_fd fd (Z.to_nat n) with Some out => Some (out, 0) | None => None end in
    match tail_count args with
    | None => None
    | Some (n, []) => run stdin n
    | Some (n, a :: _) =>
        match open a with
        | None => Some (cstr "tail: cannot open " ++ a ++ [10], 1)
        | Some fd => run fd n
        end
    end.

(** ** diff *)

Definition MAXLINE : nat := 512.

(** while (read(fd, &c, 1) == 1): the characters stored in buf before the
    NUL, whose number is the result; [k] is how many more there is room
    for. *)
Fixpoint readline_loop (k : nat) (fd : input) : list Z * input :=
  match k with
  | O => ([], fd)
  | S k =>
      let r := uread 1 fd in
      match r.1 with
      | [] => ([], r.2)
      | c :: _ =>
          if c =? 10 then ([], r.2)
          else let l := readline_loop k r.2 in (c :: l.1, l.2)
      end
  end.

Definition readline (fd : input) : list Z * input := readline_loop (MAXLINE - 1) fd.

(** printf("%d < %s\n", line, buf) and the like. *)
Definition diff_line (fmt : string) (line : Z) (buf : list Z) (last : list Z) : option (list Z) :=
  opt_app (vprintf (cstr fmt) [AWord line; AStr (Some buf)]) (Some last).

(** while (1): the output and diffcount.  Every round but the last takes a
    character of one of the files. *)
Fixpoint diff_loop (fuel : nat) (fd1 fd2 : input) (line diffcount : Z) : option (list Z * Z) :=
  let '(buf1, fd1) := readline fd1 in
  let '(buf2, fd2) := readline fd2 in
  let r1 := length buf1 in
  let r2 := length buf2 in
  if (r1 =? 0)%nat && (r2 =? 0)%nat then Some ([], diffcount)
  else
    match fuel with
    | O => None
    | S fuel =>
        let report (out : option (list Z)) :=
          match out, diff_loop fuel fd1 fd2 (line + 1) (diffcount + 1) with
          | Some out, Some (out', n) => Some (out ++ out', n)
          | _, _ => None
          end in
        if (r1 =? 0)%nat then
          report (opt_app (diff_line "line %d only in file2" line [] [10]) (diff_line "%d > %s" line buf2 [10; 32]))
        else if (r2 =? 0)%nat then
          report (opt_app (diff_line "line %d only in file1" line [] [10]) (diff_line "%d < %s" line buf1 [10]))
        else if negb (strcmp buf1 buf2 =? 0) then
          report (opt_app (diff_line "%d < %s" line buf1 [10]) (diff_line "%d > %s" line buf2 [10]))
        else diff_loop fuel fd1 fd2 (line + 1) diffcount
    end.

Definition diff_help : list Z := text_lines
  ["Usage: diff file1 file2"; "Compare two files line by line and show differences.";
   "Lines unique to each file or differing lines are displayed with line numbers."].

Definition diff_main (open : list Z -> option input) (args : list (list Z)) : option (list Z * Z) :=
  if is_help args then Some (diff_help, 0)
  else
    match args with
    | [a; b] =>
        match open a, open b with
        | Some fd1, Some fd2 =>
            match diff_loop (length (concat fd1) + length (concat fd2)) fd1 fd2 1 0 with
            | Some (out, n) => Some (out ++ (if n =? 0 then text_lines ["Files are identical"] else []), 0)
            | None => None
            end
        | _, _ => Some (text_lines ["diff: cannot open file(s)"], 1)
        end
    | _ => Some (text_lines ["Usage: diff file1 file2"], 1)
    end.

(** ** fact *)

(** while (i <= n): the overflow of fact is undefined; i stays at most
    INT_MAX because fact overflows long before. *)
Fixpoint fact_loop (fuel : nat) (n i fact : Z) : option Z :=
  if n <? i then Some fact
  else
    match fuel with
    | O => None
    | S fuel => if fact * i <? 2 ^ 31 then fact_loop fuel n (i + 1) (fact * i) else None
    end.

Definition fact_help : list Z := text_lines
  ["Usage: factorial n"; "Calculate the factorial of a positive integer n."; "Example: factorial 5  →  outputs 120"].

Definition fact_main (args : list (list Z)) : option (list Z * Z) :=
  if is_help args then Some (fact_help, 0)
  else
    match args with
    | [a] =>
        match atoi a with
        | None => None
        | Some n =>
            if (97 <=? deref a) || (deref a <=? 122) then Some ([], 3)
            else if (65 <=? deref a) || (deref a <=? 90) then Some ([], 3)
            else if deref a =? 45 then Some ([], 1)
            else if n =? 0 then Some (text_lines ["1"], 0)
            else if 0 <? n then
              match fact_loop (Z.to_nat n) n 1 1 with
              | Some f => match vprintf (cstr "%d" ++ [10]) [AWord f] with Some out => Some (out, 0) | None => None end
              | None => None
              end
            else Some ([], 3)
        end
    | _ => Some ([], 1)
    end.

(** ** add *)

(** n1 and n2: the sign is overwritten with a digit. *)
Definition add_number (a : list Z) : option Z :=
  if deref a =? 45 then match atoi (48 :: tail a) with Some n => Some (- n) | None => None end
  else atoi a.

Definition add_help : list Z := text_lines
  ["Usage: add <num1> <num2>"; "Adds two integers (positive or negative)."] ++ [10] ++ text_lines ["Examples:"; "  add 3 4      # output: 7";
   "  add -5 10    # output: 5"; "  add ?        # show this help"].

Definition add_main (args : list (list Z)) : option (list Z * Z) :=
  if asks_help args then Some (add_help, 0)
  else
    match args with
    | [a; b] =>
        if ((97 <=? deref a) && (deref a <=? 122)) || ((65 <=? deref a) && (deref a <=? 90)) then Some ([], 3)
        else
          match add_number a, add_number b with
          | Some n1, Some n2 =>
              if (- 2 ^ 31 <=? n1 + n2) && (n1 + n2 <? 2 ^ 31) then
                match vprintf (cstr "%d" ++ [10]) [AWord (n1 + n2)] with Some out => Some (out, 0) | None => None end
              else None
          | _, _ => None
          end
    | _ => Some (text_lines ["add uses three args"], 1)
    end.
