(* ===== verification/UtilsSpec.v ===== *)
(** * What the small user programs print *)

From S2P Require Import Prelude CString Printf Ulib Grep Utils.

(** ** Reading a file to its end *)

(** However read() cuts the input, a body that goes through the bytes it is
    given goes through all bytes. *)
Lemma while_read_fold {S} fuel n (body : list Z -> S -> S) (step : S -> Z -> S) s fd :
  (0 < n)%nat -> (forall b s, b <> [] -> (length b <= n)%nat -> body b s = fold_left step b s) ->
  steady fd -> (length (concat fd) <= fuel)%nat ->
  while_read fuel n body s fd = Some (fold_left step (concat fd) s).
Proof.
  intros Hn Hbody. revert s fd. induction fuel as [|fuel IH]; intros s fd Hst Hf; cbn [while_read];
    destruct (uread_concat n fd Hn) as [Hc Hl]; destruct (uread_steady n fd Hn Hst) as [Hs He];
    destruct (uread n fd) as [[|c b] fd']; cbn [fst snd] in *.
  - by rewrite He.
  - rewrite Hc in Hf. cbn in Hf. lia.
  - by rewrite He.
  - rewrite Hc, fold_left_app in *. rewrite Hbody by done. apply IH; [done|]. rewrite length_app in Hf. cbn in Hf. lia.
Qed.

Lemma reading_fold {S} n (body : list Z -> S -> S) (step : S -> Z -> S) s fd :
  (0 < n)%nat -> (forall b s, b <> [] -> (length b <= n)%nat -> body b s = fold_left step b s) -> steady fd ->
  reading n body s fd = Some (fold_left step (concat fd) s).
Proof. intros. by apply while_read_fold. Qed.

(** cat copies its input. *)
Theorem cat_copies fd : steady fd -> cat fd = Some (concat fd).
Proof.
  intros Hs. assert (Hf : forall (b out : list Z), fold_left (fun out c => out ++ [c]) b out = out ++ b).
  { induction b as [|c b IH]; intros out; cbn [fold_left]; [by rewrite app_nil_r|]. by rewrite IH, <- app_assoc. }
  unfold cat. rewrite (reading_fold 512 _ (fun out c => out ++ [c])); [by rewrite Hf|lia| |done].
  intros b out _ _. by rewrite Hf.
Qed.

(** ** wc *)

Definition starts_word (l : list Z) : bool := match l with c :: _ => negb (blank c) | [] => false end.

(** The words of a text: the longest runs of characters that are not blank. *)
Fixpoint tokens (l : list Z) : list (list Z) :=
  match l with
  | [] => []
  | c :: l' =>
      if blank c then tokens l'
      else match starts_word l', tokens l' with
           | true, w :: ws => (c :: w) :: ws
           | _, ws => [c] :: ws
           end
  end.

Definition rest_line (r : list Z) : list (list Z) := match r with [] => [] | _ => [r] end.

(** All lines, a last one without newline included. *)
Definition all_lines (l : list Z) : list (list Z) :=
  (split_lines l).1 ++ rest_line (split_lines l).2.

Definition width (ls : list (list Z)) : Z := foldr (fun x m => Z.max (Z.of_nat (length x)) m) 0 ls.

Lemma tokens_cons c l :
  Z.of_nat (length (tokens (c :: l))) =
  Z.of_nat (length (tokens l)) + (if blank c then 0 else if starts_word l then 0 else 1).
Proof.
  cbn [tokens]. destruct (blank c); [lia|]. destruct (starts_word l) eqn:Hl; [|destruct (tokens l); cbn [length]; lia].
  assert (Hne : tokens l <> []).
  { destruct l as [|d l]; [done|]. cbn [starts_word] in Hl. cbn [tokens]. destruct (blank d); [done|].
    destruct (starts_word l), (tokens l); done. }
  destruct (tokens l); [done|]. cbn [length]. lia.
Qed.

(** The width when the first line continues one of [k] characters. *)
Fixpoint width_from (k : Z) (l : list Z) : Z :=
  match l with
  | [] => k
  | c :: l => if c =? 10 then Z.max k (width_from 0 l) else width_from (k + 1) l
  end.

Lemma wc_fold l k :
  0 <= curlen k ->
  let k' := fold_left wc_char l k in
  n_lines k' = n_lines k + Z.of_nat (length (split_lines l).1) /\
  n_words k' = n_words k + Z.of_nat (length (tokens l)) - (if inword k && starts_word l then 1 else 0) /\
  n_chars k' = n_chars k + Z.of_nat (length l) /\
  Z.max (longest k') (curlen k') = Z.max (longest k) (width_from (curlen k) l) /\ 0 <= curlen k'.
Proof.
  revert k. induction l as [|c l IH]; intros k Hk; cbn [fold_left].
  - cbn [split_lines tokens starts_word width_from length fst]. rewrite andb_false_r. cbn. lia.
  - assert (Hk' : 0 <= curlen (wc_char k c)) by (cbn; destruct (c =? 10); lia).
    destruct (IH _ Hk') as (I1 & I2 & I3 & I4 & I5). clear IH. cbn zeta in *. rewrite I1, I2, I3, I4, tokens_cons.
    cbn [wc_char n_lines n_words n_chars longest curlen inword starts_word width_from split_lines length] in *.
    assert (Hb : blank 10 = true) by done.
    destruct (Z.eqb_spec c 10) as [->|Hc]; cbn [andb fst length].
    + rewrite Hb. cbn [negb andb]. rewrite andb_false_r. destruct (Z.ltb_spec (longest k) (curlen k)); repeat split; try lia; done.
    + assert (Hls : length (match (split_lines l).1 with [] => ([], c :: (split_lines l).2) | x :: xs => ((c :: x) :: xs, (split_lines l).2) end).1
                = length (split_lines l).1) by (by destruct (split_lines l).1).
      rewrite Hls. destruct (blank c); cbn [negb andb]; [rewrite !andb_false_r|rewrite andb_true_r]; destruct (inword k); cbn [negb andb];
        destruct (starts_word l); repeat split; try lia; done.
Qed.

Lemma width_from_lines k l :
  width_from k l = match (split_lines l).1 with
                   | [] => k + Z.of_nat (length (split_lines l).2)
                   | x :: xs => Z.max (k + Z.of_nat (length x)) (width (xs ++ [(split_lines l).2]))
                   end.
Proof.
  revert k. induction l as [|c l IH]; intros k; cbn [width_from split_lines]; [cbn; lia|]. rewrite !IH.
  destruct (split_lines l) as [[|x xs] r]; cbn [fst snd]; (destruct (Z.eqb_spec c 10); cbn [fst snd app width foldr length]); try lia.
  fold (width (xs ++ [r])). lia.
Qed.

Lemma width_nonneg ls : 0 <= width ls.
Proof. induction ls; cbn; lia. Qed.

Lemma width_app l1 l2 : width (l1 ++ l2) = Z.max (width l1) (width l2).
Proof.
  induction l1 as [|x l1 IH]; cbn [app]; [pose proof (width_nonneg l2); change (width []) with 0; lia|].
  change (Z.max (Z.of_nat (length x)) (width (l1 ++ l2)) = Z.max (Z.max (Z.of_nat (length x)) (width l1)) (width l2)). lia.
Qed.

(** wc counts what it says, however read() cuts the file: the newlines, the
    words, the characters and the width of the widest line. *)
Theorem wc_correct fd :
  steady fd -> let l := concat fd in
  wc_count fd = Some (Z.of_nat (length (split_lines l).1), Z.of_nat (length (tokens l)), Z.of_nat (length l), width (all_lines l)).
Proof.
  intros Hs. cbv zeta. unfold wc_count. rewrite (reading_fold 512 _ wc_char) by (done || lia).
  destruct (wc_fold (concat fd) (mkCounts 0 0 0 false 0 0)) as (H1 & H2 & H3 & H4 & _); [done|].
  cbn zeta in *. set (k := fold_left wc_char _ _) in *. rewrite H1, H2, H3. cbn [n_lines n_words n_chars inword andb longest curlen] in *.
  replace (if longest k <? curlen k then curlen k else longest k) with (Z.max (longest k) (curlen k))
    by (destruct (Z.ltb_spec (longest k) (curlen k)); lia).
  rewrite H4, width_from_lines. unfold all_lines. rewrite width_app, Z.sub_0_r, !Z.add_0_l. do 2 f_equal.
  destruct (split_lines (concat fd)) as [[|x xs] r]; cbn [fst snd]; [destruct r; cbn; lia|]. rewrite width_app.
  pose proof (width_nonneg xs). change (width (x :: xs)) with (Z.max (Z.of_nat (length x)) (width xs)). destruct r; cbn [rest_line width foldr length]; lia.
Qed.

(** ** tail *)

#[local] Arguments MAX_LINE : simpl never.
#[local] Arguments MAX_LINES : simpl never.

Lemma until_nul_cut x y : until_nul (x ++ 0 :: y) = until_nul x.
Proof. induction x as [|c x IH]; [done|]. cbn [app until_nul]. by rewrite IH. Qed.

(** The lines [done] and the current one [cur] are in the array as far as
    there is room. *)
Record tail_inv (done : list (list Z)) (cur : list Z) (t : tailstate) : Prop := {
  ti_len : length (t_lines t) = MAX_LINES;
  ti_each : Forall (fun r => length r = MAX_LINE) (t_lines t);
  ti_total : t_total t = length done;
  ti_pos : t_pos t = Nat.min (MAX_LINE - 1) (length cur);
  ti_cur : exists r, t_lines t !! (t_total t mod MAX_LINES)%nat = Some r /\ take (t_pos t) r = take (MAX_LINE - 1) cur;
  ti_done : forall j x, done !! j = Some x -> (length done < j + MAX_LINES + (if bool_decide (cur = []) then 1 else 0))%nat ->
    exists r, t_lines t !! (j mod MAX_LINES)%nat = Some r /\ until_nul r = until_nul (take (MAX_LINE - 1) x)
}.

Lemma slot_differs j total : (j < total)%nat -> (total < j + MAX_LINES)%nat -> (j mod MAX_LINES)%nat <> (total mod MAX_LINES)%nat.
Proof.
  unfold MAX_LINES. intros H1 H2 He. pose proof (Nat.div_mod_eq j 20). pose proof (Nat.div_mod_eq total 20). lia.
Qed.

Lemma slot_bound j : (j mod MAX_LINES < MAX_LINES)%nat.
Proof. by apply Nat.mod_upper_bound. Qed.

(** A store changes the current line only. *)
Lemma t_store_lookup done cur t c :
  tail_inv done cur t ->
  exists r, length r = MAX_LINE /\ take (t_pos t) r = take (MAX_LINE - 1) cur /\
    t_store c t !! (t_total t mod MAX_LINES)%nat = Some (take (t_pos t) r ++ c :: drop (S (t_pos t)) r) /\
    Forall (fun r => length r = MAX_LINE) (t_store c t) /\ length (t_store c t) = MAX_LINES /\
    forall j, (j < t_total t)%nat -> (t_total t < j + MAX_LINES)%nat -> t_store c t !! (j mod MAX_LINES)%nat = t_lines t !! (j mod MAX_LINES)%nat.
Proof.
  intros [H1 H2 H3 H4 (r & H5 & H6) H7]. assert (Hr : length r = MAX_LINE) by (rewrite Forall_forall in H2; eapply H2, list_elem_of_lookup_2, H5).
  exists r. split; [done|]. split; [done|]. unfold t_store. split; [|split; [|split]].
  - rewrite list_lookup_alter, decide_True, H5 by done. cbn. rewrite insert_take_drop; [done|]. unfold MAX_LINE in *. lia.
  - apply Forall_alter; [done|]. intros x Hx. by rewrite length_insert.
  - by rewrite length_alter.
  - intros j Hj Hj'. apply list_lookup_alter_ne. by apply not_eq_sym, slot_differs.
Qed.

Lemma tail_inv_store done cur t c :
  tail_inv done cur t -> c <> 10 -> tail_inv done (cur ++ [c]) (tail_char c t).
Proof.
  intros H Hc. pose proof H as [H1 H2 H3 H4 (r0 & H5 & H6) H7]. unfold tail_char. destruct (Z.eqb_spec c 10); [done|].
  assert (Hne : bool_decide (cur ++ [c] = []) = false) by (apply bool_decide_eq_false_2; by destruct cur).
  destruct (Nat.ltb_spec (t_pos t) (MAX_LINE - 1)) as [Hp|Hp].
  - destruct (t_store_lookup done cur t c H) as (r & R1 & R2 & R3 & R4 & R5 & R6). assert (Hpos : t_pos t = length cur) by lia.
    split; cbn [t_lines t_total t_pos]; try done.
    + rewrite length_app. cbn [length]. lia.
    + eexists. split; [exact R3|]. rewrite take_app_ge; rewrite length_take_le by (unfold MAX_LINE in *; lia); [|lia].
      replace (S (t_pos t) - t_pos t)%nat with 1%nat by lia. rewrite R2, (take_ge cur) by lia.
      rewrite (take_ge (cur ++ [c])) by (rewrite length_app; cbn [length]; lia). done.
    + intros j x Hj Hr. rewrite Hne in Hr. pose proof (lookup_lt_Some _ _ _ Hj). rewrite R6 by lia. apply H7; [done|].
      destruct (bool_decide _); lia.
  - split; try done.
    + rewrite length_app. cbn [length]. lia.
    + exists r0. split; [done|]. rewrite H6, take_app_le; [done|]. lia.
    + intros j x Hj Hr. rewrite Hne in Hr. apply H7; [done|]. destruct (bool_decide _); lia.
Qed.

Lemma tail_inv_newline done cur t :
  tail_inv done cur t -> tail_inv (done ++ [cur]) [] (mkTail (t_store 0 t) (S (t_total t)) 0).
Proof.
  intros H. pose proof H as [H1 H2 H3 H4 _ H7]. destruct (t_store_lookup done cur t 0 H) as (r & R1 & R2 & R3 & R4 & R5 & R6).
  split; cbn [t_lines t_total t_pos]; try done.
  - rewrite length_app. cbn. lia.
  - destruct (lookup_lt_is_Some_2 (t_store 0 t) (S (t_total t) mod MAX_LINES)) as [x Hx]; [rewrite R5; apply slot_bound|]. by exists x.
  - intros j x Hj Hr. rewrite bool_decide_eq_true_2, length_app in Hr by done. cbn in Hr.
    apply lookup_app_Some in Hj as [Hj|[Hge Hj]].
    + pose proof (lookup_lt_Some _ _ _ Hj). rewrite R6 by lia. apply H7; [done|]. destruct (bool_decide _); lia.
    + assert (j = length done) as -> by (apply lookup_lt_Some in Hj; cbn in Hj; lia). rewrite Nat.sub_diag in Hj. injection Hj as <-.
      rewrite <- H3. eexists. split; [exact R3|]. by rewrite until_nul_cut, R2.
Qed.

Lemma tail_run l done cur t :
  10 ∉ cur -> tail_inv done cur t ->
  tail_inv (done ++ (split_lines (cur ++ l)).1) (split_lines (cur ++ l)).2 (fold_left (fun t c => tail_char c t) l t).
Proof.
  revert done cur t. induction l as [|c l IH]; intros done cur t Hn H; cbn [fold_left].
  - by rewrite app_nil_r, split_no_newline, app_nil_r by done.
  - destruct (Z.eqb_spec c 10) as [->|Hc].
    + rewrite split_line by done. cbn [fst snd]. unfold tail_char at 2. cbn [Z.eqb Pos.eqb].
      specialize (IH _ _ _ (not_elem_of_nil 10) (tail_inv_newline _ _ _ H)). by rewrite <- app_assoc in IH.
    + specialize (IH done (cur ++ [c]) _ ltac:(rewrite not_elem_of_app, not_elem_of_cons; split_and!; [done|congruence|apply not_elem_of_nil])
        (tail_inv_store _ _ _ c H Hc)). by rewrite <- app_assoc in IH.
Qed.

Lemma tail_inv_end done cur t :
  tail_inv done cur t -> let ls := done ++ rest_line cur in
  t_total (tail_end t) = length ls /\
  forall j x, ls !! j = Some x -> (length ls <= j + MAX_LINES)%nat ->
    exists r, t_lines (tail_end t) !! (j mod MAX_LINES)%nat = Some r /\ until_nul r = until_nul (take (MAX_LINE - 1) x).
Proof.
  intros H. pose proof H as [H1 H2 H3 H4 _ H7]. unfold tail_end. destruct cur as [|c cur].
  - cbn [length] in H4. rewrite Nat.min_0_r in H4. rewrite H4. cbn. rewrite app_nil_r. split; [done|].
    intros j x Hj Hr. apply H7; [done|]. cbn. lia.
  - assert (Hp : (0 <? t_pos t)%nat = true) by (apply Nat.ltb_lt; rewrite H4; unfold MAX_LINE; cbn; lia). rewrite Hp.
    destruct (tail_inv_newline _ _ _ H) as [_ _ N3 _ _ N7]. cbn zeta. split; [exact N3|].
    intros j x Hj Hr. apply (N7 j x Hj). cbn [rest_line] in Hr. rewrite bool_decide_eq_true_2 by done. lia.
Qed.

(** tail prints the last n lines for every n up to MAX_LINES = 20: of each
    line the first 511 characters, up to a NUL.  (For a larger n the lines
    before the last 20 are no longer there.) *)
Theorem tail_correct fd n :
  steady fd -> (n <= MAX_LINES)%nat ->
  let ls := all_lines (concat fd) in
  tail_fd fd n = Some (concat (map (fun x => until_nul (take (MAX_LINE - 1) x) ++ [10]) (drop (length ls - n) ls))).
Proof.
  intros Hs Hn. cbv zeta. unfold tail_fd. rewrite (reading_fold 1 _ (fun t c => tail_char c t)); [|lia| |done].
  2: { intros [|c [|d b]] t Hb Hl; [done|done|cbn in Hl; lia]. }
  do 2 f_equal.
  assert (Hi : tail_inv [] [] (mkTail (replicate MAX_LINES (replicate MAX_LINE 0)) 0 0)).
  { split; cbn [t_lines t_total t_pos]; try done.
    - by apply Forall_replicate.
    - by exists (replicate MAX_LINE 0). }
  apply (tail_run (concat fd)) in Hi; [|apply not_elem_of_nil]. cbn [app] in Hi. set (t := fold_left _ _ _) in *.
  destruct (tail_inv_end _ _ _ Hi) as [He Hl]. cbn [app] in *. fold (all_lines (concat fd)) in *. set (ls := all_lines (concat fd)) in *.
  unfold tail_print. rewrite He.
  replace (if (n <? length ls)%nat then (length ls - n)%nat else 0%nat) with (length ls - n)%nat by (destruct (Nat.ltb_spec n (length ls)); lia).
  f_equal. apply list_eq. intros i. rewrite !list_lookup_fmap, lookup_drop.
  destruct (decide (i < length ls - (length ls - n))%nat) as [Hi'|Hi'].
  - rewrite lookup_seq_lt by done. destruct (lookup_lt_is_Some_2 ls (length ls - n + i)) as [x Hx]; [lia|]. rewrite Hx. cbn.
    destruct (Hl _ _ Hx) as (r & R1 & R2); [lia|]. rewrite R1. cbn. by rewrite R2.
  - rewrite lookup_seq_ge by lia. rewrite (proj2 (lookup_ge_None ls _)) by lia. done.
Qed.

(** ** diff *)

#[local] Arguments MAXLINE : simpl never.

(** How many lines differ, the lines of the longer file included. *)
Fixpoint diff_count (l1 l2 : list (list Z)) : Z :=
  match l1, l2 with
  | [], l2 => Z.of_nat (length l2)
  | _ :: l1, [] => 1 + diff_count l1 []
  | x :: l1, y :: l2 => (if bool_decide (x = y) then 0 else 1) + diff_count l1 l2
  end.

Lemma diff_count_zero l1 l2 : 0 <= diff_count l1 l2 /\ (diff_count l1 l2 = 0 <-> l1 = l2).
Proof.
  revert l2. induction l1 as [|x l1 IH]; intros [|y l2]; cbn [diff_count length]; try (split; [lia|split; [lia|done]]); [done|..].
  - destruct (IH []) as [? _]. split; [lia|]. split; [lia|done].
  - destruct (IH l2) as [? Hi]. case_bool_decide as Hxy; (split; [lia|]); split.
    + intros Hz. f_equal; [done|]. apply Hi. lia.
    + intros [= _ ->]. rewrite (proj2 Hi) by done. lia.
    + lia.
    + intros [= ? _]. done.
Qed.

(** The files diff can compare: no line is blank or too long. *)
Definition plain_line (x : list Z) : Prop := x <> [] /\ (length x < MAXLINE - 1)%nat /\ Forall (fun c => 0 < c < 256) x.
Definition plain_file (fd : input) : Prop := steady fd /\ Forall plain_line (all_lines (concat fd)).

Lemma all_lines_cases l :
  (l = [] /\ all_lines l = []) \/
  exists x q, 10 ∉ x /\ all_lines l = x :: all_lines q /\ (l = x ++ 10 :: q \/ l = x /\ q = [] /\ x <> []).
Proof.
  destruct (decide (10 ∈ l)) as [Hin|Hin].
  - right. destruct (list_elem_of_split_l l 10 Hin) as (x & q & -> & Hx). exists x, q. split; [done|]. split; [|by left].
    unfold all_lines. rewrite split_line by done. done.
  - destruct l as [|c l]; [by left|]. right. exists (c :: l), []. split; [done|]. split; [|by right].
    unfold all_lines. rewrite split_no_newline by done. done.
Qed.

Lemma readline_loop_run k x fd :
  steady fd -> 10 ∉ x -> (length x < k)%nat ->
  (forall q, concat fd = x ++ 10 :: q -> exists fd', readline_loop k fd = (x, fd') /\ steady fd' /\ concat fd' = q) /\
  (concat fd = x -> exists fd', readline_loop k fd = (x, fd') /\ steady fd' /\ concat fd' = []).
Proof.
  revert k fd. induction x as [|c x IH]; intros k fd Hst Hn Hk; (destruct k as [|k]; [cbn in Hk; lia|]); cbn [readline_loop];
    destruct (uread_concat 1 fd) as [Hc Hl]; [lia| |lia|]; destruct (uread_steady 1 fd ltac:(lia) Hst) as [Hs He];
    destruct (uread 1 fd) as [[|d [|d' b]] fd']; cbn [fst snd] in *; try (cbn in Hl; lia); rewrite ?He by done.
  - split; [done|]. intros _. eexists. split; [done|]. split; [done|]. rewrite <- (He eq_refl), Hc. done.
  - rewrite Hc. split; [|done]. intros q [= -> Hq]. eexists. by rewrite Z.eqb_refl.
  - split; [done|]. intros [=].
  - rewrite not_elem_of_cons in Hn. destruct Hn as [Hn1 Hn2]. destruct (IH k fd' Hs Hn2 ltac:(cbn in Hk; lia)) as [I1 I2]. rewrite Hc. split.
    + intros q [= -> Hq]. destruct (Z.eqb_spec c 10); [congruence|]. destruct (I1 q Hq) as (fd2 & -> & ? & ?). by eexists.
    + intros [= -> Hq]. destruct (Z.eqb_spec c 10); [congruence|]. destruct (I2 Hq) as (fd2 & -> & ? & ?). by eexists.
Qed.

(** readline() takes the lines one by one. *)
Lemma readline_run fd :
  plain_file fd ->
  exists fd', readline fd = (default [] (head (all_lines (concat fd))), fd') /\ plain_file fd' /\
    all_lines (concat fd') = tail (all_lines (concat fd)).
Proof.
  intros [Hst Hp]. unfold readline. destruct (all_lines_cases (concat fd)) as [[E1 E2]|(x & q & Hx & E1 & E2)].
  - destruct (readline_loop_run (MAXLINE - 1) [] fd Hst) as [_ H]; [apply not_elem_of_nil|cbn; unfold MAXLINE; lia|].
    destruct (H E1) as (fd' & -> & H1 & H2). exists fd'. rewrite E2. split; [done|]. unfold plain_file. rewrite H2. split; [|done].
    split; [done|constructor].
  - rewrite E1 in Hp |- *. apply Forall_cons in Hp as [[_ [Hl _]] Hp]. destruct (readline_loop_run (MAXLINE - 1) x fd Hst Hx Hl) as [H1 H2].
    assert (H : exists fd', readline_loop (MAXLINE - 1) fd = (x, fd') /\ steady fd' /\ concat fd' = q).
    { destruct E2 as [E2|(E2 & -> & _)]; [by apply H1|by apply H2]. }
    destruct H as (fd' & -> & H3 & H4). exists fd'. split; [done|]. unfold plain_file. rewrite H4. done.
Qed.

Lemma uprintint_some v : exists out, uprintint (i32 v) 10 true = Some out.
Proof. destruct (uprintint_atoi (i32 v)) as (out & H & _); [apply i32_range|eauto]. Qed.

(** The formats of diff. *)
Ltac known_format := rewrite !elem_of_cons; auto 6.

Lemma diff_line_some fmt line buf last :
  fmt ∈ ["line %d only in file1"; "line %d only in file2"; "%d < %s"; "%d > %s"]%string ->
  exists out, diff_line fmt line buf last = Some out.
Proof.
  intros H. destruct (uprintint_some line) as [out Ho]. unfold diff_line, vprintf.
  rewrite !elem_of_cons in H. destruct H as [->|[->|[->|[->|H]]]]; [..|by apply not_elem_of_nil in H];
    lazy -[uprintint i32 until_nul app]; rewrite Ho; eauto.
Qed.

Lemma opt_app_some (a b : option (list Z)) : (exists x, a = Some x) -> (exists y, b = Some y) -> exists out, opt_app a b = Some out.
Proof. intros [x ->] [y ->]. cbn. eauto. Qed.

Lemma plain_strcmp x y : plain_line x -> plain_line y -> strcmp x y = 0 <-> x = y.
Proof.
  assert (Hu : forall x, plain_line x -> until_nul x = x /\ Forall (fun b => 0 <= b < 256) x).
  { intros z (_ & _ & Hz). induction Hz as [|c z Hc Hz [I1 I2]]; [done|]. cbn [until_nul]. destruct (Z.eqb_spec c 0); [lia|].
    rewrite I1. split; [done|]. constructor; [lia|done]. }
  intros Hx Hy. destruct (Hu x Hx) as [X1 X2], (Hu y Hy) as [Y1 Y2]. rewrite strcmp_eq by done. by rewrite X1, Y1.
Qed.

Lemma diff_loop_run fuel fd1 fd2 line n :
  plain_file fd1 -> plain_file fd2 ->
  let l1 := all_lines (concat fd1) in let l2 := all_lines (concat fd2) in
  (length l1 + length l2 <= fuel)%nat ->
  exists out, diff_loop fuel fd1 fd2 line n = Some (out, n + diff_count l1 l2) /\ (diff_count l1 l2 = 0 -> out = []).
Proof.
  assert (Hlen : forall x, plain_line x -> (length x =? 0)%nat = false) by (intros [|c x] [H _]; done).
  revert fd1 fd2 line n. induction fuel as [|fuel IH]; intros fd1 fd2 line n H1 H2 l1 l2 Hf; cbn [diff_loop];
    destruct (readline_run fd1 H1) as (fd1' & -> & P1 & T1), (readline_run fd2 H2) as (fd2' & -> & P2 & T2);
    fold l1 in T1 |- *; fold l2 in T2 |- *; destruct H1 as [_ H1], H2 as [_ H2]; fold l1 in H1; fold l2 in H2.
  { destruct l1, l2; cbn in Hf; try lia. exists []. cbn. by rewrite Z.add_0_r. }
  assert (IHr : forall d a b, diff_count l1 l2 = 1 + diff_count (tail l1) (tail l2) ->
    (length (tail l1) + length (tail l2) <= fuel)%nat -> d = Some (a ++ b) ->
    exists out, match d, diff_loop fuel fd1' fd2' (line + 1) (n + 1) with
                | Some o, Some (o', m) => Some (o ++ o', m)
                | _, _ => None
                end = Some (out, n + diff_count l1 l2) /\ (diff_count l1 l2 = 0 -> out = [])).
  { intros d a b Hd Hfuel ->. destruct (IH fd1' fd2' (line + 1) (n + 1) P1 P2) as (out & -> & _); [by rewrite T1, T2|].
    rewrite T1, T2. eexists. split; [do 2 f_equal; lia|]. destruct (diff_count_zero (tail l1) (tail l2)). lia. }
  assert (Hrep : forall f1 f2 x1 x2 e1 e2, f1 ∈ ["line %d only in file1"; "line %d only in file2"; "%d < %s"; "%d > %s"]%string ->
    f2 ∈ ["line %d only in file1"; "line %d only in file2"; "%d < %s"; "%d > %s"]%string ->
    exists a b, opt_app (diff_line f1 line x1 e1) (diff_line f2 line x2 e2) = Some (a ++ b)).
  { intros f1 f2 x1 x2 e1 e2 F1 F2. destruct (diff_line_some f1 line x1 e1 F1) as [a ->], (diff_line_some f2 line x2 e2 F2) as [b ->].
    by exists a, b. }
  clearbody l1 l2. destruct H1 as [|x l1 Hx H1], H2 as [|y l2 Hy H2]; cbn [head default from_option id tail length] in *;
    rewrite ?Hlen by done; cbn [Nat.eqb length andb negb].
  - exists []. cbn. by rewrite Z.add_0_r.
  - destruct (Hrep "line %d only in file2"%string "%d > %s"%string [] y [10] [10; 32]) as (a & b & E); [known_format..|].
    eapply IHr; [cbn; lia|lia|exact E].
  - destruct (Hrep "line %d only in file1"%string "%d < %s"%string [] x [10] [10]) as (a & b & E); [known_format..|].
    eapply IHr; [done|lia|exact E].
  - pose proof (plain_strcmp x y Hx Hy) as Hs. destruct (Z.eqb_spec (strcmp x y) 0) as [Hz|Hz]; cbn [negb].
    + destruct (IH fd1' fd2' (line + 1) n P1 P2) as (out & -> & Ho); [rewrite T1, T2; lia|]. rewrite T1, T2 in *. exists out.
      cbn [diff_count]. by rewrite bool_decide_eq_true_2, Z.add_0_l by (by apply Hs).
    + destruct (Hrep "%d < %s"%string "%d > %s"%string x y [10] [10]) as (a & b & E); [known_format..|].
      eapply IHr; [|lia|exact E]. cbn [diff_count]. rewrite bool_decide_eq_false_2; [done|]. intros He. by apply Hz, Hs.
Qed.

Lemma plain_lines_length l : Forall plain_line (all_lines l) -> (length (all_lines l) <= length l)%nat.
Proof.
  assert (Hc : forall ls : list (list Z), Forall plain_line ls -> (length ls <= length (concat ls))%nat).
  { induction 1 as [|x ls [Hx _] _ IH]; [done|]. cbn. rewrite length_app. destruct x; [done|]. cbn. lia. }
  assert (Hl : forall l, (length (concat (all_lines l)) <= length l)%nat).
  { clear. intros l. unfold all_lines. rewrite concat_app, length_app.
    induction l as [|c l IH]; [done|]. cbn [split_lines]. destruct (split_lines l) as [[|x xs] r], (c =? 10); cbn [fst snd concat] in *;
      rewrite ?length_app in *; cbn [length app] in *; try lia; destruct r; cbn in *; rewrite ?length_app in *; lia. }
  intros H. etrans; [by apply Hc|apply Hl].
Qed.

(** diff says that the files are identical just when they have the same
    lines, if no line is blank or longer than 510 characters, and the
    number of differences it counts is that of the lines that differ. *)
Theorem diff_correct open a b fd1 fd2 :
  open a = Some fd1 -> open b = Some fd2 -> plain_file fd1 -> plain_file fd2 ->
  exists out, diff_main open [a; b] = Some (out, 0) /\
    (all_lines (concat fd1) = all_lines (concat fd2) -> out = text_lines ["Files are identical"%string]) /\
    (all_lines (concat fd1) <> all_lines (concat fd2) -> exists n,
       diff_loop (length (concat fd1) + length (concat fd2)) fd1 fd2 1 0 = Some (out, n) /\
       n = diff_count (all_lines (concat fd1)) (all_lines (concat fd2)) /\ 0 < n).
Proof.
  intros Ha Hb P1 P2. unfold diff_main. cbn [is_help]. rewrite Ha, Hb.
  destruct (diff_loop_run (length (concat fd1) + length (concat fd2)) fd1 fd2 1 0 P1 P2) as (out & -> & Ho).
  { pose proof (plain_lines_length _ (proj2 P1)). pose proof (plain_lines_length _ (proj2 P2)). lia. }
  rewrite Z.add_0_l. destruct (diff_count_zero (all_lines (concat fd1)) (all_lines (concat fd2))) as [D1 D2].
  destruct (Z.eqb_spec (diff_count (all_lines (concat fd1)) (all_lines (concat fd2))) 0) as [Hz|Hz].
  - rewrite (Ho Hz). eexists. split; [done|]. split; [done|]. intros Hne. by apply D2 in Hz.
  - rewrite app_nil_r. exists out. split; [done|]. split; [intros He; by apply D2 in He|]. intros _. eexists. split; [done|]. lia.
Qed.

(** But a blank line is the end of the file to readline(): whatever follows
    a blank line that both files have is not compared. *)
Theorem diff_stops_at_blank open a b q1 q2 :
  open a = Some [10 :: q1] -> open b = Some [10 :: q2] ->
  diff_main open [a; b] = Some (text_lines ["Files are identical"%string], 0).
Proof.
  assert (Hr : forall q, exists fd, readline [10 :: q] = ([], fd)) by (intros [|c q]; eexists; reflexivity).
  intros Ha Hb. unfold diff_main. cbn [is_help]. rewrite Ha, Hb. destruct (Hr q1) as [fd1 E1], (Hr q2) as [fd2 E2].
  assert (Hd : forall fuel, diff_loop fuel [10 :: q1] [10 :: q2] 1 0 = Some ([], 0))
    by (intros [|fuel]; cbn [diff_loop]; by rewrite E1, E2). by rewrite Hd.
Qed.

(** ** fact and add *)

(** fact rejects every argument: each character is >= 'a' or <= 'z'. *)
Theorem fact_rejects a n : is_help [a] = false -> atoi a = Some n -> fact_main [a] = Some ([], 3).
Proof.
  intros Hh Ha. unfold fact_main. rewrite Hh, Ha. by destruct (Z.leb_spec 97 (deref a)), (Z.leb_spec (deref a) 122); try lia.
Qed.

(** An int that is printed is read back by add. *)
Lemma add_number_printed x out :
  Z.abs x < 2 ^ 31 - 48 -> uprintint x 10 true = Some out -> add_number out = Some x /\ deref out <= 57.
Proof.
  intros Hx. unfold uprintint. cbn [andb]. rewrite u32_small by (destruct (Z.ltb_spec x 0); lia).
  replace (if x <? 0 then - x else x) with (Z.abs x) by (destruct (Z.ltb_spec x 0); lia).
  destruct (digit_loop BUFLEN udigits 10 (Z.abs x)) as [l|] eqn:El; [|done].
  destruct (digit_loop_atoi _ _ _ El ltac:(lia) ltac:(lia)) as [Hd Ha].
  assert (Hf : deref (rev l) <> 45 /\ deref (rev l) <= 57) by (destruct Hd as [|c r Hc _]; cbn; lia).
  unfold put_sign, add_number. destruct (Z.ltb_spec x 0) as [Hn|Hn].
  - destruct (length l <? BUFLEN)%nat; [|done]. intros [= <-]. rewrite rev_app_distr. cbn [rev app]. cbn [deref head default from_option id].
    rewrite Z.eqb_refl. cbn [tail]. unfold atoi. cbn [atoi_loop]. change (0 * 10 + 48 - 48) with 0. cbn [Z.leb Z.compare andb].
    rewrite Ha. split; [|done]. cbn. f_equal. lia.
  - intros [= <-]. destruct (Z.eqb_spec (deref (rev l)) 45); [lia|]. split; [|lia]. unfold atoi. rewrite Ha. f_equal. lia.
Qed.

(** add prints the sum of the two numbers it is given. *)
Theorem add_correct x y a b :
  uprintint x 10 true = Some a -> uprintint y 10 true = Some b ->
  Z.abs x < 2 ^ 31 - 48 -> Z.abs y < 2 ^ 31 - 48 -> - 2 ^ 31 <= x + y < 2 ^ 31 ->
  exists out, uprintint (x + y) 10 true = Some out /\ add_main [a; b] = Some (out ++ [10], 0).
Proof.
  intros Ha Hb Hx Hy Hs. destruct (add_number_printed x a Hx Ha) as [A1 A2], (add_number_printed y b Hy Hb) as [B1 _].
  destruct (uprintint_atoi (x + y) Hs) as (out & Ho & _). exists out. split; [done|].
  unfold add_main. cbn [asks_help]. rewrite A1, B1.
  destruct (Z.leb_spec 97 (deref a)), (Z.leb_spec 65 (deref a)); try lia. cbn [andb orb].
  rewrite (proj2 (Z.leb_le _ _) (proj1 Hs)), (proj2 (Z.ltb_lt _ _) (proj2 Hs)). cbn [andb].
  assert (Hv : vprintf (cstr "%d" ++ [10]) [AWord (x + y)] = Some (out ++ [10])); [|by rewrite Hv].
  change (vprintf (cstr "%d" ++ [10]) [AWord (x + y)]) with (opt_app (uprintint (i32 (x + y)) 10 true) (Some [10])).
  by rewrite i32_small, Ho by done.
Qed.

