(* ===== verification/Find.v ===== *)
(** * user/find.c: searching a directory tree

    The file system is what open(), fstat(), stat() and read() tell the
    program about it: the type of the file a path names and the entries of a
    directory, as pairs of inode number and name field.  It does not change
    while find runs. *)

From S2P Require Import Prelude CString Printf Ulib.

Definition T_DIR : Z := 1.
Definition T_FILE : Z := 2.
Definition DIRSIZ : nat := 14.
Definition MAX_SUBDIRS : nat := 4.

(** sizeof buf *)
Definition PATHMAX : nat := 64.

Section find.
Variable lookup : list Z -> option (Z * list (Z * list Z)).
(** What lies behind the struct dirent on the stack: strcmp() runs into it
    when all 14 bytes of a name are used. *)
Variable after_de : list Z.
Variable target : list Z.

Definition dirent : Set := Z * list Z.

Definition name_is (e : dirent) (s : list Z) : bool := strcmp (e.2 ++ after_de) s =? 0.

(** The entries that are passed over. *)
Definition passed (e : dirent) : bool := (e.1 =? 0) || name_is e [46] || name_is e [46; 46].

Definition count_files (path : list Z) : Z :=
  match lookup path with
  | None => 0
  | Some (type, es) =>
      if negb (type =? T_DIR) then 0 else fold_left (fun count e => if passed e then count else count + 1) es 0
  end.

(** for(i = 0; i < n; i++) of find_max_index(); -1 is [None]. *)
Fixpoint max_loop (dirs : list (list Z * Z)) (used : list bool) (i : nat) (max_count : Z) (max_idx : option nat) : option nat :=
  match dirs, used with
  | d :: dirs, u :: used =>
      if negb u && (max_count <? d.2) then max_loop dirs used (S i) d.2 (Some i)
      else max_loop dirs used (S i) max_count max_idx
  | _, _ => max_idx
  end.

Definition find_max_index (dirs : list (list Z * Z)) (used : list bool) : option nat := max_loop dirs used 0 (-1) None.

(** The path of an entry, as it is built in buf. *)
Definition join_path (path : list Z) (e : dirent) : list Z := path ++ [47] ++ until_nul (take DIRSIZ e.2).

(** The part of a path behind the last '/'. *)
Fixpoint no_slash (l : list Z) : list Z :=
  match l with
  | [] => []
  | c :: l => if c =? 47 then [] else c :: no_slash l
  end.

Definition basename (path : list Z) : list Z := rev (no_slash (rev path)).

(** The first pass: the subdirectories kept with their file counts, and the
    paths printed.  [rec] is find() itself. *)
Fixpoint scan_dir (rec : list Z -> option (list (list Z))) (path : list Z) (es : list dirent)
  (subdirs : list (list Z * Z)) (out : list (list Z)) : option (list (list Z * Z) * list (list Z)) :=
  match es with
  | [] => Some (subdirs, out)
  | e :: es =>
      if passed e then scan_dir rec path es subdirs out
      else
        let buf := join_path path e in
        match lookup buf with
        | None => scan_dir rec path es subdirs out
        | Some (type, _) =>
            if type =? T_FILE then scan_dir rec path es subdirs (if name_is e target then out ++ [buf] else out)
            else if type =? T_DIR then
              if (length subdirs <? MAX_SUBDIRS)%nat then
                let n := count_files buf in
                scan_dir rec path es (if 0 <? n then subdirs ++ [(buf, n)] else subdirs) out
              else if 0 <? count_files buf then
                match rec buf with
                | Some o => scan_dir rec path es subdirs (out ++ o)
                | None => None
                end
              else scan_dir rec path es subdirs out
            else scan_dir rec path es subdirs out
        end
  end.

(** for(i = 0; i < subdir_count; i++), [k] rounds left. *)
Fixpoint visit (rec : list Z -> option (list (list Z))) (k : nat) (dirs : list (list Z * Z)) (used : list bool)
  (out : list (list Z)) : option (list (list Z)) :=
  match k with
  | O => Some out
  | S k =>
      match find_max_index dirs used with
      | None => visit rec k dirs used out
      | Some i =>
          match rec (default [] (fst <$> dirs !! i)) with
          | Some o => visit rec k dirs (<[i := true]> used) (out ++ o)
          | None => None
          end
      end
  end.

(** find(): the paths printed, a line each. *)
Fixpoint find (fuel : nat) (path : list Z) : option (list (list Z)) :=
  match lookup path with
  | None => Some []
  | Some (type, es) =>
      if type =? T_FILE then Some (if strcmp (basename path) target =? 0 then [path] else [])
      else if negb (type =? T_DIR) then Some []
      else if (PATHMAX <? length path + 1 + DIRSIZ + 1)%nat then Some []
      else
        match fuel with
        | O => None
        | S fuel =>
            match scan_dir (find fuel) path es [] [] with
            | None => None
            | Some (subdirs, out) =>
                visit (find fuel) (length subdirs) subdirs (replicate (length subdirs) false) out
            end
        end
  end.

(** find(".", target); every level makes the path longer, and a path has
    less than PATHMAX characters. *)
Definition find_main : option (list (list Z)) := find PATHMAX [46].

(** ** What is found *)

(** The files the search comes upon, entry by entry. *)
Inductive found (d : list Z) : list Z -> Prop :=
  | found_file es e r :
      lookup d = Some (T_DIR, es) -> (length d <= 48)%nat -> e ∈ es -> passed e = false ->
      lookup (join_path d e) = Some (T_FILE, r) -> name_is e target = true -> found d (join_path d e)
  | found_below es e r p :
      lookup d = Some (T_DIR, es) -> (length d <= 48)%nat -> e ∈ es -> passed e = false ->
      lookup (join_path d e) = Some (T_DIR, r) -> found (join_path d e) p -> found d p.

(** [rec] finds what is below [d]. *)
Definition finds (rec : list Z -> option (list (list Z))) (d : list Z) : Prop :=
  exists o, rec d = Some o /\ forall p, p ∈ o <-> found d p.

Lemma count_fold es n : n <= fold_left (fun count e => if passed e then count else count + 1) es n /\
  ((exists e, e ∈ es /\ passed e = false) -> n < fold_left (fun count e => if passed e then count else count + 1) es n).
Proof using.
  revert n. induction es as [|e es IH]; intros n; cbn [fold_left].
  - split; [lia|]. intros (e & He & _). by apply not_elem_of_nil in He.
  - destruct (passed e) eqn:Hp.
    + destruct (IH n) as [I1 I2]. split; [done|]. intros (x & [->|Hx]%elem_of_cons & Hp'); [congruence|eauto].
    + destruct (IH (n + 1)) as [I1 _]. lia.
Qed.

(** A directory below which something is found is not empty. *)
Lemma found_count d p : found d p -> 0 < count_files d.
Proof using.
  intros H. assert (He : exists es e, lookup d = Some (T_DIR, es) /\ e ∈ es /\ passed e = false) by (destruct H; eauto 6).
  destruct He as (es & e & Hl & He & Hp). unfold count_files. rewrite Hl, Z.eqb_refl. cbn [negb].
  apply count_fold. eauto.
Qed.

(** *** The first pass *)

(** What the entry [e] of [d] contributes. *)
Definition entry_finds (d : list Z) (e : dirent) (p : list Z) : Prop :=
  passed e = false /\ exists t r, lookup (join_path d e) = Some (t, r) /\
    ((t = T_FILE /\ name_is e target = true /\ p = join_path d e) \/ (t = T_DIR /\ found (join_path d e) p)).

Definition pending (subdirs : list (list Z * Z)) (out : list (list Z)) (p : list Z) : Prop :=
  p ∈ out \/ exists s, s ∈ subdirs /\ found s.1 p.

Lemma pending_out subdirs out o p : pending subdirs (out ++ o) p <-> pending subdirs out p \/ p ∈ o.
Proof using. unfold pending. rewrite elem_of_app. clear. tauto. Qed.

Lemma pending_dir subdirs s out p : pending (subdirs ++ [s]) out p <-> pending subdirs out p \/ found s.1 p.
Proof using.
  unfold pending. split.
  - intros [H|(x & [Hx|[->|Hx]%elem_of_cons]%elem_of_app & Hf)]; [eauto..|by apply not_elem_of_nil in Hx].
  - intros [[H|(x & Hx & Hf)]|H]; [by left|right; exists x|right; exists s]; (split; [|done]); apply elem_of_app; [by left|].
    right. apply elem_of_cons. by left.
Qed.

Definition kept (rec : list Z -> option (list (list Z))) (subdirs : list (list Z * Z)) : Prop :=
  Forall (fun s => finds rec s.1 /\ 0 <= s.2) subdirs.

Lemma scan_dir_ok rec d es subdirs out :
  (forall e r, e ∈ es -> lookup (join_path d e) = Some (T_DIR, r) -> finds rec (join_path d e)) -> kept rec subdirs ->
  exists subdirs' out', scan_dir rec d es subdirs out = Some (subdirs', out') /\ kept rec subdirs' /\
    forall p, pending subdirs' out' p <-> pending subdirs out p \/ exists e, e ∈ es /\ entry_finds d e p.
Proof using.
  revert subdirs out. induction es as [|e es IH]; intros subdirs out Hrec Hk; cbn [scan_dir].
  { exists subdirs, out. split; [done|]. split; [done|]. intros p. split; [by left|]. intros [H|(e & He & _)]; [done|]. by apply not_elem_of_nil in He. }
  assert (Hstep : forall subdirs1 out1, kept rec subdirs1 ->
    (forall p, pending subdirs1 out1 p <-> pending subdirs out p \/ entry_finds d e p) ->
    exists subdirs' out', scan_dir rec d es subdirs1 out1 = Some (subdirs', out') /\ kept rec subdirs' /\
    forall p, pending subdirs' out' p <-> pending subdirs out p \/ exists e0, e0 ∈ e :: es /\ entry_finds d e0 p).
  { intros subdirs1 out1 Hk1 Hp. destruct (IH subdirs1 out1) as (s' & o' & E & Hk' & Hp'); [|done|].
    { intros e' r He'. apply Hrec, elem_of_cons. by right. }
    exists s', o'. split; [done|]. split; [done|]. intros p. rewrite Hp', Hp. split.
    - intros [[H|H]|(e' & He' & H)]; [by left|right; exists e|right; exists e']; (split; [|done]); apply elem_of_cons; [by left|by right].
    - intros [H|(e' & [->|He']%elem_of_cons & H)]; [by left; left|by left; right|right; eauto]. }
  assert (Hnone : (forall p, ~ entry_finds d e p) -> forall p, pending subdirs out p <-> pending subdirs out p \/ entry_finds d e p).
  { intros Hn p. split; [by left|]. intros [H|H]; [done|by apply Hn in H]. }
  destruct (passed e) eqn:Hpass; [apply Hstep; [done|apply Hnone; intros p [H _]; congruence]|].
  destruct (lookup (join_path d e)) as [[t r]|] eqn:Hl.
  2: { apply Hstep; [done|apply Hnone]. intros p (_ & t & r & H & _). congruence. }
  assert (Hent : forall p, entry_finds d e p <-> (t = T_FILE /\ name_is e target = true /\ p = join_path d e) \/ (t = T_DIR /\ found (join_path d e) p)).
  { intros p. unfold entry_finds. rewrite Hl. split; [intros (_ & t' & r' & [= <- <-] & H); done|]. intros H. split; [done|]. by exists t, r. }
  destruct (Z.eqb_spec t T_FILE) as [->|Hf].
  { apply Hstep; [done|]. intros p. rewrite Hent. destruct (name_is e target).
    - rewrite pending_out. rewrite elem_of_cons. split.
      + intros [H|[->|H]]; [by left|right; by left|by apply not_elem_of_nil in H].
      + intros [H|[(_ & _ & ->)|[H _]]]; [by left|right; by left|done].
    - split; [by left|]. intros [H|[(_ & H & _)|[H _]]]; done. }
  destruct (Z.eqb_spec t T_DIR) as [->|Hd].
  2: { apply Hstep; [done|apply Hnone]. intros p [[H _]|[H _]]%Hent; congruence. }
  assert (Hdir : finds rec (join_path d e)) by (eapply Hrec; [apply elem_of_cons; by left|exact Hl]).
  assert (Hent' : forall p, entry_finds d e p <-> found (join_path d e) p).
  { intros p. rewrite Hent. split; [intros [[H _]|[_ H]]; done|intros H; by right]. }
  destruct (length subdirs <? MAX_SUBDIRS)%nat.
  - destruct (Z.ltb_spec 0 (count_files (join_path d e))) as [Hc|Hc].
    + apply Hstep; [|intros p; by rewrite pending_dir, Hent']. apply Forall_app. split; [done|]. apply Forall_singleton. split; [done|cbn; lia].
    + apply Hstep; [done|apply Hnone]. intros p H%Hent'%found_count. lia.
  - destruct (Z.ltb_spec 0 (count_files (join_path d e))) as [Hc|Hc].
    + destruct Hdir as (o & -> & Ho). apply Hstep; [done|]. intros p. by rewrite pending_out, Ho, Hent'.
    + apply Hstep; [done|apply Hnone]. intros p H%Hent'%found_count. lia.
Qed.

(** *** The second pass *)

Lemma max_loop_ok dirs used i m best :
  length used = length dirs ->
  let unused j d := used !! j = Some false /\ dirs !! j = Some d in
  (max_loop dirs used i m best = best /\ forall j d, unused j d -> d.2 <= m) \/
  exists k d, max_loop dirs used i m best = Some (i + k)%nat /\ unused k d /\ m < d.2 /\ forall j d', unused j d' -> d'.2 <= d.2.
Proof using.
  revert used i m best. induction dirs as [|d dirs IH]; intros [|u used] i m best Hl; try done; cbv zeta.
  { left. split; [done|]. by intros j d [H _]. }
  cbn [max_loop]. injection Hl as Hl. destruct u; cbn [negb andb].
  - destruct (IH used (S i) m best Hl) as [[E H]|(k & x & E & [Hu Hx] & Hm & H)]; rewrite E.
    + left. split; [done|]. intros [|j] y [Hj Hy]; [done|]. by apply (H j).
    + right. exists (S k), x. split; [f_equal; lia|]. split; [done|]. split; [done|]. intros [|j] y [Hj Hy]; [done|]. by apply (H j).
  - destruct (Z.ltb_spec m d.2) as [Hd|Hd].
    + right. destruct (IH used (S i) d.2 (Some i) Hl) as [[E H]|(k & x & E & [Hu Hx] & Hm & H)]; rewrite E.
      * exists 0%nat, d. split; [f_equal; lia|]. split; [done|]. split; [done|].
        intros [|j] y [Hj Hy]; [injection Hy as <-; lia|by apply (H j)].
      * exists (S k), x. split; [f_equal; lia|]. split; [done|]. split; [lia|].
        intros [|j] y [Hj Hy]; [injection Hy as <-; lia|by apply (H j)].
    + destruct (IH used (S i) m best Hl) as [[E H]|(k & x & E & [Hu Hx] & Hm & H)]; rewrite E.
      * left. split; [done|]. intros [|j] y [Hj Hy]; [injection Hy as <-; lia|by apply (H j)].
      * right. exists (S k), x. split; [f_equal; lia|]. split; [done|]. split; [done|].
        intros [|j] y [Hj Hy]; [injection Hy as <-; lia|by apply (H j)].
Qed.

(** find_max_index() is the unused directory with the most files. *)
Lemma find_max_index_ok dirs used :
  length used = length dirs -> Forall (fun d => 0 <= d.2) dirs -> false ∈ used ->
  exists k d, find_max_index dirs used = Some k /\ used !! k = Some false /\ dirs !! k = Some d /\
    forall j d', used !! j = Some false -> dirs !! j = Some d' -> d'.2 <= d.2.
Proof using.
  intros Hl Hd Hin. unfold find_max_index. destruct (max_loop_ok dirs used 0 (-1) None Hl) as [[_ H]|(k & d & E & [Hu Hk] & _ & H)].
  - apply list_elem_of_lookup_1 in Hin as [j Hj]. destruct (lookup_lt_is_Some_2 dirs j) as [d Hjd].
    { rewrite <- Hl. by apply (lookup_lt_Some _ _ false). }
    specialize (H j d (conj Hj Hjd)). rewrite Forall_forall in Hd. specialize (Hd d (list_elem_of_lookup_2 _ _ _ Hjd)). lia.
  - exists k, d. split; [done|]. split; [done|]. split; [done|]. intros j d' Hj Hj'. by apply (H j).
Qed.

Definition unvisited (used : list bool) : nat := count_occ Bool.bool_dec used false.

Lemma unvisited_mark used k : used !! k = Some false -> unvisited used = S (unvisited (<[k := true]> used)).
Proof using.
  unfold unvisited. revert k. induction used as [|u used IH]; intros [|k] Hk; try done.
  - injection Hk as ->. done.
  - specialize (IH k Hk). destruct u; cbn; [exact IH|]. by rewrite IH.
Qed.

Lemma visit_ok rec k dirs used out :
  length used = length dirs -> kept rec dirs -> unvisited used = k ->
  exists out', visit rec k dirs used out = Some out' /\
    forall p, p ∈ out' <-> p ∈ out \/ exists i d, used !! i = Some false /\ dirs !! i = Some d /\ found d.1 p.
Proof using.
  revert used out. induction k as [|k IH]; intros used out Hl Hk Hc; cbn [visit].
  - exists out. split; [done|]. intros p. split; [by left|]. intros [H|(i & d & Hi & _)]; [done|].
    apply unvisited_mark in Hi. lia.
  - assert (Hin : false ∈ used).
    { apply list_elem_of_In. apply (count_occ_In Bool.bool_dec). unfold unvisited in Hc. lia. }
    destruct (find_max_index_ok dirs used Hl) as (i & d & E & Hu & Hd & _); [|done|].
    { eapply Forall_impl; [exact Hk|]. by intros x [_ H]. }
    rewrite E, Hd. cbn. unfold kept in Hk. rewrite Forall_forall in Hk. destruct (Hk d (list_elem_of_lookup_2 _ _ _ Hd)) as [(o & -> & Ho) _].
    destruct (IH (<[i := true]> used) (out ++ o)) as (out' & -> & Hout).
    { by rewrite length_insert. }
    { by apply Forall_forall. }
    { apply unvisited_mark in Hu. lia. }
    exists out'. split; [done|]. intros p. rewrite Hout, elem_of_app, Ho. split.
    + intros [[H|H]|(j & d' & Hj & Hj' & H)]; [by left|right; by exists i, d|]. right. exists j, d'. split; [|done].
      destruct (decide (i = j)) as [->|Hne]; [|by rewrite list_lookup_insert_ne in Hj].
      rewrite list_lookup_insert_eq in Hj; [done|]. by eapply lookup_lt_Some.
    + intros [H|(j & d' & Hj & Hj' & H)]; [by left; left|]. destruct (decide (i = j)) as [->|Hne].
      * left. right. by simplify_eq.
      * right. exists j, d'. by rewrite list_lookup_insert_ne.
Qed.

(** *** The search *)

Lemma find_ok fuel d es :
  (50 <= length d + fuel)%nat -> lookup d = Some (T_DIR, es) -> finds (find fuel) d.
Proof using.
  revert d es. induction fuel as [|fuel IH]; intros d es Hf Hd; unfold finds; cbn [find]; rewrite Hd; cbn [Z.eqb Pos.eqb T_DIR T_FILE negb];
    unfold PATHMAX, DIRSIZ; destruct (Nat.ltb_spec 64 (length d + 1 + 14 + 1)) as [Hp|Hp].
  1,3: exists []; split; [done|]; intros p; split; [intros H; by apply not_elem_of_nil in H|intros H; exfalso; destruct H; lia].
  { lia. }
  assert (Hrec : forall e r, e ∈ es -> lookup (join_path d e) = Some (T_DIR, r) -> finds (find fuel) (join_path d e)).
  { intros e r _ He. eapply IH; [|exact He]. unfold join_path. rewrite !length_app. cbn [length]. lia. }
  destruct (scan_dir_ok (find fuel) d es [] [] Hrec) as (subdirs & out & -> & Hk & Hp1); [constructor|].
  destruct (visit_ok (find fuel) (length subdirs) subdirs (replicate (length subdirs) false) out) as (out' & -> & Hout); [|done|..].
  { by rewrite length_replicate. }
  { clear. unfold unvisited. induction subdirs; [done|]. cbn. by rewrite IHsubdirs. }
  exists out'. split; [done|]. intros p. rewrite Hout. transitivity (pending subdirs out p).
  { unfold pending. split; (intros [H|H]; [by left|right]).
    - destruct H as (i & s & _ & Hs & H). exists s. split; [by eapply list_elem_of_lookup_2|done].
    - destruct H as (s & Hs & H). apply list_elem_of_lookup_1 in Hs as [i Hi]. exists i, s. split; [|done].
      apply lookup_replicate_2. by eapply lookup_lt_Some. }
  rewrite Hp1. split.
  - intros [[H|(s & Hs & _)]|(e & He & Hpass & t & r & Hl & [(-> & Hn & ->)|(-> & H)])]; [by apply not_elem_of_nil in H|by apply not_elem_of_nil in Hs|..].
    + by eapply found_file; [exact Hd|lia|..].
    + by eapply found_below; [exact Hd|lia|..].
  - intros H. right. destruct H as [es' e r He1 _ He2 He3 He4 He5|es' e r p He1 _ He2 He3 He4 He5]; rewrite He1 in Hd; injection Hd as ->;
      exists e; (split; [done|]); (split; [done|]); eexists _, _; (split; [exact He4|]); [by left|by right].
Qed.
End find.

(** ** The files of a given name below a directory *)

Section tree.
Variable lookup : list Z -> option (Z * list (Z * list Z)).

(** The directory [d] has an entry in use of the name [c], other than "." and
    "..". *)
Definition has_entry (d c : list Z) : Prop :=
  exists es inum name, lookup d = Some (T_DIR, es) /\ (inum, name) ∈ es /\ inum <> 0 /\ until_nul name = c /\
    c <> [46] /\ c <> [46; 46].

(** d/c1/c2/... *)
Definition path_of (d : list Z) (cs : list (list Z)) : list Z := fold_left (fun p c => p ++ [47] ++ c) cs d.

(** [p] is the path, through directories, of a file called [name] below [d];
    the path of each directory is at most [n] characters long. *)
Definition file_below (n : nat) (name d p : list Z) : Prop :=
  exists cs r, p = path_of d cs /\ last cs = Some name /\ lookup p = Some (T_FILE, r) /\
    forall k c, cs !! k = Some c -> (length (path_of d (take k cs)) <= n)%nat /\ has_entry (path_of d (take k cs)) c.

(** Directory entries hold a name field of DIRSIZ bytes. *)
Definition tree_ok : Prop :=
  forall p t es, lookup p = Some (t, es) -> Forall (fun e => length e.2 = DIRSIZ /\ Forall (fun b => 0 <= b < 256) e.2) es.

Variable after_de : list Z.
Hypothesis Hafter : Forall (fun b => 0 <= b < 256) after_de.

Lemma until_nul_app_any l l' :
  until_nul (l ++ l') = if decide (length (until_nul l) = length l) then until_nul l ++ until_nul l' else until_nul l.
Proof using.
  induction l as [|b l IH]; [done|]. cbn [app until_nul]. destruct (b =? 0); [done|]. rewrite IH. cbn [length].
  repeat case_decide; try done; lia.
Qed.

Lemma until_nul_nonul l : 0 ∉ l -> until_nul l = l.
Proof using.
  induction l as [|b l IH]; [done|]. intros [Hb Hl]%not_elem_of_cons. cbn [until_nul].
  rewrite (proj2 (Z.eqb_neq b 0)) by done. by rewrite IH.
Qed.

(** strcmp() with a string of less than DIRSIZ characters, or of any length
    if a NUL follows the name field, compares the names. *)
Lemma name_is_ok e s :
  length e.2 = DIRSIZ -> Forall (fun b => 0 <= b < 256) e.2 -> Forall (fun b => 0 <= b < 256) s -> 0 ∉ s ->
  (length s < DIRSIZ)%nat \/ head after_de = Some 0 ->
  name_is after_de e s = true <-> until_nul e.2 = s.
Proof using Hafter.
  intros Hl He Hs H0 Hor. unfold name_is. rewrite Z.eqb_eq, strcmp_eq by (done || by apply Forall_app).
  rewrite until_nul_app_any, (until_nul_nonul s) by done. case_decide as Hd; [|done].
  destruct Hor as [Hlt|Hh].
  - split; intros H; apply (f_equal length) in H; rewrite ?length_app, Hd, Hl in H; lia.
  - destruct after_de as [|c a]; [done|]. injection Hh as ->. by rewrite app_nil_r.
Qed.

Lemma passed_ok e :
  length e.2 = DIRSIZ -> Forall (fun b => 0 <= b < 256) e.2 ->
  passed after_de e = false <-> e.1 <> 0 /\ until_nul e.2 <> [46] /\ until_nul e.2 <> [46; 46].
Proof using Hafter.
  intros Hl He. unfold passed. rewrite !orb_false_iff, Z.eqb_neq, <- !not_true_iff_false.
  assert (Hn : forall k, (k < 3)%nat -> name_is after_de e (replicate k 46) = true <-> until_nul e.2 = replicate k 46).
  { intros k Hk. apply name_is_ok; [done|done|by apply Forall_replicate|by intros [? _]%elem_of_replicate|].
    left. rewrite length_replicate. unfold DIRSIZ. lia. }
  pose proof (Hn 1%nat ltac:(lia)) as H1. pose proof (Hn 2%nat ltac:(lia)) as H2. cbn [replicate] in H1, H2. rewrite H1, H2.
  clear. tauto.
Qed.

Lemma join_path_ok d e : length e.2 = DIRSIZ -> join_path d e = d ++ [47] ++ until_nul e.2.
Proof using. intros Hl. unfold join_path. by rewrite take_ge by lia. Qed.

Lemma found_has_entry d es e :
  tree_ok -> lookup d = Some (T_DIR, es) -> e ∈ es -> passed after_de e = false ->
  has_entry d (until_nul e.2) /\ join_path d e = path_of d [until_nul e.2].
Proof using Hafter.
  intros Ht Hd He Hp. pose proof (Ht _ _ _ Hd) as Hf. rewrite Forall_forall in Hf. destruct (Hf e He) as [Hl Hb].
  apply passed_ok in Hp as (H1 & H2 & H3); [|done..]. rewrite join_path_ok by done. split; [|done].
  exists es, e.1, e.2. by destruct e.
Qed.

Lemma has_entry_found d c :
  tree_ok -> has_entry d c ->
  exists es e, lookup d = Some (T_DIR, es) /\ e ∈ es /\ passed after_de e = false /\ until_nul e.2 = c /\
    length e.2 = DIRSIZ /\ Forall (fun b => 0 <= b < 256) e.2.
Proof using Hafter.
  intros Ht (es & inum & name & Hd & He & H1 & H2 & H3 & H4). exists es, (inum, name).
  pose proof (Ht _ _ _ Hd) as Hf. rewrite Forall_forall in Hf. destruct (Hf _ He) as [Hl Hb].
  repeat (split; [done|]). split; [|done]. apply passed_ok; [done..|]. cbn. by rewrite H2.
Qed.

Variable target : list Z.
Hypothesis Htarget : Forall (fun b => 0 <= b < 256) target.
Hypothesis Hnonul : 0 ∉ target.
Hypothesis Hterm : (length target < DIRSIZ)%nat \/ head after_de = Some 0.

Lemma found_file_below d p : tree_ok -> found lookup after_de target d p -> file_below 48 target d p.
Proof using Hafter Htarget Hnonul Hterm.
  intros Ht. induction 1 as [d es e r Hd Hlen He Hp Hl Hn|d es e r p Hd Hlen He Hp Hl _ (cs & r' & -> & Hlast & Hf & IH)];
    destruct (found_has_entry d es e Ht Hd He Hp) as [Hent Hj]; rewrite Hj in *.
  - pose proof (Ht _ _ _ Hd) as Hfs. rewrite Forall_forall in Hfs. destruct (Hfs e He) as [Hl' Hb].
    apply name_is_ok in Hn; [|done..]. exists [until_nul e.2], r. split; [done|]. split; [cbn; by rewrite Hn|]. split; [done|].
    intros [|k] c Hc; [|done]. injection Hc as <-. done.
  - exists (until_nul e.2 :: cs), r'. split; [done|]. split; [by destruct cs|]. split; [done|].
    intros [|k] c Hc; [injection Hc as <-; done|]. exact (IH k c Hc).
Qed.

Lemma file_below_found d p : tree_ok -> file_below 48 target d p -> found lookup after_de target d p.
Proof using Hafter Htarget Hnonul Hterm.
  intros Ht (cs & r & -> & Hlast & Hf & Hdirs). revert d Hf Hdirs. induction cs as [|c cs IH]; intros d Hf Hdirs; [done|].
  destruct (Hdirs 0%nat c eq_refl) as [Hlen Hent]. cbn [take path_of fold_left] in Hlen, Hent.
  destruct (has_entry_found d c Ht Hent) as (es & e & Hd & He & Hp & Hc & Hl & Hb).
  assert (Hj : join_path d e = path_of d [c]) by (rewrite join_path_ok by done; by rewrite Hc).
  destruct cs as [|c' cs].
  - rewrite <- Hj in Hf. rewrite <- Hj. eapply found_file; try done.
    apply name_is_ok; try done. injection Hlast as <-. done.
  - destruct (Hdirs 1%nat c' eq_refl) as [_ (es' & _ & _ & Hd' & _)].
    change (take 1 (c :: c' :: cs)) with [c] in Hd'. rewrite <- Hj in Hd'. eapply found_below; try done.
    rewrite Hj. apply (IH Hlast (path_of d [c]) Hf). intros k x Hk. exact (Hdirs (S k) x Hk).
Qed.
End tree.

(** A name of DIRSIZ characters does not match if no NUL happens to follow
    the struct dirent. *)
Lemma long_name_missed lookup after_de target d p :
  tree_ok lookup -> Forall (fun b => 0 <= b < 256) after_de -> Forall (fun b => 0 <= b < 256) target -> 0 ∉ target ->
  length target = DIRSIZ -> (forall a, after_de <> 0 :: a) -> after_de <> [] -> ~ found lookup after_de target d p.
Proof.
  intros Ht Ha Hb H0 Hl Hz Hne. induction 1 as [d es e r Hd Hlen He Hp Hf Hn|]; [|done].
  pose proof (Ht _ _ _ Hd) as Hfs. rewrite Forall_forall in Hfs. destruct (Hfs e He) as [Hl' Hb']. revert Hn.
  unfold name_is. rewrite Z.eqb_eq, strcmp_eq by (done || by apply Forall_app).
  rewrite until_nul_app_any, (until_nul_nonul target) by done. intros Hn%(f_equal length). case_decide as Hd'.
  - destruct after_de as [|c a]; [done|]. rewrite length_app, Hd' in Hn. cbn [until_nul] in Hn.
    destruct (Z.eqb_spec c 0) as [->|]; [by apply (Hz a)|]. cbn [length] in Hn. lia.
  - pose proof (length_until_nul e.2). lia.
Qed.

(** C34: find prints exactly the files of the given name.  For a file system
    whose directory entries hold a DIRSIZ-byte name field, and a search name
    shorter than DIRSIZ, the search ends and a path p is printed if and only
    if it is ./c1/.../cn where every ci is the name of an entry in use, other
    than "." and "..", of the directory before it, cn is the name searched
    for, p is a file, and no directory's path on the way is longer than 48
    characters: the limit of four subdirectories and the order of the visits
    lose nothing.  For a name of exactly DIRSIZ characters this holds only if
    the byte behind the struct dirent on the stack happens to be NUL;
    otherwise strcmp() runs on and nothing at all is printed. *)
Theorem find_correct lookup after_de target es :
  lookup [46] = Some (T_DIR, es) -> tree_ok lookup ->
  Forall (fun b => 0 <= b < 256) after_de -> Forall (fun b => 0 <= b < 256) target -> 0 ∉ target ->
  exists out, find_main lookup after_de target = Some out /\
    ((length target < DIRSIZ)%nat \/ head after_de = Some 0 ->
     forall p, p ∈ out <-> file_below lookup 48 target [46] p) /\
    (length target = DIRSIZ -> (exists c a, after_de = c :: a /\ c <> 0) -> out = []).
Proof.
  intros H Ht Ha Hb H0. destruct (find_ok lookup after_de target PATHMAX [46] es) as (out & Hout & Hiff); [unfold PATHMAX; cbn; lia|done|].
  exists out. split; [exact Hout|]. split.
  - intros Hor p. rewrite Hiff. split; [by apply found_file_below|by apply file_below_found].
  - intros Hl (c & a & -> & Hc). destruct out as [|p out]; [done|]. exfalso.
    eapply (long_name_missed lookup (c :: a) target [46] p); try done; [by intros a' [= -> _]|]. apply Hiff, elem_of_cons. by left.
Qed.

(** ./a, and ./d/a in the directory d. *)
Definition demo_field (name : list Z) : list Z := name ++ replicate (DIRSIZ - length name) 0.
Definition small_tree (p : list Z) : option (Z * list (Z * list Z)) :=
  if bool_decide (p = [46]) then Some (T_DIR, [(1, demo_field [46]); (3, demo_field [97]); (2, demo_field [100])])
  else if bool_decide (p = [46; 47; 100]) then Some (T_DIR, [(0, demo_field [98]); (4, demo_field [97])])
  else if bool_decide (p = [46; 47; 97] \/ p = [46; 47; 100; 47; 97]) then Some (T_FILE, [])
  else None.

Lemma small_tree_ok : tree_ok small_tree.
Proof.
  intros p t es. unfold small_tree. repeat case_bool_decide; intros [= <- <-]; repeat constructor; cbn; lia.
Qed.

Lemma find_correct_witness :
  exists out, find_main small_tree [7] [97] = Some out /\ (forall p, p ∈ out <-> file_below small_tree 48 [97] [46] p) /\
    file_below small_tree 48 [97] [46] [46; 47; 100; 47; 97].
Proof.
  destruct (find_correct small_tree [7] [97] [(1, demo_field [46]); (3, demo_field [97]); (2, demo_field [100])]) as (out & E & H & _).
  - by vm_compute.
  - apply small_tree_ok.
  - repeat constructor; lia.
  - repeat constructor; lia.
  - rewrite list_elem_of_singleton. lia.
  - specialize (H ltac:(left; cbn; unfold DIRSIZ; lia)). exists out. split; [done|]. split; [done|]. apply H.
    assert (Eo : find_main small_tree [7] [97] = Some [[46; 47; 97]; [46; 47; 100; 47; 97]]) by (by vm_compute).
    rewrite Eo in E. injection E as <-. apply elem_of_cons. right. apply elem_of_cons. by left.
Defined.
