(* ===== verification/FileUtils.v ===== *)
(** * The user programs that change directories: mv, cp, ln, rm, mkdir, touch

    The system calls they make act on a state of any type; each returns the
    new state, or [None] when it fails and changes nothing.  A main() gives
    the state it leaves, its standard output and its exit status; [None] is a
    write past the end of an array. *)

From S2P Require Import Prelude CString Printf Ulib Grep Utils.

Section fileutils.
Variable FS : Type.
(** stat(): the type of the file, if there is one. *)
Variable fs_stat : FS -> list Z -> option Z.
Variable fs_link : FS -> list Z -> list Z -> option FS.
Variable fs_unlink : FS -> list Z -> option FS.
Variable fs_mkdir : FS -> list Z -> option FS.
(** open(name, O_WRONLY) and open(name, O_CREATE | O_WRONLY). *)
Variable fs_open : FS -> list Z -> bool.
Variable fs_create : FS -> list Z -> option FS.

Definition result : Type := option (FS * list Z * Z).

(** sizeof(new_file_path) *)
Definition NEWPATH : nat := 512.

(** for (char *p = old_path; *p; p++) if ( *p == '/') basename = p + 1; *)
Fixpoint basename_loop (base path : list Z) : list Z :=
  match path with
  | [] => base
  | c :: path => if c =? 47 then basename_loop path path else basename_loop base path
  end.

(** new_path, after a directory has been extended with the name of the
    source. *)
Definition new_path (s : FS) (old new : list Z) : option (list Z) :=
  match fs_stat s new with
  | Some type =>
      if type =? 1 then
        let p := new ++ [47] ++ basename_loop old old in
        if (length p <? NEWPATH)%nat then Some p else None
      else Some new
  | None => Some new
  end.

(** printf("mv: link failed from '%s' to '%s'\n", old_path, new_path) *)
Definition link_failed (old new : list Z) : list Z :=
  cstr "mv: link failed from '" ++ old ++ cstr "' to '" ++ new ++ cstr "'" ++ [10].

Definition mv_help : list Z := text_lines
  ["Usage: mv old_path new_path"; "Move or rename a file from old_path to new_path.";
   "If new_path is a directory, the file is moved inside that directory."].

(** The part that mv.c and cp.c share, up to the link; [k] goes on from
    there. *)
Definition link_file (help : list Z) (s : FS) (args : list (list Z)) (k : FS -> list Z -> result) : result :=
  if is_help args then Some (s, help, 0)
  else
    match args with
    | [old; new] =>
        match fs_stat s old with
        | None => Some (s, cstr "mv: cannot stat source '" ++ old ++ cstr "'" ++ [10], 1)
        | Some _ =>
            match new_path s old new with
            | None => None
            | Some new =>
                match fs_link s old new with
                | None => Some (s, link_failed old new, 1)
                | Some s => k s old
                end
            end
        end
    | _ => Some (s, text_lines ["usage: mv old_path new_path"], 1)
    end.

Definition mv_main (s : FS) (args : list (list Z)) : result :=
  link_file (mv_help ++ text_lines ["Example: mv file.txt dir/"]) s args (fun s old =>
    match fs_unlink s old with
    | None => Some (s, cstr "mv: failed to unlink source file '" ++ old ++ cstr "'. File may now exist as two copies." ++ [10], 1)
    | Some s => Some (s, [], 0)
    end).

Definition cp_main (s : FS) (args : list (list Z)) : result := link_file mv_help s args (fun s _ => Some (s, [], 0)).

(** The messages of ln and rm go to the standard error. *)
Definition ln_main (s : FS) (args : list (list Z)) : result :=
  match args with
  | [old; new] => Some (default s (fs_link s old new), [], 0)
  | _ => Some (s, [], 1)
  end.

(** for(i = 1; i < argc; i++) if(f(argv[i]) < 0) { ...; break; } *)
Fixpoint each_arg (f : FS -> list Z -> option FS) (fail : list Z -> list Z) (s : FS) (args : list (list Z)) : FS * list Z :=
  match args with
  | [] => (s, [])
  | a :: args =>
      match f s a with
      | None => (s, fail a)
      | Some s => each_arg f fail s args
      end
  end.

Definition rm_main (s : FS) (args : list (list Z)) : result :=
  match args with
  | [] => Some (s, [], 1)
  | _ => Some (each_arg fs_unlink (fun _ => []) s args, 0)
  end.

Definition mkdir_help : list Z := text_lines
  ["Usage: mkdir files..."; "Create one or more directories specified by the arguments."; "Example: mkdir dir1 dir2"].

Definition mkdir_main (s : FS) (args : list (list Z)) : result :=
  if is_help args then Some (s, mkdir_help, 0)
  else
    match args with
    | [] => Some (s, text_lines ["Usage: mkdir files..."], 1)
    | _ => Some (each_arg fs_mkdir (fun a => cstr "mkdir: " ++ a ++ cstr " failed to create" ++ [10]) s args, 0)
    end.

Definition touch_help : list Z := text_lines
  ["Usage: touch <filename>"; "Create an empty file with the specified filename.";
   "If the file already exists, an error is reported."].

Definition touch_main (s : FS) (args : list (list Z)) : result :=
  if is_help args then Some (s, touch_help, 0)
  else
    match args with
    | [f] =>
        if fs_open s f then Some (s, cstr "Error: file '" ++ f ++ cstr "' already exists" ++ [10], 1)
        else
          match fs_create s f with
          | None => Some (s, cstr "Error: cannot create file '" ++ f ++ cstr "'" ++ [10], 1)
          | Some s => Some (s, [], 0)
          end
    | _ => Some (s, text_lines ["Usage: touch <filename>"], 1)
    end.

(** ** Facts *)

(** The name of the source is what follows its last '/'. *)
Lemma basename_loop_app base pre name :
  47 ∉ name -> basename_loop base (pre ++ 47 :: name) = name.
Proof using.
  intros Hn. assert (H : forall b l, 47 ∉ l -> basename_loop b l = b).
  { intros b l. revert b. induction l as [|c l IH]; intros b; [done|]. rewrite not_elem_of_cons. intros [Hc Hl]. cbn [basename_loop].
    destruct (Z.eqb_spec c 47); [congruence|auto]. }
  revert base. induction pre as [|c pre IH]; intros base; cbn [app basename_loop].
  - by rewrite Z.eqb_refl, H.
  - by destruct (c =? 47); apply IH.
Qed.

(** When mv succeeds, exactly a link and an unlink have been made: the file
    has its new name, inside the directory when the destination is one, and
    no longer the old one. *)
Theorem mv_correct s old new pre name s1 s2 :
  fs_stat s old <> None -> old = pre ++ 47 :: name -> 47 ∉ name ->
  let dest := if bool_decide (fs_stat s new = Some 1) then new ++ [47] ++ name else new in
  (length dest < NEWPATH)%nat -> fs_link s old dest = Some s1 -> fs_unlink s1 old = Some s2 ->
  mv_main s [old; new] = Some (s2, [], 0) /\ cp_main s [old; new] = Some (s1, [], 0).
Proof using.
  intros Hst Hold Hn dest Hlen Hlink Hunlink. assert (Hp : new_path s old new = Some dest).
  { unfold new_path, dest in *. destruct (fs_stat s new) as [t|]; [|by rewrite bool_decide_eq_false_2].
    rewrite Hold, basename_loop_app by done. destruct (Z.eqb_spec t 1) as [->|Ht].
    - rewrite bool_decide_eq_true_2 in * by done. by rewrite (proj2 (Nat.ltb_lt _ _) Hlen).
    - rewrite bool_decide_eq_false_2; [done|]. congruence. }
  unfold mv_main, cp_main, link_file. cbn [is_help]. destruct (fs_stat s old); [|done]. rewrite Hp, Hlink, Hunlink. done.
Qed.
End fileutils.
