(* ===== verification/Ls.v ===== *)
(** * user/ls.c and user/echo.c *)

From S2P Require Import Prelude CString Printf Ulib Utils Find.

Record lsstat : Set := mkStat { st_type : Z; st_ino : Z; st_size : Z }.

(** The name, padded with blanks to DIRSIZ characters. *)
Definition fmtname (path : list Z) : list Z :=
  let p := basename path in
  if (DIRSIZ <=? length p)%nat then p else p ++ replicate (DIRSIZ - length p) 32.

(** printf("%s %d %d %d\n", ...) *)
Definition ls_line (path : list Z) (st : lsstat) : option (list Z) :=
  vprintf (cstr "%s %d %d %d" ++ [10]) [AStr (Some (fmtname path)); AWord (st_type st); AWord (st_ino st); AWord (i32 (st_size st))].

Section ls.
(** stat() and the entries of a directory. *)
Variable ls_stat : list Z -> option lsstat.
Variable entries : list Z -> list dirent.

(** while(read(fd, &de, sizeof(de)) == sizeof(de)) *)
Fixpoint ls_entries (path : list Z) (es : list dirent) : option (list Z) :=
  match es with
  | [] => Some []
  | e :: es =>
      if e.1 =? 0 then ls_entries path es
      else
        let buf := join_path path e in
        match ls_stat buf with
        | None => opt_app (Some (cstr "ls: cannot stat " ++ buf ++ [10])) (ls_entries path es)
        | Some st => opt_app (ls_line buf st) (ls_entries path es)
        end
  end.

(** The standard output of ls(); the file is opened and has a stat, or the
    message goes to the standard error. *)
Definition ls (path : list Z) : option (list Z) :=
  match ls_stat path with
  | None => Some []
  | Some st =>
      if (st_type st =? 3) || (st_type st =? T_FILE) then ls_line path st
      else if st_type st =? T_DIR then
        if (512 <? length path + 1 + DIRSIZ + 1)%nat then Some (text_lines ["ls: path too long"])
        else ls_entries path (entries path)
      else Some []
  end.

Fixpoint ls_args (args : list (list Z)) : option (list Z) :=
  match args with
  | [] => Some []
  | a :: args => opt_app (ls a) (ls_args args)
  end.

Definition ls_main (args : list (list Z)) : option (list Z) :=
  match args with
  | [] => ls [46]
  | _ => ls_args args
  end.

(** The names ls() shows line up: a name takes DIRSIZ columns, or is longer
    than a name in a directory can be. *)
Lemma fmtname_width path : (DIRSIZ <= length (fmtname path))%nat /\ (length (basename path) <= DIRSIZ -> length (fmtname path) = DIRSIZ)%nat.
Proof using.
  unfold fmtname. destruct (Nat.leb_spec DIRSIZ (length (basename path))); [lia|]. rewrite length_app, length_replicate. lia.
Qed.

Lemma no_slash_app l r : 47 ∉ l -> no_slash (l ++ 47 :: r) = l.
Proof using.
  induction l as [|c l IH]; [done|]. rewrite not_elem_of_cons. intros [Hc Hl]. cbn [app no_slash].
  destruct (Z.eqb_spec c 47); [congruence|]. by rewrite IH.
Qed.

(** An entry is shown by its own name. *)
Lemma basename_join path e : 47 ∉ until_nul (take DIRSIZ e.2) -> basename (join_path path e) = until_nul (take DIRSIZ e.2).
Proof using.
  intros H. unfold basename, join_path. rewrite !rev_app_distr. cbn [rev app]. rewrite <- app_assoc. cbn [app].
  rewrite no_slash_app; [apply rev_involutive|]. intros Hc. apply H. apply list_elem_of_In, in_rev. by apply list_elem_of_In.
Qed.
End ls.

(** ** echo *)

Fixpoint echo_main (args : list (list Z)) : list Z :=
  match args with
  | [] => []
  | [a] => take (Z.to_nat (ustrlen a)) a ++ [10]
  | a :: args => take (Z.to_nat (ustrlen a)) a ++ [32] ++ echo_main args
  end.

(** echo prints its arguments with a blank between them and a newline. *)
Lemma echo_join args a :
  echo_main (args ++ [a]) = concat (map (fun x => until_nul x ++ [32]) args) ++ until_nul a ++ [10].
Proof.
  assert (Hs : forall x, take (Z.to_nat (ustrlen x)) x = until_nul x).
  { intros x. assert (Hl : forall l, ustrlen l = Z.of_nat (length (until_nul l))).
    { induction l as [|c l IH]; [done|]. cbn [ustrlen until_nul]. destruct (c =? 0); [done|]. cbn [length]. lia. }
    rewrite Hl, Nat2Z.id. induction x as [|c x IH]; [done|]. cbn [until_nul]. destruct (c =? 0); [done|]. cbn [length take]. by rewrite IH. }
  induction args as [|b args IH]; cbn [app]; [cbn [echo_main]; by rewrite Hs|].
  assert (Hc : forall l, l <> [] -> echo_main (b :: l) = take (Z.to_nat (ustrlen b)) b ++ [32] ++ echo_main l) by (by intros [|c l]).
  rewrite Hc by (by destruct args). rewrite Hs, IH. cbn [map concat]. by rewrite <- !app_assoc.
Qed.

