(* ===== verification/Init.v ===== *)
(** * The user programs init, kill, sleep and write, and grind's generator

    Each main() takes its arguments after argv[0] and what the system calls
    answer, and gives what it prints, the calls it makes and its exit
    status; [None] is the overflow of an int in atoi(). *)

From S2P Require Import Prelude CString Printf Ulib Grep Utils UtilsSpec.

(** ** init *)

Inductive init_call : Set :=
| IStart (pid : Z)             (* fork() and exec("sh") in the child *)
| IReap (pid : Z)              (* wait() returned an orphan *)
| ISay (msg : list Z)
| IExit (status : Z).

(** What opens the console: mknod() when the first open() fails. *)
Inductive init_open : Set := IOpen | IMknod | IDup.

Definition init_console (opens : bool) : list init_open :=
  (if opens then [IOpen] else [IOpen; IMknod; IOpen]) ++ [IDup; IDup].

(** What the inner for(;;) does with the answers of wait(): the calls made,
    and the answers left when the shell has exited. *)
Fixpoint init_wait (pid : Z) (waits : list Z) : list init_call * option (list Z) :=
  match waits with
  | [] => ([], None)
  | wpid :: waits =>
      if wpid =? pid then ([], Some waits)
      else if wpid <? 0 then ([ISay (text_lines ["init: wait returned an error"]); IExit 1], None)
      else let r := init_wait pid waits in (IReap wpid :: r.1, r.2)
  end.

(** The outer for(;;), on the answers of fork() and of wait(), as far as they
    go. *)
Fixpoint init_loop (forks waits : list Z) : list init_call :=
  match forks with
  | [] => []
  | pid :: forks =>
      ISay (text_lines ["init: starting sh"]) ::
      if pid <? 0 then [ISay (text_lines ["init: fork failed"]); IExit 1]
      else
        IStart pid ::
        let r := init_wait pid waits in
        r.1 ++ match r.2 with Some waits => init_loop forks waits | None => [] end
  end.

(** The child, when exec() returns. *)
Definition init_child : list init_call := [ISay (text_lines ["init: exec sh failed"]); IExit 1].

(** ** kill *)

(** for(i=1; i<argc; i++) kill(atoi(argv[i])); the pids given to kill(). *)
Fixpoint kill_args (args : list (list Z)) : option (list Z) :=
  match args with
  | [] => Some []
  | a :: args =>
      match atoi a, kill_args args with
      | Some pid, Some pids => Some (pid :: pids)
      | _, _ => None
      end
  end.

Definition kill_main (args : list (list Z)) : option (list Z * Z) :=
  match args with
  | [] => Some ([], 1)
  | _ => match kill_args args with Some pids => Some (pids, 0) | None => None end
  end.

(** ** sleep *)

Definition sleep_help : list Z :=
  text_lines ["Usage: sleep <ticks>"; "Pause execution for a number of clock ticks."] ++ [10] ++
  text_lines ["Examples:"; "  sleep 10    # sleep for 10 ticks"; "  sleep 100   # sleep for 100 ticks"; "  sleep ?     # show this help message"].

(** The standard output, the argument of sleep() when it is called, and the
    exit status; the other messages go to the standard error. *)
Definition sleep_main (args : list (list Z)) : option (list Z * option Z * Z) :=
  match args with
  | [a] =>
      if (strcmp a (cstr "--help") =? 0) || (strcmp a (cstr "-h") =? 0) || (strcmp a (cstr "?") =? 0)
      then Some (sleep_help, None, 0)
      else
        match atoi a with
        | None => None
        | Some ticks => if ticks <? 0 then Some ([], None, 1) else Some ([], Some ticks, 0)
        end
  | _ => Some ([], None, 1)
  end.

(** ** write *)

Section write.
Variable F : Type.
(** write(fd, buf, n): the file afterwards and the count returned. *)
Variable fwrite : F -> list Z -> F * Z.

(** while((n = read(0, buf, sizeof(buf))) > 0): the file and what is printed. *)
Fixpoint write_loop (fuel : nat) (fd : input) (f : F) : option (F * list Z) :=
  let r := Ulib.uread 512 fd in
  match r.1 with
  | [] => Some (f, [])
  | _ =>
      match fuel with
      | O => None
      | S fuel =>
          let w := fwrite f r.1 in
          if negb (w.2 =? Z.of_nat (length r.1)) then Some (w.1, text_lines ["nano: write error"])
          else write_loop fuel r.2 w.1
      end
  end.

(** [first] and [second]: what the two open() give, the bytes of the file
    and the file open for writing.  The result: the file, if it was
    reopened, the standard output and the exit status. *)
Definition write_main (args : list (list Z)) (first : option input) (second : option F) (stdin : input) :
    option (option F * list Z * Z) :=
  match args with
  | [filename] =>
      match first with
      | None => Some (None, cstr "nano: cannot open " ++ filename ++ [10], 1)
      | Some fd =>
          let hello := text_lines ["Simple nano editor. Type lines and end with Ctrl+D"] in
          match reading 512 (fun c out => out ++ c) [] fd with
          | None => None
          | Some shown =>
              match second with
              | None => Some (None, hello ++ shown ++ cstr "nano: cannot reopen " ++ filename ++ [10], 1)
              | Some f =>
                  match write_loop (length (concat stdin)) stdin f with
                  | None => None
                  | Some (f, out) => Some (Some f, hello ++ shown ++ out ++ [10] ++ cstr "Saved " ++ filename ++ [10], 0)
                  end
              end
          end
      end
  | _ => Some (None, text_lines ["Usage: nano filename"], 1)
  end.
End write.

(** ** grind's random numbers *)

(** [ctx] is an unsigned long; the value returned is also stored there. *)
Definition do_rand (ctx : Z) : Z :=
  let x := ctx mod 0x7ffffffe + 1 in
  let hi := x / 127773 in
  let lo := x mod 127773 in
  let x := 16807 * lo - 2836 * hi in
  let x := if x <? 0 then x + 0x7fffffff else x in
  x - 1.

(** ** What they do *)

(** [orphans] exit, then the shell. *)
Lemma init_wait_shell pid orphans rest :
  0 <= pid -> Forall (fun w => 0 <= w /\ w <> pid) orphans ->
  init_wait pid (orphans ++ pid :: rest) = (map IReap orphans, Some rest).
Proof.
  intros Hp Ho. induction Ho as [|w ws [Hw Hne] _ IH]; cbn [init_wait app map].
  - by rewrite Z.eqb_refl.
  - rewrite (proj2 (Z.eqb_neq _ _)), (proj2 (Z.ltb_ge _ _)) by lia. by rewrite IH.
Qed.

(** init keeps one shell alive: it starts a shell, takes in every orphan that
    exits before it, and starts the next shell when, and only when, this one
    has exited. *)
Theorem init_one_shell runs :
  Forall (fun r : Z * list Z => 0 <= r.1 /\ Forall (fun w => 0 <= w /\ w <> r.1) r.2) runs ->
  init_loop (map fst runs) (concat (map (fun r => r.2 ++ [r.1]) runs)) =
  concat (map (fun r => ISay (text_lines ["init: starting sh"]) :: IStart r.1 :: map IReap r.2) runs).
Proof.
  intros Hr. induction Hr as [|[pid orphans] runs [Hp Ho] _ IH]; [done|].
  cbn [map concat fst snd init_loop] in *. rewrite (proj2 (Z.ltb_ge _ _)) by lia.
  rewrite <- app_assoc. cbn [app]. rewrite init_wait_shell by done. cbn [fst snd]. by rewrite IH.
Qed.

Lemma atoi_loop_nonneg s n v : 0 <= n -> atoi_loop s n = Some v -> 0 <= v.
Proof.
  revert n. induction s as [|c s IH]; intros n Hn; cbn [atoi_loop]; [intros [= <-]; lia|].
  destruct ((48 <=? c) && (c <=? 57)) eqn:E; [|intros [= <-]; lia].
  destruct (_ <? _); [|done]. apply IH. lia.
Qed.

(** sleep never rejects its argument: atoi() reads no sign, so a negative
    number, like any text that is not a number, sleeps for 0 ticks. *)
Theorem sleep_never_rejects a out ticks st : sleep_main [a] = Some (out, ticks, st) -> st = 0.
Proof.
  cbn [sleep_main]. destruct (_ || _); [by intros [= <- <- <-]|]. destruct (atoi a) as [n|] eqn:E; [|done].
  pose proof (atoi_loop_nonneg _ _ _ (Z.le_refl 0) E). rewrite (proj2 (Z.ltb_ge _ _)) by lia. by intros [= <- <- <-].
Qed.

(** A regular file open for writing: its bytes and the offset. *)
Definition put_file (f : list Z * nat) (b : list Z) : (list Z * nat) * Z :=
  ((take f.2 f.1 ++ b ++ drop (f.2 + length b) f.1, (f.2 + length b)%nat), Z.of_nat (length b)).

Lemma write_loop_file fuel fd c o :
  steady fd -> (length (concat fd) <= fuel)%nat -> (o <= length c)%nat ->
  write_loop _ put_file fuel fd (c, o) =
  Some ((take o c ++ concat fd ++ drop (o + length (concat fd)) c, (o + length (concat fd))%nat), []).
Proof.
  revert fd c o. induction fuel as [|fuel IH]; intros fd c o Hst Hf Ho; cbn [write_loop];
    destruct (uread_concat 512 fd ltac:(lia)) as [Hc Hl]; destruct (uread_steady 512 fd ltac:(lia) Hst) as [Hs He];
    destruct (Ulib.uread 512 fd) as [[|b bs] fd']; cbn [fst snd] in *.
  - rewrite He by done. cbn. by rewrite Nat.add_0_r, take_drop.
  - rewrite Hc in Hf. cbn in Hf. lia.
  - rewrite He by done. cbn. by rewrite Nat.add_0_r, take_drop.
  - set (r := b :: bs) in *. rewrite Z.eqb_refl. cbn [negb]. rewrite Hc in *. rewrite length_app in Hf.
    unfold put_file. cbn [fst snd].
    rewrite IH; [|done|unfold r in Hf; cbn in Hf; lia|rewrite !length_app, length_take; lia].
    do 2 f_equal. rewrite length_app. f_equal; [|lia].
    assert (Hlt : length (take o c ++ r) = (o + length r)%nat) by (rewrite length_app, length_take; lia).
    rewrite !app_assoc, <- Hlt, take_app_length, <- !app_assoc. do 2 f_equal.
    rewrite app_assoc, drop_app_add, drop_drop. f_equal. f_equal. lia.
Qed.

(** write overwrites: the lines typed replace the beginning of the file, and
    what lies behind them stays.  (The comment in the source says that they
    go to the end.) *)
Theorem write_overwrites filename old stdin :
  steady old -> steady stdin ->
  exists out, write_main _ put_file [filename] (Some old) (Some (concat old, 0%nat)) stdin =
    Some (Some (concat stdin ++ drop (length (concat stdin)) (concat old), length (concat stdin)), out, 0).
Proof.
  intros Ho Hs. unfold write_main. pose proof (cat_copies old Ho) as Hcat. unfold cat in Hcat. rewrite Hcat.
  rewrite write_loop_file by (done || lia). eauto.
Qed.

(** The generator computes 7^5 x mod (2^31 - 1) on [1, 2^31 - 2], shifted by
    one, from every value of the context, without a number of more than 31
    bits on the way. *)
Theorem do_rand_park_miller ctx :
  do_rand ctx = (16807 * (ctx mod 0x7ffffffe + 1)) mod (2 ^ 31 - 1) - 1 /\ 0 <= do_rand ctx <= 0x7ffffffd.
Proof.
  unfold do_rand. set (x := ctx mod 0x7ffffffe + 1). assert (Hx : 1 <= x <= 2 ^ 31 - 2) by (unfold x; zdm).
  clearbody x. pose proof (Z.div_mod x 127773 ltac:(lia)) as Hdm. pose proof (Z.mod_pos_bound x 127773 ltac:(lia)) as Hm.
  set (hi := x / 127773) in *. set (lo := x mod 127773) in *. assert (Hh : 0 <= hi <= 16807) by lia.
  assert (E : 16807 * x = hi * (2 ^ 31 - 1) + (16807 * lo - 2836 * hi)) by lia.
  assert (Hne : 16807 * lo - 2836 * hi <> 0).
  { intros H0. assert (Hd : (16807 | hi)).
    { apply (Z.gauss 16807 2836 hi); [exists lo; lia|by vm_compute]. }
    destruct Hd as [k Hk]. assert (k = 0 \/ k = 1) as [-> | ->] by lia; lia. }
  destruct (Z.ltb_spec (16807 * lo - 2836 * hi) 0).
  - rewrite E. split; [f_equal; apply (Z.mod_unique_pos _ _ (hi - 1)); lia|lia].
  - rewrite E. split; [f_equal; apply (Z.mod_unique_pos _ _ hi); lia|lia].
Qed.
