(* ===== verification/Umalloc.v ===== *)
(** * user/umalloc.c: malloc() and free()

    Kernighan and Ritchie's allocator.  A pointer to a Header is counted in
    Headers of 16 bytes, as its arithmetic is in C; [heap] holds the Headers
    at the addresses where one has been written.  A read of memory where
    there is none, or a loop that does not end, is the result [None]. *)

From S2P Require Import Prelude.

Record header : Set := mkHeader { h_ptr : Z; h_size : Z }.

(** base and freep, the Headers in memory and the break of the process in
    bytes. *)
Record ustate : Set := mkUstate { freep : Z; heap : gmap Z header; brk : Z }.

Definition sizeof_Header : Z := 16.
Definition set_freep (p : Z) (s : ustate) : ustate := mkUstate p (heap s) (brk s).
Definition set_heap (h : gmap Z header) (s : ustate) : ustate := mkUstate (freep s) h (brk s).
Definition set_brk (b : Z) (s : ustate) : ustate := mkUstate (freep s) (heap s) b.

Section umalloc.
(** The address of the static Header base, and the sizes the kernel has the
    memory to let the process grow to. *)
Variable base : Z.
Variable granted : Z -> bool.

(** for(p = freep; !(bp > p && bp < p->s.ptr); p = p->s.ptr) *)
Fixpoint free_find (fuel : nat) (h : gmap Z header) (bp p : Z) : option Z :=
  match h !! p with
  | None => None
  | Some x =>
      if (p <? bp) && (bp <? h_ptr x) then Some p
      else if (h_ptr x <=? p) && ((p <? bp) || (bp <? h_ptr x)) then Some p
      else match fuel with
           | O => None
           | S fuel => free_find fuel h bp (h_ptr x)
           end
  end.

(** if(bp + bp->s.size == p->s.ptr) ... else bp->s.ptr = p->s.ptr; *)
Definition join_next (h : gmap Z header) (bp p : Z) : option (gmap Z header) :=
  match h !! bp, h !! p with
  | Some b, Some x =>
      if bp + h_size b =? h_ptr x then
        match h !! h_ptr x with
        | Some n => Some (<[bp := mkHeader (h_ptr n) (u32 (h_size b + h_size n))]> h)
        | None => None
        end
      else Some (<[bp := mkHeader (h_ptr x) (h_size b)]> h)
  | _, _ => None
  end.

(** if(p + p->s.size == bp) ... else p->s.ptr = bp; *)
Definition join_prev (h : gmap Z header) (bp p : Z) : option (gmap Z header) :=
  match h !! bp, h !! p with
  | Some b, Some x =>
      if p + h_size x =? bp then Some (<[p := mkHeader (h_ptr b) (u32 (h_size x + h_size b))]> h)
      else Some (<[p := mkHeader bp (h_size x)]> h)
  | _, _ => None
  end.

(** [ap] is a byte address. *)
Definition free (fuel : nat) (ap : Z) (s : ustate) : option ustate :=
  let bp := ap / sizeof_Header - 1 in
  match free_find fuel (heap s) bp (freep s) with
  | None => None
  | Some p =>
      match join_next (heap s) bp p with
      | None => None
      | Some h =>
          match join_prev h bp p with
          | None => None
          | Some h => Some (set_freep p (set_heap h s))
          end
      end
  end.

(** sbrk(n), as sys_sbrk() and growproc() in the kernel answer it: the old
    break, or [None] for -1; n is an int, and a size that would be negative
    wraps around to one that uvmdealloc() ignores. *)
Definition sbrk (n : Z) (s : ustate) : option (Z * ustate) :=
  let n := i32 n in
  if 0 <? n then
    if granted (brk s + n) then Some (brk s, set_brk (brk s + n) s) else None
  else
    let newsz := u64 (brk s + n) in
    Some (brk s, if brk s <=? newsz then s else set_brk newsz s).

(** The result is freep, or 0. *)
Definition morecore (fuel : nat) (nu : Z) (s : ustate) : option (Z * ustate) :=
  let nu := if nu <? 4096 then 4096 else nu in
  match sbrk (nu * sizeof_Header) s with
  | None => Some (0, s)
  | Some (p, s) =>
      let hp := p / sizeof_Header in
      let old := default (mkHeader 0 0) (heap s !! hp) in
      match free fuel ((hp + 1) * sizeof_Header) (set_heap (<[hp := mkHeader (h_ptr old) nu]> (heap s)) s) with
      | None => None
      | Some s => Some (freep s, s)
      end
  end.

(** The body of the if: the block [p], with Header [x], is large enough. *)
Definition take_block (nunits prevp p : Z) (x : header) (s : ustate) : option (Z * ustate) :=
  if h_size x =? nunits then
    match heap s !! prevp with
    | Some y => Some ((p + 1) * sizeof_Header, set_freep prevp (set_heap (<[prevp := mkHeader (h_ptr x) (h_size y)]> (heap s)) s))
    | None => None
    end
  else
    let rest := u32 (h_size x - nunits) in
    let q := p + rest in
    let h := <[p := mkHeader (h_ptr x) rest]> (heap s) in
    let old := default (mkHeader 0 0) (h !! q) in
    Some ((q + 1) * sizeof_Header, set_freep prevp (set_heap (<[q := mkHeader (h_ptr old) nunits]> h) s)).

(** for(p = prevp->s.ptr; ; prevp = p, p = p->s.ptr) *)
Fixpoint malloc_loop (fuel : nat) (nunits prevp p : Z) (s : ustate) : option (Z * ustate) :=
  match heap s !! p with
  | None => None
  | Some x =>
      if nunits <=? h_size x then take_block nunits prevp p x s
      else
        match fuel with
        | O => None
        | S fuel =>
            if p =? freep s then
              match morecore fuel nunits s with
              | None => None
              | Some (q, s) =>
                  if q =? 0 then Some (0, s)
                  else
                    match heap s !! q with
                    | None => None
                    | Some y => malloc_loop fuel nunits q (h_ptr y) s
                    end
              end
            else malloc_loop fuel nunits p (h_ptr x) s
        end
  end.

Definition malloc (fuel : nat) (nbytes : Z) (s : ustate) : option (Z * ustate) :=
  let nunits := u32 ((nbytes + sizeof_Header - 1) / sizeof_Header + 1) in
  let s := if freep s =? 0 then set_freep base (set_heap (<[base := mkHeader base 0]> (heap s)) s) else s in
  match heap s !! freep s with
  | None => None
  | Some x => malloc_loop fuel nunits (freep s) (h_ptr x) s
  end.

(** ** The free list *)

(** Blocks: address and number of units, the Header included. *)
Abbreviation block := (Z * Z)%type.

Definition first (l : list block) (e : Z) : Z := match l with [] => e | x :: _ => x.1 end.

(** [l] is linked in [h], and its last Header points to [e]. *)
Fixpoint seg (h : gmap Z header) (l : list block) (e : Z) : Prop :=
  match l with
  | [] => True
  | x :: l => h !! x.1 = Some (mkHeader (first l e) x.2) /\ seg h l e
  end.

Lemma first_app l1 l2 e : first (l1 ++ l2) e = first l1 (first l2 e).
Proof using. by destruct l1. Qed.

Lemma seg_app h l1 l2 e : seg h (l1 ++ l2) e <-> seg h l1 (first l2 e) /\ seg h l2 e.
Proof using.
  clear granted. induction l1 as [|x l1 IH]; cbn [app seg]; [tauto|]. rewrite first_app, IH. tauto.
Qed.

Lemma seg_insert h l e a v : a ∉ map fst l -> seg h l e -> seg (<[a := v]> h) l e.
Proof using.
  induction l as [|x l IH]; [done|]. cbn [map seg]. rewrite not_elem_of_cons. intros [Hx Hl] [H1 H2].
  split; [by rewrite lookup_insert_ne|auto].
Qed.

Lemma seg_at h l1 x l2 e : seg h (l1 ++ x :: l2) e -> h !! x.1 = Some (mkHeader (first l2 e) x.2).
Proof using. rewrite seg_app. intros (_ & H & _). done. Qed.

(** Ascending and not even adjacent: free blocks that touch are joined. *)
Fixpoint asc (lo : Z) (l : list block) : Prop :=
  match l with
  | [] => True
  | x :: l => lo <= x.1 /\ 0 <= x.2 /\ asc (x.1 + x.2 + 1) l
  end.

Lemma asc_weaken lo lo' l : lo' <= lo -> asc lo l -> asc lo' l.
Proof using. destruct l as [|x l]; [done|]. cbn [asc]. intros ? (? & ? & ?). repeat split; auto; lia. Qed.

Lemma asc_bound lo l : asc lo l -> Forall (fun y => lo <= y.1) l.
Proof using.
  revert lo. induction l as [|x l IH]; intros lo; [constructor|]. cbn [asc]. intros (H1 & H2 & H3). constructor; [done|].
  eapply Forall_impl; [apply (IH _ H3)|]. cbn. intros y Hy. lia.
Qed.

Lemma asc_app lo l1 x l2 :
  asc lo (l1 ++ x :: l2) <->
  asc lo l1 /\ lo <= x.1 /\ 0 <= x.2 /\ asc (x.1 + x.2 + 1) l2 /\ Forall (fun y => y.1 + y.2 < x.1) l1.
Proof using.
  revert lo. induction l1 as [|y l1 IH]; intros lo; cbn [app asc].
  - clear granted. split; [|tauto]. intros (? & ? & ?). by repeat split.
  - rewrite IH, Forall_cons. split.
    + intros (H1 & H2 & H3 & H4 & H5 & H6 & H7). repeat split; auto; lia.
    + intros ((H1 & H2 & H3) & H4 & H5 & H6 & H7 & H8). repeat split; auto; lia.
Qed.

Lemma asc_NoDup lo l : asc lo l -> NoDup (map fst l).
Proof using.
  revert lo. induction l as [|x l IH]; intros lo; cbn [asc map]; [constructor|]. intros (H1 & H2 & H3). constructor; [|by eapply IH].
  intros (y & Hy & Hin)%list_elem_of_fmap. apply asc_bound in H3. rewrite Forall_forall in H3. specialize (H3 y Hin). lia.
Qed.

(** *** The search of free() *)

Lemma find_low fuel h bp M p L2 e lo :
  seg h (M ++ p :: L2) e -> Forall (fun y => y.1 < bp) (M ++ [p]) -> asc lo (M ++ [p]) -> (length M <= fuel)%nat ->
  bp < first L2 e \/ first L2 e <= p.1 ->
  free_find fuel h bp (first (M ++ [p]) 0) = Some p.1.
Proof using.
  revert fuel lo. induction M as [|x M IH]; intros fuel lo Hs Hb Ha Hf Hn; cbn [app first] in *.
  - destruct Hs as [H1 _]. apply Forall_cons in Hb as [Hb _]. destruct fuel; cbn [free_find]; rewrite H1; cbn [h_ptr];
      destruct (Z.ltb_spec p.1 bp), (Z.ltb_spec bp (first L2 e)), (Z.leb_spec (first L2 e) p.1); cbn [andb orb]; try done; lia.
  - destruct Hs as [H1 H2]. apply Forall_cons in Hb as [Hx Hb]. cbn [asc] in Ha. destruct Ha as (_ & Hx2 & Ha).
    destruct fuel as [|fuel]; [cbn in Hf; lia|]. cbn [free_find]. rewrite H1. cbn [h_ptr].
    assert (Hfirst : first (M ++ p :: L2) e = first (M ++ [p]) 0) by (by destruct M). rewrite Hfirst.
    assert (Hy : x.1 < first (M ++ [p]) 0 < bp).
    { destruct M as [|z M]; cbn [app first asc] in *; apply Forall_cons in Hb as [Hb _]; lia. }
    destruct (Z.ltb_spec x.1 bp), (Z.ltb_spec bp (first (M ++ [p]) 0)), (Z.leb_spec (first (M ++ [p]) 0) x.1); cbn [andb orb]; try lia.
    eapply IH; try done. cbn in Hf. lia.
Qed.

(** From above the block the search wraps around to [e], the lowest. *)
Lemma find_high fuel h bp M e lo :
  seg h M e -> Forall (fun y => bp < y.1) M -> asc lo M -> (length M <= fuel)%nat -> e < bp ->
  free_find fuel h bp (first M e) = free_find (fuel - length M) h bp e.
Proof using.
  revert fuel lo. induction M as [|x M IH]; intros fuel lo Hs Hb Ha Hf He; cbn [first length]; [by rewrite Nat.sub_0_r|].
  destruct Hs as [H1 H2]. apply Forall_cons in Hb as [Hx Hb]. cbn [asc] in Ha. destruct Ha as (_ & Hx2 & Ha).
  destruct fuel as [|fuel]; [cbn in Hf; lia|]. cbn [free_find]. rewrite H1. cbn [h_ptr].
  assert (Hy : first M e = e \/ x.1 < first M e) by (destruct M as [|z M]; cbn [first asc] in *; [by left|right; lia]).
  destruct (Z.ltb_spec x.1 bp), (Z.leb_spec (first M e) x.1), (Z.ltb_spec bp (first M e)); cbn [andb orb]; try lia;
    rewrite (IH fuel _ H2 Hb Ha) by (done || (cbn in Hf; lia)); by rewrite Nat.sub_succ.
Qed.

Lemma asc_prefix lo l1 l2 : asc lo (l1 ++ l2) -> asc lo l1.
Proof using. revert lo. induction l1 as [|x l1 IH]; intros lo; cbn [app asc]; [done|]. intros (? & ? & ?). eauto. Qed.

Lemma asc_suffix lo l1 l2 : asc lo (l1 ++ l2) -> exists lo', asc lo' l2.
Proof using. revert lo. induction l1 as [|x l1 IH]; intros lo; cbn [app asc]; [eauto|]. intros (? & ? & ?). eauto. Qed.

Lemma find_from_low fuel h bp M1 M2 p L2 e lo :
  seg h (M1 ++ M2 ++ p :: L2) e -> asc lo (M1 ++ M2 ++ p :: L2) -> Forall (fun y => y.1 < bp) (M2 ++ [p]) ->
  (length M2 <= fuel)%nat -> bp < first L2 e \/ first L2 e <= p.1 ->
  free_find fuel h bp (first (M2 ++ [p]) 0) = Some p.1.
Proof using.
  intros Hs Ha Hb Hf Hn. apply seg_app in Hs as [_ Hs]. apply asc_suffix in Ha as [lo' Ha].
  apply (find_low fuel h bp M2 p L2 e lo'); try done. apply (asc_prefix _ _ L2). by rewrite <- app_assoc.
Qed.

(** An element of a list that is cut in two is in one of the parts. *)
Lemma split_cases {A} (l1 l2 : list A) x :
  x ∈ l1 ++ l2 -> (exists a b, l1 = a ++ x :: b) \/ (exists a b, l2 = a ++ x :: b).
Proof using. intros [H|H]%elem_of_app; apply list_elem_of_split in H as (a & b & ->); eauto. Qed.

Lemma free_find_run fuel h bp f L1 p L2 lo :
  let N := L1 ++ p :: L2 in
  seg h N (first N 0) -> asc lo N -> f ∈ map fst N -> (length N <= fuel)%nat ->
  Forall (fun y => y.1 < bp) (L1 ++ [p]) -> Forall (fun y => bp < y.1) L2 ->
  free_find fuel h bp f = Some p.1.
Proof using.
  intros N Hs Ha Hin Hf Hlow Hhigh. set (e := first N 0) in *.
  assert (He : e = first (L1 ++ [p]) 0) by (unfold e, N; by destruct L1).
  assert (Heb : e <= p.1 /\ e < bp).
  { apply asc_app in Ha as (A1 & A2 & A3 & _ & A4). rewrite He. destruct L1 as [|x L1]; cbn [app first] in *;
      apply Forall_cons in Hlow as [? _]; [lia|]. apply Forall_cons in A4 as [? _]. cbn [asc] in A1. lia. }
  assert (Hn : bp < first L2 e \/ first L2 e <= p.1).
  { destruct L2 as [|z L2]; [right; cbn; lia|left]. by apply Forall_cons in Hhigh as [? _]. }
  assert (HN : N = (L1 ++ [p]) ++ L2) by (unfold N; by rewrite <- app_assoc).
  apply list_elem_of_fmap in Hin as (x & -> & Hx). rewrite HN in Hx. apply split_cases in Hx as [(X & Y & HXY)|(X & Y & HXY)].
  - destruct Y as [|y Y _] using rev_ind.
    + apply app_inj_tail in HXY as [-> ->]. apply (find_from_low fuel h bp X [] x L2 e lo); try done; [|cbn; lia].
      rewrite Forall_app in Hlow. apply Hlow.
    + rewrite app_comm_cons, app_assoc in HXY. apply app_inj_tail in HXY as [HL <-].
      unfold N in Hs, Ha, Hf. rewrite HL in *. rewrite <- app_assoc in Hs, Ha.
      apply (find_from_low fuel h bp X (x :: Y) p L2 e lo); try done.
      * rewrite <- app_assoc, Forall_app in Hlow. apply Hlow.
      * rewrite !length_app in Hf. cbn in *. lia.
  - pose proof Hs as Hs2. rewrite HN, HXY, app_assoc in Hs2. apply seg_app in Hs2 as [_ Hs2].
    pose proof Ha as Ha'. rewrite HN, HXY, app_assoc in Ha'. apply asc_suffix in Ha' as [lo' Ha2].
    change x.1 with (first (x :: Y) e). rewrite (find_high fuel h bp (x :: Y) e lo'); try done.
    + rewrite He. apply (find_from_low (fuel - length (x :: Y)) h bp [] L1 p L2 e lo); try done.
      unfold N in Hf. rewrite HXY, !length_app in Hf. cbn in *. rewrite length_app in Hf. cbn in Hf. lia.
    + rewrite HXY, Forall_app in Hhigh. apply Hhigh.
    + unfold N in Hf. rewrite HXY, !length_app in Hf. cbn in *. rewrite length_app in Hf. cbn in Hf. lia.
    + lia.
Qed.

(** *** Joining blocks *)

(** The block in front of the list, joined to the first one if they touch. *)
Definition absorb (x : block) (l : list block) : list block :=
  match l with
  | y :: l' => if x.1 + x.2 =? y.1 then (x.1, x.2 + y.2) :: l' else x :: l
  | [] => [x]
  end.

Definition units (x : block) : list Z := seqZ x.1 x.2.
Definition cover (l : list block) : list Z := concat (map units l).

Lemma cover_cons x l : cover (x :: l) = units x ++ cover l.
Proof using. done. Qed.

Lemma cover_app l1 l2 : cover (l1 ++ l2) = cover l1 ++ cover l2.
Proof using. unfold cover. by rewrite map_app, concat_app. Qed.

#[local] Instance cover_proper : Proper ((≡ₚ) ==> (≡ₚ)) cover.
Proof using. intros l l' H. unfold cover. by rewrite H. Qed.

Lemma units_join a k j : 0 <= k -> 0 <= j -> units (a, k + j) = units (a, k) ++ units (a + k, j).
Proof using. intros. by apply seqZ_app. Qed.

Lemma cover_absorb x l : 0 <= x.2 -> Forall (fun y => 0 <= y.2) l -> cover (absorb x l) = cover (x :: l).
Proof using.
  intros Hx Hl. destruct l as [|y l]; [done|]. cbn [absorb]. destruct (Z.eqb_spec (x.1 + x.2) y.1) as [He|]; [|done].
  apply Forall_cons in Hl as [Hy _]. rewrite !cover_cons, units_join by done. rewrite He, <- app_assoc. by destruct x, y.
Qed.

Lemma absorb_nonneg x l : 0 <= x.2 -> Forall (fun y => 0 <= y.2) l -> Forall (fun y => 0 <= y.2) (absorb x l).
Proof using.
  intros Hx Hl. destruct Hl as [|y l Hy Hl]; cbn [absorb]; [by constructor|]. destruct (_ =? _); repeat constructor; cbn; auto; lia.
Qed.

Lemma join_next_run h bp k q p ps l e :
  h !! bp = Some (mkHeader q k) -> h !! p = Some (mkHeader (first l e) ps) ->
  seg h l e -> bp ∉ map fst l -> e < bp -> Forall (fun y => 0 <= y.2 < 2 ^ 31) l -> 0 <= k < 2 ^ 31 ->
  exists h', join_next h bp p = Some h' /\ seg h' (absorb (bp, k) l) e /\ forall a, a <> bp -> h' !! a = h !! a.
Proof using.
  intros Hb Hp Hs Hn He Hl Hk. unfold join_next. rewrite Hb, Hp. cbn [h_size h_ptr].
  assert (Hloc : forall v a, a <> bp -> <[bp := v]> h !! a = h !! a) by (intros; by rewrite lookup_insert_ne).
  destruct l as [|y l]; cbn [first absorb fst snd] in *.
  - destruct (Z.eqb_spec (bp + k) e); [lia|]. eexists. split; [done|]. split; [|apply Hloc].
    cbn [seg first fst snd]. by rewrite lookup_insert_eq.
  - destruct Hs as [H1 H2]. cbn [map] in Hn. rewrite not_elem_of_cons in Hn. destruct Hn as [N1 N2].
    apply Forall_cons in Hl as [Hy Hl]. destruct (Z.eqb_spec (bp + k) y.1) as [Heq|Hne].
    + rewrite H1. cbn [h_size h_ptr]. eexists. split; [done|]. split; [|apply Hloc]. cbn [seg fst snd].
      rewrite lookup_insert_eq, u32_small by lia. split; [done|by apply seg_insert].
    + eexists. split; [done|]. split; [|apply Hloc]. cbn [seg first fst snd]. rewrite lookup_insert_eq. split; [done|].
      split; [by rewrite lookup_insert_ne|by apply seg_insert].
Qed.

Lemma join_prev_run h bp p ptr x l e :
  x.1 = bp -> h !! p.1 = Some (mkHeader ptr p.2) -> seg h (x :: l) e -> p.1 ∉ map fst (x :: l) ->
  0 <= p.2 -> 0 <= x.2 -> p.2 + x.2 < 2 ^ 32 ->
  exists h', join_prev h bp p.1 = Some h' /\ seg h' (absorb p (x :: l)) e /\ forall a, a <> p.1 -> h' !! a = h !! a.
Proof using.
  intros Hx Hp [H1 H2] Hn P1 P2 P3. unfold join_prev. rewrite <- Hx, H1, Hp. cbn [h_size h_ptr absorb].
  cbn [map] in Hn. rewrite not_elem_of_cons in Hn. destruct Hn as [N1 N2].
  assert (Hloc : forall v a, a <> p.1 -> <[p.1 := v]> h !! a = h !! a) by (intros; by rewrite lookup_insert_ne).
  destruct (p.1 + p.2 =? x.1); (eexists; split; [done|]; split; [|apply Hloc]); cbn [seg first fst snd]; rewrite lookup_insert_eq.
  - rewrite u32_small by lia. split; [done|by apply seg_insert].
  - split; [done|]. split; [by rewrite lookup_insert_ne|by apply seg_insert].
Qed.

Lemma asc_swap a L1 p L2 M : asc a (L1 ++ p :: L2) -> asc p.1 M -> asc a (L1 ++ M).
Proof using.
  revert a. induction L1 as [|x L1 IH]; intros a; cbn [app asc].
  - intros (H & _) HM. by eapply asc_weaken.
  - intros (H1 & H2 & H3) HM. auto.
Qed.

Lemma asc_raise a b l : asc a l -> (l <> [] -> b <= first l 0) -> asc b l.
Proof using. destruct l as [|x l]; [done|]. cbn [asc first]. intros (_ & H) Hb. split; [by apply Hb|done]. Qed.

Lemma asc_absorb a x l : a <= x.1 -> 0 <= x.2 -> asc (x.1 + x.2) l -> asc a (absorb x l).
Proof using.
  intros Ha Hx Hl. destruct l as [|y l]; cbn [absorb]; [cbn; lia|]. cbn [asc] in Hl. destruct Hl as (H1 & H2 & H3).
  destruct (Z.eqb_spec (x.1 + x.2) y.1) as [He|Hne]; cbn [asc fst snd]; (split; [done|]).
  - split; [lia|]. eapply asc_weaken; [|exact H3]. lia.
  - split; [done|]. split; [lia|]. done.
Qed.

Lemma first_absorb x l e : first (absorb x l) e = x.1.
Proof using. destruct l as [|y l]; [done|]. cbn [absorb]. by destruct (_ =? _). Qed.

Lemma absorb_addrs x l a : a ∈ map fst (absorb x l) -> a = x.1 \/ a ∈ map fst l.
Proof using.
  destruct l as [|y l]; cbn [absorb map]; [|destruct (_ =? _); cbn [map fst]]; rewrite ?elem_of_cons; clear granted; intuition.
Qed.

(** Where an address belongs in the list. *)
Lemma asc_split a l bp :
  asc a l -> l <> [] -> first l 0 < bp ->
  exists L1 p L2, l = L1 ++ p :: L2 /\ Forall (fun y => y.1 < bp) (L1 ++ [p]) /\ Forall (fun y => bp <= y.1) L2.
Proof using.
  revert a. induction l as [|x l IH]; intros a; [done|]. cbn [asc first]. intros (H1 & H2 & H3) _ Hx.
  destruct l as [|y l]; [exists [], x, []; split; [done|]; by split; repeat constructor|].
  destruct (decide (y.1 < bp)) as [Hy|Hy].
  - destruct (IH _ H3 ltac:(done) Hy) as (L1 & p & L2 & -> & HF & HG). exists (x :: L1), p, L2. split; [done|]. split; [|done].
    by constructor.
  - exists [], x, (y :: l). split; [done|]. split; [by repeat constructor|]. cbn [asc] in H3. destruct H3 as (B1 & B2 & B3).
    constructor; [lia|]. eapply Forall_impl; [exact (asc_bound _ _ B3)|]. cbn. intros z Hz. lia.
Qed.

(** free() of the block [x] into the list [L1 ++ p :: L2]. *)
Lemma free_links h x q L1 p L2 e :
  seg h (L1 ++ p :: L2) e -> h !! x.1 = Some (mkHeader q x.2) -> x.1 ∉ map fst (L1 ++ p :: L2) ->
  NoDup (map fst (L1 ++ p :: L2)) -> e < x.1 ->
  0 <= p.2 -> 0 <= x.2 -> Forall (fun y => 0 <= y.2) L2 ->
  p.2 + x.2 < 2 ^ 31 -> Forall (fun y => p.2 + x.2 + y.2 < 2 ^ 31) L2 ->
  exists h1 h2, join_next h x.1 p.1 = Some h1 /\ join_prev h1 x.1 p.1 = Some h2 /\
    seg h2 (L1 ++ absorb p (absorb x L2)) e /\ forall a, a <> x.1 -> a <> p.1 -> h2 !! a = h !! a.
Proof using.
  intros Hs Hx Hn Hnd He P1 P2 P3 P4 P5. rewrite map_app in Hn, Hnd. cbn [map] in Hn, Hnd.
  rewrite not_elem_of_app, not_elem_of_cons in Hn. destruct Hn as (N1 & N2 & N3).
  apply NoDup_app in Hnd as (_ & D1 & D2). apply NoDup_cons in D2 as [D2 _].
  apply seg_app in Hs as [S1 [S2 S3]].
  destruct (join_next_run h x.1 x.2 q p.1 p.2 L2 e) as (h1 & J1 & J2 & J3); try done; [|lia|].
  { pose proof (proj2 (Forall_and _ _) (conj P3 P5)) as HF. eapply Forall_impl; [exact HF|]. cbn. intros y Hy. lia. }
  assert (Ex : absorb (x.1, x.2) L2 = absorb x L2) by (by destruct x). rewrite Ex in J2.
  assert (Habs : exists y l, absorb x L2 = y :: l /\ y.1 = x.1 /\ 0 <= y.2 /\ p.2 + y.2 < 2 ^ 32).
  { destruct L2 as [|y L2]; cbn [absorb]; [exists x, []; repeat split; auto; lia|]. apply Forall_cons in P3 as [? _].
    apply Forall_cons in P5 as [? _]. destruct (_ =? _); eexists _, _; split; [reflexivity| |reflexivity|]; cbn; repeat split; lia. }
  destruct Habs as (y & l & Ey & Y1 & Y2 & Y3). rewrite Ey in *.
  assert (Hp1 : p.1 ∉ map fst (y :: l)).
  { rewrite <- Ey. intros [Hin|Hin]%absorb_addrs; [congruence|by apply D2]. }
  destruct (join_prev_run h1 x.1 p (first L2 e) y l e) as (h2 & K1 & K2 & K3); try done; [by rewrite J3|].
  exists h1, h2. split; [done|]. split; [done|]. split.
  - apply seg_app. split; [|done]. rewrite first_absorb.
    assert (Hloc : forall a, a <> x.1 -> a <> p.1 -> h2 !! a = h !! a) by (intros; rewrite K3 by done; by apply J3).
    assert (Hin : forall z, z ∈ map fst L1 -> h2 !! z = h !! z).
    { intros z Hz. apply Hloc; [intros ->; by apply N1|]. intros ->. apply (D1 p.1 Hz), elem_of_cons. by left. }
    clear - S1 Hin. induction L1 as [|z L1 IH]; [done|]. cbn [seg map first] in *. destruct S1 as [T1 T2]. split.
    + rewrite Hin by (apply elem_of_cons; by left). rewrite T1. by destruct L1.
    + apply IH; [done|]. intros w Hw. apply Hin, elem_of_cons. by right.
  - intros a A1 A2. rewrite K3 by done. by apply J3.
Qed.

(** ** The state of the allocator

    [F] are the free blocks, [A] the allocated ones.  Together they are,
    each unit once, all the units the process has got from sbrk(). *)

Variable lo limit : Z.
Hypothesis base_pos : 0 < base.
Hypothesis base_below : base < lo.
Hypothesis limit_small : limit < 2 ^ 31.
Hypothesis granted_limit : forall b, granted b = true -> b <= limit.

Record rep (s : ustate) (F A : list block) : Prop := {
  rp_seg : seg (heap s) ((base, 0) :: F) base;
  rp_freep : freep s ∈ base :: map fst F;
  rp_asc : asc base ((base, 0) :: F);
  rp_pos : Forall (fun x => 1 <= x.2) (F ++ A);
  rp_alloc : Forall (fun x => exists p, heap s !! x.1 = Some (mkHeader p x.2)) A;
  rp_brk : brk s <= limit;
  rp_cover : exists hi, brk s = 16 * hi /\ lo <= hi /\ cover (F ++ A) ≡ₚ seqZ lo (hi - lo)
}.

Lemma units_in x y : 1 <= x.2 -> y ∈ units x <-> x.1 <= y < x.1 + x.2.
Proof using. intros. unfold units. by rewrite elem_of_seqZ. Qed.

(** Blocks lie in the heap. *)
Lemma cover_range l a n x : cover l ≡ₚ seqZ a n -> x ∈ l -> 1 <= x.2 -> a <= x.1 /\ x.1 + x.2 <= a + n.
Proof using.
  intros Hc Hin Hx. assert (Hsub : forall y, x.1 <= y < x.1 + x.2 -> a <= y < a + n).
  { intros y Hy. apply elem_of_seqZ. rewrite <- Hc. unfold cover. apply list_elem_of_In, in_concat. exists (units x).
    split; [by apply in_map, list_elem_of_In|]. apply list_elem_of_In, units_in; lia. }
  pose proof (Hsub x.1 ltac:(lia)). pose proof (Hsub (x.1 + x.2 - 1) ltac:(lia)). lia.
Qed.

(** Two blocks do not overlap. *)
Lemma cover_disjoint l l' x y a n :
  cover l ≡ₚ seqZ a n -> l ≡ₚ x :: y :: l' -> 1 <= x.2 -> 1 <= y.2 -> x.1 + x.2 <= y.1 \/ y.1 + y.2 <= x.1.
Proof using.
  intros Hc Hl Hx Hy. assert (Hnd : NoDup (units x ++ units y)).
  { assert (Hnd : NoDup (cover (x :: y :: l'))).
    { assert (Hp : cover l ≡ₚ cover (x :: y :: l')) by (unfold cover; by rewrite Hl). rewrite <- Hp, Hc. apply NoDup_seqZ. }
    rewrite !cover_cons, app_assoc in Hnd. by apply NoDup_app in Hnd as [? _]. }
  apply NoDup_app in Hnd as (_ & Hd & _).
  destruct (decide (x.1 + x.2 <= y.1)) as [|H1]; [by left|]. destruct (decide (y.1 + y.2 <= x.1)) as [|H2]; [by right|].
  exfalso. apply (Hd (Z.max x.1 y.1)); apply units_in; lia.
Qed.

Lemma rep_range s F A x :
  rep s F A -> x ∈ F ++ A -> lo <= x.1 /\ 1 <= x.2 /\ 16 * (x.1 + x.2) <= brk s.
Proof using.
  intros H Hin. destruct (rp_cover _ _ _ H) as (hi & Hb & Hlo & Hc). pose proof (rp_pos _ _ _ H) as Hp.
  rewrite Forall_forall in Hp. specialize (Hp x Hin). destruct (cover_range _ _ _ _ Hc Hin Hp). lia.
Qed.

Lemma rep_disjoint s F A x y l :
  rep s F A -> F ++ A ≡ₚ x :: y :: l -> x.1 + x.2 <= y.1 \/ y.1 + y.2 <= x.1.
Proof using.
  intros H Hl. destruct (rp_cover _ _ _ H) as (hi & Hb & Hlo & Hc). pose proof (rp_pos _ _ _ H) as Hp.
  rewrite Hl, !Forall_cons in Hp. apply (cover_disjoint _ l x y _ _ Hc Hl); lia.
Qed.

(** A free and an allocated block. *)
Lemma rep_apart s F A x y : rep s F A -> x ∈ F -> y ∈ A -> x.1 + x.2 <= y.1 \/ y.1 + y.2 <= x.1.
Proof using.
  intros H Hx Hy. apply list_elem_of_split in Hx as (F1 & F2 & ->). apply list_elem_of_split in Hy as (A1 & A2 & ->).
  apply (rep_disjoint s (F1 ++ x :: F2) (A1 ++ y :: A2) x y (F1 ++ F2 ++ A1 ++ A2) H). solve_Permutation.
Qed.

(** The Header of an allocated block is not one of the list. *)
Lemma rep_alloc_ne s F A p y : rep s F A -> p ∈ (base, 0) :: F -> y ∈ A -> y.1 <> p.1.
Proof using base_below.
  intros H Hp Hy He. destruct (rep_range s F A y H) as (Y1 & Y2 & _); [apply elem_of_app; by right|].
  apply elem_of_cons in Hp as [->|Hp]; [cbn in He; lia|].
  destruct (rep_range s F A p H) as (_ & P2 & _); [apply elem_of_app; by left|].
  destruct (rep_apart s F A p y H Hp Hy) as [?|?]; lia.
Qed.

(** free() finds the place of the block in the list and links it there. *)
Lemma free_place s F A x fuel :
  rep s F (x :: A) -> (S (length F) <= fuel)%nat ->
  exists L1 p L2 h, (base, 0) :: F = L1 ++ p :: L2 /\
    free fuel ((x.1 + 1) * sizeof_Header) s = Some (set_freep p.1 (set_heap h s)) /\
    seg h (L1 ++ absorb p (absorb x L2)) base /\ (forall a, a <> x.1 -> a <> p.1 -> h !! a = heap s !! a) /\
    0 < p.1 /\ 0 <= p.2 /\ p.1 + p.2 <= x.1 /\ 1 <= x.2 /\ Forall (fun y => x.1 + x.2 <= y.1) L2.
Proof using base_pos base_below limit_small.
  intros H Hfuel. pose proof (rep_range s F (x :: A) x H) as Hx. rewrite elem_of_app, elem_of_cons in Hx.
  specialize (Hx ltac:(auto)). pose proof H as [R1 R2 R3 R4 R5 R6 R7].
  assert (HF : forall y, y ∈ F -> lo <= y.1 /\ 1 <= y.2 /\ 16 * (y.1 + y.2) <= brk s /\ (y.1 + y.2 <= x.1 \/ x.1 + x.2 <= y.1)).
  { intros y Hy. destruct (rep_range s F (x :: A) y H) as (? & ? & ?); [by apply elem_of_app; left|].
    repeat split; try done. apply (rep_apart s F (x :: A)); [done|done|]. apply elem_of_cons. by left. }
  assert (HN : x.1 ∉ map fst ((base, 0) :: F)).
  { cbn [map]. rewrite not_elem_of_cons. split; [cbn; lia|]. intros (y & Hy & Hin)%list_elem_of_fmap. destruct (HF y Hin). lia. }
  destruct (asc_split base ((base, 0) :: F) x.1 R3) as (L1 & p & L2 & HL & Hlow & Hhigh); [done|cbn; lia|].
  apply Forall_cons in R5 as [[q Hq] R5]. 
  assert (Hpb : p = (base, 0) /\ L1 = [] \/ p ∈ F).
  { destruct L1 as [|y L1]; injection HL as <- HL; [by left|right]. rewrite HL. apply elem_of_app. right. apply elem_of_cons. by left. }
  assert (HL2 : forall y, y ∈ L2 -> y ∈ F).
  { intros y Hy. destruct L1 as [|z L1]; injection HL as <- HL; rewrite HL; [done|]. apply elem_of_app. right. apply elem_of_cons. by right. }
  assert (Hhigh' : Forall (fun y => x.1 < y.1) L2).
  { rewrite Forall_forall in *. intros y Hy. specialize (Hhigh y Hy). destruct (HF y (HL2 y Hy)) as (_ & ? & _ & [?|?]); lia. }
  assert (Hp : 0 < p.1 < x.1 /\ 0 <= p.2 /\ p.1 + p.2 <= x.1).
  { apply Forall_app in Hlow as [_ Hlow]. apply Forall_cons in Hlow as [Hlow _]. destruct Hpb as [[-> _]|Hp]; [cbn in *; lia|].
    destruct (HF p Hp) as (? & ? & _ & [?|?]); lia. }
  rewrite HL in R1, R3, HN. assert (Hbase : base = first (L1 ++ p :: L2) 0) by (by rewrite <- HL).
  assert (Hfind : free_find fuel (heap s) x.1 (freep s) = Some p.1).
  { rewrite Hbase in R1. apply (free_find_run fuel (heap s) x.1 (freep s) L1 p L2 base); try done.
    - rewrite <- HL. exact R2.
    - rewrite <- HL. done. }
  destruct (free_links (heap s) x q L1 p L2 base) as (h1 & h2 & J1 & J2 & J3 & J4); try done; try lia.
  { by eapply asc_NoDup. }
  { apply Forall_forall. intros y Hy. destruct (HF y (HL2 y Hy)) as (_ & ? & _). lia. }
  { apply Forall_forall. intros y Hy. destruct (HF y (HL2 y Hy)) as (? & ? & ? & [?|?]); rewrite Forall_forall in Hhigh'; specialize (Hhigh' y Hy); lia. }
  unfold free, sizeof_Header. rewrite Z.div_mul by lia. replace (x.1 + 1 - 1) with x.1 by lia. rewrite Hfind, J1, J2.
  exists L1, p, L2, h2. split; [done|]. split; [done|]. split; [done|]. split; [done|].
  split; [lia|]. split; [lia|]. split; [lia|]. split; [lia|].
  rewrite Forall_forall in Hhigh' |- *. intros y Hy. specialize (Hhigh' y Hy). destruct (HF y (HL2 y Hy)) as (_ & ? & _ & [?|?]); lia.
Qed.

Lemma absorb_pos x l : 1 <= x.2 -> Forall (fun y => 1 <= y.2) l -> Forall (fun y => 1 <= y.2) (absorb x l).
Proof using.
  intros Hx Hl. destruct Hl as [|y l Hy Hl]; cbn [absorb]; [by constructor|]. destruct (_ =? _); repeat constructor; cbn; auto; lia.
Qed.

Lemma absorb_big c x l : 0 <= x.2 -> Forall (fun y => 0 <= y.2) l -> (c <= x.2 \/ exists y, y ∈ l /\ c <= y.2) ->
  exists y, y ∈ absorb x l /\ c <= y.2.
Proof using.
  intros Hx Hl Hc. destruct Hl as [|z l Hz Hl]; cbn [absorb].
  - destruct Hc as [Hc|(y & Hy & _)]; [|by apply not_elem_of_nil in Hy]. exists x. split; [apply elem_of_cons; by left|done].
  - destruct (_ =? _).
    + destruct Hc as [Hc|(y & [->|Hy]%elem_of_cons & Hc)]; [|..|by exists y; split; [apply elem_of_cons; right|]];
        (eexists; split; [apply elem_of_cons; left; reflexivity|cbn; lia]).
    + destruct Hc as [Hc|(y & Hy & Hc)]; [exists x; split; [apply elem_of_cons; by left|done]|].
      exists y. split; [apply elem_of_cons; by right|done].
Qed.

Lemma length_absorb x l : (length (absorb x l) <= S (length l))%nat.
Proof using. destruct l as [|y l]; cbn [absorb length]; [lia|]. destruct (_ =? _); cbn; lia. Qed.

(** The list after free() still begins with base. *)
Lemma new_list F L1 p L2 x :
  (base, 0) :: F = L1 ++ p :: L2 -> base < x.1 -> 1 <= x.2 -> Forall (fun y => 1 <= y.2) F ->
  exists F', L1 ++ absorb p (absorb x L2) = (base, 0) :: F' /\ Forall (fun y => 1 <= y.2) F' /\
    (length F' <= S (length F))%nat /\ (exists y, y ∈ F' /\ x.2 <= y.2) /\
    cover F' ≡ₚ units x ++ cover F.
Proof using.
  intros HL Hx Hx2 HF. assert (Hnn : forall l, Forall (fun y => 1 <= y.2) l -> Forall (fun y : block => 0 <= y.2) l)
    by (intros l Hl; eapply Forall_impl; [exact Hl|]; cbn; lia).
  destruct L1 as [|z L1]; injection HL as <- HL.
  - subst L2. exists (absorb x F). split.
    { assert (Hf : first (absorb x F) 0 = x.1) by apply first_absorb. destruct (absorb x F) as [|y l]; [done|]. cbn [first] in Hf.
      cbn [app absorb fst snd]. destruct (Z.eqb_spec (base + 0) y.1); [lia|done]. }
    split; [by apply absorb_pos|]. split; [apply length_absorb|]. split; [apply absorb_big; [lia|auto|left; lia]|].
    rewrite cover_absorb by (auto; lia). done.
  - subst F. apply Forall_app in HF as [F1 F2]. apply Forall_cons in F2 as [Fp F2].
    exists (L1 ++ absorb p (absorb x L2)). split; [done|]. split; [apply Forall_app; split; [done|by apply absorb_pos, absorb_pos]|].
    split. { rewrite !length_app. cbn. pose proof (length_absorb p (absorb x L2)). pose proof (length_absorb x L2). lia. }
    split.
    { destruct (absorb_big x.2 p (absorb x L2)) as (y & Hy & Hc); [lia|by apply Hnn, absorb_pos| |].
      - right. apply absorb_big; [lia|auto|left; lia].
      - exists y. split; [apply elem_of_app; by right|done]. }
    rewrite !cover_app, cover_absorb by (try apply Hnn, absorb_pos; auto; lia). rewrite cover_cons, cover_absorb by (auto; lia).
    rewrite !cover_cons. solve_Permutation.
Qed.

(** free() returns the block to the list, whatever it touches there. *)
Lemma free_rep s F A x fuel :
  rep s F (x :: A) -> (S (length F) <= fuel)%nat ->
  exists s' F', free fuel ((x.1 + 1) * sizeof_Header) s = Some s' /\ rep s' F' A /\ brk s' = brk s /\
    (length F' <= S (length F))%nat /\ exists y, y ∈ F' /\ x.2 <= y.2.
Proof using base_pos base_below limit_small.
  intros H Hfuel. destruct (free_place s F A x fuel H Hfuel) as (L1 & p & L2 & h & HL & Hrun & Hseg & Hloc & P1 & P2 & P3 & P4 & P5).
  pose proof H as [R1 R2 R3 R4 R5 R6 (hi & C1 & C2 & C3)]. apply Forall_app in R4 as [R4 R4']. apply Forall_cons in R4' as [_ R4'].
  destruct (rep_range s F (x :: A) x H) as (X1 & _ & _); [apply elem_of_app; right; apply elem_of_cons; by left|].
  destruct (new_list F L1 p L2 x HL) as (F' & HF' & N1 & N2 & N3 & N4); [lia|done|done|].
  exists (set_freep p.1 (set_heap h s)), F'. split; [done|]. split; [|by split].
  rewrite HF' in Hseg. rewrite HL in R3. split; cbn [heap freep brk set_freep set_heap].
  - done.
  - change (base :: map fst F') with (map fst ((base, 0) :: F')). rewrite <- HF', map_app, elem_of_app. right.
    assert (Hf : first (absorb p (absorb x L2)) 0 = p.1) by apply first_absorb. destruct (absorb p _); [cbn in Hf; lia|].
    cbn [first map] in *. rewrite <- Hf. apply elem_of_cons. by left.
  - rewrite <- HF'. eapply asc_swap; [exact R3|]. apply asc_absorb; [lia|done|]. apply asc_absorb; [lia|lia|].
    apply asc_app in R3 as (_ & _ & _ & R3 & _). eapply asc_raise; [exact R3|]. intros Hne. destruct L2; [done|].
    by apply Forall_cons in P5 as [? _].
  - apply Forall_app. by split.
  - apply Forall_cons in R5 as [_ R5]. rewrite Forall_forall in R5 |- *. intros y Hy. destruct (R5 y Hy) as [q Hq]. exists q.
    rewrite Hloc; [done|..].
    + intros He. apply list_elem_of_split in Hy as (A1 & A2 & ->).
      destruct (rep_disjoint s F (x :: A1 ++ y :: A2) x y (F ++ A1 ++ A2) H) as [?|?]; [solve_Permutation|..];
        rewrite Forall_app, Forall_cons in R4'; lia.
    + eapply rep_alloc_ne; [exact H| |apply elem_of_cons; by right]. rewrite HL. apply elem_of_app. right. apply elem_of_cons. by left.
  - done.
  - exists hi. split; [done|]. split; [done|]. rewrite <- C3, !cover_app, N4, cover_cons. solve_Permutation.
Qed.
(** *** morecore() *)

Lemma rep_grow s F A hi k p :
  rep s F A -> brk s = 16 * hi -> 1 <= k -> brk s + 16 * k <= limit ->
  rep (set_heap (<[hi := mkHeader p k]> (heap s)) (set_brk (brk s + 16 * k) s)) F ((hi, k) :: A).
Proof using base_below.
  intros H Hb Hk Hlim. pose proof H as [R1 R2 R3 R4 R5 R6 (hi' & C1 & C2 & C3)].
  assert (Hne : forall y, y ∈ F ++ A -> y.1 <> hi).
  { intros y Hy. destruct (rep_range s F A y H Hy) as (? & ? & ?). lia. }
  split; cbn [heap freep brk set_heap set_brk]; try done.
  - apply seg_insert; [|done]. cbn [map fst]. intros [Hc|(y & Hy & Hin)%list_elem_of_fmap]%elem_of_cons; [lia|].
    apply (Hne y); [apply elem_of_app; by left|done].
  - rewrite Forall_app, Forall_cons. rewrite Forall_app in R4. destruct R4. by split_and!.
  - constructor; [exists p; by rewrite lookup_insert_eq|]. rewrite Forall_forall in R5 |- *. intros y Hy.
    destruct (R5 y Hy) as [q Hq]. exists q. rewrite lookup_insert_ne; [done|]. intros He. apply (Hne y); [apply elem_of_app; by right|done].
  - exists (hi + k). split; [lia|]. split; [lia|]. assert (hi' = hi) by lia. subst hi'.
    replace (hi + k - lo) with ((hi - lo) + k) by lia. rewrite seqZ_app by lia. replace (lo + (hi - lo)) with hi by lia.
    rewrite <- C3, !cover_app, cover_cons. unfold units at 1. cbn [fst snd]. solve_Permutation.
Qed.

(** What morecore() asks for. *)
Definition grown (nunits : Z) : Z := if nunits <? 4096 then 4096 else nunits.

Lemma morecore_rep s F A nunits fuel :
  rep s F A -> 0 <= nunits < 2 ^ 27 -> (S (length F) <= fuel)%nat ->
  (granted (brk s + 16 * grown nunits) = false /\ morecore fuel nunits s = Some (0, s)) \/
  (granted (brk s + 16 * grown nunits) = true /\
   exists s' F', morecore fuel nunits s = Some (freep s', s') /\ rep s' F' A /\
     brk s' = brk s + 16 * grown nunits /\ (length F' <= S (length F))%nat /\ exists y, y ∈ F' /\ nunits <= y.2).
Proof using base_pos base_below limit_small granted_limit.
  intros H Hn Hfuel. unfold morecore, sbrk. fold (grown nunits). assert (Hg : nunits <= grown nunits < 2 ^ 27 /\ 4096 <= grown nunits).
  { unfold grown. destruct (Z.ltb_spec nunits 4096); lia. }
  unfold sizeof_Header. rewrite i32_small by lia. rewrite (proj2 (Z.ltb_lt 0 _)) by lia.
  replace (grown nunits * 16) with (16 * grown nunits) by lia.
  destruct (granted _) eqn:Hgr; [right|left; done]. split; [done|]. apply granted_limit in Hgr.
  pose proof (rp_cover _ _ _ H) as (hi & C1 & C2 & C3). replace (brk s / 16) with hi by (rewrite C1, Z.mul_comm, Z.div_mul; lia).
  cbn [set_brk heap]. destruct (free_rep _ F A (hi, grown nunits) fuel
    (rep_grow s F A hi (grown nunits) (h_ptr (default (mkHeader 0 0) (heap s !! hi))) H C1 ltac:(lia) Hgr) Hfuel) as (s' & F' & G1 & G2 & G3 & G4 & y & G5 & G6).
  cbn [fst snd] in *. unfold sizeof_Header in G1. rewrite G1. exists s', F'. split; [done|]. split; [done|]. split; [exact G3|].
  split; [done|]. exists y. split; [done|lia].
Qed.

(** *** The search of malloc() *)

Definition links (s : ustate) (F : list block) (a b : Z) : Prop :=
  exists x, x ∈ (base, 0) :: F /\ x.1 = a /\ heap s !! a = Some (mkHeader b x.2).

(** The blocks that are too small are passed over, up to freep. *)
Lemma malloc_skip fuel nunits F M e prevp s :
  seg (heap s) M e -> Forall (fun y => y ∈ (base, 0) :: F /\ y.2 < nunits /\ y.1 <> freep s) M -> (length M <= fuel)%nat ->
  links s F prevp (first M e) ->
  exists prevp', malloc_loop fuel nunits prevp (first M e) s = malloc_loop (fuel - length M) nunits prevp' e s /\ links s F prevp' e.
Proof using.
  revert fuel prevp. induction M as [|x M IH]; intros fuel prevp Hs HF Hf Hl; cbn [first length] in *.
  - exists prevp. by rewrite Nat.sub_0_r.
  - destruct Hs as [H1 H2]. apply Forall_cons in HF as [(X1 & X2 & X3) HF]. destruct fuel as [|fuel]; [lia|].
    destruct (IH fuel x.1) as (q & E & L); [done|done|lia|by exists x|]. exists q. split; [|done]. rewrite Nat.sub_succ, <- E.
    cbn [malloc_loop]. rewrite H1. cbn [h_size h_ptr]. destruct (Z.leb_spec nunits x.2); [lia|].
    by destruct (Z.eqb_spec x.1 (freep s)).
Qed.

(** The first block of a list that is large enough, if there is one. *)
Lemma first_large nunits (l : list block) :
  Forall (fun y => y.2 < nunits) l \/
  exists M x M', l = M ++ x :: M' /\ Forall (fun y => y.2 < nunits) M /\ nunits <= x.2.
Proof using.
  induction l as [|x l IH]; [by left|]. destruct (decide (nunits <= x.2)) as [Hx|Hx].
  - right. exists [], x, l. by split_and!.
  - destruct IH as [IH|(M & y & M' & -> & HM & Hy)]; [left; constructor; [lia|done]|]. right. exists (x :: M), y, M'.
    split_and!; [done|constructor; [lia|done]|done].
Qed.

(** The list read from the block after freep around to freep. *)
Lemma rotate s F A :
  rep s F A ->
  exists M f, M ++ [f] ≡ₚ (base, 0) :: F /\ f.1 = freep s /\ seg (heap s) (M ++ [f]) (first (M ++ [f]) 0) /\
    Forall (fun y => y.1 <> freep s) M /\ links s F (freep s) (first (M ++ [f]) 0).
Proof using.
  intros H. pose proof H as [R1 R2 R3 _ _ _ _]. change (base :: map fst F) with (map fst ((base, 0) :: F)) in R2.
  apply list_elem_of_fmap in R2 as (f & Hf & Hin). pose proof Hin as Hin'. apply list_elem_of_split in Hin as (V & W & HVW).
  pose proof R1 as Hs. rewrite HVW in Hs. pose proof (seg_at _ _ _ _ _ Hs) as Hfl. apply seg_app in Hs as [S1 [S2 S3]].
  assert (Hb : base = first (V ++ [f]) 0).
  { destruct V; injection HVW as <- _; done. }
  assert (Hfirst : first ((W ++ V) ++ [f]) 0 = first W base) by (rewrite <- app_assoc, first_app, <- Hb; done).
  exists (W ++ V), f. split; [rewrite HVW; solve_Permutation|]. split; [done|]. rewrite Hfirst. split.
  { rewrite <- app_assoc. apply seg_app. split; [replace (first (V ++ [f]) _) with base by (rewrite Hb; by destruct V); done|]. apply seg_app. split; [done|].
    split; [exact S2|done]. }
  split; [|exists f; split; [done|]; split; [done|by rewrite Hf]].
  apply asc_NoDup in R3. rewrite HVW, map_app in R3. cbn [map] in R3. apply NoDup_app in R3 as (_ & D1 & D2).
  apply NoDup_cons in D2 as [D2 _]. apply Forall_forall. intros y Hy Hc. rewrite Hf in Hc. apply elem_of_app in Hy as [Hy|Hy].
  - apply D2. rewrite <- Hc. by apply list_elem_of_fmap_2.
  - apply (D1 f.1); [rewrite <- Hc; by apply list_elem_of_fmap_2|apply elem_of_cons; by left].
Qed.
Lemma NoDup_pred (P : list block) p x F Y1 y z Y2 :
  NoDup (map fst (P ++ p :: x :: F)) -> P ++ p :: x :: F = Y1 ++ y :: z :: Y2 -> x.1 = z.1 -> p = y.
Proof using.
  intros Hnd HY Hx. assert (Hlen : length P = length Y1).
  { enough (S (length P) = S (length Y1)) by lia. apply (NoDup_lookup _ _ _ x.1 Hnd).
    - rewrite list_lookup_fmap, lookup_app_r by lia. by replace (S (length P) - length P)%nat with 1%nat by lia.
    - rewrite HY, list_lookup_fmap, lookup_app_r by lia. replace (S (length Y1) - length Y1)%nat with 1%nat by lia. cbn. by rewrite Hx. }
  apply app_inj_1 in HY as [_ HY]; [|done]. by injection HY.
Qed.

(** The Header that points to a block is that of its predecessor. *)
Lemma links_pred s F A F1 x F2 a :
  rep s F A -> F = F1 ++ x :: F2 -> 1 <= x.2 -> links s F a x.1 ->
  exists P p, (base, 0) :: F1 = P ++ [p] /\ p.1 = a.
Proof using.
  intros H HF Hx (y & Hin & Ha & Hl). pose proof H as [R1 _ R3 _ _ _ _].
  assert (Hlast : exists P p, (base, 0) :: F1 = P ++ [p]).
  { destruct (exists_last (l := (base, 0) :: F1)) as (P & p & E); [done|eauto]. }
  destruct Hlast as (P & p & HP). exists P, p. split; [done|].
  assert (HN : (base, 0) :: F = P ++ p :: x :: F2) by (rewrite HF, app_comm_cons, HP, <- app_assoc; done).
  rewrite HN in *. pose proof (asc_NoDup _ _ R3) as Hnd. pose proof R1 as Hs.
  apply list_elem_of_split in Hin as (Y1 & Y2 & HY). rewrite HY in Hs. pose proof (seg_at _ _ _ _ _ Hs) as Hy.
  rewrite <- Ha, Hy in Hl. injection Hl as Hl.
  destruct Y2 as [|z Y2]; cbn [first] in Hl.
  { assert (base < x.1); [|lia]. apply asc_app in R3 as (_ & G1 & G2 & (G3 & _) & _). lia. }
  by rewrite (NoDup_pred _ _ _ _ _ _ _ _ Hnd HY (eq_sym Hl)).
Qed.
(** *** Taking a block *)

Lemma units_split a k n : 0 <= n <= k -> units (a, k) = units (a, k - n) ++ units (a + (k - n), n).
Proof using. intros. rewrite <- units_join by lia. f_equal. f_equal. lia. Qed.

(** A block that fits is unlinked, as a whole. *)
Lemma take_exact s P p x F2 A F1 n :
  rep s (F1 ++ x :: F2) A -> (base, 0) :: F1 = P ++ [p] -> x.2 = n ->
  exists s', take_block n p.1 x.1 (mkHeader (first F2 base) x.2) s = Some ((x.1 + 1) * sizeof_Header, s') /\
    rep s' (F1 ++ F2) (x :: A) /\ brk s' = brk s.
Proof using base_below.
  intros H HP Hx. pose proof H as [R1 R2 R3 R4 R5 R6 (hi & C1 & C2 & C3)].
  assert (HN : (base, 0) :: F1 ++ x :: F2 = P ++ p :: x :: F2) by (rewrite app_comm_cons, HP, <- app_assoc; done).
  pose proof R1 as Hs. rewrite HN in Hs. pose proof (seg_at _ _ _ _ _ Hs) as Hp. cbn [first] in Hp.
  pose proof (asc_NoDup _ _ R3) as Hnd. rewrite HN, map_app in Hnd. cbn [map] in Hnd.
  apply NoDup_app in Hnd as (_ & D1 & D2). apply NoDup_cons in D2 as [D2 _]. rewrite not_elem_of_cons in D2. destruct D2 as [D2 D3].
  unfold take_block. cbn [h_size h_ptr]. rewrite Hx, Z.eqb_refl, Hp. cbn [h_size]. eexists. split; [reflexivity|]. split; [|done].
  split; cbn [heap freep brk set_freep set_heap].
  - rewrite app_comm_cons, HP, <- app_assoc. cbn [app]. apply seg_app in Hs as [S1 (S2 & S3 & S4)]. apply seg_app. split.
    + apply seg_insert; [|done]. intros Hc. apply (D1 p.1 Hc), elem_of_cons. by left.
    + cbn [seg]. rewrite lookup_insert_eq. split; [done|by apply seg_insert].
  - change (base :: map fst (F1 ++ F2)) with (map fst ((base, 0) :: F1 ++ F2)). rewrite app_comm_cons, HP. apply list_elem_of_fmap_2.
    apply elem_of_app. left. apply elem_of_app. right. apply elem_of_cons. by left.
  - rewrite HN in R3. rewrite app_comm_cons, HP, <- app_assoc. cbn [app]. eapply asc_swap; [exact R3|].
    apply asc_app in R3 as (_ & _ & G1 & (G2 & G3 & G4) & _). cbn [asc]. split; [lia|]. split; [done|].
    eapply asc_weaken; [|exact G4]. lia.
  - assert (Hperm : (F1 ++ F2) ++ x :: A ≡ₚ (F1 ++ x :: F2) ++ A) by solve_Permutation. by rewrite Hperm.
  - constructor; [exists (first F2 base); rewrite lookup_insert_ne by done; by apply (seg_at _ ((base, 0) :: F1))|].
    rewrite Forall_forall in R5 |- *. intros y Hy. destruct (R5 y Hy) as [q Hq]. exists q. rewrite lookup_insert_ne; [done|].
    apply not_eq_sym. eapply rep_alloc_ne; [exact H| |done]. rewrite HN. apply elem_of_app. right. apply elem_of_cons. by left.
  - done.
  - exists hi. split; [done|]. split; [done|]. rewrite <- C3, !cover_app, !cover_cons. solve_Permutation.
Qed.

Lemma seg_resize h L1 x L2 e k :
  seg h (L1 ++ x :: L2) e -> NoDup (map fst (L1 ++ x :: L2)) ->
  seg (<[x.1 := mkHeader (first L2 e) k]> h) (L1 ++ (x.1, k) :: L2) e.
Proof using.
  intros [S1 [S2 S3]]%seg_app Hnd. rewrite map_app in Hnd. cbn [map] in Hnd. apply NoDup_app in Hnd as (_ & D1 & D2).
  apply NoDup_cons in D2 as [D2 _]. apply seg_app. split.
  - apply seg_insert; [|done]. intros Hc. apply (D1 x.1 Hc), elem_of_cons. by left.
  - cbn [seg fst snd]. rewrite lookup_insert_eq. split; [done|by apply seg_insert].
Qed.

(** Of a larger one the tail is cut off. *)
Lemma take_tail s P p x F2 A F1 n :
  rep s (F1 ++ x :: F2) A -> (base, 0) :: F1 = P ++ [p] -> 1 <= n < x.2 ->
  exists s', take_block n p.1 x.1 (mkHeader (first F2 base) x.2) s = Some ((x.1 + (x.2 - n) + 1) * sizeof_Header, s') /\
    rep s' (F1 ++ (x.1, x.2 - n) :: F2) ((x.1 + (x.2 - n), n) :: A) /\ brk s' = brk s.
Proof using base_below base_pos limit_small granted_limit.
  intros H HP Hx. pose proof H as [R1 R2 R3 R4 R5 R6 (hi & C1 & C2 & C3)].
  destruct (rep_range s (F1 ++ x :: F2) A x H) as (X1 & X2 & X3); [set_solver|].
  unfold take_block. cbn [h_size h_ptr]. destruct (Z.eqb_spec x.2 n); [lia|]. rewrite u32_small by lia.
  eexists. split; [reflexivity|]. split; [|done]. set (q := x.1 + (x.2 - n)).
  pose proof R3 as R3'. rewrite app_comm_cons in R3'. apply asc_app in R3' as (A1 & A2 & A3 & A4 & A5).
  split; cbn [heap freep brk set_freep set_heap].
  - apply seg_insert.
    + cbn [map fst]. rewrite map_app. cbn [map fst]. intros [Hc|[Hc|[Hc|Hc]%elem_of_cons]%elem_of_app]%elem_of_cons; [lia| |lia|].
      * apply list_elem_of_fmap in Hc as (y & Hy & Hc). apply Forall_cons in A5 as [_ A5]. rewrite Forall_forall in A5.
        specialize (A5 y Hc). destruct (rep_range s (F1 ++ x :: F2) A y H) as (? & ? & ?); [set_solver|]. lia.
      * apply list_elem_of_fmap in Hc as (y & Hy & Hc). apply asc_bound in A4. rewrite Forall_forall in A4. specialize (A4 y Hc). lia.
    + apply (seg_resize (heap s) ((base, 0) :: F1) x F2 base); [done|]. by eapply asc_NoDup.
  - change (base :: map fst (F1 ++ (x.1, x.2 - n) :: F2)) with (map fst (((base, 0) :: F1) ++ (x.1, x.2 - n) :: F2)). rewrite HP.
    apply list_elem_of_fmap_2. set_solver.
  - apply (proj2 (asc_app _ ((base, 0) :: F1) _ _)). cbn [fst snd]. split_and!; try done; [lia|].
    eapply asc_weaken; [|exact A4]. lia.
  - rewrite !Forall_app, !Forall_cons in R4 |- *. cbn [fst snd]. destruct R4 as ((? & ? & ?) & ?).
    split; [split; [done|split; [lia|done]]|constructor; [cbn; lia|done]].
  - constructor; [eexists; cbn [fst snd]; by rewrite lookup_insert_eq|]. rewrite Forall_forall in R5 |- *. intros y Hy.
    destruct (R5 y Hy) as [r Hr]. exists r. destruct (rep_range s (F1 ++ x :: F2) A y H) as (_ & Y2 & _); [apply elem_of_app; by right|].
    assert (HxF : x ∈ F1 ++ x :: F2) by (apply elem_of_app; right; apply elem_of_cons; by left).
    destruct (rep_apart s (F1 ++ x :: F2) A x y H HxF Hy) as [?|?]; by rewrite !lookup_insert_ne by lia.
  - done.
  - exists hi. split; [done|]. split; [done|]. rewrite <- C3, !cover_app, !cover_cons.
    assert (E : units x = units (x.1, x.2 - n) ++ units (q, n)) by (unfold q; rewrite <- units_split by lia; by destruct x).
    rewrite E. solve_Permutation.
Qed.
(** *** malloc() *)

(** When a free block is large enough, the search ends there. *)
Lemma malloc_found s F A n fuel :
  rep s F A -> 1 <= n -> (exists y, y ∈ F /\ n <= y.2) -> (S (length F) <= fuel)%nat ->
  exists y s' F' x, heap s !! freep s = Some y /\
    malloc_loop fuel n (freep s) (h_ptr y) s = Some ((x.1 + 1) * sizeof_Header, s') /\
    rep s' F' (x :: A) /\ x.2 = n /\ brk s' = brk s /\ (length F' <= length F)%nat.
Proof using base_below base_pos limit_small granted_limit.
  intros H Hn (y & Hy & Hny) Hf. destruct (rotate s F A H) as (M & f & HM & Hfp & Hseg & Hne & Hlink).
  pose proof Hlink as (fb & _ & _ & Hfl). exists (mkHeader (first (M ++ [f]) 0) fb.2). cbn [h_ptr].
  destruct (first_large n (M ++ [f])) as [Hsmall|(M1 & x & M2 & HMx & Hsmall & Hx)].
  { rewrite HM, Forall_cons, Forall_forall in Hsmall. destruct Hsmall as [_ Hsmall]. specialize (Hsmall y Hy). lia. }
  assert (HxF : x ∈ F).
  { assert (Hin : x ∈ (base, 0) :: F) by (rewrite <- HM, HMx; set_solver).
    apply elem_of_cons in Hin as [->|?]; [cbn in Hx; lia|done]. }
  assert (HM1 : Forall (fun z => z ∈ (base, 0) :: F /\ z.2 < n /\ z.1 <> freep s) M1).
  { rewrite Forall_forall in Hsmall, Hne |- *. intros z Hz. split; [rewrite <- HM, HMx; set_solver|]. split; [auto|].
    destruct M2 as [|w M2 _] using rev_ind; [by apply app_inj_tail in HMx as [-> _]; apply Hne|].
    rewrite app_comm_cons, app_assoc in HMx. apply app_inj_tail in HMx as [-> _]. apply Hne. set_solver. }
  assert (Hlen : (length M1 <= fuel)%nat).
  { assert (HL : length (M ++ [f]) = S (length F)) by (by rewrite HM). rewrite HMx, length_app in HL. cbn in HL. lia. }
  rewrite HMx in *. pose proof (seg_at _ _ _ _ _ Hseg) as Hxl. apply seg_app in Hseg as [Hseg _]. cbn [first] in Hseg.
  rewrite first_app in *. cbn [first] in *.
  destruct (malloc_skip fuel n F M1 x.1 (freep s) s Hseg HM1 Hlen Hlink) as (prevp & E & Lk). rewrite E.
  pose proof HxF as (F1 & F2 & HF)%list_elem_of_split.
  destruct (links_pred s F A F1 x F2 prevp H HF ltac:(lia) Lk) as (P & p & HP & <-). subst F.
  assert (Hat : heap s !! x.1 = Some (mkHeader (first F2 base) x.2)) by (apply (seg_at _ ((base, 0) :: F1)), (rp_seg _ _ _ H)).
  assert (Hloop : forall fuel', malloc_loop fuel' n p.1 x.1 s = take_block n p.1 x.1 (mkHeader (first F2 base) x.2) s).
  { intros [|fuel']; cbn [malloc_loop]; rewrite Hat; cbn [h_size]; by rewrite (proj2 (Z.leb_le n x.2) Hx). }
  rewrite Hloop. destruct (decide (x.2 = n)) as [Hxn|Hxn].
  - destruct (take_exact s P p x F2 A F1 n H HP Hxn) as (s' & T1 & T2 & T3). exists s', (F1 ++ F2), x.
    rewrite !length_app. cbn. split_and!; try done. lia.
  - destruct (take_tail s P p x F2 A F1 n H HP ltac:(lia)) as (s' & T1 & T2 & T3).
    exists s', (F1 ++ (x.1, x.2 - n) :: F2), (x.1 + (x.2 - n), n). rewrite !length_app. split_and!; done.
Qed.

(** Otherwise it comes around to freep and asks for more. *)
Lemma malloc_around s F A n fuel :
  rep s F A -> 1 <= n -> Forall (fun y => y.2 < n) F -> (S (length F) <= fuel)%nat ->
  exists y fuel', heap s !! freep s = Some y /\ (fuel <= fuel' + S (length F))%nat /\
    malloc_loop fuel n (freep s) (h_ptr y) s =
      match morecore fuel' n s with
      | None => None
      | Some (q, s) =>
          if q =? 0 then Some (0, s)
          else match heap s !! q with
               | None => None
               | Some y => malloc_loop fuel' n q (h_ptr y) s
               end
      end.
Proof using.
  intros H Hn Hsmall Hf. destruct (rotate s F A H) as (M & f & HM & Hfp & Hseg & Hne & Hlink).
  pose proof Hlink as (fb & _ & _ & Hfl). exists (mkHeader (first (M ++ [f]) 0) fb.2). cbn [h_ptr].
  assert (HL : length (M ++ [f]) = S (length F)) by (by rewrite HM). rewrite length_app in HL. cbn in HL.
  assert (Hall : Forall (fun z => z ∈ (base, 0) :: F /\ z.2 < n) (M ++ [f])).
  { rewrite HM. rewrite Forall_forall in Hsmall |- *. intros z Hz. split; [done|]. apply elem_of_cons in Hz as [->|Hz]; [cbn; lia|auto]. }
  apply Forall_app in Hall as [HM1 Hf1]. apply Forall_cons in Hf1 as [[_ Hf2] _].
  assert (HM2 : Forall (fun z => z ∈ (base, 0) :: F /\ z.2 < n /\ z.1 <> freep s) M).
  { rewrite Forall_forall in HM1, Hne |- *. intros z Hz. destruct (HM1 z Hz). split_and!; auto. }
  pose proof (seg_at _ _ _ _ _ Hseg) as Hf3. apply seg_app in Hseg as [Hseg _]. cbn [first] in Hseg, Hf3.
  rewrite first_app in *. cbn [first] in *.
  destruct (malloc_skip fuel n F M f.1 (freep s) s Hseg HM2 ltac:(lia) Hlink) as (prevp & E & Lk). rewrite E.
  exists (fuel - S (length M))%nat. split; [done|]. split; [lia|].
  replace (fuel - length M)%nat with (S (fuel - S (length M))) by lia. cbn [malloc_loop]. rewrite Hf3. cbn [h_size].
  rewrite (proj2 (Z.leb_gt n f.2) Hf2), Hfp, Z.eqb_refl. done.
Qed.

Lemma rep_freep_pos s F A : rep s F A -> freep s <> 0.
Proof using base_pos base_below.
  intros H. pose proof (rp_freep _ _ _ H) as [Hc|(y & Hy & Hin)%list_elem_of_fmap]%elem_of_cons; [lia|].
  destruct (rep_range s F A y H) as (? & ? & ?); [apply elem_of_app; by left|]. lia.
Qed.

Lemma malloc_rep s F A n fuel :
  rep s F A -> 1 <= n < 2 ^ 27 -> (2 * length F + 5 <= fuel)%nat ->
  exists y, heap s !! freep s = Some y /\
  ((granted (brk s + 16 * grown n) = false /\ Forall (fun y => y.2 < n) F /\
    malloc_loop fuel n (freep s) (h_ptr y) s = Some (0, s)) \/
   exists s' F' x, malloc_loop fuel n (freep s) (h_ptr y) s = Some ((x.1 + 1) * sizeof_Header, s') /\
     rep s' F' (x :: A) /\ x.2 = n /\ brk s <= brk s' /\ (length F' <= S (length F))%nat).
Proof using base_below base_pos limit_small granted_limit.
  intros H Hn Hf. destruct (first_large n F) as [Hsmall|(F1 & x & F2 & HF & _ & Hx)].
  - destruct (malloc_around s F A n fuel H ltac:(lia) Hsmall ltac:(lia)) as (y & fuel' & Hy & Hf' & E). exists y. split; [done|]. rewrite E.
    destruct (morecore_rep s F A n fuel' H ltac:(lia) ltac:(lia)) as [[Hg ->]|(Hg & s1 & F1 & -> & H1 & Hb & Hl & Hbig)].
    { left. by split_and!. }
    right. assert (4096 <= grown n) by (unfold grown; destruct (Z.ltb_spec n 4096); lia).
    destruct (Z.eqb_spec (freep s1) 0) as [Hc|_]; [by apply (rep_freep_pos s1 F1 A H1) in Hc|].
    destruct (malloc_found s1 F1 A n fuel' H1 ltac:(lia) Hbig ltac:(lia)) as (y1 & s2 & F2 & x & Hy1 & E1 & H2 & Hx & Hb2 & Hl2).
    rewrite Hy1. exists s2, F2, x. split_and!; try done; lia.
  - destruct (malloc_found s F A n fuel H ltac:(lia)) as (y & s2 & F3 & z & Hy & E & H2 & Hz & Hb2 & Hl2);
      [exists x; split; [rewrite HF; set_solver|done]|lia|].
    exists y. split; [done|]. right. exists s2, F3, z. split_and!; try done; lia.
Qed.
(** ** What the allocator promises

    The abstract state is the list of the allocated blocks and the break. *)

Inductive call : Set := Malloc (nbytes : Z) | Free (ap : Z).

Definition do_call (fuel : nat) (c : call) (s : ustate) : option (Z * ustate) :=
  match c with
  | Malloc nbytes => malloc fuel nbytes s
  | Free ap => match free fuel ap s with Some s => Some (0, s) | None => None end
  end.

(** The pointer that malloc() returns for a block, and the bytes behind it
    that belong to the caller. *)
Definition payload (x : block) : Z := (x.1 + 1) * sizeof_Header.
Definition payload_end (x : block) : Z := (x.1 + x.2) * sizeof_Header.

Inductive promise : list block * Z -> call -> Z -> list block * Z -> Prop :=
  | malloc_fresh A b b' n x :
      (** The n bytes from the pointer on are the caller's, ... *)
      n <= payload_end x - payload x ->
      (** ... they lie in the heap and in no other allocated block, ... *)
      lo * sizeof_Header < payload x -> payload_end x <= b' ->
      Forall (fun y => payload_end x < payload y \/ payload_end y < payload x) A ->
      (** ... which are kept. *)
      b <= b' -> promise (A, b) (Malloc n) (payload x) (x :: A, b')
  | malloc_refused A b n :
      (** The kernel has no memory for the n bytes, in Headers. *)
      granted (b + 16 * grown ((n + 15) / 16 + 1)) = false -> promise (A, b) (Malloc n) 0 (A, b)
  | free_block A A' b x :
      A ≡ₚ x :: A' -> promise (A, b) (Free (payload x)) 0 (A', b).

(** Before the first call there is no list. *)
Definition live (s : ustate) (F A : list block) : Prop :=
  rep s F A \/ freep s = 0 /\ F = [] /\ A = [] /\ brk s = lo * sizeof_Header /\ brk s <= limit.

(** What a caller may ask: fewer bytes than an int can count, with the
    Header; the pointer to an allocated block. *)
Definition allowed (A : list block) (c : call) : Prop :=
  match c with
  | Malloc n => 0 <= n < 2 ^ 31 - 64
  | Free ap => exists x, x ∈ A /\ ap = payload x
  end.

Lemma rep_perm s F A A' : rep s F A -> A ≡ₚ A' -> rep s F A'.
Proof using. intros [R1 R2 R3 R4 R5 R6 R7] Hp. split; try done; [by rewrite <- Hp..|]. destruct R7 as (hi & ? & ? & C). exists hi. by rewrite <- Hp. Qed.

Lemma init_rep s : freep s = 0 -> brk s = lo * sizeof_Header -> brk s <= limit ->
  rep (set_freep base (set_heap (<[base := mkHeader base 0]> (heap s)) s)) [] [].
Proof using base_pos base_below.
  intros Hf Hb Hl. split; cbn [heap freep brk set_freep set_heap app map]; try done.
  - cbn [seg]. by rewrite lookup_insert_eq.
  - by apply elem_of_cons; left.
  - exists lo. split; [unfold sizeof_Header in Hb; lia|]. split; [done|]. rewrite Z.sub_diag. done.
Qed.

Lemma fresh_apart s F A x :
  rep s F (x :: A) ->
  lo * sizeof_Header < payload x /\ payload_end x <= brk s /\
  Forall (fun y => payload_end x < payload y \/ payload_end y < payload x) A.
Proof using.
  intros H. unfold payload, payload_end, sizeof_Header.
  destruct (rep_range s F (x :: A) x H) as (X1 & X2 & X3); [apply elem_of_app; right; apply elem_of_cons; by left|].
  split; [lia|]. split; [lia|]. rewrite Forall_forall. intros y Hy. apply list_elem_of_split in Hy as (A1 & A2 & ->).
  destruct (rep_disjoint s F (x :: A1 ++ y :: A2) x y (F ++ A1 ++ A2) H); [solve_Permutation|lia..].
Qed.

Lemma malloc_promise s F A n fuel :
  rep s F A -> 0 <= n < 2 ^ 31 - 64 -> (2 * length F + 5 <= fuel)%nat ->
  exists r s' F' A', malloc fuel n s = Some (r, s') /\ promise (A, brk s) (Malloc n) r (A', brk s') /\ live s' F' A' /\
    (length F' <= S (length F))%nat.
Proof using base_below base_pos limit_small granted_limit.
  intros H Hn Hf. unfold malloc. destruct (Z.eqb_spec (freep s) 0) as [Hc|_]; [by apply (rep_freep_pos s F A H) in Hc|].
  unfold sizeof_Header at 1 2. replace (n + 16 - 1) with (n + 15) by lia. set (k := (n + 15) / 16 + 1).
  assert (Hk : n + 16 <= 16 * k <= n + 31) by (unfold k; zdm; lia).
  rewrite u32_small by lia. destruct (malloc_rep s F A k fuel H ltac:(lia) Hf) as (y & -> & [(G1 & _ & G2)|(s' & F' & x & G1 & G2 & G3 & G4 & G5)]).
  - exists 0, s, F, A. split; [done|]. split; [by constructor|]. split; [by left|lia].
  - exists (payload x), s', F', (x :: A). split; [done|]. destruct (fresh_apart s' F' A x G2) as (P1 & P2 & P3).
    split; [|split; [by left|done]]. constructor; try done. unfold payload, payload_end, sizeof_Header. lia.
Qed.

(** C10: every call of malloc() and free() returns, whatever calls came
    before, and does what the allocator promises.  malloc() returns n bytes
    that lie in the heap and in no other allocated block and leaves those
    alone, or 0 when the kernel refused the memory it had to ask for; free()
    takes back the block whose pointer it is given.  In the list that stays,
    the free blocks are in the order of their addresses and no two of them
    touch, and with the allocated blocks they are all the memory that came
    from sbrk(), each unit once. *)
Theorem umalloc_refines s F A c fuel :
  live s F A -> allowed A c -> (2 * length F + 5 <= fuel)%nat ->
  exists r s' F' A', do_call fuel c s = Some (r, s') /\ promise (A, brk s) c r (A', brk s') /\ live s' F' A' /\
    (length F' <= S (length F))%nat.
Proof using base_below base_pos limit_small granted_limit.
  intros Hs Hc Hf. destruct c as [n|ap]; cbn [do_call allowed] in *.
  - destruct Hs as [Hs|(H1 & -> & -> & H2 & H3)]; [by apply malloc_promise|].
    pose proof (init_rep s H1 H2 H3) as Hi. destruct (malloc_promise _ [] [] n fuel Hi Hc Hf) as (r & s' & F' & A' & E & G).
    exists r, s', F', A'. split; [|exact G]. rewrite <- E. unfold malloc. rewrite H1. cbn [Z.eqb set_freep freep].
    by destruct (Z.eqb_spec base 0); [lia|].
  - destruct Hc as (x & Hx & ->). destruct Hs as [Hs|(_ & _ & -> & _)]; [|by apply not_elem_of_nil in Hx].
    apply list_elem_of_split in Hx as (A1 & A2 & ->).
    assert (Hp : A1 ++ x :: A2 ≡ₚ x :: A1 ++ A2) by solve_Permutation.
    destruct (free_rep s F (A1 ++ A2) x fuel) as (s' & F' & G1 & G2 & G3 & G4 & _); [by apply (rep_perm s F (A1 ++ x :: A2))|lia|].
    unfold payload. rewrite G1. exists 0, s', F', (A1 ++ A2). split; [done|]. rewrite G3. split; [by constructor|]. split; [by left|done].
Qed.
End umalloc.

(** The first malloc() of a process whose heap begins at 0x4000. *)
Lemma umalloc_refines_witness :
  exists r s' F' A', do_call 0x3f0 (fun b => b <=? 2 ^ 27) 5 (Malloc 100) (mkUstate 0 ∅ 0x4000) = Some (r, s') /\
    promise (fun b => b <=? 2 ^ 27) 0x400 ([], 0x4000) (Malloc 100) r (A', brk s') /\
    live 0x3f0 0x400 (2 ^ 27) s' F' A' /\ (length F' <= 1)%nat.
Proof.
  apply (umalloc_refines 0x3f0 (fun b => b <=? 2 ^ 27) 0x400 (2 ^ 27) ltac:(lia) ltac:(lia) ltac:(lia)
    (fun b => proj1 (Z.leb_le b (2 ^ 27))) (mkUstate 0 ∅ 0x4000) [] [] (Malloc 100) 5).
  - right. by vm_compute.
  - by vm_compute.
  - done.
Defined.

