(* ===== verification/File.v ===== *)
(** * kernel/file.c: the open-file table

    [kstate] is the whole kernel: the file system with the process table and
    memory below it, the open files, the pipes, the console and the counters
    of the small system calls.  The routines of each component run on their
    part of it. *)

From S2P Require Import Prelude KMonad CString Sleeplock Bio Log Riscv Kalloc Vm Proc Fs Pipe.
From S2P Require Import Uart Console.
Open Scope kmonad_scope.

Definition NFILE : nat := 100.
Definition NDEV : Z := 10.
Definition CONSOLE : Z := 1.

Inductive fdtype : Set := FD_NONE | FD_PIPE | FD_INODE | FD_DEVICE.

#[export] Instance fdtype_eq_dec : EqDecision fdtype.
Proof. solve_decision. Defined.

Record file : Set := mkFile {
  f_type : fdtype;
  f_ref : Z;
  f_readable : bool;
  f_writable : bool;
  f_pipe : Z;                 (* the page of the pipe *)
  f_ip : option nat;          (* index in itable.inode[] *)
  f_off : Z;
  f_major : Z
}.

Definition file0 : file := mkFile FD_NONE 0 false false 0 None 0 0.
#[export] Instance file_inhabited : Inhabited file := populate file0.

Definition set_ftype v f := mkFile v (f_ref f) (f_readable f) (f_writable f) (f_pipe f) (f_ip f) (f_off f) (f_major f).
Definition set_fref v f := mkFile (f_type f) v (f_readable f) (f_writable f) (f_pipe f) (f_ip f) (f_off f) (f_major f).
Definition set_readable v f := mkFile (f_type f) (f_ref f) v (f_writable f) (f_pipe f) (f_ip f) (f_off f) (f_major f).
Definition set_writable v f := mkFile (f_type f) (f_ref f) (f_readable f) v (f_pipe f) (f_ip f) (f_off f) (f_major f).
Definition set_fpipe v f := mkFile (f_type f) (f_ref f) (f_readable f) (f_writable f) v (f_ip f) (f_off f) (f_major f).
Definition set_fip v f := mkFile (f_type f) (f_ref f) (f_readable f) (f_writable f) (f_pipe f) v (f_off f) (f_major f).
Definition set_off v f := mkFile (f_type f) (f_ref f) (f_readable f) (f_writable f) (f_pipe f) (f_ip f) v (f_major f).
Definition set_fmajor v f := mkFile (f_type f) (f_ref f) (f_readable f) (f_writable f) (f_pipe f) (f_ip f) (f_off f) v.

(** The device functions of the kernel: the console's are the only ones. *)
Inductive devfn : Set := ConsoleDev.

Record misc : Set := mkMisc {
  devsw : list (option devfn * option devfn);   (* devsw[NDEV]: read, write *)
  count_sys : Z;                                (* syscall.c *)
  seed : Z;                                     (* sysutil.c *)
  mmio : list (Z * Z);                          (* stores to the test device *)
  forkret_first : bool;                         (* forkret()'s static first *)
  mtime : Z                                     (* CLINT_MTIME *)
}.

Definition set_devsw v m := mkMisc v (count_sys m) (seed m) (mmio m) (forkret_first m) (mtime m).
Definition set_count v m := mkMisc (devsw m) v (seed m) (mmio m) (forkret_first m) (mtime m).
Definition set_seed v m := mkMisc (devsw m) (count_sys m) v (mmio m) (forkret_first m) (mtime m).
Definition set_mmio v m := mkMisc (devsw m) (count_sys m) (seed m) v (forkret_first m) (mtime m).
Definition set_first v m := mkMisc (devsw m) (count_sys m) (seed m) (mmio m) v (mtime m).

Record kstate : Type := mkKstate {
  k_fs : fsstate;
  k_files : list file;        (* ftable.file[NFILE] *)
  k_pipes : gmap Z pipe;
  k_dev : consdev;
  k_misc : misc
}.

Definition put_fs v s := mkKstate v (k_files s) (k_pipes s) (k_dev s) (k_misc s).
Definition put_files v s := mkKstate (k_fs s) v (k_pipes s) (k_dev s) (k_misc s).
Definition put_pipes v s := mkKstate (k_fs s) (k_files s) v (k_dev s) (k_misc s).
Definition put_kdev v s := mkKstate (k_fs s) (k_files s) (k_pipes s) v (k_misc s).
Definition put_misc v s := mkKstate (k_fs s) (k_files s) (k_pipes s) (k_dev s) v.
Definition k_p (s : kstate) : pstate := fs_p (k_fs s).
Definition put_kp (p : pstate) (s : kstate) : kstate := put_fs (put_p p (k_fs s)) s.

Definition kfs {A} (m : K fsstate A) : K kstate A := zoom k_fs put_fs m.
Definition kp {A} (m : K pstate A) : K kstate A := zoom k_p put_kp m.
Definition klogop {A} (m : K lstate A) : K kstate A := kfs (on_l m).
Definition kpipe {A} (m : K pipestate A) : K kstate A :=
  zoom (fun s => mkPipestate (k_p s) (k_pipes s))
       (fun t s => put_kp (pp_p t) (put_pipes (pipes t) s)) m.
Definition kcons {A} (m : K cstate A) : K kstate A :=
  zoom (fun s => mkCstate (k_p s) (k_dev s))
       (fun t s => put_kp (c_p t) (put_kdev (c_dev t) s)) m.
Definition getm {A} (f : misc -> A) : K kstate A := gets (fun s => f (k_misc s)).
Definition modm (f : misc -> misc) : K kstate unit := modify (fun s => put_misc (f (k_misc s)) s).

Definition nth_file (f : nat) (s : kstate) : file := k_files s !!! f.
Definition getf {A} (f : nat) (g : file -> A) : K kstate A := gets (fun s => g (nth_file f s)).
Definition modf (f : nat) (g : file -> file) : K kstate unit :=
  modify (fun s => put_files (alter g f (k_files s)) s).

(** A pointer that the code follows without a test. *)
Definition deref {S A} (p : option A) : K S A :=
  match p with
  | Some a => ret a
  | None => panic "undefined: null pointer"
  end.

(** console.c: devsw[CONSOLE] is set up. *)
Definition consoleinit : K kstate unit :=
  kcons (at_dev (at_uart uartinit)) ;;;
  modm (fun m => set_devsw (<[Z.to_nat CONSOLE := (Some ConsoleDev, Some ConsoleDev)]> (devsw m)) m).

Section file.
Variable kend : Z.

Fixpoint filealloc_loop (n f : nat) : K kstate (option nat) :=
  match n with
  | O => release LkFtable ;;; ret None
  | S n =>
      r <- getf f f_ref ;;
      if r =? 0 then
        modf f (set_fref 1) ;;;
        release LkFtable ;;;
        ret (Some f)
      else filealloc_loop n (S f)
  end.

Definition filealloc : K kstate (option nat) :=
  acquire LkFtable ;;;
  filealloc_loop NFILE 0.

Definition filedup (f : nat) : K kstate nat :=
  acquire LkFtable ;;;
  r <- getf f f_ref ;;
  if r <? 1 then panic "filedup"
  else
    modf f (set_fref (i32 (r + 1))) ;;;
    release LkFtable ;;;
    ret f.

Definition fileclose (f : nat) : K kstate unit :=
  acquire LkFtable ;;;
  r <- getf f f_ref ;;
  if r <? 1 then panic "fileclose"
  else
    modf f (set_fref (r - 1)) ;;;
    if 0 <? r - 1 then release LkFtable
    else
      ff <- getf f (fun x => x) ;;
      modf f (set_fref 0) ;;;
      modf f (set_ftype FD_NONE) ;;;
      release LkFtable ;;;
      match f_type ff with
      | FD_PIPE => kpipe (pipeclose kend (f_pipe ff) (f_writable ff))
      | FD_INODE | FD_DEVICE =>
          klogop begin_op ;;;
          ip <- deref (f_ip ff) ;;
          kfs (iput ip) ;;;
          klogop end_op
      | FD_NONE => ret tt
      end.

(** struct stat with its four bytes of padding, [pad]. *)
Definition stat_bytes (st : stat) (pad : list Z) : list Z :=
  le_bytes 4 (st_dev st) ++ le_bytes 4 (st_ino st) ++ le_bytes 2 (st_type st) ++
  le_bytes 2 (st_nlink st) ++ pad ++ le_bytes 8 (st_size st).

Definition filestat (f : nat) (addr : Z) (pad : list Z) : K kstate Z :=
  ff <- getf f (fun x => x) ;;
  match f_type ff with
  | FD_INODE | FD_DEVICE =>
      kfs (ilock (f_ip ff)) ;;;
      ip <- deref (f_ip ff) ;;
      st <- kfs (stati ip) ;;
      kfs (iunlock (f_ip ff)) ;;;
      me <- asks e_me ;;
      pt <- kp (getp me p_pagetable) ;;
      r <- kp (kmm (copyout pt addr (stat_bytes st pad))) ;;
      if r <? 0 then ret (-1) else ret 0
  | _ => ret (-1)
  end.

(** devsw[major] when major is in range. *)
Definition dev_entry (major : Z) : K kstate (option devfn * option devfn) :=
  if (major <? 0) || (NDEV <=? major) then ret (None, None)
  else getm (fun m => default (None, None) (devsw m !! Z.to_nat major)).

Definition fileread (f : nat) (addr n : Z) : K kstate Z :=
  ff <- getf f (fun x => x) ;;
  if negb (f_readable ff) then ret (-1)
  else
    match f_type ff with
    | FD_PIPE => kpipe (piperead (f_pipe ff) addr n)
    | FD_DEVICE =>
        d <- dev_entry (f_major ff) ;;
        match d.1 with
        | None => ret (-1)
        | Some ConsoleDev => kcons (consoleread true addr n)
        end
    | FD_INODE =>
        kfs (ilock (f_ip ff)) ;;;
        ip <- deref (f_ip ff) ;;
        off <- getf f f_off ;;
        r <- kfs (readi ip (User addr) off (u32 n)) ;;
        (when 0 <? r.1 do modf f (set_off (u32 (off + r.1)))) ;;;
        kfs (iunlock (f_ip ff)) ;;;
        ret r.1
    | FD_NONE => panic "fileread"
    end.

(** The largest write of one transaction. *)
Definition write_max : Z := (MAXOPBLOCKS - 1 - 1 - 2) / 2 * Z.of_nat BSIZE.

Fixpoint filewrite_loop (fuel : nat) (f : nat) (addr n i : Z) : K kstate Z :=
  if i <? n then
    match fuel with
    | O => out_of_fuel
    | S fuel =>
        let n1 := if write_max <? n - i then write_max else n - i in
        klogop begin_op ;;;
        fip <- getf f f_ip ;;
        kfs (ilock fip) ;;;
        ip <- deref fip ;;
        off <- getf f f_off ;;
        r <- kfs (writei ip (User (u64 (addr + i))) off n1) ;;
        (when 0 <? r do modf f (set_off (u32 (off + r)))) ;;;
        kfs (iunlock fip) ;;;
        klogop end_op ;;;
        if negb (r =? n1) then ret i
        else filewrite_loop fuel f addr n (i + r)
    end
  else ret i.

Definition filewrite (f : nat) (addr n : Z) : K kstate Z :=
  ff <- getf f (fun x => x) ;;
  if negb (f_writable ff) then ret (-1)
  else
    match f_type ff with
    | FD_PIPE => kpipe (pipewrite (f_pipe ff) addr n)
    | FD_DEVICE =>
        d <- dev_entry (f_major ff) ;;
        match d.2 with
        | None => ret (-1)
        | Some ConsoleDev => kcons (consolewrite true addr n)
        end
    | FD_INODE =>
        i <- filewrite_loop (Z.to_nat (n / write_max + 1)) f addr n 0 ;;
        ret (if i =? n then n else -1)
    | FD_NONE => panic "filewrite"
    end.

(** pipe.c: pipealloc(), the two files of a new pipe. *)

Definition close_if (f : option nat) : K kstate unit :=
  match f with
  | Some f => fileclose f
  | None => ret tt
  end.

Definition pipe_new : pipe := mkPipe (replicate (Z.to_nat PIPESIZE) 5) 0 0 true true.

(** The label bad; no page has been allocated when it is reached. *)
Definition pipealloc_bad (f0 f1 : option nat) : K kstate (option (nat * nat)) :=
  close_if f0 ;;; close_if f1 ;;; ret None.

Definition pipealloc : K kstate (option (nat * nat)) :=
  f0 <- filealloc ;;
  match f0 with
  | None => pipealloc_bad None None
  | Some a =>
      f1 <- filealloc ;;
      match f1 with
      | None => pipealloc_bad f0 None
      | Some b =>
          pi <- kp (kmm kalloc) ;;
          if pi =? 0 then pipealloc_bad f0 f1
          else
            modify (fun s => put_pipes (<[pi := pipe_new]> (k_pipes s)) s) ;;;
            modf a (set_ftype FD_PIPE) ;;;
            modf a (set_readable true) ;;;
            modf a (set_writable false) ;;;
            modf a (set_fpipe pi) ;;;
            modf b (set_ftype FD_PIPE) ;;;
            modf b (set_readable false) ;;;
            modf b (set_writable true) ;;;
            modf b (set_fpipe pi) ;;;
            ret (Some (a, b))
      end
  end.
End file.
