(* ===== verification/Fork.v ===== *)
(** * kernel/proc.c: creation and exit of processes

    The routines of proc.c that work on open files and inodes as well as on
    the process table. *)

From S2P Require Import Prelude KMonad CString Sleeplock Bio Log Riscv Kalloc Vm Proc Fs Pipe.
From S2P Require Import Uart Console File.
Open Scope kmonad_scope.

(** user/initcode.S, assembled. *)
Definition initcode : list Z :=
  [0x17; 0x05; 0x00; 0x00; 0x13; 0x05; 0x45; 0x02;
   0x97; 0x05; 0x00; 0x00; 0x93; 0x85; 0x35; 0x02;
   0x93; 0x08; 0x70; 0x00; 0x73; 0x00; 0x00; 0x00;
   0x93; 0x08; 0x20; 0x00; 0x73; 0x00; 0x00; 0x00;
   0xef; 0xf0; 0x9f; 0xff; 0x2f; 0x69; 0x6e; 0x69;
   0x74; 0x00; 0x00; 0x24; 0x00; 0x00; 0x00; 0x00;
   0x00; 0x00; 0x00; 0x00].

Section fork.
Variables kend trampoline forkret_addr : Z.

(** A field of p->trapframe. *)
Definition tf_read (i : nat) (off : Z) : K pstate Z :=
  tf <- getp i p_trapframe ;; kmm (read64 (tf + off)).
Definition tf_write (i : nat) (off v : Z) : K pstate unit :=
  tf <- getp i p_trapframe ;; kmm (write64 (tf + off) v).

Definition userinit : K kstate unit :=
  r <- kp (allocproc kend trampoline forkret_addr) ;;
  kp (modify (set_initproc r)) ;;;
  p <- deref r ;;
  pt <- kp (getp p p_pagetable) ;;
  kp (kmm (uvmfirst pt initcode (Z.of_nat (length initcode)))) ;;;
  kp (modp p (set_sz PGSIZE)) ;;;
  kp (tf_write p tf_epc 0) ;;;
  kp (tf_write p tf_sp PGSIZE) ;;;
  kp (modp p (fun x => set_name (strcpy_into (p_name x) (string_bytes "initcode" ++ [0]) 16) x)) ;;;
  cwd <- kfs (namei [slash]) ;;
  kp (modp p (set_cwd cwd)) ;;;
  kp (modp p (set_state RUNNABLE)) ;;;
  release (LkProc p).

(** for (i = 0; i < NOFILE; i++) if (p->ofile[i]) ... filedup ... *)
Fixpoint fork_files (n i p np : nat) : K kstate unit :=
  match n with
  | O => ret tt
  | S n =>
      o <- kp (getp p p_ofile) ;;
      match o !! i with
      | Some (Some f) =>
          f' <- filedup f ;;
          kp (modp np (fun x => set_ofile (<[i := Some f']> (p_ofile x)) x))
      | _ => ret tt
      end ;;;
      fork_files n (S i) p np
  end.

Definition fork : K kstate Z :=
  p <- asks e_me ;;
  r <- kp (allocproc kend trampoline forkret_addr) ;;
  match r with
  | None => ret (-1)
  | Some np =>
      pt <- kp (getp p p_pagetable) ;;
      npt <- kp (getp np p_pagetable) ;;
      sz <- kp (getp p p_sz) ;;
      c <- kp (kmm (uvmcopy kend pt npt sz)) ;;
      if c <? 0 then
        kp (freeproc kend np) ;;;
        release (LkProc np) ;;;
        ret (-1)
      else
        kp (modp np (set_sz sz)) ;;;
        kp (modp np (set_run_time 0)) ;;;
        tf <- kp (getp p p_trapframe) ;;
        ntf <- kp (getp np p_trapframe) ;;
        kp (kmm (do_memmove ntf tf sizeof_trapframe)) ;;;
        kp (tf_write np tf_a0 0) ;;;
        fork_files NOFILE 0 p np ;;;
        cwd <- kp (getp p p_cwd) ;;
        c <- deref cwd ;;
        c' <- kfs (idup c) ;;
        kp (modp np (set_cwd (Some c'))) ;;;
        name <- kp (getp p p_name) ;;
        kp (modp np (fun x => set_name (strcpy_into (p_name x) name 16) x)) ;;;
        pid <- kp (getp np p_pid) ;;
        release (LkProc np) ;;;
        acquire LkWait ;;;
        kp (modp np (set_parent (Some p))) ;;;
        release LkWait ;;;
        acquire (LkProc np) ;;;
        kp (modp np (set_state RUNNABLE)) ;;;
        release (LkProc np) ;;;
        ret pid
  end.

Fixpoint exit_files (n fd p : nat) : K kstate unit :=
  match n with
  | O => ret tt
  | S n =>
      o <- kp (getp p p_ofile) ;;
      match o !! fd with
      | Some (Some f) =>
          fileclose kend f ;;;
          kp (modp p (fun x => set_ofile (<[fd := None]> (p_ofile x)) x))
      | _ => ret tt
      end ;;;
      exit_files n (S fd) p
  end.

Definition exit {A} (status : Z) : K kstate A :=
  p <- asks e_me ;;
  ip <- kp (gets initproc) ;;
  if bool_decide (ip = Some p) then panic "init exiting"
  else
    exit_files NOFILE 0 p ;;;
    klogop begin_op ;;;
    cwd <- kp (getp p p_cwd) ;;
    c <- deref cwd ;;
    kfs (iput c) ;;;
    klogop end_op ;;;
    kp (modp p (set_cwd None)) ;;;
    kp (exit_zombie p status) ;;;
    panic "zombie exit".
End fork.
