(* ===== verification/ForkSpec.v ===== *)
(** * fork()

    The child is a copy of the parent: the same memory in pages of its own,
    the same registers but for a0, the same open files and directory.  When
    memory runs out, fork() returns -1 and every page it took is free again. *)

From S2P Require Import Prelude KMonad CString Riscv Kalloc Vm PageTable VmSpec UvmSpec FreeWalk Reclaim UCopy VmThms UvmCopy.
From S2P Require Import Proc ProcSpec ProcInv ProcThms Reap AllocProc Sleeplock Bio Log Fs Pipe Uart Console File Fork.

Open Scope kmonad_scope.

(** ** The parts of the kernel that fork() works on *)

(** The kernel [s] with other processes, inodes and open files. *)
Definition kst (s : kstate) (ps : pstate) (ino : list inode) (fl : list file) : kstate :=
  put_files fl (put_fs (mkFsstate ps (fs_l (k_fs s)) (fs_sb (k_fs s)) ino) s).

Lemma kst_id s : kst s (k_p s) (fs_inodes (k_fs s)) (k_files s) = s.
Proof. by destruct s as [[]]. Qed.

Lemma kp_ok {A} (c : K pstate A) a e e' s ps ps' ino fl :
  c e ps = Ok a e' ps' -> kp c e (kst s ps ino fl) = Ok a e' (kst s ps' ino fl).
Proof. intros H. unfold kp, zoom. cbn [kst k_p put_files put_fs k_fs fs_p]. by rewrite H. Qed.

Lemma kp_getp {A} i (f : proc -> A) e s ps ino fl :
  kp (getp i f) e (kst s ps ino fl) = Ok (f (nth_proc i ps)) e (kst s ps ino fl).
Proof. by apply kp_ok. Qed.

Lemma kp_modp i f e s ps ino fl : kp (modp i f) e (kst s ps ino fl) = Ok tt e (kst s (upd_proc i f ps) ino fl).
Proof. by apply kp_ok. Qed.

(** ** Open files *)

(** How often [f] is in a table of open files. *)
Fixpoint opens (f : nat) (o : list (option nat)) : Z :=
  match o with
  | [] => 0
  | x :: o => (if decide (x = Some f) then 1 else 0) + opens f o
  end.

(** The open files [fl] with a reference more for each entry of [o]. *)
Definition shared (o : list (option nat)) (fl : list file) : list file :=
  imap (fun f x => set_fref (f_ref x + opens f o) x) fl.

(** The files of [o] are open, and counting the new references does not
    overflow. *)
Definition sharable (o : list (option nat)) (fl : list file) : Prop :=
  forall f, Some f ∈ o -> exists x, fl !! f = Some x /\ 1 <= f_ref x /\ f_ref x + opens f o < 2 ^ 31.

Lemma opens_nonneg f o : 0 <= opens f o.
Proof. induction o as [|x o IH]; cbn [opens]; [done|]. case_decide; lia. Qed.

Lemma shared_nil fl : shared [] fl = fl.
Proof.
  unfold shared. apply list_eq. intros f. rewrite list_lookup_imap. destruct (fl !! f) as [[]|]; [|done]. cbn. by rewrite Z.add_0_r.
Qed.

Lemma shared_none o fl : shared (None :: o) fl = shared o fl.
Proof. unfold shared. apply imap_ext. intros f x _. cbn [opens]. by rewrite decide_False by done. Qed.

Lemma shared_some f o fl : shared (Some f :: o) fl = shared o (alter (fun x => set_fref (f_ref x + 1) x) f fl).
Proof.
  unfold shared. apply list_eq. intros g. rewrite !list_lookup_imap, list_lookup_alter. cbn [opens].
  destruct (decide (f = g)) as [->|Hne]; destruct (fl !! g) as [x|]; cbn; try done.
  - rewrite decide_True by done. f_equal. unfold set_fref. cbn. f_equal. lia.
  - by rewrite decide_False by congruence.
Qed.

Lemma sharable_none o fl : sharable (None :: o) fl -> sharable o fl.
Proof.
  intros H f Hf. destruct (H f) as (x & Hx & H1 & H2); [by right|]. exists x. cbn [opens] in H2. by rewrite decide_False in H2.
Qed.

Lemma sharable_some f o fl :
  sharable (Some f :: o) fl -> sharable o (alter (fun x => set_fref (f_ref x + 1) x) f fl).
Proof.
  intros H g Hg. destruct (H g) as (x & Hx & H1 & H2); [by right|]. cbn [opens] in H2. rewrite list_lookup_alter.
  destruct (decide (f = g)) as [->|Hne]; rewrite Hx; cbn; eexists; (split; [done|]).
  - rewrite decide_True in H2 by done. cbn. lia.
  - rewrite decide_False in H2 by congruence. lia.
Qed.

Lemma filedup_run f x e s ps ino fl :
  LkFtable ∉ e_held e -> fl !! f = Some x -> 1 <= f_ref x -> f_ref x + 1 < 2 ^ 31 ->
  filedup f e (kst s ps ino fl) = Ok f e (kst s ps ino (alter (fun x => set_fref (f_ref x + 1) x) f fl)).
Proof.
  intros Hl Hx H1 H2. unfold filedup. rewrite bind_eq, acquire_eq by done. kred. unfold getf. rewrite bind_eq. kred.
  unfold nth_file. cbn [kst k_files put_files]. rewrite (list_lookup_total_correct _ _ _ Hx). destruct (Z.ltb_spec (f_ref x) 1); [lia|].
  unfold modf. rewrite bind_eq. kred. rewrite bind_eq, release_eq. kred. f_equal. unfold kst, put_files. cbn. f_equal.
  apply list_eq. intros g. rewrite !list_lookup_alter. case_decide as Hd; [|done]. subst g. rewrite Hx. cbn. by rewrite i32_small by lia.
Qed.

Lemma upd_proc_const i f s : (i < length (procs s))%nat -> upd_proc i f s = upd_proc i (fun _ => f (nth_proc i s)) s.
Proof.
  intros Hi. unfold upd_proc, nth_proc. f_equal. apply list_eq. intros j. rewrite !list_lookup_alter. case_decide as Hd; [|done]. subst j.
  destruct (lookup_lt_is_Some_2 (procs s) i Hi) as [x Hx]. by rewrite (list_lookup_total_correct _ _ _ Hx), Hx.
Qed.

Lemma set_ofile_same p : set_ofile (p_ofile p) p = p.
Proof. by destruct p. Qed.

(** The loop over the open files: a reference more for each of them, and the
    child's table is the parent's. *)
Lemma fork_files_run o pre p np e s ps ino fl :
  p <> np -> (np < length (procs ps))%nat -> LkFtable ∉ e_held e -> drop (length pre) (p_ofile (nth_proc p ps)) = o ->
  p_ofile (nth_proc np ps) = pre ++ replicate (length o) None -> sharable o fl ->
  fork_files (length o) (length pre) p np e (kst s ps ino fl) =
    Ok tt e (kst s (upd_proc np (set_ofile (pre ++ o)) ps) ino (shared o fl)).
Proof.
  intros Hne Hnp Hl. revert pre ps fl Hnp. induction o as [|x o IH]; intros pre ps fl Hnp Ho Hc Hsh; cbn [fork_files length].
  - rewrite shared_nil, upd_proc_id; [done| |done]. cbn [length replicate] in Hc. by rewrite <- Hc, set_ofile_same.
  - assert (Hx : p_ofile (nth_proc p ps) !! length pre = Some x).
    { rewrite <- (Nat.add_0_r (length pre)), <- lookup_drop, Ho. done. }
    rewrite bind_eq, kp_getp. kred. rewrite Hx. replace (S (length pre)) with (length (pre ++ [x])) by (rewrite length_app; simpl; lia).
    assert (Hd : drop (length (pre ++ [x])) (p_ofile (nth_proc p ps)) = o).
    { rewrite length_app, <- drop_drop, Ho. done. }
    replace (pre ++ x :: o) with ((pre ++ [x]) ++ o) by by rewrite <- app_assoc. destruct x as [f|].
    + destruct (Hsh f) as (y & Hy & H1 & H2); [by left|]. cbn [opens] in H2. rewrite decide_True in H2 by done.
      pose proof (opens_nonneg f o). rewrite !bind_eq, (filedup_run f y) by (done || lia). kred. rewrite kp_modp. kred.
      rewrite IH, upd_proc_twice, shared_some; [done|by rewrite length_upd_proc|by rewrite nth_upd_other| |by apply sharable_some].
      rewrite nth_upd_same by done. cbn [p_ofile set_ofile]. rewrite Hc. cbn [length replicate].
      rewrite insert_app_r_alt, Nat.sub_diag by done. cbn. by rewrite <- app_assoc.
    + rewrite bind_eq. kred. rewrite IH, shared_none; [done|done|done| |by apply sharable_none]. by rewrite Hc, <- app_assoc.
Qed.

(** idup() of the current directory. *)
Lemma idup_run c e s ps ino fl :
  LkItable ∉ e_held e ->
  kfs (idup c) e (kst s ps ino fl) = Ok c e (kst s ps (alter (fun x => set_ref (i32 (i_ref x + 1)) x) c ino) fl).
Proof.
  intros Hl. unfold kfs, zoom, idup. rewrite bind_eq, acquire_eq by done. kred. unfold modi. rewrite bind_eq. kred.
  rewrite bind_eq, release_eq. done.
Qed.

(** ** The name *)

Lemma until_nul_take n l : 0 ∈ take (S n) l -> until_nul (take n l) = until_nul l.
Proof.
  revert l. induction n as [|n IH]; intros [|x l] H; cbn [take until_nul] in *; [done| |done|].
  - apply elem_of_cons in H as [<-|H]; [done|by apply elem_of_nil in H].
  - destruct (Z.eqb_spec x 0) as [->|Hx]; [done|]. f_equal. apply IH. apply elem_of_cons in H as [E|H]; [congruence|done].
Qed.

(** safestrcpy() of the name of a process. *)
Lemma safestrcpy_all m d t n :
  d + Z.of_nat (S n) <= t -> 0 ∈ mread m t (S n) ->
  until_nul (mread (safestrcpy_loop m d t n) d (S n)) = until_nul (mread m t (S n)).
Proof.
  intros Ht H0. destruct (safestrcpy_loop_spec m d t n) as (H & _ & _); [lia|]. unfold bstr in H. rewrite H.
  rewrite <- (until_nul_take n (mread m t (S n))) by (by rewrite take_ge by (by rewrite length_mread)). f_equal.
  apply list_eq. intros i. destruct (decide (i < n)%nat) as [Hi|Hi].
  - by rewrite lookup_take_lt, !mread_lookup by lia.
  - rewrite lookup_take_ge by lia. apply lookup_ge_None_2. rewrite length_mread. lia.
Qed.

Lemma name_copied dst src :
  length dst = 16%nat -> length src = 16%nat -> 0 ∈ src -> until_nul (strcpy_into dst src 16) = until_nul src.
Proof.
  intros Hd Hs H0. assert (E : mread (mwrite (mwrite ∅ 0 dst) 4096 src) 4096 16 = src) by (rewrite <- Hs; apply mread_mwrite_same).
  unfold strcpy_into, safestrcpy. rewrite Hd, (proj2 (Z.leb_gt 16 0)) by lia. replace (Z.to_nat (16 - 1)) with 15%nat by lia.
  rewrite safestrcpy_all; [by rewrite E|lia|by rewrite E].
Qed.

Section fork.
Context (kend : Z) (Hkend : 0 < kend) (trampoline : Z).
Hypothesis Htramp : pa_page_ok trampoline /\ trampoline + PGSIZE <= 2 ^ 56.
Local Abbreviation vmi := (vmi kend).
Local Abbreviation new_space := (new_space kend trampoline).
Local Abbreviation parent_ok := (parent_ok kend).

(** ** Memory *)

(** The parent's address space is not affected by changes of free pages. *)
Lemma parent_ok_frame m m' l l' T To old lim :
  parent_ok m l ∅ To old lim -> same_off (fun p => p ∈ l) m m' -> Forall pg_aligned l ->
  (forall q, q ∈ l' -> q ∈ l) -> (forall q, is_Some (T !! q) -> q ∈ l) -> parent_ok m' l' T To old lim.
Proof using.
  intros [Hwf Hr Hap Hlf Hpg] Ho Hal Hl HT. rewrite Forall_forall in Hal.
  destruct (pt_frame m m' To _ Hwf Ho) as [Hwf' Hpt].
  { intros q Hq. split; [by apply Hal|]. destruct (To !! q) eqn:E; [|done]. by destruct (Hap q) as [? _]; [eexists|]. }
  assert (Hp : forall x, pte_of m' old x = pte_of m old x) by (intros x; by eapply Hpt).
  assert (HTn : forall q, q ∉ l -> T !! q = None).
  { intros q Hq. destruct (T !! q) eqn:E; [|done]. destruct Hq. apply HT. by eexists. }
  split; [done|done| | |].
  - intros q Hq. destruct (Hap q Hq) as [Hql _]. split; [by intros ?%Hl|by apply HTn].
  - intros x Hx. rewrite Hp. by apply Hlf.
  - intros x Hx. rewrite Hp. destruct (Hpg x Hx) as (H1 & H2 & _). split; [done|]. split; [by intros ?%Hl|by apply HTn].
Qed.

(** The tables of a new address space come from the free list. *)
Lemma new_space_in s l T root tf l1 p : new_space s l T root tf l1 -> is_Some (T !! p) \/ p ∈ l -> p ∈ l1.
Proof using.
  intros Hns [Hp|Hp]; [by eapply owned_tree_in; [apply Hns|]|].
  rewrite (ot_all _ _ _ _ _ _ (ns_tree _ _ _ _ _ _ _ _ Hns)). apply elem_of_app. by right.
Qed.

Lemma new_space_top s l T root tf l1 :
  page_ok kend tf -> new_space s l T root tf l1 -> leaves (kmem_mem s) root TRAPFRAME 2.
Proof using Hkend Htramp.
  intros Htf Hns x Hx. assert (HT : TRAPFRAME = 274877898752) by done. assert (HA : TRAMPOLINE = 274877902848) by done.
  assert (HM : MAXVA = 274877906944) by done. assert (HP : PGSIZE = 4096) by done.
  destruct (Z.lt_ge_cases x TRAMPOLINE).
  - rewrite (ns_trapframe _ _ _ _ _ _ _ _ Hns) by lia. apply map_pte_leaf; [by apply (page_ok_pa kend Hkend)|done|done].
  - rewrite (ns_trampoline _ _ _ _ _ _ _ _ Hns) by lia. apply map_pte_leaf; [apply Htramp|done|done].
Qed.

(** What is left of a new address space after a copy has failed. *)
Lemma shrunk_space s l T root tf l1 s' l' T' :
  page_ok kend tf -> new_space s l T root tf l1 -> shrunk_back kend s l T root s' l' T' ->
  aspace (kmem_mem s') T' root 0 /\ tables (kmem_mem s') 2 root ++ l' ≡ₚ l1 /\ (forall p, is_Some (T' !! p) -> p ∈ l1).
Proof using Hkend Htramp.
  intros Htf Hns [Hv HT Hc Hp Htr Hfr Hall [Hk1 Hk2]]. pose proof (new_space_top _ _ _ _ _ _ Htf Hns) as Htop.
  pose proof (fun p => new_space_in _ _ _ _ _ _ p Hns) as Hin.
  pose proof Hns as [[Hv0 Hr Hro Hlow Hl1 Hok] Hu _ _].
  assert (HTF : TRAPFRAME = 274877898752) by done. assert (HM : MAXVA = 274877906944) by done. assert (HP : PGSIZE = 4096) by done.
  assert (Hr' : T' !! root = Some (2%nat, 0)) by (eapply lookup_weaken; [done|done]).
  pose proof (labelled_tables _ _ _ (vmi_wf _ _ _ _ Hv) Hr' (Hk1 root Hr Hro)) as Hlab'.
  pose proof (labelled_tables _ _ _ (vmi_wf _ _ _ _ Hv0) Hr Hro) as Hlab.
  assert (HT' : forall p, is_Some (T' !! p) -> p ∈ l1) by (intros p Hpt; apply Hin, Htr; done).
  split; [|split; [|done]].
  - split; [done|by apply Hk2|lia| | |].
    + intros x Hx. change (PGROUNDUP 0 / PGSIZE) with 0 in Hx. lia.
    + intros x Hx. rewrite Hp by lia. by apply Htop.
    + intros x Hx. change (PGROUNDUP 0) with 0 in Hx. rewrite Hp, Hu by lia. done.
  - apply NoDup_Permutation.
    + apply NoDup_app. split; [by apply (tables_NoDup _ T' (vmi_wf _ _ _ _ Hv) 2 root 0)|].
      split; [|apply Hv]. intros p Hpt%Hlab' Hpl%(vmi_free _ _ _ _ Hv). destruct Hpt as [? H]. by rewrite Hpl in H.
    + rewrite Hl1. apply NoDup_app. split; [by apply (tables_NoDup _ T (vmi_wf _ _ _ _ Hv0) 2 root 0)|].
      split; [|apply Hv0]. intros p Hpt%Hlab Hpl%(vmi_free _ _ _ _ Hv0). destruct Hpt as [? H]. by rewrite Hpl in H.
    + intros p. rewrite elem_of_app, <- Hlab'. split.
      * intros [Hpt|Hpl]; [by apply HT'|]. apply Hin. right. by apply Hfr.
      * rewrite Hl1, elem_of_app, <- Hlab. intros [[lab Hpt]|Hpl].
        -- left. exists lab. by eapply lookup_weaken.
        -- destruct (Hall p Hpl); [by right|by left].
Qed.

(** freeproc() of the child of a failed fork(). *)
Lemma fork_undone np e s l T root tf l1 k l' T' :
  (np < length (procs s))%nat -> LkKmem ∉ e_held e ->
  p_trapframe (nth_proc np s) = tf -> p_pagetable (nth_proc np s) = root -> p_sz (nth_proc np s) = 0 ->
  page_ok kend tf -> tf ∉ l1 -> new_space k l T root tf l1 -> shrunk_back kend k l T root (ps_kmem s) l' T' ->
  exists k' l'', freeproc kend np e s = Ok tt e (upd_proc np cleared (set_kmem k' s)) /\ kmem_inv kend k' l'' /\ l'' ≡ₚ tf :: l1 /\
    same_off (fun p => p ∈ tf :: l1) (kmem_mem (ps_kmem s)) (kmem_mem k').
Proof using Hkend Htramp.
  intros Hnp Hl Etf Ept Esz Htf Htl Hns Hsb. destruct (shrunk_space _ _ _ _ _ _ _ _ _ Htf Hns Hsb) as (Has & Hperm & HT').
  pose proof (ot_ok _ _ _ _ _ _ (ns_tree _ _ _ _ _ _ _ _ Hns)) as Hok. rewrite Forall_forall in Hok.
  assert (Hown : owned_pages (kmem_mem (ps_kmem s)) (nth_proc np s) = [tf]) by (unfold owned_pages; by rewrite Etf, Esz).
  destruct (freeproc_spec kend Hkend np s l' T' e) as (k' & E & Hk & Ho); try done.
  - apply Hsb.
  - by rewrite Ept, Esz.
  - intros q Hq. by apply Hok, HT'.
  - rewrite Hown. split; [apply NoDup_singleton|]. split; [by apply Forall_cons|]. apply Forall_cons. split; [|done]. split.
    + intros Hin%(sb_from _ _ _ _ _ _ _ _ Hsb). apply Htl. eapply new_space_in; [done|by right].
    + destruct (T' !! tf) eqn:E; [|done]. destruct Htl. apply HT'. by eexists.
  - rewrite Hown, Ept in *. eexists k', _. split; [done|]. split; [exact Hk|]. split.
    + cbn [rev app]. rewrite <- Permutation_middle, <- Permutation_rev. by rewrite Hperm.
    + eapply same_off_mono; [|exact Ho]. cbn beta. intros p [Hp|Hp]; [right; by apply HT'|]. apply list_elem_of_singleton in Hp as ->. by left.
Qed.
(** ** The copy *)

(** The memory [k] after a successful fork() from memory [m], where the pages
    [l] were free: the child has the page table [root] with tables [T] and the
    trapframe [tf], and [l'] is still free. *)
Record forked (m : mem) (l : list Z) (old ptf sz : Z) (k : kmem) (l' : list Z) (T : gmap Z (nat * Z)) (root tf : Z) : Prop := {
  fk_vmi : vmi k l' T;
  fk_space : aspace (kmem_mem k) T root sz;
  fk_owned : freeable kend l' T (tf :: user_pages (kmem_mem k) root sz);
  fk_from : forall q, q ∈ l <-> q ∈ l' \/ is_Some (T !! q) \/ q ∈ tf :: user_pages (kmem_mem k) root sz;
  fk_rest : same_off (fun q => q ∈ l) m (kmem_mem k);
  fk_flags : forall x, 0 <= x < PGROUNDUP sz -> PTE_FLAGS (pte_of (kmem_mem k) root x) = PTE_FLAGS (pte_of m old x);
  fk_child : forall va n, 0 <= va -> va + Z.of_nat n <= PGROUNDUP sz -> uread (kmem_mem k) root va n = uread m old va n;
  fk_parent : forall va n, 0 <= va -> va + Z.of_nat n <= PGROUNDUP sz -> uread (kmem_mem k) old va n = uread m old va n;
  fk_top : forall x, TRAPFRAME <= x < TRAMPOLINE -> pte_of (kmem_mem k) root x = map_pte tf (Z.lor PTE_R PTE_W);
  fk_regs : forall off, 0 <= off -> off + 8 <= sizeof_trapframe -> off mod 8 = 0 ->
    load64 (kmem_mem k) (tf + off) = if decide (off = tf_a0) then 0 else load64 m (ptf + off)
}.

(** Reading user memory is not affected by a change of pages that are neither
    tables nor mapped. *)
Lemma uread_frame (P : Z -> Prop) m m' T root va n :
  pt_wf m T -> T !! root = Some (2%nat, 0) -> same_off P m m' -> (forall q, P q -> pg_aligned q /\ T !! q = None) ->
  (forall x, va <= x < va + Z.of_nat n -> ~ P (PTE2PA (pte_of m root x))) -> uread m' root va n = uread m root va n.
Proof using.
  intros Hwf Hr Ho HP Hne. destruct (pt_frame m m' T _ Hwf Ho HP) as [_ Hpt].
  assert (Hp : forall x, pte_of m' root x = pte_of m root x) by (intros x; by eapply Hpt).
  apply uread_ext. intros x Hx. assert (Hu : uaddr m' root x = uaddr m root x) by (unfold uaddr, user_page; by rewrite Hp).
  rewrite Hu. destruct (uaddr m root x) as [a|] eqn:E; [|by left]. right. exists a, a. split; [done|]. split; [done|].
  apply Ho. intros q Hq Hin. destruct (HP q Hq) as [Hqa _]. apply (Hne x Hx). unfold uaddr, user_page in E.
  pose proof (PTE2PA_aligned (pte_of m root x)) as Hal. destruct (MAXVA <=? x); [done|]. cbn zeta in E.
  destruct (flag _ _ && flag _ _); [|done]. destruct (_ =? 0); [done|]. injection E as <-.
  replace (PTE2PA (pte_of m root x)) with q; [done|]. unfold pg_aligned, PGSIZE in *. zdm.
Qed.

(** The parent reads the same after changes of free pages. *)
Lemma parent_frame m m' l To old lim :
  parent_ok m l ∅ To old lim -> same_off (fun q => q ∈ l) m m' -> Forall (page_ok kend) l ->
  (forall x, pte_of m' old x = pte_of m old x) /\
  (forall va n, 0 <= va -> va + Z.of_nat n <= lim -> uread m' old va n = uread m old va n).
Proof using.
  intros [Hwf Hr Hap Hlf Hpg] Ho Hok. rewrite Forall_forall in Hok.
  assert (HP : forall q, q ∈ l -> pg_aligned q /\ To !! q = None).
  { intros q Hq. split; [by apply Hok|]. destruct (To !! q) eqn:E; [|done]. by destruct (Hap q) as [? _]; [eexists|]. }
  split; [|intros va n Hva Hn; eapply uread_frame; [done|done|exact Ho|done|]; intros x Hx; by apply Hpg; lia].
  destruct (pt_frame m m' To _ Hwf Ho HP) as [_ Hpt]. intros x. by eapply Hpt.
Qed.

(** memmove() of the trapframe and the child's a0. *)
Lemma copied_regs m tf ptf off :
  pg_aligned tf -> pg_aligned ptf -> tf <> ptf -> 0 <= off -> off + 8 <= sizeof_trapframe -> off mod 8 = 0 ->
  load64 (store64 (memmove m tf ptf sizeof_trapframe) (tf + tf_a0) 0) (tf + off) =
    if decide (off = tf_a0) then 0 else load64 m (ptf + off).
Proof using.
  intros Htf Hptf Hne H0 H1 H8. case_decide as Hd; [subst; by rewrite load_store_same|].
  rewrite load_store_disj by (unfold tf_a0 in *; zdm). unfold sizeof_trapframe in *.
  apply load64_ext. intros i Hi. rewrite memmove_mwrite by lia. replace (tf + off + i) with (tf + Z.of_nat (Z.to_nat (off + i))) by lia.
  erewrite mget_mwrite_in; [reflexivity|]. rewrite mread_lookup by lia. f_equal. f_equal. lia.
Qed.

Lemma copied_off m tf ptf :
  same_off (fun q => q = tf) m (store64 (memmove m tf ptf sizeof_trapframe) (tf + tf_a0) 0).
Proof using.
  intros a Ha. specialize (Ha tf eq_refl). unfold sizeof_trapframe, tf_a0, PGSIZE in *.
  rewrite mget_store64_ne by lia. rewrite memmove_mwrite by lia. apply mget_mwrite_ne. rewrite length_mread. lia.
Qed.
(** ** After uvmcopy() *)

Section copied.
Context (m : mem) (tf : Z) (l1 l' : list Z) (T To T2 : gmap Z (nat * Z)) (old root sz : Z) (k k2 : kmem) (l2 ps : list Z).
Hypothesis Hnd : NoDup (tf :: l1).
Hypothesis Hok : Forall (page_ok kend) (tf :: l1).
Hypothesis Hoff : same_off (fun q => q ∈ tf :: l1) m (kmem_mem k).
Hypothesis Hpar : parent_ok m (tf :: l1) ∅ To old (PGROUNDUP sz).
Hypothesis Hns : new_space k l' T root tf l1.
Hypothesis Hsz : 0 <= sz <= TRAPFRAME.
Hypothesis Hfill : filled kend k l' T root 0 (copy_perm (kmem_mem k) old) (copy_cont (kmem_mem k) old) k2 l2 T2 ps.
Hypothesis Hps : nth_page (length ps) = PGROUNDUP sz.

Lemma round_size : sz <= PGROUNDUP sz <= TRAPFRAME /\ pg_aligned (PGROUNDUP sz).
Proof using Hsz.
  clear Hpar Hps. pose proof (PGROUNDUP_bounds sz) as Hb. pose proof (PGROUNDUP_aligned sz) as Ha.
  change TRAPFRAME with 274877898752 in *. unfold pg_aligned, PGSIZE in *. zdm.
Qed.

(** Where the pages went. *)
Lemma copied_pages q : q ∈ l1 <-> q ∈ l2 \/ is_Some (T2 !! q) \/ q ∈ ps.
Proof using Hfill Hns.
  destruct (gn_ev _ _ _ _ _ _ _ _ _ _ _ _ Hfill) as (used & Hev & Hu & Hin).
  pose proof (fun q => new_space_in _ _ _ _ _ _ q Hns) as Hn. pose proof (ev_used _ _ _ _ _ _ _ _ Hev) as El.
  pose proof (ns_tree _ _ _ _ _ _ _ _ Hns) as Ht. split.
  - rewrite (ot_all _ _ _ _ _ _ Ht), El, !elem_of_app. intros [Hq|[Hq|Hq]]; [|destruct (Hu q Hq); auto|by left].
    right. left. apply (labelled_tables _ T root (vmi_wf _ _ _ _ (ot_vmi _ _ _ _ _ _ Ht)) (ot_root _ _ _ _ _ _ Ht)
      (ot_rooted _ _ _ _ _ _ Ht)) in Hq as [lab Hq]. exists lab. eapply lookup_weaken; [done|apply Hev].
  - assert (Hl : forall p, p ∈ used \/ p ∈ l2 -> p ∈ l1) by (intros p Hp; apply Hn; right; rewrite El; by apply elem_of_app).
    intros [Hq|[Hq|Hq]]; [apply Hl; by right| |apply Hl; left; by apply Hin].
    destruct (ev_dom _ _ _ _ _ _ _ _ Hev q Hq); [apply Hn; by left|apply Hl; by left].
Qed.

Lemma copied_user_pages : user_pages (kmem_mem k2) root sz = ps.
Proof using Hfill Hps Hkend Hsz.
  pose proof round_size as [Hr _]. change TRAPFRAME with 274877898752 in *. assert (HM : MAXVA = 274877906944) by done.
  unfold user_pages. rewrite <- Hps. replace (Z.to_nat (nth_page (length ps) / PGSIZE)) with (length ps) by (unfold nth_page, PGSIZE; zdm).
  eapply (spans_pages_of kend Hkend); [..|apply Hfill|]; try done.
  - split; [|unfold nth_page in *; lia]. unfold pg_aligned, PGSIZE. zdm.
  - intros i _. apply flags_range.
Qed.

(** The parent at the time of the copy. *)
Lemma copy_parent : parent_ok (kmem_mem k) l' T To old (PGROUNDUP sz).
Proof using Hpar Hoff Hok Hns.
  pose proof (fun q => new_space_in _ _ _ _ _ _ q Hns) as Hn.
  eapply parent_ok_frame; [exact Hpar|exact Hoff| | |].
  - eapply Forall_impl; [exact Hok|]. by intros q [? _].
  - intros q Hq. right. apply Hn. by right.
  - intros q Hq. right. apply Hn. by left.
Qed.

(** The child's entries: its own pages with the parent's flags, then nothing,
    then the two pages at the top. *)
Lemma copied_pte x :
  0 <= x < MAXVA ->
  if decide (x < PGROUNDUP sz)
  then flag (pte_of (kmem_mem k2) root x) PTE_V = true /\ PTE_FLAGS (pte_of (kmem_mem k2) root x) = PTE_FLAGS (pte_of m old x) /\
       PTE2PA (pte_of (kmem_mem k2) root x) ∈ ps
  else pte_of (kmem_mem k2) root x = pte_of (kmem_mem k) root x.
Proof using Hpar Hoff Hok Hns Hfill Hps Hkend Hsz.
  intros Hx. pose proof copy_parent as Hcp. destruct (gn_spans _ _ _ _ _ _ _ _ _ _ _ _ Hfill) as [_ _ Hpte Hfr].
  destruct (parent_frame _ _ _ _ _ _ Hpar Hoff Hok) as [Hpo _]. rewrite Hpte by done. fold (nth_page (length ps)). rewrite Z.add_0_l, Hps.
  case_decide as Hd; [rewrite decide_True by lia|by rewrite decide_False by lia]. rewrite Z.sub_0_r. set (i := Z.to_nat (x / PGSIZE)).
  assert (Hi : (i < length ps)%nat) by (unfold i, nth_page, PGSIZE in *; zdm).
  destruct (lookup_lt_is_Some_2 ps i Hi) as [p Hp]. rewrite (list_lookup_total_correct _ _ _ Hp). apply list_elem_of_lookup_2 in Hp.
  assert (Hsame : pte_of (kmem_mem k) old (nth_page i) = pte_of (kmem_mem k) old x).
  { apply same_page_pte; [lia|unfold nth_page, PGSIZE; lia|]. unfold i, nth_page, PGSIZE. zdm. }
  destruct (po_leaf _ _ _ _ _ _ _ Hcp x ltac:(lia)) as [Hv Hlf]. unfold copy_perm. rewrite Hsame.
  pose proof (page_ok_pa kend Hkend p (freeable_page_ok _ _ _ _ _ Hfr Hp)) as Hpa.
  destruct (map_pte_spec p (PTE_FLAGS (pte_of (kmem_mem k) old x)) Hpa (flags_range _)) as (H1 & H2 & _).
  rewrite H1, H2, valid_flags, Hpo by done. split; [|done]. rewrite <- Hpo.
  apply (map_pte_leaf p); [done|apply flags_range|by rewrite valid_flags].
Qed.

Lemma copied_space : aspace (kmem_mem k2) T2 root sz.
Proof using Hpar Hoff Hok Hns Hfill Hps Hkend Hsz Htramp.
  pose proof round_size as [Hr Ha]. assert (HT : TRAPFRAME = 274877898752) by done. assert (HM : MAXVA = 274877906944) by done.
  assert (HP : PGSIZE = 4096) by done. destruct (gn_ev _ _ _ _ _ _ _ _ _ _ _ _ Hfill) as (used & Hev & _).
  assert (Htf : page_ok kend tf) by (by apply Forall_cons in Hok as [? _]).
  pose proof (new_space_top _ _ _ _ _ _ Htf Hns) as Htop.
  split; [apply Hfill| |done| | |].
  - apply (ev_tree _ _ _ _ _ _ _ _ Hev). apply Hns.
  - intros x Hx. replace (0 + PGROUNDUP sz / PGSIZE * PGSIZE) with (PGROUNDUP sz) in Hx by (unfold pg_aligned in Ha; zdm).
    pose proof (copied_pte x ltac:(lia)) as H. rewrite decide_True in H by lia. destruct H as (H1 & H2 & _). split; [done|].
    rewrite H2. by apply (po_leaf _ _ _ _ _ _ _ Hpar).
  - intros x Hx. pose proof (copied_pte x ltac:(lia)) as H. rewrite decide_False in H by lia. rewrite H. by apply Htop.
  - intros x Hx. pose proof (copied_pte x ltac:(lia)) as H. rewrite decide_False in H by lia.
    rewrite H, (ns_user _ _ _ _ _ _ _ _ Hns) by lia. done.
Qed.

(** The trapframe is a page of its own. *)
Lemma tf_apart : page_ok kend tf /\ tf ∉ l1 /\ tf ∉ l2 /\ T2 !! tf = None /\ tf ∉ ps.
Proof using Hnd Hok Hns Hfill.
  apply NoDup_cons in Hnd as [Hn _]. apply Forall_cons in Hok as [Htf _]. split; [done|]. split; [done|]. pose proof (copied_pages tf) as Hc.
  split; [intros ?; apply Hn, Hc; by left|]. split; [|intros ?; apply Hn, Hc; by auto].
  destruct (T2 !! tf) as [lab|] eqn:E; [|done]. destruct Hn. apply Hc. right. left. by exists lab.
Qed.

(** The copy and the registers together. *)
Lemma fork_copied ptf :
  pg_aligned ptf -> ptf ∉ tf :: l1 ->
  let m3 := store64 (memmove (kmem_mem k2) tf ptf sizeof_trapframe) (tf + tf_a0) 0 in
  forked m (tf :: l1) old ptf sz (mkKmem (freelist k2) m3) l2 T2 root tf.
Proof using Hnd Hok Hoff Hpar Hns Hsz Hfill Hps Hkend Htramp.
  intros Hpa Hpl m3. pose proof (copied_off (kmem_mem k2) tf ptf) as Ho3. fold m3 in Ho3.
  destruct tf_apart as (Htf & Htl & Ht2 & HTt & Htp). pose proof round_size as [Hr _].
  destruct (gn_spans _ _ _ _ _ _ _ _ _ _ _ _ Hfill) as [Hv Hroot _ Hfr].
  destruct (gn_ev _ _ _ _ _ _ _ _ _ _ _ _ Hfill) as (used & Hev & _). pose proof (evolves_confined _ _ _ _ _ _ _ _ Hev) as Hc.
  assert (HP : forall q, q = tf -> pg_aligned q /\ T2 !! q = None) by (intros q ->; split; [apply Htf|done]).
  destruct (aspace_frame _ _ m3 _ _ _ (vmi_wf _ _ _ _ Hv) Ho3 HP copied_space) as (Has & Hup & _). rewrite copied_user_pages in Hup.
  destruct (pt_frame _ m3 _ _ (vmi_wf _ _ _ _ Hv) Ho3 HP) as [_ Hpt].
  assert (Hpte : forall x, pte_of m3 root x = pte_of (kmem_mem k2) root x) by (intros x; by eapply Hpt).
  assert (Hk2 : same_off (fun q => q ∈ tf :: l1) m (kmem_mem k2)).
  { eapply same_off_mono; [|eapply same_off_trans; [exact Hoff|exact Hc]]. cbn beta. intros q [Hq|Hq]; [done|right].
    by eapply new_space_in. }
  assert (Hrest : same_off (fun q => q ∈ tf :: l1) m m3).
  { eapply same_off_mono; [|eapply same_off_trans; [exact Hk2|exact Ho3]]. cbn beta. intros q [Hq| ->]; [done|by left]. }
  assert (HT : TRAPFRAME = 274877898752) by done. assert (HA : TRAMPOLINE = 274877902848) by done. assert (HM : MAXVA = 274877906944) by done.
  split; cbn [kmem_mem]; [| | | | | | | | |].
  - eapply vmi_off; [exact Hv|exact Ho3|]. intros q ->. by split; [apply Htf|].
  - done.
  - rewrite Hup. destruct Hfr as (F1 & F2 & F3). split; [by apply NoDup_cons|]. split; by apply Forall_cons.
  - intros q. rewrite Hup, !elem_of_cons, copied_pages. tauto.
  - done.
  - intros x Hx. rewrite Hpte. pose proof (copied_pte x ltac:(lia)) as H. rewrite decide_True in H by lia. apply H.
  - intros va n Hva Hn. transitivity (uread (kmem_mem k2) root va n).
    + eapply uread_frame; [apply Hv|done|exact Ho3|done|]. intros x Hx E. pose proof (copied_pte x ltac:(lia)) as H.
      rewrite decide_True in H by lia. destruct H as (_ & _ & H). by rewrite E in H.
    + rewrite (child_reads kend k l' T To old root (PGROUNDUP sz) Hkend ltac:(split; [apply round_size|lia]) copy_parent k2 l2 T2 ps va n) by done.
      by apply (parent_frame _ _ _ _ _ _ Hpar Hoff Hok).
  - by apply (parent_frame _ _ _ _ _ _ Hpar Hrest Hok).
  - intros x Hx. rewrite Hpte. pose proof (copied_pte x ltac:(lia)) as H. rewrite decide_False in H by lia. rewrite H. by apply Hns.
  - intros off H0 H1 H8. unfold m3. rewrite copied_regs; [|apply Htf|done|by intros ->; apply Hpl; left|done|done|done].
    case_decide; [done|]. apply load64_ext. intros i Hi. apply Hk2. intros q Hq Hin. unfold sizeof_trapframe in *.
    assert (q <> ptf) by (by intros ->). rewrite Forall_forall in Hok. destruct (Hok q Hq) as [Hqa _].
    destruct (pages_disjoint q ptf Hqa Hpa); [done|unfold PGSIZE in *; lia..].
Qed.
End copied.

(** ** The whole of fork() *)

Context (forkret_addr : Z).
Local Abbreviation newborn := (newborn forkret_addr).
Local Abbreviation fork := (fork kend trampoline forkret_addr).
Local Abbreviation allocproc := (allocproc kend trampoline forkret_addr).

(** The slot of the child of process [me], whose own slot is [q]. *)
Definition child_of (q : proc) (me : nat) (pid tf root now : Z) (x : proc) : proc :=
  mkProc RUNNABLE (p_chan x) (p_killed x) (p_xstate x) pid (Some me) (p_kstack x) (p_sz q) root tf
    (mkContext forkret_addr (p_kstack x + PGSIZE) (replicate 12 0)) (p_ofile q) (p_cwd q)
    (strcpy_into (p_name x) (p_name q) 16) now 0 0 0 0.

(** A store into the trapframe. *)
Lemma tf_write_run i off v e s ps ino fl :
  kp (tf_write i off v) e (kst s ps ino fl) =
    Ok tt e (kst s (set_kmem (on_mem (fun m => store64 m (p_trapframe (nth_proc i ps) + off) v) (ps_kmem ps)) ps) ino fl).
Proof using. by apply kp_ok. Qed.

Lemma kmm_run {A} (c : K kmem A) a e k s ps ino fl :
  c e (ps_kmem ps) = Ok a e k -> kp (kmm c) e (kst s ps ino fl) = Ok a e (kst s (set_kmem k ps) ino fl).
Proof using. intros H. by apply kp_ok, kmm_ok. Qed.

(** Symbolic execution of fork(). *)
Ltac fork_step :=
  rewrite bind_eq;
  first [rewrite kp_getp; kred; rewrite ?nth_set_kmem, ?nth_upd_other, ?nth_upd_same by (rewrite ?length_upd_proc; done)
        |rewrite kp_modp; kred; rewrite ?upd_set_kmem, ?upd_proc_twice].
Ltac fork_begin Hc Halloc :=
  unfold fork; rewrite bind_eq; kred;
  match goal with |- context [bind _ _ _ ?s] => rewrite <- (kst_id s) at 1 end;
  rewrite bind_eq, (kp_ok _ _ _ _ _ _ _ _ _ Halloc); kred; do 3 fork_step;
  cbn [p_pagetable newborn]; rewrite bind_eq; erewrite kmm_run by exact Hc; kred; rewrite upd_set_kmem, set_kmem_twice.

Section run.
Context (e : env) (s : kstate) (np : nat) (tf root : Z) (k k2 : kmem) (c : nat).
Let q := nth_proc (e_me e) (k_p s).
Let pid := nextpid (k_p s).
Let s0 := set_nextpid (i32 (pid + 1)) (k_p s).
Let e2 := set_held (LkProc np :: e_held e) e.
Let born := newborn pid tf root (ticks (k_p s)).
Hypothesis He : e_held e = [].
Hypothesis Hne : e_me e <> np.
Hypothesis Hnp : (np < length (procs (k_p s)))%nat.
Hypothesis Halloc : allocproc e (k_p s) = Ok (Some np) e2 (upd_proc np born (set_kmem k s0)).

(** fork() when the copy of the memory fails. *)
Lemma fork_fail_run k3 :
  uvmcopy kend (p_pagetable q) root (p_sz q) e2 k = Ok (-1) e2 k2 ->
  freeproc kend np e2 (upd_proc np born (set_kmem k2 s0)) = Ok tt e2 (upd_proc np cleared (set_kmem k3 (upd_proc np born (set_kmem k2 s0)))) ->
  fork e s = Ok (-1) e (kst s (upd_proc np (fun x => cleared (born x)) (set_kmem k3 s0)) (fs_inodes (k_fs s)) (k_files s)).
Proof using He Hne Hnp Halloc.
  intros Hc Hf. fork_begin Hc Halloc. cbn [Z.ltb Z.compare]. rewrite bind_eq, (kp_ok _ _ _ _ _ _ _ _ _ Hf). kred.
  rewrite bind_eq. unfold e2. rewrite release_eq. kred. by rewrite upd_set_kmem, upd_proc_twice, set_kmem_twice.
Qed.

(** fork() when it succeeds. *)
Lemma fork_success_run :
  let m3 := store64 (memmove (kmem_mem k2) tf (p_trapframe q) sizeof_trapframe) (tf + tf_a0) 0 in
  p_cwd q = Some c -> length (p_ofile q) = NOFILE -> p_ofile (nth_proc np (k_p s)) = replicate NOFILE None ->
  sharable (p_ofile q) (k_files s) ->
  uvmcopy kend (p_pagetable q) root (p_sz q) e2 k = Ok 0 e2 k2 ->
  fork e s = Ok pid e (kst s (upd_proc np (child_of q (e_me e) pid tf root (ticks (k_p s))) (set_kmem (mkKmem (freelist k2) m3) s0))
    (alter (fun x => set_ref (i32 (i_ref x + 1)) x) c (fs_inodes (k_fs s))) (shared (p_ofile q) (k_files s))).
Proof using He Hne Hnp Halloc.
  intros m3 Hcwd Hlen Hno Hsh Hc. fork_begin Hc Halloc. cbn [Z.ltb Z.compare].
  do 4 fork_step. rewrite bind_eq. erewrite kmm_run by done. kred. rewrite bind_eq, tf_write_run. kred.
  rewrite nth_set_kmem, nth_upd_same by done.
  match goal with |- bind _ _ _ (kst _ ?X _ _) = _ =>
    change X with (upd_proc np (fun x => set_run_time 0 (set_sz (p_sz q) (born x))) (set_kmem (mkKmem (freelist k2) m3) s0)) end.
  set (s3 := set_kmem (mkKmem (freelist k2) m3) s0). assert (Hn3 : (np < length (procs s3))%nat) by exact Hnp.
  assert (Hq : forall f, nth_proc (e_me e) (upd_proc np f s3) = q) by (intros f; by rewrite nth_upd_other).
  assert (Hh : forall lk, lk <> LkProc np -> lk ∉ e_held e2).
  { intros lk Hlk. unfold e2. cbn [e_held set_held]. rewrite He. by intros [?|?%elem_of_nil]%elem_of_cons. }
  rewrite bind_eq, <- Hlen at 1. rewrite (fork_files_run (p_ofile q) []);
    [|done|by rewrite length_upd_proc|by apply Hh|by rewrite Hq|rewrite nth_upd_same, Hlen by done; exact Hno|done].
  kred. rewrite upd_proc_twice, bind_eq, kp_getp, Hq, Hcwd. kred. unfold deref. rewrite bind_eq. kred.
  rewrite bind_eq, idup_run by (by apply Hh). kred. fork_step. rewrite bind_eq, kp_getp, Hq. kred. fork_step.
  rewrite bind_eq, kp_getp, nth_upd_same by done. kred. rewrite bind_eq. unfold e2. rewrite release_eq. kred.
  rewrite bind_eq, acquire_eq by (by rewrite He; apply not_elem_of_nil). kred. fork_step. rewrite bind_eq, release_eq. kred.
  rewrite bind_eq, acquire_eq by (by rewrite He; apply not_elem_of_nil). kred. fork_step. rewrite bind_eq, release_eq. kred.
  unfold child_of. rewrite Hcwd. reflexivity.
Qed.
End run.

(** A process that may call fork(): it runs with [l] free and [np] as the first
    free slot of the table; its memory, trapframe, open files and directory [c]
    are in order. *)
Record forkable (e : env) (s : kstate) (l : list Z) (To : gmap Z (nat * Z)) (np c : nat) : Prop := {
  fb_held : e_held e = [];
  fb_len : length (procs (k_p s)) = NPROC;
  fb_slot : (np < NPROC)%nat;
  fb_vacant : vacant (nth_proc np (k_p s)) /\ p_ofile (nth_proc np (k_p s)) = replicate NOFILE None;
  fb_first : forall j, (j < np)%nat -> p_state (nth_proc j (k_p s)) <> UNUSED;
  fb_me : p_state (nth_proc (e_me e) (k_p s)) <> UNUSED;
  fb_kmem : kmem_inv kend (ps_kmem (k_p s)) l;
  fb_size : 0 <= p_sz (nth_proc (e_me e) (k_p s)) <= TRAPFRAME;
  fb_parent : parent_ok (kmem_mem (ps_kmem (k_p s))) l ∅ To (p_pagetable (nth_proc (e_me e) (k_p s)))
                (PGROUNDUP (p_sz (nth_proc (e_me e) (k_p s))));
  fb_trapframe : pg_aligned (p_trapframe (nth_proc (e_me e) (k_p s))) /\ p_trapframe (nth_proc (e_me e) (k_p s)) ∉ l;
  fb_files : length (p_ofile (nth_proc (e_me e) (k_p s))) = NOFILE /\ sharable (p_ofile (nth_proc (e_me e) (k_p s))) (k_files s);
  fb_cwd : p_cwd (nth_proc (e_me e) (k_p s)) = Some c /\
           exists x, fs_inodes (k_fs s) !! c = Some x /\ 0 <= i_ref x /\ i_ref x + 1 < 2 ^ 31;
  fb_name : length (p_name (nth_proc np (k_p s))) = 16%nat /\ length (p_name (nth_proc (e_me e) (k_p s))) = 16%nat /\
            0 ∈ p_name (nth_proc (e_me e) (k_p s))
}.

(** fork() from a slot that allocproc() has set up. *)
Lemma fork_from e s l1 To np c tf root l' T k :
  let q := nth_proc (e_me e) (k_p s) in
  let pid := nextpid (k_p s) in
  let s0 := set_nextpid (i32 (pid + 1)) (k_p s) in
  let m := kmem_mem (ps_kmem (k_p s)) in
  let e2 := set_held (LkProc np :: e_held e) e in
  forkable e s (tf :: l1) To np c -> same_off (fun p => p ∈ tf :: l1) m (kmem_mem k) -> new_space k l' T root tf l1 ->
  allocproc e (k_p s) = Ok (Some np) e2 (upd_proc np (newborn pid tf root (ticks (k_p s))) (set_kmem k s0)) ->
  (exists k3 l3, fork e s = Ok (-1) e (kst s (upd_proc np (fun x => cleared (newborn pid tf root (ticks (k_p s)) x)) (set_kmem k3 s0))
      (fs_inodes (k_fs s)) (k_files s)) /\ kmem_inv kend k3 l3 /\ l3 ≡ₚ tf :: l1 /\ same_off (fun p => p ∈ tf :: l1) m (kmem_mem k3)) \/
  (exists k3 l3 T3, fork e s = Ok pid e (kst s (upd_proc np (child_of q (e_me e) pid tf root (ticks (k_p s))) (set_kmem k3 s0))
      (alter (fun x => set_ref (i_ref x + 1) x) c (fs_inodes (k_fs s))) (shared (p_ofile q) (k_files s))) /\
    forked m (tf :: l1) (p_pagetable q) (p_trapframe q) (p_sz q) k3 l3 T3 root tf).
Proof using Hkend Htramp.
  intros q pid s0 m e2 Hfb Hoff Hns Halloc. pose proof Hfb as [He Hlen Hnp [Hvac Hof] _ Hme [_ Hnd Hok] Hsz Hpar [Hta Htl] [Hfl Hsh] [Hcwd Hino] _].
  fold q in Hme, Hsz, Hpar, Hta, Htl, Hfl, Hsh, Hcwd.
  assert (Hne : e_me e <> np) by (intros E; apply Hme; unfold q; rewrite E; apply Hvac).
  assert (Hn : (np < length (procs (k_p s)))%nat) by lia. pose proof (round_size _ Hsz) as [Hr Hra].
  assert (HT : TRAPFRAME = 274877898752) by done. assert (HM : MAXVA = 274877906944) by done.
  assert (Hk : LkKmem ∉ e_held e2) by (unfold e2; cbn [e_held set_held]; rewrite He; by intros [?|?%elem_of_nil]%elem_of_cons).
  destruct (uvmcopy_run kend k l' T To (p_pagetable q) root (PGROUNDUP (p_sz q)) Hkend) with (sz := p_sz q) (e := e2)
    as (r & k2 & l2 & T2 & Hrun & Hres); [apply Hns|apply Hns|split; [done|lia]|by eapply copy_parent| |done|lia|done|].
  { intros x Hx. apply (ns_user _ _ _ _ _ _ _ _ Hns). lia. }
  destruct Hres as [(-> & ps & Hfill & Hps)|[-> Hsb]]; [right|left].
  - eexists _, l2, T2. split; [|eapply fork_copied; try done].
    rewrite (fork_success_run e s np tf root k k2 c He Hne Hn Halloc Hcwd Hfl Hof Hsh Hrun). do 2 f_equal.
    apply list_eq. intros i. rewrite !list_lookup_alter. case_decide as Hd; [|done]. subst i. destruct Hino as (x & -> & H1 & H2).
    cbn. by rewrite i32_small by lia.
  - set (s2 := upd_proc np (newborn pid tf root (ticks (k_p s))) (set_kmem k2 s0)).
    assert (Hn2 : nth_proc np s2 = newborn pid tf root (ticks (k_p s)) (nth_proc np (k_p s)))
      by (unfold s2; rewrite nth_upd_same by exact Hn; done).
    apply NoDup_cons in Hnd as Hnd'. apply Forall_cons in Hok as Hok'.
    destruct (fork_undone np e2 s2 l' T root tf l1 k l2 T2) as (k3 & l3 & Hf & Hk3 & Hp3 & Ho3); try done;
      [by unfold s2; rewrite length_upd_proc|by rewrite Hn2|by rewrite Hn2|rewrite Hn2; apply Hvac|apply Hok'|apply Hnd'|].
    exists k3, l3. split; [by eapply fork_fail_run|]. split; [done|]. split; [done|].
    eapply same_off_mono; [|eapply same_off_trans; [exact Hoff|eapply same_off_trans; [apply Hsb|exact Ho3]]].
    cbn beta. intros p [Hp|[Hp|Hp]]; [done| |done]. right. by eapply new_space_in.
Qed.

(** C16: fork() makes a copy of the calling process, or returns -1 and leaves
    only a process id used up.
    On success the caller gets the new process id.  The slot of the child has
    the caller's size, open files and directory, the caller as parent and a name
    that reads the same; it is runnable, with a page table, a trapframe and
    memory pages of its own that were free before.  The child reads what the
    parent reads, with the same permissions, and its registers are the parent's
    but for a0, which is 0.  Every open file has a reference more for each of
    the caller's descriptors and the directory has one more; what the child
    owns is what freeproc() needs to give it back.  On failure the files and
    the directory are unchanged, the slot is free again and so is every page.
    In both cases memory outside the free pages is unchanged and no lock is
    held. *)
Theorem fork_correct e s l To np c :
  let q := nth_proc (e_me e) (k_p s) in
  let pid := nextpid (k_p s) in
  let s0 := set_nextpid (i32 (pid + 1)) (k_p s) in
  let m := kmem_mem (ps_kmem (k_p s)) in
  forkable e s l To np c ->
  (exists k l' f, fork e s = Ok (-1) e (kst s (upd_proc np f (set_kmem k s0)) (fs_inodes (k_fs s)) (k_files s)) /\
     vacant (f (nth_proc np (k_p s))) /\ kmem_inv kend k l' /\ l' ≡ₚ l /\ same_off (fun p => p ∈ l) m (kmem_mem k)) \/
  (exists k l' T root tf,
     let child := child_of q (e_me e) pid tf root (ticks (k_p s)) (nth_proc np (k_p s)) in
     fork e s = Ok pid e (kst s (upd_proc np (fun _ => child) (set_kmem k s0))
       (alter (fun x => set_ref (i_ref x + 1) x) c (fs_inodes (k_fs s))) (shared (p_ofile q) (k_files s))) /\
     forked m l (p_pagetable q) (p_trapframe q) (p_sz q) k l' T root tf /\
     until_nul (p_name child) = until_nul (p_name q)).
Proof using Hkend Htramp.
  intros q pid s0 m Hfb. pose proof Hfb as [He Hlen Hnp [Hvac _] Hfirst _ Hk _ _ _ _ _ (Hn1 & Hn2 & Hn0)].
  destruct (allocproc_spec kend Hkend trampoline Htramp forkret_addr np e (k_p s) l He Hlen Hnp Hvac Hfirst Hk)
    as (k & Hoff & [(l' & E & Hk' & Hp)|(tf & l1 & root & l' & T & -> & E & Hns)]).
  - left. exists k, l', cleared. split; [|done]. unfold fork. rewrite bind_eq. kred. rewrite <- (kst_id s) at 1.
    by rewrite bind_eq, (kp_ok _ _ _ _ _ _ _ _ _ E).
  - destruct (fork_from e s l1 To np c tf root l' T k Hfb Hoff Hns E) as [(k3 & l3 & Hf & Hr)|(k3 & l3 & T3 & Hf & Hr)].
    + left. eexists k3, l3, _. by split; [exact Hf|].
    + right. exists k3, l3, T3, root, tf. split; [|split; [done|by apply name_copied]].
      rewrite Hf, upd_proc_const by (cbn [procs set_kmem set_nextpid]; lia). reflexivity.
Qed.
End fork.

(** ** Witness: a process of one page with two descriptors of one file *)

Definition demo_pages : list Z := (fun i => 0x80080000 + i * PGSIZE) <$> seqZ 0 8.
Definition demo_forker_mem : mem :=
  foldr (fun x m => store64 m x (x + PGSIZE)) (kmem_mem demo_user) (take 7 demo_pages).
Definition demo_forker : proc :=
  mkProc RUNNING None 0 0 1 None 0 100 demo_root 0x80090000 (mkContext 0 0 [])
    ([Some 0%nat; Some 0%nat] ++ replicate 14 None) (Some 0%nat) ([115; 104] ++ replicate 14 0) 0 0 0 0 0.
Definition demo_fork_state : kstate :=
  mkKstate
    (mkFsstate (mkPstate (demo_forker :: replicate 63 proc0) 8 None [] 0 SCHED_FCFS [] (mkKmem 0x80080000 demo_forker_mem))
       (mkLstate (mkBstate [] (mkDisk ∅ [])) log0) (mkSuperblock 0 0 0 0 0 0 0 0) [set_ref 1 inode0])
    [mkFile FD_DEVICE 2 true true 0 (Some 0%nat) 0 1] ∅
    (mkConsdev (mkUart [] 0 0 false [] [] []) [] 0 0 0 0) (mkMisc [] 0 0 [] false 0).

Lemma demo_forker_same : same_off (fun p => p ∈ demo_pages) (kmem_mem demo_user) demo_forker_mem.
Proof.
  assert (H : forall ps m, (forall p, p ∈ ps -> p ∈ demo_pages) ->
    same_off (fun p => p ∈ demo_pages) m (foldr (fun x m => store64 m x (x + PGSIZE)) m ps)).
  { intros ps m. induction ps as [|p ps IH]; intros Hin x Hx; [done|]. cbn [foldr]. pose proof (Hx p (Hin p ltac:(by left))).
    rewrite mget_store64_ne by (unfold PGSIZE in *; lia). apply IH; [|done]. intros q Hq. apply Hin. by right. }
  apply H. intros p Hp. rewrite <- (take_drop 7 demo_pages). apply elem_of_app. by left.
Qed.

Lemma demo_forker_kmem : kmem_inv demo_end (mkKmem 0x80080000 demo_forker_mem) demo_pages.
Proof.
  assert (E : demo_pages = [0x80080000; 0x80081000; 0x80082000; 0x80083000; 0x80084000; 0x80085000; 0x80086000; 0x80087000])
    by by vm_compute.
  split.
  - rewrite E. cbn [freelist kmem_mem]. do 8 (constructor; [done|]; vm_compute load64). constructor.
  - apply (bool_decide_unpack (NoDup demo_pages)). by vm_compute.
  - rewrite E. repeat (apply Forall_cons; split); try apply Forall_nil; vm_compute; repeat split; congruence.
Qed.

Lemma demo_forker_parent : parent_ok demo_end demo_forker_mem demo_pages ∅ demo_user_tables demo_root PGSIZE.
Proof.
  pose proof (inv_pages _ _ _ demo_forker_kmem) as Hok. rewrite Forall_forall in Hok.
  assert (HT : forall p, is_Some (demo_user_tables !! p) -> p ∉ demo_pages).
  { intros p [lab Hp]. unfold demo_user_tables, demo_tables in Hp. rewrite !lookup_insert, lookup_singleton in Hp.
    repeat case_decide; simplify_eq; apply (bool_decide_unpack (_ ∉ demo_pages)); by vm_compute. }
  destruct (pt_frame _ demo_forker_mem demo_user_tables (fun p => p ∈ demo_pages) demo_user_wf demo_forker_same) as [Hwf Hpte].
  { intros p Hp. split; [by apply Hok|]. destruct (demo_user_tables !! p) eqn:Ep; [|done]. by destruct (HT p); [eexists|]. }
  assert (Hx : forall x, 0 <= x < PGSIZE -> pte_of demo_forker_mem demo_root x = 0x20018017).
  { intros x Hx. destruct (Hpte 2%nat demo_root 0 x eq_refl) as [_ Hp]. unfold pte_of. rewrite Hp.
    fold (pte_of (kmem_mem demo_user) demo_root x). change MAXVA with 274877906944. unfold PGSIZE in *.
    rewrite demo_user_pte, decide_True by (unfold PGSIZE; change MAXVA with 274877906944; lia). by vm_compute. }
  split; [done|done| | |].
  - intros p Hp. by split; [apply HT|].
  - intros x Hxr. rewrite Hx by done. split; [by vm_compute|]. intros H. by vm_compute in H.
  - intros x Hxr. rewrite Hx by done. replace (PTE2PA 0x20018017) with 0x80060000 by by vm_compute. cbn zeta.
    split; [vm_compute; repeat split; congruence|]. split; [apply (bool_decide_unpack (_ ∉ demo_pages)); by vm_compute|done].
Qed.

Lemma demo_forkable : forkable demo_end demo_env demo_fork_state demo_pages demo_user_tables 1 0.
Proof.
  assert (Hn : (1 < NPROC)%nat) by (apply Nat.ltb_lt; by vm_compute).
  split; [done|by vm_compute|exact Hn|done| |done|exact demo_forker_kmem|by vm_compute|exact demo_forker_parent| | | |].
  - intros [|j] Hj; [done|lia].
  - split; [by vm_compute|]. apply (bool_decide_unpack (_ ∉ demo_pages)). by vm_compute.
  - split; [by vm_compute|]. intros f Hf. assert (f = 0%nat) as ->.
    { cbn in Hf. rewrite !elem_of_cons in Hf. destruct Hf as [[=]|[[=]|Hf]]; [done|done|].
      rewrite elem_of_nil in Hf. naive_solver. }
    eexists. split; [done|]. by vm_compute.
  - split; [done|]. eexists. split; [done|]. by vm_compute.
  - split; [done|]. split; [done|]. apply (bool_decide_unpack (0 ∈ p_name demo_forker)). by vm_compute.
Qed.

Lemma demo_fork_runs s' : fork demo_end 0x80007000 0x80001000 demo_env demo_fork_state <> Ok (-1) demo_env s'.
Proof.
  intros E.
  assert (Hr : match fork demo_end 0x80007000 0x80001000 demo_env demo_fork_state with Ok r _ _ => r =? 8 | _ => false end = true)
    by (vm_compute; reflexivity).
  rewrite E in Hr. discriminate Hr.
Qed.

Lemma fork_correct_witness :
  exists s' root, fork demo_end 0x80007000 0x80001000 demo_env demo_fork_state = Ok 8 demo_env s' /\
    p_state (nth_proc 1 (k_p s')) = RUNNABLE /\ p_pagetable (nth_proc 1 (k_p s')) = root /\
    (f_ref <$> k_files s') = [4] /\ (i_ref <$> fs_inodes (k_fs s')) = [2] /\
    uread (kmem_mem (ps_kmem (k_p s'))) root 0 100 = uread demo_forker_mem demo_root 0 100.
Proof.
  assert (Htr : pa_page_ok 0x80007000 /\ 0x80007000 + PGSIZE <= 2 ^ 56) by by vm_compute.
  pose proof (fork_correct demo_end ltac:(by vm_compute) 0x80007000 Htr 0x80001000 demo_env demo_fork_state
    demo_pages demo_user_tables 1 0 demo_forkable) as H. cbv zeta in H.
  destruct H as [(k & l' & f & E & _)|(k & l' & T & root & tf & E & Hf & _)].
  { exfalso. revert E. apply demo_fork_runs. }
  eexists _, root. split; [exact E|]. split; [reflexivity|]. split; [reflexivity|]. split; [reflexivity|]. split; [reflexivity|].
  apply (fk_child _ _ _ _ _ _ _ _ _ _ _ Hf); [lia|]. clear. by vm_compute.
Defined.
