(* ===== verification/Exec.v ===== *)
(** * kernel/exec.c: replacing the image of a process

    [elf] and [ph] are the bytes of the headers as read from the file; their
    fields are taken at the offsets of elf.h.  argv[] is the list of the
    kernel pages that hold the argument strings, 0 marking its end. *)

From S2P Require Import Prelude KMonad CString Sleeplock Bio Log Riscv Kalloc Vm Proc Fs Pipe.
From S2P Require Import Uart Console File Fork.
Open Scope kmonad_scope.

Definition ELF_MAGIC : Z := 0x464C457F.
Definition ELF_PROG_LOAD : Z := 1.
Definition MAXARG : Z := 32.
Definition USERSTACK : Z := 1.
Definition sizeof_elfhdr : Z := 64.
Definition sizeof_proghdr : Z := 56.

Definition get_u64 (data : list Z) (off : Z) : Z := le_val (take 8 (drop (Z.to_nat off) data)).

(** struct elfhdr and struct proghdr. *)
Definition eh_magic (elf : list Z) : Z := get_u32 elf 0.
Definition eh_entry (elf : list Z) : Z := get_u64 elf 24.
Definition eh_phoff (elf : list Z) : Z := get_u64 elf 32.
Definition eh_phnum (elf : list Z) : Z := get_u16 elf 56.
Definition ph_type (ph : list Z) : Z := get_u32 ph 0.
Definition ph_flags (ph : list Z) : Z := get_u32 ph 4.
Definition ph_off (ph : list Z) : Z := get_u64 ph 8.
Definition ph_vaddr (ph : list Z) : Z := get_u64 ph 16.
Definition ph_filesz (ph : list Z) : Z := get_u64 ph 32.
Definition ph_memsz (ph : list Z) : Z := get_u64 ph 40.

Definition flags2perm (flags : Z) : Z :=
  let perm := if flag flags 1 then PTE_X else 0 in
  if flag flags 2 then Z.lor perm PTE_W else perm.

Section exec.
Variables kend trampoline : Z.

Fixpoint loadseg_loop (fuel : nat) (pagetable va : Z) (ip : nat) (offset sz i : Z) : K kstate Z :=
  if i <? sz then
    match fuel with
    | O => out_of_fuel
    | S fuel =>
        pa <- kp (kmm (walkaddr pagetable (u64 (va + i)))) ;;
        if pa =? 0 then panic "loadseg: address should exist"
        else
          let n := if sz - i <? PGSIZE then sz - i else PGSIZE in
          r <- kfs (readi ip (Kern pa) (u32 (offset + i)) n) ;;
          if negb (r.1 =? n) then ret (-1)
          else loadseg_loop fuel pagetable va ip offset sz (u32 (i + PGSIZE))
    end
  else ret 0.

Definition loadseg (pagetable va : Z) (ip : nat) (offset sz : Z) : K kstate Z :=
  loadseg_loop (Z.to_nat (sz / PGSIZE + 1)) pagetable va ip offset sz 0.

(** The loop over the program headers, [k] left.  The first component of the
    result is false when it ended at goto bad; the second is sz. *)
Fixpoint exec_load (k : nat) (ip : nat) (pagetable off sz : Z) : K kstate (bool * Z) :=
  match k with
  | O => ret (true, sz)
  | S k =>
      r <- kfs (readi ip (Local []) (u32 off) sizeof_proghdr) ;;
      let ph := r.2 in
      if negb (r.1 =? sizeof_proghdr) then ret (false, sz)
      else if negb (ph_type ph =? ELF_PROG_LOAD) then
        exec_load k ip pagetable (i32 (off + sizeof_proghdr)) sz
      else if ph_memsz ph <? ph_filesz ph then ret (false, sz)
      else if u64 (ph_vaddr ph + ph_memsz ph) <? ph_vaddr ph then ret (false, sz)
      else if negb (ph_vaddr ph mod PGSIZE =? 0) then ret (false, sz)
      else
        sz1 <- kp (kmm (uvmalloc kend pagetable sz (u64 (ph_vaddr ph + ph_memsz ph))
                          (flags2perm (ph_flags ph)))) ;;
        if sz1 =? 0 then ret (false, sz)
        else
          l <- loadseg pagetable (ph_vaddr ph) ip (u32 (ph_off ph)) (u32 (ph_filesz ph)) ;;
          if l <? 0 then ret (false, sz1)
          else exec_load k ip pagetable (i32 (off + sizeof_proghdr)) sz1
  end.

(** strlen() of a kernel string; a string of a page has at most PGSIZE bytes. *)
Definition kstrlen (a : Z) : K pstate Z :=
  r <- kmm (gets (fun s => strlen (kmem_mem s) a (Z.to_nat PGSIZE))) ;;
  match r with
  | Some n => ret n
  | None => out_of_fuel
  end.

(** The loop that pushes the argument strings: ustack (the pointers pushed so
    far, in order) and sp; None at goto bad. *)
Fixpoint exec_args (argv : list Z) (pagetable sp stackbase : Z) (ustack : list Z)
    : K pstate (option (list Z * Z)) :=
  match argv with
  | [] => panic "undefined: argv"
  | a :: argv =>
      if a =? 0 then ret (Some (ustack, sp))
      else if MAXARG <=? Z.of_nat (length ustack) then ret None
      else
        n <- kstrlen a ;;
        let sp := u64 (sp - (n + 1)) in
        let sp := sp - sp mod 16 in
        if sp <? stackbase then ret None
        else
          n <- kstrlen a ;;
          bs <- kmm (gets (fun s => mread (kmem_mem s) a (Z.to_nat (n + 1)))) ;;
          r <- kmm (copyout pagetable sp bs) ;;
          if r <? 0 then ret None
          else exec_args argv pagetable sp stackbase (ustack ++ [sp])
  end.

(** ustack[argc] = 0; an index of MAXARG is outside the array. *)
Definition ustack_bytes (ustack : list Z) : list Z := mjoin (map (le_bytes 8) (ustack ++ [0])).

(** The path after its last slash. *)
Fixpoint last_elem (s last : list Z) : list Z :=
  match s with
  | [] => last
  | c :: s => last_elem s (if c =? slash then s else last)
  end.

(** The label bad: [ip] is Some while the inode is locked. *)
Definition exec_bad (pagetable sz : Z) (ip : option nat) : K kstate Z :=
  (when negb (pagetable =? 0) do kp (proc_freepagetable kend pagetable sz)) ;;;
  match ip with
  | Some ip => kfs (iunlockput ip) ;;; klogop end_op
  | None => ret tt
  end ;;;
  ret (-1).

(** From p = myproc() on: the new image is complete but for its stack. *)
Definition exec_stack (path argv elf : list Z) (pagetable sz0 : Z) : K kstate Z :=
  p <- asks e_me ;;
  oldsz <- kp (getp p p_sz) ;;
  let sz := PGROUNDUP sz0 in
  sz1 <- kp (kmm (uvmalloc kend pagetable sz (u64 (sz + (USERSTACK + 1) * PGSIZE)) PTE_W)) ;;
  if sz1 =? 0 then exec_bad pagetable sz None
  else
    let sz := sz1 in
    kp (kmm (uvmclear pagetable (u64 (sz - (USERSTACK + 1) * PGSIZE)))) ;;;
    let stackbase := u64 (sz - USERSTACK * PGSIZE) in
    a <- kp (exec_args argv pagetable sz stackbase []) ;;
    match a with
    | None => exec_bad pagetable sz None
    | Some (ustack, sp) =>
        let argc := Z.of_nat (length ustack) in
        if MAXARG <=? argc then panic "undefined: ustack"
        else
          let sp := u64 (sp - (argc + 1) * 8) in
          let sp := sp - sp mod 16 in
          if sp <? stackbase then exec_bad pagetable sz None
          else
            r <- kp (kmm (copyout pagetable sp (ustack_bytes ustack))) ;;
            if r <? 0 then exec_bad pagetable sz None
            else
              kp (tf_write p tf_a1 sp) ;;;
              kp (modp p (fun x => set_name (strcpy_into (p_name x) (last_elem path path ++ [0]) 16) x)) ;;;
              oldpagetable <- kp (getp p p_pagetable) ;;
              kp (modp p (set_pagetable pagetable)) ;;;
              kp (modp p (set_sz sz)) ;;;
              kp (tf_write p tf_epc (eh_entry elf)) ;;;
              kp (tf_write p tf_sp sp) ;;;
              kp (proc_freepagetable kend oldpagetable oldsz) ;;;
              ret argc
    end.

Definition exec (path argv : list Z) : K kstate Z :=
  p <- asks e_me ;;
  klogop begin_op ;;;
  r <- kfs (namei path) ;;
  match r with
  | None => klogop end_op ;;; ret (-1)
  | Some ip =>
      kfs (ilock (Some ip)) ;;;
      h <- kfs (readi ip (Local []) 0 sizeof_elfhdr) ;;
      let elf := h.2 in
      if negb (h.1 =? sizeof_elfhdr) then exec_bad 0 0 (Some ip)
      else if negb (eh_magic elf =? ELF_MAGIC) then exec_bad 0 0 (Some ip)
      else
        pagetable <- kp (proc_pagetable kend trampoline p) ;;
        if pagetable =? 0 then exec_bad 0 0 (Some ip)
        else
          l <- exec_load (Z.to_nat (eh_phnum elf)) ip pagetable (i32 (eh_phoff elf)) 0 ;;
          if negb l.1 then exec_bad pagetable l.2 (Some ip)
          else
            kfs (iunlockput ip) ;;;
            klogop end_op ;;;
            exec_stack path argv elf pagetable l.2
  end.
End exec.
