(* ===== verification/Syscall.v ===== *)
(** * kernel/syscall.c: fetching the arguments of system calls

    A buffer on the kernel stack that receives a string is given by the bytes
    written to it, which the routine returns with its result. *)

From S2P Require Import Prelude KMonad CString Riscv Kalloc Vm Proc.
Open Scope kmonad_scope.

Definition MAXPATH : Z := 128.

(** The 64-bit word at a user address. *)
Definition fetchaddr (addr : Z) : K pstate (Z * Z) :=
  p <- asks e_me ;;
  sz <- getp p p_sz ;;
  if (sz <=? addr) || (sz <? u64 (addr + 8)) then ret (-1, 0)
  else
    pt <- getp p p_pagetable ;;
    r <- kmm (copyin pt addr 8) ;;
    if negb (r.1 =? 0) then ret (-1, 0) else ret (0, le_val r.2).

(** copyinstr() puts a NUL before max when it succeeds: strlen(buf) is the
    number of bytes before it. *)
Definition fetchstr (addr max : Z) : K pstate (Z * list Z) :=
  p <- asks e_me ;;
  pt <- getp p p_pagetable ;;
  r <- kmm (copyinstr pt addr max) ;;
  if r.1 <? 0 then ret (-1, r.2)
  else ret (Z.of_nat (length (until_nul r.2)), r.2).

(** a0 .. a5 are adjacent in the trapframe. *)
Definition argraw (n : Z) : K pstate Z :=
  p <- asks e_me ;;
  if (0 <=? n) && (n <=? 5) then
    tf <- getp p p_trapframe ;;
    kmm (read64 (tf + tf_a0 + 8 * n))
  else panic "argraw".

Definition argint (n : Z) : K pstate Z := v <- argraw n ;; ret (i32 v).

Definition argaddr (n : Z) : K pstate Z := argraw n.

Definition argstr (n max : Z) : K pstate (Z * list Z) :=
  addr <- argaddr n ;; fetchstr addr max.
