(* ===== verification/Sysfile.v ===== *)
(** * kernel/sysfile.c: the system calls on files

    Path names are the characters before the NUL of the local buffer they
    were copied to.  Bytes of stack variables that the code copies out or
    reuses before assigning them are arguments ([junk]). *)

From S2P Require Import Prelude KMonad CString Sleeplock Bio Log Riscv Kalloc Vm Proc Fs Pipe.
From S2P Require Import Uart Console File Fork Exec Syscall.
Open Scope kmonad_scope.

Definition O_RDONLY : Z := 0.
Definition O_WRONLY : Z := 1.
Definition O_RDWR : Z := 2.
Definition O_CREATE : Z := 0x200.
Definition O_TRUNC : Z := 0x400.

Section sysfile.
Variables kend trampoline : Z.

(** The descriptor and the file, None for the error return. *)
Definition argfd (n : Z) : K kstate (option (nat * nat)) :=
  fd <- kp (argint n) ;;
  me <- asks e_me ;;
  o <- kp (getp me p_ofile) ;;
  if (fd <? 0) || (Z.of_nat NOFILE <=? fd) then ret None
  else
    match o !! Z.to_nat fd with
    | Some (Some f) => ret (Some (Z.to_nat fd, f))
    | _ => ret None
    end.

Fixpoint fdalloc_loop (n fd p f : nat) : K kstate (option nat) :=
  match n with
  | O => ret None
  | S n =>
      o <- kp (getp p p_ofile) ;;
      match o !! fd with
      | Some None =>
          kp (modp p (fun x => set_ofile (<[fd := Some f]> (p_ofile x)) x)) ;;;
          ret (Some fd)
      | _ => fdalloc_loop n (S fd) p f
      end
  end.

Definition fdalloc (f : nat) : K kstate (option nat) :=
  p <- asks e_me ;;
  fdalloc_loop NOFILE 0 p f.

Definition clear_fd (fd : nat) : K kstate unit :=
  p <- asks e_me ;;
  kp (modp p (fun x => set_ofile (<[fd := None]> (p_ofile x)) x)).

Definition sys_dup : K kstate Z :=
  r <- argfd 0 ;;
  match r with
  | None => ret (-1)
  | Some (_, f) =>
      fd <- fdalloc f ;;
      match fd with
      | None => ret (-1)
      | Some fd => filedup f ;;; ret (Z.of_nat fd)
      end
  end.

Definition sys_read : K kstate Z :=
  p <- kp (argaddr 1) ;;
  n <- kp (argint 2) ;;
  r <- argfd 0 ;;
  match r with
  | None => ret (-1)
  | Some (_, f) => fileread f p n
  end.

Definition sys_write : K kstate Z :=
  p <- kp (argaddr 1) ;;
  n <- kp (argint 2) ;;
  r <- argfd 0 ;;
  match r with
  | None => ret (-1)
  | Some (_, f) => filewrite f p n
  end.

Definition sys_close : K kstate Z :=
  r <- argfd 0 ;;
  match r with
  | None => ret (-1)
  | Some (fd, f) =>
      clear_fd fd ;;;
      fileclose kend f ;;;
      ret 0
  end.

Definition sys_fstat (junk : list Z) : K kstate Z :=
  st <- kp (argaddr 1) ;;
  r <- argfd 0 ;;
  match r with
  | None => ret (-1)
  | Some (_, f) => filestat f st (take 4 junk)
  end.

(** Two argument strings, None for the error return. *)
Definition argpath (n : Z) : K kstate (option (list Z)) :=
  r <- kp (argstr n MAXPATH) ;;
  ret (if r.1 <? 0 then None else Some (until_nul r.2)).

Definition fs_end {A} (a : A) : K kstate A := klogop end_op ;;; ret a.

(** The label bad of sys_link. *)
Definition link_bad (ip : nat) : K kstate Z :=
  kfs (ilock (Some ip)) ;;;
  kfs (modi ip (fun x => set_nlink (i16 (i_nlink x - 1)) x)) ;;;
  kfs (iupdate ip) ;;;
  kfs (iunlockput ip) ;;;
  fs_end (-1).

Definition sys_link (junk : list Z) : K kstate Z :=
  old <- argpath 0 ;;
  match old with
  | None => ret (-1)
  | Some old =>
      new <- argpath 1 ;;
      match new with
      | None => ret (-1)
      | Some new =>
          klogop begin_op ;;;
          r <- kfs (namei old) ;;
          match r with
          | None => fs_end (-1)
          | Some ip =>
              kfs (ilock (Some ip)) ;;;
              t <- kfs (geti ip i_type) ;;
              if t =? T_DIR then kfs (iunlockput ip) ;;; fs_end (-1)
              else
                kfs (modi ip (fun x => set_nlink (i16 (i_nlink x + 1)) x)) ;;;
                kfs (iupdate ip) ;;;
                kfs (iunlock (Some ip)) ;;;
                d <- kfs (nameiparent new (take 14 junk)) ;;
                match d with
                | (None, _) => link_bad ip
                | (Some dp, name) =>
                    kfs (ilock (Some dp)) ;;;
                    ddev <- kfs (geti dp i_dev) ;;
                    idev <- kfs (geti ip i_dev) ;;
                    inum <- kfs (geti ip i_inum) ;;
                    l <- (if negb (ddev =? idev) then ret (-1)
                          else kfs (dirlink dp name inum (take 16 junk))) ;;
                    if l <? 0 then kfs (iunlockput dp) ;;; link_bad ip
                    else
                      kfs (iunlockput dp) ;;;
                      kfs (iput ip) ;;;
                      fs_end 0
                end
          end
      end
  end.

Fixpoint isdirempty_loop (fuel : nat) (dp : nat) (off : Z) : K fsstate bool :=
  size <- geti dp i_size ;;
  if off <? size then
    match fuel with
    | O => out_of_fuel
    | S fuel =>
        r <- readi dp (Local []) off sizeof_dirent ;;
        if negb (r.1 =? sizeof_dirent) then panic "isdirempty: readi"
        else if negb (de_inum r.2 =? 0) then ret false
        else isdirempty_loop fuel dp (off + sizeof_dirent)
    end
  else ret true.

Definition isdirempty (dp : nat) : K fsstate bool :=
  size <- geti dp i_size ;;
  isdirempty_loop (Z.to_nat (size / sizeof_dirent + 1)) dp (2 * sizeof_dirent).

(** The label bad of sys_unlink. *)
Definition unlink_bad (dp : nat) : K kstate Z := kfs (iunlockput dp) ;;; fs_end (-1).

Definition sys_unlink (junk : list Z) : K kstate Z :=
  path <- argpath 0 ;;
  match path with
  | None => ret (-1)
  | Some path =>
      klogop begin_op ;;;
      d <- kfs (nameiparent path (take 14 junk)) ;;
      match d with
      | (None, _) => fs_end (-1)
      | (Some dp, name) =>
          kfs (ilock (Some dp)) ;;;
          if (namecmp name [46; 0] =? 0) || (namecmp name [46; 46; 0] =? 0) then unlink_bad dp
          else
            r <- kfs (dirlookup dp name) ;;
            match r with
            | None => unlink_bad dp
            | Some (ip, off) =>
                kfs (ilock (Some ip)) ;;;
                nl <- kfs (geti ip i_nlink) ;;
                if nl <? 1 then panic "unlink: nlink < 1"
                else
                  t <- kfs (geti ip i_type) ;;
                  empty <- (if t =? T_DIR then kfs (isdirempty ip) else ret true) ;;
                  if negb empty then kfs (iunlockput ip) ;;; unlink_bad dp
                  else
                    w <- kfs (writei dp (Local (replicate 16 0)) off sizeof_dirent) ;;
                    if negb (w =? sizeof_dirent) then panic "unlink: writei"
                    else
                      t <- kfs (geti ip i_type) ;;
                      (when t =? T_DIR do
                         (kfs (modi dp (fun x => set_nlink (i16 (i_nlink x - 1)) x)) ;;;
                          kfs (iupdate dp))) ;;;
                      kfs (iunlockput dp) ;;;
                      kfs (modi ip (fun x => set_nlink (i16 (i_nlink x - 1)) x)) ;;;
                      kfs (iupdate ip) ;;;
                      kfs (iunlockput ip) ;;;
                      fs_end 0
            end
      end
  end.

(** The label fail of create(). *)
Definition create_fail (ip dp : nat) : K fsstate (option nat) :=
  modi ip (set_nlink 0) ;;;
  iupdate ip ;;;
  iunlockput ip ;;;
  iunlockput dp ;;;
  ret None.

Definition create (path : list Z) (type major minor : Z) (junk : list Z) : K fsstate (option nat) :=
  d <- nameiparent path (take 14 junk) ;;
  match d with
  | (None, _) => ret None
  | (Some dp, name) =>
      ilock (Some dp) ;;;
      r <- dirlookup dp name ;;
      match r with
      | Some (ip, _) =>
          iunlockput dp ;;;
          ilock (Some ip) ;;;
          t <- geti ip i_type ;;
          if (type =? T_FILE) && ((t =? T_FILE) || (t =? T_DEVICE)) then ret (Some ip)
          else iunlockput ip ;;; ret None
      | None =>
          dev <- geti dp i_dev ;;
          r <- ialloc dev type ;;
          match r with
          | None => iunlockput dp ;;; ret None
          | Some ip =>
              ilock (Some ip) ;;;
              modi ip (set_major major) ;;;
              modi ip (set_minor minor) ;;;
              modi ip (set_nlink 1) ;;;
              iupdate ip ;;;
              inum <- geti ip i_inum ;;
              dnum <- geti dp i_inum ;;
              l <- (if type =? T_DIR then
                      l <- dirlink ip [46; 0] inum (take 16 junk) ;;
                      if l <? 0 then ret l else dirlink ip [46; 46; 0] dnum (take 16 junk)
                    else ret 0) ;;
              if l <? 0 then create_fail ip dp
              else
                l <- dirlink dp name inum (take 16 junk) ;;
                if l <? 0 then create_fail ip dp
                else
                  (when type =? T_DIR do
                     (modi dp (fun x => set_nlink (i16 (i_nlink x + 1)) x) ;;;
                      iupdate dp)) ;;;
                  iunlockput dp ;;;
                  ret (Some ip)
          end
      end
  end.

(** The inode sys_open works on, locked; None for the error return. *)
Definition open_inode (path : list Z) (omode : Z) (junk : list Z) : K kstate (option nat) :=
  if flag omode O_CREATE then kfs (create path T_FILE 0 0 junk)
  else
    r <- kfs (namei path) ;;
    match r with
    | None => ret None
    | Some ip =>
        kfs (ilock (Some ip)) ;;;
        t <- kfs (geti ip i_type) ;;
        if (t =? T_DIR) && negb (omode =? O_RDONLY) then kfs (iunlockput ip) ;;; ret None
        else ret (Some ip)
    end.

(** A file structure and a descriptor for it, or neither. *)
Definition open_file : K kstate (option (nat * nat)) :=
  f <- filealloc ;;
  match f with
  | None => ret None
  | Some f =>
      fd <- fdalloc f ;;
      match fd with
      | None => fileclose kend f ;;; ret None
      | Some fd => ret (Some (f, fd))
      end
  end.

Definition sys_open (junk : list Z) : K kstate Z :=
  omode <- kp (argint 1) ;;
  path <- argpath 0 ;;
  match path with
  | None => ret (-1)
  | Some path =>
      klogop begin_op ;;;
      r <- open_inode path omode junk ;;
      match r with
      | None => fs_end (-1)
      | Some ip =>
          x <- kfs (geti ip (fun x => x)) ;;
          if (i_type x =? T_DEVICE) && ((i_major x <? 0) || (NDEV <=? i_major x)) then
            kfs (iunlockput ip) ;;; fs_end (-1)
          else
            o <- open_file ;;
            match o with
            | None => kfs (iunlockput ip) ;;; fs_end (-1)
            | Some (f, fd) =>
                (if i_type x =? T_DEVICE then
                   modf f (set_ftype FD_DEVICE) ;;; modf f (set_fmajor (i_major x))
                 else
                   modf f (set_ftype FD_INODE) ;;; modf f (set_off 0)) ;;;
                modf f (set_fip (Some ip)) ;;;
                modf f (set_readable (negb (flag omode O_WRONLY))) ;;;
                modf f (set_writable (flag omode O_WRONLY || flag omode O_RDWR)) ;;;
                (when flag omode O_TRUNC && (i_type x =? T_FILE) do kfs (itrunc ip)) ;;;
                kfs (iunlock (Some ip)) ;;;
                fs_end (Z.of_nat fd)
            end
      end
  end.

(** sys_mkdir and sys_mknod after their arguments have been fetched. *)
Definition make_node (path : option (list Z)) (type major minor : Z) (junk : list Z) : K kstate Z :=
  r <- match path with
       | None => ret None
       | Some path => kfs (create path type major minor junk)
       end ;;
  match r with
  | None => fs_end (-1)
  | Some ip => kfs (iunlockput ip) ;;; fs_end 0
  end.

Definition sys_mkdir (junk : list Z) : K kstate Z :=
  klogop begin_op ;;;
  path <- argpath 0 ;;
  make_node path T_DIR 0 0 junk.

Definition sys_mknod (junk : list Z) : K kstate Z :=
  klogop begin_op ;;;
  major <- kp (argint 1) ;;
  minor <- kp (argint 2) ;;
  path <- argpath 0 ;;
  make_node path T_DEVICE (i16 major) (i16 minor) junk.

Definition sys_chdir : K kstate Z :=
  p <- asks e_me ;;
  klogop begin_op ;;;
  path <- argpath 0 ;;
  r <- match path with
       | None => ret None
       | Some path => kfs (namei path)
       end ;;
  match r with
  | None => fs_end (-1)
  | Some ip =>
      kfs (ilock (Some ip)) ;;;
      t <- kfs (geti ip i_type) ;;
      if negb (t =? T_DIR) then kfs (iunlockput ip) ;;; fs_end (-1)
      else
        kfs (iunlock (Some ip)) ;;;
        cwd <- kp (getp p p_cwd) ;;
        c <- deref cwd ;;
        kfs (iput c) ;;;
        klogop end_op ;;;
        kp (modp p (set_cwd (Some ip))) ;;;
        ret 0
  end.

(** The loop of sys_exec over the user's argv[], [k] entries of the kernel's
    argv[] left: false at goto bad, with the pages allocated so far. *)
Fixpoint exec_argv (k : nat) (uargv i : Z) (argv : list Z) : K pstate (bool * list Z) :=
  match k with
  | O => ret (false, argv)
  | S k =>
      a <- fetchaddr (u64 (uargv + 8 * i)) ;;
      if a.1 <? 0 then ret (false, argv)
      else if a.2 =? 0 then ret (true, argv)
      else
        pg <- kmm kalloc ;;
        if pg =? 0 then ret (false, argv)
        else
          s <- fetchstr a.2 PGSIZE ;;
          kmm (put_bytes pg s.2) ;;;
          if s.1 <? 0 then ret (false, argv ++ [pg])
          else exec_argv k uargv (i + 1) (argv ++ [pg])
  end.

Fixpoint free_argv (argv : list Z) : K pstate unit :=
  match argv with
  | [] => ret tt
  | a :: argv => kmm (kfree kend a) ;;; free_argv argv
  end.

Definition sys_exec : K kstate Z :=
  uargv <- kp (argaddr 1) ;;
  path <- argpath 0 ;;
  match path with
  | None => ret (-1)
  | Some path =>
      a <- kp (exec_argv (Z.to_nat MAXARG) uargv 0 []) ;;
      if negb a.1 then kp (free_argv a.2) ;;; ret (-1)
      else
        r <- exec kend trampoline path (a.2 ++ [0]) ;;
        kp (free_argv a.2) ;;;
        ret r
  end.

Definition sys_pipe : K kstate Z :=
  p <- asks e_me ;;
  fdarray <- kp (argaddr 0) ;;
  r <- pipealloc kend ;;
  match r with
  | None => ret (-1)
  | Some (rf, wf) =>
      fd0 <- fdalloc rf ;;
      match fd0 with
      | None => fileclose kend rf ;;; fileclose kend wf ;;; ret (-1)
      | Some fd0 =>
          fd1 <- fdalloc wf ;;
          match fd1 with
          | None =>
              clear_fd fd0 ;;;
              fileclose kend rf ;;; fileclose kend wf ;;; ret (-1)
          | Some fd1 =>
              pt <- kp (getp p p_pagetable) ;;
              c <- kp (kmm (copyout pt fdarray (le_bytes 4 (Z.of_nat fd0)))) ;;
              c <- (if c <? 0 then ret c
                    else kp (kmm (copyout pt (u64 (fdarray + 4)) (le_bytes 4 (Z.of_nat fd1))))) ;;
              if c <? 0 then
                clear_fd fd0 ;;;
                clear_fd fd1 ;;;
                fileclose kend rf ;;; fileclose kend wf ;;; ret (-1)
              else ret 0
          end
      end
  end.
End sysfile.
