(* ===== verification/Virtio.v ===== *)
(** * kernel/virtio_disk.c: the disk driver

    The descriptor table, the two rings and the driver's book-keeping.  An
    address given to the device names the object it points at.  What the
    device writes (the used ring, the status bytes, b->data and its own
    blocks) changes between the driver's steps.  Reads of
    memory-mapped registers are answered by the function [mmio_in], writes
    are recorded, latest first. *)

From S2P Require Import Prelude KMonad Riscv CString Kalloc Vm Bio.
Open Scope kmonad_scope.

(** ** virtio.h *)

Definition VIRTIO_MMIO_MAGIC_VALUE : Z := 0x000.
Definition VIRTIO_MMIO_VERSION : Z := 0x004.
Definition VIRTIO_MMIO_DEVICE_ID : Z := 0x008.
Definition VIRTIO_MMIO_VENDOR_ID : Z := 0x00c.
Definition VIRTIO_MMIO_DEVICE_FEATURES : Z := 0x010.
Definition VIRTIO_MMIO_DRIVER_FEATURES : Z := 0x020.
Definition VIRTIO_MMIO_QUEUE_SEL : Z := 0x030.
Definition VIRTIO_MMIO_QUEUE_NUM_MAX : Z := 0x034.
Definition VIRTIO_MMIO_QUEUE_NUM : Z := 0x038.
Definition VIRTIO_MMIO_QUEUE_READY : Z := 0x044.
Definition VIRTIO_MMIO_QUEUE_NOTIFY : Z := 0x050.
Definition VIRTIO_MMIO_INTERRUPT_STATUS : Z := 0x060.
Definition VIRTIO_MMIO_INTERRUPT_ACK : Z := 0x064.
Definition VIRTIO_MMIO_STATUS : Z := 0x070.
Definition VIRTIO_MMIO_QUEUE_DESC_LOW : Z := 0x080.
Definition VIRTIO_MMIO_QUEUE_DESC_HIGH : Z := 0x084.
Definition VIRTIO_MMIO_DRIVER_DESC_LOW : Z := 0x090.
Definition VIRTIO_MMIO_DRIVER_DESC_HIGH : Z := 0x094.
Definition VIRTIO_MMIO_DEVICE_DESC_LOW : Z := 0x0a0.
Definition VIRTIO_MMIO_DEVICE_DESC_HIGH : Z := 0x0a4.
Definition VIRTIO_CONFIG_S_ACKNOWLEDGE : Z := 1.
Definition VIRTIO_CONFIG_S_DRIVER : Z := 2.
Definition VIRTIO_CONFIG_S_DRIVER_OK : Z := 4.
Definition VIRTIO_CONFIG_S_FEATURES_OK : Z := 8.
Definition VIRTIO_BLK_F_RO : Z := 5.
Definition VIRTIO_BLK_F_SCSI : Z := 7.
Definition VIRTIO_BLK_F_CONFIG_WCE : Z := 11.
Definition VIRTIO_BLK_F_MQ : Z := 12.
Definition VIRTIO_F_ANY_LAYOUT : Z := 27.
Definition VIRTIO_RING_F_INDIRECT_DESC : Z := 28.
Definition VIRTIO_RING_F_EVENT_IDX : Z := 29.
Definition NUM : nat := 8.
Definition VRING_DESC_F_NEXT : Z := 1.
Definition VRING_DESC_F_WRITE : Z := 2.
Definition VIRTIO_BLK_T_IN : Z := 0.
Definition VIRTIO_BLK_T_OUT : Z := 1.

(** Objects the device is given the address of: disk.ops[i], b->data,
    disk.info[i].status. *)
Inductive daddr : Set := ANull | AReq (i : nat) | AData (b : nat) | AStatus (i : nat).

#[export] Instance daddr_eq_dec : EqDecision daddr.
Proof. solve_decision. Defined.

Record virtq_desc : Set := mkDesc { d_addr : daddr; d_len : Z; d_flags : Z; d_next : nat }.
Definition desc0 : virtq_desc := mkDesc ANull 0 0 0.
#[export] Instance desc_inhabited : Inhabited virtq_desc := populate desc0.

Record virtio_blk_req : Set := mkReq { r_type : Z; r_reserved : Z; r_sector : Z }.
Definition req0 : virtio_blk_req := mkReq 0 0 0.
#[export] Instance req_inhabited : Inhabited virtio_blk_req := populate req0.

Record vdisk : Set := mkVdisk {
  v_desc : list virtq_desc;        (* NUM of them *)
  v_avail_idx : Z;
  v_avail_ring : list nat;
  v_used_idx_dev : Z;              (* used->idx, written by the device *)
  v_used_ring : list nat;          (* used->ring[].id, written by the device *)
  v_free : list bool;
  v_used_idx : Z;
  v_info_b : list (option nat);
  v_info_status : list Z;
  v_ops : list virtio_blk_req;
  v_bdisk : list bool;             (* b->disk of every buffer *)
  v_mmio : list (Z * Z)
}.

Definition set_desc v d := mkVdisk v (v_avail_idx d) (v_avail_ring d) (v_used_idx_dev d) (v_used_ring d) (v_free d) (v_used_idx d) (v_info_b d) (v_info_status d) (v_ops d) (v_bdisk d) (v_mmio d).
Definition set_avail_idx v d := mkVdisk (v_desc d) v (v_avail_ring d) (v_used_idx_dev d) (v_used_ring d) (v_free d) (v_used_idx d) (v_info_b d) (v_info_status d) (v_ops d) (v_bdisk d) (v_mmio d).
Definition set_avail_ring v d := mkVdisk (v_desc d) (v_avail_idx d) v (v_used_idx_dev d) (v_used_ring d) (v_free d) (v_used_idx d) (v_info_b d) (v_info_status d) (v_ops d) (v_bdisk d) (v_mmio d).
Definition set_used_dev v d := mkVdisk (v_desc d) (v_avail_idx d) (v_avail_ring d) v (v_used_ring d) (v_free d) (v_used_idx d) (v_info_b d) (v_info_status d) (v_ops d) (v_bdisk d) (v_mmio d).
Definition set_used_ring v d := mkVdisk (v_desc d) (v_avail_idx d) (v_avail_ring d) (v_used_idx_dev d) v (v_free d) (v_used_idx d) (v_info_b d) (v_info_status d) (v_ops d) (v_bdisk d) (v_mmio d).
Definition set_free v d := mkVdisk (v_desc d) (v_avail_idx d) (v_avail_ring d) (v_used_idx_dev d) (v_used_ring d) v (v_used_idx d) (v_info_b d) (v_info_status d) (v_ops d) (v_bdisk d) (v_mmio d).
Definition set_used_idx v d := mkVdisk (v_desc d) (v_avail_idx d) (v_avail_ring d) (v_used_idx_dev d) (v_used_ring d) (v_free d) v (v_info_b d) (v_info_status d) (v_ops d) (v_bdisk d) (v_mmio d).
Definition set_info_b v d := mkVdisk (v_desc d) (v_avail_idx d) (v_avail_ring d) (v_used_idx_dev d) (v_used_ring d) (v_free d) (v_used_idx d) v (v_info_status d) (v_ops d) (v_bdisk d) (v_mmio d).
Definition set_info_status v d := mkVdisk (v_desc d) (v_avail_idx d) (v_avail_ring d) (v_used_idx_dev d) (v_used_ring d) (v_free d) (v_used_idx d) (v_info_b d) v (v_ops d) (v_bdisk d) (v_mmio d).
Definition set_ops v d := mkVdisk (v_desc d) (v_avail_idx d) (v_avail_ring d) (v_used_idx_dev d) (v_used_ring d) (v_free d) (v_used_idx d) (v_info_b d) (v_info_status d) v (v_bdisk d) (v_mmio d).
Definition set_bdisk v d := mkVdisk (v_desc d) (v_avail_idx d) (v_avail_ring d) (v_used_idx_dev d) (v_used_ring d) (v_free d) (v_used_idx d) (v_info_b d) (v_info_status d) (v_ops d) v (v_mmio d).
Definition set_vmmio v d := mkVdisk (v_desc d) (v_avail_idx d) (v_avail_ring d) (v_used_idx_dev d) (v_used_ring d) (v_free d) (v_used_idx d) (v_info_b d) (v_info_status d) (v_ops d) (v_bdisk d) v.

Definition getv {A} (f : vdisk -> A) : K vdisk A := gets f.
Definition modv (f : vdisk -> vdisk) : K vdisk unit := modify f.

(** disk.desc[i] changed. *)
Definition upd_desc (i : nat) (f : virtq_desc -> virtq_desc) : K vdisk unit :=
  modv (fun d => set_desc (alter f i (v_desc d)) d).
Definition write_mmio (r v : Z) : K vdisk unit := modv (fun d => set_vmmio ((r, u32 v) :: v_mmio d) d).

(** ** Descriptors *)

Fixpoint alloc_desc_loop (n i : nat) : K vdisk (option nat) :=
  match n with
  | O => ret None
  | S n =>
      f <- getv v_free ;;
      if default false (f !! i) then
        modv (fun d => set_free (<[i := false]> (v_free d)) d) ;;; ret (Some i)
      else alloc_desc_loop n (S i)
  end.

Definition alloc_desc : K vdisk (option nat) := alloc_desc_loop NUM 0.

Definition free_desc (i : nat) : K vdisk unit :=
  if (NUM <=? i)%nat then panic "free_desc 1"
  else
    f <- getv v_free ;;
    if default false (f !! i) then panic "free_desc 2"
    else
      upd_desc i (fun _ => desc0) ;;;
      modv (fun d => set_free (<[i := true]> (v_free d)) d) ;;;
      wakeup ChDiskFree.

(** while(1): a chain visits every descriptor at most once. *)
Fixpoint free_chain_loop (fuel : nat) (i : nat) : K vdisk unit :=
  match fuel with
  | O => out_of_fuel
  | S fuel =>
      d <- getv (fun d => v_desc d !!! i) ;;
      free_desc i ;;;
      if negb (Z.land (d_flags d) VRING_DESC_F_NEXT =? 0) then free_chain_loop fuel (d_next d)
      else ret tt
  end.

Definition free_chain (i : nat) : K vdisk unit := free_chain_loop NUM i.

Fixpoint free_descs (l : list nat) : K vdisk unit :=
  match l with
  | [] => ret tt
  | i :: l => free_desc i ;;; free_descs l
  end.

(** [k] descriptors are still needed, [idx] have been allocated. *)
Fixpoint alloc3_loop (k : nat) (idx : list nat) : K vdisk (option (list nat)) :=
  match k with
  | O => ret (Some idx)
  | S k =>
      r <- alloc_desc ;;
      match r with
      | None => free_descs idx ;;; ret None
      | Some i => alloc3_loop k (idx ++ [i])
      end
  end.

Definition alloc3_desc : K vdisk (option (list nat)) := alloc3_loop 3 [].

(** ** Requests *)

Fixpoint rw_alloc (fuel : nat) : K vdisk (list nat) :=
  r <- alloc3_desc ;;
  match r with
  | Some idx => ret idx
  | None =>
      match fuel with
      | O => out_of_fuel
      | S fuel => sleep ChDiskFree LkVdisk ;;; rw_alloc fuel
      end
  end.

(** The three descriptors of a transfer of buffer [b]. *)
Definition rw_format (b : nat) (blockno : Z) (write : bool) (i0 i1 i2 : nat) : K vdisk unit :=
  let sector := u32 (blockno * 2) in
  modv (fun d => set_ops (<[i0 := mkReq (if write then VIRTIO_BLK_T_OUT else VIRTIO_BLK_T_IN)
                                    0 sector]> (v_ops d)) d) ;;;
  upd_desc i0 (fun _ => mkDesc (AReq i0) 16 VRING_DESC_F_NEXT i1) ;;;
  upd_desc i1 (fun _ => mkDesc (AData b) (Z.of_nat BSIZE)
                          (Z.lor (if write then 0 else VRING_DESC_F_WRITE) VRING_DESC_F_NEXT) i2) ;;;
  modv (fun d => set_info_status (<[i0 := 0xff]> (v_info_status d)) d) ;;;
  upd_desc i2 (fun _ => mkDesc (AStatus i0) 1 VRING_DESC_F_WRITE 0).

Fixpoint rw_wait (fuel : nat) (b : nat) : K vdisk unit :=
  x <- getv (fun d => default false (v_bdisk d !! b)) ;;
  if x : bool then
    match fuel with
    | O => out_of_fuel
    | S fuel => sleep (ChBufIO b) LkVdisk ;;; rw_wait fuel b
    end
  else ret tt.

Definition virtio_disk_rw (b : nat) (blockno : Z) (write : bool) : K vdisk unit :=
  acquire LkVdisk ;;;
  spin <- asks e_spin ;;
  idx <- rw_alloc spin ;;
  match idx with
  | [i0; i1; i2] =>
      rw_format b blockno write i0 i1 i2 ;;;
      modv (fun d => set_bdisk (<[b := true]> (v_bdisk d)) d) ;;;
      modv (fun d => set_info_b (<[i0 := Some b]> (v_info_b d)) d) ;;;
      modv (fun d => set_avail_ring (<[Z.to_nat (v_avail_idx d mod Z.of_nat NUM) := i0]> (v_avail_ring d)) d) ;;;
      modv (fun d => set_avail_idx (u16 (v_avail_idx d + 1)) d) ;;;
      write_mmio VIRTIO_MMIO_QUEUE_NOTIFY 0 ;;;
      spin <- asks e_spin ;;
      rw_wait spin b ;;;
      modv (fun d => set_info_b (<[i0 := None]> (v_info_b d)) d) ;;;
      free_chain i0 ;;;
      release LkVdisk
  | _ => panic "undefined: idx"
  end.

(** ** The interrupt handler *)

Section mmio.
Variable mmio_in : Z -> Z.

(** while(disk.used_idx != disk.used->idx) *)
Fixpoint intr_loop (fuel : nat) : K vdisk unit :=
  d <- getv (fun d => d) ;;
  if v_used_idx d =? v_used_idx_dev d then ret tt
  else
    match fuel with
    | O => out_of_fuel
    | S fuel =>
        match v_used_ring d !! Z.to_nat (v_used_idx d mod Z.of_nat NUM) with
        | None => panic "undefined: used ring"
        | Some id =>
            if negb (default 1 (v_info_status d !! id) =? 0) then panic "virtio_disk_intr status"
            else
              match v_info_b d !! id with
              | Some (Some b) =>
                  modv (fun d => set_bdisk (<[b := false]> (v_bdisk d)) d) ;;;
                  wakeup (ChBufIO b) ;;;
                  modv (fun d => set_used_idx (u16 (v_used_idx d + 1)) d) ;;;
                  intr_loop fuel
              | _ => panic "undefined: null buf"
              end
        end
    end.

Definition virtio_disk_intr : K vdisk unit :=
  acquire LkVdisk ;;;
  write_mmio VIRTIO_MMIO_INTERRUPT_ACK (Z.land (mmio_in VIRTIO_MMIO_INTERRUPT_STATUS) 3) ;;;
  intr_loop (Z.to_nat (2 ^ 16)) ;;;
  release LkVdisk.

(** ** Initialisation *)

(** The status register as it reads after FEATURES_OK has been set. *)
Variable status_reread : Z.

Definition clear_bit (features n : Z) : Z := Z.land features (Z.lnot (Z.shiftl 1 n)).

Definition negotiate (features : Z) : Z :=
  fold_left clear_bit
    [VIRTIO_BLK_F_RO; VIRTIO_BLK_F_SCSI; VIRTIO_BLK_F_CONFIG_WCE; VIRTIO_BLK_F_MQ;
     VIRTIO_F_ANY_LAYOUT; VIRTIO_RING_F_EVENT_IDX; VIRTIO_RING_F_INDIRECT_DESC] features.

Record vstate : Set := mkVstate { vs_kmem : kmem; vs_disk : vdisk }.
Definition put_vkmem (k : kmem) (s : vstate) : vstate := mkVstate k (vs_disk s).
Definition put_vdisk (d : vdisk) (s : vstate) : vstate := mkVstate (vs_kmem s) d.
Definition vk {A} (m : K kmem A) : K vstate A := zoom vs_kmem put_vkmem m.
Definition vd {A} (m : K vdisk A) : K vstate A := zoom vs_disk put_vdisk m.

(** The queue's pages, zeroed. *)
Definition queue_pages : K vstate (Z * Z * Z) :=
  desc <- vk kalloc ;;
  avail <- vk kalloc ;;
  used <- vk kalloc ;;
  if (desc =? 0) || (avail =? 0) || (used =? 0) then panic "virtio disk kalloc"
  else
    vk (do_memset desc 0 PGSIZE) ;;;
    vk (do_memset avail 0 PGSIZE) ;;;
    vk (do_memset used 0 PGSIZE) ;;;
    vd (modv (fun d => set_desc (replicate NUM desc0) d)) ;;;
    vd (modv (fun d => set_avail_idx 0 (set_avail_ring (replicate NUM 0%nat) d))) ;;;
    vd (modv (fun d => set_used_dev 0 (set_used_ring (replicate NUM 0%nat) d))) ;;;
    ret (desc, avail, used).

Definition virtio_disk_init : K vstate unit :=
  if negb (mmio_in VIRTIO_MMIO_MAGIC_VALUE =? 0x74726976) ||
     negb (mmio_in VIRTIO_MMIO_VERSION =? 2) ||
     negb (mmio_in VIRTIO_MMIO_DEVICE_ID =? 2) ||
     negb (mmio_in VIRTIO_MMIO_VENDOR_ID =? 0x554d4551)
  then panic "could not find virtio disk"
  else
    vd (write_mmio VIRTIO_MMIO_STATUS 0) ;;;
    vd (write_mmio VIRTIO_MMIO_STATUS VIRTIO_CONFIG_S_ACKNOWLEDGE) ;;;
    vd (write_mmio VIRTIO_MMIO_STATUS (Z.lor VIRTIO_CONFIG_S_ACKNOWLEDGE VIRTIO_CONFIG_S_DRIVER)) ;;;
    vd (write_mmio VIRTIO_MMIO_DRIVER_FEATURES (negotiate (mmio_in VIRTIO_MMIO_DEVICE_FEATURES))) ;;;
    vd (write_mmio VIRTIO_MMIO_STATUS
          (Z.lor (Z.lor VIRTIO_CONFIG_S_ACKNOWLEDGE VIRTIO_CONFIG_S_DRIVER)
                 VIRTIO_CONFIG_S_FEATURES_OK)) ;;;
    if Z.land status_reread VIRTIO_CONFIG_S_FEATURES_OK =? 0
    then panic "virtio disk FEATURES_OK unset"
    else
      vd (write_mmio VIRTIO_MMIO_QUEUE_SEL 0) ;;;
      if negb (mmio_in VIRTIO_MMIO_QUEUE_READY =? 0) then panic "virtio disk should not be ready"
      else
        let max := mmio_in VIRTIO_MMIO_QUEUE_NUM_MAX in
        if max =? 0 then panic "virtio disk has no queue 0"
        else if max <? Z.of_nat NUM then panic "virtio disk max queue too short"
        else
          q <- queue_pages ;;
          let '(desc, avail, used) := q in
          vd (write_mmio VIRTIO_MMIO_QUEUE_NUM (Z.of_nat NUM)) ;;;
          vd (write_mmio VIRTIO_MMIO_QUEUE_DESC_LOW desc) ;;;
          vd (write_mmio VIRTIO_MMIO_QUEUE_DESC_HIGH (Z.shiftr desc 32)) ;;;
          vd (write_mmio VIRTIO_MMIO_DRIVER_DESC_LOW avail) ;;;
          vd (write_mmio VIRTIO_MMIO_DRIVER_DESC_HIGH (Z.shiftr avail 32)) ;;;
          vd (write_mmio VIRTIO_MMIO_DEVICE_DESC_LOW used) ;;;
          vd (write_mmio VIRTIO_MMIO_DEVICE_DESC_HIGH (Z.shiftr used 32)) ;;;
          vd (write_mmio VIRTIO_MMIO_QUEUE_READY 1) ;;;
          vd (modv (fun d => set_free (replicate NUM true) d)) ;;;
          vd (write_mmio VIRTIO_MMIO_STATUS (Z.lor status_reread VIRTIO_CONFIG_S_DRIVER_OK)).
End mmio.
