(* ===== verification/VirtioSpec.v ===== *)
(** * The disk driver and the device

    virtio_disk_rw(), virtio_disk_intr() and the device share the descriptor
    table and the two rings.  The system of any number of threads that call
    the driver, the interrupt handler and a device that follows the virtio
    protocol, and may report that a transfer failed, is a step relation; its
    invariant says which request owns which descriptors and how far each
    request has come.  The device performs the transfers asked for, each once,
    before the call returns; nothing panics but the interrupt handler, when
    and only when the device has reported an error. *)

From S2P Require Import Prelude KMonad Riscv CString Kalloc Vm Bio Virtio Ring.
Open Scope kmonad_scope.

(** ** Transfers, as the caller asks for them and as the device reads them *)

Record xfer : Set := mkXfer { x_buf : nat; x_block : Z; x_write : bool }.

Definition data_flags (write : bool) : Z := Z.lor (if write then 0 else VRING_DESC_F_WRITE) VRING_DESC_F_NEXT.

(** The chain from descriptor [h] as a request of a block device: the
    transfer and the place of the status byte, or nothing when the chain is
    not one that section 5.2 of the virtio standard allows. *)
Definition decode (d : vdisk) (h : nat) : option (xfer * nat) :=
  let d0 := v_desc d !!! h in
  let d1 := v_desc d !!! d_next d0 in
  let d2 := v_desc d !!! d_next d1 in
  match d_addr d0, d_addr d1, d_addr d2 with
  | AReq r, AData b, AStatus j =>
      let q := v_ops d !!! r in
      let write := r_type q =? VIRTIO_BLK_T_OUT in
      if (d_len d0 =? 16) && (d_flags d0 =? VRING_DESC_F_NEXT) &&
         (d_len d1 =? Z.of_nat BSIZE) && (d_flags d1 =? data_flags write) &&
         (d_len d2 =? 1) && (d_flags d2 =? VRING_DESC_F_WRITE) &&
         (write || (r_type q =? VIRTIO_BLK_T_IN)) && (r_sector q mod 2 =? 0)
      then Some (mkXfer b (r_sector q / 2) write, j)
      else None
  | _, _, _ => None
  end.

(** ** The system *)

(** A thread asleep in virtio_disk_rw(): what it asked for and how it goes on. *)
Record thread : Type := mkThread { t_call : xfer; t_go : env -> vdisk -> res vdisk unit }.

Record dsys : Type := mkDsys {
  y_disk : vdisk;
  y_seen : Z;                    (* how far the device has read the available ring *)
  y_taken : list nat;            (* the chains it is working on *)
  y_threads : list thread;
  y_calls : list xfer;           (* the calls made, *)
  y_done : list xfer;            (* the transfers performed, *)
  y_errors : list xfer;          (* those the device reported as failed, *)
  y_returned : list xfer;        (* and the calls that have returned *)
  y_fault : option string        (* the panic that stopped the machine *)
}.

Definition fault (msg : string) (y : dsys) : dsys :=
  mkDsys (y_disk y) (y_seen y) (y_taken y) (y_threads y) (y_calls y) (y_done y) (y_errors y) (y_returned y) (Some msg).
Definition with_disk (d : vdisk) (y : dsys) : dsys :=
  mkDsys d (y_seen y) (y_taken y) (y_threads y) (y_calls y) (y_done y) (y_errors y) (y_returned y) (y_fault y).
Definition with_threads (ts : list thread) (y : dsys) : dsys :=
  mkDsys (y_disk y) (y_seen y) (y_taken y) ts (y_calls y) (y_done y) (y_errors y) (y_returned y) (y_fault y).
Definition with_calls (c : list xfer) (y : dsys) : dsys :=
  mkDsys (y_disk y) (y_seen y) (y_taken y) (y_threads y) c (y_done y) (y_errors y) (y_returned y) (y_fault y).
Definition called (x : xfer) (y : dsys) : dsys := with_calls (x :: y_calls y) y.
Definition returns (x : xfer) (y : dsys) : dsys :=
  mkDsys (y_disk y) (y_seen y) (y_taken y) (y_threads y) (y_calls y) (y_done y) (y_errors y) (x :: y_returned y) (y_fault y).

(** The next state of a call of transfer [x] that has run up to [r].  A run
    whose bound of vain wakeups is used up has no next state: the same run
    with a larger bound has one. *)
Definition outcome (x : xfer) (r : res vdisk unit) (y : dsys) : option dsys :=
  match r with
  | Ok _ _ d => Some (returns x (with_disk d y))
  | Sleep _ _ d k => Some (with_threads (mkThread x k :: y_threads y) (with_disk d y))
  | Panic msg => Some (fault msg y)
  | OutOfFuel => None
  end.

(** The interrupt handler must return. *)
Definition intr_outcome (r : res vdisk unit) (y : dsys) : dsys :=
  match r with
  | Ok _ _ d => with_disk d y
  | Panic msg => fault msg y
  | _ => fault "stuck" y
  end.

Definition slot (i : Z) : nat := Z.to_nat (i mod Z.of_nat NUM).

(** The virtio protocol on the device's side: it takes the chains made
    available in their order, completes them in any order, writing the
    status byte, 0 if the transfer was performed and another value if it
    failed, and then the used ring. *)
Inductive device_step : dsys -> dsys -> Prop :=
| dev_take y h :
    y_seen y <> v_avail_idx (y_disk y) -> v_avail_ring (y_disk y) !! slot (y_seen y) = Some h ->
    device_step y (mkDsys (y_disk y) (u16 (y_seen y + 1)) (h :: y_taken y) (y_threads y)
                     (y_calls y) (y_done y) (y_errors y) (y_returned y) (y_fault y))
| dev_complete y l1 h l2 x j st d :
    0 <= st < 256 -> y_taken y = l1 ++ h :: l2 -> decode (y_disk y) h = Some (x, j) ->
    d = set_used_dev (u16 (v_used_idx_dev (y_disk y) + 1))
          (set_used_ring (<[slot (v_used_idx_dev (y_disk y)) := h]> (v_used_ring (y_disk y)))
             (set_info_status (<[j := st]> (v_info_status (y_disk y))) (y_disk y))) ->
    device_step y (mkDsys d (y_seen y) (l1 ++ l2) (y_threads y)
                     (y_calls y) (if st =? 0 then x :: y_done y else y_done y) (if st =? 0 then y_errors y else x :: y_errors y)
                     (y_returned y) (y_fault y))
| dev_malformed y h :
    h ∈ y_taken y -> decode (y_disk y) h = None -> device_step y (fault "malformed request" y).

Section system.
Variable mmio_in : Z -> Z.
Variable device : dsys -> dsys -> Prop.

(** A caller holds no spinlock and has the buffer to itself. *)
Inductive dstep : dsys -> dsys -> Prop :=
| st_call y y' x e :
    e_held e = [] -> 0 <= x_block x < 2 ^ 31 -> (x_buf x < length (v_bdisk (y_disk y)))%nat ->
    x_buf x ∉ map (fun t => x_buf (t_call t)) (y_threads y) ->
    outcome x (virtio_disk_rw (x_buf x) (x_block x) (x_write x) e (y_disk y)) (called x y) = Some y' ->
    dstep y y'
| st_resume y y' l1 t l2 e :
    e_held e = [] -> y_threads y = l1 ++ t :: l2 ->
    outcome (t_call t) (t_go t e (y_disk y)) (with_threads (l1 ++ l2) y) = Some y' ->
    dstep y y'
| st_intr y e :
    e_held e = [] -> dstep y (intr_outcome (virtio_disk_intr mmio_in e (y_disk y)) y)
| st_device y y' :
    device y y' -> dstep y y'.

(** The driver after virtio_disk_init(), called with the zeroed [disk]. *)
Record booted (d : vdisk) : Prop := {
  bt_used : v_used_idx d = 0;
  bt_info : v_info_b d = replicate NUM None;
  bt_status : v_info_status d = replicate NUM 0;
  bt_ops : v_ops d = replicate NUM req0
}.

Inductive reachable : dsys -> Prop :=
| rc_init status e s e' s' :
    booted (vs_disk s) -> virtio_disk_init mmio_in status e s = Ok tt e' s' ->
    reachable (mkDsys (vs_disk s') 0 [] [] [] [] [] [] None)
| rc_step y y' : reachable y -> y_fault y = None -> dstep y y' -> reachable y'.
End system.

(** ** Requests in the descriptor table *)

(** A submitted request: its three descriptors and the transfer. *)
Record dreq : Set := mkDreq { q0 : nat; q1 : nat; q2 : nat; q_x : xfer }.
Definition q_b (q : dreq) : nat := x_buf (q_x q).
Definition descs (q : dreq) : list nat := [q0 q; q1 q; q2 q].
Definition all_descs (l : list dreq) : list nat := flat_map descs l.

Definition chain0 (q : dreq) : virtq_desc := mkDesc (AReq (q0 q)) 16 VRING_DESC_F_NEXT (q1 q).
Definition chain1 (q : dreq) : virtq_desc :=
  mkDesc (AData (q_b q)) (Z.of_nat BSIZE) (data_flags (x_write (q_x q))) (q2 q).
Definition chain2 (q : dreq) : virtq_desc := mkDesc (AStatus (q0 q)) 1 VRING_DESC_F_WRITE 0.
Definition req_of (x : xfer) : virtio_blk_req :=
  mkReq (if x_write x then VIRTIO_BLK_T_OUT else VIRTIO_BLK_T_IN) 0 (u32 (x_block x * 2)).

Record req_ok (d : vdisk) (q : dreq) : Prop := {
  rq_0 : v_desc d !! q0 q = Some (chain0 q);
  rq_1 : v_desc d !! q1 q = Some (chain1 q);
  rq_2 : v_desc d !! q2 q = Some (chain2 q);
  rq_op : v_ops d !! q0 q = Some (req_of (q_x q));
  rq_info : v_info_b d !! q0 q = Some (Some (q_b q));
  rq_block : 0 <= x_block (q_x q) < 2 ^ 31
}.

(** The device reads the request that was asked for. *)
Lemma decode_req d q : req_ok d q -> decode d (q0 q) = Some (q_x q, q0 q).
Proof.
  intros [H0 H1 H2 Hop _ Hb]. unfold decode.
  rewrite (list_lookup_total_correct _ _ _ H0). cbn [chain0 d_next d_addr d_len d_flags].
  rewrite (list_lookup_total_correct _ _ _ H1). cbn [chain1 d_next d_addr d_len d_flags].
  rewrite (list_lookup_total_correct _ _ _ H2). cbn [chain2 d_next d_addr d_len d_flags].
  rewrite (list_lookup_total_correct _ _ _ Hop). unfold req_of, q_b.
  destruct (q_x q) as [b blk w]. cbn [x_buf x_block x_write r_type r_sector] in *.
  rewrite u32_small by lia. rewrite !Z.eqb_refl.
  assert (Hm : (blk * 2) mod 2 = 0) by zdm. assert (Hd : blk * 2 / 2 = blk) by zdm.
  rewrite Hm, Hd. by destruct w.
Qed.

(** A request looks only at its own places. *)
Lemma req_ok_frame d d' q :
  req_ok d q ->
  (forall i, i ∈ descs q -> v_desc d' !! i = v_desc d !! i) ->
  v_ops d' !! q0 q = v_ops d !! q0 q -> v_info_b d' !! q0 q = v_info_b d !! q0 q -> req_ok d' q.
Proof.
  intros [H0 H1 H2 Hop Hi Hb] Hd Ho Hin.
  split; rewrite ?Hd, ?Ho, ?Hin by (unfold descs; set_solver); done.
Qed.

(** ** The invariant of the disk

    [A]: made available; [T]: taken by the device; [U]: in the used ring;
    [D]: seen by the interrupt handler, not yet by the thread. *)

Definition rlist (l : list nat) : list Z := Z.of_nat <$> l.
Definition heads (l : list dreq) : list Z := rlist (map q0 l).
Definition N8 : Z := Z.of_nat NUM.

Record shape (d : vdisk) : Prop := {
  sh_desc : length (v_desc d) = NUM;
  sh_avail : length (v_avail_ring d) = NUM;
  sh_used : length (v_used_ring d) = NUM;
  sh_free : length (v_free d) = NUM;
  sh_info : length (v_info_b d) = NUM;
  sh_status : length (v_info_status d) = NUM;
  sh_ops : length (v_ops d) = NUM
}.

(** The descriptors of the requests [l] are in use, the others free and zero. *)
Record owned (d : vdisk) (l : list dreq) : Prop := {
  ow_req : Forall (req_ok d) l;
  ow_nodup : NoDup (all_descs l);
  ow_free : forall i, (i < NUM)%nat -> v_free d !! i = Some (bool_decide (i ∉ all_descs l));
  ow_zero : forall i, (i < NUM)%nat -> i ∉ all_descs l -> v_desc d !! i = Some desc0
}.

Record queued (idx r : Z) (buf : list nat) (l : list dreq) : Prop := {
  qu_range : 0 <= r < 2 ^ 16;
  qu_idx : idx = u16 (r + Z.of_nat (length l));
  qu_heads : ring N8 (rlist buf) r (length l) = heads l
}.

Record dinv (d : vdisk) (seen : Z) (A T U D : list dreq) : Prop := {
  iv_shape : shape d;
  iv_owned : owned d (A ++ T ++ U ++ D);
  iv_busy : Forall (fun q => v_bdisk d !! q_b q = Some true) (A ++ T ++ U);
  iv_idle : Forall (fun q => v_bdisk d !! q_b q = Some false) D;
  iv_avail : queued (v_avail_idx d) seen (v_avail_ring d) A;
  iv_used : queued (v_used_idx_dev d) (v_used_idx d) (v_used_ring d) U
}.

(** ** Lists of requests *)

Lemma elem_of_all_descs i l : i ∈ all_descs l <-> exists q, q ∈ l /\ i ∈ descs q.
Proof.
  unfold all_descs. rewrite !list_elem_of_In, in_flat_map.
  setoid_rewrite list_elem_of_In. done.
Qed.

Lemma Forall_perm {A} (P : A -> Prop) l l' : l ≡ₚ l' -> Forall P l -> Forall P l'.
Proof. by intros ->. Qed.

Lemma NoDup_map_perm {A B} (f : A -> B) l l' : l ≡ₚ l' -> NoDup (map f l) -> NoDup (map f l').
Proof. intros Hp. by rewrite (Permutation_map f Hp). Qed.

Lemma all_descs_perm l l' : l ≡ₚ l' -> all_descs l ≡ₚ all_descs l'.
Proof. apply Permutation_flat_map. Qed.

Lemma all_descs_app l l' : all_descs (l ++ l') = all_descs l ++ all_descs l'.
Proof. apply flat_map_app. Qed.

Lemma owned_perm d l l' : l ≡ₚ l' -> owned d l -> owned d l'.
Proof.
  intros Hp [H1 H2 H3 H4]. pose proof (all_descs_perm _ _ Hp) as Hd. split.
  - by rewrite <- Hp.
  - by rewrite <- Hd.
  - intros i Hi. rewrite H3 by done. f_equal. apply bool_decide_ext. by rewrite Hd.
  - intros i Hi. rewrite <- Hd. by apply H4.
Qed.

Lemma owned_lt d l i : shape d -> owned d l -> i ∈ all_descs l -> (i < NUM)%nat.
Proof.
  intros [Hl _ _ _ _ _ _] [Hr _ _ _] Hi. apply elem_of_all_descs in Hi as (q & Hq & Hi).
  rewrite Forall_forall in Hr. destruct (Hr q Hq) as [H0 H1 H2 _ _ _]. rewrite <- Hl.
  unfold descs in Hi. rewrite !elem_of_cons, elem_of_nil in Hi.
  destruct Hi as [->|[->|[->|[]]]]; eapply lookup_lt_Some; eauto.
Qed.

(** There are never more than two requests. *)
Lemma owned_few d l : shape d -> owned d l -> (length l <= 2)%nat.
Proof.
  intros Hs Ho. assert (Hl : (length (all_descs l) <= NUM)%nat).
  { rewrite <- (length_seq NUM 0). apply submseteq_length, NoDup_submseteq; [apply (ow_nodup _ _ Ho)|].
    intros i Hi. apply elem_of_seq. pose proof (owned_lt d l i Hs Ho Hi). lia. }
  replace (length (all_descs l)) with (3 * length l)%nat in Hl; [unfold NUM in Hl; lia|].
  clear. induction l as [|q l IH]; [done|]. cbn. unfold all_descs in IH. rewrite <- IH. cbn. lia.
Qed.

(** ** The rings *)

Lemma slot_cell buf i h : buf !! slot i = Some h -> cell N8 (rlist buf) i = Z.of_nat h.
Proof. intros H. unfold cell, rlist, N8. fold (slot i). by rewrite list_lookup_fmap, H. Qed.

Lemma u16_slot i : u16 i mod N8 = i mod N8.
Proof. unfold u16, N8, NUM. apply Z.mod_mod_divide. by exists (2 ^ 13). Qed.

Lemma queued_push idx r buf l q :
  length buf = NUM -> (length l <= 2)%nat -> queued idx r buf l ->
  queued (u16 (idx + 1)) r (<[slot idx := q0 q]> buf) (l ++ [q]).
Proof.
  intros Hb Hl [Hr Hi Hh]. split; [done| |].
  - rewrite Hi, length_app. unfold u16. cbn [length]. rewrite Z.add_mod_idemp_l by lia. f_equal. lia.
  - rewrite length_app, Nat.add_1_r. unfold rlist. rewrite list_fmap_insert.
    unfold slot. fold N8. rewrite ring_push; [|done| | |].
    + unfold heads, rlist in *. rewrite map_app, fmap_app, <- Hh. done.
    + by rewrite length_fmap, Hb.
    + unfold N8, NUM. lia.
    + by rewrite Hi, u16_slot.
Qed.

Lemma queued_pop idx r buf q l :
  (length l <= 2)%nat -> length buf = NUM -> queued idx r buf (q :: l) ->
  buf !! slot r = Some (q0 q) /\ r <> idx /\ queued idx (u16 (r + 1)) buf l.
Proof.
  intros Hl Hb [Hr Hi Hh]. cbn [length] in *. rewrite ring_S in Hh. unfold heads, rlist in Hh. cbn in Hh.
  injection Hh as Hc Hh. assert (Hs : (slot r < length buf)%nat).
  { rewrite Hb. unfold slot. pose proof (Z.mod_pos_bound r (Z.of_nat NUM)). unfold NUM in *. lia. }
  apply lookup_lt_is_Some in Hs as [h Hh']. split.
  - pose proof (slot_cell _ _ _ Hh') as Hc'. unfold rlist in Hc'. rewrite Hc in Hc'. apply Nat2Z.inj in Hc'. by subst h.
  - split.
    + rewrite Hi. unfold u16. zdm.
    + split; [unfold u16; zdm| |].
      * rewrite Hi. unfold u16. rewrite Z.add_mod_idemp_l by lia. f_equal. lia.
      * unfold heads, rlist in *. rewrite <- Hh. apply ring_mod; [by unfold N8, NUM|]. apply u16_slot.
Qed.

Lemma queued_empty idx r buf l : (length l <= 2)%nat -> queued idx r buf l -> r = idx -> l = [].
Proof. intros Hl [Hr Hi _] E. destruct l as [|q l]; [done|]. cbn [length] in *. unfold u16 in Hi. exfalso. zdm. Qed.

(** ** Descriptors *)

Lemma set_free_set f g d : set_free f (set_free g d) = set_free f d.
Proof. done. Qed.

Lemma set_free_same d : set_free (v_free d) d = d.
Proof. by destruct d. Qed.

Lemma set_desc_same d : set_desc (v_desc d) d = d.
Proof. by destruct d. Qed.

Lemma alloc_desc_loop_run n i e d :
  (exists k, v_free d !! k = Some true /\
     alloc_desc_loop n i e d = Ok (Some k) e (set_free (<[k := false]> (v_free d)) d)) \/
  ((forall k, (i <= k < i + n)%nat -> v_free d !! k <> Some true) /\ alloc_desc_loop n i e d = Ok None e d).
Proof.
  revert i. induction n as [|n IH]; intros i; cbn [alloc_desc_loop].
  - right. split; [lia|done].
  - rewrite bind_eq. cbn [getv gets rbind]. destruct (v_free d !! i) as [[]|] eqn:E; cbn [default].
    + left. exists i. done.
    + destruct (IH (S i)) as [(k & H1 & H2)|[H1 H2]]; [left; eauto|right]. split; [|done].
      intros k Hk. destruct (decide (k = i)) as [->|]; [by rewrite E|]. apply H1. lia.
    + destruct (IH (S i)) as [(k & H1 & H2)|[H1 H2]]; [left; eauto|right]. split; [|done].
      intros k Hk. destruct (decide (k = i)) as [->|]; [by rewrite E|]. apply H1. lia.
Qed.

Lemma alloc_desc_run e d :
  (exists k, v_free d !! k = Some true /\ alloc_desc e d = Ok (Some k) e (set_free (<[k := false]> (v_free d)) d)) \/
  alloc_desc e d = Ok None e d.
Proof. destruct (alloc_desc_loop_run NUM 0 e d) as [H|[_ H]]; eauto. Qed.

(** Freeing a descriptor in use. *)
Lemma free_desc_run i e d :
  (i < NUM)%nat -> v_free d !! i = Some false ->
  free_desc i e d = Ok tt (add_woken [ChDiskFree] e)
    (set_free (<[i := true]> (v_free d)) (set_desc (alter (fun _ => desc0) i (v_desc d)) d)).
Proof.
  intros Hi Hf. unfold free_desc. destruct (Nat.leb_spec NUM i); [lia|].
  rewrite bind_eq. cbn [getv gets rbind]. rewrite Hf. done.
Qed.

(** The environment of a thread inside the driver, up to the wakeups it sent. *)
Definition inside (e e' : env) : Prop := e_held e' = e_held e /\ e_me e' = e_me e.

(** A descriptor that was just taken goes back to where it was. *)
Lemma untake_run i e f d :
  (i < NUM)%nat -> f !! i = Some true -> v_desc d !! i = Some desc0 ->
  free_desc i e (set_free (<[i := false]> f) d) = Ok tt (add_woken [ChDiskFree] e) (set_free f d).
Proof.
  intros Hi Hf Hz. rewrite free_desc_run; [|done|].
  - f_equal. cbn [v_free set_free v_desc].
    rewrite list_insert_insert_eq, (list_insert_id f i true) by done.
    change (v_desc (set_free (<[i:=false]> f) d)) with (v_desc d).
    rewrite (list_alter_id_at _ _ i desc0) by done. by destruct d.
  - cbn. rewrite list_lookup_insert, decide_True; [done|]. split; [done|]. by eapply lookup_lt_Some.
Qed.

Definition taken3 (i0 i1 i2 : nat) (f : list bool) : list bool := <[i2 := false]> (<[i1 := false]> (<[i0 := false]> f)).

Lemma still_free i k (f : list bool) : <[i := false]> f !! k = Some true -> k <> i /\ f !! k = Some true.
Proof. rewrite list_lookup_insert. case_decide; [done|]. destruct (decide (k = i)) as [->|]; [|done].
  intros Hl. apply lookup_lt_Some in Hl as ?. naive_solver. Qed.

(** alloc3_desc() gets three descriptors, or none and changes nothing. *)
Lemma alloc3_run e d :
  (forall i, v_free d !! i = Some true -> (i < NUM)%nat /\ v_desc d !! i = Some desc0) ->
  (exists i0 i1 i2, NoDup [i0; i1; i2] /\ Forall (fun i => v_free d !! i = Some true) [i0; i1; i2] /\
     alloc3_desc e d = Ok (Some [i0; i1; i2]) e (set_free (taken3 i0 i1 i2 (v_free d)) d)) \/
  (exists e', inside e e' /\ alloc3_desc e d = Ok None e' d).
Proof.
  intros Hz. unfold alloc3_desc. cbn [alloc3_loop]. rewrite bind_eq.
  destruct (alloc_desc_run e d) as [(i0 & F0 & R0)|R0]; rewrite R0; cbn [rbind]; [|right; by exists e].
  destruct (Hz _ F0) as [L0 Z0]. rewrite bind_eq.
  destruct (alloc_desc_run e (set_free (<[i0 := false]> (v_free d)) d)) as [(i1 & F1 & R1)|R1];
    rewrite R1; cbn [rbind app].
  2:{ right. cbn [free_descs]. rewrite !bind_eq, untake_run by done. cbn [rbind ret].
      rewrite set_free_same. eexists. split; [|done]. done. }
  cbn in F1. apply still_free in F1 as [N1 F1]. destruct (Hz _ F1) as [L1 Z1]. rewrite bind_eq.
  rewrite set_free_set in *. cbn [v_free set_free] in *.
  destruct (alloc_desc_run e (set_free (<[i1 := false]> (<[i0 := false]> (v_free d))) d)) as [(i2 & F2 & R2)|R2];
    rewrite R2; cbn [rbind app].
  - left. exists i0, i1, i2. cbn in F2. apply still_free in F2 as [N2 F2]. apply still_free in F2 as [N3 F2].
    split; [|split; [by repeat constructor|done]].
    repeat (apply NoDup_cons; split; [set_solver|]). apply NoDup_nil_2.
  - right. cbn [free_descs]. rewrite !bind_eq, list_insert_insert_ne by done.
    rewrite untake_run; [|done| |done]; [|by rewrite list_lookup_insert_ne]. cbn [rbind]. rewrite !bind_eq, untake_run by done.
    cbn [rbind ret]. rewrite set_free_same. eexists. split; [|done]. done.
Qed.

Lemma owned_alloc_ready d l i :
  shape d -> owned d l -> v_free d !! i = Some true -> (i < NUM)%nat /\ i ∉ all_descs l /\ v_desc d !! i = Some desc0.
Proof.
  intros Hs Ho Hf. assert (Hi : (i < NUM)%nat) by (rewrite <- (sh_free _ Hs); by eapply lookup_lt_Some).
  rewrite (ow_free _ _ Ho) in Hf by done. injection Hf as Hf. apply bool_decide_eq_true in Hf.
  split; [done|]. split; [done|]. by apply (ow_zero _ _ Ho).
Qed.

(** ** The phases of virtio_disk_rw() *)

Definition rw_finish (n b i0 : nat) : K vdisk unit :=
  rw_wait n b ;;;
  modv (fun d => set_info_b (<[i0 := None]> (v_info_b d)) d) ;;;
  free_chain i0 ;;;
  release LkVdisk.

Definition rw_submit (x : xfer) (idx : list nat) : K vdisk unit :=
  match idx with
  | [i0; i1; i2] =>
      rw_format (x_buf x) (x_block x) (x_write x) i0 i1 i2 ;;;
      modv (fun d => set_bdisk (<[x_buf x := true]> (v_bdisk d)) d) ;;;
      modv (fun d => set_info_b (<[i0 := Some (x_buf x)]> (v_info_b d)) d) ;;;
      modv (fun d => set_avail_ring (<[slot (v_avail_idx d) := i0]> (v_avail_ring d)) d) ;;;
      modv (fun d => set_avail_idx (u16 (v_avail_idx d + 1)) d) ;;;
      write_mmio VIRTIO_MMIO_QUEUE_NOTIFY 0 ;;;
      spin <- asks e_spin ;;
      rw_finish spin (x_buf x) i0
  | _ => panic "undefined: idx"
  end.

(** The disk when request [q] has just been made available. *)
Definition submitted (d : vdisk) (q : dreq) : vdisk :=
  mkVdisk
    (alter (fun _ => chain2 q) (q2 q) (alter (fun _ => chain1 q) (q1 q) (alter (fun _ => chain0 q) (q0 q) (v_desc d))))
    (u16 (v_avail_idx d + 1))
    (<[slot (v_avail_idx d) := q0 q]> (v_avail_ring d))
    (v_used_idx_dev d) (v_used_ring d)
    (taken3 (q0 q) (q1 q) (q2 q) (v_free d))
    (v_used_idx d)
    (<[q0 q := Some (q_b q)]> (v_info_b d))
    (<[q0 q := 0xff]> (v_info_status d))
    (<[q0 q := req_of (q_x q)]> (v_ops d))
    (<[q_b q := true]> (v_bdisk d))
    ((VIRTIO_MMIO_QUEUE_NOTIFY, u32 0) :: v_mmio d).

(** Waiting for descriptors, and waiting for the transfer. *)
Definition starting (t : thread) : Prop :=
  0 <= x_block (t_call t) < 2 ^ 31 /\
  exists n, forall e d, e_held e = [] ->
    t_go t e d = rbind (rw_alloc n (set_held [LkVdisk] e) d) (rw_submit (t_call t)).

Definition finishing (t : thread) (q : dreq) : Prop :=
  q_x q = t_call t /\
  exists n, forall e d, e_held e = [] ->
    t_go t e d = rw_finish n (q_b q) (q0 q) (set_held [LkVdisk] e) d.

(** How far a call gets before other threads run. *)
Inductive progress (d : vdisk) (x : xfer) : res vdisk unit -> Prop :=
| pr_spun : progress d x OutOfFuel
| pr_starting ch e k : starting (mkThread x k) -> progress d x (Sleep ch e d k)
| pr_submitted ch e k i0 i1 i2 :
    NoDup [i0; i1; i2] -> Forall (fun i => v_free d !! i = Some true) [i0; i1; i2] ->
    finishing (mkThread x k) (mkDreq i0 i1 i2 x) ->
    progress d x (Sleep ch e (submitted d (mkDreq i0 i1 i2 x)) k).

Lemma sleep_inside {S} ch e (s : S) :
  e_held e = [LkVdisk] -> KMonad.sleep ch LkVdisk e s = Sleep ch (set_held [] e) s (acquire LkVdisk).
Proof.
  intros He. unfold KMonad.sleep, holding. rewrite He.
  rewrite bool_decide_false by (rewrite list_elem_of_singleton; done).
  rewrite bool_decide_true by (by apply list_elem_of_singleton). cbn [negb]. by rewrite remove_lock_head.
Qed.

Lemma acquire_idle {S} e (s : S) : e_held e = [] -> acquire LkVdisk e s = Ok tt (set_held [LkVdisk] e) s.
Proof. intros He. rewrite acquire_eq by (rewrite He; set_solver). by rewrite He. Qed.

(** Waiting for the transfer of a buffer the device still has. *)
Lemma rw_finish_waits n b i0 e d :
  e_held e = [LkVdisk] -> v_bdisk d !! b = Some true ->
  rw_finish n b i0 e d = OutOfFuel \/
  exists k, rw_finish n b i0 e d = Sleep (ChBufIO b) (set_held [] e) d k /\
    exists m, forall e' d', e_held e' = [] -> k e' d' = rw_finish m b i0 (set_held [LkVdisk] e') d'.
Proof.
  intros He Hb. unfold rw_finish at 1 2. rewrite bind_eq.
  destruct n as [|n]; cbn [rw_wait]; rewrite bind_eq; cbn [getv gets rbind]; rewrite Hb; cbn [default from_option id]; [by left|right].
  rewrite bind_eq, sleep_inside by done. cbn [rbind]. eexists. split; [done|]. exists n. intros e' d' He'.
  cbn beta. by rewrite acquire_idle.
Qed.

Lemma rw_submit_run d d0 x i0 i1 i2 e :
  e_held e = [LkVdisk] -> (x_buf x < length (v_bdisk d))%nat ->
  NoDup [i0; i1; i2] -> Forall (fun i => v_free d !! i = Some true) [i0; i1; i2] ->
  d0 = set_free (taken3 i0 i1 i2 (v_free d)) d ->
  progress d x (rw_submit x [i0; i1; i2] e d0).
Proof.
  intros He Hb Hn Hf ->. unfold rw_submit, rw_format. repeat (rewrite bind_eq; cbn [modv modify upd_desc write_mmio rbind asks]).
  set (d' := set_vmmio _ _). assert (Hd : d' = submitted d (mkDreq i0 i1 i2 x)) by done.
  destruct (rw_finish_waits (e_spin e) (x_buf x) i0 e d' He) as [->|(k & -> & m & Hk)].
  - unfold d'. cbn. rewrite list_lookup_insert, decide_True; done.
  - constructor.
  - rewrite Hd. constructor; [done|done|]. split; [done|]. by exists m.
Qed.

Lemma rw_alloc_run n d l x e :
  shape d -> owned d l -> e_held e = [LkVdisk] -> 0 <= x_block x < 2 ^ 31 -> (x_buf x < length (v_bdisk d))%nat ->
  progress d x (rbind (rw_alloc n e d) (rw_submit x)).
Proof.
  intros Hs Ho. revert e. induction n as [|n IH]; intros e He Hx Hb; cbn [rw_alloc]; rewrite bind_eq;
    (destruct (alloc3_run e d) as [(i0 & i1 & i2 & Hn & Hf & ->)|(e' & [He' _] & ->)];
      [intros i Hi; by destruct (owned_alloc_ready d l i Hs Ho Hi) as (? & _ & ?)| |]); cbn [rbind ret].
  - by eapply rw_submit_run.
  - constructor.
  - by eapply rw_submit_run.
  - rewrite bind_eq, sleep_inside by congruence. cbn [rbind]. constructor. split; [done|]. exists n. intros e2 d2 He2.
    cbn [t_go]. by rewrite acquire_idle.
Qed.

(** ** Releasing the descriptors *)

Definition cleaned (d : vdisk) (q : dreq) : vdisk :=
  mkVdisk
    (alter (fun _ => desc0) (q2 q) (alter (fun _ => desc0) (q1 q) (alter (fun _ => desc0) (q0 q) (v_desc d))))
    (v_avail_idx d) (v_avail_ring d) (v_used_idx_dev d) (v_used_ring d)
    (<[q2 q := true]> (<[q1 q := true]> (<[q0 q := true]> (v_free d))))
    (v_used_idx d)
    (<[q0 q := None]> (v_info_b d))
    (v_info_status d) (v_ops d) (v_bdisk d) (v_mmio d).

Lemma NoDup_3 (i0 i1 i2 : nat) : NoDup [i0; i1; i2] <-> i0 <> i1 /\ i0 <> i2 /\ i1 <> i2.
Proof.
  rewrite !NoDup_cons, !not_elem_of_cons. split; [naive_solver|].
  intros (? & ? & ?). repeat split; auto using not_elem_of_nil. apply NoDup_nil_2.
Qed.

Lemma owned_cons d q l :
  owned d (q :: l) -> req_ok d q /\ NoDup (descs q) /\ (forall i, i ∈ descs q -> i ∉ all_descs l).
Proof.
  intros [Hr Hn _ _]. apply Forall_cons in Hr as [Hq _].
  change (all_descs (q :: l)) with (descs q ++ all_descs l) in Hn. apply NoDup_app in Hn as (H1 & H2 & _). done.
Qed.

Lemma owned_taken d l i : shape d -> owned d l -> i ∈ all_descs l -> v_free d !! i = Some false.
Proof.
  intros Hs Ho Hi. rewrite (ow_free _ _ Ho) by (by eapply owned_lt).
  by rewrite bool_decide_false by (intros H; by apply H).
Qed.

Lemma free_chain_run e d q l :
  shape d -> owned d (q :: l) ->
  exists e', inside e e' /\
    free_chain (q0 q) e (set_info_b (<[q0 q := None]> (v_info_b d)) d) = Ok tt e' (cleaned d q).
Proof.
  intros Hs Ho. destruct (owned_cons _ _ _ Ho) as ([H0 H1 H2 _ _ _] & Hn & _). apply NoDup_3 in Hn as (N1 & N2 & N3).
  assert (HL : forall i, i ∈ descs q -> (i < NUM)%nat /\ v_free d !! i = Some false).
  { intros i Hi. assert (i ∈ all_descs (q :: l)) by (apply elem_of_all_descs; exists q; set_solver).
    split; [by eapply owned_lt|by eapply owned_taken]. }
  destruct (HL (q0 q)) as [L0 F0]; [set_solver|]. destruct (HL (q1 q)) as [L1 F1]; [set_solver|].
  destruct (HL (q2 q)) as [L2 F2]; [set_solver|].
  unfold free_chain. change NUM with 8%nat at 1. cbn [free_chain_loop]. rewrite bind_eq. cbn [getv gets rbind v_desc set_info_b].
  rewrite (list_lookup_total_correct _ _ _ H0), bind_eq, free_desc_run by done. cbn [rbind chain0 d_flags d_next].
  change (negb (Z.land VRING_DESC_F_NEXT VRING_DESC_F_NEXT =? 0)) with true. cbn iota.
  rewrite bind_eq. cbn [getv gets rbind v_desc v_free set_free set_desc set_info_b].
  rewrite (list_lookup_total_correct _ _ (chain1 q)) by (by rewrite list_lookup_alter_ne).
  rewrite bind_eq, free_desc_run; [|done|cbn; by rewrite list_lookup_insert_ne]. cbn [rbind chain1 d_flags d_next].
  replace (negb (Z.land (data_flags (x_write (q_x q))) VRING_DESC_F_NEXT =? 0)) with true by (by destruct (x_write (q_x q))).
  rewrite bind_eq. cbn [getv gets rbind v_desc v_free set_free set_desc set_info_b].
  rewrite (list_lookup_total_correct _ _ (chain2 q)) by (by rewrite !list_lookup_alter_ne).
  rewrite bind_eq, free_desc_run; [|done|cbn; by rewrite !list_lookup_insert_ne]. cbn [rbind chain2 d_flags d_next].
  change (negb (Z.land VRING_DESC_F_WRITE VRING_DESC_F_NEXT =? 0)) with false. cbn iota. eexists. split; [|done]. done.
Qed.

(** The thread of a request that has completed returns. *)
Lemma rw_finish_done n e d q l :
  shape d -> owned d (q :: l) -> e_held e = [LkVdisk] -> v_bdisk d !! q_b q = Some false ->
  exists e', rw_finish n (q_b q) (q0 q) e d = Ok tt e' (cleaned d q).
Proof.
  intros Hs Ho He Hb. unfold rw_finish. rewrite bind_eq.
  assert (Hw : rw_wait n (q_b q) e d = Ok tt e d).
  { destruct n; cbn [rw_wait]; rewrite bind_eq; cbn [getv gets rbind]; by rewrite Hb. }
  rewrite Hw. cbn [rbind]. rewrite bind_eq. cbn [modv modify rbind].
  destruct (free_chain_run e d q l Hs Ho) as (e' & [He' _] & Hr). rewrite bind_eq, Hr. cbn [rbind].
  unfold release, holding. rewrite He', He, bool_decide_true by (by apply list_elem_of_singleton). eauto.
Qed.

(** ** Requests come and go *)

Lemma alter_const {A} (c : A) i (l : list A) : alter (fun _ => c) i l = <[i := c]> l.
Proof. revert i. induction l as [|y l IH]; intros [|i]; cbn; f_equal; done. Qed.

(** Three places of a list set. *)
Definition set3 {A} (i0 i1 i2 : nat) (c0 c1 c2 : A) (l : list A) : list A := <[i2 := c2]> (<[i1 := c1]> (<[i0 := c0]> l)).

Lemma set3_other {A} i0 i1 i2 (c0 c1 c2 : A) l i : i ∉ [i0; i1; i2] -> set3 i0 i1 i2 c0 c1 c2 l !! i = l !! i.
Proof. intros Hi. unfold set3. by rewrite !list_lookup_insert_ne by set_solver. Qed.

Lemma set3_at {A} i0 i1 i2 (c0 c1 c2 : A) l :
  NoDup [i0; i1; i2] -> (i0 < length l)%nat -> (i1 < length l)%nat -> (i2 < length l)%nat ->
  set3 i0 i1 i2 c0 c1 c2 l !! i0 = Some c0 /\ set3 i0 i1 i2 c0 c1 c2 l !! i1 = Some c1 /\
  set3 i0 i1 i2 c0 c1 c2 l !! i2 = Some c2.
Proof.
  intros Hn ? ? ?. apply NoDup_3 in Hn as (? & ? & ?). unfold set3.
  rewrite !list_lookup_insert, !length_insert. repeat case_decide; naive_solver.
Qed.

Lemma set3_same {A} i0 i1 i2 (c : A) l i :
  i ∈ [i0; i1; i2] -> (i < length l)%nat -> set3 i0 i1 i2 c c c l !! i = Some c.
Proof.
  intros Hi Hl. unfold set3. rewrite !list_lookup_insert, !length_insert.
  rewrite !elem_of_cons, elem_of_nil in Hi. destruct Hi as [->|[->|[->|[]]]]; repeat case_decide; tauto.
Qed.

Lemma length_set3 {A} i0 i1 i2 (c0 c1 c2 : A) l : length (set3 i0 i1 i2 c0 c1 c2 l) = length l.
Proof. unfold set3. by rewrite !length_insert. Qed.

Lemma submitted_desc d q :
  v_desc (submitted d q) = set3 (q0 q) (q1 q) (q2 q) (chain0 q) (chain1 q) (chain2 q) (v_desc d).
Proof. cbn. by rewrite !alter_const. Qed.

Lemma cleaned_desc d q : v_desc (cleaned d q) = set3 (q0 q) (q1 q) (q2 q) desc0 desc0 desc0 (v_desc d).
Proof. cbn. by rewrite !alter_const. Qed.

Lemma shape_submitted d q : shape d -> shape (submitted d q).
Proof.
  intros [H1 H2 H3 H4 H5 H6 H7]. split; rewrite ?submitted_desc, ?length_set3; cbn; unfold taken3; by rewrite ?length_insert.
Qed.

Lemma shape_cleaned d q : shape d -> shape (cleaned d q).
Proof. intros [H1 H2 H3 H4 H5 H6 H7]. split; rewrite ?cleaned_desc, ?length_set3; cbn; by rewrite ?length_insert. Qed.

Lemma not_in_descs d q l q' :
  shape d -> owned d l -> Forall (fun i => v_free d !! i = Some true) (descs q) -> q' ∈ l ->
  forall i, i ∈ descs q' -> i ∉ descs q.
Proof.
  intros Hs Ho Hf Hq' i Hi Hi'. rewrite Forall_forall in Hf. specialize (Hf i Hi').
  rewrite (owned_taken d l i Hs Ho) in Hf; [done|]. apply elem_of_all_descs. eauto.
Qed.

Lemma owned_submitted d q l :
  shape d -> owned d l -> NoDup (descs q) -> Forall (fun i => v_free d !! i = Some true) (descs q) ->
  0 <= x_block (q_x q) < 2 ^ 31 -> owned (submitted d q) (q :: l).
Proof.
  intros Hs Ho Hn Hf Hx. pose proof (not_in_descs d q l) as Hother.
  assert (HL : forall i, i ∈ descs q -> (i < NUM)%nat /\ i ∉ all_descs l).
  { intros i Hi. rewrite Forall_forall in Hf. by destruct (owned_alloc_ready d l i Hs Ho (Hf i Hi)) as (? & ? & _). }
  destruct (HL (q0 q)) as [L0 _]; [set_solver|]. destruct (HL (q1 q)) as [L1 _]; [set_solver|].
  destruct (HL (q2 q)) as [L2 _]; [set_solver|].
  destruct Hs as [S1 S2 S3 S4 S5 S6 S7] eqn:Es. clear Es. rewrite <- S1 in L0, L1, L2.
  split.
  - constructor.
    + destruct (set3_at (q0 q) (q1 q) (q2 q) (chain0 q) (chain1 q) (chain2 q) (v_desc d) Hn L0 L1 L2) as (E0 & E1 & E2).
      rewrite <- submitted_desc in E0, E1, E2. split; [done..| | |done];
        cbn; rewrite list_lookup_insert, decide_True; done || (split; [done|lia]).
    + apply Forall_forall. intros q' Hq'. pose proof (ow_req _ _ Ho) as Hr. rewrite Forall_forall in Hr.
      assert (Hd : forall i, i ∈ descs q' -> i ∉ descs q) by (by apply Hother).
      assert (q0 q' <> q0 q) by (intros E; apply (Hd (q0 q')); [set_solver|rewrite E; set_solver]).
      apply (req_ok_frame d); [by apply Hr| | |].
      * intros i Hi. rewrite submitted_desc, set3_other; [done|]. by apply Hd.
      * cbn. by rewrite list_lookup_insert_ne.
      * cbn. by rewrite list_lookup_insert_ne.
  - change (all_descs (q :: l)) with (descs q ++ all_descs l). apply NoDup_app. split; [done|].
    split; [|apply (ow_nodup _ _ Ho)]. intros i Hi. by apply HL.
  - intros i Hi. change (all_descs (q :: l)) with (descs q ++ all_descs l).
    change (v_free (submitted d q)) with (set3 (q0 q) (q1 q) (q2 q) false false false (v_free d)).
    destruct (decide (i ∈ descs q)) as [Hq|Hq].
    + rewrite set3_same by (done || lia). by rewrite bool_decide_false by set_solver.
    + rewrite set3_other by done. rewrite (ow_free _ _ Ho) by done. f_equal. apply bool_decide_ext. set_solver.
  - intros i Hi. change (all_descs (q :: l)) with (descs q ++ all_descs l). intros Hni.
    rewrite submitted_desc, set3_other by set_solver. apply (ow_zero _ _ Ho); set_solver.
Qed.

Lemma owned_cleaned d q l : shape d -> owned d (q :: l) -> owned (cleaned d q) l.
Proof.
  intros Hs Ho. destruct (owned_cons d q l Ho) as (_ & Hn & Hdis).
  assert (HL : forall i, i ∈ descs q -> (i < NUM)%nat).
  { intros i Hi. apply (owned_lt d (q :: l)); [done..|]. apply elem_of_all_descs. exists q. split; [by left|done]. }
  destruct Ho as [Hr HN Hf Hz]. apply Forall_cons in Hr as [_ Hr].
  change (all_descs (q :: l)) with (descs q ++ all_descs l) in *. split.
  - apply Forall_forall. intros q' Hq'. rewrite Forall_forall in Hr.
    assert (Hd : forall i, i ∈ descs q' -> i ∉ descs q).
    { intros i Hi Hi'. apply (Hdis i Hi'), elem_of_all_descs. eauto. }
    assert (q0 q' <> q0 q) by (intros E; apply (Hd (q0 q')); [set_solver|rewrite E; set_solver]).
    apply (req_ok_frame d); [by apply Hr| |done|].
    + intros i Hi. rewrite cleaned_desc, set3_other; [done|]. by apply Hd.
    + cbn. by rewrite list_lookup_insert_ne.
  - by apply NoDup_app in HN as (_ & _ & ?).
  - intros i Hi. change (v_free (cleaned d q)) with (set3 (q0 q) (q1 q) (q2 q) true true true (v_free d)).
    destruct (decide (i ∈ descs q)) as [Hq|Hq].
    + rewrite set3_same by (done || rewrite (sh_free _ Hs); done). by rewrite bool_decide_true by (by apply Hdis).
    + rewrite set3_other by done. rewrite Hf by done. f_equal. apply bool_decide_ext. set_solver.
  - intros i Hi Hni. rewrite cleaned_desc. destruct (decide (i ∈ descs q)) as [Hq|Hq].
    + apply set3_same; [done|]. by rewrite (sh_desc _ Hs).
    + rewrite set3_other by done. apply Hz; set_solver.
Qed.

(** ** Every step keeps the invariant *)

Lemma dinv_few d seen A T U D : dinv d seen A T U D -> (length (A ++ T ++ U ++ D) <= 2)%nat.
Proof. intros [Hs Ho _ _ _ _]. by eapply owned_few. Qed.

Lemma dinv_submitted d seen A T U D q :
  dinv d seen A T U D -> NoDup (descs q) -> Forall (fun i => v_free d !! i = Some true) (descs q) ->
  0 <= x_block (q_x q) < 2 ^ 31 -> (q_b q < length (v_bdisk d))%nat -> q_b q ∉ map q_b (A ++ T ++ U ++ D) ->
  dinv (submitted d q) seen (A ++ [q]) T U D.
Proof.
  intros Hi Hn Hf Hx Hb Hbn. pose proof (dinv_few _ _ _ _ _ _ Hi) as Hl. rewrite !length_app in Hl.
  destruct Hi as [Hs Ho H1 H2 H4 H5].
  assert (Hbd : forall q' v, q' ∈ A ++ T ++ U ++ D -> v_bdisk d !! q_b q' = Some v -> v_bdisk (submitted d q) !! q_b q' = Some v).
  { intros q' v Hq' Hv. cbn. rewrite list_lookup_insert_ne; [done|]. intros E. apply Hbn. rewrite E.
    by apply list_elem_of_fmap_2. }
  split; [by apply shape_submitted| | | | |].
  - eapply owned_perm; [|by eapply owned_submitted]. solve_Permutation.
  - rewrite Forall_forall in H1. apply (Forall_perm _ (q :: A ++ T ++ U)); [solve_Permutation|].
    constructor; [cbn; rewrite list_lookup_insert, decide_True; done|].
    apply Forall_forall. intros q' Hq'. apply Hbd; [set_solver|by apply H1].
  - rewrite Forall_forall in H2 |- *. intros q' Hq'. apply Hbd; [set_solver|by apply H2].
  - cbn. apply queued_push; [apply Hs|lia|done].
  - done.
Qed.

Lemma dinv_cleaned d seen A T U D1 q D2 :
  dinv d seen A T U (D1 ++ q :: D2) -> dinv (cleaned d q) seen A T U (D1 ++ D2).
Proof.
  intros [Hs Ho H1 H2 H4 H5]. split; [by apply shape_cleaned| |done| |done|done].
  - apply owned_cleaned; [done|]. eapply owned_perm; [|done]. solve_Permutation.
  - rewrite Forall_app, Forall_cons in H2. rewrite Forall_app. naive_solver.
Qed.

Lemma dinv_take d seen A T U D h :
  dinv d seen A T U D -> seen <> v_avail_idx d -> v_avail_ring d !! slot seen = Some h ->
  exists q A', A = q :: A' /\ h = q0 q /\ dinv d (u16 (seen + 1)) A' (q :: T) U D.
Proof.
  intros Hi Hne Hh. pose proof (dinv_few _ _ _ _ _ _ Hi) as Hl. rewrite !length_app in Hl.
  destruct Hi as [Hs Ho H1 H2 H4 H5]. destruct A as [|q A'].
  - destruct H4 as [Hr Hi _]. cbn in Hi. exfalso. apply Hne. rewrite Hi. unfold u16. zdm.
  - exists q, A'. apply queued_pop in H4 as (Hq & _ & H4); [|cbn in Hl; lia|apply Hs].
    split; [done|]. split; [congruence|]. split; try done.
    + eapply owned_perm; [|done]. solve_Permutation.
    + eapply Forall_perm; [|exact H1]. solve_Permutation.
Qed.

(** The disk when the device has completed request [q] with status [st]. *)
Definition completed (st : Z) (d : vdisk) (q : dreq) : vdisk :=
  set_used_dev (u16 (v_used_idx_dev d + 1))
    (set_used_ring (<[slot (v_used_idx_dev d) := q0 q]> (v_used_ring d))
       (set_info_status (<[q0 q := st]> (v_info_status d)) d)).

Lemma dinv_completed st d seen A T1 q T2 U D :
  dinv d seen A (T1 ++ q :: T2) U D -> dinv (completed st d q) seen A (T1 ++ T2) (U ++ [q]) D.
Proof.
  intros Hi. pose proof (dinv_few _ _ _ _ _ _ Hi) as Hl. rewrite !length_app in Hl.
  destruct Hi as [Hs Ho H1 H2 H4 H5].
  assert (Hp : A ++ (T1 ++ q :: T2) ++ U ++ D ≡ₚ A ++ (T1 ++ T2) ++ (U ++ [q]) ++ D).
  { solve_Permutation. }
  split; [| | |done|done|].
  - destruct Hs. split; cbn; rewrite ?length_insert; done.
  - eapply owned_perm; [done|]. destruct Ho as [Hr Hn Hf Hz]. split; try done.
    eapply Forall_impl; [exact Hr|]. intros q' Hq'. by apply (req_ok_frame d).
  - eapply Forall_perm; [|exact H1]. solve_Permutation.
  - cbn. apply queued_push; [apply Hs|lia|done].
Qed.

(** The disk when the interrupt handler has seen request [q]. *)
Definition served (d : vdisk) (q : dreq) : vdisk :=
  set_used_idx (u16 (v_used_idx d + 1)) (set_bdisk (<[q_b q := false]> (v_bdisk d)) d).

Lemma dinv_served d seen A T q U D :
  dinv d seen A T (q :: U) D -> NoDup (map q_b (A ++ T ++ (q :: U) ++ D)) ->
  dinv (served d q) seen A T U (q :: D).
Proof.
  intros Hi Hn. pose proof (dinv_few _ _ _ _ _ _ Hi) as Hl. rewrite !length_app in Hl. cbn in Hl.
  destruct Hi as [Hs Ho H1 H2 H4 H5].
  assert (Hq : v_bdisk (served d q) !! q_b q = Some false).
  { cbn. rewrite list_lookup_insert, decide_True; [done|]. split; [done|]. eapply lookup_lt_Some.
    rewrite Forall_forall in H1. apply H1. set_solver. }
  assert (Hbd : forall q' v, q' ∈ A ++ T ++ U ++ D -> v_bdisk d !! q_b q' = Some v -> v_bdisk (served d q) !! q_b q' = Some v).
  { intros q' v Hq' Hv. cbn. rewrite list_lookup_insert_ne; [done|]. intros E.
    assert (Hp : A ++ T ++ (q :: U) ++ D ≡ₚ q :: A ++ T ++ U ++ D) by solve_Permutation.
    apply (Permutation_map q_b) in Hp. rewrite Hp in Hn. cbn in Hn. apply NoDup_cons in Hn as [Hn _].
    apply Hn. rewrite E. by apply list_elem_of_fmap_2. }
  apply queued_pop in H5 as (_ & _ & H5); [|lia|apply Hs].
  split; [by destruct Hs| | | |done|done].
  - eapply owned_perm; [|destruct Ho as [Hr HN Hf Hz]; split; [|exact HN|exact Hf|exact Hz]]; [solve_Permutation|].
    eapply Forall_impl; [exact Hr|]. intros q' Hq'. by apply (req_ok_frame d).
  - rewrite Forall_forall in H1 |- *. intros q' Hq'. apply Hbd; [set_solver|apply H1; set_solver].
  - constructor; [done|]. rewrite Forall_forall in H2 |- *. intros q' Hq'. apply Hbd; [set_solver|by apply H2].
Qed.

(** The status the device has written for a request. *)
Definition status_ok (d : vdisk) (q : dreq) : Prop := v_info_status d !! q0 q = Some 0.
#[export] Instance status_ok_dec d q : Decision (status_ok d q).
Proof. unfold status_ok. apply _. Defined.

(** One iteration of the interrupt handler's loop. *)
Lemma intr_loop_step q U fuel e d seen A T D :
  dinv d seen A T (q :: U) D ->
  intr_loop (S fuel) e d =
    if decide (status_ok d q) then intr_loop fuel (add_woken [ChBufIO (q_b q)] e) (served d q)
    else Panic "virtio_disk_intr status".
Proof.
  intros Hi. cbn [intr_loop]. rewrite bind_eq. cbn [getv gets rbind].
  pose proof (dinv_few _ _ _ _ _ _ Hi) as Hl. rewrite !length_app in Hl. cbn in Hl.
  pose proof (iv_shape _ _ _ _ _ _ Hi) as Hs. pose proof (ow_req _ _ (iv_owned _ _ _ _ _ _ Hi)) as Hr.
  assert (HU : (length U <= 2)%nat) by lia.
  destruct (queued_pop _ _ _ _ _ HU (sh_used _ Hs) (iv_used _ _ _ _ _ _ Hi)) as (Hq & Hne & _).
  apply Z.eqb_neq in Hne. rewrite Hne. unfold slot in Hq. rewrite Hq.
  rewrite Forall_forall in Hr. rewrite (rq_info d q) by (apply Hr; set_solver).
  unfold status_ok. case_decide as Hst.
  - rewrite Hst. by repeat (rewrite bind_eq; cbn [modv modify wakeup rbind]).
  - assert (default 1 (v_info_status d !! q0 q) <> 0) as Hz%Z.eqb_neq; [|by rewrite Hz].
    destruct (v_info_status d !! q0 q); cbn; [congruence|lia].
Qed.

Lemma intr_loop_run U fuel e d seen A T D :
  dinv d seen A T U D -> NoDup (map q_b (A ++ T ++ U ++ D)) -> (length U <= fuel)%nat -> Forall (status_ok d) U ->
  exists e' d' D', intr_loop fuel e d = Ok tt e' d' /\ e_held e' = e_held e /\ D' ≡ₚ U ++ D /\
    dinv d' seen A T [] D' /\ length (v_bdisk d') = length (v_bdisk d).
Proof.
  revert fuel e d D. induction U as [|q U IH]; intros fuel e d D Hi Hn Hf Hst.
  - exists e, d, D. split; [|done]. assert (E : v_used_idx d = v_used_idx_dev d).
    { destruct Hi as [_ _ _ _ _ [Hr Hx _]]. cbn in Hx. rewrite Hx. unfold u16. zdm. }
    destruct fuel; cbn [intr_loop]; rewrite bind_eq; cbn [getv gets rbind]; by rewrite E, Z.eqb_refl.
  - destruct fuel as [|fuel]; [cbn in Hf; lia|]. apply Forall_cons in Hst as [Hq Hst].
    rewrite (intr_loop_step q U fuel e d seen A T D Hi), decide_True by done.
    destruct (IH fuel (add_woken [ChBufIO (q_b q)] e) (served d q) (q :: D)) as (e' & d' & D' & R & He & Hp & Hi' & Hb).
    + by apply dinv_served.
    + eapply NoDup_map_perm; [|done]. solve_Permutation.
    + cbn in Hf. lia.
    + exact Hst.
    + exists e', d', D'. split; [exact R|]. split; [done|]. split; [rewrite Hp; solve_Permutation|].
      split; [done|]. rewrite Hb. cbn. by rewrite length_insert.
Qed.

(** A failed transfer in the used ring makes the handler panic. *)
Lemma intr_loop_panic U fuel e d seen A T D :
  dinv d seen A T U D -> NoDup (map q_b (A ++ T ++ U ++ D)) -> (length U <= fuel)%nat -> ~ Forall (status_ok d) U ->
  intr_loop fuel e d = Panic "virtio_disk_intr status".
Proof.
  revert fuel e d D. induction U as [|q U IH]; intros fuel e d D Hi Hn Hf Hst; [by destruct Hst|].
  destruct fuel as [|fuel]; [cbn in Hf; lia|]. rewrite (intr_loop_step q U fuel e d seen A T D Hi).
  case_decide as Hq; [|done]. apply (IH _ _ _ (q :: D)).
  - by apply dinv_served.
  - eapply NoDup_map_perm; [|done]. solve_Permutation.
  - cbn in Hf. lia.
  - intros H. apply Hst. by constructor.
Qed.

(** The requests in the used ring that were performed, and those that failed. *)
Definition performed (d : vdisk) (U : list dreq) : list dreq := filter (status_ok d) U.
Definition failed (d : vdisk) (U : list dreq) : list dreq := filter (fun q => ~ status_ok d q) U.

Lemma performed_failed d U : performed d U ++ failed d U ≡ₚ U.
Proof. apply filter_app_complement. Qed.

Lemma failed_nil d U : failed d U = [] <-> Forall (status_ok d) U.
Proof.
  unfold failed. induction U as [|q U IH]; [done|]. rewrite filter_cons, Forall_cons, <- IH.
  case_decide; [split; [done|tauto]|]. split; [|tauto]. intros H'. split; [|done]. by destruct (decide (status_ok d q)).
Qed.

Lemma performed_all d U : Forall (status_ok d) U -> performed d U = U.
Proof. unfold performed. induction 1; [done|]. rewrite filter_cons, decide_True by done. by f_equal. Qed.

Lemma status_frame d d' U :
  (forall q, q ∈ U -> v_info_status d' !! q0 q = v_info_status d !! q0 q) ->
  performed d' U = performed d U /\ failed d' U = failed d U.
Proof.
  unfold performed, failed. induction U as [|q U IH]; intros H; [done|]. rewrite !filter_cons.
  destruct IH as [-> ->]; [intros; apply H; by right|]. specialize (H q (list_elem_of_here _ _)).
  assert (status_ok d' q <-> status_ok d q) by (unfold status_ok; by rewrite H). repeat case_decide; tauto.
Qed.

(** The device adds a request to those performed or to those that failed. *)
Lemma completed_status st d seen A T1 q T2 U D :
  dinv d seen A (T1 ++ q :: T2) U D ->
  performed (completed st d q) (U ++ [q]) = performed d U ++ (if st =? 0 then [q] else []) /\
  failed (completed st d q) (U ++ [q]) = failed d U ++ (if st =? 0 then [] else [q]).
Proof.
  intros [Hs Ho _ _ _ _]. apply (owned_perm _ _ (q :: A ++ T1 ++ T2 ++ U ++ D)) in Ho; [|solve_Permutation].
  destruct (owned_cons _ _ _ Ho) as (_ & _ & Hdis).
  assert (L0 : (q0 q < NUM)%nat) by (eapply owned_lt; [done..|]; apply elem_of_all_descs; exists q; split; by left).
  destruct (status_frame d (completed st d q) U) as [E1 E2].
  { intros q' Hq'. cbn. rewrite list_lookup_insert_ne; [done|]. intros Eq. apply (Hdis (q0 q)); [by left|].
    apply elem_of_all_descs. exists q'. split; [set_solver|rewrite Eq; by left]. }
  assert (Hq : status_ok (completed st d q) q <-> st = 0).
  { unfold status_ok. cbn. rewrite list_lookup_insert_eq by (by rewrite (sh_status _ Hs)). naive_solver. }
  unfold performed, failed in *. rewrite !filter_app, E1, E2, !filter_cons, !filter_nil.
  destruct (Z.eqb_spec st 0); repeat case_decide; try tauto; done.
Qed.

(** ** The invariant of the system *)

Definition t_buf (t : thread) : nat := x_buf (t_call t).

(** [ts] are the threads waiting for descriptors, [fs] those that wait for
    their transfers. *)
Record sinv (y : dsys) (A T U D : list dreq) (ts fs : list thread) : Prop := {
  si_disk : dinv (y_disk y) (y_seen y) A T U D;
  si_taken : y_taken y = map q0 T;
  si_threads : y_threads y ≡ₚ ts ++ fs;
  si_starting : Forall starting ts;
  si_finishing : Forall (fun t => exists q, q ∈ A ++ T ++ U ++ D /\ finishing t q) fs;
  si_reqs : map t_call fs ≡ₚ map q_x (A ++ T ++ U ++ D);
  si_bufs : NoDup (map t_buf (y_threads y));
  si_range : Forall (fun t => (t_buf t < length (v_bdisk (y_disk y)))%nat) (y_threads y);
  si_calls : y_calls y ≡ₚ y_returned y ++ map t_call (y_threads y);
  si_done : y_done y ≡ₚ y_returned y ++ map q_x (performed (y_disk y) U ++ D);
  si_errors : y_errors y ≡ₚ map q_x (failed (y_disk y) U);
  si_fault : y_fault y = None \/ y_fault y = Some "virtio_disk_intr status" /\ failed (y_disk y) U <> []
}.

Lemma bufs_of_calls fs l : map t_call fs ≡ₚ map q_x l -> map t_buf fs ≡ₚ map q_b l.
Proof. intros Hp. apply (Permutation_map x_buf) in Hp. by rewrite !map_map in Hp. Qed.

Lemma sinv_bufs y A T U D ts fs : sinv y A T U D ts fs -> NoDup (map q_b (A ++ T ++ U ++ D)).
Proof.
  intros Hi. pose proof (si_bufs _ _ _ _ _ _ _ Hi) as Hn. eapply NoDup_map_perm in Hn; [|apply Hi].
  rewrite map_app in Hn. apply NoDup_app in Hn as (_ & _ & Hn).
  by rewrite (bufs_of_calls fs _ (si_reqs _ _ _ _ _ _ _ Hi)) in Hn.
Qed.

(** A call that has got as far as [progress] says leaves the invariant; the
    thread is new in the table. *)
Lemma sinv_progress y A T U D ts fs x r y' c :
  sinv y A T U D ts fs -> c ≡ₚ x :: y_calls y ->
  0 <= x_block x < 2 ^ 31 -> (x_buf x < length (v_bdisk (y_disk y)))%nat ->
  x_buf x ∉ map t_buf (y_threads y) -> progress (y_disk y) x r -> outcome x r (with_calls c y) = Some y' ->
  exists A' ts' fs', sinv y' A' T U D ts' fs'.
Proof.
  intros Hi Hc Hx Hb Hn Hp Hy.
  inversion Hp as [E|ch e k Hk E|ch e k i0 i1 i2 Hnd Hf Hk E]; subst r; [done|injection Hy as <-..].
  - exists A, (mkThread x k :: ts), fs. destruct Hi. split; cbn; try done.
    + rewrite si_threads0. done.
    + by constructor.
    + by apply NoDup_cons.
    + by constructor.
    + rewrite Hc, si_calls0. solve_Permutation.
  - set (q := mkDreq i0 i1 i2 x) in *. exists (A ++ [q]), ts, (mkThread x k :: fs).
    assert (Hq : q_b q ∉ map q_b (A ++ T ++ U ++ D)).
    { intros Hin. apply Hn. rewrite (Permutation_map t_buf (si_threads _ _ _ _ _ _ _ Hi)), map_app.
      apply elem_of_app. right. by rewrite (bufs_of_calls fs _ (si_reqs _ _ _ _ _ _ _ Hi)). }
    assert (Hst : performed (submitted (y_disk y) q) U = performed (y_disk y) U /\ failed (submitted (y_disk y) q) U = failed (y_disk y) U).
    { apply status_frame. intros q' Hq'. cbn [submitted v_info_status]. rewrite list_lookup_insert_ne; [done|].
      intros Eq. eapply (not_in_descs (y_disk y) q _ q' (iv_shape _ _ _ _ _ _ (si_disk _ _ _ _ _ _ _ Hi))
        (iv_owned _ _ _ _ _ _ (si_disk _ _ _ _ _ _ _ Hi)) Hf); [|by left|rewrite <- Eq; by left]. set_solver. }
    destruct Hst as [Hst1 Hst2]. destruct Hi. split; cbn [outcome with_threads with_disk with_calls y_disk y_seen y_taken y_threads y_calls y_done y_errors y_returned y_fault]; rewrite ?Hst1, ?Hst2; try done.
    + by apply dinv_submitted.
    + rewrite si_threads0. solve_Permutation.
    + constructor; [exists q; split; [set_solver|done]|]. eapply Forall_impl; [done|].
      intros t (q' & Hq' & Ht). exists q'. split; [set_solver|done].
    + cbn. rewrite si_reqs0, !map_app. cbn. solve_Permutation.
    + cbn. by apply NoDup_cons.
    + cbn. rewrite length_insert. by constructor.
    + cbn. rewrite Hc, si_calls0. solve_Permutation.
Qed.

(** A thread waiting for descriptors goes on. *)
Lemma sinv_resume_starting y A T U D a t b fs l1 l2 e y' :
  sinv y A T U D (a ++ t :: b) fs -> y_threads y = l1 ++ t :: l2 -> e_held e = [] ->
  outcome (t_call t) (t_go t e (y_disk y)) (with_threads (l1 ++ l2) y) = Some y' ->
  exists A' ts' fs', sinv y' A' T U D ts' fs'.
Proof.
  intros Hi Hl He Hy. set (y0 := with_threads (l1 ++ l2) (with_calls (y_returned y ++ map t_call (l1 ++ l2)) y)).
  assert (Hm : l1 ++ t :: l2 ≡ₚ t :: l1 ++ l2) by solve_Permutation.
  destruct Hi. rewrite Hl in *. apply Forall_app in si_starting0 as [S1 S2]. apply Forall_cons in S2 as [[Hx [n Ht]] S2].
  eapply NoDup_map_perm in si_bufs0; [|exact Hm]. apply NoDup_cons in si_bufs0 as [Hn1 Hn2].
  eapply Forall_perm in si_range0; [|exact Hm]. apply Forall_cons in si_range0 as [Hr1 Hr2].
  assert (Hi0 : sinv y0 A T U D (a ++ b) fs).
  { split; cbn; try done; [|by apply Forall_app]. apply (Permutation_cons_inv (a := t)). rewrite <- Hm, si_threads0.
    solve_Permutation. }
  eapply (sinv_progress y0 A T U D (a ++ b) fs (t_call t) _ _ (y_calls y) Hi0); [|done..| |exact Hy].
  - cbn. rewrite si_calls0, (Permutation_map t_call Hm). cbn. solve_Permutation.
  - rewrite Ht by done. eapply rw_alloc_run; [apply si_disk0|apply si_disk0|done..].
Qed.

(** A thread whose transfer is not done waits again. *)
Lemma sinv_resume_waiting y A T U D ts a t b q l1 l2 e y' :
  sinv y A T U D ts (a ++ t :: b) -> y_threads y = l1 ++ t :: l2 -> e_held e = [] ->
  q ∈ A ++ T ++ U -> finishing t q ->
  outcome (t_call t) (t_go t e (y_disk y)) (with_threads (l1 ++ l2) y) = Some y' ->
  exists fs', sinv y' A T U D ts fs'.
Proof.
  intros Hi Hl He Hq Hf Hy. pose proof Hf as [Hc [n Ht]]. rewrite Ht in Hy by done.
  destruct Hi. rewrite Hl in *. pose proof (iv_busy _ _ _ _ _ _ si_disk0) as Hb. rewrite Forall_forall in Hb.
  destruct (rw_finish_waits n (q_b q) (q0 q) (set_held [LkVdisk] e) (y_disk y) eq_refl (Hb q Hq)) as [R|(k & R & m & Hk)];
    rewrite R in Hy; [done|]. injection Hy as <-.
  assert (Hm : l1 ++ t :: l2 ≡ₚ t :: l1 ++ l2) by solve_Permutation.
  exists (a ++ mkThread (t_call t) k :: b). split; cbn; try done.
  - rewrite Hm in si_threads0. assert (Hp : t :: l1 ++ l2 ≡ₚ t :: ts ++ a ++ b) by (rewrite si_threads0; solve_Permutation).
    apply Permutation_cons_inv in Hp. rewrite Hp. solve_Permutation.
  - rewrite Forall_app, Forall_cons in si_finishing0 |- *. destruct si_finishing0 as (F1 & _ & F2). split_and!; [done| |done].
    exists q. split; [set_solver|]. split; [done|]. by exists m.
  - by rewrite map_app in si_reqs0 |- *.
  - by eapply NoDup_map_perm in si_bufs0; [|exact Hm].
  - eapply Forall_perm in si_range0; [|exact Hm]. apply Forall_cons in si_range0 as [? ?]. by constructor.
  - by rewrite si_calls0, (Permutation_map t_call Hm).
Qed.

(** A thread whose transfer is done returns. *)
Lemma sinv_resume_done y A T U D1 q D2 ts a t b l1 l2 e y' :
  sinv y A T U (D1 ++ q :: D2) ts (a ++ t :: b) -> y_threads y = l1 ++ t :: l2 -> e_held e = [] ->
  finishing t q ->
  outcome (t_call t) (t_go t e (y_disk y)) (with_threads (l1 ++ l2) y) = Some y' ->
  sinv y' A T U (D1 ++ D2) ts (a ++ b).
Proof.
  intros Hi Hl He [Hc [n Ht]] Hy. rewrite Ht in Hy by done. pose proof (sinv_bufs _ _ _ _ _ _ _ Hi) as Hn.
  destruct Hi. rewrite Hl in *.
  assert (Hm : l1 ++ t :: l2 ≡ₚ t :: l1 ++ l2) by solve_Permutation.
  assert (Hall : A ++ T ++ U ++ D1 ++ q :: D2 ≡ₚ q :: A ++ T ++ U ++ D1 ++ D2) by solve_Permutation.
  destruct (rw_finish_done n (set_held [LkVdisk] e) (y_disk y) q (A ++ T ++ U ++ D1 ++ D2)) as [e' R].
  { apply si_disk0. }
  { eapply owned_perm; [exact Hall|apply si_disk0]. }
  { done. }
  { pose proof (iv_idle _ _ _ _ _ _ si_disk0) as Hb. rewrite Forall_app, Forall_cons in Hb. naive_solver. }
  rewrite R in Hy. injection Hy as <-. split; cbn; try done.
  - by apply dinv_cleaned.
  - apply (Permutation_cons_inv (a := t)). rewrite <- Hm, si_threads0. solve_Permutation.
  - rewrite Forall_app, Forall_cons in si_finishing0. destruct si_finishing0 as (F1 & _ & F2).
    assert (Hb : t_buf t ∉ map t_buf (a ++ b)).
    { eapply NoDup_map_perm in si_bufs0; [|exact si_threads0]. rewrite map_app in si_bufs0.
      apply NoDup_app in si_bufs0 as (_ & _ & Hnf). eapply (NoDup_map_perm _ _ (t :: a ++ b)) in Hnf; [|solve_Permutation].
      by apply NoDup_cons in Hnf as [? _]. }
    apply Forall_forall. intros t' Ht'. assert (Hex : exists q', q' ∈ A ++ T ++ U ++ D1 ++ q :: D2 /\ finishing t' q').
    { rewrite Forall_forall in F1, F2. apply elem_of_app in Ht' as [?|?]; auto. }
    destruct Hex as (q' & Hq' & Hfq). exists q'. split; [|done]. rewrite Hall in Hq'.
    apply elem_of_cons in Hq' as [->|?]; [|done]. exfalso. apply Hb. unfold t_buf at 1. rewrite <- Hc. destruct Hfq as [-> _].
    change (x_buf (t_call t')) with (t_buf t'). by apply list_elem_of_fmap_2.
  - apply (Permutation_cons_inv (a := t_call t)). rewrite (Permutation_map q_x Hall) in si_reqs0. cbn in si_reqs0.
    rewrite Hc in si_reqs0. rewrite <- si_reqs0, !map_app. cbn. solve_Permutation.
  - eapply NoDup_map_perm in si_bufs0; [|exact Hm]. by apply NoDup_cons in si_bufs0 as [_ ?].
  - eapply Forall_perm in si_range0; [|exact Hm]. by apply Forall_cons in si_range0 as [_ ?].
  - rewrite si_calls0, (Permutation_map t_call Hm). cbn. solve_Permutation.
  - rewrite si_done0, !map_app. cbn. rewrite Hc. solve_Permutation.
Qed.

Lemma sinv_resume y A T U D ts fs l1 t l2 e y' :
  sinv y A T U D ts fs -> y_threads y = l1 ++ t :: l2 -> e_held e = [] ->
  outcome (t_call t) (t_go t e (y_disk y)) (with_threads (l1 ++ l2) y) = Some y' ->
  exists A' D' ts' fs', sinv y' A' T U D' ts' fs'.
Proof.
  intros Hi Hl He Hy. assert (Hin : t ∈ ts ++ fs).
  { rewrite <- (si_threads _ _ _ _ _ _ _ Hi), Hl. set_solver. }
  apply elem_of_app in Hin as [Hin|Hin]; apply list_elem_of_split in Hin as (a & b & ->).
  - destruct (sinv_resume_starting _ _ _ _ _ _ _ _ _ _ _ _ _ Hi Hl He Hy) as (? & ? & ? & ?). eauto 10.
  - pose proof (si_finishing _ _ _ _ _ _ _ Hi) as Hf. rewrite Forall_app, Forall_cons in Hf.
    destruct Hf as (_ & (q & Hq & Hfq) & _). rewrite !(assoc app) in Hq. apply elem_of_app in Hq as [Hq|Hq].
    + rewrite <- (assoc app) in Hq.
      destruct (sinv_resume_waiting _ _ _ _ _ _ _ _ _ _ _ _ _ _ Hi Hl He Hq Hfq Hy) as [? ?]. eauto 10.
    + apply list_elem_of_split in Hq as (D1 & D2 & ->).
      pose proof (sinv_resume_done _ _ _ _ _ _ _ _ _ _ _ _ _ _ _ Hi Hl He Hfq Hy). eauto 10.
Qed.

(** The interrupt handler panics exactly when a failed transfer is in the
    used ring. *)
Lemma intr_run mmio_in y A T U D ts fs e :
  sinv y A T U D ts fs -> e_held e = [] ->
  if decide (failed (y_disk y) U = []) then
    exists e' d' D', virtio_disk_intr mmio_in e (y_disk y) = Ok tt e' d' /\ D' ≡ₚ U ++ D /\
      dinv d' (y_seen y) A T [] D' /\ length (v_bdisk d') = length (v_bdisk (y_disk y))
  else virtio_disk_intr mmio_in e (y_disk y) = Panic "virtio_disk_intr status".
Proof.
  intros Hi He. pose proof (sinv_bufs _ _ _ _ _ _ _ Hi) as Hn. unfold virtio_disk_intr.
  rewrite bind_eq, acquire_idle by done. cbn [rbind]. rewrite bind_eq. cbn [write_mmio modv modify rbind]. rewrite bind_eq.
  set (d := set_vmmio _ _). assert (Hd : dinv d (y_seen y) A T U D).
  { destruct (si_disk _ _ _ _ _ _ _ Hi) as [[] [Hr HN Hf Hz] H1 H2 H4 H5]. split; try done. split; try done.
    eapply Forall_impl; [exact Hr|]. intros q Hq. by apply (req_ok_frame (y_disk y)). }
  assert (Hl : (length U <= Z.to_nat (2 ^ 16))%nat).
  { pose proof (dinv_few _ _ _ _ _ _ Hd) as Hl. rewrite !length_app in Hl. lia. }
  case_decide as Hst; rewrite failed_nil in Hst.
  - destruct (intr_loop_run U (Z.to_nat (2 ^ 16)) (set_held [LkVdisk] e) d (y_seen y) A T D Hd Hn Hl Hst)
      as (e' & d' & D' & R & He' & Hp & Hi' & Hb).
    rewrite R. cbn [rbind]. unfold release, holding. rewrite He'.
    rewrite bool_decide_true by (by apply list_elem_of_singleton). by eexists _, d', D'.
  - by rewrite (intr_loop_panic U _ _ d (y_seen y) A T D Hd Hn Hl Hst).
Qed.

Lemma sinv_intr mmio_in y A T U D ts fs e :
  sinv y A T U D ts fs -> e_held e = [] ->
  exists U' D', sinv (intr_outcome (virtio_disk_intr mmio_in e (y_disk y)) y) A T U' D' ts fs.
Proof.
  intros Hi He. pose proof (intr_run mmio_in _ _ _ _ _ _ _ e Hi He) as Hr. case_decide as Hst.
  - destruct Hr as (e' & d' & D' & -> & Hp & Hi' & Hb). exists [], D'. cbn [intr_outcome].
    assert (Hall : A ++ T ++ U ++ D ≡ₚ A ++ T ++ [] ++ D') by (rewrite Hp; solve_Permutation).
    pose proof (proj1 (failed_nil _ _) Hst) as Hok. pose proof (performed_all _ _ Hok) as Hperf.
    destruct Hi. rewrite Hst, Hperf in *.
    split; cbn [y_disk y_seen y_taken y_threads y_calls y_returned y_done y_errors y_fault with_disk]; try done.
    + eapply Forall_impl; [done|]. intros t (q & Hq & Hf). exists q. split; [|done]. by rewrite <- Hall.
    + by rewrite si_reqs0, (Permutation_map q_x Hall).
    + by rewrite Hb.
    + by rewrite si_done0, (Permutation_map q_x Hp).
  - rewrite Hr. exists U, D. destruct Hi. split; try done. by right.
Qed.

Lemma sinv_device y y' A T U D ts fs :
  sinv y A T U D ts fs -> device_step y y' -> exists A' T' U', sinv y' A' T' U' D ts fs.
Proof.
  intros Hi Hs. destruct Hi. inversion Hs as [y0 h Hne Hh|y0 l1 h l2 x j st d Hb Ht Hdec ->|y0 h Hin Hdec]; subst y0 y'.
  - destruct (dinv_take _ _ _ _ _ _ _ si_disk0 Hne Hh) as (q & A' & -> & -> & Hd). exists A', (q :: T), U.
    assert (Hall : (q :: A') ++ T ++ U ++ D ≡ₚ A' ++ (q :: T) ++ U ++ D) by solve_Permutation.
    split; cbn; try done.
    + by rewrite si_taken0.
    + eapply Forall_impl; [done|]. intros t (q' & Hq' & Hf). exists q'. split; [|done]. by rewrite <- Hall.
    + by rewrite si_reqs0, (Permutation_map q_x Hall).
  - rewrite si_taken0 in Ht. apply map_eq_app in Ht as (T1 & T3 & -> & <- & Ht).
    apply map_eq_cons in Ht as (q & T2 & -> & <- & <-).
    assert (Hq : req_ok (y_disk y) q).
    { pose proof (ow_req _ _ (iv_owned _ _ _ _ _ _ si_disk0)) as Hr. rewrite Forall_forall in Hr. apply Hr. set_solver. }
    rewrite (decode_req _ _ Hq) in Hdec. injection Hdec as <- <-. exists A, (T1 ++ T2), (U ++ [q]).
    assert (Hall : A ++ (T1 ++ q :: T2) ++ U ++ D ≡ₚ A ++ (T1 ++ T2) ++ (U ++ [q]) ++ D) by solve_Permutation.
    destruct (completed_status st _ _ _ _ _ _ _ _ si_disk0) as [E1 E2].
    split; cbn [y_disk y_seen y_taken y_threads y_calls y_returned y_done y_errors y_fault];
      fold (completed st (y_disk y) q); rewrite ?E1, ?E2; try done.
    + by apply dinv_completed.
    + by rewrite map_app.
    + eapply Forall_impl; [done|]. intros t (q' & Hq' & Hf). exists q'. split; [|done]. by rewrite <- Hall.
    + by rewrite si_reqs0, (Permutation_map q_x Hall).
    + rewrite !map_app in *. destruct (st =? 0); rewrite si_done0; cbn; rewrite ?app_nil_r; solve_Permutation.
    + rewrite !map_app. destruct (st =? 0); rewrite si_errors0; cbn; rewrite ?app_nil_r; solve_Permutation.
    + destruct si_fault0 as [?|[? Hne]]; [by left|right]. split; [done|]. by intros [? _]%app_eq_nil.
  - exfalso. rewrite si_taken0 in Hin. apply list_elem_of_fmap in Hin as (q & -> & Hq).
    pose proof (ow_req _ _ (iv_owned _ _ _ _ _ _ si_disk0)) as Hr. rewrite Forall_forall in Hr.
    rewrite (decode_req (y_disk y) q) in Hdec; [done|]. apply Hr. set_solver.
Qed.

(** ** Initialisation *)

(** The driver's state up to the log of register writes. *)
Definition unlogged (d : vdisk) : vdisk := set_vmmio [] d.

Lemma unlogged_free f d : unlogged (set_free f d) = set_free f (unlogged d).
Proof. done. Qed.

Lemma log_ok r v e s a e' s' : vd (write_mmio r v) e s = Ok a e' s' -> unlogged (vs_disk s') = unlogged (vs_disk s).
Proof. intros E. inversion E. by subst. Qed.

Lemma vd_modv_ok g e s a e' s' : vd (modv g) e s = Ok a e' s' -> vs_disk s' = g (vs_disk s).
Proof. intros E. inversion E. by subst. Qed.

Lemma vk_disk {A} (m : K kmem A) e s a e' s' : vk m e s = Ok a e' s' -> vs_disk s' = vs_disk s.
Proof. unfold vk, zoom. destruct (m e (vs_kmem s)); intros E; inversion E; by subst. Qed.

Lemma queue_pages_disk e s r e' s' :
  queue_pages e s = Ok r e' s' ->
  vs_disk s' = set_used_dev 0 (set_used_ring (replicate NUM 0%nat)
                 (set_avail_idx 0 (set_avail_ring (replicate NUM 0%nat) (set_desc (replicate NUM desc0) (vs_disk s))))).
Proof.
  unfold queue_pages. intros H.
  apply bind_ok in H as (p1 & e1 & s1 & H1 & H). apply vk_disk in H1.
  apply bind_ok in H as (p2 & e2 & s2 & H2 & H). apply vk_disk in H2.
  apply bind_ok in H as (p3 & e3 & s3 & H3 & H). apply vk_disk in H3.
  destruct ((p1 =? 0) || (p2 =? 0) || (p3 =? 0)); [done|].
  apply bind_ok in H as (? & e4 & s4 & H4 & H). apply vk_disk in H4.
  apply bind_ok in H as (? & e5 & s5 & H5 & H). apply vk_disk in H5.
  apply bind_ok in H as (? & e6 & s6 & H6 & H). apply vk_disk in H6.
  cbn in H. inversion H. subst. cbn. by rewrite H6, H5, H4, H3, H2, H1.
Qed.

(** What virtio_disk_init() sets up. *)
Definition inited (d : vdisk) : vdisk :=
  set_free (replicate NUM true) (set_used_dev 0 (set_used_ring (replicate NUM 0%nat)
    (set_avail_idx 0 (set_avail_ring (replicate NUM 0%nat) (set_desc (replicate NUM desc0) d))))).

Ltac past_log H :=
  let Hl := fresh in apply bind_ok in H as (? & ? & ? & Hl & H); apply log_ok in Hl.

Lemma virtio_disk_init_disk mmio_in status e s e' s' :
  virtio_disk_init mmio_in status e s = Ok tt e' s' -> unlogged (vs_disk s') = inited (unlogged (vs_disk s)).
Proof.
  unfold virtio_disk_init. intros H. repeat case_match; try done. do 6 past_log H.
  apply bind_ok in H as ([[pd pa] pu] & e1 & s1 & Hq & H). apply queue_pages_disk in Hq. do 8 past_log H.
  apply bind_ok in H as (? & ? & ? & Hf & H). apply vd_modv_ok in Hf. apply log_ok in H. rewrite H, Hf.
  transitivity (set_free (replicate NUM true) (unlogged (vs_disk s1))); [rewrite unlogged_free; f_equal; congruence|].
  rewrite Hq. match goal with |- context [set_desc _ (vs_disk ?s2)] =>
    replace (unlogged (vs_disk s)) with (unlogged (vs_disk s2)) by congruence end. done.
Qed.

Lemma dinv_booted mmio_in status e s e' s' :
  booted (vs_disk s) -> virtio_disk_init mmio_in status e s = Ok tt e' s' -> dinv (vs_disk s') 0 [] [] [] [].
Proof.
  intros Hb H. apply virtio_disk_init_disk in H. destruct (vs_disk s'), (vs_disk s), Hb as [B1 B2 B3 B4].
  cbn in B1, B2, B3, B4. subst. cbv -[replicate NUM desc0 req0] in H.
  injection H as -> -> -> -> -> -> -> -> -> -> _.
  split; try by constructor. split; [constructor|constructor| |].
  - intros i Hi. apply (lookup_replicate_2 NUM true i Hi).
  - intros i Hi _. apply (lookup_replicate_2 NUM desc0 i Hi).
Qed.

Lemma errors_nil y A T U D ts fs : sinv y A T U D ts fs -> y_errors y = [] <-> failed (y_disk y) U = [].
Proof.
  intros Hi. pose proof (si_errors _ _ _ _ _ _ _ Hi) as He. split; intros E; rewrite E in He.
  - apply Permutation_nil_l in He. symmetry in He. by apply map_eq_nil in He.
  - by apply Permutation_nil_r in He.
Qed.

Section system_thms.
Variable mmio_in : Z -> Z.
Variable device : dsys -> dsys -> Prop.
Hypothesis device_virtio : forall y y', device y y' -> device_step y y'.

Lemma reachable_sinv y : reachable mmio_in device y -> exists A T U D ts fs, sinv y A T U D ts fs.
Proof using device_virtio.
  induction 1 as [status e s e' s' Hb Hr|y y' _ (A & T & U & D & ts & fs & Hi) _ Hs].
  - exists [], [], [], [], [], []. split; try by constructor. by eapply dinv_booted.
  - inversion Hs as [y0 y1 x e He Hx Hb Hn Hy|y0 y1 l1 t l2 e He Hl Hy|y0 e He|y0 y1 Hd]; subst.
    + assert (Hp : progress (y_disk y) x (virtio_disk_rw (x_buf x) (x_block x) (x_write x) e (y_disk y))).
      { unfold virtio_disk_rw. rewrite bind_eq, acquire_idle by done. cbn [rbind]. rewrite bind_eq. cbn [rbind asks].
        rewrite bind_eq. destruct Hi. eapply (rw_alloc_run (e_spin e)); [apply si_disk0|apply si_disk0|done..]. }
      destruct (sinv_progress y A T U D ts fs x _ y' (x :: y_calls y) Hi (Permutation_refl _) Hx Hb Hn Hp Hy) as (? & ? & ? & ?). eauto 10.
    + destruct (sinv_resume _ _ _ _ _ _ _ _ _ _ _ _ Hi Hl He Hy) as (? & ? & ? & ? & ?). eauto 10.
    + destruct (sinv_intr mmio_in _ _ _ _ _ _ _ e Hi He) as (? & ? & ?). eauto 10.
    + destruct (sinv_device _ _ _ _ _ _ _ _ Hi (device_virtio _ _ Hd)) as (? & ? & ? & ?). eauto 10.
Qed.

(** C4: the disk driver is correct under any interleaving of the threads that
    call it, of its interrupt handler and of a device that follows the virtio
    protocol and may fail transfers.  From virtio_disk_init() on, the device
    never meets a chain of descriptors it cannot decode.  It performs, or
    reports as failed, only transfers that were asked for (the block, the
    buffer and the direction), each as often as asked for; and when a call of
    virtio_disk_rw() returns, its transfer has been performed.  The interrupt
    handler returns if the device has reported no error, and otherwise panics
    with "virtio_disk_intr status"; this is the only way the machine can stop.
    When no call is under way, every descriptor is free. *)
Theorem disk_driver_correct y :
  reachable mmio_in device y ->
  (y_fault y = None \/ y_fault y = Some "virtio_disk_intr status" /\ y_errors y <> []) /\
  y_returned y ⊆+ y_done y /\ y_done y ++ y_errors y ⊆+ y_calls y /\
  (forall e, e_held e = [] ->
     if decide (y_errors y = []) then exists e' d', virtio_disk_intr mmio_in e (y_disk y) = Ok tt e' d'
     else virtio_disk_intr mmio_in e (y_disk y) = Panic "virtio_disk_intr status") /\
  (y_threads y = [] -> y_returned y ≡ₚ y_calls y /\ y_errors y = [] /\ v_free (y_disk y) = replicate NUM true).
Proof using device_virtio.
  intros Hy. destruct (reachable_sinv y Hy) as (A & T & U & D & ts & fs & Hi). pose proof Hi as Hi'. destruct Hi.
  assert (Herr : y_errors y = [] <-> failed (y_disk y) U = []) by (by eapply errors_nil).
  split; [rewrite Herr; done|]. split; [rewrite si_done0; by apply submseteq_inserts_r|]. split; [|split].
  - rewrite si_done0, si_errors0, si_calls0, (Permutation_map t_call si_threads0), !map_app, si_reqs0, !map_app.
    assert (Hp : map q_x (performed (y_disk y) U) ++ map q_x (failed (y_disk y) U) ≡ₚ map q_x U)
      by (by rewrite <- map_app, performed_failed). rewrite <- Hp. solve_submseteq.
  - intros e He. pose proof (intr_run mmio_in _ _ _ _ _ _ _ e Hi' He) as Hr.
    do 2 case_decide; try tauto. destruct Hr as (e' & d' & _ & Hr & _). eauto.
  - intros E. rewrite E in *. split; [rewrite si_calls0; by rewrite app_nil_r|].
    symmetry in si_threads0. apply Permutation_nil_r in si_threads0. apply app_eq_nil in si_threads0 as [-> ->].
    symmetry in si_reqs0. apply Permutation_nil_r in si_reqs0. apply map_eq_nil in si_reqs0.
    split; [apply Herr; by destruct A, T, U|].
    destruct si_disk0 as [Hs Ho _ _ _ _]. rewrite si_reqs0 in Ho. apply list_eq. intros i.
    destruct (decide (i < NUM)%nat) as [Hl|Hl].
    + rewrite (ow_free _ _ Ho), lookup_replicate_2 by done. done.
    + rewrite !lookup_ge_None_2; [done| |]; rewrite ?length_replicate, ?(sh_free _ Hs); lia.
Qed.
End system_thms.

(** ** Two runs: boot, a write of block 3 from buffer 1 that is performed,
    interrupt, return; and one that fails *)

Definition demo_mmio (r : Z) : Z :=
  if r =? VIRTIO_MMIO_MAGIC_VALUE then 0x74726976 else if r =? VIRTIO_MMIO_VERSION then 2
  else if r =? VIRTIO_MMIO_DEVICE_ID then 2 else if r =? VIRTIO_MMIO_VENDOR_ID then 0x554d4551
  else if r =? VIRTIO_MMIO_QUEUE_NUM_MAX then 1024 else 0.
Definition demo_boot : vstate :=
  mkVstate (mkKmem 0x80041000 (store64 (store64 ∅ 0x80041000 0x80042000) 0x80042000 0x80043000))
    (mkVdisk [] 0 [] 0 [] [] 0 (replicate NUM None) (replicate NUM 0) (replicate NUM req0) (replicate 3 false) []).
Definition demo_disk_env : env := mkEnv 0 1 false [] [] 2.
Definition demo_xfer : xfer := mkXfer 1 3 true.

Definition take_next (h : nat) (y : dsys) : dsys :=
  mkDsys (y_disk y) (u16 (y_seen y + 1)) (h :: y_taken y) (y_threads y) (y_calls y) (y_done y) (y_errors y) (y_returned y) (y_fault y).
Definition complete_only (st : Z) (q : dreq) (y : dsys) : dsys :=
  mkDsys (completed st (y_disk y) q) (y_seen y) [] (y_threads y) (y_calls y) (if st =? 0 then q_x q :: y_done y else y_done y)
    (if st =? 0 then y_errors y else q_x q :: y_errors y) (y_returned y) (y_fault y).

Lemma take_next_step h y :
  y_seen y <> v_avail_idx (y_disk y) -> v_avail_ring (y_disk y) !! slot (y_seen y) = Some h ->
  device_step y (take_next h y).
Proof. apply dev_take. Qed.

Lemma complete_only_step st q y :
  0 <= st < 256 -> y_taken y = [q0 q] -> decode (y_disk y) (q0 q) = Some (q_x q, q0 q) -> device_step y (complete_only st q y).
Proof. intros Hst Ht Hd. by eapply (dev_complete y [] (q0 q) []). Qed.

Definition dy0 : dsys :=
  match virtio_disk_init demo_mmio 8 demo_disk_env demo_boot with
  | Ok _ _ s => mkDsys (vs_disk s) 0 [] [] [] [] [] [] None
  | _ => mkDsys (vs_disk demo_boot) 0 [] [] [] [] [] [] (Some "boot")
  end.
Definition dy1 : dsys :=
  default dy0 (outcome demo_xfer (virtio_disk_rw 1 3 true demo_disk_env (y_disk dy0)) (called demo_xfer dy0)).
Definition dy2 : dsys := take_next 0 dy1.
Definition dy3 : dsys := complete_only 0 (mkDreq 0 1 2 demo_xfer) dy2.
Definition dy3_failed : dsys := complete_only 1 (mkDreq 0 1 2 demo_xfer) dy2.
Definition dy4 : dsys := intr_outcome (virtio_disk_intr demo_mmio demo_disk_env (y_disk dy3)) dy3.
Definition dy5 : dsys :=
  match y_threads dy4 with
  | [t] => default dy4 (outcome (t_call t) (t_go t demo_disk_env (y_disk dy4)) (with_threads [] dy4))
  | _ => dy4
  end.

Lemma is_some_default {A} (a : A) (o : option A) : (if o then true else false) = true -> o = Some (default a o).
Proof. by destruct o. Qed.

Lemma demo_booted : booted (vs_disk demo_boot).
Proof. by split. Qed.

Lemma demo_boots :
  match virtio_disk_init demo_mmio 8 demo_disk_env demo_boot with Ok _ _ _ => true | _ => false end = true.
Proof. vm_compute. reflexivity. Qed.

Lemma demo_submits : reachable demo_mmio device_step dy2.
Proof.
  assert (R0 : reachable demo_mmio device_step dy0).
  { unfold dy0. pose proof demo_boots as H.
    destruct (virtio_disk_init demo_mmio 8 demo_disk_env demo_boot) as [[] e s|m| |c e s k] eqn:E; [|done..].
    exact (rc_init _ _ 8 _ _ _ _ demo_booted E). }
  assert (R1 : reachable demo_mmio device_step dy1).
  { eapply rc_step; [exact R0|vm_compute; reflexivity|]. apply (st_call _ _ _ _ demo_xfer demo_disk_env); [done..| | |].
    - apply Nat.ltb_lt. vm_compute. reflexivity.
    - replace (y_threads dy0) with (@nil thread) by (vm_compute; reflexivity). apply not_elem_of_nil.
    - apply is_some_default. vm_compute. reflexivity. }
  eapply rc_step; [exact R1|vm_compute; reflexivity|]. apply st_device.
  apply take_next_step; [apply Z.eqb_neq|]; vm_compute; reflexivity.
Qed.

Lemma demo_completes st : 0 <= st < 256 -> reachable demo_mmio device_step (complete_only st (mkDreq 0 1 2 demo_xfer) dy2).
Proof.
  intros Hst. eapply rc_step; [exact demo_submits|vm_compute; reflexivity|]. apply st_device.
  apply complete_only_step; [exact Hst|vm_compute; reflexivity..].
Qed.

Lemma demo_returns : reachable demo_mmio device_step dy5.
Proof.
  assert (R4 : reachable demo_mmio device_step dy4).
  { eapply rc_step; [apply (demo_completes 0); lia|vm_compute; reflexivity|]. by apply st_intr. }
  eapply rc_step; [exact R4|vm_compute; reflexivity|]. unfold dy5. destruct (y_threads dy4) as [|t [|t' l]] eqn:E.
  - exfalso. assert (H : length (y_threads dy4) = 1%nat) by (vm_compute; reflexivity). by rewrite E in H.
  - apply (st_resume _ _ _ _ [] t [] demo_disk_env); [done|done|]. apply is_some_default.
    assert (H : match y_threads dy4 with
                | [t] => if outcome (t_call t) (t_go t demo_disk_env (y_disk dy4)) (with_threads [] dy4) then true else false
                | _ => false end = true) by (vm_compute; reflexivity).
    by rewrite E in H.
  - exfalso. assert (H : length (y_threads dy4) = 1%nat) by (vm_compute; reflexivity). by rewrite E in H.
Qed.

Lemma disk_driver_correct_witness :
  (y_fault dy5 = None /\ y_returned dy5 = [demo_xfer] /\ [demo_xfer] ⊆+ y_done dy5 /\
   v_free (y_disk dy5) = replicate NUM true) /\
  virtio_disk_intr demo_mmio demo_disk_env (y_disk dy3_failed) = Panic "virtio_disk_intr status".
Proof.
  split.
  - destruct (disk_driver_correct demo_mmio device_step (fun _ _ H => H) dy5 demo_returns) as (_ & H2 & _ & _ & H4).
    assert (E : y_returned dy5 = [demo_xfer]) by (vm_compute; reflexivity). rewrite E in H2.
    split; [vm_compute; reflexivity|]. split; [exact E|]. split; [exact H2|]. apply H4. vm_compute. reflexivity.
  - destruct (disk_driver_correct demo_mmio device_step (fun _ _ H => H) dy3_failed (demo_completes 1 ltac:(lia))) as (_ & _ & _ & H & _).
    specialize (H demo_disk_env eq_refl).
    assert (E : y_errors dy3_failed = [demo_xfer]) by (vm_compute; reflexivity). rewrite E in H. exact H.
Defined.
