(* ===== verification/Datetime.v ===== *)
(** * kernel/datetime.c: calendar arithmetic of the datetime system call *)

From S2P Require Import Prelude.

(** struct rtcdate of types.h. *)
Record rtcdate : Set := mkRtcdate {
  second : Z; minute : Z; hour : Z; day : Z; month : Z; year : Z
}.

Definition is_leap_year (year : Z) : bool :=
  ((year mod 4 =? 0) && negb (year mod 100 =? 0)) || (year mod 400 =? 0).

Definition days_in_month : list Z := [31; 28; 31; 30; 31; 30; 31; 31; 30; 31; 30; 31].

(** days_in_month[month], with the leap day; [month] counts from 0. *)
Definition month_days (year month : Z) : Z :=
  if (month =? 1) && is_leap_year year then 29
  else default 0 (days_in_month !! Z.to_nat month).

(** while (1): subtract whole years.  A year has at least 365 days. *)
Fixpoint year_loop (fuel : nat) (days year : Z) : option (Z * Z) :=
  let days_this_year := if is_leap_year year then 366 else 365 in
  if days <? days_this_year then Some (days, year)
  else
    match fuel with
    | O => None
    | S fuel => year_loop fuel (days - days_this_year) (u64 (year + 1))
    end.

(** while (month < 12): subtract whole months, [k] = 12 - month left. *)
Fixpoint month_loop (k : nat) (days year month : Z) : Z * Z :=
  match k with
  | O => (days, month)
  | S k =>
      if days <? month_days year month then (days, month)
      else month_loop k (days - month_days year month) year (month + 1)
  end.

Definition timestamp_to_date (timestamp : Z) : option rtcdate :=
  let second := timestamp mod 60 in
  let minutes := timestamp / 60 in
  let minute := minutes mod 60 in
  let hours := minutes / 60 in
  let hour := hours mod 24 in
  let days := hours / 24 in
  match year_loop (Z.to_nat (days / 365)) days 1970 with
  | None => None
  | Some (days, year) =>
      let r := month_loop 12 days year 0 in
      Some (mkRtcdate second minute hour (u64 (r.1 + 1)) (r.2 + 1) year)
  end.

Definition adjust_timezone (r : rtcdate) (hours_offset : Z) : rtcdate :=
  let new_hour := i32 (i32 (hour r) + hours_offset) in
  if new_hour <? 0 then
    let d := u64 (day r - 1) in
    if d <? 1 then
      let m := u64 (month r - 1) in
      let '(m, y) := if m <? 1 then (12, u64 (year r - 1)) else (m, year r) in
      mkRtcdate (second r) (minute r) (u64 (new_hour + 24)) (month_days y (m - 1)) m y
    else mkRtcdate (second r) (minute r) (u64 (new_hour + 24)) d (month r) (year r)
  else if 24 <=? new_hour then
    let d := u64 (day r + 1) in
    if month_days (year r) (month r - 1) <? d then
      let m := u64 (month r + 1) in
      let '(m, y) := if 12 <? m then (1, u64 (year r + 1)) else (m, year r) in
      mkRtcdate (second r) (minute r) (u64 (new_hour - 24)) 1 m y
    else mkRtcdate (second r) (minute r) (u64 (new_hour - 24)) d (month r) (year r)
  else mkRtcdate (second r) (minute r) (u64 new_hour) (day r) (month r) (year r).

(** ** Reference: the proleptic Gregorian calendar in closed form *)

(** Leap years among the years 1 .. y. *)
Definition leaps (y : Z) : Z := y / 4 - y / 100 + y / 400.

(** Days from 1970-01-01 to the first day of year [y]. *)
Definition days_to_year (y : Z) : Z := 365 * (y - 1970) + leaps (y - 1) - leaps 1969.

(** 1 in a leap year, 0 in others. *)
Definition leap_day (y : Z) : Z := leaps y - leaps (y - 1).

(** Days from the first day of the year to the first day of a month, from 0. *)
Definition days_to_month (y : Z) (m : nat) : Z :=
  default 0 ([0; 31; 59; 90; 120; 151; 181; 212; 243; 273; 304; 334; 365] !! m) + (if (m <=? 1)%nat then 0 else leap_day y).

(** Days of month [m], from 1. *)
Definition month_length (y m : Z) : Z := days_to_month y (Z.to_nat m) - days_to_month y (Z.to_nat (m - 1)).

Definition unix_time (r : rtcdate) : Z :=
  (((days_to_year (year r) + days_to_month (year r) (Z.to_nat (month r - 1)) + (day r - 1)) * 24
    + hour r) * 60 + minute r) * 60 + second r.

Definition valid_date (r : rtcdate) : Prop :=
  0 <= second r < 60 /\ 0 <= minute r < 60 /\ 0 <= hour r < 24 /\
  1 <= month r <= 12 /\ 1 <= day r <= month_length (year r) (month r) /\ 1970 <= year r < 2 ^ 63.

Definition year_days (y : Z) : Z := if is_leap_year y then 366 else 365.

Lemma days_to_year_next y : days_to_year (y + 1) = days_to_year y + year_days y.
Proof.
  unfold days_to_year, year_days, is_leap_year, leaps.
  replace (y + 1 - 1) with y by lia.
  destruct (Z.eqb_spec (y mod 4) 0), (Z.eqb_spec (y mod 100) 0), (Z.eqb_spec (y mod 400) 0); simpl; zdm.
Qed.

Lemma leap_day_eq y : leap_day y = if is_leap_year y then 1 else 0.
Proof.
  pose proof (days_to_year_next y) as H. unfold days_to_year, year_days in H. unfold leap_day.
  replace (y + 1 - 1) with y in H by lia. destruct (is_leap_year y); lia.
Qed.

Lemma days_to_month_12 y : days_to_month y 12 = year_days y.
Proof. unfold year_days, days_to_month. cbn. rewrite leap_day_eq. by destruct (is_leap_year y). Qed.

(** The months of the code are those of the calendar. *)
Lemma days_to_month_S y m : (m < 12)%nat -> days_to_month y (S m) = days_to_month y m + month_days y (Z.of_nat m).
Proof.
  intros Hm. unfold days_to_month, month_days. rewrite leap_day_eq.
  do 12 (destruct m as [|m]; [by destruct (is_leap_year y)|]). lia.
Qed.

Lemma month_days_range y m : 0 <= m < 12 -> 28 <= month_days y m <= 31.
Proof.
  intros Hm. assert (Hin : In m (seqZ 0 12)) by (apply list_elem_of_In, elem_of_seqZ; lia).
  unfold month_days. destruct (is_leap_year y);
    cbn in Hin; repeat (destruct Hin as [<- | Hin]; [vm_compute; split; discriminate|]); done.
Qed.

Lemma days_to_month_next y m :
  1 <= m <= 12 -> days_to_month y (Z.to_nat m) = days_to_month y (Z.to_nat (m - 1)) + month_days y (m - 1).
Proof.
  intros Hm. replace (Z.to_nat m) with (S (Z.to_nat (m - 1))) by lia. rewrite days_to_month_S by lia.
  by rewrite Z2Nat.id by lia.
Qed.

Lemma month_length_eq y m : 1 <= m <= 12 -> month_length y m = month_days y (m - 1).
Proof. intros Hm. unfold month_length. rewrite (days_to_month_next y m) by done. lia. Qed.

Lemma valid_date_eq r :
  valid_date r <->
  0 <= second r < 60 /\ 0 <= minute r < 60 /\ 0 <= hour r < 24 /\
  1 <= month r <= 12 /\ 1 <= day r <= month_days (year r) (month r - 1) /\ 1970 <= year r < 2 ^ 63.
Proof. unfold valid_date. split; intros H; [rewrite <- month_length_eq by lia|rewrite month_length_eq by lia]; lia. Qed.

(** ** The loops *)

Lemma year_loop_spec fuel days y :
  0 <= days < 365 * (Z.of_nat fuel + 1) -> 1970 <= y -> y + Z.of_nat fuel < 2 ^ 63 ->
  exists d' y', year_loop fuel days y = Some (d', y') /\ 0 <= d' < year_days y' /\
    y <= y' <= y + Z.of_nat fuel /\ days_to_year y + days = days_to_year y' + d'.
Proof.
  revert days y. induction fuel as [|fuel IH]; intros days y Hd Hy Hb; cbn [year_loop];
    fold (year_days y); assert (Hyd : 365 <= year_days y <= 366)
      by (unfold year_days; destruct (is_leap_year y); lia);
    destruct (Z.ltb_spec days (year_days y)).
  - exists days, y. repeat split; lia.
  - lia.
  - exists days, y. repeat split; lia.
  - rewrite u64_small by lia. destruct (IH (days - year_days y) (y + 1)) as (d' & y' & H1 & H2 & H3 & H4);
      [lia..|]. exists d', y'. rewrite H1. pose proof (days_to_year_next y). repeat split; lia.
Qed.

Lemma month_loop_spec k days y m :
  (m + k = 12)%nat -> 0 <= days -> days_to_month y m + days < year_days y ->
  exists d' m', month_loop k days y (Z.of_nat m) = (d', Z.of_nat m') /\ (m' < 12)%nat /\
    0 <= d' < month_days y (Z.of_nat m') /\ days_to_month y m + days = days_to_month y m' + d'.
Proof.
  revert days m. induction k as [|k IH]; intros days m Hm Hd Hy; cbn [month_loop].
  - replace m with 12%nat in Hy by lia. rewrite days_to_month_12 in Hy. lia.
  - destruct (Z.ltb_spec days (month_days y (Z.of_nat m))).
    + exists days, m. repeat split; lia.
    + replace (Z.of_nat m + 1) with (Z.of_nat (S m)) by lia.
      destruct (IH (days - month_days y (Z.of_nat m)) (S m)) as (d' & m' & H1 & H2 & H3 & H4);
        [lia|lia|rewrite days_to_month_S by lia; lia|]. exists d', m'. rewrite H1. rewrite days_to_month_S in H4 by lia.
      repeat split; lia.
Qed.

(** C40: timestamp_to_date() is total and inverts the calendar: for every 64-bit
    timestamp its loops end, the result is a valid date of the Gregorian
    calendar, and converting it back with the closed formula gives the
    timestamp. *)
Theorem timestamp_to_date_correct t :
  0 <= t < 2 ^ 64 ->
  exists r, timestamp_to_date t = Some r /\ valid_date r /\ unix_time r = t.
Proof.
  intros Ht. unfold timestamp_to_date. set (days := t / 60 / 60 / 24).
  assert (Hdays : 0 <= days < 2 ^ 48) by (unfold days; zdm).
  destruct (year_loop_spec (Z.to_nat (days / 365)) days 1970) as (d & y & Hy & Hd & Hyr & Hsum); [zdm|lia|zdm|].
  rewrite Hy. change (days_to_year 1970) with 0 in Hsum.
  destruct (month_loop_spec 12 d y 0) as (d' & m & Hml & Hm & Hd' & Hsum'); [done|lia|change (days_to_month y 0) with 0; lia|].
  change (Z.of_nat 0) with 0 in Hml. rewrite Hml. cbn [fst snd].
  assert (Hmd : month_days y (Z.of_nat m) <= 31) by (apply month_days_range; lia).
  rewrite u64_small by lia. eexists. split; [done|]. change (days_to_month y 0) with 0 in Hsum'.
  unfold valid_date, unix_time. cbn [second minute hour day month year].
  rewrite month_length_eq by lia. replace (Z.of_nat m + 1 - 1) with (Z.of_nat m) by lia. rewrite Nat2Z.id.
  replace (d' + 1 - 1) with d' by lia. split; [|unfold days in *; zdm].
  repeat split; try lia; zdm.
Qed.

Lemma timestamp_to_date_correct_witness :
  exists r, timestamp_to_date 1709164800 = Some r /\ month r = 2 /\ day r = 29 /\ unix_time r = 1709164800.
Proof.
  assert (E : timestamp_to_date 1709164800 = Some (mkRtcdate 0 0 0 29 2 2024)) by by vm_compute.
  destruct (timestamp_to_date_correct 1709164800 ltac:(lia)) as (r & H1 & _ & H2).
  exists r. split; [exact H1|]. rewrite E in H1. injection H1 as <-. exact (conj eq_refl (conj eq_refl H2)).
Defined.

(** ** Time zones *)

Lemma days_to_december y : days_to_month y (Z.to_nat (12 - 1)) + 31 = year_days y.
Proof.
  rewrite <- days_to_month_12. change 12%nat with (Z.to_nat 12).
  rewrite (days_to_month_next y 12) by lia. by unfold month_days; cbn.
Qed.

Lemma first_month y : days_to_month y (Z.to_nat (1 - 1)) = 0.
Proof. done. Qed.

(** adjust_timezone() moves a valid date by less than a day's worth of
    hours in either direction, carrying into the day, the month and the year:
    the result is a valid date whose calendar time is the old one plus
    [h] hours.  Called with +2, as sys_datetime() does, the clock goes two
    hours forward, a zone east of Greenwich. *)
Theorem adjust_timezone_correct r h :
  valid_date r -> -24 < h < 24 -> 1970 < year r < 2 ^ 63 - 1 ->
  valid_date (adjust_timezone r h) /\ unix_time (adjust_timezone r h) = unix_time r + 3600 * h.
Proof.
  rewrite !valid_date_eq. destruct r as [s mi hr d m y]. unfold unix_time, adjust_timezone.
  cbn [second minute hour day month year]. intros (Hs & Hmi & Hh & Hm & Hd & _) Hho Hy.
  assert (Hmd : 28 <= month_days y (m - 1) <= 31) by (apply month_days_range; lia).
  rewrite (i32_small hr), i32_small by lia.
  destruct (Z.ltb_spec (hr + h) 0); [|destruct (Z.leb_spec 24 (hr + h))].
  - rewrite (u64_small (d - 1)), (u64_small (hr + h + 24)), (u64_small (m - 1)) by lia.
    destruct (Z.ltb_spec (d - 1) 1); [|cbn [second minute hour day month year]; lia].
    destruct (Z.ltb_spec (m - 1) 1).
    + rewrite u64_small by lia. cbn [second minute hour day month year].
      replace m with 1 by lia. rewrite first_month.
      pose proof (days_to_december (y - 1)). pose proof (days_to_year_next (y - 1)) as Hyn.
      replace (y - 1 + 1) with y in Hyn by lia.
      assert (month_days (y - 1) (12 - 1) = 31) by (unfold month_days; by cbn). lia.
    + cbn [second minute hour day month year].
      assert (28 <= month_days y (m - 1 - 1) <= 31) by (apply month_days_range; lia).
      pose proof (days_to_month_next y (m - 1) ltac:(lia)). lia.
  - rewrite (u64_small (d + 1)), (u64_small (hr + h - 24)), (u64_small (m + 1)) by lia.
    destruct (Z.ltb_spec (month_days y (m - 1)) (d + 1)); [|cbn [second minute hour day month year]; lia].
    destruct (Z.ltb_spec 12 (m + 1)).
    + rewrite u64_small by lia. cbn [second minute hour day month year].
      replace m with 12 in * by lia. rewrite first_month.
      pose proof (days_to_december y). pose proof (days_to_year_next y).
      assert (month_days y (12 - 1) = 31) by (unfold month_days; by cbn).
      assert (28 <= month_days (y + 1) (1 - 1) <= 31) by (apply month_days_range; lia). lia.
    + cbn [second minute hour day month year].
      assert (28 <= month_days y (m + 1 - 1) <= 31) by (apply month_days_range; lia).
      pose proof (days_to_month_next y m ltac:(lia)). replace (m + 1 - 1) with m in * by lia. lia.
  - rewrite u64_small by lia. cbn [second minute hour day month year]. lia.
Qed.

Lemma adjust_timezone_correct_witness :
  adjust_timezone (mkRtcdate 5 30 23 31 12 2024) 2 = mkRtcdate 5 30 1 1 1 2025 /\
  unix_time (adjust_timezone (mkRtcdate 5 30 23 31 12 2024) 2) =
    unix_time (mkRtcdate 5 30 23 31 12 2024) + 7200.
Proof.
  split; [by vm_compute|].
  apply (adjust_timezone_correct (mkRtcdate 5 30 23 31 12 2024) 2); [|lia|cbn; lia].
  vm_compute. repeat split; done.
Defined.
