(* ===== verification/Sysproc.v ===== *)
(** * The system calls on processes and the dispatcher

    kernel/sysproc.c, sysutil.c, syscount.c, sysprocessid.c, sysptable.c, the
    system call of datetime.c and syscall() of syscall.c.

    A handler returns its result as the 64-bit value stored in a0.  [junk]
    stands for the bytes of the kernel stack that a handler copies out or
    reuses before assigning them. *)

From S2P Require Import Prelude KMonad CString Sleeplock Bio Log Riscv Kalloc Vm Proc Fs Pipe.
From S2P Require Import Uart Console File Fork Exec Syscall Sysfile Datetime.
Open Scope kmonad_scope.

(** ** syscall.h *)

Definition SYS_fork : Z := 1.
Definition SYS_exit : Z := 2.
Definition SYS_wait : Z := 3.
Definition SYS_pipe : Z := 4.
Definition SYS_read : Z := 5.
Definition SYS_kill : Z := 6.
Definition SYS_exec : Z := 7.
Definition SYS_fstat : Z := 8.
Definition SYS_chdir : Z := 9.
Definition SYS_dup : Z := 10.
Definition SYS_getpid : Z := 11.
Definition SYS_sbrk : Z := 12.
Definition SYS_sleep : Z := 13.
Definition SYS_uptime : Z := 14.
Definition SYS_open : Z := 15.
Definition SYS_write : Z := 16.
Definition SYS_mknod : Z := 17.
Definition SYS_unlink : Z := 18.
Definition SYS_link : Z := 19.
Definition SYS_mkdir : Z := 20.
Definition SYS_close : Z := 21.
Definition SYS_kbdint : Z := 22.
Definition SYS_count : Z := 23.
Definition SYS_getppid : Z := 24.
Definition SYS_getptable : Z := 25.
Definition SYS_shutdown : Z := 26.
Definition SYS_random : Z := 27.
Definition SYS_datetime : Z := 28.
Definition SYS_getprocinfo : Z := 29.

Section sysproc.
Variables kend trampoline forkret_addr : Z.
(** BOOT_EPOCH, a macro set by the build. *)
Variable BOOT_EPOCH : Z.
Variable junk : list Z.

(** ** sysproc.c *)

Definition sys_exit : K kstate Z :=
  n <- kp (argint 0) ;;
  exit kend n.

Definition sys_getpid : K kstate Z :=
  me <- asks e_me ;;
  kp (getp me p_pid).

Definition sys_fork : K kstate Z := fork kend trampoline forkret_addr.

Definition sys_wait : K kstate Z :=
  p <- kp (argaddr 0) ;;
  kp (wait kend p).

Definition sys_sbrk : K kstate Z :=
  me <- asks e_me ;;
  n <- kp (argint 0) ;;
  addr <- kp (getp me p_sz) ;;
  r <- kp (growproc kend n) ;;
  if r <? 0 then ret (-1) else ret addr.

(** while(ticks - ticks0 < n), an unsigned comparison. *)
Fixpoint sys_sleep_loop (fuel : nat) (ticks0 n : Z) : K pstate Z :=
  t <- gets ticks ;;
  if u32 (t - ticks0) <? n then
    me <- asks e_me ;;
    k <- killed me ;;
    if negb (k =? 0) then release LkTicks ;;; ret (-1)
    else
      match fuel with
      | O => out_of_fuel
      | S fuel =>
          KMonad.sleep ChTicks LkTicks ;;;
          sys_sleep_loop fuel ticks0 n
      end
  else release LkTicks ;;; ret 0.

Definition sys_sleep : K kstate Z :=
  n <- kp (argint 0) ;;
  let n := if n <? 0 then 0 else n in
  acquire LkTicks ;;;
  ticks0 <- kp (gets ticks) ;;
  spin <- asks e_spin ;;
  kp (sys_sleep_loop spin ticks0 n).

Definition sys_kill : K kstate Z :=
  pid <- kp (argint 0) ;;
  kp (kill pid).

Definition sys_uptime : K kstate Z :=
  acquire LkTicks ;;;
  t <- kp (gets ticks) ;;
  release LkTicks ;;;
  ret t.

Definition sys_getprocinfo : K kstate Z :=
  p <- kp (argaddr 0) ;;
  kp (getprocinfo kend p).

(** ** sysutil.c, syscount.c, sysprocessid.c, sysptable.c *)

Definition sys_kbdint : K kstate Z := gets (fun s => keyboard_int_cnt (k_dev s)).

Definition sys_shutdown : K kstate Z :=
  modm (fun m => set_mmio ((0x100000, 0x5555) :: mmio m) m) ;;; ret 0.

Definition sys_random : K kstate Z :=
  t <- kp (gets ticks) ;;
  modm (set_seed t) ;;;
  s <- getm seed ;;
  modm (set_seed (u32 (u32 (1103515245 * s) + 12345) mod 10)) ;;;
  getm seed.

Definition sys_count : K kstate Z := getm count_sys.

Definition sys_getppid : K kstate Z :=
  me <- asks e_me ;;
  par <- kp (getp me p_parent) ;;
  match par with
  | None => ret 0
  | Some q => kp (getp q p_pid)
  end.

Definition sys_getptable : K kstate Z :=
  nproc <- kp (argint 0) ;;
  buffer <- kp (argaddr 1) ;;
  kp (getptable nproc buffer (take 16 junk) (take 4 junk)).

(** ** datetime.c *)

Definition read_mtime : K kstate Z := getm mtime.

Definition sys_datetime : K kstate Z :=
  current_cycles <- read_mtime ;;
  let seconds_since_boot := current_cycles / 10000000 in
  let current_timestamp := u64 (BOOT_EPOCH + seconds_since_boot) in
  match timestamp_to_date current_timestamp with
  | None => out_of_fuel
  | Some r =>
      let r := adjust_timezone r 2 in
      kp (printf "Date: %d-%d-%d\n" [PInt (i32 (year r)); PInt (i32 (month r)); PInt (i32 (day r))]) ;;;
      kp (printf "Time: %d:%d:%d (UTC-2)\n"
            [PInt (i32 (hour r)); PInt (i32 (minute r)); PInt (i32 (second r))]) ;;;
      ret 0
  end.

(** ** syscall.c: the table and the dispatcher *)

Definition syscalls : list (Z * K kstate Z) :=
  [(SYS_fork, sys_fork); (SYS_exit, sys_exit); (SYS_wait, sys_wait); (SYS_pipe, sys_pipe kend);
   (SYS_read, sys_read); (SYS_kill, sys_kill); (SYS_exec, sys_exec kend trampoline);
   (SYS_fstat, sys_fstat junk); (SYS_chdir, sys_chdir); (SYS_dup, sys_dup);
   (SYS_getpid, sys_getpid); (SYS_sbrk, sys_sbrk); (SYS_sleep, sys_sleep);
   (SYS_uptime, sys_uptime); (SYS_open, sys_open kend junk); (SYS_write, sys_write);
   (SYS_mknod, sys_mknod junk); (SYS_unlink, sys_unlink junk); (SYS_link, sys_link junk);
   (SYS_mkdir, sys_mkdir junk); (SYS_close, sys_close kend); (SYS_kbdint, sys_kbdint);
   (SYS_count, sys_count); (SYS_getppid, sys_getppid); (SYS_getptable, sys_getptable);
   (SYS_shutdown, sys_shutdown); (SYS_random, sys_random); (SYS_getprocinfo, sys_getprocinfo);
   (SYS_datetime, sys_datetime)].

Fixpoint lookup_call (num : Z) (l : list (Z * K kstate Z)) : option (K kstate Z) :=
  match l with
  | [] => None
  | (n, h) :: l => if n =? num then Some h else lookup_call num l
  end.

Definition syscall : K kstate unit :=
  p <- asks e_me ;;
  a7 <- kp (tf_read p tf_a7) ;;
  let num := i32 a7 in
  match lookup_call num syscalls with
  | Some h =>
      modm (fun m => set_count (u64 (count_sys m + 1)) m) ;;;
      r <- h ;;
      kp (tf_write p tf_a0 (u64 r))
  | None =>
      pid <- kp (getp p p_pid) ;;
      name <- kp (getp p p_name) ;;
      kp (printf "%d %s: unknown sys call %d\n" [PInt pid; PStr (until_nul name); PInt num]) ;;;
      kp (tf_write p tf_a0 (u64 (-1)))
  end.
End sysproc.
