(* ===== verification/Trap.v ===== *)
(** * kernel/trap.c and plic.c: traps and interrupts

    [regs] are the control registers of the hart the code runs on and the
    interrupt controller's claim register.  After usertrapret() the hart runs
    user code: that routine returns the satp value handed to trampoline.S. *)

From S2P Require Import Prelude KMonad CString Sleeplock Bio Log Riscv Kalloc Vm Proc Fs Pipe.
From S2P Require Import Uart Console File Fork Exec Syscall Sysfile Sysproc Virtio.
Open Scope kmonad_scope.

Definition SSTATUS_SPP : Z := Z.shiftl 1 8.
Definition SSTATUS_SPIE : Z := Z.shiftl 1 5.
Definition SSTATUS_SIE : Z := Z.shiftl 1 1.

Record regs : Set := mkRegs {
  r_sstatus : Z; r_scause : Z; r_sepc : Z; r_stval : Z; r_stvec : Z; r_satp : Z;
  r_tp : Z; r_time : Z; r_stimecmp : Z;
  plic_claims : list Z;               (* what reads of PLIC_SCLAIM return *)
  plic_writes : list (Z * Z)          (* stores to the PLIC, latest first *)
}.

Definition set_sstatus v r := mkRegs v (r_scause r) (r_sepc r) (r_stval r) (r_stvec r) (r_satp r) (r_tp r) (r_time r) (r_stimecmp r) (plic_claims r) (plic_writes r).
Definition set_sepc v r := mkRegs (r_sstatus r) (r_scause r) v (r_stval r) (r_stvec r) (r_satp r) (r_tp r) (r_time r) (r_stimecmp r) (plic_claims r) (plic_writes r).
Definition set_stvec v r := mkRegs (r_sstatus r) (r_scause r) (r_sepc r) (r_stval r) v (r_satp r) (r_tp r) (r_time r) (r_stimecmp r) (plic_claims r) (plic_writes r).
Definition set_satp v r := mkRegs (r_sstatus r) (r_scause r) (r_sepc r) (r_stval r) (r_stvec r) v (r_tp r) (r_time r) (r_stimecmp r) (plic_claims r) (plic_writes r).
Definition set_stimecmp v r := mkRegs (r_sstatus r) (r_scause r) (r_sepc r) (r_stval r) (r_stvec r) (r_satp r) (r_tp r) (r_time r) v (plic_claims r) (plic_writes r).
Definition set_claims v r := mkRegs (r_sstatus r) (r_scause r) (r_sepc r) (r_stval r) (r_stvec r) (r_satp r) (r_tp r) (r_time r) (r_stimecmp r) v (plic_writes r).
Definition set_plic v r := mkRegs (r_sstatus r) (r_scause r) (r_sepc r) (r_stval r) (r_stvec r) (r_satp r) (r_tp r) (r_time r) (r_stimecmp r) (plic_claims r) v.

Record tstate : Type := mkTstate { t_k : kstate; t_regs : regs; t_disk : vdisk }.

Definition put_tk k t := mkTstate k (t_regs t) (t_disk t).
Definition put_regs r t := mkTstate (t_k t) r (t_disk t).
Definition put_tdisk d t := mkTstate (t_k t) (t_regs t) d.
Definition tk {A} (m : K kstate A) : K tstate A := zoom t_k put_tk m.
Definition tdisk {A} (m : K vdisk A) : K tstate A := zoom t_disk put_tdisk m.
Definition reg {A} (f : regs -> A) : K tstate A := gets (fun t => f (t_regs t)).
Definition wreg (f : regs -> regs) : K tstate unit := modify (fun t => put_regs (f (t_regs t)) t).

(** riscv.h: interrupts of this hart. *)
Definition intr_on : K tstate unit := wreg (fun r => set_sstatus (Z.lor (r_sstatus r) SSTATUS_SIE) r).
Definition intr_off : K tstate unit :=
  wreg (fun r => set_sstatus (Z.land (r_sstatus r) (Z.lnot SSTATUS_SIE)) r).
Definition intr_get : K tstate bool := reg (fun r => negb (Z.land (r_sstatus r) SSTATUS_SIE =? 0)).

(** ** plic.c *)

Definition plic_store (a v : Z) : K tstate unit := wreg (fun r => set_plic ((a, v) :: plic_writes r) r).

Definition plicinit : K tstate unit :=
  plic_store (PLIC + UART0_IRQ * 4) 1 ;;;
  plic_store (PLIC + VIRTIO0_IRQ * 4) 1.

Definition plicinithart : K tstate unit :=
  hart <- reg r_tp ;;
  plic_store (PLIC_SENABLE hart) (Z.lor (Z.shiftl 1 UART0_IRQ) (Z.shiftl 1 VIRTIO0_IRQ)) ;;;
  plic_store (PLIC_SPRIORITY hart) 0.

Definition plic_claim : K tstate Z :=
  l <- reg plic_claims ;;
  match l with
  | [] => out_of_fuel
  | irq :: l => wreg (set_claims l) ;;; ret irq
  end.

Definition plic_complete (irq : Z) : K tstate unit :=
  hart <- reg r_tp ;;
  plic_store (PLIC_SCLAIM hart) irq.

Section trap.
Variables kend trampoline forkret_addr : Z.
Variable BOOT_EPOCH : Z.
Variable junk : list Z.
(** Addresses of assembly routines and of usertrap(). *)
Variables kernelvec uservec userret usertrap_addr : Z.
Variable mmio_in : Z -> Z.

Definition tkp {A} (m : K pstate A) : K tstate A := tk (kp m).

Definition trapinithart : K tstate unit := wreg (set_stvec kernelvec).

(** ** Interrupts *)

(** w_stimecmp() comes last: a process that yields has not asked for the next
    timer interrupt yet. *)
Definition clockintr : K tstate unit :=
  cpu <- reg r_tp ;;
  (when cpu =? 0 do
     (acquire LkTicks ;;;
      t <- tkp (gets ticks) ;;
      tkp (modify (set_ticks (u32 (t + 1)))) ;;;
      tkp update_time ;;;
      tkp (Proc.wakeup (Some ChTicks)) ;;;
      release LkTicks)) ;;;
  me <- asks e_me ;;
  st <- tkp (getp me p_state) ;;
  (when (me <? NPROC)%nat && bool_decide (st = RUNNING) do
     (mode <- tkp (gets sched_mode) ;;
      if mode =? SCHED_ROUND_ROBIN then tkp yield
      else if mode =? SCHED_PRIORITY then tkp yield
      else ret tt)) ;;;
  now <- reg r_time ;;
  wreg (set_stimecmp (u64 (now + 1000000))).

Definition devintr : K tstate Z :=
  scause <- reg r_scause ;;
  if scause =? 0x8000000000000009 then
    irq <- plic_claim ;;
    (if irq =? UART0_IRQ then tk (kcons uartintr)
     else if irq =? VIRTIO0_IRQ then tdisk (virtio_disk_intr mmio_in)
     else if negb (irq =? 0) then tkp (printf "unexpected interrupt irq=%d\n" [PInt irq])
     else ret tt) ;;;
    (when negb (irq =? 0) do plic_complete irq) ;;;
    ret 1
  else if scause =? 0x8000000000000005 then clockintr ;;; ret 2
  else ret 0.

(** ** From and to user space *)

Definition usertrapret : K tstate Z :=
  p <- asks e_me ;;
  intr_off ;;;
  wreg (set_stvec (u64 (TRAMPOLINE + (uservec - trampoline)))) ;;;
  satp <- reg r_satp ;;
  tkp (tf_write p tf_kernel_satp satp) ;;;
  ks <- tkp (getp p p_kstack) ;;
  tkp (tf_write p tf_kernel_sp (u64 (ks + PGSIZE))) ;;;
  tkp (tf_write p tf_kernel_trap usertrap_addr) ;;;
  tp <- reg r_tp ;;
  tkp (tf_write p tf_kernel_hartid tp) ;;;
  x <- reg r_sstatus ;;
  wreg (set_sstatus (Z.lor (Z.land x (Z.lnot SSTATUS_SPP)) SSTATUS_SPIE)) ;;;
  epc <- tkp (tf_read p tf_epc) ;;
  wreg (set_sepc epc) ;;;
  pt <- tkp (getp p p_pagetable) ;;
  ret (MAKE_SATP pt).

Definition usertrap : K tstate Z :=
  sstatus <- reg r_sstatus ;;
  if negb (Z.land sstatus SSTATUS_SPP =? 0) then panic "usertrap: not from user mode"
  else
    wreg (set_stvec kernelvec) ;;;
    p <- asks e_me ;;
    sepc <- reg r_sepc ;;
    tkp (tf_write p tf_epc sepc) ;;;
    scause <- reg r_scause ;;
    which_dev <-
      (if scause =? 8 then
         k <- tkp (killed p) ;;
         (when negb (k =? 0) do tk (exit kend (-1))) ;;;
         epc <- tkp (tf_read p tf_epc) ;;
         tkp (tf_write p tf_epc (u64 (epc + 4))) ;;;
         intr_on ;;;
         tk (syscall kend trampoline forkret_addr BOOT_EPOCH junk) ;;;
         ret 0
       else
         d <- devintr ;;
         (when d =? 0 do
            (pid <- tkp (getp p p_pid) ;;
             stval <- reg r_stval ;;
             tkp (printf "usertrap(): unexpected scause 0x%lx pid=%d\n" [PInt scause; PInt pid]) ;;;
             tkp (printf "            sepc=0x%lx stval=0x%lx\n" [PInt sepc; PInt stval]) ;;;
             tkp (setkilled p))) ;;;
         ret d) ;;
    k <- tkp (killed p) ;;
    (when negb (k =? 0) do tk (exit kend (-1))) ;;;
    (when which_dev =? 2 do tkp yield) ;;;
    usertrapret.

(** proc.c: the first code a new process runs. *)
Definition forkret : K tstate Z :=
  p <- asks e_me ;;
  release (LkProc p) ;;;
  first <- tk (getm forkret_first) ;;
  (when first do
     (tk (kfs (fsinit ROOTDEV)) ;;;
      tk (modm (set_first false)))) ;;;
  usertrapret.

Definition kerneltrap : K tstate unit :=
  sepc <- reg r_sepc ;;
  sstatus <- reg r_sstatus ;;
  scause <- reg r_scause ;;
  if Z.land sstatus SSTATUS_SPP =? 0 then panic "kerneltrap: not from supervisor mode"
  else
    i <- intr_get ;;
    if i : bool then panic "kerneltrap: interrupts enabled"
    else
      which_dev <- devintr ;;
      if which_dev =? 0 then
        stval <- reg r_stval ;;
        tkp (printf "scause=0x%lx sepc=0x%lx stval=0x%lx\n" [PInt scause; PInt sepc; PInt stval]) ;;;
        panic "kerneltrap"
      else
        me <- asks e_me ;;
        (when (which_dev =? 2) && (me <? NPROC)%nat do tkp yield) ;;;
        wreg (set_sepc sepc) ;;;
        wreg (set_sstatus sstatus).
End trap.
